(* ===== verification/_CoqProject ===== *)
-Q . S2P
Prelude.v
Param.v
KString.v
Spinlock.v
ProcData.v
StateList.v
ProcServices.v
ProcCommon.v
ProcMLFQ.v
ListRep.v
ProcMLFQInv.v
ProcMLFQSched.v
ProcMLFQLife.v
ProcCheck.v
ProcWitness.v
ProcTable.v
ProcTableFair.v
ProcTableWitness.v
Bio.v
Ide.v
Log.v
LogCrash.v
LogOps.v
Kalloc.v
Vm.v
VmMap.v
Pipe.v
Fs.v
FsView.v
FsFile.v
FsRead.v
FsInode.v
FsWrite.v
FsAgree.v
FsWitness.v
Mkfs.v
MkfsBoot.v
Boot.v
Mp.v
Entry.v
FsPath.v
FileTable.v
FileWrite.v
FileWitness.v
Cmos.v
Syscall.v
SysProc.v
Trap.v
Exec.v
SysFile.v
SysFileOps.v
SysWitness.v
Digits.v
Intr.v
Console.v
ConsoleDev.v
Dump.v
Kbd.v
Umalloc.v
Ulib.v
Printf.v
Grep.v
Sh.v
User.v
Programs.v
GrepMain.v
Date.v
ShBuiltin.v
ShRun.v
Ls.v
