(* ===== verification/Prelude.v ===== *)
(** * A verification library for the xv6 kernel and its user programs

    The program under src/ is xv6 for the x86: a kernel, the user programs that run on it and
    the host program that builds its disk.  The kernel manages processes (proc.c) on several
    processors with spin locks (spinlock.c), memory (kalloc.c, vm.c), a file system in layers
    (ide.c or memide.c, bio.c, log.c, fs.c, file.c), pipes and a console; processes enter it
    through traps (trapasm.S, trap.c) and system calls (syscall.c, sysproc.c, sysfile.c,
    exec.c).  The Makefile selects a configuration; the default has CS333_P1, P2 and P5 and
    not P3P4.  Where a file differs by configuration the default one is modelled, and for
    proc.c, whose process lists and priorities are under CS333_P3P4, both.

    ** How code is modelled

    This file has the conventions.  A C function is a function; code with effects is in the
    monad [K S A] of state passing with outcomes: it returns ([Ok]), calls [panic] ([Panic]),
    does something C leaves undefined, such as using a null pointer ([Undef]), or waits or
    loops for ever, or runs out of fuel ([Diverge]).  [runs m s Q] is total correctness:
    [m] started in [s] returns, with a result and a state that satisfy [Q]; its rules
    carry most proofs.  A w-bit integer is a [Z] with its wrap-around written out ([u8],
    [u16], [u32], [s32]); memory is a function from addresses to bytes ([mem]).

    A function that calls [swtch] or [sleep] is cut there: [f_enter] is the part before and
    [f_resume] the part after, and an interleaving is a sequence of such parts.  Bio, Log, Fs
    and FileTable run one process instead: where they would sleep they are [Diverge], and the
    theorems show that they do not get there.  Components with a state of their own are put
    together with [kzoom], which runs code on a part of a larger state.

    What is not code of the repository is a parameter: hardware (the disk, the clock, the
    interrupt controllers) is a class of operations with a class of laws, with an instance
    that satisfies them; what proc.c needs of the rest of the kernel is the class [Services];
    for user programs the kernel is [env].

    ** The files, and what they show

    - Foundations.  Param: constants.  KString: string.c.  Spinlock: spinlock.c; any number
      of CPUs interleave the steps of [acquire] and [release], and never two are between
      them ([mutual_exclusion]).
    - Processes.  ProcData, ProcServices, ProcCommon: the data of proc.h and proc.c and what
      both configurations share.  StateList, ProcMLFQ: the configuration with lists; ListRep,
      ProcMLFQInv, ProcMLFQSched, ProcMLFQLife: every process is on the list of its state, by
      refinement of the pointers to sequences, and each operation keeps that and does what
      it should ([sleep_correct], [wakeup_correct], [kill_correct], [wait_reaps_child],
      [fork_correct], [exit_correct], [scheduler_pass_correct]).  ProcCheck, ProcWitness:
      a checker of the invariant and sample runs.  ProcTable, ProcTableFair,
      ProcTableWitness: the configuration by table scan; each pass of its scheduler gives
      the CPU to every process that is runnable ([scheduler_fair]).  Dump: procdump and the
      dumps of the lists.
    - Disk and log.  Bio: bio.c and memide.c.  Ide: ide.c, which refines a disk that serves
      requests in order ([ide_refines]).  Log, LogCrash, LogOps: log.c; a transaction that
      has returned is on the disk ([transaction_durable]) and one cut short by a crash, also
      by crashes during recovery, is there completely or not at all ([transaction_atomic]).
    - Memory.  Kalloc: kalloc.c.  Vm, VmMap: vm.c on page tables in memory
      ([allocuvm_correct], [copyout_correct]).
    - Files.  Fs with FsView, FsFile, FsRead, FsInode, FsWrite, FsAgree, FsPath: fs.c; reading
      and writing against the bytes of a file, with everything else unchanged
      ([writei_correct]).  Pipe: pipe.c, first in first out under every interleaving
      ([pipe_fifo]).  FileTable, FileWrite: file.c.  FsWitness and FileWitness are sample
      states.  Mkfs, MkfsBoot: mkfs.c; the kernel boots from the image and reads back every
      file given to mkfs ([mkfs_boots]).
    - System calls.  Syscall: syscall.c ([argptr_bounds]).  SysProc: sysproc.c.  SysFile,
      SysFileOps, SysWitness: sysfile.c; a [write] or [read] by a process, from the
      arguments on its stack to the disk ([sys_write_correct], [sys_read_correct]).  Exec:
      exec.c.  Trap: trap.c ([trap_killed_exits]).
    - Entering the kernel and booting.  Entry: the descriptors of mmu.h, trapasm.S,
      vectors.pl, swtch.S and usys.S on a part of the processor ([trap_roundtrip], for every
      handler that leaves the trap frame alone, [user_int_safe], [swtch_correct],
      [system_call_correct]).  Boot: bootmain.c ([bootmain_correct]).  Mp: mp.c
      ([mpinit_correct], [mpinit_unknown_entry]).  Intr: picirq.c, ioapic.c, uart.c, timer.c and lapic.c; after
      the calls of [main] each interrupt is routed and masked as intended
      ([main_interrupts_correct]).
    - Devices.  Console, ConsoleDev: console.c; the ring buffer refines a line editor
      ([consoleintr_refines]).  Kbd: kbd.c.  Cmos: the clock of lapic.c.
    - User programs.  Ulib, Digits, Printf, Umalloc: the library; [malloc] returns memory
      that nobody else has ([malloc_correct]), [free] takes it back ([free_correct]),
      [printf] prints what its format says ([printf_correct]).  Grep, GrepMain: the
      matcher against the language of a pattern, and the program ([match_correct],
      [grep_main_correct]).  Sh: the parser, which ends on every line and inverts printing
      ([parsecmd_terminates], [parsecmd_print]).  User: programs as interaction trees over
      the system calls.  ShBuiltin, ShRun: the shell against the meaning of its commands
      ([sh_main_correct]).  Programs, Date, Ls: the small programs ([date_correct],
      [ls_correct]).

    ** Fuel

    Recursion that is not structural takes fuel, and running out of it is [Diverge], so a
    theorem that says [Ok] or [runs] says that the fuel is enough.  Walks over process lists
    take [NPROC] units, one per process; loops over pages one per page of the address
    space; loops over strings one per byte and one for the NUL; the matchers
    [|re| + |text| + 2]; the parser [4 * n + 4] for a line of [n] bytes; loops that poll a
    device as many as its class promises are enough.  User programs are interaction trees and
    need none; their theorems say that from some amount on the interpreter [run] returns
    the result.

    ** Not modelled

    - Assembly that switches the mode of the processor (bootasm.S, entry.S, entryother.S)
      and the first process (initcode.S), and loading of control and segment registers
      (lgdt, ltr, lcr3): only what they load is modelled.
    - [main] and [startothers] of main.c beyond the calls that set up interrupts and those
      of booting from an image; [kvmalloc] and [switchkvm], which only load a register.
    - [sys_halt], which writes to a port; the text that [panic] prints; messages of drivers.
    - The interleaving of several processes inside the file system: sleep locks of inodes
      and buffers are modelled for one process.  Interleavings are covered for spin locks,
      processes, pipes, the disk queue and the console.
    - The test programs (usertests.c, forktest.c, stressfs.c, p2testsuite.c,
      testSched.c and others), which are tests of the system and not parts of it. *)

From stdpp Require Export base tactics functions list gmap strings.
From Stdlib Require Export ZArith Lia.

#[export] Set Default Goal Selector "!".

(** ** Outcomes of kernel code *)

(** A call of a kernel function ends in one of four ways: it returns, it
    calls [panic], it does something the C standard leaves undefined (a null
    or out-of-range access), or a loop of the model runs out of fuel. *)
Inductive outcome (A : Type) : Type :=
| Ok (a : A)
| Panic (msg : string)
| Undef (msg : string)
| Diverge.
Arguments Ok {A} a.
Arguments Panic {A} msg.
Arguments Undef {A} msg.
Arguments Diverge {A}.

Definition obind {A B : Type} (m : outcome A) (f : A → outcome B) : outcome B :=
  match m with
  | Ok a => f a
  | Panic msg => Panic msg
  | Undef msg => Undef msg
  | Diverge => Diverge
  end.

#[export] Instance outcome_ret : MRet outcome := fun A a => Ok a.
#[export] Instance outcome_bind : MBind outcome := fun A B f m => obind m f.

Definition is_Ok {A : Type} (m : outcome A) : Prop := ∃ a, m = Ok a.

Definition of_option {A : Type} (msg : string) (o : option A) : outcome A :=
  match o with Some a => Ok a | None => Undef msg end.

(** ** Stateful kernel code: state passing with outcomes *)

Definition K (S A : Type) : Type := S → outcome (A * S).

#[export] Instance K_ret {S : Type} : MRet (K S) := fun A a s => Ok (a, s).
#[export] Instance K_bind {S : Type} : MBind (K S) :=
  fun A B f m s => obind (m s) (fun r => f r.1 r.2).

Definition kget {S : Type} : K S S := fun s => Ok (s, s).
Definition kmod {S : Type} (f : S → S) : K S unit := fun s => Ok (tt, f s).
Definition kpanic {S A : Type} (msg : string) : K S A := fun _ => Panic msg.
Definition kundef {S A : Type} (msg : string) : K S A := fun _ => Undef msg.
Definition kwhen {S : Type} (b : bool) (m : K S unit) : K S unit :=
  if b then m else mret tt.

(** A computation without state; a computation on one component of the state. *)
Definition kout {S A : Type} (o : outcome A) : K S A := fun s => obind o (fun a => Ok (a, s)).
Definition kzoom {S T A : Type} (get : S → T) (set : T → S → S) (m : K T A) : K S A :=
  fun s => obind (m (get s)) (fun r => Ok (r.1, set r.2 s)).

(** [runs m s Q]: [m], started in [s], returns normally, with a result and a
    final state that satisfy [Q] (total correctness). *)
Definition runs {S A : Type} (m : K S A) (s : S) (Q : A → S → Prop) : Prop :=
  ∃ a s', m s = Ok (a, s') ∧ Q a s'.

(** Run a body for each element of a list, in order. *)
Fixpoint kiter {S A : Type} (l : list A) (body : A → K S unit) : K S unit :=
  match l with
  | [] => mret tt
  | a :: l' => body a;; kiter l' body
  end.

(** As [kiter], stopping at the first body that yields a value. *)
Fixpoint kfind {S A R : Type} (l : list A) (body : A → K S (option R)) : K S (option R) :=
  match l with
  | [] => mret None
  | a :: l' =>
      r ← body a;
      match r with Some _ => mret r | None => kfind l' body end
  end.

(** ** Machine integers *)

Definition u32 (x : Z) : Z := (x mod 4294967296)%Z.
Definition s32 (x : Z) : Z :=
  (if u32 x <? 2147483648 then u32 x else u32 x - 4294967296)%Z.
Definition u16 (x : Z) : Z := (x mod 65536)%Z.
Definition u8 (x : Z) : Z := (x mod 256)%Z.

(** ** Flat byte memory *)

(** Memory maps an address to the byte stored there, an integer in 0..255. *)
Definition mem : Type := Z → Z.

Definition mupd (m : mem) (a v : Z) : mem := fun x => if (x =? a)%Z then v else m x.

Definition bytes_ok (m : mem) : Prop := ∀ a, (0 ≤ m a < 256)%Z.

(** The [n] bytes from address [a] on. *)
Fixpoint mread (m : mem) (a : Z) (n : nat) : list Z :=
  match n with
  | O => []
  | S n' => m a :: mread m (a + 1)%Z n'
  end.

(** [cstr m a l]: the NUL-terminated string at [a] has the bytes [l]. *)
Fixpoint cstr (m : mem) (a : Z) (l : list Z) : Prop :=
  match l with
  | [] => m a = 0%Z
  | c :: l' => m a = c ∧ c ≠ 0%Z ∧ cstr m (a + 1)%Z l'
  end.

(** A 32-bit little-endian word. *)
Definition load32 (m : mem) (a : Z) : Z :=
  (m a + 256 * (m (a + 1) + 256 * (m (a + 2) + 256 * m (a + 3))))%Z.
Definition store32 (m : mem) (a v : Z) : mem :=
  mupd (mupd (mupd (mupd m a (u8 v)) (a + 1) (u8 (Z.shiftr v 8)))
     (a + 2) (u8 (Z.shiftr v 16))) (a + 3) (u8 (Z.shiftr v 24)).

(** ** Automation *)

Create HintDb xv6.
Create Rewrite HintDb xv6.

(** Case analysis on the boolean comparisons of the code. *)
Ltac bool_case :=
  match goal with
  | |- context [(?a =? ?b)%Z] => destruct (Z.eqb_spec a b)
  | |- context [(?a <? ?b)%Z] => destruct (Z.ltb_spec a b)
  | |- context [(?a <=? ?b)%Z] => destruct (Z.leb_spec a b)
  | |- context [(?a >=? ?b)%Z] => rewrite (Z.geb_leb a b)
  | |- context [(?a >? ?b)%Z] => rewrite (Z.gtb_ltb a b)
  end.
Ltac bool_cases := repeat (bool_case; try lia; simpl; try lia).

(** Linear arithmetic with division and modulo by constants. *)
Ltac zmod_lia := Z.div_mod_to_equations; lia.

(** Case analysis on membership in a literal list. *)
Ltac elem_cases H :=
  first [ exfalso; by apply elem_of_nil in H
        | apply elem_of_cons in H as [->|H]; [|elem_cases H] ].

(** Unfold one layer of the state-and-outcome monad. *)
Ltac kunfold :=
  cbv [mbind mret K_bind K_ret kget kmod kpanic kundef kwhen outcome_bind
       outcome_ret obind] in *.

(** ** Shared lemmas *)

Section Outcomes.
Context {S A B : Type}.

Lemma K_bind_ok (m : K S A) (f : A → K S B) s a s' :
  m s = Ok (a, s') → (m ≫= f) s = f a s'.
Proof. intros H. unfold mbind, K_bind. by rewrite H. Qed.

Lemma K_bind_inv (m : K S A) (f : A → K S B) s b s' :
  (m ≫= f) s = Ok (b, s') → ∃ a s1, m s = Ok (a, s1) ∧ f a s1 = Ok (b, s').
Proof.
  unfold mbind, K_bind, obind. destruct (m s) as [[a s1]| | |]; [|done..].
  eauto.
Qed.

Lemma runs_bind (m : K S A) (f : A → K S B) s Q :
  runs m s (λ a s', runs (f a) s' Q) → runs (m ≫= f) s Q.
Proof.
  intros (a & s1 & Hm & b & s2 & Hf & HQ). exists b, s2. by rewrite (K_bind_ok _ _ _ _ _ Hm).
Qed.

Lemma runs_ret (a : A) (s : S) (Q : A → S → Prop) : Q a s → runs (mret a) s Q.
Proof. intros H. by exists a, s. Qed.

Lemma runs_mono (m : K S A) s (Q Q' : A → S → Prop) :
  runs m s Q → (∀ a s', Q a s' → Q' a s') → runs m s Q'.
Proof. intros (a & s' & Hm & HQ) H. exists a, s'. auto. Qed.

Lemma runs_ok (m : K S A) s a s' (Q : A → S → Prop) :
  m s = Ok (a, s') → Q a s' → runs m s Q.
Proof. intros. by exists a, s'. Qed.
End Outcomes.

(** Two statements before further code, as one. *)
Lemma runs_bind_assoc {S A B C : Type} (m1 : K S C) (m2 : K S A) (f : A → K S B) s Q :
  runs ((m1;; m2) ≫= f) s Q → runs (m1;; (m2 ≫= f)) s Q.
Proof.
  intros (b & s' & E & HQ). apply K_bind_inv in E as (a & s2 & E & Ef).
  apply K_bind_inv in E as (c & s1 & E1 & E2). exists b, s'. split; [|done].
  rewrite (K_bind_ok _ _ _ _ _ E1). by rewrite (K_bind_ok _ _ _ _ _ E2).
Qed.

Lemma runs_get {S : Type} (s : S) (Q : S → S → Prop) : Q s s → runs kget s Q.
Proof. intros H. by exists s, s. Qed.

Lemma runs_mod {S : Type} (f : S → S) (s : S) (Q : unit → S → Prop) :
  Q tt (f s) → runs (kmod f) s Q.
Proof. intros H. by exists tt, (f s). Qed.

Lemma runs_out {S A : Type} (a : A) (s : S) (Q : A → S → Prop) : Q a s → runs (kout (Ok a)) s Q.
Proof. intros H. by exists a, s. Qed.

Lemma runs_zoom {S T A : Type} (get : S → T) (set : T → S → S) (m : K T A) s Q :
  runs m (get s) (λ a t, Q a (set t s)) → runs (kzoom get set m) s Q.
Proof.
  intros (a & t & Hm & HQ). exists a, (set t s). split; [|done].
  unfold kzoom. by rewrite Hm.
Qed.

Lemma elem_of_rev {A : Type} (x : A) (l : list A) : x ∈ rev l ↔ x ∈ l.
Proof. rewrite !list_elem_of_In. symmetry. apply in_rev. Qed.

(** A search whose unsuccessful steps change nothing. *)
Lemma runs_kfind {S A R : Type} (l : list A) (body : A → K S (option R)) (s : S)
    (N : A → Prop) (Q : option R → S → Prop) :
  (∀ a, a ∈ l → runs (body a) s (λ res s',
    match res with Some _ => Q res s' | None => s' = s ∧ N a end)) →
  ((∀ a, a ∈ l → N a) → Q None s) →
  runs (kfind l body) s Q.
Proof.
  induction l as [|a l IH]; intros Hbody HQ.
  - apply runs_ret, HQ. intros a Ha. by apply elem_of_nil in Ha.
  - apply runs_bind. eapply runs_mono; [apply Hbody; left|].
    intros [v|] s' H; [by apply runs_ret|]. destruct H as [-> HN]. apply IH.
    + intros b Hb. apply Hbody. by right.
    + intros HN'. apply HQ. intros b [->|Hb]%elem_of_cons; auto.
Qed.

(** A search whose unsuccessful steps keep an invariant. *)
Lemma runs_kfind_inv {S A R : Type} (l : list A) (body : A → K S (option R)) (I : S → Prop)
    (N : A → Prop) (Q : option R → S → Prop) :
  (∀ a s, a ∈ l → I s → runs (body a) s (λ res s',
    match res with Some _ => Q res s' | None => I s' ∧ N a end)) →
  (∀ s, I s → (∀ a, a ∈ l → N a) → Q None s) →
  ∀ s, I s → runs (kfind l body) s Q.
Proof.
  induction l as [|a l IH]; intros Hbody HQ s HI.
  - apply runs_ret, HQ; [done|]. intros a Ha. by apply elem_of_nil in Ha.
  - apply runs_bind. eapply runs_mono; [apply Hbody; [left | done]|].
    intros [v|] s' H; [by apply runs_ret|]. destruct H as [HI' HN]. apply IH; [..|done].
    + intros b s'' Hb. apply Hbody. by right.
    + intros s'' HI'' HN'. apply HQ; [done|]. intros b [->|Hb]%elem_of_cons; auto.
Qed.

(** A counting loop, by an invariant. *)
Lemma runs_kiter_seq {S : Type} (body : nat → K S unit) (I : nat → S → Prop) n :
  (∀ k s, (k < n)%nat → I k s → runs (body k) s (λ _ s', I (Datatypes.S k) s')) →
  ∀ s (Q : unit → S → Prop), I 0%nat s → (∀ s', I n s' → Q tt s') →
  runs (kiter (seq 0 n) body) s Q.
Proof.
  intros Hbody.
  assert (Hgen : ∀ m k s Q, (k + m)%nat = n → I k s → (∀ s', I n s' → Q tt s') →
    runs (kiter (seq k m) body) s Q).
  { induction m as [|m IH]; intros k s Q Hkm HI HQ.
    - apply runs_ret, HQ. assert (k = n) as <- by lia. done.
    - apply runs_bind. eapply runs_mono; [apply Hbody; [lia | done]|].
      intros [] s' HI'. apply IH; [lia | done..]. }
  intros s Q HI HQ. by apply Hgen.
Qed.

Section Integers.
Local Open Scope Z_scope.

Lemma u32_range x : 0 ≤ u32 x < 4294967296.
Proof. unfold u32. by apply Z.mod_pos_bound. Qed.

Lemma u32_small x : 0 ≤ x < 4294967296 → u32 x = x.
Proof. intros. unfold u32. by apply Z.mod_small. Qed.

Lemma u16_small x : 0 ≤ x < 65536 → u16 x = x.
Proof. intros. unfold u16. by apply Z.mod_small. Qed.

Lemma u8_testbit x k : 0 ≤ k < 8 → Z.testbit (u8 x) k = Z.testbit x k.
Proof. intros Hk. unfold u8. change 256 with (2 ^ 8). by rewrite Z.mod_pow2_bits_low by lia. Qed.

Lemma u32_u32 x : u32 (u32 x) = u32 x.
Proof. apply u32_small, u32_range. Qed.

Lemma u32_add_l x y : u32 (u32 x + y) = u32 (x + y).
Proof. unfold u32. apply Zplus_mod_idemp_l. Qed.

Lemma u32_add_r x y : u32 (x + u32 y) = u32 (x + y).
Proof. unfold u32. apply Zplus_mod_idemp_r. Qed.

Lemma u32_sub_l x y : u32 (u32 x - y) = u32 (x - y).
Proof. unfold u32. apply Zminus_mod_idemp_l. Qed.

Lemma u32_sub_r x y : u32 (x - u32 y) = u32 (x - y).
Proof. unfold u32. apply Zminus_mod_idemp_r. Qed.

Lemma s32_range x : -2147483648 ≤ s32 x < 2147483648.
Proof. unfold s32. pose proof (u32_range x). bool_cases. Qed.

Lemma s32_small x : -2147483648 ≤ x < 2147483648 → s32 x = x.
Proof.
  intros H. unfold s32, u32. destruct (Z.leb_spec 0 x).
  - rewrite Z.mod_small by lia. bool_cases.
  - rewrite <- (Z_mod_plus_full x 1), Z.mod_small by lia. bool_cases.
Qed.

Lemma u8_range x : 0 ≤ u8 x < 256.
Proof. unfold u8. by apply Z.mod_pos_bound. Qed.

Lemma u8_small x : 0 ≤ x < 256 → u8 x = x.
Proof. intros. by apply Z.mod_small. Qed.
End Integers.

#[export] Hint Resolve u32_range s32_range u8_range : xv6.
#[export] Hint Rewrite u32_u32 u32_add_l u32_add_r u32_sub_l u32_sub_r : xv6.

Section Memory.
Local Open Scope Z_scope.

Lemma mupd_eq m a v : mupd m a v a = v.
Proof. unfold mupd. by rewrite Z.eqb_refl. Qed.

Lemma mupd_ne m a v x : x ≠ a → mupd m a v x = m x.
Proof. intros. unfold mupd. destruct (Z.eqb_spec x a); congruence. Qed.

Lemma mupd_bytes_ok m a v : bytes_ok m → 0 ≤ v < 256 → bytes_ok (mupd m a v).
Proof. intros Hm Hv x. unfold mupd. destruct (Z.eqb_spec x a); auto. Qed.

Lemma length_mread m a n : length (mread m a n) = n.
Proof. revert a; induction n; simpl; auto. Qed.

Lemma mread_lookup m a n i :
  (i < n)%nat → mread m a n !! i = Some (m (a + Z.of_nat i)).
Proof.
  revert a i; induction n as [|n IH]; intros a i Hi; [lia|].
  destruct i as [|i]; simpl.
  - by rewrite Z.add_0_r.
  - rewrite IH by lia. do 2 f_equal. lia.
Qed.

Lemma mread_ext m m' a n :
  (∀ x, a ≤ x < a + Z.of_nat n → m x = m' x) → mread m a n = mread m' a n.
Proof.
  revert a; induction n as [|n IH]; intros a H; simpl; [done|].
  f_equal; [apply H; lia|]. apply IH. intros; apply H; lia.
Qed.

Lemma mread_app m a n k :
  mread m a (n + k) = mread m a n ++ mread m (a + Z.of_nat n) k.
Proof.
  revert a; induction n as [|n IH]; intros a; simpl.
  - by rewrite Z.add_0_r.
  - rewrite IH. do 3 f_equal. lia.
Qed.

Lemma cstr_ext m m' a l :
  (∀ x, a ≤ x ≤ a + Z.of_nat (length l) → m x = m' x) → cstr m a l → cstr m' a l.
Proof.
  revert a; induction l as [|c l IH]; simpl; intros a H Hs.
  - rewrite <- H by lia. done.
  - destruct Hs as (<- & Hc & Hs). rewrite <- H by lia. split_and!; auto.
    apply IH; [intros; apply H; lia | done].
Qed.

Lemma cstr_nonzero m a l c : cstr m a l → c ∈ l → c ≠ 0.
Proof.
  revert a; induction l as [|b l IH]; intros a Hs Hc; [by apply elem_of_nil in Hc|].
  destruct Hs as (_ & Hb & Hs). apply elem_of_cons in Hc as [->|Hc]; eauto.
Qed.

Lemma cstr_lookup m a l i c :
  cstr m a l → l !! i = Some c → m (a + Z.of_nat i) = c.
Proof.
  revert a i; induction l as [|b l IH]; intros a i Hs Hi; [done|].
  destruct Hs as (Hb & _ & Hs). destruct i as [|i]; simpl in Hi.
  - injection Hi as <-. by rewrite Z.add_0_r.
  - rewrite <- (IH _ _ Hs Hi). f_equal. lia.
Qed.

Lemma cstr_end m a l : cstr m a l → m (a + Z.of_nat (length l)) = 0.
Proof.
  revert a; induction l as [|b l IH]; intros a Hs; simpl in *.
  - by rewrite Z.add_0_r.
  - destruct Hs as (_ & _ & Hs). rewrite <- (IH _ Hs). f_equal. lia.
Qed.

Lemma cstr_inj m a l l' : cstr m a l → cstr m a l' → l = l'.
Proof.
  revert a l'; induction l as [|c l IH]; intros a [|c' l'] H H'; simpl in *;
    try done.
  - destruct H' as (<- & Hc & _). congruence.
  - destruct H as (<- & Hc & _). congruence.
  - destruct H as (<- & Hc & H), H' as (<- & Hc' & H'). f_equal; eauto.
Qed.
(** Words in memory. *)
Lemma load32_store32 m a v : load32 (store32 m a (u32 v)) a = u32 v.
Proof.
  pose proof (u32_range v) as Hv. generalize dependent (u32 v). clear v. intros v Hv.
  unfold load32, store32, mupd, u8. rewrite !Z.shiftr_div_pow2 by lia.
  change (2 ^ 8) with 256. change (2 ^ 16) with 65536. change (2 ^ 24) with 16777216.
  repeat (bool_case; try lia). zmod_lia.
Qed.

Lemma load32_store32_ne m a v x :
  x + 4 ≤ a ∨ a + 4 ≤ x → load32 (store32 m a v) x = load32 m x.
Proof. intros H. unfold load32, store32, mupd. repeat (bool_case; try lia). Qed.
End Memory.
