(* ===== verification/Param.v ===== *)
(** * Constants

    The compile-time constants of the kernel and of the on-disk format that the
    components share, from src/param.h, src/memlayout.h, src/mmu.h, src/fs.h,
    src/stat.h, src/fcntl.h, src/types.h and src/traps.h, for the configuration
    the Makefile selects ([CS333_P5] defined). *)

From S2P Require Import Prelude.
Local Open Scope Z_scope.

(** ** src/param.h *)
Definition NPROC : nat := 64.
Definition KSTACKSIZE : Z := 4096.
Definition NCPU : nat := 8.
Definition NOFILE : nat := 16.
Definition NFILE : nat := 100.
Definition NINODE : nat := 50.
Definition NDEV : Z := 10.
Definition ROOTDEV : Z := 1.
Definition MAXARG : nat := 32.
Definition MAXOPBLOCKS : Z := 10.
Definition LOGSIZE : Z := MAXOPBLOCKS * 3.
Definition NBUF : nat := 30.
Definition FSSIZE : Z := 2000.
Definition MAXPRIO : nat := 6.
Definition TICKS_TO_PROMOTE : Z := 500.
Definition BUDGET : Z := 100.

(** ** src/memlayout.h *)
Definition EXTMEM : Z := 1048576.
Definition PHYSTOP : Z := 234881024.
Definition DEVSPACE : Z := 4261412864.
Definition KERNBASE : Z := 2147483648.
Definition KERNLINK : Z := KERNBASE + EXTMEM.
Definition v2p (a : Z) : Z := u32 (a - KERNBASE).
Definition p2v (a : Z) : Z := u32 (a + KERNBASE).

(** ** src/mmu.h *)
Definition PGSIZE : Z := 4096.
Definition PGROUNDUP (sz : Z) : Z := Z.land (u32 (sz + PGSIZE - 1)) (Z.lnot (PGSIZE - 1)).
Definition PGROUNDDOWN (a : Z) : Z := Z.land a (Z.lnot (PGSIZE - 1)).

(** ** src/types.h *)
Definition TPS : Z := 1000.
Definition SCHED_INTERVAL : Z := TPS / 100.

(** ** src/fcntl.h *)
Definition O_RDONLY : Z := 0.
Definition O_WRONLY : Z := 1.
Definition O_RDWR : Z := 2.
Definition O_CREATE : Z := 512.

(** ** src/traps.h *)
Definition T_SYSCALL : Z := 64.
Definition T_IRQ0 : Z := 32.
Definition IRQ_TIMER : Z := 0.
Definition IRQ_KBD : Z := 1.
Definition IRQ_COM1 : Z := 4.
Definition IRQ_IDE : Z := 14.
Definition IRQ_SPURIOUS : Z := 31.

(** ** Lemmas *)

Lemma PGROUNDDOWN_spec a : 0 ≤ a → PGROUNDDOWN a = PGSIZE * (a / PGSIZE).
Proof.
  intros Ha. unfold PGROUNDDOWN, PGSIZE.
  replace (Z.lnot (4096 - 1)) with (Z.lnot (Z.ones 12)) by reflexivity.
  rewrite <- Z.ldiff_land, Z.ldiff_ones_r, Z.shiftl_mul_pow2, Z.shiftr_div_pow2 by lia.
  change (2 ^ 12) with 4096. lia.
Qed.

Lemma PGROUNDUP_spec a :
  0 ≤ a ≤ 4294963200 → PGROUNDUP a = PGSIZE * ((a + PGSIZE - 1) / PGSIZE).
Proof.
  intros Ha. unfold PGROUNDUP. rewrite u32_small by (unfold PGSIZE; lia).
  apply PGROUNDDOWN_spec. unfold PGSIZE. lia.
Qed.

Lemma v2p_p2v a : 0 ≤ a < KERNBASE → v2p (p2v a) = a.
Proof.
  unfold v2p, p2v, KERNBASE. intros. rewrite (u32_small (a + _)) by lia.
  rewrite u32_small by lia. lia.
Qed.

Lemma p2v_v2p a : KERNBASE ≤ a < 4294967296 → p2v (v2p a) = a.
Proof.
  unfold v2p, p2v, KERNBASE. intros. rewrite (u32_small (a - _)) by lia.
  rewrite u32_small by lia. lia.
Qed.
