(* ===== verification/KString.v ===== *)
(** * The kernel's memory and string routines

    Models src/string.c and the [stosb]/[stosl] instructions of src/x86.h it
    uses, on the flat byte memory of [Prelude].  A [char *] is an address; the
    routines that write return the new memory (and, as in C, the destination is
    known to the caller).  Loops that count down a length are structural on it;
    [strlen], whose loop is bounded only by the string itself, takes fuel. *)

From S2P Require Import Prelude.
Local Open Scope Z_scope.

(** ** Definitions *)

(** [rep stosb]: store byte [data] at [cnt] consecutive addresses. *)
Fixpoint stosb (m : mem) (addr data : Z) (cnt : nat) : mem :=
  match cnt with
  | O => m
  | S cnt' => stosb (mupd m addr (u8 data)) (addr + 1) data cnt'
  end.

(** [rep stosl]: store the 32-bit word [data] at [cnt] consecutive words. *)
Fixpoint stosl (m : mem) (addr data : Z) (cnt : nat) : mem :=
  match cnt with
  | O => m
  | S cnt' => stosl (store32 m addr data) (addr + 4) data cnt'
  end.

Definition memset (m : mem) (dst c n : Z) : mem :=
  if (Z.rem (s32 dst) 4 =? 0) && (n mod 4 =? 0) then
    let c := Z.land c 255 in
    stosl m dst
      (Z.lor (Z.lor (Z.lor (Z.shiftl c 24) (Z.shiftl c 16)) (Z.shiftl c 8)) c)
      (Z.to_nat (n / 4))
  else stosb m dst c (Z.to_nat n).

Fixpoint memcmp (m : mem) (s1 s2 : Z) (n : nat) : Z :=
  match n with
  | O => 0
  | S n' =>
      if negb (m s1 =? m s2) then m s1 - m s2
      else memcmp m (s1 + 1) (s2 + 1) n'
  end.

(** The two loops of [memmove]: downwards, with [s] and [d] one past the part
    still to copy, and upwards. *)
Fixpoint copy_down (m : mem) (d s : Z) (n : nat) : mem :=
  match n with
  | O => m
  | S n' => copy_down (mupd m (d - 1) (m (s - 1))) (d - 1) (s - 1) n'
  end.

Fixpoint copy_up (m : mem) (d s : Z) (n : nat) : mem :=
  match n with
  | O => m
  | S n' => copy_up (mupd m d (m s)) (d + 1) (s + 1) n'
  end.

Definition memmove (m : mem) (dst src n : Z) : mem :=
  if (src <? dst) && (src + n >? dst)
  then copy_down m (dst + n) (src + n) (Z.to_nat n)
  else copy_up m dst src (Z.to_nat n).

Definition memcpy (m : mem) (dst src n : Z) : mem := memmove m dst src n.

Fixpoint strncmp (m : mem) (p q : Z) (n : nat) : Z :=
  match n with
  | O => 0
  | S n' =>
      if negb (m p =? 0) && (m p =? m q)
      then strncmp m (p + 1) (q + 1) n'
      else u8 (m p) - u8 (m q)
  end.

(** The second loop of [strncpy] writes NULs to fill the [n] bytes. *)
Fixpoint strncpy_pad (m : mem) (s : Z) (n : nat) : mem :=
  match n with
  | O => m
  | S n' => strncpy_pad (mupd m s 0) (s + 1) n'
  end.

Fixpoint strncpy (m : mem) (s t : Z) (n : nat) : mem :=
  match n with
  | O => m
  | S n' =>
      let m' := mupd m s (m t) in
      if negb (m t =? 0) then strncpy m' (s + 1) (t + 1) n'
      else strncpy_pad m' (s + 1) n'
  end.

(** The loop of [safestrcpy] with [k] the value of [n - 1]; it returns the
    memory and the position [s] reached. *)
Fixpoint safestrcpy_loop (m : mem) (s t : Z) (k : nat) : mem * Z :=
  match k with
  | O => (m, s)
  | S k' =>
      let m' := mupd m s (m t) in
      if negb (m t =? 0) then safestrcpy_loop m' (s + 1) (t + 1) k' else (m', s + 1)
  end.

Definition safestrcpy (m : mem) (s t n : Z) : mem :=
  if n <=? 0 then m
  else
    let '(m', s') := safestrcpy_loop m s t (Z.to_nat (n - 1)) in
    mupd m' s' 0.

Fixpoint strlen_loop (m : mem) (s n : Z) (fuel : nat) : outcome Z :=
  match fuel with
  | O => Diverge
  | S fuel' => if negb (m (s + n) =? 0) then strlen_loop m s (n + 1) fuel' else Ok n
  end.

Definition strlen (fuel : nat) (m : mem) (s : Z) : outcome Z := strlen_loop m s 0 fuel.

(** ** Lemmas *)

Lemma stosb_spec m addr data cnt x :
  stosb m addr data cnt x =
    (if (addr <=? x) && (x <? addr + Z.of_nat cnt) then u8 data else m x).
Proof.
  revert m addr; induction cnt as [|cnt IH]; intros m addr; cbn [stosb].
  - bool_cases; done.
  - rewrite IH. unfold mupd. rewrite Nat2Z.inj_succ.
    bool_cases; try done; f_equal; lia.
Qed.

(** Replicating a byte over a word: each byte of the word is that byte. *)
Definition byte_word (c : Z) : Z :=
  Z.lor (Z.lor (Z.lor (Z.shiftl c 24) (Z.shiftl c 16)) (Z.shiftl c 8)) c.

Lemma byte_word_bytes c :
  0 ≤ c < 256 →
  u8 (byte_word c) = c ∧ u8 (Z.shiftr (byte_word c) 8) = c ∧
  u8 (Z.shiftr (byte_word c) 16) = c ∧ u8 (Z.shiftr (byte_word c) 24) = c.
Proof.
  intros Hc.
  assert (Hall : forallb (fun n => let c := Z.of_nat n in
    (u8 (byte_word c) =? c) && (u8 (Z.shiftr (byte_word c) 8) =? c) &&
    (u8 (Z.shiftr (byte_word c) 16) =? c) && (u8 (Z.shiftr (byte_word c) 24) =? c))
    (seq 0 256) = true) by (vm_compute; reflexivity).
  rewrite forallb_forall in Hall. specialize (Hall (Z.to_nat c)).
  rewrite Z2Nat.id in Hall by lia.
  cut (is_true ((u8 (byte_word c) =? c) && (u8 (Z.shiftr (byte_word c) 8) =? c) &&
    (u8 (Z.shiftr (byte_word c) 16) =? c) && (u8 (Z.shiftr (byte_word c) 24) =? c))).
  - unfold is_true. rewrite !andb_true_iff, !Z.eqb_eq. tauto.
  - apply Hall, in_seq. lia.
Qed.

Lemma stosl_spec m addr c cnt x :
  0 ≤ c < 256 →
  stosl m addr (byte_word c) cnt x =
    (if (addr <=? x) && (x <? addr + 4 * Z.of_nat cnt) then c else m x).
Proof.
  intros Hc. destruct (byte_word_bytes c Hc) as (E0 & E1 & E2 & E3).
  revert m addr; induction cnt as [|cnt IH]; intros m addr; cbn [stosl].
  - bool_cases; done.
  - rewrite IH. unfold store32, mupd. rewrite E0, E1, E2, E3, Nat2Z.inj_succ.
    bool_cases; done.
Qed.

Lemma copy_up_spec m d s n x :
  d ≤ s ∨ s + Z.of_nat n ≤ d →
  copy_up m d s n x =
    (if (d <=? x) && (x <? d + Z.of_nat n) then m (s + (x - d)) else m x).
Proof.
  revert m d s; induction n as [|n IH]; intros m d s H; cbn [copy_up].
  - bool_cases; done.
  - rewrite IH by lia. unfold mupd. rewrite Nat2Z.inj_succ in *.
    bool_cases; try done; f_equal; lia.
Qed.

Lemma copy_down_spec m d s n x :
  s ≤ d →
  copy_down m d s n x =
    (if (d - Z.of_nat n <=? x) && (x <? d) then m (s - (d - x)) else m x).
Proof.
  revert m d s; induction n as [|n IH]; intros m d s H; cbn [copy_down].
  - bool_cases; done.
  - rewrite IH by lia. unfold mupd. rewrite Nat2Z.inj_succ in *.
    bool_cases; try done; f_equal; lia.
Qed.

Lemma memmove_lookup m dst src n x :
  0 ≤ n →
  memmove m dst src n x =
    (if (dst <=? x) && (x <? dst + n) then m (src + (x - dst)) else m x).
Proof.
  intros Hn. unfold memmove. rewrite Z.gtb_ltb.
  destruct (Z.ltb_spec src dst), (Z.ltb_spec dst (src + n)); cbn [andb];
    [rewrite copy_down_spec by lia | rewrite copy_up_spec by lia ..];
    rewrite Z2Nat.id by lia; bool_cases; try done; f_equal; lia.
Qed.

Lemma memset_lookup m dst c n x :
  0 ≤ n →
  memset m dst c n x = (if (dst <=? x) && (x <? dst + n) then u8 c else m x).
Proof.
  intros Hn. unfold memset.
  assert (Hland : Z.land c 255 = u8 c) by (apply (Z.land_ones c 8); lia).
  destruct ((Z.rem (s32 dst) 4 =? 0) && (n mod 4 =? 0)) eqn:E.
  - apply andb_true_iff in E as [_ E%Z.eqb_eq]. rewrite Hland.
    change (Z.lor _ _) with (byte_word (u8 c)).
    rewrite stosl_spec by apply u8_range. rewrite Z2Nat.id by zmod_lia.
    replace (4 * (n / 4)) with n by zmod_lia. done.
  - rewrite stosb_spec, Z2Nat.id by lia. done.
Qed.

Lemma memcmp_zero m s1 s2 n :
  memcmp m s1 s2 n = 0 ↔ mread m s1 n = mread m s2 n.
Proof.
  revert s1 s2; induction n as [|n IH]; intros s1 s2; cbn [memcmp mread]; [done|].
  destruct (Z.eqb_spec (m s1) (m s2)) as [E|E]; cbn [negb].
  - rewrite IH, E. split; [by intros -> | by intros [= ->]].
  - split; [lia | intros [= ? ?]; contradiction].
Qed.

Lemma strncmp_zero m p q n l1 l2 :
  bytes_ok m → cstr m p l1 → cstr m q l2 →
  strncmp m p q n = 0 ↔ take n l1 = take n l2.
Proof.
  intros Hb. revert p q l1 l2; induction n as [|n IH]; intros p q l1 l2 H1 H2;
    cbn [strncmp]; [by rewrite !take_0|].
  rewrite !u8_small by apply Hb.
  destruct l1 as [|c1 l1], l2 as [|c2 l2]; cbn [cstr take] in *.
  - rewrite H1, H2. done.
  - destruct H2 as (-> & Hc2 & _). rewrite H1. cbn. split; [lia | done].
  - destruct H1 as (-> & Hc1 & _). rewrite H2.
    destruct (Z.eqb_spec c1 0); [lia|]. cbn. split; [lia | done].
  - destruct H1 as (-> & Hc1 & H1), H2 as (-> & Hc2 & H2).
    destruct (Z.eqb_spec c1 0), (Z.eqb_spec c1 c2); cbn [negb andb]; try lia.
    + rewrite (IH _ _ _ _ H1 H2). split; [intros ->; by subst | by intros [= _ ->]].
    + split; [lia | intros [= ? ?]; contradiction].
Qed.

Lemma strncpy_pad_spec m s n x :
  strncpy_pad m s n x =
    (if (s <=? x) && (x <? s + Z.of_nat n) then 0 else m x).
Proof.
  revert m s; induction n as [|n IH]; intros m s; cbn [strncpy_pad].
  - bool_cases; done.
  - rewrite IH. unfold mupd. rewrite Nat2Z.inj_succ. bool_cases; done.
Qed.

(** The source string and the destination window do not overlap. *)
Definition apart (s t : Z) (n len : nat) : Prop :=
  t + Z.of_nat len < s ∨ s + Z.of_nat n ≤ t.

Lemma cstr_mupd m a l s v :
  cstr m a l → (s < a ∨ a + Z.of_nat (length l) < s) → cstr (mupd m s v) a l.
Proof.
  intros H Hs. eapply cstr_ext; [|exact H]. intros x Hx.
  symmetry. apply mupd_ne. lia.
Qed.

Lemma strncpy_frame m s t n x :
  x < s ∨ s + Z.of_nat n ≤ x → strncpy m s t n x = m x.
Proof.
  revert m s t; induction n as [|n IH]; intros m s t Hx; cbn [strncpy]; [done|].
  destruct (m t =? 0); cbn [negb].
  - rewrite strncpy_pad_spec. bool_cases; by rewrite mupd_ne by lia.
  - rewrite IH by lia. by rewrite mupd_ne by lia.
Qed.

Lemma strncpy_bytes m s t n l :
  cstr m t l → apart s t n (length l) →
  mread (strncpy m s t n) s n = take n l ++ replicate (n - length l) 0.
Proof.
  revert m s t l; induction n as [|n IH]; intros m s t l H Ha; [done|].
  cbn [strncpy mread]. destruct l as [|c l]; cbn [cstr] in H.
  - rewrite H. cbn [negb Z.eqb length Nat.sub take app replicate]. f_equal.
    + rewrite strncpy_pad_spec. bool_cases. by rewrite mupd_eq.
    + apply list_eq; intros i. destruct (decide (i < n)%nat).
      * rewrite mread_lookup, lookup_replicate_2, strncpy_pad_spec by lia.
        bool_cases; done.
      * rewrite !lookup_ge_None_2; rewrite ?length_mread, ?length_replicate; lia || done.
  - destruct H as (-> & Hc & H). destruct (Z.eqb_spec c 0); [done|]. cbn [negb].
    unfold apart in *. cbn [length take app Nat.sub] in *. f_equal.
    + rewrite strncpy_frame by lia. by rewrite mupd_eq.
    + apply IH; [|lia]. apply cstr_mupd; [done | lia].
Qed.

Lemma safestrcpy_loop_frame m s t k x m' s' :
  safestrcpy_loop m s t k = (m', s') →
  s ≤ s' ≤ s + Z.of_nat k ∧ (x < s ∨ s' ≤ x → m' x = m x).
Proof.
  revert m s t; induction k as [|k IH]; intros m s t; cbn [safestrcpy_loop].
  - intros [= <- <-]. split; [lia | done].
  - destruct (m t =? 0); cbn [negb].
    + intros [= <- <-]. split; [lia|]. intros. by rewrite mupd_ne by lia.
    + intros [H1 H2]%IH. split; [lia|]. intros. rewrite H2 by lia.
      by rewrite mupd_ne by lia.
Qed.

Lemma safestrcpy_loop_cstr m s t k l m' s' :
  cstr m t l → apart s t (S k) (length l) →
  safestrcpy_loop m s t k = (m', s') → cstr (mupd m' s' 0) s (take k l).
Proof.
  revert m s t l; induction k as [|k IH]; intros m s t l H Ha;
    cbn [safestrcpy_loop take].
  - intros [= <- <-]. cbn. apply mupd_eq.
  - destruct l as [|c l]; cbn [cstr take] in *.
    + rewrite H. cbn. intros [= <- <-]. rewrite mupd_ne by lia. apply mupd_eq.
    + destruct H as (-> & Hc & H). destruct (Z.eqb_spec c 0); [done|]. cbn [negb].
      unfold apart in Ha; cbn [length] in Ha.
      intros Hl. pose proof (safestrcpy_loop_frame _ _ _ _ s _ _ Hl) as [Hs Hf].
      split_and!; [|done|].
      * rewrite mupd_ne, Hf by lia. apply mupd_eq.
      * refine (IH (mupd m s c) (s + 1) (t + 1) l _ _ Hl); [|unfold apart; lia].
        apply cstr_mupd; [done | lia].
Qed.

Lemma strlen_loop_spec m s l n fuel :
  cstr m (s + n) l → (length l < fuel)%nat →
  strlen_loop m s n fuel = Ok (n + Z.of_nat (length l)).
Proof.
  revert n fuel; induction l as [|c l IH]; intros n [|fuel] H Hf;
    cbn [length strlen_loop cstr] in *; try lia.
  - rewrite H. cbn. f_equal. lia.
  - destruct H as (-> & Hc & H). destruct (Z.eqb_spec c 0); [done|]. cbn [negb].
    rewrite IH; [f_equal; lia | by rewrite Z.add_assoc | lia].
Qed.

(** ** Properties *)

(** [memmove] copies [n] bytes from [src] to [dst] and changes nothing
    else, also when the two ranges overlap in either direction: every byte of
    the destination is the byte the source held before the call. *)
Theorem memmove_correct m dst src n x :
  0 ≤ n →
  memmove m dst src n x =
    (if (dst <=? x) && (x <? dst + n) then m (src + (x - dst)) else m x).
Proof. apply memmove_lookup. Qed.

Lemma memmove_correct_witness :
  0 ≤ 4 ∧ memmove (fun a => a) 12 10 4 13 = 11.
Proof.
  split; [lia|]. rewrite (memmove_correct (fun a => a) 12 10 4 13) by lia. reflexivity.
Defined.

(** [memset] fills exactly the [n] bytes at [dst] with the low byte of [c],
    on the word-at-a-time path taken for aligned requests as on the byte path. *)
Theorem memset_correct m dst c n x :
  0 ≤ n →
  memset m dst c n x = (if (dst <=? x) && (x <? dst + n) then u8 c else m x).
Proof. apply memset_lookup. Qed.

Lemma memset_correct_witness :
  0 ≤ 8 ∧ memset (fun _ => 7) 16 257 8 20 = 1 ∧ memset (fun _ => 7) 17 257 8 16 = 7.
Proof.
  split; [lia|].
  rewrite (memset_correct (fun _ => 7) 16 257 8 20) by lia.
  rewrite (memset_correct (fun _ => 7) 17 257 8 16) by lia. split; reflexivity.
Defined.

(** [safestrcpy] with room for [n > 0] bytes leaves at [s] the first
    [n - 1] characters of the source string, NUL-terminated, and writes no byte
    outside the [n] bytes of the destination. *)
Theorem safestrcpy_correct m s t n l :
  0 < n → cstr m t l → apart s t (Z.to_nat n) (length l) →
  cstr (safestrcpy m s t n) s (take (Z.to_nat (n - 1)) l) ∧
  ∀ x, x < s ∨ s + n ≤ x → safestrcpy m s t n x = m x.
Proof.
  intros Hn Hl Ha. unfold safestrcpy. destruct (Z.leb_spec n 0); [lia|].
  destruct (safestrcpy_loop _ _ _ _) as [m' s'] eqn:E. split.
  - eapply safestrcpy_loop_cstr; [exact Hl | | exact E]. unfold apart in *. lia.
  - intros x Hx. destruct (safestrcpy_loop_frame _ _ _ _ x _ _ E) as [Hs Hf].
    rewrite mupd_ne by lia. apply Hf. lia.
Qed.

Definition sample_mem : mem := fun a =>
  if a =? 100 then 104 else if a =? 101 then 105 else if a =? 102 then 33 else 0.

Lemma safestrcpy_correct_witness :
  (0 < 3 ∧ cstr sample_mem 100 [104; 105; 33] ∧ apart 50 100 3 3) ∧
  cstr (safestrcpy sample_mem 50 100 3) 50 [104; 105].
Proof.
  assert (H : cstr sample_mem 100 [104; 105; 33]) by (cbn; split_and!; done).
  assert (Ha : apart 50 100 3 3) by (right; lia).
  split; [split_and!; [lia | exact H | exact Ha]|].
  exact (proj1 (safestrcpy_correct sample_mem 50 100 3 [104; 105; 33] ltac:(lia) H Ha)).
Defined.

(** [strncmp] is zero exactly when the two strings agree on their first [n]
    characters (this is the comparison [namecmp] makes of directory names). *)
Theorem strncmp_correct m p q n l1 l2 :
  bytes_ok m → cstr m p l1 → cstr m q l2 →
  strncmp m p q n = 0 ↔ take n l1 = take n l2.
Proof. apply strncmp_zero. Qed.

Lemma sample_mem_bytes : bytes_ok sample_mem.
Proof. intros a. unfold sample_mem. bool_cases. Qed.

Lemma strncmp_correct_witness :
  (bytes_ok sample_mem ∧ cstr sample_mem 100 [104; 105; 33] ∧ cstr sample_mem 101 [105; 33]) ∧
  strncmp sample_mem 100 101 2 ≠ 0.
Proof.
  assert (H : cstr sample_mem 100 [104; 105; 33]) by (cbn; split_and!; done).
  assert (H' : cstr sample_mem 101 [105; 33]) by (cbn; split_and!; done).
  split; [split_and!; [apply sample_mem_bytes | exact H | exact H']|].
  intros E%(strncmp_correct sample_mem 100 101 2 _ _ sample_mem_bytes H H'). discriminate.
Defined.
