(* ===== verification/Spinlock.v ===== *)
(** * Spin locks and nested interrupt disabling

    Models src/spinlock.c and the per-CPU fields of src/proc.h it uses.  The
    sequential definitions [pushcli], [popcli], [acquire], [release], [holding]
    run one CPU to completion; a CPU that finds the lock taken by another CPU
    spins, which the sequential definitions report as [Diverge].  Section
    [Contention] breaks [acquire] and [release] at their memory accesses, lets
    any number of CPUs interleave them, and proves mutual exclusion. *)

From S2P Require Import Prelude Param.
Local Open Scope Z_scope.

(** ** Definitions *)

(** The fields of [struct cpu] this file uses and the CPU's interrupt flag
    (bit [FL_IF] of [%eflags]). *)
Record cpu := mkCpu {
  cpu_id : nat;
  ncli : Z;
  intena : bool;
  fl_if : bool
}.

(** [struct spinlock].  The debugging trace [pcs] is written by
    [getcallerpcs] only and is left out. *)
Record spinlock := mkSpinlock {
  locked : Z;
  lk_name : string;
  lk_cpu : option nat
}.

Definition initlock (name : string) : spinlock := mkSpinlock 0 name None.

Definition pushcli (c : cpu) : cpu :=
  mkCpu (cpu_id c) (ncli c + 1)
    (if ncli c =? 0 then fl_if c else intena c) false.

Definition popcli (c : cpu) : outcome cpu :=
  if fl_if c then Panic "popcli - interruptible"
  else
    let n := ncli c - 1 in
    if n <? 0 then Panic "popcli"
    else Ok (mkCpu (cpu_id c) n (intena c) ((n =? 0) && intena c)).

Definition holding (c : cpu) (lk : spinlock) : bool :=
  negb (locked lk =? 0) && bool_decide (lk_cpu lk = Some (cpu_id c)).

(** [acquire] up to its [xchg] loop, the successful [xchg], and the record of
    the owner. *)
Definition acquire_enter (c : cpu) (lk : spinlock) : outcome cpu :=
  let c := pushcli c in
  if holding c lk then Panic "acquire" else Ok c.

Definition acquire_xchg (lk : spinlock) : Z * spinlock :=
  (locked lk, mkSpinlock 1 (lk_name lk) (lk_cpu lk)).

Definition acquire_record (c : cpu) (lk : spinlock) : spinlock :=
  mkSpinlock (locked lk) (lk_name lk) (Some (cpu_id c)).

Definition acquire (c : cpu) (lk : spinlock) : outcome (cpu * spinlock) :=
  c ← acquire_enter c lk;
  let '(old, lk) := acquire_xchg lk in
  if negb (old =? 0) then Diverge
  else Ok (c, acquire_record c lk).

(** [release] before and at its [xchg]. *)
Definition release_clear (c : cpu) (lk : spinlock) : outcome spinlock :=
  if negb (holding c lk) then Panic "release"
  else Ok (mkSpinlock (locked lk) (lk_name lk) None).

Definition release_xchg (lk : spinlock) : spinlock :=
  mkSpinlock 0 (lk_name lk) (lk_cpu lk).

Definition release (c : cpu) (lk : spinlock) : outcome (cpu * spinlock) :=
  lk ← release_clear c lk;
  let lk := release_xchg lk in
  c ← popcli c;
  Ok (c, lk).

(** [getcallerpcs]: follow at most ten saved frame pointers from [v - 8]; the
    entries that are not reached are zero. *)
Fixpoint getcallerpcs_loop (m : mem) (ebp : Z) (i : nat) : list Z :=
  match i with
  | O => []
  | S i' =>
      if (ebp =? 0) || (ebp <? KERNBASE) || (ebp =? 4294967295)
      then replicate i 0
      else load32 m (ebp + 4) :: getcallerpcs_loop m (load32 m ebp) i'
  end.

Definition getcallerpcs (m : mem) (v : Z) : list Z := getcallerpcs_loop m (v - 8) 10.

(** Several nested [pushcli]s, several [popcli]s. *)
Fixpoint pushcli_n (n : nat) (c : cpu) : cpu :=
  match n with O => c | S n' => pushcli_n n' (pushcli c) end.

Fixpoint popcli_n (n : nat) (c : cpu) : outcome cpu :=
  match n with O => Ok c | S n' => c ← popcli c; popcli_n n' c end.

(** A CPU is consistent when interrupts are off inside every [pushcli]. *)
Definition cpu_ok (c : cpu) : Prop := 0 ≤ ncli c ∧ (0 < ncli c → fl_if c = false).

(** *** CPUs contending for one lock *)

(** Where a CPU is in [acquire] or [release] of the lock. *)
Inductive lkpc :=
| Idle        (* outside the lock *)
| Spinning    (* in the [xchg] loop of [acquire] *)
| Taken       (* [xchg] returned 0; owner not yet recorded *)
| Critical    (* [acquire] has returned *)
| Clearing.   (* [release] has cleared the owner; [xchg] still to come *)

#[export] Instance lkpc_eq_dec : EqDecision lkpc.
Proof. solve_decision. Defined.

Record lkstate := mkLkstate {
  lk_cpus : list (cpu * lkpc);
  lk_lock : spinlock
}.

Inductive lkstep : lkstate → lkstate → Prop :=
| step_enter cs lk i c c' :
    cs !! i = Some (c, Idle) →
    acquire_enter c lk = Ok c' →
    lkstep (mkLkstate cs lk) (mkLkstate (<[i := (c', Spinning)]> cs) lk)
| step_spin cs lk i c :
    cs !! i = Some (c, Spinning) →
    (acquire_xchg lk).1 ≠ 0 →
    lkstep (mkLkstate cs lk) (mkLkstate cs (acquire_xchg lk).2)
| step_take cs lk i c :
    cs !! i = Some (c, Spinning) →
    (acquire_xchg lk).1 = 0 →
    lkstep (mkLkstate cs lk)
      (mkLkstate (<[i := (c, Taken)]> cs) (acquire_xchg lk).2)
| step_record cs lk i c :
    cs !! i = Some (c, Taken) →
    lkstep (mkLkstate cs lk)
      (mkLkstate (<[i := (c, Critical)]> cs) (acquire_record c lk))
| step_clear cs lk i c lk' :
    cs !! i = Some (c, Critical) →
    release_clear c lk = Ok lk' →
    lkstep (mkLkstate cs lk) (mkLkstate (<[i := (c, Clearing)]> cs) lk')
| step_drop cs lk i c c' :
    cs !! i = Some (c, Clearing) →
    popcli c = Ok c' →
    lkstep (mkLkstate cs lk) (mkLkstate (<[i := (c', Idle)]> cs) (release_xchg lk)).

(** [n] CPUs outside the lock, interrupts on. *)
Definition lk_init (n : nat) (name : string) : lkstate :=
  mkLkstate ((fun i => (mkCpu i 0 false true, Idle)) <$> seq 0 n) (initlock name).

Definition owns (pc : lkpc) : bool :=
  match pc with Taken | Critical | Clearing => true | _ => false end.

(** The invariant of contention. *)
Record lk_inv (s : lkstate) : Prop := {
  inv_id : ∀ i c pc, lk_cpus s !! i = Some (c, pc) → cpu_id c = i;
  inv_free : locked (lk_lock s) = 0 →
    (∀ i c pc, lk_cpus s !! i = Some (c, pc) → owns pc = false);
  inv_one : ∀ i j c d pc pd,
    lk_cpus s !! i = Some (c, pc) → lk_cpus s !! j = Some (d, pd) →
    owns pc = true → owns pd = true → i = j;
  inv_crit : ∀ i c, lk_cpus s !! i = Some (c, Critical) → lk_cpu (lk_lock s) = Some i;
  inv_owner : ∀ i, lk_cpu (lk_lock s) = Some i → ∃ c, lk_cpus s !! i = Some (c, Critical);
  inv_cli : ∀ i c pc, lk_cpus s !! i = Some (c, pc) →
    cpu_ok c ∧ (pc ≠ Idle → 0 < ncli c)
}.

(** ** Lemmas *)

Lemma pushcli_ok c : cpu_ok c → cpu_ok (pushcli c) ∧ 0 < ncli (pushcli c).
Proof. intros [H1 H2]. unfold cpu_ok; cbn. split_and!; [lia | done | lia]. Qed.

Lemma popcli_pushcli c :
  cpu_ok c →
  ∃ c', popcli (pushcli c) = Ok c' ∧
    cpu_id c' = cpu_id c ∧ ncli c' = ncli c ∧ fl_if c' = fl_if c ∧
    (0 < ncli c → intena c' = intena c).
Proof.
  intros [H1 H2]. unfold popcli, pushcli; cbn.
  destruct (Z.ltb_spec (ncli c + 1 - 1) 0); [lia|].
  eexists; split; [done|]; cbn. split_and!; [done | lia | | ].
  - destruct (Z.eqb_spec (ncli c) 0) as [->|]; cbn; [done|].
    rewrite H2 by lia. destruct (Z.eqb_spec (ncli c + 1 - 1) 0); [lia | done].
  - intros. destruct (Z.eqb_spec (ncli c) 0); [lia | done].
Qed.

Lemma popcli_some c :
  cpu_ok c → 0 < ncli c →
  ∃ c', popcli c = Ok c' ∧ cpu_id c' = cpu_id c ∧ ncli c' = ncli c - 1 ∧ cpu_ok c' ∧
    intena c' = intena c ∧ fl_if c' = (ncli c =? 1) && intena c.
Proof.
  intros [H1 H2] H. unfold popcli. rewrite H2 by done.
  destruct (Z.ltb_spec (ncli c - 1) 0); [lia|].
  eexists; split; [done|]; cbn. split_and!; try done.
  - split; cbn; [lia|]. intros. destruct (Z.eqb_spec (ncli c - 1) 0); [lia | done].
  - destruct (Z.eqb_spec (ncli c - 1) 0), (Z.eqb_spec (ncli c) 1); lia || done.
Qed.

Lemma holding_spec c lk :
  holding c lk = true ↔ locked lk ≠ 0 ∧ lk_cpu lk = Some (cpu_id c).
Proof.
  unfold holding. rewrite andb_true_iff, negb_true_iff, Z.eqb_neq, bool_decide_eq_true.
  done.
Qed.

Lemma acquire_free c lk :
  locked lk = 0 →
  acquire c lk = Ok (pushcli c, mkSpinlock 1 (lk_name lk) (Some (cpu_id c))).
Proof.
  intros H. unfold acquire, acquire_enter, holding. rewrite H. cbn. by rewrite H.
Qed.

Lemma release_held c lk :
  locked lk ≠ 0 → lk_cpu lk = Some (cpu_id c) → cpu_ok c → 0 < ncli c →
  ∃ c', popcli c = Ok c' ∧
    release c lk = Ok (c', mkSpinlock 0 (lk_name lk) None).
Proof.
  intros Hl Hc Hok Hn. destruct (popcli_some c Hok Hn) as (c' & Hp & _).
  exists c'. split; [done|]. unfold release, release_clear.
  rewrite (proj2 (holding_spec c lk)) by done. cbn. by rewrite Hp.
Qed.

(** The CPU holds the lock. *)
Definition taken (c : cpu) (lk : spinlock) : Prop :=
  locked lk ≠ 0 ∧ lk_cpu lk = Some (cpu_id c) ∧ cpu_ok c ∧ 0 < ncli c.

Lemma acquire_taken c lk :
  cpu_ok c → locked lk = 0 → ∃ c' lk', acquire c lk = Ok (c', lk') ∧ taken c' lk'.
Proof.
  intros Hc Hl. rewrite acquire_free by done. do 2 eexists. split; [done|].
  destruct (pushcli_ok _ Hc). split_and!; done.
Qed.

Lemma release_taken c lk :
  taken c lk → ∃ c' lk', release c lk = Ok (c', lk') ∧ cpu_ok c' ∧ locked lk' = 0.
Proof.
  intros (Hl & Hid & Hc & Hn). destruct (release_held _ _ Hl Hid Hc Hn) as (c' & Hp & Hr).
  destruct (popcli_some _ Hc Hn) as (c1 & Hp' & _ & _ & Hok & _).
  do 2 eexists. split; [exact Hr|]. split; [congruence | done].
Qed.

Lemma taken_cpu c lk : taken c lk → cpu_ok c.
Proof. by intros (_ & _ & ? & _). Qed.

Lemma lk_init_inv n name : lk_inv (lk_init n name).
Proof.
  assert (Hl : ∀ i c pc, lk_cpus (lk_init n name) !! i = Some (c, pc) →
    c = mkCpu i 0 false true ∧ pc = Idle).
  { intros i c pc. cbn. rewrite list_lookup_fmap, fmap_Some.
    intros (j & [-> _]%lookup_seq & [= -> ->]). done. }
  split.
  - by intros i c pc [-> ->]%Hl.
  - by intros _ i c pc [-> ->]%Hl.
  - intros i j c d pc pd [-> ->]%Hl. done.
  - by intros i c [_ ?]%Hl.
  - done.
  - intros i c pc [-> ->]%Hl. split; [split; cbn; [lia | lia] | done].
Qed.

(** Case analysis of a lookup in an updated CPU table. *)
Ltac cpu_lookup H :=
  apply list_lookup_insert_Some in H as [(<- & H & _) | [? H]]; simplify_eq/=.

(** Preservation of the invariant, one lemma per kind of step. *)
Section Steps.
Variables (cs : list (cpu * lkpc)) (lk : spinlock) (i : nat) (c : cpu).
Hypothesis Hinv : lk_inv (mkLkstate cs lk).

Lemma inv_enter :
  cs !! i = Some (c, Idle) →
  lk_inv (mkLkstate (<[i := (pushcli c, Spinning)]> cs) lk).
Proof using Hinv.
  intros Hi. destruct Hinv as [Hid Hfree Hone Hcrit Hown Hcli]; cbn in *.
  pose proof (pushcli_ok c (proj1 (Hcli _ _ _ Hi))) as [Hok' Hn'].
  split; cbn.
  - intros j d pd H. cpu_lookup H; eauto.
  - intros Hl j d pd H. cpu_lookup H; eauto.
  - intros j k d e pd pe H H' Ho Ho'. cpu_lookup H. cpu_lookup H'. eauto.
  - intros j d H. cpu_lookup H. eauto.
  - intros j Hj. destruct (Hown j Hj) as [d Hd]. exists d.
    rewrite list_lookup_insert_ne; congruence.
  - intros j d pd H. cpu_lookup H; eauto.
Qed.

Lemma inv_take :
  cs !! i = Some (c, Spinning) → locked lk = 0 →
  lk_inv (mkLkstate (<[i := (c, Taken)]> cs) (acquire_xchg lk).2).
Proof using Hinv.
  intros Hi Hx. destruct Hinv as [Hid Hfree Hone Hcrit Hown Hcli]; cbn in *.
  pose proof (Hfree Hx) as Hno. destruct (Hcli _ _ _ Hi) as [Hok Hn].
  split; cbn.
  - intros j d pd H. cpu_lookup H; eauto.
  - intros [=].
  - intros j k d e pd pe H H' Ho Ho'. cpu_lookup H; cpu_lookup H'; try done;
      try (by rewrite (Hno _ _ _ H') in Ho'); by rewrite (Hno _ _ _ H) in Ho.
  - intros j d H. cpu_lookup H. eauto.
  - intros j Hj. destruct (Hown j Hj) as [d Hd]. by specialize (Hno _ _ _ Hd).
  - intros j d pd H. cpu_lookup H; eauto.
Qed.

Lemma inv_record :
  cs !! i = Some (c, Taken) →
  lk_inv (mkLkstate (<[i := (c, Critical)]> cs) (acquire_record c lk)).
Proof using Hinv.
  intros Hi. destruct Hinv as [Hid Hfree Hone Hcrit Hown Hcli]; cbn in *.
  destruct (Hcli _ _ _ Hi) as [Hok Hn]. pose proof (Hid _ _ _ Hi) as Hci.
  split; cbn; rewrite ?Hci.
  - intros j d pd H. cpu_lookup H; eauto.
  - intros Hl j d pd H. by specialize (Hfree Hl _ _ _ Hi).
  - intros j k d e pd pe H H' Ho Ho'. cpu_lookup H; cpu_lookup H'; eauto.
  - intros j d H. cpu_lookup H; [done|]. f_equal. by eapply (Hone (cpu_id c) j).
  - intros j [= <-]. exists c. apply list_lookup_insert_eq.
    by apply lookup_lt_Some in Hi.
  - intros j d pd H. cpu_lookup H; eauto.
Qed.

Lemma inv_clear :
  cs !! i = Some (c, Critical) → locked lk ≠ 0 →
  lk_inv (mkLkstate (<[i := (c, Clearing)]> cs) (mkSpinlock (locked lk) (lk_name lk) None)).
Proof using Hinv.
  intros Hi Hl. destruct Hinv as [Hid Hfree Hone Hcrit Hown Hcli]; cbn in *.
  destruct (Hcli _ _ _ Hi) as [Hok Hn]. split; cbn.
  - intros j d pd H. cpu_lookup H; eauto.
  - done.
  - intros j k d e pd pe H H' Ho Ho'. cpu_lookup H; cpu_lookup H'; eauto.
  - intros j d H. cpu_lookup H. by destruct (Hone i j _ _ _ _ Hi H).
  - done.
  - intros j d pd H. cpu_lookup H; eauto.
Qed.

Lemma inv_drop c' :
  cs !! i = Some (c, Clearing) → popcli c = Ok c' →
  lk_inv (mkLkstate (<[i := (c', Idle)]> cs) (release_xchg lk)).
Proof using Hinv.
  intros Hi Hp. destruct Hinv as [Hid Hfree Hone Hcrit Hown Hcli]; cbn in *.
  destruct (Hcli _ _ _ Hi) as [Hok Hn].
  destruct (popcli_some c Hok) as (c1 & Hp' & Hc1 & _ & Hok1 & _); [by apply Hn|].
  assert (c1 = c') as -> by congruence.
  assert (Hno : ∀ j d pd, i ≠ j → cs !! j = Some (d, pd) → owns pd = false).
  { intros j d pd Hij H. destruct (owns pd) eqn:Ho; [|done].
    destruct Hij. by eapply (Hone i j). }
  split; cbn.
  - intros j d pd H. cpu_lookup H; [rewrite Hc1 |]; eauto.
  - intros _ j d pd H. cpu_lookup H; eauto.
  - intros j k d e pd pe H H' Ho Ho'. cpu_lookup H. rewrite (Hno j d pd) in Ho; done.
  - intros j d H. cpu_lookup H. eauto.
  - intros j Hj. destruct (Hown j Hj) as [d Hd]. exists d.
    rewrite list_lookup_insert_ne; congruence.
  - intros j d pd H. cpu_lookup H; [split; done | eauto].
Qed.
End Steps.

Lemma lk_inv_step s s' : lk_inv s → lkstep s s' → lk_inv s'.
Proof.
  intros Hinv Hs. revert Hinv.
  destruct Hs as [cs lk i c c' Hi He | cs lk i c Hi Hx | cs lk i c Hi Hx
    | cs lk i c Hi | cs lk i c lk' Hi He | cs lk i c c' Hi He]; intros Hinv.
  - unfold acquire_enter in He. destruct (holding _ _); [done|]. injection He as <-.
    by apply inv_enter.
  - destruct Hinv as [Hid Hfree Hone Hcrit Hown Hcli]; split; cbn; done.
  - by apply inv_take.
  - by apply inv_record.
  - unfold release_clear in He. destruct (holding c lk) eqn:Hh; [|done].
    apply holding_spec in Hh as [Hlk _]. injection He as <-. by apply inv_clear.
  - by eapply inv_drop.
Qed.

Lemma lk_reachable_inv n name s : rtc lkstep (lk_init n name) s → lk_inv s.
Proof.
  intros H. assert (Hi := lk_init_inv n name).
  induction H; eauto using lk_inv_step.
Qed.

Lemma pushcli_n_spec n c :
  cpu_ok c →
  cpu_ok (pushcli_n n c) ∧ ncli (pushcli_n n c) = ncli c + Z.of_nat n ∧
  ((0 < n)%nat → ncli c = 0 → intena (pushcli_n n c) = fl_if c) ∧
  ((0 < n)%nat → fl_if (pushcli_n n c) = false).
Proof.
  revert c; induction n as [|n IH]; intros c Hok; cbn [pushcli_n].
  - split_and!; try done; lia.
  - destruct (pushcli_ok c Hok) as [Hok' _].
    destruct (IH _ Hok') as (H1 & H2 & H3 & H4). split_and!; [done | cbn in *; lia | |].
    + intros _ Hc. destruct n as [|n].
      * cbn. by rewrite Hc.
      * clear IH H1 H2 H3 H4 Hok'. cbn [pushcli_n].
        assert (Hi : ∀ k d, 0 < ncli d → intena (pushcli_n k d) = intena d).
        { induction k as [|k IH]; intros d Hd; [done|]. cbn [pushcli_n].
          rewrite IH; cbn; [|lia]. destruct (Z.eqb_spec (ncli d) 0); [lia | done]. }
        rewrite Hi by (cbn; lia). cbn. rewrite Hc. cbn. done.
    + intros _. destruct n; [done|]. by apply H4; lia.
Qed.

Lemma popcli_n_spec k c :
  cpu_ok c → Z.of_nat k ≤ ncli c →
  ∃ c', popcli_n k c = Ok c' ∧ ncli c' = ncli c - Z.of_nat k ∧
    fl_if c' = match k with O => fl_if c | _ => (ncli c =? Z.of_nat k) && intena c end.
Proof.
  revert c; induction k as [|k IH]; intros c Hok Hk; cbn [popcli_n].
  - exists c. split_and!; [done | lia | done].
  - destruct (popcli_some c Hok) as (c1 & Hp & _ & Hn1 & Hok1 & Hi1 & Hf1); [lia|].
    destruct (IH c1 Hok1) as (c' & Hp' & Hn' & Hf'); [lia|].
    exists c'. unfold mbind, outcome_bind. rewrite Hp. cbn [obind].
    split_and!; [done | lia |]. rewrite Hf'. destruct k as [|k].
    + rewrite Hf1. done.
    + rewrite Hn1, Hi1. f_equal.
      destruct (Z.eqb_spec (ncli c - 1) (Z.of_nat (S k))),
        (Z.eqb_spec (ncli c) (Z.of_nat (S (S k)))); lia || done.
Qed.

(** ** Properties *)

(** C11: mutual exclusion.  However the CPUs interleave, at most one of them is
    between the successful [xchg] of [acquire] and the [xchg] of [release]; the
    one inside the lock is the recorded owner, so the [holding] test of
    [release] succeeds and the test of [acquire] fails for every other CPU. *)
Theorem mutual_exclusion n name s :
  rtc lkstep (lk_init n name) s →
  (∀ i j c d pc pd, lk_cpus s !! i = Some (c, pc) → lk_cpus s !! j = Some (d, pd) →
     owns pc = true → owns pd = true → i = j) ∧
  (∀ i c, lk_cpus s !! i = Some (c, Critical) →
     holding c (lk_lock s) = true ∧ fl_if c = false) ∧
  (∀ i c, lk_cpus s !! i = Some (c, Idle) → is_Ok (acquire_enter c (lk_lock s))).
Proof.
  intros H. pose proof (lk_reachable_inv n name s H) as [Hid Hfree Hone Hcrit Hown Hcli].
  split_and!.
  - exact Hone.
  - intros i c Hi. destruct (Hcli _ _ _ Hi) as [[_ Hif] Hn].
    split; [|by apply Hif, Hn]. apply holding_spec. split.
    + intros Hl. by specialize (Hfree Hl _ _ _ Hi).
    + rewrite (Hid _ _ _ Hi). eauto.
  - intros i c Hi. unfold acquire_enter. destruct (holding _ _) eqn:Hh; [|by eexists].
    apply holding_spec in Hh as [_ Hc]. cbn in Hc. rewrite (Hid _ _ _ Hi) in Hc.
    destruct (Hown i Hc) as [d Hd]. congruence.
Qed.

(** A run of two CPUs: CPU 0 holds the lock while CPU 1 spins. *)
Definition contended : lkstate :=
  mkLkstate [(mkCpu 0 1 true false, Critical); (mkCpu 1 1 true false, Spinning)]
    (mkSpinlock 1 "ptable" (Some 0%nat)).

Lemma contended_reachable : rtc lkstep (lk_init 2 "ptable") contended.
Proof.
  eapply rtc_l; [eapply (step_enter _ _ 0); reflexivity|].
  eapply rtc_l; [eapply (step_enter _ _ 1); reflexivity|].
  eapply rtc_l; [eapply (step_take _ _ 0); reflexivity|].
  eapply rtc_l; [eapply (step_record _ _ 0); reflexivity|].
  eapply rtc_l; [eapply (step_spin _ _ 1); [reflexivity | done]|].
  apply rtc_refl.
Defined.

Lemma mutual_exclusion_witness :
  rtc lkstep (lk_init 2 "ptable") contended ∧
  holding (mkCpu 0 1 true false) (lk_lock contended) = true.
Proof.
  split; [exact contended_reachable|].
  destruct (mutual_exclusion 2 "ptable" contended contended_reachable) as (_ & H & _).
  exact (proj1 (H 0%nat _ eq_refl)).
Defined.

(** [pushcli] and [popcli] nest.  After [n] [pushcli]s and [k <= n]
    [popcli]s the depth is [n - k] above the start; interrupts stay off while
    the depth is positive, and after the last [popcli] they are on exactly if
    they were on before the first [pushcli].  No [popcli] panics. *)
Theorem cli_nesting c n k :
  cpu_ok c → (k ≤ n)%nat →
  ∃ c', popcli_n k (pushcli_n n c) = Ok c' ∧ ncli c' = ncli c + Z.of_nat (n - k) ∧
    fl_if c' = (if decide (k = n) then fl_if c else false).
Proof.
  intros Hok Hk. destruct (pushcli_n_spec n c Hok) as (Hok' & Hn & Hin & Hif).
  destruct (popcli_n_spec k (pushcli_n n c) Hok' ltac:(destruct Hok; lia))
    as (c' & Hp & Hn' & Hif').
  exists c'. split_and!; [done | lia |]. rewrite Hif'.
  destruct (decide (k = n)) as [->|].
  - destruct n as [|n]; [done|]. rewrite Hn.
    destruct Hok as [Hc Hc']. destruct (Z.eqb_spec (ncli c + Z.of_nat (S n)) (Z.of_nat (S n))).
    + cbn. by apply Hin; lia.
    + symmetry. apply Hc'. lia.
  - destruct k as [|k]; [by apply Hif; lia|].
    destruct (Z.eqb_spec (ncli (pushcli_n n c)) (Z.of_nat (S k))); [|done].
    destruct Hok. lia.
Qed.

Lemma cli_nesting_witness :
  (cpu_ok (mkCpu 0 0 false true) ∧ (3 ≤ 3)%nat) ∧
  ∃ c', popcli_n 3 (pushcli_n 3 (mkCpu 0 0 false true)) = Ok c' ∧ fl_if c' = true.
Proof.
  assert (H : cpu_ok (mkCpu 0 0 false true)) by (split; cbn; lia).
  split; [split; [exact H | lia]|].
  destruct (cli_nesting (mkCpu 0 0 false true) 3 3 H ltac:(lia)) as (c' & H1 & _ & H2).
  exists c'. split; [exact H1 | exact H2].
Defined.
