(* ===== verification/ProcData.v ===== *)
(** * Process table data

    The data of src/proc.h and src/proc.c: [struct proc] with the trap frame and
    context it points to, [struct StateLists] and the process table [ptable] with
    the globals the scheduler uses, as seen from the CPU that executes the code.

    A [struct proc *] is [option nat]: [None] is the null pointer and [Some i] is
    [&ptable.proc[i]].  The trap frame and the saved context live on the process's
    kernel stack; their contents are the fields [p_trapframe] and [p_ctx], their
    addresses the fields [p_tf] and [p_context]; [p_retaddr] is the word above the
    context, where [swtch] returns to after [forkret]. *)

From S2P Require Import Prelude Param Spinlock.
Local Open Scope Z_scope.

(** ** Definitions *)

(** [setter (eta x) (f x) v] is [x] with field [f] replaced by [v]. *)
Ltac setter e g v :=
  let b := eval red in e in
  match b with context C [g] => let r := context C [v] in exact r end.

Definition ptr : Type := option nat.

(** [enum procstate]. *)
Inductive procstate := UNUSED | EMBRYO | SLEEPING | RUNNABLE | RUNNING | ZOMBIE.

#[export] Instance procstate_eq_dec : EqDecision procstate.
Proof. solve_decision. Defined.

(** Sleep channels.  In C a channel is any address: that of a process, of
    [ticks], or of another kernel object. *)
Inductive chan := ChNull | ChProc (i : nat) | ChTicks | ChAddr (a : Z).

#[export] Instance chan_eq_dec : EqDecision chan.
Proof. solve_decision. Defined.

(** The channel [sleep] and [wakeup] get when passed a process pointer. *)
Definition chan_of_ptr (p : ptr) : chan :=
  match p with None => ChNull | Some i => ChProc i end.

(** [struct trapframe] of src/x86.h, without its padding. *)
Record trapframe := mkTf {
  tf_edi : Z;
  tf_esi : Z;
  tf_ebp : Z;
  tf_oesp : Z;
  tf_ebx : Z;
  tf_edx : Z;
  tf_ecx : Z;
  tf_eax : Z;
  tf_gs : Z;
  tf_fs : Z;
  tf_es : Z;
  tf_ds : Z;
  tf_trapno : Z;
  tf_err : Z;
  tf_eip : Z;
  tf_cs : Z;
  tf_eflags : Z;
  tf_esp : Z;
  tf_ss : Z
}.

Definition eta_trapframe (x : trapframe) : trapframe :=
  {| tf_edi := tf_edi x; tf_esi := tf_esi x; tf_ebp := tf_ebp x; tf_oesp :=
     tf_oesp x; tf_ebx := tf_ebx x; tf_edx := tf_edx x; tf_ecx := tf_ecx x;
     tf_eax := tf_eax x; tf_gs := tf_gs x; tf_fs := tf_fs x; tf_es := tf_es x;
     tf_ds := tf_ds x; tf_trapno := tf_trapno x; tf_err := tf_err x; tf_eip :=
     tf_eip x; tf_cs := tf_cs x; tf_eflags := tf_eflags x; tf_esp := tf_esp x;
     tf_ss := tf_ss x |}.

Definition set_tf_eax (v : Z) (x : trapframe) : trapframe :=
  ltac:(setter (eta_trapframe x) (tf_eax x) v).
Definition set_tf_es (v : Z) (x : trapframe) : trapframe :=
  ltac:(setter (eta_trapframe x) (tf_es x) v).
Definition set_tf_ds (v : Z) (x : trapframe) : trapframe :=
  ltac:(setter (eta_trapframe x) (tf_ds x) v).
Definition set_tf_eip (v : Z) (x : trapframe) : trapframe :=
  ltac:(setter (eta_trapframe x) (tf_eip x) v).
Definition set_tf_cs (v : Z) (x : trapframe) : trapframe :=
  ltac:(setter (eta_trapframe x) (tf_cs x) v).
Definition set_tf_eflags (v : Z) (x : trapframe) : trapframe :=
  ltac:(setter (eta_trapframe x) (tf_eflags x) v).
Definition set_tf_esp (v : Z) (x : trapframe) : trapframe :=
  ltac:(setter (eta_trapframe x) (tf_esp x) v).
Definition set_tf_ss (v : Z) (x : trapframe) : trapframe :=
  ltac:(setter (eta_trapframe x) (tf_ss x) v).

Definition zero_trapframe : trapframe :=
  mkTf 0 0 0 0 0 0 0 0 0 0 0 0 0 0 0 0 0 0 0.

(** [struct context]. *)
Record context := mkContext {
  ctx_edi : Z;
  ctx_esi : Z;
  ctx_ebx : Z;
  ctx_ebp : Z;
  ctx_eip : Z
}.

(** [struct proc]. *)
Record proc := mkProc {
  p_sz : Z;
  p_pgdir : Z;
  p_kstack : Z;
  p_state : procstate;
  p_pid : Z;
  p_parent : ptr;
  p_tf : Z;
  p_context : Z;
  p_chan : chan;
  p_killed : bool;
  p_ofile : list (option nat);
  p_cwd : option nat;
  p_name : list Z;
  p_start_ticks : Z;
  p_uid : Z;
  p_gid : Z;
  p_cpu_ticks_total : Z;
  p_cpu_ticks_in : Z;
  p_next : ptr;
  p_budget : Z;
  p_priority : Z;
  p_trapframe : trapframe;
  p_ctx : context;
  p_retaddr : Z
}.

Definition eta_proc (x : proc) : proc :=
  {| p_sz := p_sz x; p_pgdir := p_pgdir x; p_kstack := p_kstack x; p_state :=
     p_state x; p_pid := p_pid x; p_parent := p_parent x; p_tf := p_tf x;
     p_context := p_context x; p_chan := p_chan x; p_killed := p_killed x;
     p_ofile := p_ofile x; p_cwd := p_cwd x; p_name := p_name x; p_start_ticks
     := p_start_ticks x; p_uid := p_uid x; p_gid := p_gid x; p_cpu_ticks_total
     := p_cpu_ticks_total x; p_cpu_ticks_in := p_cpu_ticks_in x; p_next :=
     p_next x; p_budget := p_budget x; p_priority := p_priority x; p_trapframe
     := p_trapframe x; p_ctx := p_ctx x; p_retaddr := p_retaddr x |}.

Definition set_p_sz (v : Z) (x : proc) : proc :=
  ltac:(setter (eta_proc x) (p_sz x) v).
Definition set_p_pgdir (v : Z) (x : proc) : proc :=
  ltac:(setter (eta_proc x) (p_pgdir x) v).
Definition set_p_kstack (v : Z) (x : proc) : proc :=
  ltac:(setter (eta_proc x) (p_kstack x) v).
Definition set_p_state (v : procstate) (x : proc) : proc :=
  ltac:(setter (eta_proc x) (p_state x) v).
Definition set_p_pid (v : Z) (x : proc) : proc :=
  ltac:(setter (eta_proc x) (p_pid x) v).
Definition set_p_parent (v : ptr) (x : proc) : proc :=
  ltac:(setter (eta_proc x) (p_parent x) v).
Definition set_p_tf (v : Z) (x : proc) : proc :=
  ltac:(setter (eta_proc x) (p_tf x) v).
Definition set_p_context (v : Z) (x : proc) : proc :=
  ltac:(setter (eta_proc x) (p_context x) v).
Definition set_p_chan (v : chan) (x : proc) : proc :=
  ltac:(setter (eta_proc x) (p_chan x) v).
Definition set_p_killed (v : bool) (x : proc) : proc :=
  ltac:(setter (eta_proc x) (p_killed x) v).
Definition set_p_ofile (v : list (option nat)) (x : proc) : proc :=
  ltac:(setter (eta_proc x) (p_ofile x) v).
Definition set_p_cwd (v : option nat) (x : proc) : proc :=
  ltac:(setter (eta_proc x) (p_cwd x) v).
Definition set_p_name (v : list Z) (x : proc) : proc :=
  ltac:(setter (eta_proc x) (p_name x) v).
Definition set_p_start_ticks (v : Z) (x : proc) : proc :=
  ltac:(setter (eta_proc x) (p_start_ticks x) v).
Definition set_p_uid (v : Z) (x : proc) : proc :=
  ltac:(setter (eta_proc x) (p_uid x) v).
Definition set_p_gid (v : Z) (x : proc) : proc :=
  ltac:(setter (eta_proc x) (p_gid x) v).
Definition set_p_cpu_ticks_total (v : Z) (x : proc) : proc :=
  ltac:(setter (eta_proc x) (p_cpu_ticks_total x) v).
Definition set_p_cpu_ticks_in (v : Z) (x : proc) : proc :=
  ltac:(setter (eta_proc x) (p_cpu_ticks_in x) v).
Definition set_p_next (v : ptr) (x : proc) : proc :=
  ltac:(setter (eta_proc x) (p_next x) v).
Definition set_p_budget (v : Z) (x : proc) : proc :=
  ltac:(setter (eta_proc x) (p_budget x) v).
Definition set_p_priority (v : Z) (x : proc) : proc :=
  ltac:(setter (eta_proc x) (p_priority x) v).
Definition set_p_trapframe (v : trapframe) (x : proc) : proc :=
  ltac:(setter (eta_proc x) (p_trapframe x) v).
Definition set_p_ctx (v : context) (x : proc) : proc :=
  ltac:(setter (eta_proc x) (p_ctx x) v).
Definition set_p_retaddr (v : Z) (x : proc) : proc :=
  ltac:(setter (eta_proc x) (p_retaddr x) v).

(** The process table when the kernel starts: zeroed memory. *)
Definition zero_proc : proc :=
  mkProc 0 0 0 UNUSED 0 None 0 0 ChNull false (replicate NOFILE None) None [] 0 0 0 0 0 None 0 0
    zero_trapframe (mkContext 0 0 0 0 0) 0.

(** [struct StateLists]: heads and tails of the lists linked through [p_next]. *)
Record StateLists := mkSL {
  sl_ready : list ptr;
  sl_readyTail : list ptr;
  sl_free : ptr;
  sl_freeTail : ptr;
  sl_sleep : ptr;
  sl_sleepTail : ptr;
  sl_zombie : ptr;
  sl_zombieTail : ptr;
  sl_running : ptr;
  sl_runningTail : ptr;
  sl_embryo : ptr;
  sl_embryoTail : ptr
}.

Definition eta_StateLists (x : StateLists) : StateLists :=
  {| sl_ready := sl_ready x; sl_readyTail := sl_readyTail x; sl_free :=
     sl_free x; sl_freeTail := sl_freeTail x; sl_sleep := sl_sleep x;
     sl_sleepTail := sl_sleepTail x; sl_zombie := sl_zombie x; sl_zombieTail
     := sl_zombieTail x; sl_running := sl_running x; sl_runningTail :=
     sl_runningTail x; sl_embryo := sl_embryo x; sl_embryoTail :=
     sl_embryoTail x |}.

Definition set_sl_ready (v : list ptr) (x : StateLists) : StateLists :=
  ltac:(setter (eta_StateLists x) (sl_ready x) v).
Definition set_sl_readyTail (v : list ptr) (x : StateLists) : StateLists :=
  ltac:(setter (eta_StateLists x) (sl_readyTail x) v).
Definition set_sl_free (v : ptr) (x : StateLists) : StateLists :=
  ltac:(setter (eta_StateLists x) (sl_free x) v).
Definition set_sl_freeTail (v : ptr) (x : StateLists) : StateLists :=
  ltac:(setter (eta_StateLists x) (sl_freeTail x) v).
Definition set_sl_sleep (v : ptr) (x : StateLists) : StateLists :=
  ltac:(setter (eta_StateLists x) (sl_sleep x) v).
Definition set_sl_sleepTail (v : ptr) (x : StateLists) : StateLists :=
  ltac:(setter (eta_StateLists x) (sl_sleepTail x) v).
Definition set_sl_zombie (v : ptr) (x : StateLists) : StateLists :=
  ltac:(setter (eta_StateLists x) (sl_zombie x) v).
Definition set_sl_zombieTail (v : ptr) (x : StateLists) : StateLists :=
  ltac:(setter (eta_StateLists x) (sl_zombieTail x) v).
Definition set_sl_running (v : ptr) (x : StateLists) : StateLists :=
  ltac:(setter (eta_StateLists x) (sl_running x) v).
Definition set_sl_runningTail (v : ptr) (x : StateLists) : StateLists :=
  ltac:(setter (eta_StateLists x) (sl_runningTail x) v).
Definition set_sl_embryo (v : ptr) (x : StateLists) : StateLists :=
  ltac:(setter (eta_StateLists x) (sl_embryo x) v).
Definition set_sl_embryoTail (v : ptr) (x : StateLists) : StateLists :=
  ltac:(setter (eta_StateLists x) (sl_embryoTail x) v).

(** The process table and the globals of src/proc.c, with [ticks] of src/trap.c,
    the executing CPU and its current process ([proc]); [k_env] is the state of
    the rest of the kernel, a parameter. *)
Record kst (E : Type) := mkKst {
  pt_lock : spinlock;
  pt_proc : list proc;
  pLists : StateLists;
  PromoteAtTime : Z;
  initproc : ptr;
  nextpid : Z;
  ticks : Z;
  forkret_first : bool;
  k_cpu : cpu;
  k_proc : ptr;
  k_env : E
}.
Arguments mkKst {E}.
Arguments pt_lock {E}.
Arguments pt_proc {E}.
Arguments pLists {E}.
Arguments PromoteAtTime {E}.
Arguments initproc {E}.
Arguments nextpid {E}.
Arguments ticks {E}.
Arguments forkret_first {E}.
Arguments k_cpu {E}.
Arguments k_proc {E}.
Arguments k_env {E}.

Definition eta_kst {E : Type} (x : kst E) : kst E :=
  {| pt_lock := pt_lock x; pt_proc := pt_proc x; pLists := pLists x;
     PromoteAtTime := PromoteAtTime x; initproc := initproc x; nextpid :=
     nextpid x; ticks := ticks x; forkret_first := forkret_first x; k_cpu :=
     k_cpu x; k_proc := k_proc x; k_env := k_env x |}.

Definition set_pt_lock {E : Type} (v : spinlock) (x : kst E) : kst E :=
  ltac:(setter (eta_kst x) (pt_lock x) v).
Definition set_pt_proc {E : Type} (v : list proc) (x : kst E) : kst E :=
  ltac:(setter (eta_kst x) (pt_proc x) v).
Definition set_pLists {E : Type} (v : StateLists) (x : kst E) : kst E :=
  ltac:(setter (eta_kst x) (pLists x) v).
Definition set_PromoteAtTime {E : Type} (v : Z) (x : kst E) : kst E :=
  ltac:(setter (eta_kst x) (PromoteAtTime x) v).
Definition set_initproc {E : Type} (v : ptr) (x : kst E) : kst E :=
  ltac:(setter (eta_kst x) (initproc x) v).
Definition set_nextpid {E : Type} (v : Z) (x : kst E) : kst E :=
  ltac:(setter (eta_kst x) (nextpid x) v).
Definition set_ticks {E : Type} (v : Z) (x : kst E) : kst E :=
  ltac:(setter (eta_kst x) (ticks x) v).
Definition set_forkret_first {E : Type} (v : bool) (x : kst E) : kst E :=
  ltac:(setter (eta_kst x) (forkret_first x) v).
Definition set_k_cpu {E : Type} (v : cpu) (x : kst E) : kst E :=
  ltac:(setter (eta_kst x) (k_cpu x) v).
Definition set_k_proc {E : Type} (v : ptr) (x : kst E) : kst E :=
  ltac:(setter (eta_kst x) (k_proc x) v).
Definition set_k_env {E : Type} (v : E) (x : kst E) : kst E :=
  ltac:(setter (eta_kst x) (k_env x) v).

(** *** Access to the process table *)

Section Access.
Context {E : Type}.

(** Dereference of a [struct proc *], for reading and for writing. *)
Definition pget (p : ptr) : K (kst E) proc := fun s =>
  match p with
  | None => Undef "null process pointer"
  | Some i =>
      match pt_proc s !! i with
      | Some x => Ok (x, s)
      | None => Undef "process pointer out of range"
      end
  end.

Definition pmod (p : ptr) (f : proc → proc) : K (kst E) unit :=
  x ← pget p;
  kmod (fun s => set_pt_proc (match p with
                              | Some i => <[i := f x]> (pt_proc s)
                              | None => pt_proc s
                              end) s).

(** [acquire(&ptable.lock)], [release(&ptable.lock)], [holding(&ptable.lock)]
    on the executing CPU. *)
Definition acquire_ptable : K (kst E) unit := fun s =>
  '(c, lk) ← acquire (k_cpu s) (pt_lock s);
  Ok (tt, set_k_cpu c (set_pt_lock lk s)).

Definition release_ptable : K (kst E) unit := fun s =>
  '(c, lk) ← release (k_cpu s) (pt_lock s);
  Ok (tt, set_k_cpu c (set_pt_lock lk s)).

Definition holding_ptable (s : kst E) : bool := holding (k_cpu s) (pt_lock s).

(** The lock is free and the CPU is outside every [pushcli]: the state in which
    kernel code other than the scheduler's runs. *)
Definition unlocked (s : kst E) : Prop :=
  locked (pt_lock s) = 0 ∧ ncli (k_cpu s) = 0.

(** This CPU holds [ptable.lock] and nothing else. *)
Definition ptable_held (s : kst E) : Prop :=
  locked (pt_lock s) ≠ 0 ∧ lk_cpu (pt_lock s) = Some (cpu_id (k_cpu s)) ∧
  ncli (k_cpu s) = 1 ∧ fl_if (k_cpu s) = false.

(** ** Lemmas *)

Lemma pget_ok (s : kst E) i x : pt_proc s !! i = Some x → pget (Some i) s = Ok (x, s).
Proof. intros H. cbn. by rewrite H. Qed.

Lemma pmod_ok (s : kst E) i x f :
  pt_proc s !! i = Some x →
  pmod (Some i) f s = Ok (tt, set_pt_proc (<[i := f x]> (pt_proc s)) s).
Proof. intros H. unfold pmod. by rewrite (K_bind_ok _ _ _ _ _ (pget_ok s i x H)). Qed.

Lemma acquire_ptable_ok (s : kst E) :
  unlocked s →
  ∃ c lk, acquire_ptable s = Ok (tt, set_k_cpu c (set_pt_lock lk s)) ∧
    ptable_held (set_k_cpu c (set_pt_lock lk s)) ∧
    cpu_id c = cpu_id (k_cpu s) ∧ intena c = fl_if (k_cpu s).
Proof.
  intros [Hl Hn]. unfold acquire_ptable. rewrite (acquire_free _ _ Hl). cbn.
  do 2 eexists. split; [done|]. unfold ptable_held; cbn. rewrite Hn. cbn. by split_and!.
Qed.

Lemma release_ptable_ok (s : kst E) :
  ptable_held s →
  ∃ c lk, release_ptable s = Ok (tt, set_k_cpu c (set_pt_lock lk s)) ∧
    unlocked (set_k_cpu c (set_pt_lock lk s)) ∧ cpu_id c = cpu_id (k_cpu s) ∧
    fl_if c = intena (k_cpu s).
Proof.
  intros (Hl & Hc & Hn & Hf).
  assert (Hok : cpu_ok (k_cpu s)) by (split; [lia | done]).
  destruct (release_held (k_cpu s) (pt_lock s) Hl Hc Hok) as (c & Hp & Hr); [lia|].
  destruct (popcli_some (k_cpu s) Hok) as (c' & Hp' & Hid & Hn' & _ & _ & Hf'); [lia|].
  assert (c' = c) as -> by congruence.
  unfold release_ptable. rewrite Hr. cbn. do 2 eexists. split; [done|].
  unfold unlocked; cbn. rewrite Hf', Hn. cbn. split_and!; try done; lia.
Qed.

Lemma runs_acquire_ptable (s : kst E) (Q : unit → kst E → Prop) :
  unlocked s →
  (∀ c lk, ptable_held (set_k_cpu c (set_pt_lock lk s)) → Q tt (set_k_cpu c (set_pt_lock lk s))) →
  runs acquire_ptable s Q.
Proof.
  intros Hu HQ. destruct (acquire_ptable_ok s Hu) as (c & lk & Ha & Hh & _).
  eapply runs_ok; [exact Ha | by apply HQ].
Qed.

Lemma runs_release_ptable (s : kst E) (Q : unit → kst E → Prop) :
  ptable_held s →
  (∀ c lk, unlocked (set_k_cpu c (set_pt_lock lk s)) → Q tt (set_k_cpu c (set_pt_lock lk s))) →
  runs release_ptable s Q.
Proof.
  intros Hh HQ. destruct (release_ptable_ok s Hh) as (c & lk & Hr & Hu & _).
  eapply runs_ok; [exact Hr | by apply HQ].
Qed.
End Access.
