(* ===== verification/StateList.v ===== *)
(** * The state lists of the process table

    Models [stateListAdd] and [stateListRemove] of src/proc.c (configuration
    [CS333_P3P4]) on the process array, at the level of the [next], [head] and
    [tail] pointers, and proves that they implement sequences: append at the end
    and removal.  The walk of [stateListRemove] takes fuel; on a well-formed list
    the number of processes is enough. *)

From S2P Require Import Prelude Param Spinlock ProcData.
Local Open Scope Z_scope.

(** ** Definitions *)

Definition deref_next (ps : list proc) (p : ptr) : outcome ptr :=
  match p with
  | None => Undef "null process pointer"
  | Some i =>
      x ← of_option "process pointer out of range" (ps !! i);
      Ok (p_next x)
  end.

(** [p->next = v]. *)
Definition write_next (ps : list proc) (p : ptr) (v : ptr) : outcome (list proc) :=
  match p with
  | None => Undef "null process pointer"
  | Some i =>
      x ← of_option "process pointer out of range" (ps !! i);
      Ok (<[i := set_p_next v x]> ps)
  end.

(** [stateListAdd]: the new array, head and tail (the C function always
    returns 0). *)
Definition stateListAdd (ps : list proc) (head tail p : ptr)
  : outcome (Z * list proc * ptr * ptr) :=
  match head with
  | None =>
      ps ← write_next ps p None;
      Ok (0, ps, p, p)
  | Some _ =>
      ps ← write_next ps tail p;
      tail ← deref_next ps tail;
      ps ← write_next ps tail None;
      Ok (0, ps, head, tail)
  end.

(** The [while] loop of [stateListRemove]: current and previous pointers on
    exit. *)
Fixpoint stateListFind (fuel : nat) (ps : list proc) (current previous p : ptr)
  : outcome (ptr * ptr) :=
  match current with
  | None => Ok (None, previous)
  | Some _ =>
      if bool_decide (current = p) then Ok (current, previous)
      else
        match fuel with
        | O => Diverge
        | S fuel' =>
            next ← deref_next ps current;
            stateListFind fuel' ps next current p
        end
  end.

Definition stateListRemove (ps : list proc) (head tail p : ptr)
  : outcome (Z * list proc * ptr * ptr) :=
  if bool_decide (head = None) || bool_decide (tail = None) || bool_decide (p = None)
  then Ok (-1, ps, head, tail)
  else if bool_decide (head = p) then
    head ← deref_next ps head;
    Ok (0, ps, head, tail)
  else
    '(current, previous) ← stateListFind (length ps) ps head None p;
    match current with
    | None => Ok (-1, ps, head, tail)
    | Some _ =>
        if bool_decide (current = tail) then
          let tail := previous in
          ps ← write_next ps tail None;
          ps ← write_next ps p None;
          Ok (0, ps, head, tail)
        else
          next ← deref_next ps current;
          ps ← write_next ps previous next;
          ps ← write_next ps p None;
          Ok (0, ps, head, tail)
    end.

(** *** The sequence a list represents *)

(** [lseg ps h l e]: following [next] from [h] visits the processes [l] and
    then arrives at the pointer [e]; a chain is a segment that ends at null. *)
Fixpoint lseg (ps : list proc) (h : ptr) (l : list nat) (e : ptr) : Prop :=
  match l with
  | [] => h = e
  | i :: l' => h = Some i ∧ ∃ x, ps !! i = Some x ∧ lseg ps (p_next x) l' e
  end.

Definition chain (ps : list proc) (h : ptr) (l : list nat) : Prop := lseg ps h l None.

(** A list with its tail pointer; the tail of an empty list is not constrained
    (the code leaves it stale). *)
Definition slist (ps : list proc) (h t : ptr) (l : list nat) : Prop :=
  chain ps h l ∧ (∀ i, last l = Some i → t = Some i).

(** [ps'] differs from [ps] in [next] fields only. *)
Definition erase_next (ps : list proc) : list proc := set_p_next None <$> ps.

Definition sremove (p : nat) (l : list nat) : list nat := filter (λ i, i ≠ p) l.

(** ** Lemmas *)

Lemma lseg_app ps h l1 l2 e :
  lseg ps h (l1 ++ l2) e ↔ ∃ m, lseg ps h l1 m ∧ lseg ps m l2 e.
Proof.
  revert h; induction l1 as [|i l1 IH]; intros h; cbn.
  - split; [by exists h | by intros (m & -> & H)].
  - split.
    + intros (-> & x & Hx & (m & H1 & H2)%IH). exists m. eauto.
    + intros (m & (-> & x & Hx & H1) & H2). split; [done|].
      exists x. split; [done|]. apply IH. eauto.
Qed.

Lemma lseg_snoc ps h l i x :
  ps !! i = Some x → lseg ps h l (Some i) → lseg ps h (l ++ [i]) (p_next x).
Proof. intros Hx H. apply lseg_app. exists (Some i). cbn. eauto. Qed.

Lemma chain_det ps h l l' : chain ps h l → chain ps h l' → l = l'.
Proof.
  unfold chain.
  revert h l'; induction l as [|i l IH]; intros h [|j l'] H H'; cbn in *.
  - done.
  - destruct H' as [-> _]. done.
  - destruct H as [-> _]. done.
  - destruct H as (-> & x & Hx & H), H' as ([= ->] & y & Hy & H').
    f_equal. apply (IH (p_next x)); [done|]. congruence.
Qed.

Lemma chain_NoDup ps h l : chain ps h l → NoDup l.
Proof.
  revert h; induction l as [|i l IH]; intros h H; [constructor|].
  pose proof H as (-> & x & Hx & Hl). constructor; [|by eapply IH].
  intros (l1 & l2 & ->)%list_elem_of_split.
  apply lseg_app in Hl as (m & _ & Hl). assert (m = Some i) as -> by apply Hl.
  pose proof (chain_det _ _ _ _ H Hl) as Heq.
  apply (f_equal length) in Heq. cbn in Heq. rewrite length_app in Heq. cbn in Heq. lia.
Qed.

Lemma lseg_lt ps h l e i : lseg ps h l e → i ∈ l → (i < length ps)%nat.
Proof.
  revert h; induction l as [|j l IH]; intros h H Hi; [by apply elem_of_nil in Hi|].
  destruct H as (_ & x & Hx & H). apply elem_of_cons in Hi as [->|Hi]; [|eauto].
  by apply lookup_lt_Some in Hx.
Qed.

Lemma chain_length ps h l : chain ps h l → (length l ≤ length ps)%nat.
Proof.
  intros H. pose proof (chain_NoDup _ _ _ H) as Hn.
  rewrite <- (length_seq (length ps) 0). apply NoDup_incl_length.
  - by apply NoDup_ListNoDup.
  - intros i Hi. apply in_seq. apply list_elem_of_In in Hi.
    pose proof (lseg_lt _ _ _ _ _ H Hi). lia.
Qed.

(** A segment does not depend on the processes outside it, nor on fields other
    than [next]. *)
Lemma lseg_ext ps ps' h l e :
  (∀ i x, i ∈ l → ps !! i = Some x → ∃ x', ps' !! i = Some x' ∧ p_next x' = p_next x) →
  lseg ps h l e → lseg ps' h l e.
Proof.
  revert h; induction l as [|j l IH]; intros h Hext H; [done|].
  destruct H as (-> & x & Hx & H).
  destruct (Hext j x) as (x' & Hx' & Hn); [by left | done|].
  split; [done|]. exists x'. split; [done|]. rewrite Hn.
  apply IH; [|done]. intros. apply Hext; [by right | done].
Qed.

Lemma lseg_same ps ps' h l e :
  (∀ i, i ∈ l → ps' !! i = ps !! i) → lseg ps h l e → lseg ps' h l e.
Proof. intros Hs. apply lseg_ext. intros i x Hi Hx. exists x. by rewrite Hs. Qed.

Lemma slist_ext ps ps' h t l :
  (∀ i x, i ∈ l → ps !! i = Some x → ∃ x', ps' !! i = Some x' ∧ p_next x' = p_next x) →
  slist ps h t l → slist ps' h t l.
Proof. intros Hext [H Ht]. split; [by eapply lseg_ext | done]. Qed.

Lemma slist_same ps ps' h t l :
  (∀ i, i ∈ l → ps' !! i = ps !! i) → slist ps h t l → slist ps' h t l.
Proof.
  intros Hs. apply slist_ext. intros i x Hi Hx. exists x. by rewrite Hs.
Qed.

Lemma erase_next_lookup ps ps' i x :
  erase_next ps' = erase_next ps → ps !! i = Some x →
  ∃ n, ps' !! i = Some (set_p_next n x).
Proof.
  intros He Hx. apply (f_equal (.!! i)) in He. unfold erase_next in He.
  rewrite !list_lookup_fmap, Hx in He. cbn in He.
  destruct (ps' !! i) as [y|]; [|done]. injection He as He.
  exists (p_next y). f_equal. destruct x, y; cbn in *. by simplify_eq.
Qed.

Lemma erase_next_insert ps i x n :
  ps !! i = Some x → erase_next (<[i := set_p_next n x]> ps) = erase_next ps.
Proof.
  intros Hx. unfold erase_next. rewrite list_fmap_insert. apply list_insert_id.
  rewrite list_lookup_fmap, Hx. done.
Qed.

Lemma write_next_ok ps i x v :
  ps !! i = Some x → write_next ps (Some i) v = Ok (<[i := set_p_next v x]> ps).
Proof. intros H. cbn. by rewrite H. Qed.

Lemma deref_next_ok ps i x :
  ps !! i = Some x → deref_next ps (Some i) = Ok (p_next x).
Proof. intros H. cbn. by rewrite H. Qed.

Lemma sremove_not_in p l : p ∉ l → sremove p l = l.
Proof.
  unfold sremove. induction l as [|i l IH]; intros Hp; [done|].
  apply not_elem_of_cons in Hp as [Hi Hp].
  rewrite filter_cons_True by congruence. by rewrite IH.
Qed.

Lemma sremove_app_mid p l1 l2 :
  NoDup (l1 ++ p :: l2) → sremove p (l1 ++ p :: l2) = l1 ++ l2.
Proof.
  intros (_ & H1 & [H2 _]%NoDup_cons)%NoDup_app.
  unfold sremove. rewrite filter_app, filter_cons_False by tauto.
  fold (sremove p l1) (sremove p l2). rewrite !sremove_not_in; [done..|].
  intros Hp. apply (H1 p Hp). by left.
Qed.

Lemma elem_of_sremove p l i : i ∈ sremove p l ↔ i ≠ p ∧ i ∈ l.
Proof. unfold sremove. by rewrite list_elem_of_filter. Qed.

Lemma slist_nil_head ps h t l : slist ps h t l → h = None ↔ l = [].
Proof.
  intros [H _]. destruct l as [|i l]; cbn in H; [tauto|].
  destruct H as [-> _]. done.
Qed.

(** The outcome of adding [p] to the list [l]: the list is [l] with [p] at its
    end, only [next] fields changed, and only those of [l] and [p]. *)
Definition added (ps : list proc) (l : list nat) (p : nat)
    (r : outcome (Z * list proc * ptr * ptr)) : Prop :=
  ∃ ps' h' t', r = Ok (0, ps', h', t') ∧
    slist ps' h' t' (l ++ [p]) ∧ erase_next ps' = erase_next ps ∧
    (∀ i, i ∉ l → i ≠ p → ps' !! i = ps !! i) ∧ (p_next <$> ps' !! p) = Some None.

Lemma slist_add_nil ps h t p y :
  slist ps h t [] → ps !! p = Some y → added ps [] p (stateListAdd ps h t (Some p)).
Proof.
  intros [Hc _] Hy. cbn in Hc. subst h. unfold stateListAdd.
  rewrite (write_next_ok _ _ _ _ Hy).
  assert (Hpl : <[p := set_p_next None y]> ps !! p = Some (set_p_next None y))
    by (apply list_lookup_insert_eq; by eapply lookup_lt_Some).
  do 3 eexists. split; [reflexivity|]. split_and!.
  - split; [cbn; eauto | by intros i [= ->]].
  - by apply erase_next_insert.
  - intros i _ Hi. by apply list_lookup_insert_ne.
  - by rewrite Hpl.
Qed.

Lemma slist_add_snoc ps h t l i0 p y :
  slist ps h t (l ++ [i0]) → p ∉ l ++ [i0] → ps !! p = Some y →
  added ps (l ++ [i0]) p (stateListAdd ps h t (Some p)).
Proof.
  intros [Hc Ht] Hp Hy.
  pose proof (chain_NoDup _ _ _ Hc) as (_ & Hni & _)%NoDup_app.
  apply lseg_app in Hc as (m & H0 & (-> & xt & Hxt & Hn)). cbn in Hn.
  assert (t = Some i0) as -> by (apply Ht; by rewrite last_snoc).
  assert (Hpi : p ≠ i0) by set_solver.
  set (ps1 := <[i0 := set_p_next (Some p) xt]> ps).
  assert (Hl1 : ps1 !! i0 = Some (set_p_next (Some p) xt))
    by (apply list_lookup_insert_eq; by eapply lookup_lt_Some).
  assert (Hl2 : ps1 !! p = Some y) by (unfold ps1; by rewrite list_lookup_insert_ne).
  set (ps2 := <[p := set_p_next None y]> ps1).
  assert (Hpl : ps2 !! p = Some (set_p_next None y))
    by (apply list_lookup_insert_eq; by eapply lookup_lt_Some).
  assert (Htl : ps2 !! i0 = Some (set_p_next (Some p) xt))
    by (unfold ps2; by rewrite list_lookup_insert_ne).
  assert (Hs : ∀ i, i ≠ i0 → i ≠ p → ps2 !! i = ps !! i)
    by (intros; unfold ps2, ps1; by rewrite !list_lookup_insert_ne).
  exists ps2, h, (Some p). split; [|split_and!].
  - assert (Hhead : ∃ j, h = Some j) by (destruct l; [eauto | destruct H0; eauto]).
    destruct Hhead as [j ->]. unfold stateListAdd.
    rewrite (write_next_ok _ _ _ _ Hxt). cbn [mbind outcome_bind obind]. fold ps1.
    rewrite (deref_next_ok _ _ _ Hl1). cbn [mbind outcome_bind obind].
    change (p_next (set_p_next (Some p) xt)) with (Some p).
    by rewrite (write_next_ok _ _ _ _ Hl2).
  - split; [|by intros i; rewrite last_snoc].
    apply (lseg_snoc _ _ _ _ _ Hpl), (lseg_snoc _ _ _ _ _ Htl).
    eapply lseg_same; [|exact H0]. intros i Hi. apply Hs; [|set_solver].
    intros ->. apply (Hni i0 Hi). by left.
  - unfold ps2, ps1. by rewrite !erase_next_insert.
  - intros i Hi Hip. apply Hs; set_solver.
  - by rewrite Hpl.
Qed.

Lemma slist_add ps h t l p y :
  slist ps h t l → p ∉ l → ps !! p = Some y → added ps l p (stateListAdd ps h t (Some p)).
Proof.
  destruct l as [|i0 l _] using rev_ind; intros; [by eapply slist_add_nil|].
  by eapply slist_add_snoc.
Qed.

(** The walk of [stateListRemove] finds a member with its predecessor, and runs
    off the end of the list otherwise. *)
Lemma stateListFind_in ps cur prev l1 p fuel :
  lseg ps cur l1 (Some p) → p ∉ l1 → (length l1 ≤ fuel)%nat →
  stateListFind fuel ps cur prev (Some p) =
    Ok (Some p, match last l1 with Some i => Some i | None => prev end).
Proof.
  revert cur prev fuel; induction l1 as [|i l1 IH]; intros cur prev fuel H Hp Hf.
  - cbn in H. subst cur. destruct fuel; cbn; by rewrite bool_decide_true.
  - destruct H as (-> & x & Hx & H). apply not_elem_of_cons in Hp as [Hpi Hp].
    destruct fuel as [|fuel]; cbn [length] in Hf; [lia|]. cbn [stateListFind].
    rewrite bool_decide_false by congruence.
    rewrite (deref_next_ok _ _ _ Hx). cbn [mbind outcome_bind obind].
    rewrite IH; [|done|done|lia]. rewrite last_cons. by destruct (last l1).
Qed.

Lemma stateListFind_not_in ps cur prev l p fuel :
  chain ps cur l → p ∉ l → (length l ≤ fuel)%nat →
  ∃ prev', stateListFind fuel ps cur prev (Some p) = Ok (None, prev').
Proof.
  unfold chain.
  revert cur prev fuel; induction l as [|i l IH]; intros cur prev fuel H Hp Hf.
  - cbn in H. subst cur. exists prev. by destruct fuel.
  - destruct H as (-> & x & Hx & H). apply not_elem_of_cons in Hp as [Hpi Hp].
    destruct fuel as [|fuel]; cbn [length] in Hf; [lia|]. cbn [stateListFind].
    rewrite bool_decide_false by congruence.
    rewrite (deref_next_ok _ _ _ Hx). cbn [mbind outcome_bind obind].
    apply IH; [done | done | lia].
Qed.

(** The outcome of removing [p] from [l]. *)
Definition removed (ps : list proc) (l : list nat) (p : nat)
    (r : outcome (Z * list proc * ptr * ptr)) : Prop :=
  ∃ ps' h' t', r = Ok (0, ps', h', t') ∧
    slist ps' h' t' (sremove p l) ∧ erase_next ps' = erase_next ps ∧
    (∀ i, i ∉ l → ps' !! i = ps !! i).

Lemma slist_tail_ne ps h t i l : slist ps h t (i :: l) → t ≠ None.
Proof.
  intros [_ Ht]. destruct (last (i :: l)) as [j|] eqn:El.
  - by rewrite (Ht j eq_refl).
  - by apply last_None in El.
Qed.

Lemma slist_remove_head ps h t p l :
  slist ps h t (p :: l) → removed ps (p :: l) p (stateListRemove ps h t (Some p)).
Proof.
  intros Hs. pose proof (slist_tail_ne _ _ _ _ _ Hs) as Hne. destruct Hs as [Hc Ht].
  pose proof (chain_NoDup _ _ _ Hc) as Hnd. destruct Hc as (-> & x & Hx & Hc).
  exists ps, (p_next x), t. split; [|split_and!]; [| |done|done].
  - unfold stateListRemove. rewrite !bool_decide_false by done. cbn [orb].
    rewrite bool_decide_true by done. by rewrite (deref_next_ok _ _ _ Hx).
  - change (p :: l) with ([] ++ p :: l). rewrite (sremove_app_mid p [] l Hnd).
    split; [done|]. intros i Hi.
    apply Ht. destruct l; [done|]. by rewrite last_cons_cons.
Qed.

(** Removal of [p] behind its predecessor [q]: the pointer that is written into
    [q->next] is [p]'s successor, which is null when [p] is the last process. *)
Section Inner.
Variables (ps : list proc) (h t : ptr) (l1 : list nat) (q p : nat) (l2 : list nat).
Variables (xq xp : proc).
Hypothesis Hslist : slist ps h t (l1 ++ q :: p :: l2).
Hypothesis Hxq : ps !! q = Some xq.
Hypothesis Hxp : ps !! p = Some xp.

Let ps2 := <[p := set_p_next None xp]> (<[q := set_p_next (p_next xp) xq]> ps).

Lemma inner_distinct : (q ∉ l1) ∧ (p ∉ l1) ∧ q ≠ p ∧ (q ∉ l2) ∧ (p ∉ l2).
Proof.
  destruct Hslist as [Hc _]. pose proof (chain_NoDup _ _ _ Hc) as Hnd.
  apply NoDup_app in Hnd as (_ & H1 & [H2 [H3 _]%NoDup_cons]%NoDup_cons). set_solver.
Qed.

Lemma inner_parts :
  lseg ps h l1 (Some q) ∧ p_next xq = Some p ∧ lseg ps (p_next xp) l2 None.
Proof.
  destruct Hslist as [Hc _].
  apply lseg_app in Hc as (m & H1 & (-> & y & Hy & Hn & z & Hz & H2)).
  by simplify_eq.
Qed.

Lemma inner_head : ∃ j, h = Some j ∧ j ≠ p.
Proof.
  destruct inner_distinct as (_ & Hp & Hqp & _). destruct inner_parts as (H1 & _ & _).
  destruct l1 as [|j l1']; [by exists q|]. destruct H1 as [-> _]. set_solver.
Qed.

Lemma inner_other i : i ≠ q → i ≠ p → ps2 !! i = ps !! i.
Proof. intros. unfold ps2. by rewrite !list_lookup_insert_ne. Qed.

Lemma inner_chain : chain ps2 h (l1 ++ q :: l2).
Proof.
  destruct inner_distinct as (Hq1 & Hp1 & Hqp & Hq2 & Hp2).
  destruct inner_parts as (H1 & _ & H2). apply lseg_app. exists (Some q). split.
  - eapply lseg_same; [|exact H1]. intros i Hi. apply inner_other; set_solver.
  - split; [done|]. exists (set_p_next (p_next xp) xq). split.
    + unfold ps2. rewrite list_lookup_insert_ne by done.
      apply list_lookup_insert_eq. by eapply lookup_lt_Some.
    + eapply lseg_same; [|exact H2]. intros i Hi. apply inner_other; set_solver.
Qed.

Lemma inner_tail : t = Some p ↔ l2 = [].
Proof.
  destruct inner_distinct as (_ & _ & _ & _ & Hp). destruct Hslist as [_ Ht].
  destruct l2 as [|i l _] using rev_ind.
  - split; [done|]. intros _. apply Ht. rewrite last_app. done.
  - assert (t = Some i) as ->.
    { apply Ht. rewrite !last_app, !last_cons, last_snoc. done. }
    split; [intros [= ->]; set_solver | intros H; by destruct l].
Qed.

Lemma inner_run :
  stateListRemove ps h t (Some p) =
    Ok (0, ps2, h, if decide (l2 = []) then Some q else t).
Proof.
  destruct inner_distinct as (Hq1 & Hp1 & Hqp & Hq2 & Hp2).
  destruct inner_parts as (H1 & Hqn & H2). destruct inner_head as (j & Hj & Hjp).
  pose proof (chain_length _ _ _ (proj1 Hslist)) as Hlen.
  rewrite length_app in Hlen; cbn in Hlen.
  assert (Htn : t ≠ None).
  { pose proof Hslist as Hs. destruct l1; by apply slist_tail_ne in Hs. }
  unfold stateListRemove. rewrite Hj, !bool_decide_false by (done || congruence).
  cbn [orb].
  rewrite (stateListFind_in ps (Some j) None (l1 ++ [q])).
  2: { rewrite <- Hj. apply lseg_app. exists (Some q). split; [done|]. cbn. eauto. }
  2: set_solver.
  2: { rewrite length_app. cbn. lia. }
  rewrite last_snoc. cbn [mbind outcome_bind obind].
  rewrite (write_next_ok _ _ _ _ Hxq), (deref_next_ok _ _ _ Hxp).
  cbn [mbind outcome_bind obind]. rewrite (write_next_ok _ _ _ _ Hxq).
  cbn [mbind outcome_bind obind].
  rewrite !(write_next_ok _ p xp) by (by rewrite list_lookup_insert_ne).
  cbn [mbind outcome_bind obind].
  destruct (decide (l2 = [])) as [E|E].
  - rewrite bool_decide_true by (symmetry; by apply inner_tail).
    rewrite E in H2. cbn in H2. unfold ps2. by rewrite H2.
  - rewrite bool_decide_false; [done|]. intros Ht. apply E, inner_tail. done.
Qed.

Lemma slist_remove_inner :
  removed ps (l1 ++ q :: p :: l2) p (stateListRemove ps h t (Some p)).
Proof.
  destruct inner_distinct as (Hq1 & Hp1 & Hqp & Hq2 & Hp2).
  exists ps2, h, (if decide (l2 = []) then Some q else t).
  split; [exact inner_run|]. split_and!.
  - change (l1 ++ q :: p :: l2) with (l1 ++ [q] ++ p :: l2).
    rewrite app_assoc, sremove_app_mid.
    2: { rewrite <- app_assoc. apply (chain_NoDup _ _ _ (proj1 Hslist)). }
    rewrite <- app_assoc. split; [exact inner_chain|]. intros i Hi.
    destruct (decide (l2 = [])) as [E|E].
    + rewrite E, last_app in Hi. by injection Hi as <-.
    + destruct Hslist as [_ Ht]. apply Ht. revert Hi.
      rewrite !last_app, !last_cons. destruct (last l2) eqn:El; [done|].
      by apply last_None in El.
  - unfold ps2. rewrite erase_next_insert by (by rewrite list_lookup_insert_ne).
    by apply erase_next_insert.
  - intros i Hi. apply inner_other; set_solver.
Qed.
End Inner.

Lemma slist_remove ps h t l p :
  slist ps h t l → p ∈ l → removed ps l p (stateListRemove ps h t (Some p)).
Proof.
  intros Hs (l1 & l2 & ->)%list_elem_of_split.
  destruct l1 as [|q l1 _] using rev_ind; [by apply slist_remove_head|].
  rewrite <- app_assoc in *. cbn [app] in *.
  assert (Hlt : ∀ i, i ∈ l1 ++ q :: p :: l2 → is_Some (ps !! i)).
  { intros i Hi. apply lookup_lt_is_Some. by eapply lseg_lt; [apply Hs|]. }
  destruct (Hlt q) as [xq Hxq]; [set_solver|]. destruct (Hlt p) as [xp Hxp]; [set_solver|].
  by eapply slist_remove_inner.
Qed.

Lemma slist_remove_absent ps h t l p :
  slist ps h t l → p ∉ l → stateListRemove ps h t (Some p) = Ok (-1, ps, h, t).
Proof.
  intros Hs Hp. pose proof (chain_length _ _ _ (proj1 Hs)) as Hlen.
  unfold stateListRemove. destruct l as [|i l].
  - destruct Hs as [Hc _]. cbn in Hc. subst h. done.
  - pose proof (slist_tail_ne _ _ _ _ _ Hs) as Ht. destruct Hs as [Hc _].
    destruct (stateListFind_not_in ps h None (i :: l) p (length ps) Hc Hp Hlen)
      as (prev & Hf).
    destruct Hc as [-> _]. rewrite !bool_decide_false by (done || set_solver).
    cbn [orb]. by rewrite Hf.
Qed.
