(* ===== verification/ProcServices.v ===== *)
(** * What process management uses of the rest of the kernel

    src/proc.c calls the memory allocator, the page-table code, the file table,
    the inode layer and the log.  [Services] lists those calls as operations on an
    abstract state [E].  The calls that cannot sleep or wake a process act on [E]
    alone, by their type; the others act on the whole kernel state, and what process
    management relies on of them is the class [BlockingOk] of ProcMLFQLife.v. *)

From S2P Require Import Prelude Param Spinlock ProcData.
Local Open Scope Z_scope.

(** ** Definitions *)

Class Services (E : Type) := {
  (** src/kalloc.c: a page address, 0 when memory is exhausted. *)
  svc_kalloc : K E Z;
  svc_kfree : Z → K E unit;
  (** src/vm.c; an address of 0 means failure. *)
  svc_setupkvm : K E Z;
  svc_inituvm : Z → K E unit;
  svc_copyuvm : Z → Z → K E Z;
  svc_freevm : Z → K E unit;
  svc_allocuvm : Z → Z → Z → K E Z;
  svc_deallocuvm : Z → Z → Z → K E Z;
  svc_switchuvm : proc → K E unit;
  svc_switchkvm : K E unit;
  (** src/file.c and src/fs.c. *)
  svc_filedup : nat → K E unit;
  svc_idup : nat → K E unit;
  svc_namei_root : K E (option nat);
  svc_fileclose : nat → K (kst E) unit;
  svc_iput : nat → K (kst E) unit;
  svc_iinit : Z → K (kst E) unit;
  (** src/log.c. *)
  svc_initlog : Z → K (kst E) unit;
  svc_begin_op : K (kst E) unit;
  svc_end_op : K (kst E) unit;
  (** The spin locks of other components, by address. *)
  svc_lock : Z → E → spinlock;
  svc_set_lock : Z → spinlock → E → E;
  (** Link-time addresses. *)
  svc_forkret : Z;
  svc_trapret : Z
}.

(** A call on [E] as a call on the kernel state. *)
Definition lift_env {E A : Type} (m : K E A) : K (kst E) A := fun s =>
  '(a, e) ← m (k_env s);
  Ok (a, set_k_env e s).

(** The lock argument of [sleep]: null, [&ptable.lock], or another lock. *)
Inductive lockref := LkNull | LkPtable | LkOther (a : Z).

#[export] Instance lockref_eq_dec : EqDecision lockref.
Proof. solve_decision. Defined.

Section Locks.
Context {E : Type} `{!Services E}.

Definition acquire_lk (lk : lockref) : K (kst E) unit := fun s =>
  match lk with
  | LkNull => Undef "null lock pointer"
  | LkPtable => acquire_ptable s
  | LkOther a =>
      '(c, l) ← acquire (k_cpu s) (svc_lock a (k_env s));
      Ok (tt, set_k_cpu c (set_k_env (svc_set_lock a l (k_env s)) s))
  end.

Definition release_lk (lk : lockref) : K (kst E) unit := fun s =>
  match lk with
  | LkNull => Undef "null lock pointer"
  | LkPtable => release_ptable s
  | LkOther a =>
      '(c, l) ← release (k_cpu s) (svc_lock a (k_env s));
      Ok (tt, set_k_cpu c (set_k_env (svc_set_lock a l (k_env s)) s))
  end.
End Locks.

(** ** Lemmas *)

Lemma runs_lift {E A : Type} (m : K E A) (s : kst E) (Q : A → kst E → Prop) :
  runs m (k_env s) (λ a e, Q a (set_k_env e s)) → runs (lift_env m) s Q.
Proof.
  intros (a & e & Hm & HQ). exists a, (set_k_env e s). split; [|done].
  unfold lift_env. by rewrite Hm.
Qed.
