(* ===== verification/ProcCommon.v ===== *)
(** * Process management: the parts shared by the two configurations

    The functions of src/proc.c that do not depend on [CS333_P3P4]: [sched],
    [growproc], [forkret], [getprocs], the time-slice accounting of [yield] and
    [sleep], and [assertState].  A function that calls [swtch] is split at the call:
    [f_enter] runs up to the context switch and [f_resume] continues after it. *)

From S2P Require Import Prelude Param Spinlock ProcData ProcServices.
Local Open Scope Z_scope.

(** ** Definitions *)

Definition bytes_of_string (s : string) : list Z :=
  (fun a => Z.of_N (Ascii.N_of_ascii a)) <$> String.list_ascii_of_string s.

(** The value [safestrcpy] leaves in a buffer of [n] bytes (see
    [KString.safestrcpy]). *)
Definition copy_name (n : nat) (l : list Z) : list Z := take (n - 1) l.

(** [states[]]. *)
Definition states (st : procstate) : string :=
  match st with
  | UNUSED => "unused"
  | EMBRYO => "embryo"
  | SLEEPING => "sleep "
  | RUNNABLE => "runble"
  | RUNNING => "run   "
  | ZOMBIE => "zombie"
  end.

(** [struct uproc] of src/uproc.h. *)
Record uproc := mkUproc {
  u_pid : Z;
  u_uid : Z;
  u_gid : Z;
  u_ppid : Z;
  u_elapsed_ticks : Z;
  u_CPU_total_ticks : Z;
  u_state : list Z;
  u_size : Z;
  u_name : list Z;
  u_priority : Z
}.

Definition STRMAX : nat := 32.

(** The budget charge of [yield] and [sleep]: the ticks of this time slice are
    taken off the budget (in C an [int] minus a [uint]); an exhausted budget
    demotes the process and is renewed. *)
Definition charge_budget (now : Z) (x : proc) : proc :=
  let x := set_p_budget (s32 (u32 (p_budget x) - u32 (now - p_cpu_ticks_in x))) x in
  if p_budget x <=? 0 then
    let x := if p_priority x <? Z.of_nat MAXPRIO
             then set_p_priority (u32 (p_priority x + 1)) x else x in
    set_p_budget (s32 (BUDGET * (p_priority x + 1))) x
  else x.

Definition newline : string := String (Ascii.ascii_of_nat 10) EmptyString.

(** What one pass of the [for(;;)] of [wait] decides. *)
Inductive wait_result := WaitReturn (r : Z) | WaitSleep.

Section Common.
Context {E : Type} `{!Services E}.

Definition curproc : K (kst E) ptr := fun s => Ok (k_proc s, s).

Definition assertState (p : ptr) (st : procstate) : K (kst E) unit :=
  x ← pget p;
  kwhen (bool_decide (p_state x ≠ st)) (kpanic "proc state does not match list state.").

(** [sched] up to [swtch]: its checks and the saved [intena]. *)
Definition sched_enter : K (kst E) bool :=
  s ← kget;
  if negb (holding_ptable s) then kpanic "sched ptable.lock"
  else if negb (ncli (k_cpu s) =? 1) then kpanic "sched locks"
  else
    p ← curproc;
    x ← pget p;
    if bool_decide (p_state x = RUNNING) then kpanic "sched running"
    else if fl_if (k_cpu s) then kpanic "sched interruptible"
    else mret (intena (k_cpu s)).

(** [sched] after [swtch]. *)
Definition sched_resume (saved : bool) : K (kst E) unit :=
  kmod (fun s => set_k_cpu
    (mkCpu (cpu_id (k_cpu s)) (ncli (k_cpu s)) saved (fl_if (k_cpu s))) s).

(** [growproc]: 0 on success, -1 on failure. *)
Definition growproc (n : Z) : K (kst E) Z :=
  p ← curproc;
  x ← pget p;
  let sz := p_sz x in
  r ← (if n >? 0 then
         sz' ← lift_env (svc_allocuvm (p_pgdir x) sz (u32 (sz + n)));
         mret (if sz' =? 0 then None else Some sz')
       else if n <? 0 then
         sz' ← lift_env (svc_deallocuvm (p_pgdir x) sz (u32 (sz + n)));
         mret (if sz' =? 0 then None else Some sz')
       else mret (Some sz));
  match r with
  | None => mret (-1)
  | Some sz =>
      pmod p (set_p_sz sz);;
      x ← pget p;
      lift_env (svc_switchuvm x);;
      mret 0
  end.

Definition forkret : K (kst E) unit :=
  release_ptable;;
  s ← kget;
  if forkret_first s then
    kmod (set_forkret_first false);;
    svc_iinit ROOTDEV;;
    svc_initlog ROOTDEV
  else mret tt.

(** One entry of the table [getprocs] fills. *)
Definition fill_uproc (x : proc) : K (kst E) uproc :=
  s ← kget;
  ppid ← (match p_parent x with
          | None => mret (p_pid x)
          | Some _ => y ← pget (p_parent x); mret (p_pid y)
          end);
  mret (mkUproc (p_pid x) (p_uid x) (p_gid x) ppid
    (u32 (ticks s - p_start_ticks x)) (p_cpu_ticks_total x)
    (copy_name STRMAX (bytes_of_string (states (p_state x))))
    (p_sz x) (copy_name 16 (p_name x)) (s32 (p_priority x))).

(** The loop of [getprocs] over the table indices [l], with [i] entries of
    [proctable] filled. *)
Fixpoint getprocs_loop (l : list nat) (max i : Z) (proctable : list uproc)
  : K (kst E) (Z * list uproc) :=
  match l with
  | [] => mret (i, proctable)
  | p :: l' =>
      if i <? max then
        x ← pget (Some p);
        if bool_decide (p_state x ≠ UNUSED) && bool_decide (p_state x ≠ EMBRYO) then
          u ← fill_uproc x;
          getprocs_loop l' max (i + 1) (proctable ++ [u])
        else getprocs_loop l' max i proctable
      else mret (i, proctable)
  end.

Definition getprocs (max : Z) : K (kst E) (Z * list uproc) :=
  acquire_ptable;;
  r ← getprocs_loop (seq 0 NPROC) max 0 [];
  release_ptable;;
  mret r.
Definition SIZEOF_TRAPFRAME : Z := 76.
Definition SIZEOF_CONTEXT : Z := 20.

(** The kernel stack layout [allocproc] sets up. *)
Definition setup_kstack (x : proc) : proc :=
  let sp := u32 (p_kstack x + KSTACKSIZE) in
  let sp := u32 (sp - SIZEOF_TRAPFRAME) in
  let x := set_p_tf sp x in
  let sp := u32 (sp - 4) in
  let x := set_p_retaddr svc_trapret x in
  let sp := u32 (sp - SIZEOF_CONTEXT) in
  let x := set_p_context sp x in
  set_p_ctx (mkContext 0 0 0 0 svc_forkret) x.

(** The fields [allocproc] initialises. *)
Definition init_fields (pid now : Z) (x : proc) : proc :=
  set_p_budget BUDGET (set_p_priority 0 (set_p_cpu_ticks_total 0 (set_p_cpu_ticks_in 0
    (set_p_gid 0 (set_p_uid 0 (set_p_start_ticks now (set_p_pid pid x))))))).

(** The trap frame of the first process: user segments, interrupts on, entry at
    address 0 with the stack at the end of the page. *)
Definition init_trapframe : trapframe :=
  let ds := 43 in
  set_tf_eip 0 (set_tf_esp PGSIZE (set_tf_eflags 512 (set_tf_ss ds (set_tf_es ds
    (set_tf_ds ds (set_tf_cs 35 zero_trapframe)))))).

(** The descriptor loop of [fork]. *)
Definition dup_files (cur np : ptr) : K (kst E) unit :=
  kiter (seq 0 NOFILE) (fun i =>
    x ← pget cur;
    match p_ofile x !! i with
    | Some (Some f) =>
        lift_env (svc_filedup f);;
        pmod np (fun y => set_p_ofile (<[i := Some f]> (p_ofile y)) y)
    | _ => mret tt
    end).

(** The descriptor loop of [exit]. *)
Definition close_files : K (kst E) unit :=
  kiter (seq 0 NOFILE) (fun fd =>
    cur ← curproc;
    x ← pget cur;
    match p_ofile x !! fd with
    | Some (Some f) =>
        svc_fileclose f;;
        pmod cur (fun y => set_p_ofile (<[fd := None]> (p_ofile y)) y)
    | _ => mret tt
    end).

(** [sleep] and [yield] after [swtch]. *)
Definition sleep_resume (lk : lockref) (saved : bool) : K (kst E) unit :=
  sched_resume saved;;
  cur ← curproc;
  pmod cur (set_p_chan ChNull);;
  if bool_decide (lk ≠ LkPtable) then
    release_ptable;;
    (if bool_decide (lk ≠ LkNull) then acquire_lk lk else mret tt)
  else mret tt.

Definition yield_resume (saved : bool) : K (kst E) unit :=
  sched_resume saved;;
  release_ptable.

(** [sti]. *)
Definition set_fl_if (b : bool) (s : kst E) : kst E :=
  set_k_cpu (mkCpu (cpu_id (k_cpu s)) (ncli (k_cpu s)) (intena (k_cpu s)) b) s.
End Common.

(** *** What [getprocs] reports *)

Definition active (x : proc) : Prop := p_state x ≠ UNUSED ∧ p_state x ≠ EMBRYO.

#[export] Instance active_dec x : Decision (active x).
Proof. unfold active. apply _. Defined.

(** The entry for process [x] of the table [ps] at time [now]. *)
Definition uproc_of (ps : list proc) (now : Z) (x : proc) : uproc :=
  mkUproc (p_pid x) (p_uid x) (p_gid x)
    (match p_parent x with
     | None => p_pid x
     | Some j => match ps !! j with Some y => p_pid y | None => 0 end
     end)
    (u32 (now - p_start_ticks x)) (p_cpu_ticks_total x)
    (copy_name STRMAX (bytes_of_string (states (p_state x))))
    (p_sz x) (copy_name 16 (p_name x)) (s32 (p_priority x)).

(** ** Lemmas *)

(** The checks of [sched] pass for a process that holds [ptable.lock] only and has
    left the running state. *)
Lemma sched_enter_ok {E : Type} (s : kst E) i x :
  ptable_held s → k_proc s = Some i → pt_proc s !! i = Some x → p_state x ≠ RUNNING →
  sched_enter s = Ok (intena (k_cpu s), s).
Proof.
  intros (Hl & Hc & Hn & Hf) Hk Hx Hst. unfold sched_enter.
  rewrite (K_bind_ok kget _ s s s eq_refl). unfold holding_ptable.
  rewrite (proj2 (holding_spec _ _)) by done. cbn [negb]. rewrite Hn. cbn [Z.eqb Pos.eqb negb].
  rewrite (K_bind_ok curproc _ s (k_proc s) s eq_refl), Hk.
  rewrite (K_bind_ok _ _ _ _ _ (pget_ok _ _ _ Hx)), bool_decide_false by done. by rewrite Hf.
Qed.

Section Getprocs.
Context {E : Type}.
Implicit Types (s : kst E).

Definition parents_valid (ps : list proc) : Prop :=
  ∀ x j, x ∈ ps → p_parent x = Some j → (j < length ps)%nat.

Lemma fill_uproc_ok s x :
  parents_valid (pt_proc s) → x ∈ pt_proc s →
  fill_uproc x s = Ok (uproc_of (pt_proc s) (ticks s) x, s).
Proof.
  intros Hpar Hx. unfold fill_uproc. rewrite (K_bind_ok kget _ s s s eq_refl). unfold uproc_of.
  destruct (p_parent x) as [j|] eqn:Hp; [|done].
  destruct (lookup_lt_is_Some_2 (pt_proc s) j (Hpar x j Hx Hp)) as [y Hy].
  assert (Hb : (y ← pget (Some j); mret (p_pid y)) s = Ok (p_pid y, s))
    by (by rewrite (K_bind_ok _ _ _ _ _ (pget_ok _ _ _ Hy))).
  rewrite (K_bind_ok _ _ _ _ _ Hb), Hy. done.
Qed.

Lemma getprocs_loop_ok s max n : ∀ k tbl,
  parents_valid (pt_proc s) → (k + n)%nat = length (pt_proc s) →
  let l := uproc_of (pt_proc s) (ticks s) <$> filter active (drop k (pt_proc s)) in
  let r := tbl ++ take (Z.to_nat (max - Z.of_nat (length tbl))) l in
  getprocs_loop (seq k n) max (Z.of_nat (length tbl)) tbl s = Ok ((Z.of_nat (length r), r), s).
Proof.
  induction n as [|n IH]; intros k tbl Hpar Hk; cbn zeta.
  - rewrite drop_ge, filter_nil by lia. cbn. rewrite take_nil, app_nil_r. done.
  - cbn [seq getprocs_loop]. destruct (Z.ltb_spec (Z.of_nat (length tbl)) max).
    + destruct (lookup_lt_is_Some_2 (pt_proc s) k) as [x Hx]; [lia|].
      rewrite (K_bind_ok _ _ _ _ _ (pget_ok _ _ _ Hx)), (drop_S _ _ _ Hx).
      specialize (IH (S k)). destruct (decide (active x)) as [Ha|Ha].
      * rewrite filter_cons_True by done. destruct Ha as [H1 H2].
        rewrite !bool_decide_true by done. cbn [andb].
        assert (Hin : x ∈ pt_proc s) by (by eapply list_elem_of_lookup_2).
        rewrite (K_bind_ok _ _ _ _ _ (fill_uproc_ok s x Hpar Hin)).
        specialize (IH (tbl ++ [uproc_of (pt_proc s) (ticks s) x]) Hpar ltac:(lia)).
        rewrite length_app, Nat2Z.inj_add in IH. cbn [length] in IH.
        change (Z.of_nat 1) with 1 in IH. rewrite IH. cbn [fmap list_fmap].
        replace (Z.to_nat (max - Z.of_nat (length tbl)))
          with (S (Z.to_nat (max - (Z.of_nat (length tbl) + 1)))) by lia.
        cbn [take]. by rewrite <- app_assoc.
      * rewrite filter_cons_False by done.
        assert (Hb : bool_decide (p_state x ≠ UNUSED) && bool_decide (p_state x ≠ EMBRYO) = false).
        { rewrite <- bool_decide_and. by apply bool_decide_eq_false. }
        rewrite Hb. by apply IH; [|lia].
    + replace (Z.to_nat (max - Z.of_nat (length tbl))) with 0%nat by lia.
      by rewrite take_0, app_nil_r.
Qed.

(** [getprocs] reports the first [max] processes that are in use, in the order of
    the table, and returns their number. *)
Theorem getprocs_correct s max :
  unlocked s → length (pt_proc s) = NPROC → parents_valid (pt_proc s) →
  runs (getprocs max) s (λ r s', unlocked s' ∧ pt_proc s' = pt_proc s ∧
    r.2 = take (Z.to_nat max) (uproc_of (pt_proc s) (ticks s) <$> filter active (pt_proc s)) ∧
    r.1 = Z.of_nat (length r.2)).
Proof.
  intros Hu Hlen Hpar. apply runs_bind, runs_acquire_ptable; [done|]. intros c lk Hh.
  apply runs_bind. eapply runs_ok.
  - eapply (getprocs_loop_ok _ _ _ 0 []); [exact Hpar | done].
  - apply runs_bind, runs_release_ptable; [exact Hh|]. intros c' lk' Hu'. apply runs_ret.
    cbn [length app fst snd]. rewrite Z.sub_0_r. done.
Qed.
End Getprocs.
