(* ===== verification/ProcMLFQ.v ===== *)
(** * Process management with state lists and priorities

    The [CS333_P3P4] configuration of src/proc.c: every process is on the list
    of its state, the runnable ones on the ready list of their priority.  This file
    holds the operations; [ProcMLFQInv] proves them correct.

    A loop over a list reads [p->next] after its body, as the code does, so a body
    that moves [p] to another list changes what the loop visits next.  Loops over
    lists take fuel [NPROC], the number of processes. *)

From S2P Require Import Prelude Param Spinlock ProcData StateList ProcServices.
From S2P Require Import ProcCommon.
Local Open Scope Z_scope.

(** ** Definitions *)

(** The lists of [struct StateLists]. *)
Inductive lname := LReady (i : nat) | LFree | LSleep | LZombie | LRunning | LEmbryo.

#[export] Instance lname_eq_dec : EqDecision lname.
Proof. solve_decision. Defined.

(** Head and tail of a list; an index past the ready array has none. *)
Definition sl_get (sl : StateLists) (L : lname) : option (ptr * ptr) :=
  match L with
  | LReady i =>
      h ← sl_ready sl !! i;
      t ← sl_readyTail sl !! i;
      Some (h, t)
  | LFree => Some (sl_free sl, sl_freeTail sl)
  | LSleep => Some (sl_sleep sl, sl_sleepTail sl)
  | LZombie => Some (sl_zombie sl, sl_zombieTail sl)
  | LRunning => Some (sl_running sl, sl_runningTail sl)
  | LEmbryo => Some (sl_embryo sl, sl_embryoTail sl)
  end.

Definition sl_set (L : lname) (h t : ptr) (sl : StateLists) : StateLists :=
  match L with
  | LReady i =>
      set_sl_ready (<[i := h]> (sl_ready sl))
        (set_sl_readyTail (<[i := t]> (sl_readyTail sl)) sl)
  | LFree => set_sl_free h (set_sl_freeTail t sl)
  | LSleep => set_sl_sleep h (set_sl_sleepTail t sl)
  | LZombie => set_sl_zombie h (set_sl_zombieTail t sl)
  | LRunning => set_sl_running h (set_sl_runningTail t sl)
  | LEmbryo => set_sl_embryo h (set_sl_embryoTail t sl)
  end.

Section MLFQ.
Context {E : Type} `{!Services E}.

(** [stateListAdd(&head, &tail, p)] and [stateListRemove] on a list of
    [ptable.pLists]; an index past the end of the ready array is undefined. *)
Definition list_op (op : list proc → ptr → ptr → ptr → outcome (Z * list proc * ptr * ptr))
    (L : lname) (p : ptr) : K (kst E) Z := fun s =>
  match sl_get (pLists s) L with
  | None => Undef "ready list index out of range"
  | Some (h, t) =>
      '(r, ps, h, t) ← op (pt_proc s) h t p;
      Ok (r, set_pLists (sl_set L h t (pLists s)) (set_pt_proc ps s))
  end.

Definition list_add : lname → ptr → K (kst E) Z := list_op stateListAdd.
Definition list_remove : lname → ptr → K (kst E) Z := list_op stateListRemove.

(** [if(stateListX(...)) panic(msg);]. *)
Definition or_panic (m : K (kst E) Z) (msg : string) : K (kst E) unit :=
  r ← m;
  kwhen (negb (r =? 0)) (kpanic msg).

(** The ready list of the priority a process has. *)
Definition ready_of (x : proc) : lname := LReady (Z.to_nat (p_priority x)).

Definition list_head (L : lname) : K (kst E) ptr := fun s =>
  match sl_get (pLists s) L with
  | None => Undef "ready list index out of range"
  | Some (h, _) => Ok (h, s)
  end.

(** [for(p = start; p; p = p->next) body], left at the first body that yields a
    value. *)
Fixpoint for_next {R : Type} (fuel : nat) (p : ptr) (body : nat → K (kst E) (option R))
  : K (kst E) (option R) :=
  match p with
  | None => mret None
  | Some i =>
      match fuel with
      | O => fun _ => Diverge
      | S fuel' =>
          r ← body i;
          match r with
          | Some _ => mret r
          | None => x ← pget (Some i); for_next fuel' (p_next x) body
          end
      end
  end.

Definition for_list {R : Type} (L : lname) (body : nat → K (kst E) (option R))
  : K (kst E) (option R) :=
  h ← list_head L;
  for_next NPROC h body.

(** The loop [for(i = 0; i < MAXPRIO+1; ++i)] over the ready lists. *)
Definition ready_lists : list lname := LReady <$> seq 0 (MAXPRIO + 1).

Definition pinit : K (kst E) unit := kmod (set_pt_lock (initlock "ptable")).

Definition initProcessLists : K (kst E) unit :=
  kmod (set_pLists (mkSL (replicate (MAXPRIO + 1) None) (replicate (MAXPRIO + 1) None)
    None None None None None None None None None None)).

Definition initFreeList : K (kst E) unit :=
  s ← kget;
  if negb (holding_ptable s)
  then kpanic ("acquire the ptable lock before calling initFreeList" +:+ newline)
  else
    kiter (seq 0 NPROC) (fun p =>
      pmod (Some p) (set_p_state UNUSED);;
      list_add LFree (Some p);;
      mret tt).

Definition allocproc : K (kst E) ptr :=
  acquire_ptable;;
  p ← list_head LFree;
  if bool_decide (p = None) then release_ptable;; mret None
  else
    pmod p (set_p_state EMBRYO);;
    or_panic (list_remove LFree p) "error removing from free list.";;
    or_panic (list_add LEmbryo p) "error adding to embryo list.";;
    assertState p EMBRYO;;
    s ← kget;
    pmod p (init_fields (u32 (nextpid s)) (ticks s));;
    kmod (set_nextpid (s32 (nextpid s + 1)));;
    release_ptable;;
    kstack ← lift_env svc_kalloc;
    pmod p (set_p_kstack kstack);;
    if kstack =? 0 then
      pmod p (set_p_state UNUSED);;
      or_panic (list_remove LEmbryo p) "error removing from embryo list.";;
      or_panic (list_add LFree p) "error adding to free list.";;
      assertState p UNUSED;;
      mret None
    else
      pmod p setup_kstack;;
      mret p.

Definition userinit : K (kst E) unit :=
  acquire_ptable;;
  initProcessLists;;
  initFreeList;;
  kmod (fun s => set_PromoteAtTime (u32 (ticks s + TICKS_TO_PROMOTE)) s);;
  release_ptable;;
  p ← allocproc;
  kmod (set_initproc p);;
  pgdir ← lift_env svc_setupkvm;
  pmod p (set_p_pgdir pgdir);;
  if pgdir =? 0 then kpanic "userinit: out of memory?"
  else
    lift_env (svc_inituvm pgdir);;
    pmod p (set_p_sz PGSIZE);;
    pmod p (set_p_trapframe init_trapframe);;
    pmod p (set_p_name (copy_name 16 (bytes_of_string "initcode")));;
    cwd ← lift_env svc_namei_root;
    pmod p (set_p_cwd cwd);;
    pmod p (set_p_state RUNNABLE);;
    acquire_ptable;;
    or_panic (list_remove LEmbryo p) "error removing from embryo list.";;
    x ← pget p;
    or_panic (list_add (ready_of x) p) "error adding to ready list.";;
    assertState p RUNNABLE;;
    release_ptable;;
    pmod p (set_p_uid 0);;
    pmod p (set_p_gid 0).

(** [fork]: the child's pid, or -1. *)
Definition fork : K (kst E) Z :=
  np ← allocproc;
  if bool_decide (np = None) then mret (-1)
  else
    cur ← curproc;
    x ← pget cur;
    pgdir ← lift_env (svc_copyuvm (p_pgdir x) (p_sz x));
    pmod np (set_p_pgdir pgdir);;
    if pgdir =? 0 then
      y ← pget np;
      lift_env (svc_kfree (p_kstack y));;
      pmod np (set_p_kstack 0);;
      pmod np (set_p_state UNUSED);;
      acquire_ptable;;
      or_panic (list_remove LEmbryo np) "error removing from embryo.";;
      or_panic (list_add LFree np) "error adding to freelist.";;
      assertState np UNUSED;;
      release_ptable;;
      mret (-1)
    else
      pmod np (set_p_sz (p_sz x));;
      pmod np (set_p_parent cur);;
      pmod np (set_p_trapframe (set_tf_eax 0 (p_trapframe x)));;
      dup_files cur np;;
      x ← pget cur;
      match p_cwd x with
      | None => kundef "idup of a null inode"
      | Some cwd =>
          lift_env (svc_idup cwd);;
          pmod np (set_p_cwd (Some cwd));;
          pmod np (set_p_name (copy_name 16 (p_name x)));;
          y ← pget np;
          let pid := s32 (p_pid y) in
          acquire_ptable;;
          pmod np (set_p_state RUNNABLE);;
          or_panic (list_remove LEmbryo np) "error removing from embryo.";;
          y ← pget np;
          or_panic (list_add (ready_of y) np) "error adding to ready list.";;
          assertState np RUNNABLE;;
          release_ptable;;
          x ← pget cur;
          pmod np (set_p_uid (p_uid x));;
          pmod np (set_p_gid (p_gid x));;
          mret pid
      end.

(** [wakeup1]: the body of its loop moves [p] to a ready list before the loop
    reads [p->next]. *)
Definition wakeup1_body (ch : chan) (p : nat) : K (kst E) (option unit) :=
  x ← pget (Some p);
  (if bool_decide (p_chan x = ch) then
     pmod (Some p) (set_p_state RUNNABLE);;
     or_panic (list_remove LSleep (Some p)) "error removing from sleep list.";;
     or_panic (list_add (ready_of x) (Some p)) "error adding to ready list.";;
     assertState (Some p) RUNNABLE
   else mret tt);;
  mret None.

Definition wakeup1 (ch : chan) : K (kst E) unit :=
  for_list LSleep (wakeup1_body ch);;
  mret tt.

Definition wakeup (ch : chan) : K (kst E) unit :=
  acquire_ptable;;
  wakeup1 ch;;
  release_ptable.

(** The loops of [exit] that pass abandoned children to [initproc]. *)
Definition reparent_body (cur init : ptr) (p : nat) : K (kst E) (option unit) :=
  x ← pget (Some p);
  (if bool_decide (p_parent x = cur) then pmod (Some p) (set_p_parent init) else mret tt);;
  mret None.

Definition reparent_list (cur init : ptr) (L : lname) : K (kst E) unit :=
  for_list L (reparent_body cur init);;
  mret tt.

(** [exit] from [acquire(&ptable.lock)] to the [swtch] it does not return from,
    with the lock held. *)
Definition exit_locked : K (kst E) unit :=
  cur ← curproc;
  x ← pget cur;
  wakeup1 (chan_of_ptr (p_parent x));;
  s ← kget;
  kiter (ready_lists ++ [LSleep; LEmbryo; LRunning]) (reparent_list cur (initproc s));;
  pmod cur (set_p_state ZOMBIE);;
  or_panic (list_remove LRunning cur) "Error removing from running.";;
  or_panic (list_add LZombie cur) "error adding to zombie list.";;
  assertState cur ZOMBIE;;
  sched_enter;;
  mret tt.

(** [exit] before it takes the lock: the files and the working directory. *)
Definition exit_close : K (kst E) unit :=
  close_files;;
  svc_begin_op;;
  cur ← curproc;
  x ← pget cur;
  match p_cwd x with
  | None => kundef "iput of a null inode"
  | Some cwd =>
      svc_iput cwd;;
      svc_end_op;;
      pmod cur (set_p_cwd None)
  end.

Definition exit_enter : K (kst E) unit :=
  s ← kget;
  if bool_decide (k_proc s = initproc s) then kpanic "init exiting"
  else
    exit_close;;
    acquire_ptable;;
    exit_locked.

(** [sleep] up to [swtch] and after it. *)
Definition sleep_enter (ch : chan) (lk : lockref) : K (kst E) bool :=
  cur ← curproc;
  if bool_decide (cur = None) then kpanic "sleep"
  else
    (if bool_decide (lk ≠ LkPtable) then
       acquire_ptable;;
       (if bool_decide (lk ≠ LkNull) then release_lk lk else mret tt)
     else mret tt);;
    pmod cur (set_p_chan ch);;
    pmod cur (set_p_state SLEEPING);;
    s ← kget;
    pmod cur (charge_budget (ticks s));;
    or_panic (list_remove LRunning cur) "error removing from running list.";;
    or_panic (list_add LSleep cur) "error adding to sleep list.";;
    assertState cur SLEEPING;;
    sched_enter.

(** Reap the zombie child [p]. *)
Definition wait_reap (cur : ptr) (p : nat) : K (kst E) (option Z) :=
  x ← pget (Some p);
  if bool_decide (p_parent x ≠ cur) then mret None
  else
    let pid := s32 (p_pid x) in
    lift_env (svc_kfree (p_kstack x));;
    pmod (Some p) (set_p_kstack 0);;
    lift_env (svc_freevm (p_pgdir x));;
    pmod (Some p) (set_p_state UNUSED);;
    or_panic (list_remove LZombie (Some p)) "Error removing from zombie list.";;
    or_panic (list_add LFree (Some p)) "Error adding to free list.";;
    assertState (Some p) UNUSED;;
    pmod (Some p) (set_p_pid 0);;
    pmod (Some p) (set_p_parent None);;
    pmod (Some p) (set_p_name []);;
    pmod (Some p) (set_p_killed false);;
    release_ptable;;
    mret (Some pid).

Definition is_child (cur : ptr) (p : nat) : K (kst E) (option unit) :=
  x ← pget (Some p);
  mret (if bool_decide (p_parent x = cur) then Some tt else None).

(** One pass of [wait], with [ptable.lock] held; [WaitSleep] is the call
    [sleep(proc, &ptable.lock)]. *)
Definition wait_pass : K (kst E) wait_result :=
  cur ← curproc;
  r ← for_list LZombie (wait_reap cur);
  match r with
  | Some pid => mret (WaitReturn pid)
  | None =>
      havekids ← kfind (ready_lists ++ [LSleep; LEmbryo; LRunning])
                   (fun L => for_list L (is_child cur));
      stop ← (match havekids with
                         | None => mret true
                         | Some _ => x ← pget cur; mret (p_killed x)
                         end);
      if (stop : bool) then
        release_ptable;;
        mret (WaitReturn (-1))
      else mret WaitSleep
  end.

(** [wait] up to its first [swtch], and from the return of [swtch] to the next
    one: the pid or -1 it returns, or the [intena] that [sched] saved. *)
Definition wait_loop : K (kst E) (Z + bool) :=
  r ← wait_pass;
  match r with
  | WaitReturn pid => mret (inl pid)
  | WaitSleep =>
      cur ← curproc;
      saved ← sleep_enter (chan_of_ptr cur) LkPtable;
      mret (inr saved)
  end.

Definition wait_enter : K (kst E) (Z + bool) :=
  acquire_ptable;;
  wait_loop.

Definition wait_resume (saved : bool) : K (kst E) (Z + bool) :=
  sleep_resume LkPtable saved;;
  wait_loop.

(** [yield] up to [swtch] and after it; the results of the list operations are
    not tested. *)
Definition yield_enter : K (kst E) bool :=
  acquire_ptable;;
  cur ← curproc;
  pmod cur (set_p_state RUNNABLE);;
  s ← kget;
  pmod cur (charge_budget (ticks s));;
  list_remove LRunning cur;;
  x ← pget cur;
  list_add (ready_of x) cur;;
  assertState cur RUNNABLE;;
  sched_enter.

(** [kill]: the process with the pid, on which list, in the order searched. *)
Definition has_pid (pid : Z) (p : nat) : K (kst E) (option nat) :=
  x ← pget (Some p);
  mret (if p_pid x =? u32 pid then Some p else None).

Definition kill_sleeper (pid : Z) (p : nat) : K (kst E) (option nat) :=
  x ← pget (Some p);
  if p_pid x =? u32 pid then
    or_panic (list_remove LSleep (Some p)) "error removing from sleep list.";;
    or_panic (list_add (ready_of x) (Some p)) "error adding to ready list.";;
    pmod (Some p) (set_p_state RUNNABLE);;
    assertState (Some p) RUNNABLE;;
    mret (Some p)
  else mret None.

Definition kill (pid : Z) : K (kst E) Z :=
  acquire_ptable;;
  found ← kfind (ready_lists ++ [LRunning; LEmbryo; LZombie])
            (fun L => for_list L (has_pid pid));
  found ← (match found with
           | Some _ => mret found
           | None => for_list LSleep (kill_sleeper pid)
           end);
  match found with
  | None => release_ptable;; mret (-1)
  | Some p =>
      pmod (Some p) (set_p_killed true);;
      release_ptable;;
      mret 0
  end.

(** [setpriority]. *)
Definition set_ready_priority (pid priority : Z) (p : nat) : K (kst E) (option unit) :=
  x ← pget (Some p);
  if (p_pid x =? u32 pid) && negb (u32 priority =? p_priority x) then
    or_panic (list_remove (ready_of x) (Some p))
      "Error removing process from current priority";;
    pmod (Some p) (set_p_priority priority);;
    x ← pget (Some p);
    or_panic (list_add (ready_of x) (Some p))
      "Error adding process to current priority";;
    pmod (Some p) (fun x => set_p_budget (s32 (BUDGET * (p_priority x + 1))) x);;
    mret (Some tt)
  else mret None.

Definition set_other_priority (pid priority : Z) (p : nat) : K (kst E) (option unit) :=
  x ← pget (Some p);
  if p_pid x =? u32 pid then
    pmod (Some p) (set_p_priority priority);;
    pmod (Some p) (fun x => set_p_budget (s32 (BUDGET * (p_priority x + 1))) x);;
    mret (Some tt)
  else mret None.

Definition setpriority (pid priority : Z) : K (kst E) Z :=
  if (pid <? 0) || (priority <? 0) || (priority >? Z.of_nat MAXPRIO + 1) then mret (-1)
  else
    acquire_ptable;;
    r ← kfind ready_lists (fun L => for_list L (set_ready_priority pid priority));
    r ← (match r with
         | Some _ => mret r
         | None => kfind [LSleep; LRunning]
                     (fun L => for_list L (set_other_priority pid priority))
         end);
    release_ptable;;
    mret (if bool_decide (r = None) then -1 else 0).

(** [promoteAll]: the loop body for ready list [i], and for the sleeping and
    running lists. *)
Definition promote_ready (i : nat) (p : nat) : K (kst E) (option unit) :=
  (if bool_decide (0 < i)%nat then
     x ← pget (Some p);
     or_panic (list_remove (ready_of x) (Some p))
       "Error removing process from current priority";;
     pmod (Some p) (fun x => set_p_priority (u32 (p_priority x - 1)) x);;
     x ← pget (Some p);
     or_panic (list_add (ready_of x) (Some p))
       "Error adding process to desired priority"
   else mret tt);;
  pmod (Some p) (fun x => set_p_budget (s32 (BUDGET * (p_priority x + 1))) x);;
  mret None.

Definition promote_proc (x : proc) : proc :=
  let x := if p_priority x >? 0 then set_p_priority (u32 (p_priority x - 1)) x else x in
  set_p_budget (s32 (BUDGET * (p_priority x + 1))) x.

Definition promote_other (p : nat) : K (kst E) (option unit) :=
  pmod (Some p) promote_proc;;
  mret None.

Definition promoteAll : K (kst E) unit :=
  kiter (seq 0 (MAXPRIO + 1)) (fun i => for_list (LReady i) (promote_ready i);; mret tt);;
  for_list LSleep promote_other;;
  for_list LRunning promote_other;;
  mret tt.

(** The scheduler.  [swtch p] stands for the context switch to process [p] and
    all that runs until a process switches back to this scheduler. *)
Section Scheduler.
Variable swtch : nat → K (kst E) unit.

(** The loop body before and after [swtch]. *)
Definition sched_pick (i p : nat) : K (kst E) unit :=
  kmod (set_k_proc (Some p));;
  x ← pget (Some p);
  lift_env (svc_switchuvm x);;
  pmod (Some p) (set_p_state RUNNING);;
  or_panic (list_remove (LReady i) (Some p)) "problem with removing from ready list.";;
  or_panic (list_add LRunning (Some p)) "problem with adding to running list.";;
  assertState (Some p) RUNNING;;
  s ← kget;
  pmod (Some p) (set_p_cpu_ticks_in (ticks s)).

Definition sched_return (p : nat) : K (kst E) unit :=
  s ← kget;
  pmod (Some p) (fun x => set_p_cpu_ticks_total
    (u32 (p_cpu_ticks_total x + u32 (ticks s - p_cpu_ticks_in x))) x);;
  lift_env svc_switchkvm;;
  kmod (set_k_proc None).

Definition sched_body (i p : nat) : K (kst E) (option unit) :=
  sched_pick i p;;
  swtch p;;
  sched_return p;;
  mret None.

(** One pass of the scheduler's [for(;;)]; the result is the [idle] flag.  An
    idle CPU enables interrupts and waits for one ([hlt] does not change the
    state). *)
Definition sched_promote : K (kst E) unit :=
  s ← kget;
  if ticks s >=? PromoteAtTime s then
    promoteAll;;
    kmod (fun s => set_PromoteAtTime (u32 (ticks s + TICKS_TO_PROMOTE)) s)
  else mret tt.

Fixpoint sched_lists (l : list nat) (idle : bool) : K (kst E) bool :=
  match l with
  | [] => mret idle
  | i :: l' =>
      h ← list_head (LReady i);
      for_next NPROC h (sched_body i);;
      sched_lists l' (idle && bool_decide (h = None))
  end.

Definition scheduler_pass : K (kst E) bool :=
  kmod (set_fl_if true);;
  acquire_ptable;;
  sched_promote;;
  idle ← sched_lists (seq 0 (MAXPRIO + 1)) true;
  release_ptable;;
  kwhen idle (kmod (set_fl_if true));;
  mret idle.
End Scheduler.
End MLFQ.
