(* ===== verification/ListRep.v ===== *)
(** * The process table as an array and a family of sequences

    [rep r eps abs s] relates a kernel state [s] to an abstract one: [eps] is the
    process array without its [next] pointers, [abs] gives the sequence of
    processes on each state list, and [r] is the rest of the state.  The rules of
    this file run the primitive steps of [ProcMLFQ] (field access, list operations,
    lock operations, loops over lists) on the abstract state, so that the proofs
    about the operations never see a pointer. *)

From S2P Require Import Prelude Param Spinlock ProcData StateList ProcServices.
From S2P Require Import ProcCommon ProcMLFQ.
Local Open Scope Z_scope.

(** ** Definitions *)

Definition absmap : Type := lname → list nat.

Definition aset (L : lname) (l : list nat) (abs : absmap) : absmap :=
  fun L' => if decide (L' = L) then l else abs L'.

Definition aremove (p : nat) (L : lname) (abs : absmap) : absmap :=
  aset L (sremove p (abs L)) abs.

Definition aadd (p : nat) (L : lname) (abs : absmap) : absmap :=
  aset L (abs L ++ [p]) abs.

(** Move [p] from one list to the end of another. *)
Definition amove (p : nat) (L1 L2 : lname) (abs : absmap) : absmap :=
  aadd p L2 (aremove p L1 abs).

Definition valid (L : lname) : Prop :=
  match L with LReady i => (i ≤ MAXPRIO)%nat | _ => True end.

#[export] Instance valid_dec L : Decision (valid L).
Proof. destruct L; apply _. Defined.

(** Pointers and sequences agree, and no process is on two lists. *)
Record lists_wf (ps : list proc) (sl : StateLists) (abs : absmap) : Prop := {
  wf_valid L : valid L → ∃ h t, sl_get sl L = Some (h, t) ∧ slist ps h t (abs L);
  wf_ready : length (sl_ready sl) = (MAXPRIO + 1)%nat;
  wf_readyTail : length (sl_readyTail sl) = (MAXPRIO + 1)%nat;
  wf_invalid L : ¬ valid L → abs L = [];
  wf_disjoint L L' i : i ∈ abs L → i ∈ abs L' → L = L'
}.

Definition no_lists : StateLists :=
  mkSL [] [] None None None None None None None None None None.

Section Rep.
Context {E : Type} `{!Services E}.

(** The state without the process array and its lists. *)
Definition rest (s : kst E) : kst E := set_pLists no_lists (set_pt_proc [] s).

Definition rep (r : kst E) (eps : list proc) (abs : absmap) (s : kst E) : Prop :=
  rest s = r ∧ erase_next (pt_proc s) = eps ∧ lists_wf (pt_proc s) (pLists s) abs.

(** The rest of the state after taking the free [ptable.lock] and after
    releasing it. *)
Definition after_acquire (r : kst E) : kst E :=
  set_k_cpu (pushcli (k_cpu r))
    (set_pt_lock (mkSpinlock 1 (lk_name (pt_lock r)) (Some (cpu_id (k_cpu r)))) r).

Definition after_release (r : kst E) : kst E :=
  set_k_cpu (mkCpu (cpu_id (k_cpu r)) (ncli (k_cpu r) - 1) (intena (k_cpu r))
      ((ncli (k_cpu r) - 1 =? 0) && intena (k_cpu r)))
    (set_pt_lock (mkSpinlock 0 (lk_name (pt_lock r)) None) r).

(** Field updates that do not touch [next]. *)
Definition keeps_next (f : proc → proc) : Prop :=
  ∀ n x, f (set_p_next n x) = set_p_next n (f x).

(** The processes of [l] updated with [f]. *)
Definition update_on (l : list nat) (f : proc → proc) (eps : list proc) : list proc :=
  imap (λ i x, if decide (i ∈ l) then f x else x) eps.

(** The first value [f] yields on a sequence. *)
Definition first_some {A R : Type} (f : A → option R) (l : list A) : option R :=
  head (omap f l).
End Rep.

(** ** Lemmas *)

Lemma aset_eq L l abs : aset L l abs L = l.
Proof. unfold aset. by rewrite decide_True. Qed.

Lemma aset_ne L L' l abs : L' ≠ L → aset L l abs L' = abs L'.
Proof. intros. unfold aset. by rewrite decide_False. Qed.

Lemma sl_get_set_eq sl L h t h0 t0 :
  sl_get sl L = Some (h0, t0) → sl_get (sl_set L h t sl) L = Some (h, t).
Proof.
  destruct L; cbn; try done. intros H.
  destruct (sl_ready sl !! i) eqn:E1; [|done]. cbn in H.
  destruct (sl_readyTail sl !! i) eqn:E2; [|done].
  rewrite !list_lookup_insert_eq by (by eapply lookup_lt_Some). done.
Qed.

Lemma sl_get_set_ne sl L L' h t :
  L ≠ L' → sl_get (sl_set L h t sl) L' = sl_get sl L'.
Proof.
  destruct L, L'; cbn; try done. intros H.
  rewrite !list_lookup_insert_ne by congruence. done.
Qed.

Lemma sl_set_lengths sl L h t :
  length (sl_ready (sl_set L h t sl)) = length (sl_ready sl) ∧
  length (sl_readyTail (sl_set L h t sl)) = length (sl_readyTail sl).
Proof. destruct L; cbn; by rewrite ?length_insert. Qed.

Lemma valid_nonempty ps sl abs L i : lists_wf ps sl abs → i ∈ abs L → valid L.
Proof.
  intros Hwf Hi. destruct (decide (valid L)) as [|Hn]; [done|].
  rewrite (wf_invalid _ _ _ Hwf L Hn) in Hi. by apply elem_of_nil in Hi.
Qed.

Lemma sremove_nil p : sremove p [] = [].
Proof. done. Qed.

Lemma elem_of_aremove p L L' abs i :
  i ∈ aremove p L abs L' → i ∈ abs L' ∧ (L' = L → i ≠ p).
Proof.
  unfold aremove, aset. case_decide as HL; [subst|done].
  rewrite elem_of_sremove. tauto.
Qed.

Lemma elem_of_aadd p L L' abs i :
  i ∈ aadd p L abs L' ↔ i ∈ abs L' ∨ (i = p ∧ L' = L).
Proof.
  unfold aadd, aset. case_decide as HL; [subst|]; [|naive_solver].
  rewrite elem_of_app, list_elem_of_singleton. naive_solver.
Qed.

(** A process that is on [L1] is on no other list, so after the move it is on
    [L2] only. *)
Lemma elem_of_amove p L1 L2 L abs i :
  (∀ L', p ∈ abs L' → L' = L1) →
  i ∈ amove p L1 L2 abs L ↔ (i = p ∧ L = L2) ∨ (i ≠ p ∧ i ∈ abs L).
Proof.
  intros Honly. unfold amove. rewrite elem_of_aadd. unfold aremove, aset.
  case_decide as HL; [subst; rewrite elem_of_sremove; naive_solver|].
  destruct (decide (i = p)) as [->|]; naive_solver.
Qed.

(** Only the members of [L] get a new list; the other lists are untouched. *)
Lemma lists_wf_update ps sl abs ps' h' t' L l' :
  lists_wf ps sl abs → valid L → slist ps' h' t' l' →
  (∀ L' i, L' ≠ L → i ∈ abs L' → ps' !! i = ps !! i) →
  (∀ L' i, L' ≠ L → i ∈ abs L' → i ∉ l') →
  lists_wf ps' (sl_set L h' t' sl) (aset L l' abs).
Proof.
  intros Hwf HL Hs Hsame Hdisj. split.
  - intros L' HL'. destruct (decide (L' = L)) as [->|Hne].
    + rewrite aset_eq. destruct (wf_valid _ _ _ Hwf L HL) as (h0 & t0 & Hg & _).
      exists h', t'. split; [by eapply sl_get_set_eq | done].
    + rewrite aset_ne by done. destruct (wf_valid _ _ _ Hwf L' HL') as (h0 & t0 & Hg & Hl).
      exists h0, t0. rewrite sl_get_set_ne by done. split; [done|].
      eapply slist_same; [|done]. intros i Hi. by eapply Hsame.
  - rewrite (proj1 (sl_set_lengths sl L h' t')). apply (wf_ready _ _ _ Hwf).
  - rewrite (proj2 (sl_set_lengths sl L h' t')). apply (wf_readyTail _ _ _ Hwf).
  - intros L' HL'. rewrite aset_ne by (by intros ->). by apply (wf_invalid _ _ _ Hwf).
  - intros L1 L2 i. unfold aset. do 2 case_decide; subst; intros H1 H2; [done| | |].
    + by destruct (Hdisj L2 i).
    + by destruct (Hdisj L1 i).
    + by eapply (wf_disjoint _ _ _ Hwf).
Qed.

Lemma lists_wf_fields ps ps' sl abs :
  lists_wf ps sl abs →
  (∀ i x, ps !! i = Some x → ∃ x', ps' !! i = Some x' ∧ p_next x' = p_next x) →
  lists_wf ps' sl abs.
Proof.
  intros [Hv H1 H2 H3 H4] Hext. split; [|done..].
  intros L HL. destruct (Hv L HL) as (h & t & Hg & Hs). exists h, t. split; [done|].
  eapply slist_ext; [|done]. eauto.
Qed.

Lemma lists_wf_ext ps sl abs abs' :
  (∀ L, abs L = abs' L) → lists_wf ps sl abs → lists_wf ps sl abs'.
Proof.
  intros He [Hv H1 H2 H3 H4]. split; [| done | done | |].
  - intros L. rewrite <- He. apply Hv.
  - intros L. rewrite <- He. apply H3.
  - intros L L' i. rewrite <- !He. apply H4.
Qed.

(** The last process of a list has no successor. *)
Lemma wf_last_next ps sl abs L p :
  lists_wf ps sl abs → last (abs L) = Some p → ∃ x, ps !! p = Some x ∧ p_next x = None.
Proof.
  intros Hwf Hl. assert (HL : valid L).
  { eapply valid_nonempty; [done|]. by apply last_Some_elem_of. }
  destruct (wf_valid _ _ _ Hwf L HL) as (h & t & _ & [Hc _]).
  apply last_Some in Hl as [l Hl]. rewrite Hl in Hc.
  apply lseg_app in Hc as (m & _ & (-> & x & Hx & Hn)). eauto.
Qed.

(** *** Rules for the primitive steps *)

Section Rules.
Context {E : Type} `{!Services E}.
Implicit Types (s r : kst E) (eps : list proc) (abs : absmap).

Lemma rep_lookup r eps abs s i x :
  rep r eps abs s → eps !! i = Some x →
  ∃ n, pt_proc s !! i = Some (set_p_next n x) ∧ p_next x = None.
Proof.
  intros (_ & <- & _) Hx. unfold erase_next in Hx. rewrite list_lookup_fmap in Hx.
  destruct (pt_proc s !! i) as [y|]; [|done]. injection Hx as <-.
  exists (p_next y). by destruct y.
Qed.

(** A list member is a process. *)
Lemma rep_member r eps abs s L i : rep r eps abs s → i ∈ abs L → ∃ x, eps !! i = Some x.
Proof.
  intros (_ & <- & Hwf) Hi. pose proof (valid_nonempty _ _ _ _ _ Hwf Hi) as HL.
  destruct (wf_valid _ _ _ Hwf L HL) as (h & t & _ & [Hc _]).
  apply lookup_lt_is_Some. unfold erase_next. rewrite length_fmap. by eapply lseg_lt.
Qed.

(** Fields outside the table. *)
Lemma rep_field {A : Type} (f : kst E → A) r eps abs s :
  rep r eps abs s → f (rest s) = f s → f s = f r.
Proof. intros (<- & _) H. done. Qed.

Lemma rep_proc r eps abs s : rep r eps abs s → k_proc s = k_proc r.
Proof. intros H. by eapply (rep_field k_proc). Qed.

Lemma rep_ticks r eps abs s : rep r eps abs s → ticks s = ticks r.
Proof. intros H. by eapply (rep_field ticks). Qed.

Lemma runs_curproc r eps abs s (Q : ptr → kst E → Prop) :
  rep r eps abs s → Q (k_proc r) s → runs curproc s Q.
Proof. intros Hr HQ. eapply runs_ok; [reflexivity|]. by rewrite (rep_proc _ _ _ _ Hr). Qed.

Lemma runs_pget r eps abs s i x (Q : proc → kst E → Prop) :
  rep r eps abs s → eps !! i = Some x → (∀ n, Q (set_p_next n x) s) →
  runs (pget (Some i)) s Q.
Proof.
  intros Hr Hx HQ. destruct (rep_lookup _ _ _ _ _ _ Hr Hx) as (n & Hn & _).
  eapply runs_ok; [by apply pget_ok | apply HQ].
Qed.

Lemma runs_pmod r eps abs s i x f (Q : unit → kst E → Prop) :
  rep r eps abs s → eps !! i = Some x → keeps_next f →
  (∀ s', rep r (<[i := f x]> eps) abs s' → Q tt s') →
  runs (pmod (Some i) f) s Q.
Proof.
  intros Hr Hx Hf HQ. destruct (rep_lookup _ _ _ _ _ _ Hr Hx) as (n & Hn & Hxn).
  eapply runs_ok; [by apply pmod_ok|]. apply HQ. destruct Hr as (<- & <- & Hwf).
  split_and!; [done| |].
  - cbn. unfold erase_next. rewrite list_fmap_insert. f_equal. rewrite Hf.
    rewrite <- (Hf n), <- Hf. f_equal. destruct x; cbn in *. by subst.
  - cbn. eapply lists_wf_fields; [done|]. intros j y Hy. destruct (decide (i = j)) as [->|].
    + rewrite list_lookup_insert_eq by (by eapply lookup_lt_Some). eexists. split; [done|].
      rewrite Hf. assert (y = set_p_next n x) as -> by congruence. done.
    + rewrite list_lookup_insert_ne by done. eauto.
Qed.

(** Steps on the rest of the state. *)
Lemma rep_rest r r' eps abs s s' :
  rep r eps abs s → rest s' = r' → pt_proc s' = pt_proc s → pLists s' = pLists s →
  rep r' eps abs s'.
Proof. intros (_ & He & Hwf) Hr Hp Hl. unfold rep. by rewrite Hp, Hl. Qed.

(** A change of the globals. *)
Lemma runs_kmod r eps abs s (g : kst E → kst E) (Q : unit → kst E → Prop) :
  rep r eps abs s →
  (∀ s0, rest (g s0) = g (rest s0) ∧ pt_proc (g s0) = pt_proc s0 ∧ pLists (g s0) = pLists s0) →
  (∀ s', rep (g r) eps abs s' → Q tt s') →
  runs (kmod g) s Q.
Proof.
  intros Hr Hg HQ. apply runs_mod, HQ. destruct (Hg s) as (H1 & H2 & H3).
  eapply rep_rest; [exact Hr | | done..]. destruct Hr as (<- & _). done.
Qed.

Lemma runs_list_remove r eps abs s L p (Q : Z → kst E → Prop) :
  rep r eps abs s → p ∈ abs L →
  (∀ s', rep r eps (aremove p L abs) s' → Q 0 s') →
  runs (list_remove L (Some p)) s Q.
Proof.
  intros (Hr & He & Hwf) Hp HQ. pose proof (valid_nonempty _ _ _ _ _ Hwf Hp) as HL.
  destruct (wf_valid _ _ _ Hwf L HL) as (h & t & Hg & Hs).
  destruct (slist_remove _ _ _ _ _ Hs Hp) as (ps' & h' & t' & Hok & Hs' & He' & Hsame).
  eapply runs_ok; [unfold list_remove, list_op; rewrite Hg, Hok; reflexivity|].
  apply HQ. split_and!; [done | exact (eq_trans He' He) |].
  apply lists_wf_update with (ps := pt_proc s); [done..| |].
  - intros L' i Hne Hi. apply Hsame. intros Hi'. apply Hne. by eapply (wf_disjoint _ _ _ Hwf).
  - intros L' i Hne Hi [_ Hi']%elem_of_sremove. apply Hne. by eapply (wf_disjoint _ _ _ Hwf).
Qed.

Lemma runs_list_add r eps abs s L p x (Q : Z → kst E → Prop) :
  rep r eps abs s → valid L → eps !! p = Some x → (∀ L', p ∉ abs L') →
  (∀ s', rep r eps (aadd p L abs) s' → Q 0 s') →
  runs (list_add L (Some p)) s Q.
Proof.
  intros Hrep HL Hx Hp HQ. destruct (rep_lookup _ _ _ _ _ _ Hrep Hx) as (n & Hn & _).
  destruct Hrep as (Hr & He & Hwf).
  destruct (wf_valid _ _ _ Hwf L HL) as (h & t & Hg & Hs).
  destruct (slist_add _ _ _ _ _ _ Hs (Hp L) Hn) as (ps' & h' & t' & Hok & Hs' & He' & Hsame & _).
  eapply runs_ok; [unfold list_add, list_op; rewrite Hg, Hok; reflexivity|].
  apply HQ. split_and!; [done | exact (eq_trans He' He) |].
  apply lists_wf_update with (ps := pt_proc s); [done..| |].
  - intros L' i Hne Hi. apply Hsame; [|by intros ->; apply (Hp L')].
    intros Hi'. apply Hne. by eapply (wf_disjoint _ _ _ Hwf).
  - intros L' i Hne Hi [Hi'|Hi'%list_elem_of_singleton]%elem_of_app.
    + apply Hne. by eapply (wf_disjoint _ _ _ Hwf).
    + subst. by apply (Hp L').
Qed.

Lemma runs_or_panic (m : K (kst E) Z) msg s (Q : unit → kst E → Prop) :
  runs m s (λ z s', z = 0 ∧ Q tt s') → runs (or_panic m msg) s Q.
Proof.
  intros H. apply runs_bind. eapply runs_mono; [exact H|]. intros z s' [-> HQ].
  by apply runs_ret.
Qed.

(** Move a process between lists. *)
Lemma runs_move {A : Type} r eps abs s L1 L2 p x m1 m2 (k : K (kst E) A)
    (Q : A → kst E → Prop) :
  rep r eps abs s → p ∈ abs L1 → valid L2 → eps !! p = Some x →
  (∀ s', rep r eps (amove p L1 L2 abs) s' → runs k s' Q) →
  runs (or_panic (list_remove L1 (Some p)) m1;; or_panic (list_add L2 (Some p)) m2;; k) s Q.
Proof.
  intros Hr Hp HL Hx HQ. pose proof Hr as (_ & _ & Hwf).
  apply runs_bind, runs_or_panic. eapply runs_list_remove; [done..|].
  intros s1 H1. split; [done|]. apply runs_bind, runs_or_panic.
  eapply runs_list_add; [done..| |].
  - intros L' [Hi Hne]%elem_of_aremove.
    assert (L' = L1) by (by eapply (wf_disjoint _ _ _ Hwf)). by apply Hne.
  - intros s2 H2. split; [done|]. by apply HQ.
Qed.

Lemma runs_acquire r eps abs s (Q : unit → kst E → Prop) :
  rep r eps abs s → unlocked r →
  (∀ s', rep (after_acquire r) eps abs s' → ptable_held (after_acquire r) → Q tt s') →
  runs acquire_ptable s Q.
Proof.
  intros (<- & He & Hwf) [Hl Hn] HQ. cbn in Hl, Hn.
  eapply runs_ok; [unfold acquire_ptable; rewrite (acquire_free _ _ Hl); reflexivity|].
  apply HQ; [by split_and!|]. unfold ptable_held; cbn. by rewrite Hn.
Qed.

Lemma runs_release r eps abs s (Q : unit → kst E → Prop) :
  rep r eps abs s → ptable_held r →
  (∀ s', rep (after_release r) eps abs s' → unlocked (after_release r) → Q tt s') →
  runs release_ptable s Q.
Proof.
  intros (<- & He & Hwf) Hh HQ. pose proof Hh as (Hl & Hc & Hn & Hf). cbn in Hl, Hc, Hn, Hf.
  eapply runs_ok.
  - unfold release_ptable, release, release_clear, holding.
    rewrite Hc, bool_decide_true by done. destruct (Z.eqb_spec (locked (pt_lock s)) 0); [done|].
    cbn. unfold popcli. rewrite Hf, Hn. reflexivity.
  - apply HQ.
    + split_and!; [|done..]. unfold after_release, rest; cbn. by rewrite Hn.
    + unfold unlocked; cbn. by rewrite Hn.
Qed.

Lemma runs_assertState r eps abs s i x st (Q : unit → kst E → Prop) :
  rep r eps abs s → eps !! i = Some x → p_state x = st → Q tt s →
  runs (assertState (Some i) st) s Q.
Proof.
  intros Hr Hx Hst HQ. apply runs_bind. eapply runs_pget; [done..|]. intros n.
  rewrite bool_decide_false by (cbn; tauto). by apply runs_ret.
Qed.

Lemma runs_lift_env {A : Type} r eps abs s (m : K E A) (Q : A → kst E → Prop) :
  rep r eps abs s →
  runs m (k_env r) (λ a e, ∀ s', rep (set_k_env e r) eps abs s' → Q a s') →
  runs (lift_env m) s Q.
Proof.
  intros (<- & He & Hwf) H. apply runs_lift. eapply runs_mono; [exact H|].
  intros a e HQ. by apply HQ.
Qed.

Lemma runs_list_head r eps abs s L (Q : ptr → kst E → Prop) :
  rep r eps abs s → valid L → Q (head (abs L)) s → runs (list_head L) s Q.
Proof.
  intros (_ & _ & Hwf) HL HQ. destruct (wf_valid _ _ _ Hwf L HL) as (h & t & Hg & [Hc _]).
  assert (h = head (abs L)) as -> by (destruct (abs L); [done | by destruct Hc]).
  eapply runs_ok; [|exact HQ]. unfold list_head. by rewrite Hg.
Qed.
End Rules.

(** *** Loops over a list *)

Section Loops.
Context {E : Type} `{!Services E}.
Implicit Types (s r : kst E) (eps : list proc) (abs : absmap).

Lemma wf_split_next ps sl abs L l1 i l2 :
  lists_wf ps sl abs → abs L = l1 ++ i :: l2 → ∃ x, ps !! i = Some x ∧ p_next x = head l2.
Proof.
  intros Hwf Hl. assert (HL : valid L).
  { eapply (valid_nonempty _ _ _ _ i); [done|]. rewrite Hl. set_solver. }
  destruct (wf_valid _ _ _ Hwf L HL) as (h & t & _ & [Hc _]). rewrite Hl in Hc.
  apply lseg_app in Hc as (m & _ & (-> & x & Hx & Hc)). exists x. split; [done|].
  destruct l2; [done|]. by destruct Hc.
Qed.

Definition next_is (s : kst E) (i : nat) (n : ptr) : Prop :=
  ∃ x, pt_proc s !! i = Some x ∧ p_next x = n.

Lemma rep_next r eps abs s L l1 i l2 :
  rep r eps abs s → abs L = l1 ++ i :: l2 → next_is s i (head l2).
Proof. intros (_ & _ & Hwf). by eapply wf_split_next. Qed.

(** The general rule.  [I done s] holds when the loop has visited [done]; a body
    that does not leave the loop either keeps the list, or it has moved the
    process to the end of a list, after which the loop stops. *)
Lemma runs_for_next {R : Type} (body : nat → K (kst E) (option R)) (I : list nat → kst E → Prop)
    (Q : option R → kst E → Prop) l :
  (∀ l1 i l2 s, l = l1 ++ i :: l2 → I l1 s →
    runs (body i) s (λ res s', match res with
      | Some _ => Q res s'
      | None => (I (l1 ++ [i]) s' ∧ next_is s' i (head l2)) ∨ (next_is s' i None ∧ Q None s')
      end)) →
  (∀ s, I l s → Q None s) →
  ∀ l1 l2 s fuel, l = l1 ++ l2 → (length l2 ≤ fuel)%nat → I l1 s →
  runs (for_next fuel (head l2) body) s Q.
Proof.
  intros Hbody Hend l1 l2. revert l1. induction l2 as [|i l2 IH]; intros l1 s fuel Hl Hf HI.
  - destruct fuel; apply runs_ret, Hend; by rewrite app_nil_r in Hl; subst.
  - destruct fuel as [|fuel]; cbn [length] in Hf; [lia|]. cbn [for_next head].
    apply runs_bind. eapply runs_mono; [by eapply Hbody|].
    intros [v|] s' HQ; [by apply runs_ret|]. apply runs_bind.
    destruct HQ as [[HI' (x & Hx & Hn)] | [(x & Hx & Hn) HQ]];
      (eapply runs_ok; [by apply pget_ok|]); rewrite Hn.
    + apply (IH (l1 ++ [i])); [by rewrite <- app_assoc | lia | done].
    + destruct fuel; by apply runs_ret.
Qed.

Lemma runs_for_list {R : Type} r eps abs s L (body : nat → K (kst E) (option R))
    (I : list nat → kst E → Prop) (Q : option R → kst E → Prop) :
  rep r eps abs s → valid L → length eps = NPROC →
  (∀ l1 i l2 s, abs L = l1 ++ i :: l2 → I l1 s →
    runs (body i) s (λ res s', match res with
      | Some _ => Q res s'
      | None => (I (l1 ++ [i]) s' ∧ next_is s' i (head l2)) ∨ (next_is s' i None ∧ Q None s')
      end)) →
  (∀ s, I (abs L) s → Q None s) → I [] s →
  runs (for_list L body) s Q.
Proof.
  intros Hr HL Hlen Hbody Hend HI. apply runs_bind. eapply runs_list_head; [done..|].
  eapply (runs_for_next _ _ _ (abs L)) with (l1 := []); [done | done | reflexivity | | done].
  pose proof Hr as (_ & <- & Hwf). destruct (wf_valid _ _ _ Hwf L HL) as (h & t & _ & [Hc _]).
  apply chain_length in Hc. unfold erase_next in Hlen. rewrite length_fmap in Hlen. lia.
Qed.

Lemma first_some_app {A R : Type} (f : A → option R) l1 l2 :
  first_some f (l1 ++ l2) =
    match first_some f l1 with Some v => Some v | None => first_some f l2 end.
Proof. unfold first_some. rewrite omap_app. by destruct (omap f l1). Qed.

Lemma first_some_cons {A R : Type} (f : A → option R) a l :
  first_some f (a :: l) = match f a with Some v => Some v | None => first_some f l end.
Proof. unfold first_some. cbn. by destruct (f a). Qed.

Lemma first_some_None {A R : Type} (f : A → option R) l :
  first_some f l = None ↔ ∀ a, a ∈ l → f a = None.
Proof.
  induction l as [|a l IH]; [split; [intros _ a Ha; by apply elem_of_nil in Ha | done]|].
  rewrite first_some_cons. destruct (f a) eqn:Ea.
  - split; [done|]. intros H. rewrite (H a) in Ea by left. done.
  - rewrite IH. split; [intros H b [->|]%elem_of_cons; auto | intros H b Hb; apply H; by right].
Qed.

Lemma first_some_Some {A R : Type} (f : A → option R) l v :
  first_some f l = Some v → ∃ a, a ∈ l ∧ f a = Some v.
Proof.
  induction l as [|a l IH]; [done|]. rewrite first_some_cons. destruct (f a) eqn:Ea.
  - intros [= <-]. exists a. split; [left | done].
  - intros (b & Hb & Hf)%IH. exists b. split; [by right | done].
Qed.

Lemma first_some_list_find {A : Type} (P : A → bool) l :
  first_some (λ a, if P a then Some a else None) l = snd <$> list_find P l.
Proof.
  induction l as [|a l IH]; [done|]. rewrite first_some_cons. cbn [list_find].
  destruct (P a) eqn:Ea; [by rewrite decide_True by done|].
  rewrite decide_False by (rewrite ?Ea; tauto). rewrite IH. by destruct (list_find P l) as [[]|].
Qed.

(** A search: the body changes nothing. *)
Lemma runs_for_search {R : Type} r eps abs s L (body : nat → K (kst E) (option R))
    (f : nat → option R) (Q : option R → kst E → Prop) :
  rep r eps abs s → valid L → length eps = NPROC →
  (∀ i, i ∈ abs L → body i s = Ok (f i, s)) →
  Q (first_some f (abs L)) s →
  runs (for_list L body) s Q.
Proof.
  intros Hr HL Hlen Hbody HQ.
  eapply (runs_for_list _ _ _ _ _ _ (λ l1 s', s' = s ∧ first_some f l1 = None)); try done.
  - intros l1 i l2 s' Hl [-> Hnone]. eapply runs_ok; [apply Hbody; rewrite Hl; set_solver|].
    destruct (f i) eqn:Ei.
    + rewrite Hl, first_some_app, Hnone, first_some_cons, Ei in HQ. done.
    + left. split; [|by eapply rep_next]. split; [done|].
      rewrite first_some_app, Hnone, first_some_cons, Ei. done.
  - intros s' [-> Hnone]. by rewrite Hnone in HQ.
Qed.

Lemma update_on_nil f eps : update_on [] f eps = eps.
Proof.
  unfold update_on. apply list_eq. intros i. rewrite list_lookup_imap.
  destruct (eps !! i); [|done]. cbn. by rewrite decide_False by set_solver.
Qed.

Lemma update_on_lookup l f eps i :
  update_on l f eps !! i = (λ x, if decide (i ∈ l) then f x else x) <$> eps !! i.
Proof. unfold update_on. by rewrite list_lookup_imap. Qed.

Lemma length_update_on l f eps : length (update_on l f eps) = length eps.
Proof. unfold update_on. apply length_imap. Qed.

Lemma update_on_snoc l i f eps x :
  i ∉ l → eps !! i = Some x →
  <[i := f x]> (update_on l f eps) = update_on (l ++ [i]) f eps.
Proof.
  intros Hi Hx. apply list_eq. intros j. rewrite update_on_lookup.
  destruct (decide (i = j)) as [<-|Hne].
  - rewrite list_lookup_insert_eq, Hx; cbn.
    + by rewrite decide_True by set_solver.
    + rewrite length_update_on. by eapply lookup_lt_Some.
  - rewrite list_lookup_insert_ne, update_on_lookup by done.
    destruct (eps !! j); [|done]. cbn. f_equal.
    destruct (decide (j ∈ l)); [rewrite decide_True by set_solver; done|].
    by rewrite decide_False by set_solver.
Qed.

Lemma rep_NoDup r eps abs s L : rep r eps abs s → NoDup (abs L).
Proof.
  intros (_ & _ & Hwf). destruct (decide (valid L)) as [HL|HL].
  - destruct (wf_valid _ _ _ Hwf L HL) as (h & t & _ & [Hc _]). by eapply chain_NoDup.
  - rewrite (wf_invalid _ _ _ Hwf L HL). constructor.
Qed.

(** A pass that updates every process of the list in place. *)
Lemma runs_for_update {R : Type} r eps abs s L (body : nat → K (kst E) (option R)) f
    (Q : option R → kst E → Prop) :
  rep r eps abs s → valid L → length eps = NPROC →
  (∀ s' eps' i x, rep r eps' abs s' → i ∈ abs L → eps' !! i = Some x →
    runs (body i) s' (λ res s'', res = None ∧ rep r (<[i := f x]> eps') abs s'')) →
  (∀ s', rep r (update_on (abs L) f eps) abs s' → Q None s') →
  runs (for_list L body) s Q.
Proof.
  intros Hr HL Hlen Hbody HQ. pose proof (rep_NoDup _ _ _ _ L Hr) as Hnd.
  eapply (runs_for_list _ _ _ _ _ _ (λ l1 s', rep r (update_on l1 f eps) abs s')); try done.
  - intros l1 i l2 s' Hl HI. rewrite Hl in Hnd.
    apply NoDup_app in Hnd as (_ & Hd & _).
    assert (Hi : i ∉ l1) by (intros Hi; apply (Hd i Hi); left).
    destruct (rep_member _ _ _ _ L i Hr) as [x Hx]; [rewrite Hl; set_solver|].
    eapply runs_mono.
    + eapply Hbody; [done | rewrite Hl; set_solver |].
      rewrite update_on_lookup, Hx. cbn. by rewrite decide_False.
    + intros res s'' [-> Hr'']. left. rewrite update_on_snoc in Hr'' by done.
      split; [done|]. by eapply rep_next.
  - by rewrite update_on_nil.
Qed.

(** A pass whose body acts on the first process that satisfies [P] and moves it to
    the end of a list (or leaves the loop), so that nothing after it is visited. *)
Lemma runs_for_first {R : Type} r eps abs s L (body : nat → K (kst E) (option R)) (P : nat → bool)
    (Q : option R → kst E → Prop) :
  rep r eps abs s → valid L → length eps = NPROC →
  (∀ i, i ∈ abs L → P i = false → body i s = Ok (None, s)) →
  match list_find P (abs L) with
  | None => Q None s
  | Some (_, p) =>
      runs (body p) s (λ res s', (res = None → next_is s' p None) ∧ Q res s')
  end →
  runs (for_list L body) s Q.
Proof.
  intros Hr HL Hlen Hbody HQ.
  eapply (runs_for_list _ _ _ _ _ _ (λ l1 s', s' = s ∧ Forall (λ i, P i = false) l1)); try done.
  - intros l1 i l2 s' Hl [-> Hnone]. destruct (P i) eqn:Ei.
    + assert (Hf : list_find P (abs L) = Some (length l1, i)).
      { rewrite Hl. rewrite list_find_app_r; [cbn; rewrite decide_True by (by rewrite Ei)|].
        - cbn. do 2 f_equal; lia.
        - apply list_find_None. eapply Forall_impl; [done|]. cbn. intros j ->. tauto. }
      rewrite Hf in HQ. eapply runs_mono; [exact HQ|]. intros [v|] s' [Hn HQ']; [done|].
      right. auto.
    + eapply runs_ok; [apply Hbody; [rewrite Hl; set_solver | done]|].
      left. split; [|by eapply rep_next]. split; [done|]. apply Forall_app. auto.
  - intros s' [-> Hnone]. assert (Hf : list_find P (abs L) = None).
    { apply list_find_None. eapply Forall_impl; [done|]. cbn. intros j ->. tauto. }
    by rewrite Hf in HQ.
Qed.
End Loops.
