(* ===== verification/ProcMLFQInv.v ===== *)
(** * Correctness of process management with state lists

    The invariant of the [CS333_P3P4] process table, [table_wf]: every process is
    on exactly one list, the list of its state and, when runnable, of its priority,
    which is at most [MAXPRIO].  Each operation of [ProcMLFQ] is shown to return
    (no panic, no access out of range, every list walk ends within [NPROC] steps),
    to keep the invariant, and to do to the table what its abstract
    description says. *)

From S2P Require Import Prelude Param Spinlock ProcData StateList ProcServices.
From S2P Require Import ProcCommon ProcMLFQ ListRep.
Local Open Scope Z_scope.

(** ** Definitions *)

(** The list a process belongs on. *)
Definition list_of (x : proc) : lname :=
  match p_state x with
  | UNUSED => LFree
  | EMBRYO => LEmbryo
  | SLEEPING => LSleep
  | RUNNABLE => ready_of x
  | RUNNING => LRunning
  | ZOMBIE => LZombie
  end.

(** The states of a process that has an address space. *)
Definition live (st : procstate) : bool :=
  match st with SLEEPING | RUNNABLE | RUNNING => true | _ => false end.

(** The fields the invariant constrains; a process that is not in use has no
    open files, a live one has a page table. *)
Definition proc_ok (x : proc) : Prop :=
  0 ≤ p_priority x ≤ Z.of_nat MAXPRIO ∧
  (∀ j, p_parent x = Some j → (j < NPROC)%nat) ∧
  length (p_ofile x) = NOFILE ∧
  (p_state x = UNUSED ∨ p_state x = ZOMBIE → p_ofile x = replicate NOFILE None) ∧
  (live (p_state x) = true → p_pgdir x ≠ 0).

Record table_wf (eps : list proc) (abs : absmap) : Prop := {
  tw_length : length eps = NPROC;
  tw_lists i x L : eps !! i = Some x → (i ∈ abs L ↔ L = list_of x);
  tw_ok i x : eps !! i = Some x → proc_ok x
}.

(** What [wakeup1] does to the table: the first process of the sleep list that
    waits on the channel becomes runnable. *)
Definition sleeps_on (ch : chan) (eps : list proc) (i : nat) : bool :=
  match eps !! i with Some x => bool_decide (p_chan x = ch) | None => false end.

Definition first_sleeper (ch : chan) (eps : list proc) (abs : absmap) : option nat :=
  snd <$> list_find (sleeps_on ch eps) (abs LSleep).

Definition make_ready (i : nat) (eps : list proc) (abs : absmap) : list proc * absmap :=
  match eps !! i with
  | None => (eps, abs)
  | Some x =>
      (<[i := set_p_state RUNNABLE x]> eps, amove i (list_of x) (ready_of x) abs)
  end.

Definition wake_one (ch : chan) (eps : list proc) (abs : absmap) : list proc * absmap :=
  match first_sleeper ch eps abs with
  | None => (eps, abs)
  | Some i => make_ready i eps abs
  end.

(** The processes on the lists [Ls], in the order searched. *)
Definition on_lists (Ls : list lname) (abs : absmap) : list nat := Ls ≫= abs.

(** The test [p->pid == pid]. *)
Definition pid_is (pid : Z) (eps : list proc) (i : nat) : bool :=
  match eps !! i with Some x => p_pid x =? u32 pid | None => false end.

Definition find_pid (pid : Z) (eps : list proc) (i : nat) : option nat :=
  if pid_is pid eps i then Some i else None.

(** The lists [kill] searches before the sleep list. *)
Definition busy_lists : list lname := ready_lists ++ [LRunning; LEmbryo; LZombie].

(** What [kill] does to the process it finds. *)
Definition kill_proc (x : proc) : proc :=
  set_p_killed true (if bool_decide (p_state x = SLEEPING) then set_p_state RUNNABLE x else x).

(** What the caller of [sleep] holds, for each kind of lock argument, and the rest
    of the state once [ptable.lock] is held instead. *)
Section SleepLocks.
Context {E : Type} `{!Services E}.

Definition sleep_ready (lk : lockref) (r : kst E) : Prop :=
  match lk with
  | LkNull => unlocked r
  | LkPtable => ptable_held r
  | LkOther a =>
      locked (pt_lock r) = 0 ∧ holding (k_cpu r) (svc_lock a (k_env r)) = true ∧
      ncli (k_cpu r) = 1 ∧ fl_if (k_cpu r) = false
  end.

Definition sleep_locks (lk : lockref) (r : kst E) : kst E :=
  match lk with
  | LkNull => after_acquire r
  | LkPtable => r
  | LkOther a =>
      set_k_cpu (mkCpu (cpu_id (k_cpu r)) 1 (intena (k_cpu r)) false)
        (set_k_env (svc_set_lock a
            (mkSpinlock 0 (lk_name (svc_lock a (k_env r))) None) (k_env r))
          (after_acquire r))
  end.
End SleepLocks.

(** What [wait] does to the child it reaps. *)
Definition reap (x : proc) : proc :=
  set_p_killed false (set_p_name [] (set_p_parent None (set_p_pid 0
    (set_p_state UNUSED (set_p_kstack 0 x))))).

Definition child_of (i : nat) (eps : list proc) (j : nat) : bool :=
  match eps !! j with Some y => bool_decide (p_parent y = Some i) | None => false end.

(** ** Lemmas *)

Lemma insert_hit {A : Type} (l : list A) i x y : l !! i = Some x → <[i := y]> l !! i = Some y.
Proof. intros H. apply list_lookup_insert_eq. by eapply lookup_lt_Some. Qed.

#[export] Hint Resolve insert_hit : xv6.

Ltac keeps_next_tac := intros ? []; reflexivity.
#[export] Hint Extern 1 (keeps_next _) => keeps_next_tac : xv6.

(** One step of a proof: [H] is the representation of the current state and is
    replaced by that of the next one. *)
Ltac kpmod H :=
  apply runs_bind; eapply runs_pmod; [exact H | eauto with xv6 | eauto with xv6 |];
  clear H; let s := fresh "s" in intros s H; rewrite ?list_insert_insert_eq in H.
Ltac kpget H :=
  apply runs_bind; eapply runs_pget; [exact H | eauto with xv6 |];
  let n := fresh "n" in intros n.
Ltac klift H Hok :=
  apply runs_bind; eapply runs_lift_env; [exact H|]; eapply runs_ok; [exact Hok|];
  clear H; let s := fresh "s" in intros s H.
Ltac kkmod H :=
  apply runs_bind; eapply runs_kmod; [exact H | done |];
  clear H; let s := fresh "s" in intros s H.
Ltac kassert H :=
  apply runs_bind; eapply runs_assertState; [exact H | eauto with xv6 | done |].
Ltac kmove H :=
  eapply runs_move; [exact H | | | eauto with xv6 |];
  [ | | clear H; let s := fresh "s" in intros s H].

Lemma list_of_valid x : proc_ok x → valid (list_of x).
Proof.
  intros (Hp & _). unfold list_of, ready_of. destruct (p_state x); cbn; try done. lia.
Qed.

Lemma ready_of_valid x : proc_ok x → valid (ready_of x).
Proof. intros (Hp & _). cbn. lia. Qed.

#[export] Hint Resolve list_of_valid ready_of_valid : xv6.

(** A live process stays well-formed in another live state. *)
Lemma proc_ok_live st x :
  live st = true → live (p_state x) = true → proc_ok x → proc_ok (set_p_state st x).
Proof.
  intros H1 H2 (Hp & Hpar & Hl & _ & Hd). unfold proc_ok. cbn. split_and!; try done; [lia..| |].
  - intros [->| ->]; done.
  - intros _. by apply Hd.
Qed.

Lemma tw_member eps abs i x : table_wf eps abs → eps !! i = Some x → i ∈ abs (list_of x).
Proof. intros Hwf Hx. by apply (tw_lists _ _ Hwf i x). Qed.

Lemma tw_state eps abs L i x :
  table_wf eps abs → eps !! i = Some x → i ∈ abs L → L = list_of x.
Proof. intros Hwf Hx Hi. by apply (tw_lists _ _ Hwf i x). Qed.

(** Changing a process and moving it to the list of its new state. *)
Lemma table_wf_move eps abs p x x' :
  table_wf eps abs → eps !! p = Some x → proc_ok x' →
  table_wf (<[p := x']> eps) (amove p (list_of x) (list_of x') abs).
Proof.
  intros Hwf Hx Hok.
  assert (Honly : ∀ L', p ∈ abs L' → L' = list_of x) by (intros L'; by eapply tw_state).
  split.
  - rewrite length_insert. apply (tw_length _ _ Hwf).
  - intros i y L Hy. rewrite elem_of_amove by done.
    destruct (decide (i = p)) as [->|Hne].
    + rewrite (insert_hit _ _ _ x' Hx) in Hy. injection Hy as <-. tauto.
    + rewrite list_lookup_insert_ne in Hy by done. rewrite (tw_lists _ _ Hwf i y L Hy). tauto.
  - intros i y Hy. apply list_lookup_insert_Some in Hy as [(-> & <- & _)|[_ Hy]]; [done|].
    by eapply tw_ok.
Qed.

Lemma not_in_aremove eps abs p x L :
  table_wf eps abs → eps !! p = Some x → p ∉ aremove p (list_of x) abs L.
Proof. intros Hwf Hx [Hi Hne]%elem_of_aremove. apply Hne; [|done]. by eapply tw_state. Qed.

(** Changing a process that stays on its list. *)
Lemma table_wf_same eps abs p x x' :
  table_wf eps abs → eps !! p = Some x → proc_ok x' → list_of x' = list_of x →
  table_wf (<[p := x']> eps) abs.
Proof.
  intros Hwf Hx Hok Hl. split.
  - rewrite length_insert. apply (tw_length _ _ Hwf).
  - intros i y L Hy. apply list_lookup_insert_Some in Hy as [(-> & <- & _)|[_ Hy]].
    + rewrite Hl. by apply (tw_lists _ _ Hwf).
    + by apply (tw_lists _ _ Hwf).
  - intros i y Hy. apply list_lookup_insert_Some in Hy as [(-> & <- & _)|[_ Hy]]; [done|].
    by eapply tw_ok.
Qed.

Lemma table_wf_update_on eps abs l f :
  table_wf eps abs →
  (∀ i x, i ∈ l → eps !! i = Some x → proc_ok (f x) ∧ list_of (f x) = list_of x) →
  table_wf (update_on l f eps) abs.
Proof.
  intros Hwf Hf. split.
  - rewrite length_update_on. apply (tw_length _ _ Hwf).
  - intros i y L Hy. rewrite update_on_lookup in Hy. destruct (eps !! i) as [x|] eqn:Hx; [|done].
    injection Hy as <-. case_decide as Hi; [|by apply (tw_lists _ _ Hwf)].
    rewrite (proj2 (Hf i x Hi Hx)). by apply (tw_lists _ _ Hwf).
  - intros i y Hy. rewrite update_on_lookup in Hy. destruct (eps !! i) as [x|] eqn:Hx; [|done].
    injection Hy as <-. case_decide as Hi; [apply (Hf i x Hi Hx) | by apply (tw_ok _ _ Hwf i)].
Qed.

Lemma tw_lookup eps abs i : table_wf eps abs → (i < NPROC)%nat → ∃ x, eps !! i = Some x.
Proof. intros Hwf Hi. apply lookup_lt_is_Some. by rewrite (tw_length _ _ Hwf). Qed.

Lemma table_parents_valid ps abs : table_wf (erase_next ps) abs → parents_valid ps.
Proof.
  intros Hwf x j [i Hx]%list_elem_of_lookup_1 Hp.
  assert (He : erase_next ps !! i = Some (set_p_next None x))
    by (unfold erase_next; by rewrite list_lookup_fmap, Hx).
  destruct (tw_ok _ _ Hwf _ _ He) as (_ & Hpar & _).
  pose proof (tw_length _ _ Hwf) as Hlen. unfold erase_next in Hlen. rewrite length_fmap in Hlen.
  rewrite Hlen. by apply Hpar.
Qed.

(** The state of a member of a list. *)
Lemma tw_on_list eps abs L i x :
  table_wf eps abs → eps !! i = Some x → i ∈ abs L →
  match L with
  | LReady j => p_state x = RUNNABLE ∧ p_priority x = Z.of_nat j
  | LFree => p_state x = UNUSED
  | LSleep => p_state x = SLEEPING
  | LZombie => p_state x = ZOMBIE
  | LRunning => p_state x = RUNNING
  | LEmbryo => p_state x = EMBRYO
  end.
Proof.
  intros Hwf Hx Hi. pose proof (tw_ok _ _ Hwf i x Hx) as (Hp & _).
  apply (tw_state _ _ _ _ _ Hwf Hx) in Hi as ->. unfold list_of.
  destruct (p_state x) eqn:Est; cbn; try done. split; [done|]. lia.
Qed.

(** *** [wakeup] *)
Section Wakeup.
Context {E : Type} `{!Services E}.
Implicit Types (s r : kst E) (eps : list proc) (abs : absmap).

Lemma make_ready_wf i x eps abs :
  table_wf eps abs → eps !! i = Some x → live (p_state x) = true →
  table_wf (make_ready i eps abs).1 (make_ready i eps abs).2.
Proof.
  intros Hwf Hx Hlive. unfold make_ready. rewrite Hx. cbn [fst snd].
  change (ready_of x) with (list_of (set_p_state RUNNABLE x)).
  apply table_wf_move; [done..|]. by apply proc_ok_live, (tw_ok _ _ Hwf i).
Qed.

Lemma wake_one_wf ch eps abs :
  table_wf eps abs → table_wf (wake_one ch eps abs).1 (wake_one ch eps abs).2.
Proof.
  intros Hwf. unfold wake_one. destruct (first_sleeper ch eps abs) as [i|] eqn:Ef; [|done].
  destruct (eps !! i) as [x|] eqn:Hx; [|unfold make_ready; by rewrite Hx].
  unfold first_sleeper in Ef. destruct (list_find _ _) as [[k j]|] eqn:El; [|done].
  cbn in Ef. injection Ef as ->. apply list_find_Some in El as (Hi%list_elem_of_lookup_2 & _).
  eapply make_ready_wf; [done..|]. by rewrite (tw_on_list _ _ _ _ _ Hwf Hx Hi).
Qed.

(** After a move the process is the last of its new list. *)
Lemma rep_amove_next r eps abs s p L1 L2 : rep r eps (amove p L1 L2 abs) s → next_is s p None.
Proof.
  intros (_ & _ & Hwf). eapply (wf_last_next _ _ _ L2); [done|].
  unfold amove, aadd. by rewrite aset_eq, last_snoc.
Qed.

Lemma wakeup1_ok ch r eps abs s (Q : unit → kst E → Prop) :
  rep r eps abs s → table_wf eps abs →
  (∀ s', rep r (wake_one ch eps abs).1 (wake_one ch eps abs).2 s' → Q tt s') →
  runs (wakeup1 ch) s Q.
Proof.
  intros Hr Hwf HQ. apply runs_bind.
  eapply (runs_for_first _ _ _ _ _ _ (sleeps_on ch eps)); [done | done | by eapply tw_length | |].
  - intros i Hi HP. destruct (rep_member _ _ _ _ _ _ Hr Hi) as [x Hx].
    destruct (rep_lookup _ _ _ _ _ _ Hr Hx) as (n & Hn & _).
    unfold wakeup1_body. rewrite (K_bind_ok _ _ _ _ _ (pget_ok _ _ _ Hn)).
    unfold sleeps_on in HP. rewrite Hx in HP. cbn [p_chan set_p_next]. by rewrite HP.
  - unfold wake_one, first_sleeper in HQ.
    destruct (list_find (sleeps_on ch eps) (abs LSleep)) as [[k p]|] eqn:Ef; cbn in HQ;
      [|by apply runs_ret, HQ].
    apply list_find_Some in Ef as (Hp%list_elem_of_lookup_2 & HP & _).
    destruct (rep_member _ _ _ _ _ _ Hr Hp) as [x Hx].
    pose proof (tw_ok _ _ Hwf _ _ Hx) as Hok.
    unfold make_ready in HQ. rewrite Hx in HQ. unfold sleeps_on in HP. rewrite Hx in HP.
    apply bool_decide_unpack in HP.
    rewrite <- (tw_state _ _ _ _ _ Hwf Hx Hp) in HQ.
    apply runs_bind. eapply runs_pget; [done..|]. intros n.
    rewrite bool_decide_true by done. apply runs_bind, runs_bind.
    eapply runs_pmod; [done | done | eauto with xv6 |]. intros s1 H1.
    eapply runs_move; [done | done | by apply ready_of_valid | eauto with xv6 |]. intros s2 H2.
    eapply runs_assertState; [done | eauto with xv6 | done |].
    apply runs_ret. split; [intros _; by eapply rep_amove_next|].
    apply runs_ret. by apply HQ.
Qed.

(** C24: [wakeup] makes the first process on the sleep list that waits on the channel
    runnable, at the end of the ready list of its priority, and changes nothing
    else. *)
Theorem wakeup_correct ch r eps abs s :
  rep r eps abs s → table_wf eps abs → unlocked r →
  runs (wakeup ch) s (λ _ s',
    rep (after_release (after_acquire r)) (wake_one ch eps abs).1 (wake_one ch eps abs).2 s' ∧
    table_wf (wake_one ch eps abs).1 (wake_one ch eps abs).2).
Proof.
  intros Hr Hwf Hu. apply runs_bind. eapply runs_acquire; [done..|]. intros s1 H1 Hh.
  apply runs_bind. eapply wakeup1_ok; [done..|]. intros s2 H2.
  eapply runs_release; [done..|]. intros s3 H3 _. split; [done|]. by apply wake_one_wf.
Qed.
End Wakeup.

(** *** Searching the lists for a process *)
Section Search.
Context {E : Type} `{!Services E}.
Implicit Types (s r : kst E) (eps : list proc) (abs : absmap).

Lemma elem_of_on_lists Ls abs i : i ∈ on_lists Ls abs ↔ ∃ L, L ∈ Ls ∧ i ∈ abs L.
Proof. unfold on_lists. rewrite list_elem_of_bind. naive_solver. Qed.

Lemma ready_lists_valid L : L ∈ ready_lists → valid L.
Proof. intros (i & -> & Hi%elem_of_seq)%list_elem_of_fmap. cbn. lia. Qed.

Lemma elem_of_ready_lists x : proc_ok x → ready_of x ∈ ready_lists.
Proof.
  intros (Hp & _). unfold ready_of, ready_lists. apply list_elem_of_fmap_2, elem_of_seq. lia.
Qed.

(** A search through several lists by a test of the process. *)
Lemma kfind_search {R : Type} r eps abs s Ls (body : nat → K (kst E) (option R))
    (f : nat → option R) :
  rep r eps abs s → length eps = NPROC → (∀ L, L ∈ Ls → valid L) →
  (∀ L i, L ∈ Ls → i ∈ abs L → body i s = Ok (f i, s)) →
  kfind Ls (λ L, for_list L body) s = Ok (first_some f (on_lists Ls abs), s).
Proof.
  intros Hr Hlen Hv Hbody. induction Ls as [|L Ls IH]; [done|]. cbn [kfind].
  assert (Hl : for_list L body s = Ok (first_some f (abs L), s)).
  { destruct (runs_for_search r eps abs s L body f (λ res s', res = first_some f (abs L) ∧ s' = s))
      as (res & s' & Hok & -> & ->); [done | apply Hv; left | done | | done | done].
    intros i. apply Hbody. left. }
  rewrite (K_bind_ok _ _ _ _ _ Hl). unfold on_lists. cbn. rewrite first_some_app.
  destruct (first_some f (abs L)); [done|].
  apply IH; [intros; apply Hv; by right | intros L' i HL'; apply Hbody; by right].
Qed.

Lemma has_pid_ok pid r eps abs s L i :
  rep r eps abs s → i ∈ abs L → has_pid pid i s = Ok (find_pid pid eps i, s).
Proof.
  intros Hr Hi. destruct (rep_member _ _ _ _ _ _ Hr Hi) as [x Hx].
  destruct (rep_lookup _ _ _ _ _ _ Hr Hx) as (n & Hn & _).
  unfold has_pid. rewrite (K_bind_ok _ _ _ _ _ (pget_ok _ _ _ Hn)).
  unfold find_pid, pid_is. by rewrite Hx.
Qed.
End Search.

(** *** [kill] *)
Section Kill.
Context {E : Type} `{!Services E}.
Implicit Types (s r : kst E) (eps : list proc) (abs : absmap).

Lemma find_pid_first pid eps l :
  match first_some (find_pid pid eps) l with
  | Some i => i ∈ l ∧ pid_is pid eps i = true
  | None => ∀ i, i ∈ l → pid_is pid eps i = false
  end.
Proof.
  destruct (first_some (find_pid pid eps) l) as [i|] eqn:Ef.
  - apply first_some_Some in Ef as (j & Hj & Hf). unfold find_pid in Hf.
    destruct (pid_is pid eps j) eqn:Ej; [|done]. injection Hf as <-. done.
  - intros i Hi. pose proof (proj1 (first_some_None _ _) Ef i Hi) as Hf.
    unfold find_pid in Hf. by destruct (pid_is pid eps i).
Qed.

Lemma kill_proc_ok x : proc_ok x → proc_ok (kill_proc x).
Proof.
  unfold kill_proc. case_bool_decide as Hs; [|done]. intros Hok.
  apply (proc_ok_live RUNNABLE x) in Hok; [done | done | by rewrite Hs].
Qed.

(** The second loop of [kill]: a sleeping process is made runnable. *)
Lemma kill_sleeper_ok pid r eps abs s (Q : option nat → kst E → Prop) :
  rep r eps abs s → table_wf eps abs →
  match first_some (find_pid pid eps) (abs LSleep) with
  | None => Q None s
  | Some i => ∀ s', rep r (make_ready i eps abs).1 (make_ready i eps abs).2 s' → Q (Some i) s'
  end →
  runs (for_list LSleep (kill_sleeper pid)) s Q.
Proof.
  intros Hr Hwf HQ.
  eapply (runs_for_first _ _ _ _ _ _ (pid_is pid eps)); [done | done | by eapply tw_length | |].
  - intros i Hi HP. destruct (rep_member _ _ _ _ _ _ Hr Hi) as [x Hx].
    destruct (rep_lookup _ _ _ _ _ _ Hr Hx) as (n & Hn & _).
    unfold kill_sleeper. rewrite (K_bind_ok _ _ _ _ _ (pget_ok _ _ _ Hn)).
    unfold pid_is in HP. rewrite Hx in HP. cbn [p_pid set_p_next]. by rewrite HP.
  - assert (Hfind : first_some (find_pid pid eps) (abs LSleep) =
      snd <$> list_find (pid_is pid eps) (abs LSleep)) by apply first_some_list_find.
    rewrite Hfind in HQ.
    destruct (list_find (pid_is pid eps) (abs LSleep)) as [[k p]|] eqn:Ef; cbn in HQ; [|done].
    apply list_find_Some in Ef as (Hp%list_elem_of_lookup_2 & HP & _).
    destruct (rep_member _ _ _ _ _ _ Hr Hp) as [x Hx].
    unfold pid_is in HP. rewrite Hx in HP. apply Is_true_true in HP.
    unfold make_ready in HQ. rewrite Hx in HQ. cbn [fst snd] in HQ.
    rewrite <- (tw_state _ _ _ _ _ Hwf Hx Hp) in HQ.
    pose proof (tw_ok _ _ Hwf _ _ Hx) as Hok.
    apply runs_bind. eapply runs_pget; [done..|]. intros n. cbn [p_pid set_p_next]. rewrite HP.
    eapply runs_move; [done | done | by apply ready_of_valid | done |]. intros s1 H1.
    apply runs_bind. eapply runs_pmod; [done | done | eauto with xv6 |]. intros s2 H2.
    apply runs_bind. eapply runs_assertState; [done | eauto with xv6 | done |].
    apply runs_ret. split; [done|]. by apply HQ.
Qed.

Lemma pid_is_true pid eps i :
  pid_is pid eps i = true → ∃ x, eps !! i = Some x ∧ p_pid x = u32 pid.
Proof.
  unfold pid_is. destruct (eps !! i) as [x|]; [|done]. intros H%Z.eqb_eq. eauto.
Qed.

Lemma busy_lists_valid L : L ∈ busy_lists → valid L.
Proof. intros [H|H]%elem_of_app; [by apply ready_lists_valid | by elem_cases H]. Qed.

(** A process in use is on one of the lists that [kill] searches. *)
Lemma in_use_searched eps abs i x :
  table_wf eps abs → eps !! i = Some x → p_state x ≠ UNUSED →
  if bool_decide (p_state x = SLEEPING) then i ∈ abs LSleep else i ∈ on_lists busy_lists abs.
Proof.
  intros Hwf Hx Hst. pose proof (tw_member _ _ _ _ Hwf Hx) as Hi.
  pose proof (elem_of_ready_lists x (tw_ok _ _ Hwf _ _ Hx)) as Hrd.
  case_bool_decide as Hs; [by unfold list_of in Hi; rewrite Hs in Hi|].
  apply elem_of_on_lists. exists (list_of x). split; [|done].
  unfold list_of, busy_lists. rewrite elem_of_app, !elem_of_cons.
  destruct (p_state x); tauto.
Qed.

Lemma not_sleeping_state eps abs i x :
  table_wf eps abs → eps !! i = Some x → i ∈ on_lists busy_lists abs →
  p_state x ≠ UNUSED ∧ p_state x ≠ SLEEPING.
Proof.
  intros Hwf Hx (L & HL & Hi)%elem_of_on_lists.
  pose proof (tw_on_list _ _ _ _ _ Hwf Hx Hi) as Hst.
  apply elem_of_app in HL as [(j & -> & _)%list_elem_of_fmap|HL].
  - destruct Hst as [-> _]. done.
  - by elem_cases HL; rewrite Hst.
Qed.

(** Marking a process killed does not move it. *)
Lemma killed_wf eps abs i x :
  table_wf eps abs → eps !! i = Some x → table_wf (<[i := set_p_killed true x]> eps) abs.
Proof.
  intros Hwf Hx. eapply table_wf_same; [done..| |done].
  exact (tw_ok _ _ Hwf _ _ Hx).
Qed.

Lemma kill_search pid r eps abs s (Q : option nat → kst E → Prop) :
  rep r eps abs s → table_wf eps abs →
  Q (first_some (find_pid pid eps) (on_lists busy_lists abs)) s →
  runs (kfind busy_lists (λ L, for_list L (has_pid pid))) s Q.
Proof.
  intros Hr Hwf HQ. eapply runs_ok; [|exact HQ].
  eapply kfind_search; [done | by eapply tw_length | apply busy_lists_valid |].
  intros L i _ Hi. by eapply has_pid_ok.
Qed.

(** C25: [kill] finds the process in use with the pid, on whatever list it is, marks it
    and wakes it if it sleeps; it returns -1 exactly when no process in use has the
    pid, and then changes nothing. *)
Theorem kill_correct pid r eps abs s :
  rep r eps abs s → table_wf eps abs → unlocked r →
  runs (kill pid) s (λ res s', ∃ eps' abs',
    rep (after_release (after_acquire r)) eps' abs' s' ∧ table_wf eps' abs' ∧
    ((res = 0 ∧ ∃ i x, eps !! i = Some x ∧ p_state x ≠ UNUSED ∧ p_pid x = u32 pid ∧
        eps' = <[i := kill_proc x]> eps) ∨
     (res = -1 ∧ eps' = eps ∧ abs' = abs ∧
        ∀ i x, eps !! i = Some x → p_state x ≠ UNUSED → p_pid x ≠ u32 pid))).
Proof.
  intros Hr Hwf Hu. apply runs_bind. eapply runs_acquire; [done..|]. intros s1 H1 Hh.
  apply runs_bind. eapply kill_search; [done..|].
  pose proof (find_pid_first pid eps (on_lists busy_lists abs)) as Hf1.
  destruct (first_some (find_pid pid eps) (on_lists busy_lists abs)) as [i|].
  { (* found on a list other than the sleep list *)
    destruct Hf1 as [Hi (x & Hx & Hpid)%pid_is_true].
    destruct (not_sleeping_state _ _ _ _ Hwf Hx Hi) as [Hn Hs].
    apply runs_bind, runs_ret, runs_bind. eapply runs_pmod; [done | done | eauto with xv6 |].
    intros s2 H2. apply runs_bind. eapply runs_release; [done..|]. intros s3 H3 _. apply runs_ret.
    do 2 eexists. split; [done|]. split; [by apply killed_wf|]. left. split; [done|].
    exists i, x. split_and!; [done..|]. unfold kill_proc. by rewrite bool_decide_false. }
  apply runs_bind. eapply kill_sleeper_ok; [done..|].
  pose proof (find_pid_first pid eps (abs LSleep)) as Hf2.
  destruct (first_some (find_pid pid eps) (abs LSleep)) as [i|].
  - destruct Hf2 as [Hi (x & Hx & Hpid)%pid_is_true].
    pose proof (tw_on_list _ _ _ _ _ Hwf Hx Hi) as Hst. cbn in Hst.
    intros s2 H2. 
    assert (Hlv : live (p_state x) = true) by (by rewrite Hst).
    pose proof (make_ready_wf _ _ _ _ Hwf Hx Hlv) as Hwf2.
    unfold make_ready in H2, Hwf2. rewrite Hx in H2, Hwf2. cbn [fst snd] in H2, Hwf2.
    apply runs_bind. eapply runs_pmod; [done | eauto with xv6 | eauto with xv6 |].
    intros s3 H3. apply runs_bind. eapply runs_release; [done..|]. intros s4 H4 _. apply runs_ret.
    do 2 eexists. split; [done|]. split; [by eapply killed_wf; eauto with xv6|].
    left. split; [done|]. exists i, x. rewrite Hst. split_and!; [done..|].
    unfold kill_proc. rewrite bool_decide_true by done. apply list_insert_insert_eq.
  - apply runs_bind. eapply runs_release; [done..|]. intros s2 H2 _. apply runs_ret.
    exists eps, abs. split_and!; [done..|]. right. split_and!; [done..|].
    intros i x Hx Hst Hpid. pose proof (in_use_searched _ _ _ _ Hwf Hx Hst) as Hin.
    assert (Hp : pid_is pid eps i = true) by (unfold pid_is; rewrite Hx; by apply Z.eqb_eq).
    case_bool_decide; [rewrite Hf2 in Hp | rewrite Hf1 in Hp]; done.
Qed.
End Kill.

(** *** Giving up the CPU: [yield] and [sleep] *)
Section Yield.
Context {E : Type} `{!Services E}.
Implicit Types (s r : kst E) (eps : list proc) (abs : absmap).

Lemma charge_budget_keeps now : keeps_next (charge_budget now).
Proof.
  intros n []. unfold charge_budget. cbn.
  repeat (case_match; cbn; try reflexivity).
Qed.

Lemma charge_budget_fields now x :
  p_state (charge_budget now x) = p_state x ∧ p_parent (charge_budget now x) = p_parent x ∧
  p_ofile (charge_budget now x) = p_ofile x ∧ p_pgdir (charge_budget now x) = p_pgdir x ∧
  p_chan (charge_budget now x) = p_chan x.
Proof. unfold charge_budget. cbn. by repeat (case_match; cbn). Qed.

Lemma charge_budget_prio now x :
  0 ≤ p_priority x ≤ Z.of_nat MAXPRIO →
  0 ≤ p_priority (charge_budget now x) ≤ Z.of_nat MAXPRIO.
Proof.
  intros Hp. unfold charge_budget. cbn. unfold MAXPRIO in *.
  repeat (bool_case; cbn); rewrite ?u32_small; lia.
Qed.

Lemma charge_budget_ok now x : proc_ok x → proc_ok (charge_budget now x).
Proof.
  intros (Hp & H). destruct (charge_budget_fields now x) as (Hs & Hpar & Hf & Hd & _).
  unfold proc_ok. rewrite Hs, Hpar, Hf, Hd. split; [by apply charge_budget_prio | done].
Qed.

Lemma runs_sched_enter r eps abs s i x (Q : bool → kst E → Prop) :
  rep r eps abs s → ptable_held r → k_proc r = Some i → eps !! i = Some x →
  p_state x ≠ RUNNING → Q (intena (k_cpu r)) s → runs sched_enter s Q.
Proof.
  intros Hr Hh Hcur Hx Hst HQ. destruct (rep_lookup _ _ _ _ _ _ Hr Hx) as (n & Hn & _).
  destruct Hr as (<- & _). eapply runs_ok; [by eapply sched_enter_ok | exact HQ].
Qed.

(** A running process gives up the CPU: it is charged for its time slice and goes
    to the end of the ready list of its (possibly lower) priority. *)
Theorem yield_correct r eps abs s i x :
  rep r eps abs s → table_wf eps abs → unlocked r →
  k_proc r = Some i → eps !! i = Some x → p_state x = RUNNING →
  let x' := charge_budget (ticks r) (set_p_state RUNNABLE x) in
  runs yield_enter s (λ saved s',
    saved = fl_if (k_cpu r) ∧ ptable_held (after_acquire r) ∧
    rep (after_acquire r) (<[i := x']> eps) (amove i LRunning (ready_of x') abs) s' ∧
    table_wf (<[i := x']> eps) (amove i LRunning (ready_of x') abs)).
Proof.
  intros Hr Hwf Hu Hcur Hx Hst x'.
  destruct (charge_budget_fields (ticks r) (set_p_state RUNNABLE x)) as (Hs' & _).
  change (p_state x' = RUNNABLE) in Hs'.
  assert (Hok : proc_ok x').
  { apply charge_budget_ok, proc_ok_live; [done | by rewrite Hst | by apply (tw_ok _ _ Hwf i)]. }
  assert (Hrun : LRunning = list_of x) by (unfold list_of; by rewrite Hst).
  assert (Hrdy : ready_of x' = list_of x') by (unfold list_of; by rewrite Hs').
  apply runs_bind. eapply runs_acquire; [done..|]. intros s1 H1 Hh.
  apply runs_bind. eapply runs_curproc; [done|]. cbn [k_proc after_acquire set_k_cpu set_pt_lock].
  rewrite Hcur. apply runs_bind. eapply runs_pmod; [done | done | eauto with xv6 |]. intros s2 H2.
  apply runs_bind, runs_get, runs_bind.
  rewrite (rep_ticks _ _ _ _ H2).
  eapply runs_pmod; [done | eauto with xv6 | apply charge_budget_keeps |]. intros s3 H3.
  rewrite list_insert_insert_eq in H3. change (ticks (after_acquire r)) with (ticks r) in H3.
  fold x' in H3. clearbody x'.
  apply runs_bind. eapply runs_list_remove; [done | rewrite Hrun; by eapply tw_member |]. intros s4 H4.
  apply runs_bind. eapply runs_pget; [done | eauto with xv6 |]. intros n.
  apply runs_bind. eapply runs_list_add;
    [done | exact (ready_of_valid x' Hok) | eauto with xv6 | |].
  { intros L [Hi Hne]%elem_of_aremove. apply Hne; [|done].
    rewrite Hrun. by eapply tw_state. }
  intros s5 H5. apply runs_bind. eapply runs_assertState; [done | eauto with xv6 | done |].
  eapply runs_sched_enter; [done | done | done | eauto with xv6 | by rewrite Hs' |].
  destruct Hu as [_ Hn]. split_and!; [cbn; by rewrite Hn | done | done |].
  rewrite Hrun, Hrdy. by apply table_wf_move.
Qed.
End Yield.

(** *** [sleep] *)
Section Sleep.
Context {E : Type} `{!Services E}.
Implicit Types (s r : kst E) (eps : list proc) (abs : absmap).

Lemma sleep_locks_held lk r : sleep_ready lk r → ptable_held (sleep_locks lk r).
Proof.
  destruct lk as [| |a]; cbn; [|done|].
  - intros [Hl Hn]. unfold ptable_held; cbn. by rewrite Hn.
  - intros (Hl & Hh & Hn & Hf). unfold ptable_held; cbn. done.
Qed.

Lemma sleep_locks_fields lk r :
  k_proc (sleep_locks lk r) = k_proc r ∧ ticks (sleep_locks lk r) = ticks r.
Proof. by destruct lk. Qed.

(** The exchange of locks at the start of [sleep]. *)
Lemma runs_sleep_locks lk r eps abs s (Q : unit → kst E → Prop) :
  rep r eps abs s → sleep_ready lk r →
  (∀ s', rep (sleep_locks lk r) eps abs s' → Q tt s') →
  runs (if bool_decide (lk ≠ LkPtable) then
          acquire_ptable;;
          (if bool_decide (lk ≠ LkNull) then release_lk lk else mret tt)
        else mret tt) s Q.
Proof.
  intros Hr Hready HQ. destruct lk as [| |a]; cbn in Hready.
  - rewrite bool_decide_true by done. rewrite bool_decide_false by tauto. apply runs_bind.
    eapply runs_acquire; [done..|]. intros s1 H1 _. by apply runs_ret, HQ.
  - rewrite bool_decide_false by tauto. by apply runs_ret, HQ.
  - rewrite !bool_decide_true by done. destruct Hready as (Hl & Hh & Hn & Hf).
    destruct Hr as (<- & He & Hwf). cbn in Hl, Hh, Hn, Hf. apply runs_bind.
    eapply runs_ok; [unfold acquire_ptable; rewrite (acquire_free _ _ Hl); reflexivity|].
    eapply runs_ok.
    + unfold release_lk, release, release_clear. cbn [k_cpu set_k_cpu k_env set_pt_lock].
      change (holding (pushcli (k_cpu s)) (svc_lock a (k_env s)))
        with (holding (k_cpu s) (svc_lock a (k_env s))). rewrite Hh. cbn.
      unfold pushcli. rewrite Hn. reflexivity.
    + apply HQ. split_and!; done.
Qed.

Lemma sleep_list_of now ch x :
  list_of (charge_budget now (set_p_state SLEEPING (set_p_chan ch x))) = LSleep.
Proof. unfold list_of. by rewrite (proj1 (charge_budget_fields _ _)). Qed.

(** C22: The running process [i] goes to sleep on [ch]: it is charged for its time
    slice and moved to the end of the sleep list, and [lk] has been exchanged for
    [ptable.lock], which is all that is held at the context switch. *)
Theorem sleep_correct ch lk r eps abs s i x :
  rep r eps abs s → table_wf eps abs → sleep_ready lk r →
  k_proc r = Some i → eps !! i = Some x → p_state x = RUNNING →
  let r' := sleep_locks lk r in
  let x' := charge_budget (ticks r) (set_p_state SLEEPING (set_p_chan ch x)) in
  runs (sleep_enter ch lk) s (λ saved s',
    saved = intena (k_cpu r') ∧ ptable_held r' ∧
    rep r' (<[i := x']> eps) (amove i LRunning LSleep abs) s' ∧
    table_wf (<[i := x']> eps) (amove i LRunning LSleep abs)).
Proof.
  intros Hr Hwf Hready Hcur Hx Hst r' x'.
  pose proof (sleep_list_of (ticks r) ch x) as Hsl. fold x' in Hsl.
  destruct (charge_budget_fields (ticks r) (set_p_state SLEEPING (set_p_chan ch x))) as (Hs' & _).
  change (p_state x' = SLEEPING) in Hs'.
  destruct (sleep_locks_fields lk r) as [Hp Ht]. fold r' in Hp, Ht.
  pose proof (sleep_locks_held lk r Hready) as Hh. fold r' in Hh.
  assert (Hok : proc_ok x').
  { apply charge_budget_ok, proc_ok_live; [done | cbn; by rewrite Hst |].
    exact (tw_ok _ _ Hwf i x Hx). }
  assert (Hrun : LRunning = list_of x) by (unfold list_of; by rewrite Hst).
  apply runs_bind. eapply runs_curproc; [done|]. rewrite Hcur.
  rewrite bool_decide_false by done. apply runs_bind.
  eapply runs_sleep_locks; [done..|]. fold r'. intros s1 H1.
  apply runs_bind. eapply runs_pmod; [done | done | eauto with xv6 |]. intros s2 H2.
  apply runs_bind. eapply runs_pmod; [done | eauto with xv6 | eauto with xv6 |]. intros s3 H3.
  apply runs_bind, runs_get, runs_bind. rewrite (rep_ticks _ _ _ _ H3).
  eapply runs_pmod; [done | eauto with xv6 | apply charge_budget_keeps |]. intros s4 H4.
  rewrite !list_insert_insert_eq, Ht in H4. fold x' in H4. clearbody x' r'.
  eapply runs_move; [done | rewrite Hrun; by eapply tw_member | done | eauto with xv6 |].
  intros s5 H5. apply runs_bind. eapply runs_assertState; [done | eauto with xv6 | done |].
  eapply runs_sched_enter; [done | done | rewrite Hp; exact Hcur | eauto with xv6 | by rewrite Hs' |].
  split_and!; [done..|]. rewrite Hrun, <- Hsl. by apply table_wf_move.
Qed.
End Sleep.

(** *** [wait] *)
Section Wait.
Context {E : Type} `{!Services E}.
Implicit Types (s r : kst E) (eps : list proc) (abs : absmap).

(** The lists [wait] searches for live children. *)
Lemma live_lists_valid L : L ∈ ready_lists ++ [LSleep; LEmbryo; LRunning] → valid L.
Proof. intros [H|H]%elem_of_app; [by apply ready_lists_valid | by elem_cases H]. Qed.

Lemma live_on_lists eps abs i x :
  table_wf eps abs → eps !! i = Some x →
  i ∈ on_lists (ready_lists ++ [LSleep; LEmbryo; LRunning]) abs ↔
  p_state x ≠ UNUSED ∧ p_state x ≠ ZOMBIE.
Proof.
  intros Hwf Hx. rewrite elem_of_on_lists. split.
  - intros (L & HL & Hi). pose proof (tw_on_list _ _ _ _ _ Hwf Hx Hi) as Hst.
    apply elem_of_app in HL as [(j & -> & _)%list_elem_of_fmap|HL].
    + destruct Hst as [-> _]. done.
    + by elem_cases HL; rewrite Hst.
  - intros [Hu Hz]. exists (list_of x). split; [|by eapply tw_member].
    pose proof (elem_of_ready_lists x (tw_ok _ _ Hwf _ _ Hx)) as Hrd.
    rewrite elem_of_app, !elem_of_cons. unfold list_of. destruct (p_state x); tauto.
Qed.

Lemma is_child_ok r eps abs s L i j :
  rep r eps abs s → j ∈ abs L →
  is_child (Some i) j s = Ok (if child_of i eps j then Some tt else None, s).
Proof.
  intros Hr Hj. destruct (rep_member _ _ _ _ _ _ Hr Hj) as [x Hx].
  destruct (rep_lookup _ _ _ _ _ _ Hr Hx) as (n & Hn & _).
  unfold is_child. rewrite (K_bind_ok _ _ _ _ _ (pget_ok _ _ _ Hn)).
  unfold child_of. by rewrite Hx.
Qed.

Lemma wait_reap_skip r eps abs s L i j :
  rep r eps abs s → j ∈ abs L → child_of i eps j = false →
  wait_reap (Some i) j s = Ok (None, s).
Proof.
  intros Hr Hj Hc. destruct (rep_member _ _ _ _ _ _ Hr Hj) as [x Hx].
  destruct (rep_lookup _ _ _ _ _ _ Hr Hx) as (n & Hn & _).
  unfold wait_reap. rewrite (K_bind_ok _ _ _ _ _ (pget_ok _ _ _ Hn)).
  unfold child_of in Hc. rewrite Hx in Hc. apply bool_decide_eq_false in Hc.
  by rewrite bool_decide_true.
Qed.

Lemma reap_ok x : proc_ok x → p_state x = ZOMBIE → proc_ok (reap x).
Proof. unfold proc_ok. cbn. intros (Hp & _ & Hl & Hf & _) Hz. split_and!; try tauto; done. Qed.

(** Reaping: the stack and the page table are freed, the slot goes to the free
    list and the lock is released. *)
Lemma wait_reap_runs r eps abs s i j y e1 e2 (Q : option Z → kst E → Prop) :
  rep r eps abs s → table_wf eps abs → ptable_held r →
  eps !! j = Some y → p_state y = ZOMBIE → p_parent y = Some i →
  svc_kfree (p_kstack y) (k_env r) = Ok (tt, e1) →
  svc_freevm (p_pgdir y) e1 = Ok (tt, e2) →
  (∀ s', rep (after_release (set_k_env e2 r)) (<[j := reap y]> eps) (amove j LZombie LFree abs) s' →
    Q (Some (s32 (p_pid y))) s') →
  runs (wait_reap (Some i) j) s Q.
Proof.
  intros Hr Hwf Hh Hy Hz Hpar Hk Hf HQ.
  assert (Hj : j ∈ abs LZombie).
  { pose proof (tw_member _ _ _ _ Hwf Hy) as H. unfold list_of in H. by rewrite Hz in H. }
  kpget Hr. cbn [p_parent set_p_next]. rewrite bool_decide_false by tauto.
  klift Hr Hk. kpmod Hr. klift Hr Hf. kpmod Hr. kmove Hr; [done..|]. kassert Hr.
  kpmod Hr. kpmod Hr. kpmod Hr. kpmod Hr.
  apply runs_bind. eapply runs_release; [done | done |]. intros s' H' _.
  apply runs_ret. by apply HQ.
Qed.

(** C23: [wait] with a zombie child: the first one on the zombie list is reaped. *)
Theorem wait_reaps_child r eps abs s i j k y e1 e2 :
  rep r eps abs s → table_wf eps abs → ptable_held r → k_proc r = Some i →
  list_find (child_of i eps) (abs LZombie) = Some (k, j) → eps !! j = Some y →
  svc_kfree (p_kstack y) (k_env r) = Ok (tt, e1) →
  svc_freevm (p_pgdir y) e1 = Ok (tt, e2) →
  runs wait_pass s (λ res s',
    res = WaitReturn (s32 (p_pid y)) ∧
    rep (after_release (set_k_env e2 r)) (<[j := reap y]> eps) (amove j LZombie LFree abs) s' ∧
    table_wf (<[j := reap y]> eps) (amove j LZombie LFree abs) ∧
    unlocked (after_release (set_k_env e2 r))).
Proof.
  intros Hr Hwf Hh Hcur Hfind Hy Hk Hf.
  pose proof Hfind as (Hj%list_elem_of_lookup_2 & Hc & _)%list_find_Some.
  unfold child_of in Hc. rewrite Hy in Hc. apply bool_decide_unpack in Hc.
  pose proof (tw_on_list _ _ _ _ _ Hwf Hy Hj) as Hz. cbn in Hz.
  pose proof (reap_ok y (tw_ok _ _ Hwf _ _ Hy) Hz) as Hok.
  apply runs_bind. eapply runs_curproc; [done|]. rewrite Hcur. apply runs_bind.
  eapply (runs_for_first _ _ _ _ _ _ (child_of i eps)); [done | done | by eapply tw_length | |].
  - intros j' Hj' Hc'. by eapply wait_reap_skip.
  - rewrite Hfind. eapply wait_reap_runs; [done..|]. intros s' H'. split; [done|].
    apply runs_ret. split_and!; [done | done | |].
    + assert (LZombie = list_of y) as -> by (unfold list_of; by rewrite Hz).
      by apply (table_wf_move _ _ _ _ (reap y)).
    + destruct Hh as (_ & _ & Hn & _). unfold unlocked; cbn. by rewrite Hn.
Qed.

(** [wait] without a zombie child: -1 when there is no live child either or the
    caller has been killed, otherwise the caller goes to sleep. *)
Theorem wait_no_zombie r eps abs s i x :
  rep r eps abs s → table_wf eps abs → ptable_held r →
  k_proc r = Some i → eps !! i = Some x →
  (∀ j y, eps !! j = Some y → p_state y = ZOMBIE → p_parent y ≠ Some i) →
  runs wait_pass s (λ res s',
    (res = WaitSleep ∧ s' = s ∧ p_killed x = false ∧
      ∃ j y, eps !! j = Some y ∧ p_state y ≠ UNUSED ∧ p_parent y = Some i) ∨
    (res = WaitReturn (-1) ∧ rep (after_release r) eps abs s' ∧
      (p_killed x = true ∨
       ∀ j y, eps !! j = Some y → p_state y ≠ UNUSED → p_parent y ≠ Some i))).
Proof.
  intros Hr Hwf Hh Hcur Hx Hnoz.
  set (f := λ j, if child_of i eps j then Some tt else None).
  apply runs_bind. eapply runs_curproc; [done|]. rewrite Hcur. apply runs_bind.
  assert (Hskip : ∀ j, j ∈ abs LZombie → child_of i eps j = false).
  { intros j Hj. destruct (rep_member _ _ _ _ _ _ Hr Hj) as [y Hy].
    pose proof (tw_on_list _ _ _ _ _ Hwf Hy Hj) as Hz. cbn in Hz.
    unfold child_of. rewrite Hy. apply bool_decide_eq_false. eauto. }
  eapply (runs_for_search _ _ _ _ _ _ (λ _, None)); [done | done | by eapply tw_length | |].
  { intros j Hj. eapply wait_reap_skip; eauto. }
  rewrite (proj2 (first_some_None _ _)) by done. apply runs_bind.
  eapply runs_ok; [eapply (kfind_search _ _ _ _ _ _ f);
    [done | by eapply tw_length | apply live_lists_valid | intros L j _ Hj; by eapply is_child_ok]|].
  destruct (first_some f (on_lists (ready_lists ++ [LSleep; LEmbryo; LRunning]) abs)) eqn:Ef.
  - apply first_some_Some in Ef as (j & Hj & Hfj). unfold f, child_of in Hfj.
    destruct (eps !! j) as [y|] eqn:Hy; [|done]. case_bool_decide as Hpar; [|done].
    pose proof (proj1 (live_on_lists _ _ _ _ Hwf Hy) Hj) as [Hu _].
    apply runs_bind. kpget Hr. apply runs_ret. cbn [p_killed set_p_next].
    destruct (p_killed x) eqn:Hk; [|apply runs_ret; left; split_and!; eauto].
    apply runs_bind. eapply runs_release; [done..|]. intros s' H' _. apply runs_ret. right. auto.
  - apply runs_bind, runs_ret, runs_bind. eapply runs_release; [done..|]. intros s' H' _.
    apply runs_ret. right. split_and!; [done..|]. right. intros j y Hy Hu Hpar.
    destruct (decide (p_state y = ZOMBIE)) as [Hz|Hz]; [by eapply Hnoz|].
    pose proof (proj1 (first_some_None _ _) Ef j) as Hj.
    rewrite (live_on_lists _ _ _ _ Hwf Hy) in Hj. specialize (Hj (conj Hu Hz)).
    unfold f, child_of in Hj. rewrite Hy, bool_decide_true in Hj by done. done.
Qed.
End Wait.
