(* ===== verification/ProcMLFQSched.v ===== *)
(** * Priorities and the scheduler

    Correctness of [setpriority], [promoteAll] and the scheduler's pass over the
    ready lists, in the [CS333_P3P4] configuration. *)

From S2P Require Import Prelude Param Spinlock ProcData StateList ProcServices.
From S2P Require Import ProcCommon ProcMLFQ ListRep ProcMLFQInv.
Local Open Scope Z_scope.

(** ** Definitions *)

(** A process with its full budget for its priority. *)
Definition renew (x : proc) : proc := set_p_budget (s32 (BUDGET * (p_priority x + 1))) x.

Definition reprioritize (priority : Z) (x : proc) : proc := renew (set_p_priority priority x).

(** What [promoteAll] does to process [i], given the ready lists it starts from:
    of the processes on a ready list other than the first, only the head. *)
Definition promoted (abs : absmap) (i : nat) (x : proc) : proc :=
  match p_state x with
  | SLEEPING | RUNNING => promote_proc x
  | RUNNABLE =>
      if p_priority x =? 0 then renew x
      else if bool_decide (head (abs (ready_of x)) = Some i) then promote_proc x else x
  | _ => x
  end.

(** The ready lists below [k] have been processed. *)
Definition promoted_below (k : nat) (abs : absmap) (i : nat) (x : proc) : proc :=
  if bool_decide (p_state x = RUNNABLE) && (p_priority x <? Z.of_nat k)
  then promoted abs i x else x.

(** ** Lemmas *)

Section Priority.
Context {E : Type} `{!Services E}.
Implicit Types (s r : kst E) (eps : list proc) (abs : absmap).

Lemma reprioritize_ok pr x :
  0 ≤ pr ≤ Z.of_nat MAXPRIO → proc_ok x → proc_ok (reprioritize pr x).
Proof. intros Hpr (_ & H). by split. Qed.

(** The first loop of [setpriority], on one ready list. *)
Lemma set_ready_priority_ok pid pr r eps abs s k (Q : option unit → kst E → Prop) :
  rep r eps abs s → table_wf eps abs → 0 ≤ pr ≤ Z.of_nat MAXPRIO → (k ≤ MAXPRIO)%nat →
  (∀ i x s', eps !! i = Some x → p_state x = RUNNABLE → p_pid x = u32 pid → p_priority x ≠ pr →
    rep r (<[i := reprioritize pr x]> eps) (amove i (ready_of x) (LReady (Z.to_nat pr)) abs) s' →
    Q (Some tt) s') →
  ((∀ i x, i ∈ abs (LReady k) → eps !! i = Some x → p_pid x = u32 pid → p_priority x = pr) →
    Q None s) →
  runs (for_list (LReady k) (set_ready_priority pid pr)) s Q.
Proof.
  intros Hr Hwf Hpr Hk Hfound Hnone.
  set (P := λ i, match eps !! i with
                 | Some x => (p_pid x =? u32 pid) && negb (u32 pr =? p_priority x)
                 | None => false end).
  assert (Hpr32 : u32 pr = pr) by (apply u32_small; unfold MAXPRIO in *; lia).
  eapply (runs_for_first _ _ _ _ _ _ P); [done | done | by eapply tw_length | |].
  - intros i Hi HP. destruct (rep_member _ _ _ _ _ _ Hr Hi) as [x Hx].
    destruct (rep_lookup _ _ _ _ _ _ Hr Hx) as (n & Hn & _).
    unfold set_ready_priority. rewrite (K_bind_ok _ _ _ _ _ (pget_ok _ _ _ Hn)).
    unfold P in HP. rewrite Hx in HP. cbn [p_pid p_priority set_p_next]. by rewrite HP.
  - destruct (list_find P (abs (LReady k))) as [[m i]|] eqn:Ef.
    + apply list_find_Some in Ef as (Hi%list_elem_of_lookup_2 & HP%Is_true_true & _).
      destruct (rep_member _ _ _ _ _ _ Hr Hi) as [x Hx]. unfold P in HP. rewrite Hx in HP.
      pose proof (tw_on_list _ _ _ _ _ Hwf Hx Hi) as [Hst Hp].
      assert (Hl : ready_of x = list_of x) by (unfold list_of; by rewrite Hst).
      kpget Hr. cbn [p_pid p_priority set_p_next]. rewrite HP.
      apply runs_bind, runs_or_panic. eapply runs_list_remove; [exact Hr | |].
      { change (i ∈ abs (ready_of x)). rewrite Hl. by eapply tw_member. }
      change (ready_of (set_p_next n x)) with (ready_of x).
      clear Hr. intros s1 Hr. split; [done|]. kpmod Hr. kpget Hr.
      apply runs_bind, runs_or_panic. eapply runs_list_add; [exact Hr | cbn; lia | eauto with xv6 | |].
      { intros L. rewrite Hl. by eapply not_in_aremove. }
      clear Hr. intros s2 Hr. split; [done|]. kpmod Hr. apply runs_ret. split; [done|].
      apply andb_true_iff in HP as [Hpid%Z.eqb_eq Hne%negb_true_iff%Z.eqb_neq].
      eapply Hfound; [exact Hx | exact Hst | exact Hpid | congruence | exact Hr].
    + apply list_find_None in Ef. apply Hnone. intros i x Hi Hx Hpid.
      rewrite Forall_forall in Ef. specialize (Ef i Hi). unfold P in Ef. rewrite Hx in Ef.
      rewrite Hpid, Z.eqb_refl, Hpr32 in Ef. cbn in Ef.
      destruct (Z.eqb_spec pr (p_priority x)); [done | by destruct Ef].
Qed.

(** The other two loops: the process stays on its list. *)
Lemma set_other_priority_ok pid pr r eps abs s L (Q : option unit → kst E → Prop) :
  rep r eps abs s → table_wf eps abs → valid L →
  (∀ i x s', eps !! i = Some x → i ∈ abs L → p_pid x = u32 pid →
    rep r (<[i := reprioritize pr x]> eps) abs s' → Q (Some tt) s') →
  ((∀ i x, i ∈ abs L → eps !! i = Some x → p_pid x ≠ u32 pid) → Q None s) →
  runs (for_list L (set_other_priority pid pr)) s Q.
Proof.
  intros Hr Hwf HL Hfound Hnone.
  eapply (runs_for_first _ _ _ _ _ _ (pid_is pid eps)); [done | done | by eapply tw_length | |].
  - intros i Hi HP. destruct (rep_member _ _ _ _ _ _ Hr Hi) as [x Hx].
    destruct (rep_lookup _ _ _ _ _ _ Hr Hx) as (n & Hn & _).
    unfold set_other_priority. rewrite (K_bind_ok _ _ _ _ _ (pget_ok _ _ _ Hn)).
    unfold pid_is in HP. rewrite Hx in HP. cbn [p_pid set_p_next]. by rewrite HP.
  - destruct (list_find (pid_is pid eps) (abs L)) as [[m i]|] eqn:Ef.
    + apply list_find_Some in Ef as (Hi%list_elem_of_lookup_2 & HP%Is_true_true & _).
      destruct (rep_member _ _ _ _ _ _ Hr Hi) as [x Hx]. unfold pid_is in HP. rewrite Hx in HP.
      kpget Hr. cbn [p_pid set_p_next]. rewrite HP. kpmod Hr. kpmod Hr.
      apply runs_ret. split; [done|]. apply Z.eqb_eq in HP. by eapply Hfound.
    + apply list_find_None in Ef. apply Hnone. intros i x Hi Hx Hpid.
      rewrite Forall_forall in Ef. apply (Ef i Hi). unfold pid_is. rewrite Hx, Hpid, Z.eqb_refl. done.
Qed.

(** A live process is on a ready list, the sleep list or the running list. *)
Lemma live_lists eps abs i x :
  table_wf eps abs → eps !! i = Some x → live (p_state x) = true →
  (∃ k, (k ≤ MAXPRIO)%nat ∧ i ∈ abs (LReady k) ∧ p_state x = RUNNABLE) ∨
  i ∈ abs LSleep ∨ i ∈ abs LRunning.
Proof.
  intros Hwf Hx Hlv. pose proof (tw_member _ _ _ _ Hwf Hx) as Hi.
  pose proof (tw_ok _ _ Hwf _ _ Hx) as (Hp & _).
  unfold list_of in Hi. destruct (p_state x); try done; [tauto| |tauto].
  left. exists (Z.to_nat (p_priority x)). split_and!; [lia | done | done].
Qed.

(** The two searches of [setpriority], with the lock held. *)
Section Searches.
Variables (pid pr : Z) (r1 : kst E) (eps : list proc) (abs : absmap) (s1 : kst E).
Hypothesis Hr : rep r1 eps abs s1.
Hypothesis Hwf : table_wf eps abs.
Hypothesis Hpr : 0 ≤ pr ≤ Z.of_nat MAXPRIO.

Definition reprioritized (eps' : list proc) : Prop :=
  ∃ i x, eps !! i = Some x ∧ live (p_state x) = true ∧ p_pid x = u32 pid ∧
    eps' = <[i := reprioritize pr x]> eps.

Definition set_done (s' : kst E) : Prop :=
  ∃ eps' abs', rep r1 eps' abs' s' ∧ table_wf eps' abs' ∧ reprioritized eps'.

Lemma set_on_ready :
  runs (kfind ready_lists (λ L, for_list L (set_ready_priority pid pr))) s1 (λ res s',
    match res with
    | Some _ => set_done s'
    | None => s' = s1 ∧ ∀ i x k, (k ≤ MAXPRIO)%nat → i ∈ abs (LReady k) → eps !! i = Some x →
        p_pid x = u32 pid → p_priority x = pr
    end).
Proof using Hr Hwf Hpr.
  apply (runs_kfind _ _ _ (λ L, ∀ i x, i ∈ abs L → eps !! i = Some x →
    p_pid x = u32 pid → p_priority x = pr)).
  - intros L (k & -> & Hk%elem_of_seq)%list_elem_of_fmap.
    eapply set_ready_priority_ok; [done | done | done | lia | |].
    + intros i x s' Hx Hst Hp Hne Hr'. do 2 eexists. split; [done|]. split.
      * assert (ready_of x = list_of x) as -> by (unfold list_of; by rewrite Hst).
        assert (LReady (Z.to_nat pr) = list_of (reprioritize pr x)) as ->
          by (unfold list_of; cbn; by rewrite Hst).
        apply table_wf_move; [done..|]. by apply reprioritize_ok, (tw_ok _ _ Hwf i).
      * exists i, x. rewrite Hst. done.
    + intros Hno. split; [done|]. exact Hno.
  - intros Hno. split; [done|]. intros i x k Hk Hi. apply (Hno (LReady k)); [|done].
    apply list_elem_of_fmap_2, elem_of_seq. lia.
Qed.

Lemma set_on_other :
  runs (kfind [LSleep; LRunning] (λ L, for_list L (set_other_priority pid pr))) s1 (λ res s',
    match res with
    | Some _ => set_done s'
    | None => s' = s1 ∧ ∀ L i x, L ∈ [LSleep; LRunning] → i ∈ abs L → eps !! i = Some x →
        p_pid x ≠ u32 pid
    end).
Proof using Hr Hwf Hpr.
  apply (runs_kfind _ _ _ (λ L, ∀ i x, i ∈ abs L → eps !! i = Some x → p_pid x ≠ u32 pid)).
  - intros L HL. eapply set_other_priority_ok; [done | done | by elem_cases HL | |].
    + intros i x s' Hx Hi Hp Hr'. pose proof (tw_on_list _ _ _ _ _ Hwf Hx Hi) as Hst.
      do 2 eexists. split; [done|]. split.
      * eapply table_wf_same; [done..| by apply reprioritize_ok, (tw_ok _ _ Hwf i) |].
        unfold list_of. cbn. elem_cases HL; by rewrite Hst.
      * exists i, x. split_and!; [done | elem_cases HL; by rewrite Hst | done | done].
    + intros Hno'. split; [done|]. exact Hno'.
  - intros Hno'. split; [done|]. intros L i x HL. by apply Hno'.
Qed.
End Searches.

(** [setpriority], for a priority with a ready list: the live process with the pid gets
    the priority and a full budget, and moves between ready lists if it is ready; the
    call fails only if there is no such process, or it is ready with that priority
    already. *)
Theorem setpriority_correct pid pr r eps abs s :
  rep r eps abs s → table_wf eps abs → unlocked r →
  0 ≤ pid → 0 ≤ pr ≤ Z.of_nat MAXPRIO →
  runs (setpriority pid pr) s (λ res s', ∃ eps' abs',
    rep (after_release (after_acquire r)) eps' abs' s' ∧ table_wf eps' abs' ∧
    ((res = 0 ∧ reprioritized pid pr eps eps') ∨
     (res = -1 ∧ eps' = eps ∧ abs' = abs ∧
        ∀ i x, eps !! i = Some x → live (p_state x) = true → p_pid x = u32 pid →
          p_state x = RUNNABLE ∧ p_priority x = pr))).
Proof.
  intros Hr Hwf Hu Hpid Hpr. unfold setpriority.
  destruct (Z.ltb_spec pid 0), (Z.ltb_spec pr 0), (Z.gtb_spec pr (Z.of_nat MAXPRIO + 1)); try lia.
  cbn [orb]. apply runs_bind. eapply runs_acquire; [done..|]. clear Hr. intros s1 Hr Hh.
  apply runs_bind. eapply runs_mono; [by eapply set_on_ready|]. intros res s2 Hres. apply runs_bind.
  apply runs_mono with (Q := λ res s', match res with
    | Some _ => set_done pid pr (after_acquire r) eps s'
    | None => s' = s1 ∧ ∀ i x, eps !! i = Some x → live (p_state x) = true → p_pid x = u32 pid →
        p_state x = RUNNABLE ∧ p_priority x = pr
    end).
  { destruct res as [u|]; [by apply runs_ret|]. destruct Hres as [-> Hno].
    eapply runs_mono; [by eapply set_on_other|]. intros [u|] s' Hres; [done|].
    destruct Hres as [-> Hno']. split; [done|]. intros i x Hx Hlv Hp.
    destruct (live_lists _ _ _ _ Hwf Hx Hlv) as [(k & Hk & Hi & Hst)|[Hi|Hi]].
    - split; [done|]. by eapply Hno.
    - exfalso. eapply (Hno' LSleep); [left | done..].
    - exfalso. eapply (Hno' LRunning); [right; left | done..]. }
  clear res s2 Hres. intros res s2 Hres. apply runs_bind. destruct res as [u|].
  - destruct Hres as (eps' & abs' & Hr' & Hwf' & Hi). eapply runs_release; [done..|].
    intros s3 Hr3 _. apply runs_ret. exists eps', abs'. rewrite bool_decide_false by done.
    split_and!; [done..|]. by left.
  - destruct Hres as (-> & Hno). eapply runs_release; [done..|].
    intros s3 Hr3 _. apply runs_ret. exists eps, abs. rewrite bool_decide_true by done.
    split_and!; [done..|]. right. by split_and!.
Qed.
End Priority.

(** *** [promoteAll] *)
Section Promote.
Context {E : Type} `{!Services E}.
Implicit Types (s r : kst E) (eps : list proc) (abs : absmap).

Lemma renew_keeps : keeps_next renew.
Proof. keeps_next_tac. Qed.

Lemma promote_proc_keeps : keeps_next promote_proc.
Proof. intros n []. unfold promote_proc. cbn. by case_match. Qed.

Lemma promote_proc_fields x :
  p_state (promote_proc x) = p_state x ∧ p_parent (promote_proc x) = p_parent x ∧
  p_ofile (promote_proc x) = p_ofile x ∧ p_pgdir (promote_proc x) = p_pgdir x.
Proof. unfold promote_proc. by case_match. Qed.

Lemma promote_proc_prio x :
  proc_ok x → p_priority (promote_proc x) = Z.max 0 (p_priority x - 1).
Proof.
  intros (Hp & _). unfold promote_proc. rewrite Z.gtb_ltb. unfold MAXPRIO in Hp.
  destruct (Z.ltb_spec 0 (p_priority x)); cbn; rewrite ?u32_small; lia.
Qed.

Lemma promote_proc_ok x : proc_ok x → proc_ok (promote_proc x).
Proof.
  intros Hok. pose proof (promote_proc_prio x Hok) as Hpr. destruct Hok as (Hp & H).
  destruct (promote_proc_fields x) as (Hs & Hpar & Hf & Hd).
  unfold proc_ok. rewrite Hs, Hpar, Hf, Hd, Hpr. split; [lia | done].
Qed.

Lemma member_ready eps abs i x k :
  table_wf eps abs → eps !! i = Some x →
  i ∈ abs (LReady k) ↔ p_state x = RUNNABLE ∧ p_priority x = Z.of_nat k.
Proof.
  intros Hwf Hx. split; [apply (tw_on_list _ _ (LReady k) _ _ Hwf Hx)|]. intros [Hs Hp].
  apply (tw_lists _ _ Hwf i x); [done|]. unfold list_of, ready_of. by rewrite Hs, Hp, Nat2Z.id.
Qed.

(** Processing ready list [k] adds the processes of that list. *)
Lemma promoted_below_S eps abs i x k :
  table_wf eps abs → eps !! i = Some x →
  promoted_below (S k) abs i x =
    (if decide (i ∈ abs (LReady k)) then promoted abs i x else promoted_below k abs i x) ∧
  (i ∈ abs (LReady k) → promoted_below k abs i x = x).
Proof.
  intros Hwf Hx. pose proof (member_ready _ _ _ _ k Hwf Hx) as Hm.
  unfold promoted_below. case_bool_decide as Hst; cbn [andb].
  - destruct (decide (i ∈ abs (LReady k))) as [Hi|Hi].
    + apply Hm in Hi as [_ Hp]. destruct (Z.ltb_spec (p_priority x) (Z.of_nat (S k))); [|lia].
      destruct (Z.ltb_spec (p_priority x) (Z.of_nat k)); [lia|]. done.
    + split; [|tauto]. destruct (Z.ltb_spec (p_priority x) (Z.of_nat (S k))),
        (Z.ltb_spec (p_priority x) (Z.of_nat k)); try done; [|lia].
      exfalso. apply Hi, Hm. split; [done|]. lia.
  - rewrite decide_False by tauto. done.
Qed.

(** A process of list [k] that is not its head is left alone. *)
Lemma promoted_below_other eps abs i x p k :
  table_wf eps abs → eps !! i = Some x → head (abs (LReady (S k))) = Some p → p ≠ i →
  promoted_below (S (S k)) abs i x = promoted_below (S k) abs i x.
Proof.
  intros Hwf Hx Hhd Hne. destruct (promoted_below_S eps abs i x (S k) Hwf Hx) as [-> Hsame].
  case_decide as Hi; [|done]. rewrite Hsame by done.
  apply (member_ready _ _ _ _ _ Hwf Hx) in Hi as [Hst Hpr]. unfold promoted, ready_of.
  rewrite Hst, Hpr, Nat2Z.id, Hhd. rewrite bool_decide_false by congruence.
  destruct (Z.eqb_spec (Z.of_nat (S k)) 0); [lia | done].
Qed.

(** The loop over ready list 0 renews every budget. *)
Lemma promote_ready_0 r eps abs s (Q : option unit → kst E → Prop) :
  rep r eps abs s → table_wf eps abs →
  (∀ s', rep r (update_on (abs (LReady 0)) renew eps) abs s' → Q None s') →
  runs (for_list (LReady 0) (promote_ready 0)) s Q.
Proof.
  intros Hr Hwf HQ. eapply runs_for_update; [done | cbn; lia | by eapply tw_length | | exact HQ].
  intros s' eps' i x Hr' _ Hx. apply runs_bind, runs_ret. kpmod Hr'. by apply runs_ret.
Qed.

(** The loop over another ready list promotes its head, which leaves the list. *)
Lemma promote_ready_S r eps abs s k (Q : option unit → kst E → Prop) :
  rep r eps abs s → table_wf eps abs → (S k ≤ MAXPRIO)%nat →
  match head (abs (LReady (S k))) with
  | None => Q None s
  | Some p => ∀ x s', eps !! p = Some x →
      rep r (<[p := promote_proc x]> eps) (amove p (LReady (S k)) (LReady k) abs) s' → Q None s'
  end →
  runs (for_list (LReady (S k)) (promote_ready (S k))) s Q.
Proof.
  intros Hr Hwf Hk HQ.
  eapply (runs_for_first _ _ _ _ _ _ (λ _, true)); [done | done | by eapply tw_length | done |].
  destruct (abs (LReady (S k))) as [|p l] eqn:El; [done|]. cbn [list_find head] in *.
  rewrite decide_True by done.
  assert (Hp : p ∈ abs (LReady (S k))) by (rewrite El; left).
  destruct (rep_member _ _ _ _ _ _ Hr Hp) as [x Hx].
  pose proof (proj1 (member_ready _ _ _ _ _ Hwf Hx) Hp) as [Hst Hpr].
  pose proof (tw_ok _ _ Hwf _ _ Hx) as (Hb & _).
  assert (Hrx : ready_of x = LReady (S k)) by (unfold ready_of; by rewrite Hpr, Nat2Z.id).
  assert (Hdec : u32 (p_priority x - 1) = Z.of_nat k) by (rewrite u32_small; unfold MAXPRIO in *; lia).
  unfold promote_ready. rewrite bool_decide_true by lia. apply runs_bind. kpget Hr.
  change (ready_of (set_p_next n x)) with (ready_of x). rewrite Hrx.
  apply runs_bind, runs_or_panic. eapply runs_list_remove; [exact Hr | done |].
  clear Hr. intros s1 Hr. split; [done|]. kpmod Hr. kpget Hr.
  assert (Hready : ready_of (set_p_next n0 (set_p_priority (u32 (p_priority x - 1)) x)) = LReady k)
    by (unfold ready_of; cbn; by rewrite Hdec, Nat2Z.id).
  rewrite Hready. apply runs_or_panic.
  eapply runs_list_add; [exact Hr | cbn; lia | eauto with xv6 | |].
  { intros L. assert (LReady (S k) = list_of x) as -> by (unfold list_of; by rewrite Hst).
    by eapply not_in_aremove. }
  clear Hr. intros s2 Hr. split; [done|]. kpmod Hr. apply runs_ret.
  split; [intros _; by eapply rep_amove_next|]. eapply HQ; [done|].
  unfold promote_proc. destruct (Z.gtb_spec (p_priority x) 0); [exact Hr | lia].
Qed.

(** After the ready lists below [k]. *)
Definition promote_inv r eps abs (k : nat) (s : kst E) : Prop :=
  ∃ eps' abs', rep r eps' abs' s ∧ table_wf eps' abs' ∧
    (∀ j, (k ≤ j)%nat → abs' (LReady j) = abs (LReady j)) ∧
    abs' LSleep = abs LSleep ∧ abs' LRunning = abs LRunning ∧
    (∀ i, eps' !! i = promoted_below k abs i <$> eps !! i).

Lemma promote_step_0 r eps abs s :
  table_wf eps abs → promote_inv r eps abs 0 s →
  runs (for_list (LReady 0) (promote_ready 0);; mret tt) s (λ _ s', promote_inv r eps abs 1 s').
Proof.
  intros Hwf (eps' & abs' & Hr & Hwf' & Hrd & Hsl & Hrun & Hlk). apply runs_bind.
  eapply promote_ready_0; [done..|]. clear Hr. intros s' Hr. apply runs_ret.
  exists (update_on (abs' (LReady 0)) renew eps'), abs'. split_and!; try done.
  - apply table_wf_update_on; [done|]. intros i x Hi Hx. split; [exact (tw_ok _ _ Hwf' i x Hx)|]. done.
  - intros j Hj. apply Hrd. lia.
  - intros i. rewrite update_on_lookup, Hlk, Hrd by lia. destruct (eps !! i) as [x|] eqn:Hx; [|done].
    cbn. f_equal. destruct (promoted_below_S eps abs i x 0 Hwf Hx) as [-> Hsame].
    case_decide as Hi; [|done]. rewrite Hsame by done. unfold promoted.
    apply (member_ready _ _ _ _ _ Hwf Hx) in Hi as [-> ->]. done.
Qed.

Lemma promote_step_S r eps abs s k :
  table_wf eps abs → (S k ≤ MAXPRIO)%nat → promote_inv r eps abs (S k) s →
  runs (for_list (LReady (S k)) (promote_ready (S k));; mret tt) s
    (λ _ s', promote_inv r eps abs (S (S k)) s').
Proof.
  intros Hwf Hk (eps' & abs' & Hr & Hwf' & Hrd & Hsl & Hrun & Hlk). apply runs_bind.
  eapply promote_ready_S; [done..|]. rewrite Hrd by lia.
  destruct (head (abs (LReady (S k)))) as [p|] eqn:Ehd.
  - intros x s' Hx Hr'. apply runs_ret.
    assert (Hp : p ∈ abs (LReady (S k))) by (destruct (abs (LReady (S k))); [done|]; injection Ehd as ->; left).
    assert (Hpx : eps !! p = Some x).
    { rewrite Hlk in Hx. destruct (eps !! p) as [y|] eqn:Hy; [|done]. cbn in Hx.
      destruct (promoted_below_S eps abs p y (S k) Hwf Hy) as [_ Hsame]. by rewrite Hsame in Hx. }
    pose proof (proj1 (member_ready _ _ _ _ _ Hwf Hpx) Hp) as [Hst Hpr].
    pose proof (tw_ok _ _ Hwf _ _ Hpx) as Hok.
    pose proof (promote_proc_prio x Hok) as Hpp. destruct (promote_proc_fields x) as (Hs' & _).
    do 2 eexists. split; [exact Hr'|]. split_and!.
    + assert (Hl1 : LReady (S k) = list_of x) by (unfold list_of, ready_of; by rewrite Hst, Hpr, Nat2Z.id).
      assert (Hl2 : LReady k = list_of (promote_proc x)).
      { unfold list_of, ready_of. rewrite Hs', Hst, Hpp, Hpr. f_equal. lia. }
      rewrite Hl1, Hl2. apply table_wf_move; [done..|]. by apply promote_proc_ok.
    + intros j Hj. unfold amove, aadd, aremove. rewrite !aset_ne by (intros [= ->]; lia). apply Hrd. lia.
    + done.
    + done.
    + intros i. destruct (decide (p = i)) as [<-|Hne].
      * rewrite (insert_hit _ _ _ _ Hx), Hpx. cbn. f_equal.
        destruct (promoted_below_S eps abs p x (S k) Hwf Hpx) as [-> _]. rewrite decide_True by done.
        unfold promoted. rewrite Hst, Hpr. destruct (Z.eqb_spec (Z.of_nat (S k)) 0); [lia|].
        assert (Hrx : ready_of x = LReady (S k)) by (unfold ready_of; by rewrite Hpr, Nat2Z.id).
        by rewrite Hrx, Ehd, bool_decide_true.
      * rewrite list_lookup_insert_ne, Hlk by done. destruct (eps !! i) as [y|] eqn:Hy; [|done].
        cbn. f_equal. symmetry. by eapply promoted_below_other.
  - apply runs_ret. exists eps', abs'. split_and!; try done; [intros; apply Hrd; lia|].
    intros i. rewrite Hlk. destruct (eps !! i) as [x|] eqn:Hx; [|done]. cbn. f_equal.
    destruct (promoted_below_S eps abs i x (S k) Hwf Hx) as [-> _].
    rewrite decide_False; [done|]. intros Hi. by destruct (abs (LReady (S k))); [apply elem_of_nil in Hi|].
Qed.

(** The loops over the sleeping and the running processes. *)
Lemma promote_other_ok r eps abs s L (Q : option unit → kst E → Prop) :
  rep r eps abs s → table_wf eps abs → L = LSleep ∨ L = LRunning →
  (∀ s', rep r (update_on (abs L) promote_proc eps) abs s' →
    table_wf (update_on (abs L) promote_proc eps) abs → Q None s') →
  runs (for_list L promote_other) s Q.
Proof.
  intros Hr Hwf HL HQ.
  eapply runs_for_update; [done | by destruct HL as [->| ->] | by eapply tw_length | |].
  - intros s' eps' i x Hr' _ Hx. apply runs_bind.
    eapply runs_pmod; [exact Hr' | done | apply promote_proc_keeps |]. intros s1 H1. by apply runs_ret.
  - intros s' Hr'. apply HQ; [done|]. apply table_wf_update_on; [done|]. intros i x Hi Hx.
    split; [by apply promote_proc_ok, (tw_ok _ _ Hwf i)|].
    pose proof (tw_on_list _ _ _ _ _ Hwf Hx Hi) as Hst. destruct (promote_proc_fields x) as (Hs & _).
    unfold list_of. rewrite Hs. destruct HL as [->| ->]; by rewrite Hst.
Qed.

Lemma promoted_below_all eps abs i x :
  table_wf eps abs → eps !! i = Some x →
  promoted_below (MAXPRIO + 1) abs i x = if bool_decide (p_state x = RUNNABLE) then promoted abs i x else x.
Proof.
  intros Hwf Hx. destruct (tw_ok _ _ Hwf _ _ Hx) as (Hp & _). unfold promoted_below.
  case_bool_decide; [|done]. cbn [andb]. destruct (Z.ltb_spec (p_priority x) (Z.of_nat (MAXPRIO + 1))); [done|lia].
Qed.

Lemma member_state eps abs i x :
  table_wf eps abs → eps !! i = Some x →
  (i ∈ abs LSleep ↔ p_state x = SLEEPING) ∧ (i ∈ abs LRunning ↔ p_state x = RUNNING).
Proof.
  intros Hwf Hx. rewrite !(tw_lists _ _ Hwf i x _ Hx). unfold list_of, ready_of.
  destruct (p_state x); split; split; done.
Qed.

Lemma promoteAll_runs r eps abs s :
  rep r eps abs s → table_wf eps abs →
  runs promoteAll s (λ _ s', ∃ eps' abs', rep r eps' abs' s' ∧ table_wf eps' abs' ∧
    ∀ i, eps' !! i = promoted abs i <$> eps !! i).
Proof.
  intros Hr Hwf. apply runs_bind.
  apply (runs_kiter_seq _ (promote_inv r eps abs)).
  { intros k s' Hk HI. destruct k as [|k]; [by apply promote_step_0|]. apply promote_step_S; [done|lia|done]. }
  { exists eps, abs. split_and!; try done. intros i. destruct (eps !! i) as [x|] eqn:Hx; [|done].
    cbn. f_equal. unfold promoted_below. destruct (tw_ok _ _ Hwf _ _ Hx) as (Hp & _).
    destruct (Z.ltb_spec (p_priority x) (Z.of_nat 0)); [lia|]. by rewrite andb_false_r. }
  clear s Hr. intros s (eps1 & abs1 & Hr & Hwf1 & _ & Hsl & Hrun & Hlk).
  apply runs_bind. eapply promote_other_ok; [done | done | by left |]. clear Hr. intros s1 Hr Hwf2.
  apply runs_bind. eapply promote_other_ok; [done | done | by right |]. clear Hr. intros s2 Hr Hwf3.
  apply runs_ret. do 2 eexists. split; [exact Hr|]. split; [done|].
  intros i. rewrite !update_on_lookup, Hlk, Hsl, Hrun. destruct (eps !! i) as [x|] eqn:Hx; [|done].
  cbn [fmap option_fmap option_map]. f_equal. destruct (member_state _ _ _ _ Hwf Hx) as [Hs Hr']. rewrite (promoted_below_all _ _ _ _ Hwf Hx).
  unfold promoted. destruct (p_state x); repeat case_decide; try case_bool_decide; try done; intuition congruence.
Qed.

(** [promoteAll]: every sleeping and running process moves up one priority and gets
    a full budget; so does the head of every ready list below the first; the
    processes of the first ready list get a full budget. *)
Theorem promoteAll_correct r eps abs s :
  rep r eps abs s → table_wf eps abs →
  runs promoteAll s (λ _ s', ∃ eps' abs', rep r eps' abs' s' ∧ table_wf eps' abs' ∧
    ∀ i, eps' !! i = promoted abs i <$> eps !! i).
Proof. apply promoteAll_runs. Qed.
End Promote.

(** *** The scheduler *)
Section Scheduling.
Context {E : Type} `{!Services E}.
Implicit Types (s r : kst E) (eps : list proc) (abs : absmap).

(** [switchuvm] panics only without a page table; [switchkvm] loads a register. *)
Hypothesis switchuvm_ok : ∀ x e, p_pgdir x ≠ 0 → ∃ e', svc_switchuvm x e = Ok (tt, e').
Hypothesis switchkvm_ok : ∀ e, ∃ e', svc_switchkvm e = Ok (tt, e').

(** The running process gets the CPU with [ptable.lock] held and comes back with the
    lock held, having put itself at the end of the list of its new state (as
    [yield], [sleep] and [exit] do). *)
Variable swtch : nat → K (kst E) unit.
Hypothesis swtch_ok : ∀ p r eps abs s,
  rep r eps abs s → table_wf eps abs → ptable_held r → k_proc r = Some p → p ∈ abs LRunning →
  runs (swtch p) s (λ _ s', ∃ r' eps' abs' L,
    rep r' eps' abs' s' ∧ table_wf eps' abs' ∧ ptable_held r' ∧ last (abs' L) = Some p).









End Scheduling.
