(* ===== verification/ProcMLFQLife.v ===== *)
(** * The life of a process

    Correctness of [userinit], [allocproc], [fork] and [exit] in the [CS333_P3P4]
    configuration.  The calls into the rest of the kernel are those of [Services];
    each theorem states what it assumes of the calls it makes. *)

From S2P Require Import Prelude Param Spinlock ProcData StateList ProcServices.
From S2P Require Import ProcCommon ProcMLFQ ListRep ProcMLFQInv.
Local Open Scope Z_scope.

(** ** Definitions *)

Section Defs.
Context {E : Type} `{!Services E}.

(** The state after [allocproc] has taken a process and called [kalloc]. *)
Definition after_alloc (e : E) (r : kst E) : kst E :=
  set_k_env e (after_release (set_nextpid (s32 (nextpid r + 1)) (after_acquire r))).

(** The process [allocproc] returns, and the one it puts back when there is no
    memory for a stack. *)
Definition embryo (r : kst E) (kstack : Z) (x : proc) : proc :=
  set_p_kstack kstack (init_fields (u32 (nextpid r)) (ticks r) (set_p_state EMBRYO x)).

Definition new_proc (r : kst E) (kstack : Z) (x : proc) : proc := setup_kstack (embryo r kstack x).

(** [filedup] of every open file. *)
Fixpoint dup_env (l : list (option nat)) (e : E) : outcome E :=
  match l with
  | [] => Ok e
  | None :: l' => dup_env l' e
  | Some f :: l' => '(_, e') ← svc_filedup f e; dup_env l' e'
  end.

(** The child of [fork]: parent [x] in slot [cur], new process [y]. *)
Definition fork_child (cur : nat) (x : proc) (pgdir : Z) (cwd : nat) (y : proc) : proc :=
  set_p_gid (p_gid x) (set_p_uid (p_uid x) (set_p_state RUNNABLE
    (set_p_name (copy_name 16 (p_name x)) (set_p_cwd (Some cwd)
    (set_p_ofile (p_ofile x) (set_p_trapframe (set_tf_eax 0 (p_trapframe x))
    (set_p_parent (Some cur) (set_p_sz (p_sz x) (set_p_pgdir pgdir y))))))))).
(** The calls of [exit] that may block.  Process [i] runs when such a call starts and
    when it returns, outside every lock; its files, its working directory and
    the identity of [init] are its own to change. *)
Definition runs_as (i : nat) (x : proc) (r : kst E) (eps : list proc) (abs : absmap) (s : kst E) : Prop :=
  rep r eps abs s ∧ table_wf eps abs ∧ unlocked r ∧ k_proc r = Some i ∧ eps !! i = Some x ∧
  p_state x = RUNNING.

Definition may_block (m : K (kst E) unit) : Prop :=
  ∀ i x r eps abs s, runs_as i x r eps abs s →
  runs m s (λ _ s', ∃ x' r' eps' abs', runs_as i x' r' eps' abs' s' ∧
    initproc r' = initproc r ∧ p_ofile x' = p_ofile x ∧ p_cwd x' = p_cwd x).

(** The first process, ready to run [initcode]. *)
Definition first_proc (r : kst E) (kstack pgdir : Z) (cwd : option nat) : proc :=
  set_p_gid 0 (set_p_uid 0 (set_p_state RUNNABLE (set_p_cwd cwd
    (set_p_name (copy_name 16 (bytes_of_string "initcode"))
    (set_p_trapframe init_trapframe (set_p_sz PGSIZE (set_p_pgdir pgdir
      (new_proc r kstack zero_proc)))))))).

(** What [exit] does to a live child. *)
Definition give_to (init : ptr) (i : nat) (x : proc) : proc :=
  if bool_decide (p_parent x = Some i) then set_p_parent init x else x.
End Defs.

Class BlockingOk (E : Type) `{!Services E} : Prop := {
  fileclose_may_block f : may_block (svc_fileclose f);
  iput_may_block ip : may_block (svc_iput ip);
  begin_op_may_block : may_block svc_begin_op;
  end_op_may_block : may_block svc_end_op
}.

(** ** Lemmas *)

Section Alloc.
Context {E : Type} `{!Services E}.
Implicit Types (s r : kst E) (eps : list proc) (abs : absmap).

Lemma free_head eps abs p r s :
  rep r eps abs s → table_wf eps abs → head (abs LFree) = Some p →
  ∃ x, eps !! p = Some x ∧ p_state x = UNUSED ∧ p ∈ abs LFree.
Proof.
  intros Hr Hwf Hh. assert (Hp : p ∈ abs LFree).
  { destruct (abs LFree); [done|]. injection Hh as ->. left. }
  destruct (rep_member _ _ _ _ _ _ Hr Hp) as [x Hx]. exists x.
  by pose proof (tw_on_list _ _ _ _ _ Hwf Hx Hp).
Qed.

Lemma unused_ok r a x : proc_ok x → p_state x = UNUSED →
  proc_ok (set_p_state UNUSED (embryo r a x)) ∧ proc_ok (new_proc r a x).
Proof.
  intros (Hp & Hpar & Hl & Hf & _) Hst. unfold proc_ok. cbn.
  split; split_and!; try done; tauto.
Qed.

Lemma setup_kstack_keeps : keeps_next setup_kstack.
Proof. intros n []. reflexivity. Qed.

(** Up to the call of [kalloc]. *)
Lemma allocproc_none r eps abs s (Q : ptr → kst E → Prop) :
  rep r eps abs s → unlocked r → head (abs LFree) = None →
  (∀ s', rep (after_release (after_acquire r)) eps abs s' → Q None s') →
  runs allocproc s Q.
Proof.
  intros Hr Hu Hh HQ. apply runs_bind. eapply runs_acquire; [done..|]. clear Hr. intros s1 Hr Hheld.
  apply runs_bind. eapply runs_list_head; [done..|]. rewrite Hh, bool_decide_true by done.
  apply runs_bind. eapply runs_release; [done..|]. intros s2 H2 _. by apply runs_ret, HQ.
Qed.

Lemma allocproc_some r eps abs s p x a e (Q : ptr → kst E → Prop) :
  rep r eps abs s → table_wf eps abs → unlocked r →
  head (abs LFree) = Some p → eps !! p = Some x → svc_kalloc (k_env r) = Ok (a, e) →
  (a = 0 → ∀ s', rep (after_alloc e r) (<[p := set_p_state UNUSED (embryo r 0 x)]> eps)
    (amove p LEmbryo LFree (amove p LFree LEmbryo abs)) s' → Q None s') →
  (a ≠ 0 → ∀ s', rep (after_alloc e r) (<[p := new_proc r a x]> eps) (amove p LFree LEmbryo abs) s' →
    Q (Some p) s') →
  runs allocproc s Q.
Proof.
  intros Hr Hwf Hu Hh Hx Hka H0 H1. destruct (free_head _ _ _ _ _ Hr Hwf Hh) as (x' & Hx' & Hst & Hp).
  assert (x' = x) as -> by congruence. clear Hx'.
  apply runs_bind. eapply runs_acquire; [done..|]. clear Hr. intros s1 Hr Hheld.
  apply runs_bind. eapply runs_list_head; [done..|]. rewrite Hh, bool_decide_false by done.
  kpmod Hr. kmove Hr; [done..|]. kassert Hr. apply runs_bind, runs_get.
  rewrite (rep_ticks _ _ _ _ Hr), (rep_field nextpid _ _ _ _ Hr eq_refl). kpmod Hr. kkmod Hr.
  apply runs_bind. eapply runs_release; [exact Hr | exact Hheld |]. clear Hr. intros s5 Hr _.
  klift Hr Hka. kpmod Hr. destruct (Z.eqb_spec a 0) as [->|Ha].
  - kpmod Hr. kmove Hr; [| done |].
    { unfold amove at 1, aadd. rewrite aset_eq. set_solver. }
    kassert Hr. apply runs_ret. by apply H0.
  - apply runs_bind. eapply runs_pmod; [exact Hr | eauto with xv6 | apply setup_kstack_keeps |].
    rewrite list_insert_insert_eq. intros s' H'. apply runs_ret. by apply H1.
Qed.

(** The new table is well-formed in every case. *)
Lemma alloc_wf r eps abs s p x a :
  rep r eps abs s → table_wf eps abs → head (abs LFree) = Some p → eps !! p = Some x →
  table_wf (<[p := new_proc r a x]> eps) (amove p LFree LEmbryo abs) ∧
  table_wf (<[p := set_p_state UNUSED (embryo r 0 x)]> eps)
    (amove p LEmbryo LFree (amove p LFree LEmbryo abs)).
Proof.
  intros Hr Hwf Hh Hx. destruct (free_head _ _ _ _ _ Hr Hwf Hh) as (x' & Hx' & Hst & Hp).
  assert (x' = x) as -> by congruence. clear Hx'.
  assert (Hl : LFree = list_of x) by (unfold list_of; by rewrite Hst).
  pose proof (tw_ok _ _ Hwf _ _ Hx) as Hok.
  assert (H1 : table_wf (<[p := new_proc r a x]> eps) (amove p LFree LEmbryo abs)).
  { rewrite Hl. apply (table_wf_move _ _ _ _ (new_proc r a x)); [done..|]. by apply unused_ok. }
  split; [done|].
  pose proof (table_wf_move _ _ p _ (set_p_state UNUSED (embryo r 0 x)) H1 (insert_hit _ _ _ _ Hx)
    (proj1 (unused_ok r 0 x Hok Hst))) as H2.
  rewrite list_insert_insert_eq in H2. exact H2.
Qed.

(** [allocproc] gives the head of the free list a new pid and a kernel stack and
    makes it an embryo; without a free process it returns null, and without memory
    it puts the process back on the free list. *)
Theorem allocproc_correct r eps abs s a e :
  rep r eps abs s → table_wf eps abs → unlocked r → svc_kalloc (k_env r) = Ok (a, e) →
  runs allocproc s (λ res s', ∃ r' eps' abs', rep r' eps' abs' s' ∧ table_wf eps' abs' ∧ unlocked r' ∧
    match head (abs LFree) with
    | None => res = None ∧ eps' = eps ∧ abs' = abs
    | Some p => ∃ x, eps !! p = Some x ∧ p_state x = UNUSED ∧ r' = after_alloc e r ∧
        if a =? 0 then res = None ∧ eps' = <[p := set_p_state UNUSED (embryo r 0 x)]> eps
        else res = Some p ∧ eps' = <[p := new_proc r a x]> eps ∧ abs' = amove p LFree LEmbryo abs
    end).
Proof.
  intros Hr Hwf Hu Hka. destruct (head (abs LFree)) as [p|] eqn:Hh.
  - destruct (free_head _ _ _ _ _ Hr Hwf Hh) as (x & Hx & Hst & _).
    destruct (alloc_wf _ _ _ _ _ _ a Hr Hwf Hh Hx) as [Hw1 Hw0].
    assert (Hu' : unlocked (after_alloc e r)).
    { destruct Hu as [_ Hn]. unfold unlocked; cbn. by rewrite Hn. }
    eapply allocproc_some; [done..| |].
    + intros -> s' Hr'. do 3 eexists. split_and!; [exact Hr' | done | done |]. by exists x.
    + intros Ha s' Hr'. do 3 eexists. split_and!; [exact Hr' | done | done |].
      exists x. destruct (Z.eqb_spec a 0); [done|]. by split_and!.
  - eapply allocproc_none; [done..|]. intros s' Hr'. do 3 eexists. split_and!; [exact Hr' | done | | done..].
    destruct Hu as [_ Hn]. unfold unlocked; cbn. by rewrite Hn.
Qed.
End Alloc.

(** *** [fork] *)
Section Fork.
Context {E : Type} `{!Services E}.
Implicit Types (s r : kst E) (eps : list proc) (abs : absmap).

(** The files of the child after [k] rounds of the descriptor loop. *)
Definition dup_prefix (k : nat) (l : list (option nat)) : list (option nat) :=
  take k l ++ replicate (length l - k) None.

Lemma dup_prefix_S k l o :
  l !! k = Some o → <[k := o]> (dup_prefix k l) = dup_prefix (S k) l.
Proof.
  intros Ho. pose proof (lookup_lt_Some _ _ _ Ho) as Hk. unfold dup_prefix.
  rewrite insert_app_r_alt by (rewrite length_take; lia).
  rewrite length_take, Nat.min_l, Nat.sub_diag by lia.
  replace (length l - k)%nat with (S (length l - S k)) by lia. cbn.
  rewrite (take_S_r _ _ _ Ho), <- app_assoc. done.
Qed.

Lemma dup_prefix_None k l :
  l !! k = Some None → dup_prefix (S k) l = dup_prefix k l.
Proof.
  intros Ho. rewrite <- (dup_prefix_S _ _ _ Ho). apply list_insert_id.
  pose proof (lookup_lt_Some _ _ _ Ho) as Hk. unfold dup_prefix.
  rewrite lookup_app_r by (rewrite length_take; lia).
  rewrite length_take, Nat.min_l, Nat.sub_diag by lia. apply lookup_replicate_2. lia.
Qed.

Lemma dup_prefix_all l : dup_prefix (length l) l = l.
Proof. unfold dup_prefix. by rewrite take_ge, Nat.sub_diag, app_nil_r by lia. Qed.

(** The descriptor loop copies the open files. *)
Lemma dup_files_ok r eps abs s cur np x y e' (Q : unit → kst E → Prop) :
  rep r eps abs s → eps !! cur = Some x → eps !! np = Some y → cur ≠ np →
  length (p_ofile x) = NOFILE → p_ofile y = replicate NOFILE None →
  dup_env (p_ofile x) (k_env r) = Ok e' →
  (∀ s', rep (set_k_env e' r) (<[np := set_p_ofile (p_ofile x) y]> eps) abs s' → Q tt s') →
  runs (dup_files (Some cur) (Some np)) s Q.
Proof.
  intros Hr Hx Hy Hne Hlen Hof Hdup HQ.
  set (I := λ k s', ∃ e, dup_env (drop k (p_ofile x)) e = Ok e' ∧
    rep (set_k_env e r) (<[np := set_p_ofile (dup_prefix k (p_ofile x)) y]> eps) abs s').
  apply (runs_kiter_seq _ I).
  - intros k s' Hk (e & He & Hr').
    destruct (lookup_lt_is_Some_2 (p_ofile x) k) as [o Ho]; [lia|].
    rewrite (drop_S _ _ _ Ho) in He.
    apply runs_bind. eapply runs_pget; [exact Hr' | by rewrite list_lookup_insert_ne |]. intros n.
    cbn [p_ofile set_p_next]. rewrite Ho. destruct o as [f|].
    + cbn in He. destruct (svc_filedup f e) as [[[] e2]| | |] eqn:Hf; try done. cbn in He.
      klift Hr' Hf. eapply runs_pmod; [exact Hr' | eauto with xv6 | eauto with xv6 |].
      rewrite list_insert_insert_eq. intros s2 H2. exists e2. split; [done|].
      cbn [p_ofile set_p_ofile] in H2. rewrite (dup_prefix_S _ _ _ Ho) in H2. exact H2.
    + apply runs_ret. exists e. split; [done|]. by rewrite (dup_prefix_None _ _ Ho).
  - exists (k_env r). split; [done|]. unfold dup_prefix. rewrite Nat.sub_0_r, Hlen. cbn [take app].
    rewrite <- Hof. rewrite list_insert_id; [|by destruct y]. by destruct r.
  - intros s' (e & He & Hr'). rewrite <- Hlen, drop_all in He. injection He as <-.
    rewrite <- Hlen, dup_prefix_all in Hr'. by apply HQ.
Qed.

(** Not enough memory for the child's address space: the child is put back and
    [fork] returns -1. *)
Theorem fork_no_memory r eps abs s cur x p y a e1 e2 e3 :
  rep r eps abs s → table_wf eps abs → unlocked r →
  k_proc r = Some cur → eps !! cur = Some x → p_state x = RUNNING →
  head (abs LFree) = Some p → eps !! p = Some y →
  svc_kalloc (k_env r) = Ok (a, e1) → a ≠ 0 →
  svc_copyuvm (p_pgdir x) (p_sz x) e1 = Ok (0, e2) → svc_kfree a e2 = Ok (tt, e3) →
  runs fork s (λ res s', res = -1 ∧ ∃ r' y' abs',
    rep r' (<[p := y']> eps) abs' s' ∧ table_wf (<[p := y']> eps) abs' ∧ unlocked r' ∧ k_env r' = e3 ∧
    p_state y' = UNUSED ∧ last (abs' LFree) = Some p).
Proof.
  intros Hr Hwf Hu Hcur Hx Hst Hh Hy Hka Ha Hcopy Hfree.
  destruct (free_head _ _ _ _ _ Hr Hwf Hh) as (y' & Hy' & Hun & Hp).
  assert (y' = y) as -> by congruence. clear Hy'.
  destruct (alloc_wf _ _ _ _ _ _ a Hr Hwf Hh Hy) as [Hwf1 _].
  assert (Hne : cur ≠ p) by (intros ->; congruence).
  apply runs_bind. eapply allocproc_some; [done..| done |]. clear Hr. intros _ s1 Hr.
  rewrite bool_decide_false by done. apply runs_bind. eapply runs_curproc; [done|].
  change (k_proc (after_alloc e1 r)) with (k_proc r). rewrite Hcur.
  apply runs_bind. eapply runs_pget; [exact Hr | by rewrite list_lookup_insert_ne |]. intros n.
  klift Hr Hcopy. kpmod Hr. cbn [Z.eqb]. kpget Hr.
  klift Hr Hfree. kpmod Hr. kpmod Hr.
  assert (Hu1 : unlocked (set_k_env e3 (set_k_env e2 (after_alloc e1 r)))).
  { destruct Hu as [_ Hn]. unfold unlocked; cbn. by rewrite Hn. }
  apply runs_bind. eapply runs_acquire; [exact Hr | exact Hu1 |]. clear Hr. intros sa Hr Hheld.
  kmove Hr; [unfold amove, aadd; rewrite aset_eq; set_solver | done |]. kassert Hr.
  apply runs_bind. eapply runs_release; [exact Hr | done |]. clear Hr. intros sb Hr Hu2.
  apply runs_ret. split; [done|]. do 3 eexists. split; [exact Hr|]. split_and!; try done.
  - set (y2 := set_p_state UNUSED _).
    pose proof (table_wf_move _ _ p _ y2 Hwf1 (insert_hit _ _ _ _ Hy)) as H2.
    rewrite list_insert_insert_eq in H2. apply H2.
    destruct (tw_ok _ _ Hwf _ _ Hy) as (_ & Hpar & Hlen & Hof & _).
    unfold proc_ok; cbn. split_and!; try done. tauto.
  - unfold amove at 1, aadd. rewrite aset_eq. apply last_snoc.
Qed.

Lemma fork_child_ok cur x pgdir cwd y :
  proc_ok x → (cur < NPROC)%nat → p_priority y = 0 → pgdir ≠ 0 →
  proc_ok (fork_child cur x pgdir cwd y).
Proof.
  intros (_ & _ & Hl & _) Hc Hp Hd. unfold proc_ok. cbn. rewrite Hp.
  split_and!; try done; [by intros j [= <-] | by intros [?|?]].
Qed.

(** C4: [fork]: the child is a copy of the parent except that its [fork] returns 0; it
    is at the end of the ready list of the highest priority, and the parent gets
    its pid. *)
Theorem fork_correct r eps abs s cur x p y a d cwd e1 e2 e3 e4 :
  rep r eps abs s → table_wf eps abs → unlocked r →
  k_proc r = Some cur → eps !! cur = Some x → p_state x = RUNNING → p_cwd x = Some cwd →
  head (abs LFree) = Some p → eps !! p = Some y →
  svc_kalloc (k_env r) = Ok (a, e1) → a ≠ 0 →
  svc_copyuvm (p_pgdir x) (p_sz x) e1 = Ok (d, e2) → d ≠ 0 →
  dup_env (p_ofile x) e2 = Ok e3 → svc_idup cwd e3 = Ok (tt, e4) →
  let child := fork_child cur x d cwd (new_proc r a y) in
  let abs' := amove p LEmbryo (LReady 0) (amove p LFree LEmbryo abs) in
  runs fork s (λ res s', res = s32 (u32 (nextpid r)) ∧ ∃ r',
    rep r' (<[p := child]> eps) abs' s' ∧ table_wf (<[p := child]> eps) abs' ∧
    unlocked r' ∧ k_env r' = e4 ∧ k_proc r' = Some cur ∧ nextpid r' = s32 (nextpid r + 1)).
Proof.
  intros Hr Hwf Hu Hcur Hx Hst Hcwd Hh Hy Hka Ha Hcopy Hd Hdup Hidup child abs'.
  destruct (free_head _ _ _ _ _ Hr Hwf Hh) as (y' & Hy' & Hun & Hp).
  assert (y' = y) as -> by congruence. clear Hy'.
  destruct (alloc_wf _ _ _ _ _ _ a Hr Hwf Hh Hy) as [Hwf1 _].
  pose proof (tw_ok _ _ Hwf _ _ Hx) as Hokx. pose proof (tw_ok _ _ Hwf _ _ Hy) as Hoky.
  assert (Hne : cur ≠ p) by (intros ->; congruence).
  assert (Hin : p ∈ amove p LFree LEmbryo abs LEmbryo)
    by (unfold amove, aadd; rewrite aset_eq; set_solver).
  apply runs_bind. eapply allocproc_some; [done..| done |]. clear Hr. intros _ s1 Hr.
  rewrite bool_decide_false by done. apply runs_bind. eapply runs_curproc; [done|].
  change (k_proc (after_alloc e1 r)) with (k_proc r). rewrite Hcur.
  apply runs_bind. eapply runs_pget; [exact Hr | by rewrite list_lookup_insert_ne |]. intros n.
  klift Hr Hcopy. kpmod Hr. destruct (Z.eqb_spec d 0) as [|_]; [done|]. kpmod Hr. kpmod Hr. kpmod Hr.
  apply runs_bind. eapply dup_files_ok;
    [exact Hr | rewrite list_lookup_insert_ne by done; exact Hx | eauto with xv6 | done
    | apply Hokx | apply Hoky; by left | exact Hdup |].
  rewrite list_insert_insert_eq. clear Hr. intros s2' Hr.
  apply runs_bind. eapply runs_pget; [exact Hr | rewrite list_lookup_insert_ne by done; exact Hx |].
  intros n1. change (p_cwd (set_p_next n1 x)) with (p_cwd x). rewrite Hcwd.
  klift Hr Hidup. kpmod Hr. kpmod Hr. kpget Hr.
  assert (Hu1 : unlocked (set_k_env e4 (set_k_env e3 (set_k_env e2 (after_alloc e1 r))))).
  { destruct Hu as [_ Hn]. unfold unlocked; cbn. by rewrite Hn. }
  apply runs_bind. eapply runs_acquire; [exact Hr | exact Hu1 |]. clear Hr. intros sa Hr Hheld.
  kpmod Hr. apply runs_bind, runs_or_panic. eapply runs_list_remove; [exact Hr | exact Hin |].
  clear Hr. intros sc Hr. split; [done|]. kpget Hr.
  apply runs_bind, runs_or_panic. eapply runs_list_add; [exact Hr | cbn; lia | eauto with xv6 | |].
  { intros L. eapply (not_in_aremove _ _ p (new_proc r a y)); [exact Hwf1 | eauto with xv6]. }
  clear Hr. intros sd Hr. split; [done|]. kassert Hr.
  apply runs_bind. eapply runs_release; [exact Hr | done |]. clear Hr. intros sb Hr Hu2.
  apply runs_bind. eapply runs_pget; [exact Hr | rewrite list_lookup_insert_ne by done; exact Hx |].
  intros n4. kpmod Hr. kpmod Hr. apply runs_ret. split; [done|]. eexists. split; [exact Hr|].
  split_and!; try done.
  pose proof (table_wf_move _ _ p _ child Hwf1 (insert_hit _ _ _ _ Hy)) as H2.
  rewrite list_insert_insert_eq in H2. apply H2, fork_child_ok; try done.
  rewrite <- (tw_length _ _ Hwf). by eapply lookup_lt_Some.
Qed.
End Fork.

(** *** [exit] *)
Section Exit.
Context {E : Type} `{!Services E, !BlockingOk E}.
Implicit Types (s r : kst E) (eps : list proc) (abs : absmap).

(** Running process [i] with [init] process [ip]. *)
Definition exiting (i ip : nat) (ofile : list (option nat)) (cwd : option nat) (s : kst E) : Prop :=
  ∃ x r eps abs, runs_as i x r eps abs s ∧ initproc r = Some ip ∧ p_ofile x = ofile ∧ p_cwd x = cwd.

Lemma exiting_block i ip ofile cwd s m :
  may_block m → exiting i ip ofile cwd s → runs m s (λ _ s', exiting i ip ofile cwd s').
Proof.
  intros Hm (x & r & eps & abs & Hs & Hip & Hof & Hcwd). eapply runs_mono; [by eapply Hm|].
  intros [] s' (x' & r' & eps' & abs' & Hs' & Hip' & Hof' & Hcwd').
  exists x', r', eps', abs'. split_and!; [done | congruence..].
Qed.

(** Writing the running process's own files and directory. *)
Lemma exiting_pmod i ip ofile cwd s f ofile' cwd' (Q : unit → kst E → Prop) :
  exiting i ip ofile cwd s → keeps_next f →
  (∀ x, p_ofile x = ofile → p_cwd x = cwd →
    p_state (f x) = p_state x ∧ p_priority (f x) = p_priority x ∧ p_parent (f x) = p_parent x ∧
    p_pgdir (f x) = p_pgdir x ∧ p_ofile (f x) = ofile' ∧ p_cwd (f x) = cwd') →
  length ofile' = NOFILE →
  (∀ s', exiting i ip ofile' cwd' s' → Q tt s') →
  runs (pmod (Some i) f) s Q.
Proof.
  intros (x & r & eps & abs & (Hr & Hwf & Hu & Hk & Hx & Hst) & Hip & Hof & Hcwd) Hkeep Hf Hlen HQ.
  eapply runs_pmod; [done..|]. intros s' Hr'. apply HQ.
  destruct (Hf x Hof Hcwd) as (F1 & F2 & F3 & F4 & F5 & F6).
  destruct (tw_ok _ _ Hwf _ _ Hx) as (Hp & Hpar & _ & _ & Hd).
  exists (f x), r, (<[i := f x]> eps), abs. split_and!; try done. split_and!; try done.
  - eapply table_wf_same; [done | done | | unfold list_of, ready_of; by rewrite F1, F2].
    unfold proc_ok. rewrite F1, F2, F3, F4, F5, Hst. split_and!; try done; try lia; [by intros [?|?]|].
    intros _. apply Hd. by rewrite Hst.
  - eauto with xv6.
  - by rewrite F1.
Qed.

Lemma curproc_exiting i ip ofile cwd s (Q : ptr → kst E → Prop) :
  exiting i ip ofile cwd s → Q (Some i) s → runs curproc s Q.
Proof.
  intros (x & r & eps & abs & (Hr & _ & _ & Hk & _) & _) HQ.
  eapply runs_curproc; [done|]. by rewrite Hk.
Qed.

Lemma pget_exiting i ip ofile cwd s (Q : proc → kst E → Prop) :
  exiting i ip ofile cwd s → (∀ x, p_ofile x = ofile → p_cwd x = cwd → Q x s) →
  runs (pget (Some i)) s Q.
Proof.
  intros (x & r & eps & abs & (Hr & _ & _ & _ & Hx & _) & _ & Hof & Hcwd) HQ.
  eapply runs_pget; [done..|]. intros n. by apply HQ.
Qed.

(** The descriptor loop: the first [k] descriptors are closed. *)
Lemma close_files_ok i ip ofile cwd s (Q : unit → kst E → Prop) :
  exiting i ip ofile cwd s → length ofile = NOFILE →
  (∀ s', exiting i ip (replicate NOFILE None) cwd s' → Q tt s') →
  runs close_files s Q.
Proof.
  intros Hs Hlen HQ.
  set (cl := λ k, replicate k None ++ drop k ofile).
  assert (Hcl : ∀ k o, ofile !! k = Some o → cl k !! k = Some o ∧ <[k := None]> (cl k) = cl (S k)).
  { intros k o Ho. pose proof (lookup_lt_Some _ _ _ Ho). unfold cl. rewrite (drop_S _ _ _ Ho).
    rewrite lookup_app_r, insert_app_r_alt, length_replicate, Nat.sub_diag by (rewrite length_replicate; lia).
    split; [done|]. cbn [insert list_insert]. by rewrite replicate_S_end, <- app_assoc. }
  assert (Hlen' : ∀ k, (k ≤ NOFILE)%nat → length (cl k) = NOFILE).
  { intros k Hk. unfold cl. rewrite length_app, length_replicate, length_drop. lia. }
  apply (runs_kiter_seq _ (λ k s', exiting i ip (cl k) cwd s')).
  - intros k s' Hk Hs'. destruct (lookup_lt_is_Some_2 ofile k) as [o Ho]; [lia|].
    destruct (Hcl k o Ho) as [Hlk Hins].
    apply runs_bind. eapply curproc_exiting; [done|]. apply runs_bind.
    eapply pget_exiting; [done|]. intros x Hof Hcwd. rewrite Hof, Hlk. destruct o as [f|].
    + apply runs_bind. eapply runs_mono; [eapply exiting_block; [apply fileclose_may_block | done]|].
      intros [] s2 H2. eapply (exiting_pmod _ _ _ _ _ _ (cl (S k)) cwd);
        [done | eauto with xv6 | | apply Hlen'; lia | done].
      intros z Hz1 Hz2. cbn [p_ofile set_p_ofile]. rewrite Hz1, Hins. by split_and!.
    + apply runs_ret. rewrite <- Hins. by rewrite list_insert_id.
  - exact Hs.
  - intros s' Hs'. apply HQ. unfold cl in Hs'. rewrite drop_ge, app_nil_r in Hs' by lia. done.
Qed.

Lemma update_on_app l1 l2 f eps :
  (∀ x, f (f x) = f x) → update_on l2 f (update_on l1 f eps) = update_on (l1 ++ l2) f eps.
Proof.
  intros Hid. apply list_eq. intros i. rewrite !update_on_lookup. destruct (eps !! i) as [x|]; [|done].
  cbn. f_equal. destruct (decide (i ∈ l1)) as [H1|H1], (decide (i ∈ l2)) as [H2|H2];
    [rewrite decide_True by set_solver | rewrite decide_True by set_solver
    | rewrite decide_True by set_solver | rewrite decide_False by set_solver]; done.
Qed.

Section Reparent.
Variables (i : nat) (init : ptr).
Hypothesis Hinit : ∀ j, init = Some j → (j < NPROC)%nat.
Hypothesis Hne : init ≠ Some i.

Lemma give_to_idem x : give_to init i (give_to init i x) = give_to init i x.
Proof using Hne.
  unfold give_to at 2 3. case_bool_decide; unfold give_to; by rewrite bool_decide_false.
Qed.

Lemma give_to_keeps : keeps_next (give_to init i).
Proof. intros n []. unfold give_to. cbn. by case_bool_decide. Qed.

Lemma give_to_list_of x : list_of (give_to init i x) = list_of x.
Proof. unfold give_to. by case_bool_decide. Qed.

Lemma give_to_ok x : proc_ok x → proc_ok (give_to init i x).
Proof using Hinit.
  unfold give_to. case_bool_decide; [|done]. intros (Hp & _ & Hrest). split; [exact Hp | split; [exact Hinit | exact Hrest]].
Qed.

Lemma give_to_wf eps abs l : table_wf eps abs → table_wf (update_on l (give_to init i) eps) abs.
Proof using Hinit.
  intros Hwf. apply table_wf_update_on; [done|]. intros j x _ Hx.
  split; [by apply give_to_ok, (tw_ok _ _ Hwf j) | apply give_to_list_of].
Qed.

Lemma reparent_ok r Ls : ∀ eps abs s (Q : unit → kst E → Prop),
  rep r eps abs s → table_wf eps abs → (∀ L, L ∈ Ls → valid L) →
  (∀ s', rep r (update_on (on_lists Ls abs) (give_to init i) eps) abs s' → Q tt s') →
  runs (kiter Ls (reparent_list (Some i) init)) s Q.
Proof.
  induction Ls as [|L Ls IH]; intros eps abs s Q Hr Hwf HL HQ.
  - apply runs_ret, HQ. cbn. by rewrite update_on_nil.
  - apply runs_bind, runs_bind.
    eapply (runs_for_update _ _ _ _ _ _ (give_to init i)); [done | apply HL; left | by eapply tw_length | |].
    + intros s' eps' j x Hr' _ Hx. apply runs_bind. eapply runs_pget; [done..|]. intros n.
      apply runs_bind. cbn [p_parent set_p_next]. unfold give_to.
      case_bool_decide; [eapply runs_pmod; [done | done | eauto with xv6 |]; intros s2 H2; by apply runs_ret|].
      apply runs_ret, runs_ret. split; [done|]. by rewrite list_insert_id.
    + intros s' Hr'. apply runs_ret. eapply IH; [exact Hr' | by apply give_to_wf | |].
      * intros L' HL'. apply HL. by right.
      * rewrite update_on_app by apply give_to_idem. exact HQ.
Qed.
End Reparent.

Lemma wake_one_other ch eps abs i x :
  table_wf eps abs → eps !! i = Some x → p_state x ≠ SLEEPING → (wake_one ch eps abs).1 !! i = Some x.
Proof.
  intros Hwf Hx Hst. unfold wake_one, first_sleeper, make_ready.
  destruct (list_find _ _) as [[k j]|] eqn:Ef; [|done]. cbn.
  apply list_find_Some in Ef as (Hj%list_elem_of_lookup_2 & _).
  destruct (eps !! j) as [y|] eqn:Hy; [|done]. cbn.
  pose proof (tw_on_list _ _ _ _ _ Hwf Hy Hj) as Hsl. cbn in Hsl.
  rewrite list_lookup_insert_ne; [done|]. intros ->. congruence.
Qed.

Lemma wake_one_lookup ch eps abs j :
  (wake_one ch eps abs).1 !! j =
  (λ y, if decide (first_sleeper ch eps abs = Some j) then set_p_state RUNNABLE y else y) <$> eps !! j.
Proof.
  unfold wake_one, make_ready. destruct (first_sleeper ch eps abs) as [i|]; [|cbn [fst]; destruct (eps !! j); [|done]; cbn; by rewrite decide_False].
  destruct (eps !! i) as [y|] eqn:Hy; cbn [fst].
  - destruct (decide (i = j)) as [->|Hne].
    + rewrite list_lookup_insert_eq, Hy by (by eapply lookup_lt_Some). cbn. by rewrite decide_True.
    + rewrite list_lookup_insert_ne by done. destruct (eps !! j); [|done]. cbn. by rewrite decide_False by congruence.
  - destruct (eps !! j) as [z|] eqn:Hz; [|done]. cbn. by rewrite decide_False by congruence.
Qed.

(** What [exit] of process [x] in slot [i] makes of the process [y] in slot [j]: the first one
    that sleeps on the parent of [x], which is the parent if it sleeps in [wait], becomes
    runnable, and a child that is neither free nor a zombie belongs to [init]. *)
Definition after_exit (i ip : nat) (x : proc) (eps : list proc) (abs : absmap) (j : nat) (y : proc) : proc :=
  let y := if decide (first_sleeper (chan_of_ptr (p_parent x)) eps abs = Some j) then set_p_state RUNNABLE y else y in
  if decide (p_state y ≠ UNUSED ∧ p_state y ≠ ZOMBIE) then give_to (Some ip) i y else y.

(** What the scheduler finds when [exit] switches to it; [eps0] and [abs0] are the table when
    [exit] takes the lock, where the process is [x0]. *)
Definition exited (i ip : nat) (x0 : proc) (eps0 : list proc) (abs0 : absmap) (s : kst E) : Prop :=
  ∃ r eps abs, rep r eps abs s ∧ table_wf eps abs ∧ ptable_held r ∧ k_proc r = Some i ∧
    eps !! i = Some (set_p_state ZOMBIE (give_to (Some ip) i x0)) ∧ last (abs LZombie) = Some i ∧
    (∀ j, j ≠ i → eps !! j = after_exit i ip x0 eps0 abs0 j <$> eps0 !! j) ∧
    (∀ j y, eps !! j = Some y → p_state y ≠ UNUSED → p_state y ≠ ZOMBIE → p_parent y ≠ Some i).

(** The table after waking the parent and giving away the children. *)
Lemma exit_table_lookup i ip x eps abs j (ch := chan_of_ptr (p_parent x)) :
  table_wf eps abs →
  update_on (on_lists (ready_lists ++ [LSleep; LEmbryo; LRunning]) (wake_one ch eps abs).2) (give_to (Some ip) i)
    (wake_one ch eps abs).1 !! j = after_exit i ip x eps abs j <$> eps !! j.
Proof.
  intros Hwf. rewrite update_on_lookup. pose proof (wake_one_wf ch _ _ Hwf) as Hwf1.
  pose proof (λ z, live_on_lists _ _ j z Hwf1) as Hl. rewrite wake_one_lookup in Hl |- *.
  destruct (eps !! j) as [y|]; [|done]. cbn in Hl |- *. f_equal. unfold after_exit. fold ch.
  apply decide_ext, (Hl _ eq_refl).
Qed.

Lemma exit_locked_ok i ip x r eps abs s :
  rep r eps abs s → table_wf eps abs → ptable_held r → k_proc r = Some i → eps !! i = Some x →
  p_state x = RUNNING → initproc r = Some ip → ip ≠ i → (ip < NPROC)%nat → p_ofile x = replicate NOFILE None →
  runs exit_locked s (λ _ s', exited i ip x eps abs s').
Proof.
  intros Hr Hwf Hh Hcur Hx Hst Hip Hne Hlt Hof.
  apply runs_bind. eapply runs_curproc; [done|]. rewrite Hcur. kpget Hr.
  set (ch := chan_of_ptr (p_parent (set_p_next n x))).
  pose proof (wake_one_wf ch _ _ Hwf) as Hwf1.
  pose proof (wake_one_other ch _ _ _ _ Hwf Hx ltac:(by rewrite Hst)) as Hx1.
  pose proof (λ j, exit_table_lookup i ip x eps abs j Hwf) as Hafter.
  cbn zeta in Hafter. change (chan_of_ptr (p_parent x)) with ch in Hafter.
  apply runs_bind. eapply wakeup1_ok; [done..|]. clear Hr. intros s1 Hr.
  set (eps1 := (wake_one ch eps abs).1) in *. set (abs1 := (wake_one ch eps abs).2) in *. clearbody eps1 abs1.
  apply runs_bind, runs_get. rewrite (rep_field initproc _ _ _ _ Hr eq_refl), Hip.
  apply runs_bind. eapply reparent_ok; [by intros j [= <-] | congruence | done | done | apply live_lists_valid |].
  clear Hr. intros s2 Hr.
  set (l := on_lists (ready_lists ++ [LSleep; LEmbryo; LRunning]) abs1) in *.
  assert (Hl : ∀ j z, eps1 !! j = Some z → j ∈ l ↔ p_state z ≠ UNUSED ∧ p_state z ≠ ZOMBIE)
    by (intros j z Hz; by apply live_on_lists with eps1).
  set (eps2 := update_on l (give_to (Some ip) i) eps1) in *.
  assert (Hwf2 : table_wf eps2 abs1) by (apply give_to_wf; [by intros j [= <-] | done]).
  set (x2 := give_to (Some ip) i x).
  assert (Hx2 : eps2 !! i = Some x2).
  { unfold eps2. rewrite update_on_lookup, Hx1. cbn. by rewrite decide_True by (apply (Hl i x Hx1); by rewrite Hst). }
  assert (Hst2 : p_state x2 = RUNNING ∧ p_ofile x2 = replicate NOFILE None) by (unfold x2, give_to; by case_bool_decide).
  destruct Hst2 as [Hst2 Hof2].
  assert (Hrun : LRunning = list_of x2) by (unfold list_of; by rewrite Hst2).
  kpmod Hr. kmove Hr; [rewrite Hrun; by eapply tw_member | done |]. kassert Hr.
  apply runs_bind. eapply runs_sched_enter; [exact Hr | done | done | eauto with xv6 | done |].
  apply runs_ret. exists r. do 2 eexists. split; [exact Hr|]. split_and!; try done; [|eauto with xv6| | |].
  - rewrite Hrun. change LZombie with (list_of (set_p_state ZOMBIE x2)). apply table_wf_move; [done..|].
    destruct (tw_ok _ _ Hwf2 _ _ Hx2) as ([Hp1 Hp2] & Hpar & Hlen & _ & _). by split_and!.
  - unfold amove, aadd. rewrite aset_eq. apply last_snoc.
  - intros j Hj. rewrite list_lookup_insert_ne by done. apply Hafter.
  - intros j y Hy Hu Hz. apply list_lookup_insert_Some in Hy as [(-> & <- & _)|[_ Hy]]; [done|].
    unfold eps2 in Hy. rewrite update_on_lookup in Hy. destruct (eps1 !! j) as [z|] eqn:Hz1; [|done]. injection Hy as <-.
    case_decide as Hj.
    + unfold give_to. case_bool_decide; [cbn; congruence | done].
    + exfalso. apply Hj. by apply (Hl j z).
Qed.

(** [exit] up to the lock. *)
Lemma exit_close_ok i ip x r eps abs s cwd (Q : unit → kst E → Prop) :
  runs_as i x r eps abs s → initproc r = Some ip → p_cwd x = Some cwd →
  (∀ s', exiting i ip (replicate NOFILE None) None s' → Q tt s') → runs exit_close s Q.
Proof.
  intros Hs Hip Hcwd HQ. pose proof Hs as (Hr & Hwf & Hu & Hcur & Hx & Hst).
  assert (Hlen : length (p_ofile x) = NOFILE) by apply (tw_ok _ _ Hwf _ _ Hx).
  assert (Hex : exiting i ip (p_ofile x) (Some cwd) s) by (by exists x, r, eps, abs).
  clear Hs Hr Hwf Hu Hcur Hx Hst Hip.
  apply runs_bind. eapply close_files_ok; [done..|]. clear Hex. intros s1 Hex.
  apply runs_bind. eapply runs_mono; [eapply exiting_block; [apply begin_op_may_block | exact Hex]|].
  clear Hex. intros [] s2 Hex. apply runs_bind. eapply curproc_exiting; [done|].
  apply runs_bind. eapply pget_exiting; [done|]. intros z _ Hz. rewrite Hz.
  apply runs_bind. eapply runs_mono; [eapply exiting_block; [apply iput_may_block | exact Hex]|].
  clear Hex. intros [] s3 Hex.
  apply runs_bind. eapply runs_mono; [eapply exiting_block; [apply end_op_may_block | exact Hex]|].
  clear Hex. intros [] s4 Hex.
  eapply (exiting_pmod _ _ _ _ _ _ (replicate NOFILE None) None); [done | eauto with xv6 | by intros | done | done].
Qed.

(** C3: [exit] closes the files and releases the working directory, which can take a while, and
    then, with the lock held, changes the table it finds ([eps0], [abs0]) in this way and no
    other: the process becomes a zombie, at the end of the zombie list; the first process that
    sleeps on its parent, the parent if it is in [wait], becomes runnable; each child that is
    neither free nor a zombie gets [init] as its parent.  The panic after [sched] is not
    reached because a zombie is not scheduled. *)
Theorem exit_correct i ip x r eps abs s cwd :
  runs_as i x r eps abs s → initproc r = Some ip → ip ≠ i → (ip < NPROC)%nat →
  p_cwd x = Some cwd →
  ∃ s0 x0 r0 eps0 abs0, exit_close s = Ok (tt, s0) ∧ runs_as i x0 r0 eps0 abs0 s0 ∧
    p_ofile x0 = replicate NOFILE None ∧ p_cwd x0 = None ∧
    runs exit_enter s (λ _ s', exited i ip x0 eps0 abs0 s').
Proof.
  intros Hs Hip Hne Hlt Hcwd.
  destruct (exit_close_ok i ip x r eps abs s cwd (λ _ s', exiting i ip (replicate NOFILE None) None s') Hs Hip Hcwd)
    as ([] & s0 & Ec & (x0 & r0 & eps0 & abs0 & H0 & Hip0 & Hof & Hcw)); [done|].
  exists s0, x0, r0, eps0, abs0. split_and!; try done. pose proof Hs as (Hr & _ & _ & Hcur & _ & _).
  apply runs_bind, runs_get.
  rewrite (rep_proc _ _ _ _ Hr), Hcur, (rep_field initproc _ _ _ _ Hr eq_refl), Hip.
  rewrite bool_decide_false by congruence. apply runs_bind. eapply runs_ok; [exact Ec|].
  destruct H0 as (Hr0 & Hwf0 & Hu0 & Hcur0 & Hx0 & Hst0).
  apply runs_bind. eapply runs_acquire; [done..|]. intros s1 H1 Hh. by eapply exit_locked_ok.
Qed.
End Exit.

(** *** [userinit] *)
Section Userinit.
Context {E : Type} `{!Services E}.
Implicit Types (s r : kst E) (eps : list proc) (abs : absmap).

Definition only_free (l : list nat) : absmap := λ L, if decide (L = LFree) then l else [].

Lemma lists_wf_empty ps :
  lists_wf ps (mkSL (replicate (MAXPRIO + 1) None) (replicate (MAXPRIO + 1) None)
    None None None None None None None None None None) (only_free []).
Proof.
  assert (He : ∀ L, only_free [] L = []) by (intros L; unfold only_free; by case_decide).
  split; [|done|done|done|].
  - intros L HL. exists None, None. rewrite He. split; [|done].
    destruct L as [i| | | | |]; try done. cbn [sl_get sl_ready sl_readyTail]. cbn in HL.
    by rewrite !lookup_replicate_2 by lia.
  - intros L L' i. rewrite He. intros Hi%elem_of_nil. done.
Qed.

(** [initFreeList] puts every process on the free list, in the order of the array. *)
Lemma initFreeList_ok r eps s (Q : unit → kst E → Prop) :
  rep r eps (only_free []) s → ptable_held r → eps = replicate NPROC zero_proc →
  (∀ s', rep r eps (only_free (seq 0 NPROC)) s' → Q tt s') →
  runs initFreeList s Q.
Proof.
  intros Hr (Hl & Hc & _) Heps HQ. apply runs_bind, runs_get.
  unfold holding_ptable. rewrite (rep_field k_cpu _ _ _ _ Hr eq_refl), (rep_field pt_lock _ _ _ _ Hr eq_refl).
  rewrite (proj2 (holding_spec _ _)) by done. cbn [negb].
  apply (runs_kiter_seq _ (λ k s', rep r eps (only_free (seq 0 k)) s')); [|exact Hr|exact HQ].
  clear s Hr HQ. intros k s Hk Hr.
  assert (Hx : eps !! k = Some zero_proc) by (rewrite Heps; by apply lookup_replicate_2).
  kpmod Hr. change (set_p_state UNUSED zero_proc) with zero_proc in Hr.
  rewrite list_insert_id in Hr by done.
  apply runs_bind. eapply runs_list_add; [exact Hr | done | exact Hx | |].
  - intros L. unfold only_free. case_decide; [rewrite elem_of_seq; lia | apply not_elem_of_nil].
  - intros s' Hr'. apply runs_ret. rewrite seq_S.
    assert (Heq : ∀ L, aadd k LFree (only_free (seq 0 k)) L = only_free (seq 0 k ++ [k]) L).
    { intros L. unfold aadd, aset, only_free. by repeat case_decide. }
    destruct Hr' as (H1 & H2 & H3). split_and!; [done..|]. by eapply lists_wf_ext.
Qed.

Lemma boot_wf : table_wf (replicate NPROC zero_proc) (only_free (seq 0 NPROC)).
Proof.
  split.
  - apply length_replicate.
  - intros i x L [-> Hi]%lookup_replicate. unfold only_free. cbn [list_of p_state zero_proc].
    case_decide as HL; [|rewrite elem_of_nil; naive_solver]. rewrite elem_of_seq. naive_solver lia.
  - intros i x [-> _]%lookup_replicate. by split_and!.
Qed.

(** The first part of [userinit], up to [allocproc]. *)
Lemma userinit_lists s (k : K (kst E) unit) (Q : unit → kst E → Prop) :
  unlocked s → pt_proc s = replicate NPROC zero_proc →
  (∀ s', rep (after_release (set_PromoteAtTime (u32 (ticks s + TICKS_TO_PROMOTE)) (after_acquire (rest s))))
    (replicate NPROC zero_proc) (only_free (seq 0 NPROC)) s' → runs k s' Q) →
  runs (acquire_ptable;; initProcessLists;; initFreeList;;
    kmod (fun s => set_PromoteAtTime (u32 (ticks s + TICKS_TO_PROMOTE)) s);; release_ptable;; k) s Q.
Proof.
  intros Hu Hps HQ. pose proof Hu as [Hl Hn]. apply runs_bind.
  eapply runs_ok; [unfold acquire_ptable; rewrite (acquire_free _ _ Hl); reflexivity|].
  apply runs_bind, runs_mod.
  assert (Hh : ptable_held (after_acquire (rest s))) by (unfold ptable_held; cbn; by rewrite Hn).
  apply runs_bind. eapply (initFreeList_ok (after_acquire (rest s))); [|done|done|].
  { split_and!; [done | cbn; by rewrite Hps | apply lists_wf_empty]. }
  intros s1 Hr. kkmod Hr. apply runs_bind. eapply runs_release; [exact Hr | exact Hh |].
  intros s3 H3 _. apply HQ. rewrite <- Hps. exact H3.
Qed.

(** [userinit] builds the first process: slot 0, runnable at the highest
    priority; the other slots are free. *)
Theorem userinit_correct s a d cwd e1 e2 e3 e4 :
  unlocked s → pt_proc s = replicate NPROC zero_proc →
  svc_kalloc (k_env s) = Ok (a, e1) → a ≠ 0 →
  svc_setupkvm e1 = Ok (d, e2) → d ≠ 0 →
  svc_inituvm d e2 = Ok (tt, e3) → svc_namei_root e3 = Ok (cwd, e4) →
  runs userinit s (λ _ s', ∃ r eps abs, rep r eps abs s' ∧ table_wf eps abs ∧ unlocked r ∧
    initproc r = Some 0%nat ∧ k_env r = e4 ∧
    eps = <[0%nat := first_proc s a d cwd]> (replicate NPROC zero_proc) ∧
    abs (LReady 0) = [0%nat] ∧ abs LFree = seq 1 (NPROC - 1)).
Proof.
  intros Hu Hps Hka Ha Hkvm Hd Huvm Hroot. apply userinit_lists; [done..|]. intros s1 Hr.
  set (r1 := after_release _) in Hr.
  assert (Hu1 : unlocked r1) by (destruct Hu as [_ Hn]; unfold unlocked; cbn; by rewrite Hn).
  destruct (alloc_wf _ _ _ _ 0%nat zero_proc a Hr boot_wf) as [Hwf1 _]; [done..|].
  apply runs_bind. eapply (allocproc_some _ _ _ _ 0%nat zero_proc);
    [done | apply boot_wf | done | done | done | exact Hka | done |].
  clear Hr. intros _ s2 Hr. kkmod Hr. klift Hr Hkvm. kpmod Hr.
  destruct (Z.eqb_spec d 0) as [|_]; [done|]. klift Hr Huvm. kpmod Hr. kpmod Hr. kpmod Hr.
  klift Hr Hroot. kpmod Hr. kpmod Hr.
  apply runs_bind. eapply runs_acquire; [exact Hr | by destruct Hu as [_ Hn]; unfold unlocked; cbn; rewrite Hn |].
  clear Hr. intros sa Hr Hheld.
  apply runs_bind, runs_or_panic. eapply runs_list_remove; [exact Hr | by vm_compute; left |].
  clear Hr. intros sb Hr. split; [done|]. kpget Hr.
  apply runs_bind, runs_or_panic. eapply runs_list_add; [exact Hr | cbn; lia | eauto with xv6 | |].
  { intros L. eapply (not_in_aremove _ _ 0%nat (new_proc r1 a zero_proc)); [exact Hwf1 | done]. }
  clear Hr. intros sd Hr. split; [done|]. kassert Hr.
  apply runs_bind. eapply runs_release; [exact Hr | done |]. clear Hr. intros se Hr Hu2.
  kpmod Hr. eapply runs_pmod; [exact Hr | eauto with xv6 | eauto with xv6 |].
  rewrite list_insert_insert_eq. clear Hr. intros sf Hr. eexists _, (<[0%nat := first_proc s a d cwd]> (replicate NPROC zero_proc)),
    (amove 0 LEmbryo (LReady 0) (amove 0 LFree LEmbryo (only_free (seq 0 NPROC)))).
  split; [exact Hr|]. split_and!; try done.
  pose proof (table_wf_move _ _ 0%nat _ (first_proc s a d cwd) Hwf1
    (insert_hit (replicate NPROC zero_proc) 0%nat zero_proc _ eq_refl)) as H2.
  rewrite list_insert_insert_eq in H2.
  change (list_of (new_proc r1 a zero_proc)) with LEmbryo in H2.
  change (list_of (first_proc s a d cwd)) with (LReady 0) in H2. apply H2. by split_and!.
Qed.
End Userinit.
