(* ===== verification/ProcCheck.v ===== *)
(** * A decision procedure for the process-table invariant

    [table_ok s] walks the state lists of a concrete state and checks the invariant
    of [ProcMLFQInv]; [table_ok_sound] shows that it establishes [rep] and
    [table_wf].  The file also gives a small concrete instance of [Services], in
    which the operations can be run, and sample states. *)

From S2P Require Import Prelude Param Spinlock ProcData StateList ProcServices.
From S2P Require Import ProcCommon ProcMLFQ ListRep ProcMLFQInv ProcMLFQLife.
Local Open Scope Z_scope.

(** ** Definitions *)

Definition all_lists : list lname := ready_lists ++ [LFree; LSleep; LZombie; LRunning; LEmbryo].

(** The processes reached from [h], if the list ends within [fuel] steps. *)
Fixpoint walk (fuel : nat) (ps : list proc) (h : ptr) : option (list nat) :=
  match h with
  | None => Some []
  | Some i =>
      match fuel with
      | O => None
      | S fuel' => x ← ps !! i; l ← walk fuel' ps (p_next x); Some (i :: l)
      end
  end.

Definition list_at (ps : list proc) (sl : StateLists) (L : lname) : option (list nat) :=
  '(h, t) ← sl_get sl L;
  l ← walk (length ps) ps h;
  if bool_decide (last l = None) || bool_decide (last l = t) then Some l else None.

Definition abs_of (ps : list proc) (sl : StateLists) : absmap :=
  λ L, if decide (valid L) then default [] (list_at ps sl L) else [].

Definition proc_okb (x : proc) : bool :=
  (0 <=? p_priority x) && (p_priority x <=? Z.of_nat MAXPRIO) &&
  match p_parent x with None => true | Some j => (j <? NPROC)%nat end &&
  (length (p_ofile x) =? NOFILE)%nat &&
  (negb (bool_decide (p_state x = UNUSED) || bool_decide (p_state x = ZOMBIE)) ||
   bool_decide (p_ofile x = replicate NOFILE None)) &&
  (negb (live (p_state x)) || negb (p_pgdir x =? 0)).

Definition table_ok {E : Type} (s : kst E) : bool :=
  let ps := pt_proc s in
  let sl := pLists s in
  let abs := abs_of ps sl in
  (length ps =? NPROC)%nat &&
  (length (sl_ready sl) =? MAXPRIO + 1)%nat && (length (sl_readyTail sl) =? MAXPRIO + 1)%nat &&
  forallb (λ L, bool_decide (list_at ps sl L ≠ None)) all_lists &&
  bool_decide (NoDup (on_lists all_lists abs)) &&
  forallb (λ i, match ps !! i with
                | None => false
                | Some x => proc_okb x && bool_decide (i ∈ abs (list_of x))
                end) (seq 0 NPROC).

(** *** A concrete environment: the next free page; nothing else has a state *)

(** Take [n] pages, if there are that many below the end of memory. *)
Definition demo_pages (n e : Z) : outcome (Z * Z) :=
  if e + n * PGSIZE <=? KERNBASE + PHYSTOP then Ok (e, e + n * PGSIZE) else Ok (0, e).

#[export] Instance demo_services : Services Z := {
  svc_kalloc := demo_pages 1;
  svc_kfree := fun _ e => Ok (tt, e);
  svc_setupkvm := demo_pages 1;
  svc_inituvm := fun _ e => Ok (tt, e);
  svc_copyuvm := fun _ _ => demo_pages 2;
  svc_freevm := fun _ e => Ok (tt, e);
  svc_allocuvm := fun _ _ newsz e => Ok (newsz, e);
  svc_deallocuvm := fun _ _ newsz e => Ok (newsz, e);
  svc_switchuvm := fun x e => if p_pgdir x =? 0 then Panic "switchuvm: no pgdir" else Ok (tt, e);
  svc_switchkvm := fun e => Ok (tt, e);
  svc_filedup := fun _ e => Ok (tt, e);
  svc_idup := fun _ e => Ok (tt, e);
  svc_namei_root := fun e => Ok (Some 1%nat, e);
  svc_fileclose := fun _ => mret tt;
  svc_iput := fun _ => mret tt;
  svc_iinit := fun _ => mret tt;
  svc_initlog := fun _ => mret tt;
  svc_begin_op := mret tt;
  svc_end_op := mret tt;
  svc_lock := fun _ _ => initlock "demo";
  svc_set_lock := fun _ _ e => e;
  svc_forkret := 2148532224;
  svc_trapret := 2148536320
}.

Definition boot : kst Z :=
  mkKst (initlock "ptable") (replicate NPROC zero_proc) no_lists 0 None 1 0 true
    (mkCpu 0 0 false true) None 2149580800.

(** Run [p], taken from ready list [k], up to its return to user space. *)
Definition dispatch (k p : nat) : K (kst Z) unit :=
  acquire_ptable;; sched_pick k p;; forkret.

(** Back to the scheduler after a process has given up the CPU. *)
Definition switch_out (p : nat) : K (kst Z) unit := sched_return p;; release_ptable.

Definition state_after (m : K (kst Z) unit) : kst Z :=
  match m boot with Ok (_, s) => s | _ => boot end.

(** The first process runs. *)
Definition demo_running : K (kst Z) unit := userinit;; dispatch 0 0.

(** It has two children; it and the first child wait for the clock. *)
Definition demo_sleepers : K (kst Z) unit :=
  demo_running;; fork;; fork;; sleep_enter ChTicks LkNull;; switch_out 0;;
  dispatch 0 1;; sleep_enter ChTicks LkNull;; switch_out 1.

(** The first child has exited. *)
Definition demo_zombie : K (kst Z) unit :=
  demo_running;; fork;; fork;; yield_enter;; switch_out 0;; dispatch 0 1;; exit_enter;; switch_out 1;;
  dispatch 0 2;; yield_enter;; switch_out 2;; dispatch 0 0.

(** ** Lemmas *)

Lemma walk_chain fuel ps h l : walk fuel ps h = Some l → chain ps h l.
Proof.
  revert h l; induction fuel as [|fuel IH]; intros [i|] l H; cbn in H; try done.
  - injection H as <-. exact eq_refl.
  - destruct (ps !! i) as [x|] eqn:Hx; [|done]. cbn in H.
    destruct (walk fuel ps (p_next x)) as [l'|] eqn:Hw; [|done]. cbn in H. injection H as <-.
    split; [done|]. exists x. split; [done|]. by apply IH.
  - injection H as <-. exact eq_refl.
Qed.

Lemma list_at_slist ps sl L l :
  list_at ps sl L = Some l → ∃ h t, sl_get sl L = Some (h, t) ∧ slist ps h t l.
Proof.
  unfold list_at. destruct (sl_get sl L) as [[h t]|]; [|done]. cbn.
  destruct (walk (length ps) ps h) as [l'|] eqn:Hw; [|done]. cbn.
  destruct (bool_decide (last l' = None)) eqn:E1; cbn.
  - intros [= ->]. exists h, t. split; [done|]. split; [by apply walk_chain in Hw|].
    apply bool_decide_eq_true in E1. intros i. by rewrite E1.
  - destruct (bool_decide (last l' = t)) eqn:E2; [|done]. apply bool_decide_eq_true in E2. intros [= ->]. exists h, t. split; [done|].
    split; [by apply walk_chain in Hw|]. intros i. congruence.
Qed.

Lemma all_lists_valid L : valid L ↔ L ∈ all_lists.
Proof.
  unfold all_lists. rewrite elem_of_app. split.
  - intros HL. destruct L as [i| | | | |]; [left|right; set_solver..].
    apply list_elem_of_fmap_2, elem_of_seq. cbn in HL. lia.
  - intros [HL|HL]; [by apply ready_lists_valid | by elem_cases HL].
Qed.

Lemma NoDup_on_lists Ls abs L L' i :
  NoDup (on_lists Ls abs) → L ∈ Ls → L' ∈ Ls → i ∈ abs L → i ∈ abs L' → L = L'.
Proof.
  induction Ls as [|L0 Ls IH]; intros Hnd HL HL' Hi Hi'; [by apply elem_of_nil in HL|].
  unfold on_lists in Hnd. cbn in Hnd. apply NoDup_app in Hnd as (_ & Hd & Hnd).
  apply elem_of_cons in HL as [->|HL]; apply elem_of_cons in HL' as [->|HL']; [done| | |by apply IH].
  - exfalso. apply (Hd i Hi). apply elem_of_on_lists. eauto.
  - exfalso. apply (Hd i Hi'). apply elem_of_on_lists. eauto.
Qed.

Lemma abs_of_same ps sl L : abs_of ps sl L = [] ∨ valid L.
Proof. unfold abs_of. case_decide; auto. Qed.

Lemma proc_okb_sound x : proc_okb x = true → proc_ok x.
Proof.
  unfold proc_okb. rewrite !andb_true_iff, !orb_true_iff, !negb_true_iff, !orb_false_iff.
  rewrite !bool_decide_eq_true, !bool_decide_eq_false, !Z.leb_le, Nat.eqb_eq, Z.eqb_neq.
  intros (((((H1 & H2) & H3) & H4) & H5) & H6). unfold proc_ok.
  split_and!; [done | done | | done | tauto | destruct (live (p_state x)); naive_solver].
  intros j Hj. rewrite Hj in H3. by apply Nat.ltb_lt.
Qed.

Lemma table_ok_sound {E : Type} (s : kst E) :
  table_ok s = true →
  rep (rest s) (erase_next (pt_proc s)) (abs_of (pt_proc s) (pLists s)) s ∧
  table_wf (erase_next (pt_proc s)) (abs_of (pt_proc s) (pLists s)).
Proof.
  unfold table_ok. set (abs := abs_of (pt_proc s) (pLists s)).
  rewrite !andb_true_iff, !Nat.eqb_eq, bool_decide_eq_true, !forallb_forall.
  intros (((((Hlen & Hr1) & Hr2) & Hlists) & Hnd) & Hprocs).
  assert (Hdisj : ∀ L L' i, i ∈ abs L → i ∈ abs L' → L = L').
  { intros L L' i Hi Hi'. destruct (abs_of_same (pt_proc s) (pLists s) L) as [He|HL];
      [unfold abs in Hi; rewrite He in Hi; by apply elem_of_nil in Hi|].
    destruct (abs_of_same (pt_proc s) (pLists s) L') as [He|HL'];
      [unfold abs in Hi'; rewrite He in Hi'; by apply elem_of_nil in Hi'|].
    eapply NoDup_on_lists; [done | by apply all_lists_valid | by apply all_lists_valid | done..]. }
  split.
  - split_and!; [done..|]. split; [|done|done| |done].
    + intros L HL. pose proof (Hlists L) as HL'. rewrite <- list_elem_of_In, bool_decide_eq_true in HL'.
      apply all_lists_valid in HL as Hin. specialize (HL' Hin).
      destruct (list_at (pt_proc s) (pLists s) L) as [l|] eqn:El; [|done].
      unfold abs, abs_of. rewrite decide_True, El by done. by apply list_at_slist.
    + intros L HL. unfold abs, abs_of. by rewrite decide_False.
  - assert (Hproc : ∀ i x, erase_next (pt_proc s) !! i = Some x → proc_ok x ∧ i ∈ abs (list_of x)).
    { intros i x Hx. unfold erase_next in Hx. rewrite list_lookup_fmap in Hx.
      destruct (pt_proc s !! i) as [y|] eqn:Hy; [|done]. injection Hx as <-.
      assert (Hi : In i (seq 0 NPROC)) by (apply in_seq; apply lookup_lt_Some in Hy; lia).
      specialize (Hprocs i Hi). rewrite Hy, andb_true_iff, bool_decide_eq_true in Hprocs.
      destruct Hprocs as [Hok Hin]. apply proc_okb_sound in Hok. by destruct y. }
    split.
    + unfold erase_next. by rewrite length_fmap.
    + intros i x L Hx. destruct (Hproc i x Hx) as [_ Hin]. split; [intros; by eapply Hdisj | by intros ->].
    + intros i x Hx. by apply (Hproc i).
Qed.
