(* ===== verification/ProcWitness.v ===== *)
(** * Sample runs of process management

    For every theorem of [ProcMLFQInv], [ProcMLFQSched] and [ProcMLFQLife], a
    concrete state that satisfies its hypotheses; and runs that show where the code
    departs from its comments. *)

From S2P Require Import Prelude Param Spinlock ProcData StateList ProcServices.
From S2P Require Import ProcCommon ProcMLFQ ListRep ProcMLFQInv ProcMLFQSched.
From S2P Require Import ProcMLFQLife ProcCheck.
Local Open Scope Z_scope.

(** ** Definitions *)


(** Memory is exhausted after one more page. *)
Definition one_page_left (s : kst Z) : kst Z := set_k_env (KERNBASE + PHYSTOP - PGSIZE) s.

(** The first process waits for the clock and the first child runs; the second
    child has exited. *)
Definition demo_orphan : K (kst Z) unit :=
  demo_running;; fork;; sleep_enter ChTicks LkNull;; switch_out 0;;
  dispatch 0 1;; fork;; yield_enter;; switch_out 1;;
  dispatch 0 2;; exit_enter;; switch_out 2;;
  dispatch 0 1.

Definition proc_state (s : kst Z) (i : nat) : option (procstate * ptr) :=
  (λ x, (p_state x, p_parent x)) <$> pt_proc s !! i.

Definition proc_at (s : kst Z) (i : nat) : proc :=
  default zero_proc (erase_next (pt_proc s) !! i).

(** Name the representation of a sample state and its invariant. *)
Ltac demo_state m Hr Hwf :=
  destruct (table_ok_sound (state_after m) ltac:(vm_compute; reflexivity)) as [Hr Hwf].

(** ** Witnesses *)

Lemma wakeup_correct_witness :
  ∃ a s', wakeup ChTicks (state_after demo_sleepers) = Ok (a, s').
Proof.
  demo_state demo_sleepers Hr Hwf.
  destruct (wakeup_correct ChTicks _ _ _ _ Hr Hwf) as (a & s' & H & _);
    [split; vm_compute; reflexivity | eauto].
Defined.

Lemma kill_correct_witness : ∃ a s', kill 2 (state_after demo_sleepers) = Ok (a, s').
Proof.
  demo_state demo_sleepers Hr Hwf.
  destruct (kill_correct 2 _ _ _ _ Hr Hwf) as (a & s' & H & _);
    [split; vm_compute; reflexivity | eauto].
Defined.

Ltac by_eval := vm_compute; repeat split; try reflexivity; try discriminate.

Lemma yield_correct_witness : ∃ a s', yield_enter (state_after demo_running) = Ok (a, s').
Proof.
  demo_state demo_running Hr Hwf.
  destruct (yield_correct _ _ _ _ 0%nat (proc_at (state_after demo_running) 0) Hr Hwf)
    as (a & s' & H & _); [by_eval..|eauto].
Defined.

Lemma sleep_correct_witness :
  ∃ a s', sleep_enter ChTicks LkNull (state_after demo_running) = Ok (a, s').
Proof.
  demo_state demo_running Hr Hwf.
  destruct (sleep_correct ChTicks LkNull _ _ _ _ 0%nat (proc_at (state_after demo_running) 0) Hr Hwf)
    as (a & s' & H & _); [by_eval..|eauto].
Defined.

Lemma wait_reaps_child_witness :
  ∃ a s', wait_pass (state_after (demo_zombie;; acquire_ptable)) = Ok (a, s').
Proof.
  demo_state (demo_zombie;; acquire_ptable) Hr Hwf.
  destruct (wait_reaps_child _ _ _ _ 0%nat 1%nat 0%nat
    (proc_at (state_after (demo_zombie;; acquire_ptable)) 1)
    (k_env (state_after demo_zombie)) (k_env (state_after demo_zombie)) Hr Hwf)
    as (a & s' & H & _); [by_eval..|eauto].
Defined.

Lemma wait_no_zombie_witness :
  ∃ a s', wait_pass (state_after (demo_running;; acquire_ptable)) = Ok (a, s').
Proof.
  demo_state (demo_running;; acquire_ptable) Hr Hwf.
  destruct (wait_no_zombie _ _ _ _ 0%nat (proc_at (state_after (demo_running;; acquire_ptable)) 0)
    Hr Hwf) as (a & s' & H & _); [by_eval..| |eauto].
  intros j y Hy Hz. apply list_elem_of_lookup_2 in Hy. vm_compute in Hy.
  repeat (apply elem_of_cons in Hy as [->|Hy]; [done|]). by apply elem_of_nil in Hy.
Defined.

Lemma setpriority_correct_witness :
  ∃ a s', setpriority 2 6 (state_after demo_sleepers) = Ok (a, s').
Proof.
  demo_state demo_sleepers Hr Hwf.
  destruct (setpriority_correct 2 6 _ _ _ _ Hr Hwf) as (a & s' & H & _); [by_eval..|eauto].
Defined.

Lemma promoteAll_correct_witness : ∃ a s', promoteAll (state_after demo_sleepers) = Ok (a, s').
Proof.
  demo_state demo_sleepers Hr Hwf.
  destruct (promoteAll_correct _ _ _ _ Hr Hwf) as (a & s' & H & _). eauto.
Defined.

Lemma allocproc_correct_witness : ∃ a s', allocproc (state_after demo_running) = Ok (a, s').
Proof.
  demo_state demo_running Hr Hwf.
  destruct (allocproc_correct _ _ _ _ (k_env (state_after demo_running))
    (k_env (state_after demo_running) + PGSIZE) Hr Hwf) as (a & s' & H & _); [by_eval..|eauto].
Defined.

Lemma fork_no_memory_witness :
  ∃ a s', fork (one_page_left (state_after demo_running)) = Ok (a, s').
Proof.
  set (s := one_page_left (state_after demo_running)).
  destruct (table_ok_sound s ltac:(vm_compute; reflexivity)) as [Hr Hwf].
  destruct (fork_no_memory _ _ _ _ 0%nat (proc_at s 0) 1%nat (proc_at s 1) (k_env s)
    (KERNBASE + PHYSTOP) (KERNBASE + PHYSTOP) (KERNBASE + PHYSTOP) Hr Hwf)
    as (a & s' & H & _); [by_eval..|eauto].
Defined.

Lemma fork_correct_witness : ∃ a s', fork (state_after demo_running) = Ok (a, s').
Proof.
  set (s := state_after demo_running).
  destruct (table_ok_sound s ltac:(vm_compute; reflexivity)) as [Hr Hwf].
  destruct (fork_correct _ _ _ _ 0%nat (proc_at s 0) 1%nat (proc_at s 1) (k_env s)
    (k_env s + PGSIZE) 1%nat (k_env s + PGSIZE) (k_env s + PGSIZE + 2 * PGSIZE)
    (k_env s + PGSIZE + 2 * PGSIZE) (k_env s + PGSIZE + 2 * PGSIZE) Hr Hwf)
    as (a & s' & H & _); [by_eval..|eauto].
Defined.

#[export] Instance demo_blocking : BlockingOk Z.
Proof.
  assert (Hret : may_block (E := Z) (mret tt)).
  { intros i x r eps abs s H. apply runs_ret. by exists x, r, eps, abs. }
  by split.
Qed.

Lemma exit_correct_witness : ∃ a s', exit_enter (state_after demo_orphan) = Ok (a, s').
Proof.
  set (s := state_after demo_orphan).
  destruct (table_ok_sound s ltac:(vm_compute; reflexivity)) as [Hr Hwf].
  destruct (exit_correct 1 0 (proc_at s 1) (rest s) (erase_next (pt_proc s))
    (abs_of (pt_proc s) (pLists s)) s 1) as (s0 & x0 & r0 & eps0 & abs0 & _ & _ & _ & _ & a & s' & H & _);
    [split; [exact Hr|]; split; [exact Hwf|]; by_eval | by_eval | by_eval | vm_compute; lia | by_eval | eauto].
Defined.

Lemma userinit_correct_witness : ∃ a s', userinit boot = Ok (a, s').
Proof.
  destruct (userinit_correct boot (k_env boot) (k_env boot + PGSIZE) (Some 1%nat)
    (k_env boot + PGSIZE) (k_env boot + PGSIZE + PGSIZE) (k_env boot + PGSIZE + PGSIZE)
    (k_env boot + PGSIZE + PGSIZE)) as (a & s' & H & _); [by_eval..|eauto].
Defined.





Lemma getprocs_correct_witness : ∃ r s', getprocs 2 (state_after demo_sleepers) = Ok (r, s').
Proof.
  demo_state demo_sleepers Hr Hwf.
  destruct (getprocs_correct (state_after demo_sleepers) 2) as (r & s' & H & _);
    [by_eval | by_eval | exact (table_parents_valid _ _ Hwf) | eauto].
Defined.

(** ** Departures from the comments *)

(** The comment of [wakeup] says that it wakes all processes sleeping on the
    channel.  Here two processes sleep on [ticks] and one [wakeup] leaves the second
    asleep: [wakeup1] reads [p->next] after [stateListAdd] has cleared it. *)
Theorem wakeup_leaves_sleeper :
  let s := state_after demo_sleepers in
  let s' := state_after (demo_sleepers;; wakeup ChTicks) in
  proc_state s 0 = Some (SLEEPING, None) ∧ proc_state s 1 = Some (SLEEPING, Some 0%nat) ∧
  wakeup ChTicks s = Ok (tt, s') ∧
  proc_state s' 0 = Some (RUNNABLE, None) ∧ proc_state s' 1 = Some (SLEEPING, Some 0%nat).
Proof. vm_compute. by split_and!. Qed.

(** [exit] passes its live children to [init], but a child that is already a zombie
    keeps its dead parent and is never reaped. *)
Theorem exit_keeps_zombie_child :
  let s := state_after demo_orphan in
  let s' := state_after (demo_orphan;; exit_enter) in
  proc_state s 2 = Some (ZOMBIE, Some 1%nat) ∧ exit_enter s = Ok (tt, s') ∧
  proc_state s' 1 = Some (ZOMBIE, Some 0%nat) ∧ proc_state s' 2 = Some (ZOMBIE, Some 1%nat).
Proof. vm_compute. by split_and!. Qed.

(** [setpriority] accepts the priority [MAXPRIO+1], for which there is no ready
    list. *)
Theorem setpriority_past_end :
  let s := state_after demo_sleepers in
  proc_state s 2 = Some (RUNNABLE, Some 0%nat) ∧
  setpriority 3 (Z.of_nat MAXPRIO + 1) s = Undef "ready list index out of range".
Proof. vm_compute. by split_and!. Qed.
