(* ===== verification/ProcTable.v ===== *)
(** * Process management without state lists

    The configuration of src/proc.c the Makefile selects ([CS333_P3P4] not
    defined): the functions scan [ptable.proc].  The definitions that do not depend
    on the configuration are those of [ProcCommon]. *)

From S2P Require Import Prelude Param Spinlock ProcData ProcServices ProcCommon.
Local Open Scope Z_scope.

(** ** Definitions *)

Section Table.
Context {E : Type} `{!Services E}.

(** The first process that satisfies a test, in the order of the table. *)
Definition find_proc (test : proc → bool) : K (kst E) (option nat) :=
  kfind (seq 0 NPROC) (fun p =>
    x ← pget (Some p);
    mret (if test x then Some p else None)).

Definition allocproc : K (kst E) ptr :=
  acquire_ptable;;
  p ← find_proc (fun x => bool_decide (p_state x = UNUSED));
  match p with
  | None => release_ptable;; mret None
  | Some _ =>
      pmod p (set_p_state EMBRYO);;
      s ← kget;
      pmod p (init_fields (u32 (nextpid s)) (ticks s));;
      kmod (set_nextpid (s32 (nextpid s + 1)));;
      release_ptable;;
      kstack ← lift_env svc_kalloc;
      pmod p (set_p_kstack kstack);;
      if kstack =? 0 then
        pmod p (set_p_state UNUSED);;
        mret None
      else
        pmod p setup_kstack;;
        mret p
  end.

Definition userinit : K (kst E) unit :=
  p ← allocproc;
  kmod (set_initproc p);;
  pgdir ← lift_env svc_setupkvm;
  pmod p (set_p_pgdir pgdir);;
  if pgdir =? 0 then kpanic "userinit: out of memory?"
  else
    lift_env (svc_inituvm pgdir);;
    pmod p (set_p_sz PGSIZE);;
    pmod p (set_p_trapframe init_trapframe);;
    pmod p (set_p_name (copy_name 16 (bytes_of_string "initcode")));;
    cwd ← lift_env svc_namei_root;
    pmod p (set_p_cwd cwd);;
    pmod p (set_p_state RUNNABLE);;
    pmod p (set_p_uid 0);;
    pmod p (set_p_gid 0).

Definition fork : K (kst E) Z :=
  np ← allocproc;
  if bool_decide (np = None) then mret (-1)
  else
    cur ← curproc;
    x ← pget cur;
    pgdir ← lift_env (svc_copyuvm (p_pgdir x) (p_sz x));
    pmod np (set_p_pgdir pgdir);;
    if pgdir =? 0 then
      y ← pget np;
      lift_env (svc_kfree (p_kstack y));;
      pmod np (set_p_kstack 0);;
      pmod np (set_p_state UNUSED);;
      mret (-1)
    else
      pmod np (set_p_sz (p_sz x));;
      pmod np (set_p_parent cur);;
      pmod np (set_p_trapframe (set_tf_eax 0 (p_trapframe x)));;
      dup_files cur np;;
      x ← pget cur;
      match p_cwd x with
      | None => kundef "idup of a null inode"
      | Some cwd =>
          lift_env (svc_idup cwd);;
          pmod np (set_p_cwd (Some cwd));;
          pmod np (set_p_name (copy_name 16 (p_name x)));;
          y ← pget np;
          let pid := s32 (p_pid y) in
          acquire_ptable;;
          pmod np (set_p_state RUNNABLE);;
          release_ptable;;
          x ← pget cur;
          pmod np (set_p_uid (p_uid x));;
          pmod np (set_p_gid (p_gid x));;
          mret pid
      end.

Definition wakeup1 (ch : chan) : K (kst E) unit :=
  kiter (seq 0 NPROC) (fun p =>
    x ← pget (Some p);
    if bool_decide (p_state x = SLEEPING) && bool_decide (p_chan x = ch)
    then pmod (Some p) (set_p_state RUNNABLE) else mret tt).

Definition wakeup (ch : chan) : K (kst E) unit :=
  acquire_ptable;;
  wakeup1 ch;;
  release_ptable.

(** The loop of [exit] that passes abandoned children to [initproc]. *)
Definition pass_children (cur : ptr) : K (kst E) unit :=
  kiter (seq 0 NPROC) (fun p =>
    x ← pget (Some p);
    if bool_decide (p_parent x = cur) then
      s ← kget;
      pmod (Some p) (set_p_parent (initproc s));;
      if bool_decide (p_state x = ZOMBIE) then wakeup1 (chan_of_ptr (initproc s)) else mret tt
    else mret tt).

Definition exit_locked : K (kst E) unit :=
  cur ← curproc;
  x ← pget cur;
  wakeup1 (chan_of_ptr (p_parent x));;
  pass_children cur;;
  pmod cur (set_p_state ZOMBIE);;
  sched_enter;;
  mret tt.

Definition exit_enter : K (kst E) unit :=
  s ← kget;
  if bool_decide (k_proc s = initproc s) then kpanic "init exiting"
  else
    close_files;;
    svc_begin_op;;
    cur ← curproc;
    x ← pget cur;
    match p_cwd x with
    | None => kundef "iput of a null inode"
    | Some cwd =>
        svc_iput cwd;;
        svc_end_op;;
        pmod cur (set_p_cwd None);;
        acquire_ptable;;
        exit_locked
    end.

(** [sleep] and [yield] do not account for the time slice in this configuration. *)
Definition sleep_enter (ch : chan) (lk : lockref) : K (kst E) bool :=
  cur ← curproc;
  if bool_decide (cur = None) then kpanic "sleep"
  else
    (if bool_decide (lk ≠ LkPtable) then
       acquire_ptable;;
       (if bool_decide (lk ≠ LkNull) then release_lk lk else mret tt)
     else mret tt);;
    pmod cur (set_p_chan ch);;
    pmod cur (set_p_state SLEEPING);;
    sched_enter.

Definition yield_enter : K (kst E) bool :=
  acquire_ptable;;
  cur ← curproc;
  pmod cur (set_p_state RUNNABLE);;
  sched_enter.

(** One entry of the scan of [wait]: skip, note a child, or reap a zombie. *)
Definition wait_entry (cur : ptr) (p : nat) (havekids : bool) : K (kst E) (bool * option Z) :=
  x ← pget (Some p);
  if bool_decide (p_parent x ≠ cur) then mret (havekids, None)
  else if bool_decide (p_state x = ZOMBIE) then
    let pid := s32 (p_pid x) in
    lift_env (svc_kfree (p_kstack x));;
    pmod (Some p) (set_p_kstack 0);;
    lift_env (svc_freevm (p_pgdir x));;
    pmod (Some p) (set_p_state UNUSED);;
    pmod (Some p) (set_p_pid 0);;
    pmod (Some p) (set_p_parent None);;
    pmod (Some p) (set_p_name []);;
    pmod (Some p) (set_p_killed false);;
    release_ptable;;
    mret (true, Some pid)
  else mret (true, None).

Fixpoint wait_scan (cur : ptr) (l : list nat) (havekids : bool) : K (kst E) (bool * option Z) :=
  match l with
  | [] => mret (havekids, None)
  | p :: l' =>
      r ← wait_entry cur p havekids;
      match r.2 with
      | Some _ => mret r
      | None => wait_scan cur l' r.1
      end
  end.

Definition wait_pass : K (kst E) wait_result :=
  cur ← curproc;
  r ← wait_scan cur (seq 0 NPROC) false;
  match r with
  | (_, Some pid) => mret (WaitReturn pid)
  | (havekids, None) =>
      stop ← (if (havekids : bool) then x ← pget cur; mret (p_killed x) else mret true);
      if (stop : bool) then
        release_ptable;;
        mret (WaitReturn (-1))
      else mret WaitSleep
  end.

Definition kill (pid : Z) : K (kst E) Z :=
  acquire_ptable;;
  p ← find_proc (fun x => p_pid x =? u32 pid);
  match p with
  | None => release_ptable;; mret (-1)
  | Some _ =>
      pmod p (set_p_killed true);;
      x ← pget p;
      (if bool_decide (p_state x = SLEEPING) then pmod p (set_p_state RUNNABLE) else mret tt);;
      release_ptable;;
      mret 0
  end.

(** The scheduler, with [swtch p] standing for the context switch to [p] and
    all that runs until a process switches back. *)
Section Scheduler.
Variable swtch : nat → K (kst E) unit.

Definition sched_pick (p : nat) : K (kst E) unit :=
  kmod (set_k_proc (Some p));;
  x ← pget (Some p);
  lift_env (svc_switchuvm x);;
  pmod (Some p) (set_p_state RUNNING);;
  s ← kget;
  pmod (k_proc s) (set_p_cpu_ticks_in (ticks s)).

Definition sched_return : K (kst E) unit :=
  s ← kget;
  pmod (k_proc s) (fun x => set_p_cpu_ticks_total
    (u32 (p_cpu_ticks_total x + u32 (ticks s - p_cpu_ticks_in x))) x);;
  lift_env svc_switchkvm;;
  kmod (set_k_proc None).

Fixpoint sched_scan (l : list nat) (idle : bool) : K (kst E) bool :=
  match l with
  | [] => mret idle
  | p :: l' =>
      x ← pget (Some p);
      if bool_decide (p_state x ≠ RUNNABLE) then sched_scan l' idle
      else
        sched_pick p;;
        swtch p;;
        sched_return;;
        sched_scan l' false
  end.

Definition scheduler_pass : K (kst E) bool :=
  kmod (set_fl_if true);;
  acquire_ptable;;
  idle ← sched_scan (seq 0 NPROC) true;
  release_ptable;;
  kwhen idle (kmod (set_fl_if true));;
  mret idle.
End Scheduler.
End Table.

(** *** What the operations do to the table *)

(** [wakeup1(ch)] on one process. *)
Definition wake (ch : chan) (x : proc) : proc :=
  if bool_decide (p_state x = SLEEPING) && bool_decide (p_chan x = ch)
  then set_p_state RUNNABLE x else x.

(** Process [i]'s child goes to [init]. *)
Definition adopt (cur init : ptr) (x : proc) : proc :=
  if bool_decide (p_parent x = cur) then set_p_parent init x else x.

Definition zombie_child (cur : ptr) (x : proc) : bool :=
  bool_decide (p_parent x = cur) && bool_decide (p_state x = ZOMBIE).

(** The table after the loop of [exit] has seen its first [k] entries. *)
Definition passed (cur init : ptr) (k : nat) (ps : list proc) : list proc :=
  imap (λ j x,
    let x := if (j <? k)%nat then adopt cur init x else x in
    if existsb (zombie_child cur) (take k ps) then wake (chan_of_ptr init) x else x) ps.

(** What [kill] does to the process it finds. *)
Definition kill_entry (x : proc) : proc :=
  let x := set_p_killed true x in
  if bool_decide (p_state x = SLEEPING) then set_p_state RUNNABLE x else x.

Definition reap_entry (x : proc) : proc :=
  set_p_killed false (set_p_name [] (set_p_parent None (set_p_pid 0
    (set_p_state UNUSED (set_p_kstack 0 x))))).

(** ** Lemmas *)

Section Scan.
Context {E : Type} `{!Services E}.
Implicit Types (s : kst E).

Lemma set_pt_proc_id s : set_pt_proc (pt_proc s) s = s.
Proof. by destruct s. Qed.

Lemma set_pt_proc_twice ps ps' s : set_pt_proc ps (set_pt_proc ps' s) = set_pt_proc ps s.
Proof. done. Qed.

(** A loop over the whole table that maps each entry. *)
Lemma kiter_map (body : nat → K (kst E) unit) (g : proc → proc) s :
  (∀ p x s', pt_proc s' !! p = Some x →
    body p s' = Ok (tt, set_pt_proc (<[p := g x]> (pt_proc s')) s')) →
  length (pt_proc s) = NPROC →
  kiter (seq 0 NPROC) body s = Ok (tt, set_pt_proc (g <$> pt_proc s) s).
Proof.
  intros Hbody Hlen.
  set (I := λ k s', s' = set_pt_proc ((g <$> take k (pt_proc s)) ++ drop k (pt_proc s)) s).
  assert (Hruns : runs (kiter (seq 0 NPROC) body) s (λ _ s', I NPROC s')).
  { apply (runs_kiter_seq body I); [|by destruct s|done].
    intros k s' Hk ->. destruct (lookup_lt_is_Some_2 (pt_proc s) k) as [x Hx]; [lia|].
    set (ps := (g <$> take k (pt_proc s)) ++ drop k (pt_proc s)).
    assert (Hl : length (g <$> take k (pt_proc s)) = k)
      by (rewrite length_fmap, length_take; lia).
    assert (Hps : ps !! k = Some x).
    { unfold ps. rewrite lookup_app_r, Hl, Nat.sub_diag by lia. rewrite (drop_S _ _ _ Hx). done. }
    eapply runs_ok; [apply Hbody; exact Hps|]. unfold I. cbn [pt_proc set_pt_proc].
    rewrite set_pt_proc_twice. f_equal. unfold ps.
    rewrite insert_app_r_alt, Hl, Nat.sub_diag by lia. rewrite (drop_S _ _ _ Hx). cbn.
    rewrite (take_S_r _ _ _ Hx), fmap_app, <- app_assoc. done. }
  destruct Hruns as ([] & s' & Hok & HI).
  rewrite Hok. unfold I in HI. rewrite HI, take_ge, drop_ge, app_nil_r by lia. done.
Qed.

Lemma wakeup1_map ch s :
  length (pt_proc s) = NPROC →
  wakeup1 ch s = Ok (tt, set_pt_proc (wake ch <$> pt_proc s) s).
Proof.
  apply kiter_map. intros p x s' Hx. rewrite (K_bind_ok _ _ _ _ _ (pget_ok _ _ _ Hx)).
  unfold wake. destruct (_ && _); [by apply pmod_ok|].
  rewrite list_insert_id by done. by rewrite set_pt_proc_id.
Qed.

(** [wakeup] in this configuration wakes every process that sleeps on the
    channel. *)
Theorem wakeup_wakes_all ch s :
  unlocked s → length (pt_proc s) = NPROC →
  runs (wakeup ch) s (λ _ s', unlocked s' ∧ pt_proc s' = wake ch <$> pt_proc s).
Proof.
  intros Hu Hlen. apply runs_bind, runs_acquire_ptable; [done|]. intros c lk Hh.
  apply runs_bind. eapply runs_ok; [by apply wakeup1_map|].
  apply runs_release_ptable; [exact Hh|]. intros c' lk' Hu'. done.
Qed.
End Scan.

(** *** [exit] *)
Section ExitTable.
Context {E : Type} `{!Services E}.
Implicit Types (s : kst E).

Lemma wake_idem ch x : wake ch (wake ch x) = wake ch x.
Proof.
  unfold wake at 2 3. destruct (_ && _) eqn:Et; unfold wake; [|by rewrite Et].
  by rewrite bool_decide_false by done.
Qed.

Lemma wake_parent ch x : p_parent (wake ch x) = p_parent x.
Proof. unfold wake. by case_match. Qed.

Lemma wake_zombie ch x : p_state (wake ch x) = ZOMBIE ↔ p_state x = ZOMBIE.
Proof.
  unfold wake. destruct (decide (p_state x = SLEEPING)) as [Hs|Hs].
  - rewrite bool_decide_true by done. cbn. destruct (bool_decide _); cbn; by rewrite ?Hs.
  - by rewrite bool_decide_false.
Qed.

Lemma wake_set_parent ch v x : wake ch (set_p_parent v x) = set_p_parent v (wake ch x).
Proof. unfold wake. cbn. by case_match. Qed.

Lemma passed_lookup cur init k ps j :
  passed cur init k ps !! j = (λ x,
    let x := if (j <? k)%nat then adopt cur init x else x in
    if existsb (zombie_child cur) (take k ps) then wake (chan_of_ptr init) x else x) <$> ps !! j.
Proof. unfold passed. by rewrite list_lookup_imap. Qed.

Lemma length_passed cur init k ps : length (passed cur init k ps) = length ps.
Proof. apply length_imap. Qed.

Lemma ltb_S_ne j k : k ≠ j → (j <? S k)%nat = (j <? k)%nat.
Proof. intros. destruct (Nat.ltb_spec j (S k)), (Nat.ltb_spec j k); done || lia. Qed.

Lemma ltb_S_same k : (k <? S k)%nat = true.
Proof. apply Nat.ltb_lt. lia. Qed.

(** Entry [k] is not a child. *)
Lemma passed_skip cur init k ps x :
  ps !! k = Some x → p_parent x ≠ cur → passed cur init (S k) ps = passed cur init k ps.
Proof.
  intros Hx Hne. apply list_eq. intros j. rewrite !passed_lookup.
  rewrite (take_S_r _ _ _ Hx), existsb_app. cbn [existsb]. unfold zombie_child at 2.
  rewrite bool_decide_false by done. cbn [andb]. rewrite !orb_false_r.
  destruct (ps !! j) as [y|] eqn:Hy; [|done]. cbn [fmap option_fmap option_map]. f_equal.
  destruct (decide (k = j)) as [<-|Hkj]; [|by rewrite ltb_S_ne].
  assert (y = x) as -> by congruence. rewrite ltb_S_same, Nat.ltb_irrefl.
  unfold adopt. by rewrite bool_decide_false by done.
Qed.

(** Entry [k] is a child that is not a zombie. *)
Lemma passed_live cur init k ps x y :
  ps !! k = Some x → p_parent x = cur → p_state x ≠ ZOMBIE → passed cur init k ps !! k = Some y →
  <[k := set_p_parent init y]> (passed cur init k ps) = passed cur init (S k) ps.
Proof.
  intros Hx Hp Hz Hy. apply list_eq. intros j. rewrite passed_lookup.
  rewrite (take_S_r _ _ _ Hx), existsb_app. cbn [existsb]. unfold zombie_child at 2.
  rewrite (bool_decide_false (p_state x = ZOMBIE)), andb_false_r by done. rewrite !orb_false_r.
  destruct (decide (k = j)) as [<-|Hne].
  - rewrite list_lookup_insert_eq, Hx by (rewrite length_passed; by eapply lookup_lt_Some).
    rewrite passed_lookup, Hx in Hy. cbn [fmap option_fmap option_map] in Hy. rewrite Nat.ltb_irrefl in Hy. injection Hy as <-.
    cbn [fmap option_fmap option_map]. f_equal. rewrite ltb_S_same. unfold adopt.
    rewrite bool_decide_true by done.
    destruct (existsb _ _); [by rewrite wake_set_parent | done].
  - rewrite list_lookup_insert_ne, passed_lookup by done. destruct (ps !! j) as [z|]; [|done].
    cbn [fmap option_fmap option_map]. by rewrite ltb_S_ne.
Qed.

(** Entry [k] is a zombie child: [init] is woken. *)
Lemma passed_zombie cur init k ps x y :
  ps !! k = Some x → p_parent x = cur → p_state x = ZOMBIE → passed cur init k ps !! k = Some y →
  wake (chan_of_ptr init) <$> <[k := set_p_parent init y]> (passed cur init k ps) =
  passed cur init (S k) ps.
Proof.
  intros Hx Hp Hz Hy. apply list_eq. intros j. rewrite list_lookup_fmap, passed_lookup.
  rewrite (take_S_r _ _ _ Hx), existsb_app. cbn [existsb]. unfold zombie_child at 2.
  rewrite !bool_decide_true by done. cbn [andb orb]. rewrite orb_true_r.
  destruct (decide (k = j)) as [<-|Hne].
  - rewrite list_lookup_insert_eq, Hx by (rewrite length_passed; by eapply lookup_lt_Some).
    rewrite passed_lookup, Hx in Hy. cbn [fmap option_fmap option_map] in Hy. rewrite Nat.ltb_irrefl in Hy. injection Hy as <-.
    cbn [fmap option_fmap option_map]. f_equal. rewrite ltb_S_same. unfold adopt.
    rewrite bool_decide_true by done.
    destruct (existsb _ _); [by rewrite <- wake_set_parent, wake_idem | done].
  - rewrite list_lookup_insert_ne, passed_lookup by done. destruct (ps !! j) as [z|]; [|done].
    cbn [fmap option_fmap option_map]. rewrite ltb_S_ne by done.
    destruct (existsb _ _); [by rewrite wake_idem | done].
Qed.

Lemma passed_same_entry cur init k ps x y :
  ps !! k = Some x → passed cur init k ps !! k = Some y →
  p_parent y = p_parent x ∧ (p_state y = ZOMBIE ↔ p_state x = ZOMBIE).
Proof.
  intros Hx Hy. rewrite passed_lookup, Hx in Hy. cbn [fmap option_fmap option_map] in Hy. rewrite Nat.ltb_irrefl in Hy.
  injection Hy as <-. destruct (existsb _ _); [|done]. split; [apply wake_parent | apply wake_zombie].
Qed.

Lemma pass_children_ok cur s :
  length (pt_proc s) = NPROC →
  pass_children cur s = Ok (tt, set_pt_proc (passed cur (initproc s) NPROC (pt_proc s)) s).
Proof.
  intros Hlen. set (I := λ k s', s' = set_pt_proc (passed cur (initproc s) k (pt_proc s)) s).
  assert (Hruns : runs (pass_children cur) s (λ _ s', I NPROC s')).
  { apply (runs_kiter_seq _ I); [| |done].
    - intros k s' Hk ->. set (ps := pt_proc s) in *. set (ini := initproc s) in *.
      destruct (lookup_lt_is_Some_2 ps k) as [x Hx]; [lia|].
      destruct (lookup_lt_is_Some_2 (passed cur ini k ps) k) as [y Hy]; [rewrite length_passed; lia|].
      destruct (passed_same_entry _ _ _ _ _ _ Hx Hy) as [Hpar Hzom].
      apply runs_bind. eapply runs_ok; [by apply pget_ok|].
      rewrite Hpar. case_bool_decide as Hc.
      + apply runs_bind, runs_get, runs_bind. eapply runs_ok; [by apply pmod_ok|].
        case_bool_decide as Hz.
        * eapply runs_ok; [apply wakeup1_map; cbn; rewrite length_insert, length_passed; done|].
          unfold I. cbn [pt_proc initproc set_pt_proc]. rewrite !set_pt_proc_twice.
          rewrite (passed_zombie _ _ _ _ x) by tauto. done.
        * apply runs_ret. unfold I. cbn [pt_proc initproc set_pt_proc]. rewrite set_pt_proc_twice.
          rewrite (passed_live _ _ _ _ x) by tauto. done.
      + apply runs_ret. unfold I. by rewrite (passed_skip _ _ _ _ x).
    - unfold I. rewrite <- (set_pt_proc_id s) at 1. f_equal. apply list_eq. intros j.
      rewrite passed_lookup. destruct (pt_proc s !! j); done. }
  destruct Hruns as ([] & s' & Hok & ->). exact Hok.
Qed.

(** No entry of the final table has the exiting process as its parent. *)
Lemma passed_no_child cur init ps j y :
  init ≠ cur → passed cur init (length ps) ps !! j = Some y → p_parent y ≠ cur.
Proof.
  intros Hne Hy. rewrite passed_lookup in Hy. destruct (ps !! j) as [x|] eqn:Hx; [|done].
  cbn [fmap option_fmap option_map] in Hy. injection Hy as <-.
  rewrite (proj2 (Nat.ltb_lt j (length ps))) by (by eapply lookup_lt_Some).
  assert (Ha : p_parent (adopt cur init x) ≠ cur) by (unfold adopt; case_bool_decide; done).
  destruct (existsb _ _); [by rewrite wake_parent | done].
Qed.

Lemma wake_runnable ch x :
  p_state x = RUNNABLE ∨ (p_state x = SLEEPING ∧ p_chan x = ch) → p_state (wake ch x) = RUNNABLE.
Proof.
  unfold wake. intros [Hs|[Hs Hc]]; [|by rewrite !bool_decide_true].
  destruct (_ && _); done.
Qed.

Lemma adopt_fields cur init x :
  p_state (adopt cur init x) = p_state x ∧ p_chan (adopt cur init x) = p_chan x.
Proof. unfold adopt. by case_bool_decide. Qed.

(** A zombie child wakes [init] if it sleeps in [wait]. *)
Lemma passed_wakes_init cur ip ps x xi :
  ps !! ip = Some xi → p_state xi = RUNNABLE ∨ (p_state xi = SLEEPING ∧ p_chan xi = ChProc ip) →
  x ∈ ps → p_parent x = cur → p_state x = ZOMBIE →
  ∃ yi, passed cur (Some ip) (length ps) ps !! ip = Some yi ∧ p_state yi = RUNNABLE.
Proof.
  intros Hxi Hs Hin Hp Hz. rewrite passed_lookup, Hxi. cbn [fmap option_fmap option_map].
  eexists. split; [done|]. rewrite take_ge by done.
  assert (He : existsb (zombie_child cur) ps = true).
  { apply existsb_exists. exists x. split; [by apply list_elem_of_In|].
    unfold zombie_child. by rewrite !bool_decide_true. }
  rewrite He. apply wake_runnable. destruct (_ <? _)%nat; [|done].
  by destruct (adopt_fields cur (Some ip) xi) as [-> ->].
Qed.

(** The process part of [exit]: the exiting process is a zombie, no process has it
    as its parent any more (zombies included), and [init] is awake if it has a new
    zombie child. *)
Theorem exit_passes_children s i ip x xi :
  ptable_held s → length (pt_proc s) = NPROC → k_proc s = Some i → initproc s = Some ip → ip ≠ i →
  pt_proc s !! i = Some x → pt_proc s !! ip = Some xi →
  runs exit_locked s (λ _ s', ptable_held s' ∧
    (∃ y, pt_proc s' !! i = Some y ∧ p_state y = ZOMBIE) ∧
    (∀ j y, pt_proc s' !! j = Some y → j ≠ i → p_parent y ≠ Some i) ∧
    (∀ j y, pt_proc s !! j = Some y → p_parent y = Some i → p_state y = ZOMBIE →
      p_state xi = SLEEPING → p_chan xi = ChProc ip →
      ∃ yi, pt_proc s' !! ip = Some yi ∧ p_state yi = RUNNABLE)).
Proof.
  intros Hh Hlen Hk Hip Hne Hx Hxi. apply runs_bind. eapply runs_ok; [reflexivity|].
  rewrite Hk. apply runs_bind. eapply runs_ok; [by apply pget_ok|].
  set (ch := chan_of_ptr (p_parent x)). apply runs_bind. eapply runs_ok; [by apply wakeup1_map|].
  set (ps := wake ch <$> pt_proc s).
  assert (Hl : length ps = NPROC) by (unfold ps; by rewrite length_fmap).
  apply runs_bind. eapply runs_ok; [by apply pass_children_ok|]. cbn [pt_proc initproc set_pt_proc].
  rewrite Hip, <- Hl. set (ps' := passed (Some i) (Some ip) (length ps) ps).
  destruct (lookup_lt_is_Some_2 ps' i) as [y Hy].
  { unfold ps'. rewrite length_passed, Hl, <- Hlen. by eapply lookup_lt_Some. }
  apply runs_bind. eapply runs_ok; [by apply pmod_ok|].
  assert (Hz : <[i := set_p_state ZOMBIE y]> ps' !! i = Some (set_p_state ZOMBIE y)).
  { apply list_lookup_insert_eq. by eapply lookup_lt_Some. }
  apply runs_bind. eapply runs_ok; [by eapply sched_enter_ok|]. apply runs_ret.
  cbn [pt_proc set_pt_proc]. split_and!; [exact Hh | by eexists | |].
  - intros j z Hz' Hji. rewrite list_lookup_insert_ne in Hz' by done.
    eapply passed_no_child; [|exact Hz']. congruence.
  - intros j z Hz1 Hp Hzz Hs Hc. rewrite list_lookup_insert_ne by done.
    apply (passed_wakes_init _ _ _ (wake ch z) (wake ch xi)).
    + unfold ps. by rewrite list_lookup_fmap, Hxi.
    + unfold wake. destruct (_ && _); auto.
    + unfold ps. apply list_elem_of_fmap_2. by eapply list_elem_of_lookup_2.
    + by rewrite wake_parent.
    + by apply wake_zombie.
Qed.
End ExitTable.

(** *** [kill] and [wait] *)
Section FindTable.
Context {E : Type} `{!Services E}.
Implicit Types (s : kst E).

Lemma kfind_seq (test : proc → bool) s n : ∀ k,
  (k + n)%nat = length (pt_proc s) →
  kfind (seq k n) (fun p => x ← pget (Some p); mret (if test x then Some p else None)) s =
    Ok ((λ ix : nat * proc, (k + ix.1)%nat) <$> list_find test (drop k (pt_proc s)), s).
Proof.
  induction n as [|n IH]; intros k Hk.
  - rewrite drop_ge by lia. done.
  - destruct (lookup_lt_is_Some_2 (pt_proc s) k) as [x Hx]; [lia|]. cbn [seq kfind].
    rewrite (drop_S _ _ _ Hx). cbn [list_find].
    assert (Hb : (x ← pget (Some k); mret (if test x then Some k else None)) s =
      Ok (if test x then Some k else None, s)) by (by rewrite (K_bind_ok _ _ _ _ _ (pget_ok _ _ _ Hx))).
    rewrite (K_bind_ok _ _ _ _ _ Hb). destruct (test x) eqn:Et.
    + rewrite decide_True by done. cbn. by rewrite Nat.add_0_r.
    + rewrite decide_False by (rewrite ?Et; tauto). rewrite (IH (S k)) by lia.
      destruct (list_find _ _) as [[j y]|]; [|done]. cbn. do 3 f_equal. lia.
Qed.

Lemma find_proc_ok test s :
  length (pt_proc s) = NPROC → find_proc test s = Ok (fst <$> list_find test (pt_proc s), s).
Proof.
  intros Hlen. unfold find_proc. rewrite kfind_seq by lia.
  change (drop 0 (pt_proc s)) with (pt_proc s).
  destruct (list_find (λ x, test x) (pt_proc s)) as [[j y]|]; reflexivity.
Qed.

(** [kill] marks the first process with the pid and makes it runnable if it
    sleeps; it fails only when there is none. *)
Theorem kill_table pid s :
  unlocked s → length (pt_proc s) = NPROC →
  runs (kill pid) s (λ res s', unlocked s' ∧
    match list_find (λ x, p_pid x =? u32 pid) (pt_proc s) with
    | Some (i, x) => res = 0 ∧ pt_proc s' = <[i := kill_entry x]> (pt_proc s)
    | None => res = -1 ∧ pt_proc s' = pt_proc s
    end).
Proof.
  intros Hu Hlen. apply runs_bind, runs_acquire_ptable; [done|]. intros c lk Hh.
  apply runs_bind. eapply runs_ok; [by apply find_proc_ok|]. cbn [pt_proc set_k_cpu set_pt_lock].
  destruct (list_find _ _) as [[i x]|] eqn:Ef; cbn [fmap option_fmap option_map fst].
  - apply list_find_Some in Ef as (Hx & _ & _).
    apply runs_bind. eapply runs_ok; [by apply pmod_ok|].
    assert (Hx' : <[i := set_p_killed true x]> (pt_proc s) !! i = Some (set_p_killed true x)).
    { apply list_lookup_insert_eq. by eapply lookup_lt_Some. }
    apply runs_bind. eapply runs_ok; [by apply pget_ok|]. apply runs_bind.
    unfold kill_entry. case_bool_decide.
    + eapply runs_ok; [by apply pmod_ok|]. apply runs_bind, runs_release_ptable; [exact Hh|].
      intros c' lk' Hu'. apply runs_ret. split_and!; [done..|]. cbn. by rewrite list_insert_insert_eq.
    + apply runs_ret, runs_bind, runs_release_ptable; [exact Hh|].
      intros c' lk' Hu'. by apply runs_ret.
  - apply runs_bind, runs_release_ptable; [exact Hh|]. intros c' lk' Hu'. by apply runs_ret.
Qed.
End FindTable.
