(* ===== verification/ProcTableFair.v ===== *)
(** * Fairness of the scheduler by table scan

    The scheduler of [ProcTable] gives the CPU, in every pass, to each process that is runnable
    when the pass starts, unless another CPU does so meanwhile.  [swtch p] stands for what runs
    from the switch to [p] until a process switches back, on this CPU and on the others, whose
    schedulers can take the lock while [p] runs; [ran e p] is any property of the environment
    that the run of [p] on some CPU establishes and nothing undoes, so it can say that [p] got
    a CPU.

    That a process gives the CPU back is an assumption: the clock interrupt makes it yield. *)

From S2P Require Import Prelude Param Spinlock ProcData ProcServices ProcCommon ProcTable.
From S2P Require Import ProcMLFQ ProcMLFQLife ProcCheck ProcWitness.
Local Open Scope Z_scope.

(** ** Definitions *)

Section Fair.
Context {E : Type} `{!Services E}.
Implicit Types (s : kst E).

Definition runnable s (p : nat) : Prop := ∃ x, pt_proc s !! p = Some x ∧ p_state x = RUNNABLE.

(** The table while the scheduler looks at it: a runnable process has a page table. *)
Definition scanning s : Prop :=
  ptable_held s ∧ length (pt_proc s) = NPROC ∧
  ∀ p x, pt_proc s !! p = Some x → p_state x = RUNNABLE → p_pgdir x ≠ 0.

Variable ran : E → nat → Prop.
Definition kept_running (e e' : E) : Prop := ∀ p, ran e p → ran e' p.

(** [switchuvm] panics only without a page table; [switchkvm] loads a register. *)
Hypothesis switchuvm_ok : ∀ x e, p_pgdir x ≠ 0 → ∃ e', svc_switchuvm x e = Ok (tt, e') ∧ kept_running e e'.
Hypothesis switchkvm_ok : ∀ e, ∃ e', svc_switchkvm e = Ok (tt, e') ∧ kept_running e e'.

(** A process that gets the CPU gives it back with [ptable.lock] held.  Meanwhile a runnable
    process stays so until a scheduler, of another CPU, runs it, and a process becomes runnable
    only with a page table. *)
Variable swtch : nat → K (kst E) unit.
Hypothesis swtch_ok : ∀ p s,
  scanning s → k_proc s = Some p → (p < NPROC)%nat →
  runs (swtch p) s (λ _ s',
    scanning s' ∧ k_proc s' = Some p ∧ ran (k_env s') p ∧ kept_running (k_env s) (k_env s') ∧
    ∀ q, q ≠ p → runnable s q → runnable s' q ∨ ran (k_env s') q).

(** ** Lemmas *)

Lemma kept_trans e1 e2 e3 : kept_running e1 e2 → kept_running e2 e3 → kept_running e1 e3.
Proof. unfold kept_running. auto. Qed.

(** A change of one entry that is not runnable any more leaves the others as they are. *)
Lemma scanning_insert s p x y :
  scanning s → pt_proc s !! p = Some x → (p_state y = RUNNABLE → p_pgdir y ≠ 0) →
  scanning (set_pt_proc (<[p := y]> (pt_proc s)) s) ∧
  ∀ q, q ≠ p → runnable s q → runnable (set_pt_proc (<[p := y]> (pt_proc s)) s) q.
Proof.
  intros (Hh & Hl & Hd) Hx Hy. split; [split_and!; [exact Hh|cbn; by rewrite length_insert|]|].
  - intros q z. cbn. destruct (decide (q = p)) as [->|Hne].
    + rewrite list_lookup_insert_eq by (by eapply lookup_lt_Some). intros [= <-]. exact Hy.
    + rewrite list_lookup_insert_ne by done. apply Hd.
  - intros q Hne (z & Hz & Hs). exists z. split; [|done]. cbn. by rewrite list_lookup_insert_ne.
Qed.

(** Up to [swtch]: the process is current and running, the other runnable ones still are. *)
Lemma sched_pick_fair p s x (Q : unit → kst E → Prop) :
  scanning s → pt_proc s !! p = Some x → p_state x = RUNNABLE →
  (∀ s', scanning s' → k_proc s' = Some p → kept_running (k_env s) (k_env s') →
     (∀ q, q ≠ p → runnable s q → runnable s' q) → Q tt s') →
  runs (ProcTable.sched_pick p) s Q.
Proof using switchuvm_ok.
  intros Hs Hx Hst HQ. pose proof Hs as (_ & _ & Hd). unfold ProcTable.sched_pick.
  apply runs_bind, runs_mod. apply runs_bind. eapply runs_ok; [by apply pget_ok|].
  destruct (switchuvm_ok x (k_env s) (Hd _ _ Hx Hst)) as (e & He & Hk).
  apply runs_bind, runs_lift. eapply runs_ok; [exact He|].
  apply runs_bind. eapply runs_ok; [by apply pmod_ok|]. apply runs_bind, runs_get.
  set (s1 := set_k_env e (set_k_proc (Some p) s)). assert (Hs1 : scanning s1) by exact Hs.
  destruct (scanning_insert s1 p x (set_p_state RUNNING x) Hs1 Hx) as [H2 K2]; [done|].
  set (s2 := set_pt_proc _ s1) in *.
  assert (Hx2 : pt_proc s2 !! p = Some (set_p_state RUNNING x)).
  { cbn. apply list_lookup_insert_eq. by eapply lookup_lt_Some. }
  eapply runs_ok; [by apply (pmod_ok s2 p _ _ Hx2)|].
  destruct (scanning_insert s2 p _ (set_p_cpu_ticks_in (ticks s2) (set_p_state RUNNING x)) H2 Hx2) as [H3 K3]; [done|].
  apply HQ; [exact H3|done|exact Hk|]. intros q Hne Hq. apply K3; [done|]. by apply K2.
Qed.

Lemma sched_return_fair p s (Q : unit → kst E → Prop) :
  scanning s → k_proc s = Some p → (p < NPROC)%nat →
  (∀ s', scanning s' → kept_running (k_env s) (k_env s') → (∀ q, q ≠ p → runnable s q → runnable s' q) → Q tt s') →
  runs ProcTable.sched_return s Q.
Proof using switchkvm_ok.
  intros Hs Hp Hlt HQ. pose proof Hs as (_ & Hl & Hd). unfold ProcTable.sched_return. apply runs_bind, runs_get. rewrite Hp.
  destruct (lookup_lt_is_Some_2 (pt_proc s) p) as [x Hx]; [lia|].
  apply runs_bind. eapply runs_ok; [by apply pmod_ok|].
  match goal with |- context [<[p := ?y]> _] => destruct (scanning_insert s p x y Hs Hx) as [H2 K2]; [exact (Hd _ _ Hx)|] end.
  set (s2 := set_pt_proc _ s) in *. destruct (switchkvm_ok (k_env s2)) as (e & He & Hk).
  apply runs_bind, runs_lift. eapply runs_ok; [exact He|]. apply runs_mod. by apply HQ.
Qed.

Lemma sched_scan_fair l idle s :
  scanning s → (∀ p, p ∈ l → (p < NPROC)%nat) →
  runs (ProcTable.sched_scan swtch l idle) s (λ i s',
    scanning s' ∧ kept_running (k_env s) (k_env s') ∧ (∀ p, p ∈ l → runnable s p → ran (k_env s') p) ∧
    (i = true → idle = true ∧ ∀ p, p ∈ l → ¬ runnable s p)).
Proof using switchkvm_ok switchuvm_ok swtch_ok.
  revert idle s. induction l as [|p l IH]; intros idle s Hs Hl; cbn [ProcTable.sched_scan].
  { apply runs_ret. split_and!; [exact Hs|by intros p|by intros p ?%elem_of_nil|intros ->; split; [done|by intros p ?%elem_of_nil]]. }
  assert (Hp : (p < NPROC)%nat) by (apply Hl, elem_of_cons; by left).
  assert (Hl' : ∀ q, q ∈ l → (q < NPROC)%nat) by (intros q Hq; apply Hl, elem_of_cons; by right).
  destruct (lookup_lt_is_Some_2 (pt_proc s) p) as [x Hx]; [by rewrite (proj1 (proj2 Hs))|].
  apply runs_bind. eapply runs_ok; [by apply pget_ok|]. case_bool_decide as Hst.
  - eapply runs_mono; [by apply IH|]. intros i s' (H1 & H2 & H3 & H4).
    assert (Hn : ¬ runnable s p) by (intros (y & Hy & Hys); rewrite Hx in Hy; injection Hy as <-; done).
    split_and!; [done|done| |].
    + intros q [->|Hq]%elem_of_cons Hr; [done|by apply H3].
    + intros Hi. destruct (H4 Hi) as [-> H5]. split; [done|]. intros q [->|Hq]%elem_of_cons; [done|by apply H5].
  - apply runs_bind, (sched_pick_fair p s x); [done|done|by destruct (p_state x)|].
    intros s1 Hs1 Hp1 K1 R1. apply runs_bind. eapply runs_mono; [by apply swtch_ok|].
    intros [] s2 (Hs2 & Hp2 & Hran & K2 & R2). apply runs_bind, (sched_return_fair p); [done..|].
    intros s3 Hs3 K3 R3. eapply runs_mono; [by apply IH|]. intros i s' (H1 & H2 & H3 & H4).
    split_and!; [done|by eauto using kept_trans| |].
    + intros q Hq Hr. destruct (decide (q = p)) as [->|Hne]; [by apply H2, K3|].
      apply elem_of_cons in Hq as [->|Hq]; [done|].
      destruct (R2 q Hne (R1 q Hne Hr)) as [Hr2|Hr2]; [by apply H3, R3|by apply H2, K3].
    + intros Hi. by destruct (H4 Hi).
Qed.

(** ** Theorems *)

(** C16: the scheduler starves no process, also with several CPUs: a pass that starts with the lock
    free ends, each process that is runnable when it starts has then been run by this CPU or by
    another one, and the CPU is declared idle only if there was none; provided that a process
    that gets the CPU gives it back and that a runnable process stays so until a CPU runs it. *)
Theorem scheduler_fair s :
  unlocked s → length (pt_proc s) = NPROC →
  (∀ p x, pt_proc s !! p = Some x → p_state x = RUNNABLE → p_pgdir x ≠ 0) →
  runs (ProcTable.scheduler_pass swtch) s (λ idle s',
    unlocked s' ∧ (∀ p, runnable s p → ran (k_env s') p) ∧ (idle = true → ∀ p, ¬ runnable s p)).
Proof using switchkvm_ok switchuvm_ok swtch_ok.
  intros Hu Hl Hd. apply runs_bind, runs_mod. apply runs_bind, runs_acquire_ptable; [exact Hu|]. intros c lk Hh.
  set (s1 := set_k_cpu c _) in *. assert (Hs1 : scanning s1) by (split_and!; [exact Hh|exact Hl|exact Hd]).
  apply runs_bind. eapply runs_mono; [apply sched_scan_fair; [exact Hs1|intros p Hp%elem_of_seq; lia]|].
  intros idle s2 (Hs2 & _ & Hr & Hi). apply runs_bind, runs_release_ptable; [exact (proj1 Hs2)|]. intros c' lk' Hu'.
  assert (Hin : ∀ p, runnable s p → p ∈ seq 0 NPROC).
  { intros p (x & Hx & _). apply lookup_lt_Some in Hx. apply elem_of_seq. lia. }
  apply runs_bind. unfold kwhen. destruct idle; [apply runs_mod|apply runs_ret]; apply runs_ret.
  - split_and!; [exact Hu'|intros p Hp; apply (Hr p (Hin p Hp)), Hp|]. intros _ p Hp. exact (proj2 (Hi eq_refl) p (Hin p Hp) Hp).
  - split_and!; [exact Hu'|intros p Hp; apply (Hr p (Hin p Hp)), Hp|done].
Qed.
End Fair.

(** ** Witnesses *)

(** Each run sets a bit of the environment, and the process goes to sleep; while process 1
    runs, another CPU takes process 3. *)
Definition demo_ran (e : Z) (p : nat) : Prop := Z.testbit e (Z.of_nat p) = true.
Definition demo_mark (p : nat) : K (kst Z) unit :=
  kmod (fun s => set_k_env (Z.lor (k_env s) (Z.shiftl 1 (Z.of_nat p))) s).
Definition demo_swtch (p : nat) : K (kst Z) unit :=
  pmod (Some p) (set_p_state SLEEPING);;
  demo_mark p;;
  if decide (p = 1%nat) then pmod (Some 3%nat) (set_p_state RUNNING);; demo_mark 3 else mret tt.

(** Processes 1 and 3 are runnable. *)
Definition demo_table : kst Z :=
  let y := set_p_pgdir 4096 (set_p_state RUNNABLE zero_proc) in
  set_pt_proc (<[3%nat := y]> (<[1%nat := y]> (pt_proc boot))) (set_k_env 0 boot).

(** A process leaves the runnable ones and its bit is set. *)
Lemma demo_leaves st p s (Q : unit → kst Z → Prop) :
  scanning s → (p < NPROC)%nat → st ≠ RUNNABLE →
  (∀ s', scanning s' → k_proc s' = k_proc s → demo_ran (k_env s') p → kept_running demo_ran (k_env s) (k_env s') →
     (∀ q, q ≠ p → runnable s q → runnable s' q) → Q tt s') →
  runs (pmod (Some p) (set_p_state st);; demo_mark p) s Q.
Proof.
  intros Hs Hlt Hst HQ. destruct (lookup_lt_is_Some_2 (pt_proc s) p) as [x Hx]; [by rewrite (proj1 (proj2 Hs))|].
  apply runs_bind. eapply runs_ok; [by apply pmod_ok|]. apply runs_mod.
  destruct (scanning_insert s p x (set_p_state st x) Hs Hx) as [H1 H2]; [done|].
  apply HQ; [exact H1|done| | |exact H2]; unfold demo_ran, kept_running; cbn.
  - by rewrite Z.lor_spec, Z.shiftl_spec, Z.sub_diag, orb_true_r by lia.
  - intros q. rewrite Z.lor_spec. by intros ->.
Qed.

Lemma fair_swtch_ok p s :
  scanning s → k_proc s = Some p → (p < NPROC)%nat →
  runs (demo_swtch p) s (λ _ s',
    scanning s' ∧ k_proc s' = Some p ∧ demo_ran (k_env s') p ∧ kept_running demo_ran (k_env s) (k_env s') ∧
    ∀ q, q ≠ p → runnable s q → runnable s' q ∨ demo_ran (k_env s') q).
Proof.
  intros Hs Hp Hlt. unfold demo_swtch. apply runs_bind_assoc, runs_bind, demo_leaves; [done..|].
  intros s1 S1 P1 M1 K1 R1. case_decide.
  - apply demo_leaves; [done|unfold NPROC; lia|done|]. intros s2 S2 P2 M2 K2 R2.
    split_and!; [done|congruence|by apply K2|by eauto using kept_trans|]. intros q Hq Hr.
    destruct (decide (q = 3%nat)) as [->|Hne]; [by right|]. left. by apply R2, R1.
  - apply runs_ret. split_and!; [done|congruence|done|done|]. intros q Hq Hr. left. by apply R1.
Qed.

Lemma demo_table_ok p x : pt_proc demo_table !! p = Some x → p_state x = RUNNABLE → p_pgdir x ≠ 0.
Proof.
  intros Hx Hs. assert (Hb : forallb (λ x, negb (bool_decide (p_state x = RUNNABLE)) || negb (p_pgdir x =? 0))
    (pt_proc demo_table) = true) by (vm_compute; reflexivity).
  apply list_elem_of_lookup_2, list_elem_of_In in Hx. apply (proj1 (forallb_forall _ _) Hb) in Hx.
  rewrite bool_decide_true in Hx by done. cbn in Hx. by apply Z.eqb_neq, negb_true_iff.
Qed.

Lemma scheduler_fair_witness :
  runs (ProcTable.scheduler_pass demo_swtch) demo_table (λ idle s', demo_ran (k_env s') 1 ∧ demo_ran (k_env s') 3).
Proof.
  eapply runs_mono; [apply (scheduler_fair demo_ran)|].
  - intros x e Hx. exists e. split; [|by intros p]. cbn. by rewrite (proj2 (Z.eqb_neq _ _) Hx).
  - intros e. exists e. split; [done|by intros p].
  - exact fair_swtch_ok.
  - by split.
  - reflexivity.
  - exact demo_table_ok.
  - intros idle s' (_ & H & _). split; apply H; eexists; split; reflexivity.
Defined.
