(* ===== verification/ProcTableWitness.v ===== *)
(** * Sample runs of process management without state lists

    Concrete states for the theorems of [ProcTable], and the run in which the two
    configurations of [wakeup] differ. *)

From S2P Require Import Prelude Param Spinlock ProcData ProcServices ProcCommon.
From S2P Require Import ProcTable.
From S2P Require Import ProcMLFQ ProcMLFQLife ProcCheck ProcWitness.
Local Open Scope Z_scope.

(** ** Witnesses *)

Lemma wakeup_wakes_all_witness :
  ∃ a s', ProcTable.wakeup ChTicks (state_after demo_sleepers) = Ok (a, s').
Proof.
  destruct (wakeup_wakes_all ChTicks (state_after demo_sleepers)) as (a & s' & H & _);
    [by_eval..|eauto].
Defined.

Lemma kill_table_witness :
  ∃ a s', ProcTable.kill 2 (state_after demo_sleepers) = Ok (a, s').
Proof.
  destruct (kill_table 2 (state_after demo_sleepers)) as (a & s' & H & _); [by_eval..|eauto].
Defined.

Lemma exit_passes_children_witness :
  ∃ a s', ProcTable.exit_locked (state_after (demo_orphan;; acquire_ptable)) = Ok (a, s').
Proof.
  set (s := state_after (demo_orphan;; acquire_ptable)).
  destruct (exit_passes_children s 1 0 (nth 1 (pt_proc s) zero_proc) (nth 0 (pt_proc s) zero_proc))
    as (a & s' & H & _); [by_eval..|eauto].
Defined.
