(* ===== verification/Bio.v ===== *)
(** * The buffer cache and the memory disk

    Models src/bio.c, src/buf.h and the disk driver src/memide.c.  A buffer is
    named by its index in [bcache.buf]; the doubly linked list through [prev] and
    [next] is two functions on buffer pointers.  A block's data is a byte memory of
    addresses 0..511; the driver's disk is a block number indexed array of those,
    with the history of its writes, which the theorems on crashes use.

    [bread], [bwrite] and [brelse] run for one process: where [bget] would sleep
    for a busy buffer the definition is [Diverge].

    [cache_rep] relates the cache and the disk to the logical contents of every
    block (the cached copy if there is one), the blocks held by callers, the dirty
    blocks and the list order; each operation has a rule on that abstraction. *)

From S2P Require Import Prelude Param KString Spinlock.
Local Open Scope Z_scope.

(** ** Definitions *)

Definition BSIZE : Z := 512.

Definition B_BUSY : Z := 1.
Definition B_VALID : Z := 2.
Definition B_DIRTY : Z := 4.

(** [&bcache.head] or [&bcache.buf[i]]. *)
Inductive bptr := BHead | Bbuf (i : nat).

#[export] Instance bptr_eq_dec : EqDecision bptr.
Proof. solve_decision. Defined.

(** [struct buf] without the links. *)
Record buf := mkBuf {
  b_flags : Z;
  b_dev : Z;
  b_blockno : Z;
  b_data : mem
}.

Definition set_flags (f : Z) (b : buf) : buf := mkBuf f (b_dev b) (b_blockno b) (b_data b).
Definition set_dev (d : Z) (b : buf) : buf := mkBuf (b_flags b) d (b_blockno b) (b_data b).
Definition set_data (d : mem) (b : buf) : buf :=
  mkBuf (b_flags b) (b_dev b) (b_blockno b) d.

Record bcache := mkBcache {
  bc_lock : spinlock;
  bc_buf : list buf;
  bc_next : bptr → bptr;
  bc_prev : bptr → bptr
}.

(** The disk of src/memide.c: [disksize], the blocks of [memdisk], and the writes
    made so far, oldest first. *)
Record memdisk := mkMemdisk {
  disksize : Z;
  md_blocks : Z → mem;
  md_writes : list (Z * mem)
}.

(** The state of the cache, with the CPU it runs on and the buffers [wakeup] has been
    called on, oldest first. *)
Record bio := mkBio {
  bio_cpu : cpu;
  bio_cache : bcache;
  bio_disk : memdisk;
  bio_wakeups : list nat
}.

Definition set_bufs (l : list buf) (s : bio) : bio :=
  mkBio (bio_cpu s)
    (mkBcache (bc_lock (bio_cache s)) l (bc_next (bio_cache s)) (bc_prev (bio_cache s)))
    (bio_disk s) (bio_wakeups s).
Definition set_next (f : bptr → bptr) (s : bio) : bio :=
  mkBio (bio_cpu s)
    (mkBcache (bc_lock (bio_cache s)) (bc_buf (bio_cache s)) f (bc_prev (bio_cache s)))
    (bio_disk s) (bio_wakeups s).
Definition set_prev (f : bptr → bptr) (s : bio) : bio :=
  mkBio (bio_cpu s)
    (mkBcache (bc_lock (bio_cache s)) (bc_buf (bio_cache s)) (bc_next (bio_cache s)) f)
    (bio_disk s) (bio_wakeups s).
Definition set_disk (d : memdisk) (s : bio) : bio :=
  mkBio (bio_cpu s) (bio_cache s) d (bio_wakeups s).
Definition set_sync (c : cpu) (lk : spinlock) (s : bio) : bio :=
  mkBio c (mkBcache lk (bc_buf (bio_cache s)) (bc_next (bio_cache s)) (bc_prev (bio_cache s)))
    (bio_disk s) (bio_wakeups s).

(** *** Buffers *)

Definition buf_get (i : nat) : K bio buf := fun s =>
  match bc_buf (bio_cache s) !! i with
  | Some b => Ok (b, s)
  | None => Undef "buffer pointer"
  end.

Definition buf_mod (i : nat) (f : buf → buf) : K bio unit := fun s =>
  match bc_buf (bio_cache s) !! i with
  | Some b => Ok (tt, set_bufs (<[i := f b]> (bc_buf (bio_cache s))) s)
  | None => Undef "buffer pointer"
  end.

(** Is one of the bits [m] set in the flags? *)
Definition has (f m : Z) : bool := negb (Z.land f m =? 0).

Definition acquire_bcache : K bio unit := fun s =>
  '(c, lk) ← acquire (bio_cpu s) (bc_lock (bio_cache s));
  Ok (tt, set_sync c lk s).

Definition release_bcache : K bio unit := fun s =>
  '(c, lk) ← release (bio_cpu s) (bc_lock (bio_cache s));
  Ok (tt, set_sync c lk s).

(** [p->next = q] and [p->prev = q]. *)
Definition next_set (p q : bptr) : K bio unit :=
  kmod (fun s => set_next (<[p := q]> (bc_next (bio_cache s))) s).
Definition prev_set (p q : bptr) : K bio unit :=
  kmod (fun s => set_prev (<[p := q]> (bc_prev (bio_cache s))) s).
Definition next_of (p : bptr) : K bio bptr := s ← kget; mret (bc_next (bio_cache s) p).
Definition prev_of (p : bptr) : K bio bptr := s ← kget; mret (bc_prev (bio_cache s) p).

(** [wakeup(b)]. *)
Definition wakeup_buf (i : nat) : K bio unit :=
  kmod (fun s => mkBio (bio_cpu s) (bio_cache s) (bio_disk s) (bio_wakeups s ++ [i])).

(** *** src/memide.c *)

(** [ideinit]: the disk is the file system image linked into the kernel, of [size]
    bytes. *)
Definition ideinit (img : Z → mem) (size : Z) (s : bio) : bio :=
  set_disk (mkMemdisk (size / BSIZE) img (md_writes (bio_disk s))) s.

(** Write block [n]; read it. *)
Definition disk_write (n : Z) (d : mem) : K bio unit :=
  kmod (fun s => set_disk
    (mkMemdisk (disksize (bio_disk s)) (<[n := d]> (md_blocks (bio_disk s)))
       (md_writes (bio_disk s) ++ [(n, d)])) s).
Definition disk_read (n : Z) : K bio mem := s ← kget; mret (md_blocks (bio_disk s) n).

Definition iderw (i : nat) : K bio unit :=
  b ← buf_get i;
  if negb (has (b_flags b) B_BUSY) then kpanic "iderw: buf not busy"
  else if Z.land (b_flags b) (Z.lor B_VALID B_DIRTY) =? B_VALID
  then kpanic "iderw: nothing to do"
  else if negb (b_dev b =? 1) then kpanic "iderw: request not for disk 1"
  else
    s ← kget;
    if b_blockno b >=? disksize (bio_disk s) then kpanic "iderw: block out of range"
    else
      (if has (b_flags b) B_DIRTY then
         buf_mod i (set_flags (Z.land (b_flags b) (Z.lnot B_DIRTY)));;
         disk_write (b_blockno b) (b_data b)
       else
         d ← disk_read (b_blockno b);
         buf_mod i (set_data d));;
      b ← buf_get i;
      buf_mod i (set_flags (Z.lor (b_flags b) B_VALID)).

(** *** src/bio.c *)

(** [head.next->prev = b; head.next = b] after [b->next = head.next;
    b->prev = &head]: put [b] at the front of the list. *)
Definition push_front (i : nat) : K bio unit :=
  h ← next_of BHead;
  next_set (Bbuf i) h;;
  prev_set (Bbuf i) BHead;;
  h ← next_of BHead;
  prev_set h (Bbuf i);;
  next_set BHead (Bbuf i).

(** The zeroed memory [bcache] starts as. *)
Definition bcache0 : bcache :=
  mkBcache (initlock "bcache") (replicate NBUF (mkBuf 0 0 0 (fun _ => 0)))
    (fun _ => BHead) (fun _ => BHead).

Definition binit : K bio unit :=
  kmod (fun s => set_sync (bio_cpu s) (initlock "bcache") s);;
  prev_set BHead BHead;;
  next_set BHead BHead;;
  kiter (seq 0 NBUF) (fun i =>
    h ← next_of BHead;
    next_set (Bbuf i) h;;
    prev_set (Bbuf i) BHead;;
    buf_mod i (set_dev (u32 (-1)));;
    h ← next_of BHead;
    prev_set h (Bbuf i);;
    next_set BHead (Bbuf i)).

(** The two loops of [bget] look for the first buffer with a property, along [next]
    or along [prev]. *)
Fixpoint bfind (step : bptr → bptr) (bs : list buf) (P : buf → bool) (fuel : nat)
    (p : bptr) : outcome (option nat) :=
  match fuel with
  | O => Diverge
  | S fuel' =>
      match p with
      | BHead => Ok None
      | Bbuf i =>
          match bs !! i with
          | None => Undef "buffer pointer"
          | Some b => if P b then Ok (Some i) else bfind step bs P fuel' (step p)
          end
      end
  end.

Definition caches (dev blockno : Z) (b : buf) : bool :=
  (b_dev b =? dev) && (b_blockno b =? blockno).

Definition recyclable (b : buf) : bool :=
  negb (has (b_flags b) B_BUSY) && negb (has (b_flags b) B_DIRTY).

Definition bget (dev blockno : Z) : K bio nat :=
  acquire_bcache;;
  s ← kget;
  let c := bio_cache s in
  hit ← kout (bfind (bc_next c) (bc_buf c) (caches dev blockno) (S NBUF) (bc_next c BHead));
  match hit with
  | Some i =>
      b ← buf_get i;
      if negb (has (b_flags b) B_BUSY) then
        buf_mod i (set_flags (Z.lor (b_flags b) B_BUSY));;
        release_bcache;;
        mret i
      else kout Diverge
  | None =>
      victim ← kout (bfind (bc_prev c) (bc_buf c) recyclable (S NBUF) (bc_prev c BHead));
      match victim with
      | Some i =>
          buf_mod i (fun b => mkBuf B_BUSY dev blockno (b_data b));;
          release_bcache;;
          mret i
      | None => kpanic "bget: no buffers"
      end
  end.

Definition bread (dev blockno : Z) : K bio nat :=
  i ← bget dev blockno;
  b ← buf_get i;
  kwhen (negb (has (b_flags b) B_VALID)) (iderw i);;
  mret i.

Definition bwrite (i : nat) : K bio unit :=
  b ← buf_get i;
  if negb (has (b_flags b) B_BUSY) then kpanic "bwrite"
  else
    buf_mod i (set_flags (Z.lor (b_flags b) B_DIRTY));;
    iderw i.

Definition brelse (i : nat) : K bio unit :=
  b ← buf_get i;
  if negb (has (b_flags b) B_BUSY) then kpanic "brelse"
  else
    acquire_bcache;;
    n ← next_of (Bbuf i);
    p ← prev_of (Bbuf i);
    prev_set n p;;
    p ← prev_of (Bbuf i);
    n ← next_of (Bbuf i);
    next_set p n;;
    push_front i;;
    b ← buf_get i;
    buf_mod i (set_flags (Z.land (b_flags b) (Z.lnot B_BUSY)));;
    wakeup_buf i;;
    release_bcache.

(** *** Abstraction *)

(** [dseg nx pv x l y]: from [x] along [nx] the buffers [l] follow, then [y], and
    [pv] leads back the same way. *)
Fixpoint dseg (nx pv : bptr → bptr) (x : bptr) (l : list nat) (y : bptr) : Prop :=
  match l with
  | [] => nx x = y ∧ pv y = x
  | i :: l' => nx x = Bbuf i ∧ pv (Bbuf i) = x ∧ dseg nx pv (Bbuf i) l' y
  end.

(** The abstract view of the cache: the contents of every block as a reader sees
    them, the blocks on the disk, the writes so far, the blocks held by a caller with
    the buffer that holds them, the dirty blocks, the list from most to least
    recently used. *)
Record bview := mkBview {
  v_view : Z → mem;
  v_disk : Z → mem;
  v_size : Z;
  v_writes : list (Z * mem);
  v_held : gmap Z nat;
  v_dirty : gset Z;
  v_order : list nat
}.

(** No process is in a critical section of [bcache.lock]. *)
Definition quiet (s : bio) : Prop :=
  cpu_ok (bio_cpu s) ∧ locked (bc_lock (bio_cache s)) = 0.

(** What buffer [i] may contain. *)
Record buf_rep (v : bview) (i : nat) (b : buf) : Prop := {
  br_flags : 0 ≤ b_flags b < 8;
  br_dev : b_dev b = 1 ∨ b_dev b = u32 (-1) ∧ b_flags b = 0;
  br_busy : has (b_flags b) B_BUSY = true ↔ b_dev b = 1 ∧ v_held v !! b_blockno b = Some i;
  br_dirty : has (b_flags b) B_DIRTY = true ↔ b_dev b = 1 ∧ b_blockno b ∈ v_dirty v;
  br_valid : has (b_flags b) B_VALID = true → b_data b = v_view v (b_blockno b);
  br_used : has (b_flags b) B_BUSY = true ∨ has (b_flags b) B_DIRTY = true →
    has (b_flags b) B_VALID = true
}.

Record content_rep (v : bview) (s : bio) : Prop := {
  cr_links : dseg (bc_next (bio_cache s)) (bc_prev (bio_cache s)) BHead (v_order v) BHead;
  cr_order : v_order v ≡ₚ seq 0 NBUF;
  cr_len : length (bc_buf (bio_cache s)) = NBUF;
  cr_disk : ∀ n, md_blocks (bio_disk s) n = v_disk v n;
  cr_size : disksize (bio_disk s) = v_size v;
  cr_writes : md_writes (bio_disk s) = v_writes v;
  cr_buf : ∀ i b, bc_buf (bio_cache s) !! i = Some b → buf_rep v i b;
  cr_uniq : ∀ i j b c, bc_buf (bio_cache s) !! i = Some b → bc_buf (bio_cache s) !! j = Some c →
    b_dev b = 1 → b_dev c = 1 → b_blockno b = b_blockno c → i = j;
  cr_held : ∀ n i, v_held v !! n = Some i →
    ∃ b, bc_buf (bio_cache s) !! i = Some b ∧ b_dev b = 1 ∧ b_blockno b = n;
  cr_dirty : ∀ n, n ∈ v_dirty v →
    ∃ i b, bc_buf (bio_cache s) !! i = Some b ∧ b_dev b = 1 ∧ b_blockno b = n;
  cr_clean : ∀ n, n ∉ v_dirty v → v_held v !! n = None → v_view v n = v_disk v n
}.

Definition cache_rep (v : bview) (s : bio) : Prop := quiet s ∧ content_rep v s.

(** Two views that differ at block [n] only. *)
Definition same_off (n : Z) (v v' : bview) : Prop :=
  ∀ m, m ≠ n → v_view v' m = v_view v m ∧ v_disk v' m = v_disk v m ∧
    v_held v' !! m = v_held v !! m ∧ (m ∈ v_dirty v' ↔ m ∈ v_dirty v).

(** Field updates of the abstract view. *)
Definition v_set_held (h : gmap Z nat) (v : bview) : bview :=
  mkBview (v_view v) (v_disk v) (v_size v) (v_writes v) h (v_dirty v) (v_order v).
Definition v_set_dirty (d : gset Z) (v : bview) : bview :=
  mkBview (v_view v) (v_disk v) (v_size v) (v_writes v) (v_held v) d (v_order v).
Definition v_set_view (f : Z → mem) (v : bview) : bview :=
  mkBview f (v_disk v) (v_size v) (v_writes v) (v_held v) (v_dirty v) (v_order v).
Definition v_set_order (l : list nat) (v : bview) : bview :=
  mkBview (v_view v) (v_disk v) (v_size v) (v_writes v) (v_held v) (v_dirty v) l.
Definition v_write (n : Z) (d : mem) (v : bview) : bview :=
  mkBview (v_view v) (<[n := d]> (v_disk v)) (v_size v) (v_writes v ++ [(n, d)])
    (v_held v) (v_dirty v ∖ {[n]}) (v_order v).

(** A buffer can be had for block [n]: it is dirty, hence cached, or the blocks in use
    are fewer than the buffers. *)
Definition can_cache (n : Z) (v : bview) : Prop :=
  n ∈ v_dirty v ∨ (size (dom (v_held v) ∪ v_dirty v) < NBUF)%nat.

(** The buffer [bget] hands out for a block: the one that caches it, otherwise the
    least recently used one that is neither busy nor dirty. *)
Definition buf_test (P : buf → bool) (s : bio) (i : nat) : bool :=
  match bc_buf (bio_cache s) !! i with Some b => P b | None => false end.
Definition bget_choice (dev n : Z) (order : list nat) (s : bio) : option nat :=
  match List.find (buf_test (caches dev n) s) order with
  | Some i => Some i
  | None => List.find (buf_test recyclable s) (rev order)
  end.

(** ** Lemmas *)

(** *** The linked list *)

Lemma dseg_app nx pv x l1 i l2 y :
  dseg nx pv x (l1 ++ i :: l2) y ↔ dseg nx pv x l1 (Bbuf i) ∧ dseg nx pv (Bbuf i) l2 y.
Proof.
  revert x. induction l1 as [|j l1 IH]; intros x; cbn; [tauto|]. rewrite IH. tauto.
Qed.

Lemma dseg_frame nx pv nx' pv' x l y :
  dseg nx pv x l y →
  (∀ p, p = x ∨ (∃ i, i ∈ l ∧ p = Bbuf i) → nx' p = nx p) →
  (∀ p, p = y ∨ (∃ i, i ∈ l ∧ p = Bbuf i) → pv' p = pv p) →
  dseg nx' pv' x l y.
Proof.
  revert x. induction l as [|i l IH]; intros x H Hn Hp; cbn in *.
  - rewrite Hn, Hp by auto. done.
  - destruct H as (H1 & H2 & H3). rewrite Hn by auto.
    rewrite Hp by (right; exists i; split; [left | done]). split_and!; try done.
    apply IH; [done|..]; intros p Hq;
      [apply Hn | apply Hp]; set_solver.
Qed.

(** Case analysis on the updates of a function. *)
Ltac fn_case := unfold insert, fn_insert; repeat case_decide; simplify_eq; try done.

(** Let the last pointer of a segment lead to [q'] instead. *)
Lemma dseg_retarget nx pv x l q q' :
  dseg nx pv x l q → NoDup l → (∀ i, i ∈ l → x ≠ Bbuf i ∧ q' ≠ Bbuf i) →
  dseg (<[pv q := q']> nx) (<[q' := pv q]> pv) x l q'.
Proof.
  intros H Hnd Hl. destruct l as [|j l _] using rev_ind.
  - cbn in *. destruct H as [<- ->]. by rewrite !fn_lookup_insert.
  - apply dseg_app in H as [H1 [H2 H3]]. rewrite H3 in *.
    apply NoDup_app in Hnd as (Hnd & Hj & _).
    apply dseg_app. split; [|cbn; by rewrite !fn_lookup_insert].
    eapply dseg_frame; [exact H1|..]; intros p Hp; rewrite fn_lookup_insert_ne; [done|..];
      set_solver.
Qed.

Lemma dseg_unlink nx pv l1 i l2 :
  NoDup (l1 ++ i :: l2) → dseg nx pv BHead (l1 ++ i :: l2) BHead →
  dseg (<[pv (Bbuf i) := nx (Bbuf i)]> nx) (<[nx (Bbuf i) := pv (Bbuf i)]> pv)
    BHead (l1 ++ l2) BHead.
Proof.
  intros Hnd. rewrite dseg_app. intros [H1 H2].
  apply NoDup_app in Hnd as (Hnd1 & Hd & [Hi Hnd2]%NoDup_cons).
  assert (Hp : ∀ j, j ∈ l2 → pv (Bbuf i) ≠ Bbuf j).
  { destruct l1 as [|k l1 _] using rev_ind; [destruct H1 as [_ ->]; done|].
    apply dseg_app in H1 as [_ [_ ->]]. set_solver. }
  destruct l2 as [|k l2]; cbn in H2.
  - destruct H2 as [-> _]. rewrite app_nil_r. apply dseg_retarget; [done..|]. set_solver.
  - destruct H2 as (-> & _ & H2). apply dseg_app. split.
    + apply dseg_retarget; [done..|]. set_solver.
    + apply NoDup_cons in Hnd2 as [Hk _]. eapply dseg_frame; [exact H2|..];
        intros p Hq; rewrite fn_lookup_insert_ne; [done|..]; set_solver.
Qed.

Lemma dseg_push nx pv i l :
  NoDup (i :: l) → dseg nx pv BHead l BHead →
  dseg (<[BHead := Bbuf i]> (<[Bbuf i := nx BHead]> nx))
    (<[nx BHead := Bbuf i]> (<[Bbuf i := BHead]> pv)) BHead (i :: l) BHead.
Proof.
  intros [Hi Hnd]%NoDup_cons H. cbn. destruct l as [|j l]; cbn in *.
  - destruct H as [-> _]. fn_case.
  - apply NoDup_cons in Hnd as [Hjl _]. apply not_elem_of_cons in Hi as [Hj Hi].
    destruct H as (-> & _ & H). split_and!; [fn_case..|].
    eapply dseg_frame; [exact H|..]; intros p [->|(k & Hk & ->)]; fn_case.
Qed.

Lemma dseg_next_find nx pv bs P x l fuel :
  dseg nx pv x l BHead → (∀ i, i ∈ l → is_Some (bs !! i)) → (length l < fuel)%nat →
  bfind nx bs P fuel (nx x) =
    Ok (List.find (λ i, match bs !! i with Some b => P b | None => false end) l).
Proof.
  revert x fuel. induction l as [|i l IH]; intros x fuel H Hl Hf;
    (destruct fuel as [|fuel]; [cbn in Hf; lia|]); cbn in *.
  - by destruct H as [-> _].
  - destruct H as (-> & _ & H). destruct (Hl i) as [b Hb]; [left|]. rewrite Hb.
    destruct (P b); [done|]. apply IH; [done | | lia]. intros j Hj. apply Hl. by right.
Qed.

Lemma dseg_rev nx pv x l y : dseg nx pv x l y → dseg pv nx y (rev l) x.
Proof.
  revert x. induction l as [|i l IH]; intros x H; cbn in *; [tauto|].
  destruct H as (H1 & H2 & H3). apply dseg_app. split; [auto | done].
Qed.

(** *** Flags *)

Lemma flags_cases f (P : Z → Prop) :
  0 ≤ f < 8 → P 0 → P 1 → P 2 → P 3 → P 4 → P 5 → P 6 → P 7 → P f.
Proof.
  intros Hf. assert (f = 0 ∨ f = 1 ∨ f = 2 ∨ f = 3 ∨ f = 4 ∨ f = 5 ∨ f = 6 ∨ f = 7) as H by lia.
  by repeat destruct H as [->|H]; [..|rewrite H].
Qed.

(** Each flag operation changes one flag. *)
Lemma flags_ops f :
  0 ≤ f < 8 →
  (0 ≤ Z.lor f B_BUSY < 8 ∧ has (Z.lor f B_BUSY) B_BUSY = true ∧
     has (Z.lor f B_BUSY) B_VALID = has f B_VALID ∧
     has (Z.lor f B_BUSY) B_DIRTY = has f B_DIRTY) ∧
  (0 ≤ Z.lor f B_VALID < 8 ∧ has (Z.lor f B_VALID) B_VALID = true ∧
     has (Z.lor f B_VALID) B_BUSY = has f B_BUSY ∧
     has (Z.lor f B_VALID) B_DIRTY = has f B_DIRTY) ∧
  (0 ≤ Z.lor f B_DIRTY < 8 ∧ has (Z.lor f B_DIRTY) B_DIRTY = true ∧
     has (Z.lor f B_DIRTY) B_BUSY = has f B_BUSY ∧
     has (Z.lor f B_DIRTY) B_VALID = has f B_VALID) ∧
  (0 ≤ Z.land f (Z.lnot B_BUSY) < 8 ∧ has (Z.land f (Z.lnot B_BUSY)) B_BUSY = false ∧
     has (Z.land f (Z.lnot B_BUSY)) B_VALID = has f B_VALID ∧
     has (Z.land f (Z.lnot B_BUSY)) B_DIRTY = has f B_DIRTY) ∧
  (0 ≤ Z.land f (Z.lnot B_DIRTY) < 8 ∧ has (Z.land f (Z.lnot B_DIRTY)) B_DIRTY = false ∧
     has (Z.land f (Z.lnot B_DIRTY)) B_BUSY = has f B_BUSY ∧
     has (Z.land f (Z.lnot B_DIRTY)) B_VALID = has f B_VALID).
Proof. intros Hf. pattern f. apply flags_cases; [done|..]; vm_compute; done. Qed.

Lemma ide_nothing f :
  0 ≤ f < 8 →
  (Z.land f (Z.lor B_VALID B_DIRTY) =? B_VALID) = has f B_VALID && negb (has f B_DIRTY).
Proof. intros Hf. pattern f. apply flags_cases; done. Qed.

(** *** The lock *)

Lemma runs_acquire_bcache s (Q : unit → bio → Prop) :
  quiet s → (∀ c lk, taken c lk → Q tt (set_sync c lk s)) → runs acquire_bcache s Q.
Proof.
  intros [Hc Hl] HQ. destruct (acquire_taken _ _ Hc Hl) as (c' & lk' & E & Ht).
  eapply runs_ok; [unfold acquire_bcache; rewrite E; reflexivity | auto].
Qed.

Lemma runs_release_bcache s (Q : unit → bio → Prop) :
  taken (bio_cpu s) (bc_lock (bio_cache s)) →
  (∀ c lk, cpu_ok c → locked lk = 0 → Q tt (set_sync c lk s)) →
  runs release_bcache s Q.
Proof.
  intros Ht HQ. destruct (release_taken _ _ Ht) as (c' & lk' & E & Hc & Hl).
  eapply runs_ok; [unfold release_bcache; rewrite E; reflexivity | auto].
Qed.

Lemma runs_buf_get s i b (Q : buf → bio → Prop) :
  bc_buf (bio_cache s) !! i = Some b → Q b s → runs (buf_get i) s Q.
Proof. intros H HQ. eapply runs_ok; [unfold buf_get; by rewrite H | done]. Qed.

Lemma runs_buf_mod s i b f (Q : unit → bio → Prop) :
  bc_buf (bio_cache s) !! i = Some b →
  Q tt (set_bufs (<[i := f b]> (bc_buf (bio_cache s))) s) → runs (buf_mod i f) s Q.
Proof. intros H HQ. eapply runs_ok; [unfold buf_mod; by rewrite H | done]. Qed.

(** *** Updating one buffer *)

Lemma recyclable_spec b :
  recyclable b = true ↔ has (b_flags b) B_BUSY = false ∧ has (b_flags b) B_DIRTY = false.
Proof. unfold recyclable. by rewrite andb_true_iff, !negb_true_iff. Qed.

Lemma buf_rep_off v v' n i b :
  same_off n v v' → (b_dev b = 1 → b_blockno b ≠ n) → buf_rep v i b → buf_rep v' i b.
Proof.
  intros Hoff Hn [Hf Hd Hb Hdi Hv Hu].
  destruct Hd as [Hd|[Hd Hf0]].
  - destruct (Hoff (b_blockno b) (Hn Hd)) as (E1 & _ & E3 & E4).
    split; rewrite ?E1, ?E3, ?E4; auto.
  - assert (b_dev b ≠ 1) by (rewrite Hd; done).
    split; try done; [by right|..]; rewrite ?Hf0 in *; cbn; try (by intuition).
    all: split; [done | by intros []].
Qed.

Section Update.
Variables (v v' : bview) (s s' : bio) (i : nat) (b b' : buf) (n : Z).
Hypothesis Hrep : content_rep v s.
Hypothesis Hi : bc_buf (bio_cache s) !! i = Some b.
Hypothesis Hbufs : bc_buf (bio_cache s') = <[i := b']> (bc_buf (bio_cache s)).
Hypothesis Hnext : bc_next (bio_cache s') = bc_next (bio_cache s).
Hypothesis Hprev : bc_prev (bio_cache s') = bc_prev (bio_cache s).
Hypothesis Horder : v_order v' = v_order v.
Hypothesis Hdisk : ∀ m, md_blocks (bio_disk s') m = v_disk v' m.
Hypothesis Hsize : disksize (bio_disk s') = v_size v'.
Hypothesis Hwr : md_writes (bio_disk s') = v_writes v'.
Hypothesis Hdev : b_dev b' = 1.
Hypothesis Hblk : b_blockno b' = n.
Hypothesis Hold : b_dev b = 1 ∧ b_blockno b = n ∨
  recyclable b = true ∧
  ∀ j c, bc_buf (bio_cache s) !! j = Some c → b_dev c = 1 → b_blockno c ≠ n.
Hypothesis Hoff : same_off n v v'.
Hypothesis Hb' : buf_rep v' i b'.
Hypothesis Hheld : ∀ j, v_held v' !! n = Some j → j = i.
Hypothesis Hclean : n ∉ v_dirty v' → v_held v' !! n = None → v_view v' n = v_disk v' n.

(** No other buffer caches block [n]. *)
Lemma update_other j c :
  j ≠ i → bc_buf (bio_cache s) !! j = Some c → b_dev c = 1 → b_blockno c ≠ n.
Proof using Hrep Hi Hold.
  intros Hj Hc Hd Hn. destruct Hold as [[Hd0 Hn0]|[_ Hno]]; [|by eapply Hno].
  apply Hj. eapply (cr_uniq _ _ Hrep); eauto. congruence.
Qed.

(** A buffer that is in use for another block is not the one updated. *)
Lemma update_keep j c m :
  m ≠ n → bc_buf (bio_cache s) !! j = Some c → b_dev c = 1 → b_blockno c = m →
  v_held v !! m = Some j ∨ m ∈ v_dirty v → bc_buf (bio_cache s') !! j = Some c.
Proof using Hrep Hi Hold Hbufs.
  intros Hm Hc Hd Hn Huse. rewrite Hbufs. rewrite list_lookup_insert_ne; [done|].
  intros <-. rewrite Hi in Hc. injection Hc as <-.
  destruct Hold as [[_ Hn0]|[[H1 H2]%recyclable_spec _]]; [congruence|].
  destruct (cr_buf _ _ Hrep _ _ Hi) as [_ _ Hb Hdi _ _]. rewrite Hn in Hb, Hdi.
  destruct Huse; [rewrite (proj2 Hb) in H1 | rewrite (proj2 Hdi) in H2]; done.
Qed.

Lemma content_update : content_rep v' s'.
Proof using All.
  assert (Hlt : (i < length (bc_buf (bio_cache s)))%nat) by (by eapply lookup_lt_Some).
  assert (Hi' : bc_buf (bio_cache s') !! i = Some b')
    by (rewrite Hbufs; by apply list_lookup_insert_eq).
  split; rewrite ?Hnext, ?Hprev, ?Horder; try apply Hrep; try done.
  - rewrite Hbufs, length_insert. apply Hrep.
  - intros j c Hj. rewrite Hbufs in Hj.
    apply list_lookup_insert_Some in Hj as [(<- & <- & _)|[Hne Hj]]; [done|].
    eapply buf_rep_off; [exact Hoff | | by apply Hrep]. by eapply update_other.
  - intros j k c d Hj Hk Hc Hd Hn. rewrite Hbufs in Hj, Hk.
    apply list_lookup_insert_Some in Hj as [(<- & <- & _)|[Hnej Hj]];
      apply list_lookup_insert_Some in Hk as [(<- & <- & _)|[Hnek Hk]]; [done|..].
    + exfalso. eapply (update_other k d); eauto. congruence.
    + exfalso. eapply (update_other j c); eauto. congruence.
    + by eapply (cr_uniq _ _ Hrep).
  - intros m j Hm. destruct (decide (m = n)) as [->|Hne].
    + apply Hheld in Hm as ->. eauto.
    + destruct (Hoff m Hne) as (_ & _ & E & _). rewrite E in Hm.
      destruct (cr_held _ _ Hrep _ _ Hm) as (c & Hc & Hd & Hn).
      exists c. split_and!; [|done..]. eapply update_keep; eauto.
  - intros m Hm. destruct (decide (m = n)) as [->|Hne]; [eauto|].
    destruct (Hoff m Hne) as (_ & _ & _ & E). apply E in Hm.
    destruct (cr_dirty _ _ Hrep _ Hm) as (j & c & Hc & Hd & Hn).
    exists j, c. split_and!; [|done..]. eapply update_keep; eauto.
  - intros m Hm Hh. destruct (decide (m = n)) as [->|Hne]; [auto|].
    destruct (Hoff m Hne) as (E1 & E2 & E3 & E4). rewrite E1, E2. apply Hrep; [|congruence].
    tauto.
Qed.
End Update.

(** *** Finding a buffer *)

Lemma cr_lookup v s i :
  content_rep v s → i ∈ v_order v ↔ is_Some (bc_buf (bio_cache s) !! i).
Proof.
  intros H. rewrite (cr_order _ _ H), lookup_lt_is_Some, (cr_len _ _ H), elem_of_seq. lia.
Qed.

Lemma cr_find v s P :
  content_rep v s →
  bfind (bc_next (bio_cache s)) (bc_buf (bio_cache s)) P (S NBUF) (bc_next (bio_cache s) BHead) =
    Ok (List.find (buf_test P s) (v_order v)) ∧
  bfind (bc_prev (bio_cache s)) (bc_buf (bio_cache s)) P (S NBUF) (bc_prev (bio_cache s) BHead) =
    Ok (List.find (buf_test P s) (rev (v_order v))).
Proof.
  intros H. assert (Hlen : length (v_order v) = NBUF).
  { rewrite (cr_order _ _ H). apply length_seq. }
  pose proof (cr_links _ _ H) as Hl. split.
  - eapply dseg_next_find; [exact Hl | | lia]. intros i. by apply cr_lookup.
  - eapply dseg_next_find; [by apply dseg_rev | | rewrite length_rev; lia].
    intros i Hi. apply (cr_lookup v s i H). by apply elem_of_rev.
Qed.

Lemma find_test_some P s l i :
  List.find (buf_test P s) l = Some i →
  ∃ b, bc_buf (bio_cache s) !! i = Some b ∧ P b = true.
Proof.
  intros [_ H]%List.find_some. unfold buf_test in H.
  destruct (_ !! i) as [b|] eqn:E; [eauto | done].
Qed.

Lemma find_test_none P s l :
  List.find (buf_test P s) l = None →
  ∀ i b, i ∈ l → bc_buf (bio_cache s) !! i = Some b → P b = false.
Proof.
  intros H i b Hi Hb. pose proof (List.find_none _ _ H i ltac:(by apply list_elem_of_In)) as E.
  unfold buf_test in E. by rewrite Hb in E.
Qed.

Lemma caches_spec dev n b : caches dev n b = true ↔ b_dev b = dev ∧ b_blockno b = n.
Proof. unfold caches. by rewrite andb_true_iff, !Z.eqb_eq. Qed.

(** The blocks held and the dirty blocks occupy distinct buffers, so while they are
    fewer than the buffers one can be recycled. *)
Lemma victim_exists v s :
  content_rep v s → (size (dom (v_held v) ∪ v_dirty v) < NBUF)%nat →
  List.find (buf_test recyclable s) (rev (v_order v)) ≠ None.
Proof.
  intros H Hsz Hf. set (bs := bc_buf (bio_cache s)).
  assert (Huse : ∀ i b, bs !! i = Some b →
    b_dev b = 1 ∧ b_blockno b ∈ dom (v_held v) ∪ v_dirty v).
  { intros i b Hb. assert (Hr : recyclable b = false).
    { eapply find_test_none; [done | | done]. apply elem_of_rev. apply (cr_lookup v s i H). by exists b. }
    destruct (cr_buf _ _ H _ _ Hb) as [_ _ Hbu Hdi _ _]. unfold recyclable in Hr.
    apply andb_false_iff in Hr as [Hr|Hr]; apply negb_false_iff in Hr.
    - apply Hbu in Hr as [? ?]. split; [done|]. apply elem_of_union_l, elem_of_dom. eauto.
    - apply Hdi in Hr as [? ?]. split; [done|]. by apply elem_of_union_r. }
  assert (Hnd : NoDup (b_blockno <$> bs)).
  { apply NoDup_alt. intros i j n. rewrite !list_lookup_fmap, !fmap_Some.
    intros (b & Hb & ->) (c & Hc & Hn). eapply (cr_uniq _ _ H); eauto; by eapply Huse. }
  assert (Hsub : list_to_set (b_blockno <$> bs) ⊆ dom (v_held v) ∪ v_dirty v).
  { intros n. rewrite elem_of_list_to_set, list_elem_of_fmap.
    intros (b & -> & [i Hb]%list_elem_of_lookup). by eapply Huse. }
  apply subseteq_size in Hsub. rewrite size_list_to_set, length_fmap in Hsub by done.
  unfold bs in Hsub. rewrite (cr_len _ _ H) in Hsub. lia.
Qed.

(** *** The driver *)

Lemma iderw_read s i b (Q : unit → bio → Prop) :
  bc_buf (bio_cache s) !! i = Some b → 0 ≤ b_flags b < 8 →
  has (b_flags b) B_BUSY = true → has (b_flags b) B_VALID = false →
  has (b_flags b) B_DIRTY = false → b_dev b = 1 → b_blockno b < disksize (bio_disk s) →
  Q tt (set_bufs (<[i := mkBuf (Z.lor (b_flags b) B_VALID) 1 (b_blockno b)
    (md_blocks (bio_disk s) (b_blockno b))]> (bc_buf (bio_cache s))) s) →
  runs (iderw i) s Q.
Proof.
  intros Hi Hf Hb Hv Hd Hdev Hn HQ. pose proof (lookup_lt_Some _ _ _ Hi) as Hlt.
  apply runs_bind, (runs_buf_get _ _ _ _ Hi). rewrite Hb, ide_nothing, Hv, Hdev by done. cbn [negb andb].
  apply runs_bind, runs_get. rewrite Z.geb_leb. destruct (Z.leb_spec (disksize (bio_disk s)) (b_blockno b)); [lia|].
  rewrite Hd. apply runs_bind, runs_bind, runs_bind, runs_get, runs_ret.
  apply (runs_buf_mod _ _ _ _ _ Hi).
  apply runs_bind. eapply runs_buf_get; [cbn; by apply list_lookup_insert_eq|].
  eapply runs_buf_mod; [cbn; by apply list_lookup_insert_eq|].
  rewrite <- Hdev in HQ. cbn. rewrite list_insert_insert_eq. exact HQ.
Qed.

Lemma iderw_write s i b (Q : unit → bio → Prop) :
  bc_buf (bio_cache s) !! i = Some b → 0 ≤ b_flags b < 8 →
  has (b_flags b) B_BUSY = true → has (b_flags b) B_DIRTY = true →
  b_dev b = 1 → b_blockno b < disksize (bio_disk s) →
  Q tt (set_disk (mkMemdisk (disksize (bio_disk s))
      (<[b_blockno b := b_data b]> (md_blocks (bio_disk s)))
      (md_writes (bio_disk s) ++ [(b_blockno b, b_data b)]))
    (set_bufs (<[i := set_flags (Z.lor (Z.land (b_flags b) (Z.lnot B_DIRTY)) B_VALID) b]>
       (bc_buf (bio_cache s))) s)) →
  runs (iderw i) s Q.
Proof.
  intros Hi Hf Hb Hd Hdev Hn HQ. pose proof (lookup_lt_Some _ _ _ Hi) as Hlt.
  apply runs_bind, (runs_buf_get _ _ _ _ Hi).
  rewrite Hb, ide_nothing, Hd, Hdev, andb_false_r by done. cbn [negb].
  apply runs_bind, runs_get. rewrite Z.geb_leb. destruct (Z.leb_spec (disksize (bio_disk s)) (b_blockno b)); [lia|].
  apply runs_bind, runs_bind, (runs_buf_mod _ _ _ _ _ Hi). apply runs_mod.
  apply runs_bind. eapply runs_buf_get; [cbn; by apply list_lookup_insert_eq|].
  eapply runs_buf_mod; [cbn; by apply list_lookup_insert_eq|].
  cbn. by rewrite list_insert_insert_eq.
Qed.

(** *** [bget] *)

(** What [bget] does to the chosen buffer. *)
Definition handed_out (n : Z) (s : bio) (b b' : buf) : Prop :=
  b_dev b = 1 ∧ b_blockno b = n ∧ b' = set_flags (Z.lor (b_flags b) B_BUSY) b ∨
  (∀ j c, bc_buf (bio_cache s) !! j = Some c → b_dev c = 1 → b_blockno c ≠ n) ∧
  recyclable b = true ∧ b' = mkBuf B_BUSY 1 n (b_data b).

Lemma bget_rule v s n (Q : nat → bio → Prop) :
  cache_rep v s → v_held v !! n = None → can_cache n v →
  (∀ i b b' c lk, bget_choice 1 n (v_order v) s = Some i → bc_buf (bio_cache s) !! i = Some b →
     handed_out n s b b' → cpu_ok c → locked lk = 0 →
     Q i (set_sync c lk (set_bufs (<[i := b']> (bc_buf (bio_cache s))) s))) →
  runs (bget 1 n) s Q.
Proof.
  intros [Hq H] Hn Hsz HQ.
  apply runs_bind, runs_acquire_bcache; [done|]. intros c lk Ht.
  apply runs_bind, runs_get. cbn [set_sync bio_cache bc_next bc_prev bc_buf].
  destruct (cr_find v s (caches 1 n) H) as [-> _].
  destruct (cr_find v s recyclable H) as [_ Hv].
  apply runs_bind, runs_out. unfold bget_choice in HQ.
  destruct (List.find _ _) as [i|] eqn:Ef.
  - destruct (find_test_some _ _ _ _ Ef) as (b & Hb & [Hd Hbn]%caches_spec).
    destruct (cr_buf _ _ H _ _ Hb) as [_ _ Hbu _ _ _].
    apply runs_bind. eapply runs_buf_get; [exact Hb|].
    destruct (has (b_flags b) B_BUSY) eqn:Hbusy.
    { destruct (proj1 Hbu) as [_ E]; [done|]. rewrite Hbn in E. congruence. }
    apply runs_bind. eapply runs_buf_mod; [exact Hb|].
    apply runs_bind, runs_release_bcache; [done|]. intros c' lk' Hc' Hl'.
    apply runs_ret. eapply (HQ i b); eauto. by left.
  - rewrite Hv. apply runs_bind, runs_out.
    assert (Hno : ∀ j d, bc_buf (bio_cache s) !! j = Some d → b_dev d = 1 → b_blockno d ≠ n).
    { intros j d Hj Hd Hdn.
      assert (caches 1 n d = false) as E.
      { eapply find_test_none; [exact Ef | | exact Hj]. apply (cr_lookup v s j H). eauto. }
      by rewrite (proj2 (caches_spec 1 n d)) in E. }
    destruct (List.find _ (rev _)) as [i|] eqn:Ev.
    2:{ destruct Hsz as [(j & d & Hj & Hd & Hdn)%(cr_dirty _ _ H)|Hsz].
        - by destruct (Hno j d).
        - by destruct (victim_exists v s H Hsz). }
    destruct (find_test_some _ _ _ _ Ev) as (b & Hb & Hr).
    apply runs_bind. eapply runs_buf_mod; [exact Hb|].
    apply runs_bind, runs_release_bcache; [done|]. intros c' lk' Hc' Hl'.
    apply runs_ret. eapply (HQ i b); eauto. by right.
Qed.

(** *** The operations on the abstract view *)

Lemma same_off_held n v h : (∀ m, m ≠ n → h !! m = v_held v !! m) → same_off n v (v_set_held h v).
Proof. intros H m Hm. by rewrite <- H. Qed.

(** The buffer [bget] hands out, once its data is in place. *)
Lemma handed_out_rep v s s' n i b b' b'' :
  content_rep v s → v_held v !! n = None → bc_buf (bio_cache s) !! i = Some b →
  handed_out n s b b' →
  b'' = b' ∧ has (b_flags b') B_VALID = true ∨
  b'' = mkBuf (Z.lor (b_flags b') B_VALID) 1 n (v_disk v n) ∧ has (b_flags b') B_VALID = false →
  s' = set_bufs (<[i := b'']> (bc_buf (bio_cache s))) s →
  content_rep (v_set_held (<[n := i]> (v_held v)) v) s'.
Proof.
  intros H Hn Hi Hout Hdata ->. pose proof (cr_buf _ _ H _ _ Hi) as [Hf Hd Hb Hdi Hv Hu].
  assert (Hb' : 0 ≤ b_flags b' < 8 ∧ b_dev b' = 1 ∧ b_blockno b' = n ∧
    has (b_flags b') B_BUSY = true ∧
    (has (b_flags b') B_DIRTY = true ↔ n ∈ v_dirty v) ∧
    (has (b_flags b') B_VALID = true → b_data b' = v_view v n) ∧
    (has (b_flags b') B_VALID = false → n ∉ v_dirty v)).
  { destruct Hout as [(Hd1 & Hbn & ->)|(Hno & _ & ->)]; cbn.
    - destruct (flags_ops (b_flags b) Hf) as ((F1 & F2 & F3 & F4) & _).
      rewrite F2, F3, F4, Hdi, <- Hbn. split_and!; try done; try lia; [tauto|].
      intros Hnv Hin. rewrite Hu in Hnv; [done|]. right. by apply Hdi.
    - assert (n ∉ v_dirty v).
      { intros (j & c & Hc & Hcd & Hcn)%(cr_dirty _ _ H). by eapply Hno. }
      split_and!; done. }
  destruct Hb' as (F0 & Hdev & Hbn & Fb & Fd & Fv & Fi).
  assert (buf_rep (v_set_held (<[n := i]> (v_held v)) v) i b'' ∧
    b_dev b'' = 1 ∧ b_blockno b'' = n) as (Hb2 & Hdev2 & Hbn2).
  { destruct Hdata as [[-> E]|[-> E]].
    - split_and!; [split; rewrite ?Hbn | done..]; cbn; rewrite ?lookup_insert_eq; auto; try tauto.
    - destruct (flags_ops (b_flags b') F0) as (_ & (G1 & G2 & G3 & G4) & _).
      split_and!; [|done..]. split; cbn; rewrite ?lookup_insert_eq, ?G2, ?G3, ?G4; auto.
      + tauto.
      + rewrite Fd. tauto.
      + intros _. symmetry. apply (cr_clean _ _ H); auto. }
  eapply (content_update v _ s _ i b b'' n); eauto; try (by apply H); try done.
  - destruct Hout as [(? & ? & _)|(? & ? & _)]; auto.
  - apply same_off_held. intros m Hm. by rewrite lookup_insert_ne.
  - intros j. cbn. rewrite lookup_insert_eq. congruence.
  - cbn. by rewrite lookup_insert_eq.
Qed.

Lemma content_sync v c lk s : content_rep v s → content_rep v (set_sync c lk s).
Proof. intros []. by split. Qed.

Lemma bread_rule v s n (Q : nat → bio → Prop) :
  cache_rep v s → v_held v !! n = None → can_cache n v →
  n < v_size v →
  (∀ i s', bget_choice 1 n (v_order v) s = Some i →
     cache_rep (v_set_held (<[n := i]> (v_held v)) v) s' → Q i s') →
  runs (bread 1 n) s Q.
Proof.
  intros [Hq H] Hn Hsz Hlt HQ. apply runs_bind, (bget_rule v); [done..|].
  intros i b b' c lk Hch Hb Hout Hc Hl. pose proof (lookup_lt_Some _ _ _ Hb) as Hib.
  apply runs_bind. eapply runs_buf_get; [by apply list_lookup_insert_eq|].
  destruct (has (b_flags b') B_VALID) eqn:Hv; cbn [negb kwhen].
  - apply runs_bind, runs_ret, runs_ret, HQ; [done|]. split; [by split|].
    apply content_sync. eapply handed_out_rep; eauto.
  - destruct (cr_buf _ _ H _ _ Hb) as [Hf _ _ _ _ Hu].
    assert (0 ≤ b_flags b' < 8 ∧ has (b_flags b') B_BUSY = true ∧
      has (b_flags b') B_DIRTY = false ∧ b_dev b' = 1 ∧ b_blockno b' = n)
      as (F0 & F1 & F2 & F3 & F4).
    { destruct Hout as [(? & ? & ->)|(_ & _ & ->)]; [|done]; cbn in *.
      destruct (flags_ops (b_flags b) Hf) as ((G1 & G2 & G3 & G4) & _).
      rewrite G3 in Hv. rewrite G2, G4. split_and!; try done; try lia.
      apply not_true_iff_false. intros E. rewrite Hu in Hv; [done | auto]. }
    apply runs_bind. eapply iderw_read; [by apply list_lookup_insert_eq | done.. | |].
    { rewrite F4. cbn. by rewrite (cr_size _ _ H). }
    apply runs_ret, HQ; [done|]. split; [by split|].
    cbn. rewrite list_insert_insert_eq, F4, (cr_disk _ _ H).
    refine (content_sync _ c lk (set_bufs _ s) _). eapply handed_out_rep; eauto.
Qed.

Lemma held_buf v s n i :
  content_rep v s → v_held v !! n = Some i →
  ∃ b, bc_buf (bio_cache s) !! i = Some b ∧ b_dev b = 1 ∧ b_blockno b = n ∧
    b_data b = v_view v n ∧ 0 ≤ b_flags b < 8 ∧ has (b_flags b) B_BUSY = true ∧
    has (b_flags b) B_VALID = true ∧ (has (b_flags b) B_DIRTY = true ↔ n ∈ v_dirty v).
Proof.
  intros H Hn. destruct (cr_held _ _ H _ _ Hn) as (b & Hb & Hd & Hbn). exists b.
  destruct (cr_buf _ _ H _ _ Hb) as [Hf _ Hbu Hdi Hv Hu]. rewrite Hbn in *.
  assert (has (b_flags b) B_BUSY = true) by tauto.
  split_and!; try done; try lia; [by apply Hv; auto | by auto |]. tauto.
Qed.

(** The caller reads and changes the data of a buffer it holds. *)
Lemma held_data_rule v s n i (Q : buf → bio → Prop) :
  cache_rep v s → v_held v !! n = Some i →
  (∀ b, b_data b = v_view v n → b_blockno b = n → Q b s) → runs (buf_get i) s Q.
Proof.
  intros [_ H] Hn HQ. destruct (held_buf _ _ _ _ H Hn) as (b & Hb & _ & Hbn & Hd & _).
  eapply runs_buf_get; eauto.
Qed.

(** One step that changes a held buffer, keeping its block. *)
Lemma held_update v v' s s' n i b b' :
  content_rep v s → v_held v !! n = Some i → bc_buf (bio_cache s) !! i = Some b →
  bc_buf (bio_cache s') = <[i := b']> (bc_buf (bio_cache s)) →
  bc_next (bio_cache s') = bc_next (bio_cache s) →
  bc_prev (bio_cache s') = bc_prev (bio_cache s) →
  v_order v' = v_order v → (∀ m, md_blocks (bio_disk s') m = v_disk v' m) →
  disksize (bio_disk s') = v_size v' → md_writes (bio_disk s') = v_writes v' →
  b_dev b' = 1 → b_blockno b' = n → same_off n v v' → buf_rep v' i b' →
  (∀ j, v_held v' !! n = Some j → j = i) →
  (n ∉ v_dirty v' → v_held v' !! n = None → v_view v' n = v_disk v' n) →
  content_rep v' s'.
Proof.
  intros H Hn Hb. destruct (cr_held _ _ H _ _ Hn) as (b0 & Hb0 & Hd & Hbn).
  rewrite Hb in Hb0. injection Hb0 as <-. intros.
  eapply (content_update v v' s s' i b b' n); eauto.
Qed.

Lemma set_data_rule v s n i d (Q : unit → bio → Prop) :
  cache_rep v s → v_held v !! n = Some i →
  (∀ s', cache_rep (v_set_view (<[n := d]> (v_view v)) v) s' →
     bio_wakeups s' = bio_wakeups s → Q tt s') →
  runs (buf_mod i (set_data d)) s Q.
Proof.
  intros [Hq H] Hn HQ. destruct (held_buf _ _ _ _ H Hn) as (b & Hb & Hd & Hbn & _ & Hf & Hbu & Hv & Hdi).
  eapply runs_buf_mod; [exact Hb|]. apply HQ; [|done]. split; [done|].
  eapply (held_update v _ s _ n i b (set_data d b)); try done; try apply H.
  - intros m Hm. cbn. by rewrite fn_lookup_insert_ne.
  - split; cbn; rewrite ?Hbn; auto; [tauto..|]. intros _. by rewrite fn_lookup_insert.
  - cbn. intros j. congruence.
  - cbn. congruence.
Qed.

(** Marking a held block dirty, as [log_write] does. *)
Lemma set_dirty_rule v s n i (Q : unit → bio → Prop) :
  cache_rep v s → v_held v !! n = Some i →
  (∀ s', cache_rep (v_set_dirty (v_dirty v ∪ {[n]}) v) s' → bio_cpu s' = bio_cpu s → Q tt s') →
  runs (buf_mod i (λ b, set_flags (Z.lor (b_flags b) B_DIRTY) b)) s Q.
Proof.
  intros [Hq H] Hn HQ. destruct (held_buf _ _ _ _ H Hn) as (b & Hb & Hd & Hbn & Hda & Hf & Hbu & Hv & Hdi).
  destruct (flags_ops (b_flags b) Hf) as (_ & _ & (G1 & G2 & G3 & G4) & _).
  eapply runs_buf_mod; [exact Hb|]. apply HQ; [|done]. split; [done|].
  eapply (held_update v _ s _ n i b (set_flags (Z.lor (b_flags b) B_DIRTY) b)); try done; try apply H.
  - intros m Hm. cbn. set_solver.
  - split; cbn; rewrite ?Hbn, ?G2, ?G3, ?G4; auto; [tauto|]. set_solver.
  - cbn. intros j. congruence.
  - cbn. set_solver.
Qed.

Lemma bwrite_rule v s n i (Q : unit → bio → Prop) :
  cache_rep v s → v_held v !! n = Some i → n < v_size v →
  (∀ s', cache_rep (v_write n (v_view v n) v) s' → bio_wakeups s' = bio_wakeups s → Q tt s') →
  runs (bwrite i) s Q.
Proof.
  intros [Hq H] Hn Hlt HQ. destruct (held_buf _ _ _ _ H Hn) as (b & Hb & Hd & Hbn & Hda & Hf & Hbu & Hv & Hdi).
  pose proof (lookup_lt_Some _ _ _ Hb) as Hib.
  apply runs_bind. eapply runs_buf_get; [exact Hb|]. rewrite Hbu. cbn [negb].
  destruct (flags_ops (b_flags b) Hf) as (_ & _ & (G1 & G2 & G3 & G4) & _).
  apply runs_bind. eapply runs_buf_mod; [exact Hb|].
  eapply iderw_write; [by apply list_lookup_insert_eq | cbn; rewrite ?G3; try done..|].
  { rewrite Hbn, (cr_size _ _ H). done. }
  apply HQ; [|done]. split; [done|]. cbn. rewrite list_insert_insert_eq, Hbn.
  set (f := Z.lor (Z.land (Z.lor (b_flags b) B_DIRTY) (Z.lnot B_DIRTY)) B_VALID).
  destruct (flags_ops _ G1) as (_ & _ & _ & _ & (K1 & K2 & K3 & K4)).
  destruct (flags_ops _ K1) as (_ & (L1 & L2 & L3 & L4) & _). fold f in L1, L2, L3, L4.
  rewrite K2 in L4. rewrite K3, G3 in L3.
  eapply (held_update v _ s _ n i b (set_flags f b)); try done; try apply H.
  - cbn. rewrite Hda. intros m. unfold insert, fn_insert. case_decide; [done|]. apply H.
  - cbn. by rewrite (cr_writes _ _ H), Hda.
  - intros m Hm. cbn. rewrite fn_lookup_insert_ne by done. set_solver.
  - split; cbn; rewrite ?Hbn, ?L2, ?L3, ?L4; auto; [rewrite Hn; tauto|]. set_solver.
  - cbn. intros j. congruence.
  - cbn. congruence.
Qed.

Lemma content_links v s l nx pv :
  content_rep v s → dseg nx pv BHead l BHead → l ≡ₚ seq 0 NBUF →
  content_rep (v_set_order l v) (set_next nx (set_prev pv s)).
Proof. intros H Hd Hl. destruct H. split; try done. intros i b Hb. by destruct (cr_buf0 i b Hb). Qed.

(** The list with [i] moved to the front. *)
Definition mru (i : nat) (l : list nat) : list nat := i :: filter (λ j, j ≠ i) l.

Lemma filter_ne (i : nat) (l : list nat) : i ∉ l → filter (λ j, j ≠ i) l = l.
Proof.
  induction l as [|j l IH]; intros Hi; [done|].
  apply not_elem_of_cons in Hi as [Hj Hi]. rewrite filter_cons_True by auto. by rewrite IH.
Qed.

Lemma mru_split i l : i ∈ l → NoDup l → ∃ l1 l2, l = l1 ++ i :: l2 ∧ mru i l = i :: l1 ++ l2.
Proof.
  intros (l1 & l2 & ->)%list_elem_of_split Hnd. exists l1, l2. split; [done|].
  unfold mru. f_equal. apply NoDup_app in Hnd as (_ & H1 & [H2 _]%NoDup_cons).
  rewrite filter_app, filter_cons_False by auto.
  f_equal; apply filter_ne; set_solver.
Qed.

Lemma mru_links nx pv i l :
  i ∈ l → NoDup l → dseg nx pv BHead l BHead →
  let pv1 := <[nx (Bbuf i) := pv (Bbuf i)]> pv in
  let nx1 := <[pv1 (Bbuf i) := nx (Bbuf i)]> nx in
  dseg (<[BHead := Bbuf i]> (<[Bbuf i := nx1 BHead]> nx1))
    (<[nx1 BHead := Bbuf i]> (<[Bbuf i := BHead]> pv1)) BHead (mru i l) BHead ∧
  mru i l ≡ₚ l.
Proof.
  intros Hi Hnd Hd. destruct (mru_split i l Hi Hnd) as (l1 & l2 & -> & ->).
  assert (E : i :: l1 ++ l2 ≡ₚ l1 ++ i :: l2) by apply Permutation_middle.
  split; [|done].
  assert (Hne : nx (Bbuf i) ≠ Bbuf i).
  { apply dseg_app in Hd as [_ Hd]. apply NoDup_app in Hnd as (_ & _ & [Hn _]%NoDup_cons).
    destruct l2 as [|j l2]; cbn in Hd; [destruct Hd as [-> _]; done|].
    destruct Hd as [-> _]. set_solver. }
  rewrite (fn_lookup_insert_ne pv) by done.
  apply dseg_push; [by rewrite E|]. by apply dseg_unlink.
Qed.

Lemma brelse_rule v s n i (Q : unit → bio → Prop) :
  cache_rep v s → v_held v !! n = Some i →
  (n ∈ v_dirty v ∨ v_view v n = v_disk v n) →
  (∀ s', cache_rep (v_set_order (mru i (v_order v)) (v_set_held (delete n (v_held v)) v)) s' →
     bio_wakeups s' = bio_wakeups s ++ [i] → Q tt s') →
  runs (brelse i) s Q.
Proof.
  intros [Hq H] Hn Hcl HQ. destruct (held_buf _ _ _ _ H Hn) as (b & Hb & Hd & Hbn & Hda & Hf & Hbu & Hv & Hdi).
  destruct (flags_ops (b_flags b) Hf) as (_ & _ & _ & (G1 & G2 & G3 & G4) & _).
  assert (Hnd : NoDup (v_order v)) by (rewrite (cr_order _ _ H); apply NoDup_seq).
  destruct (mru_links _ _ i _ ltac:(apply (cr_lookup v s i H); eauto) Hnd (cr_links _ _ H)) as [Hl Hp].
  apply runs_bind. eapply runs_buf_get; [exact Hb|]. rewrite Hbu. cbn [negb].
  apply runs_bind, runs_acquire_bcache; [done|]. intros c lk Ht.
  do 2 apply runs_bind, runs_bind, runs_get, runs_ret. apply runs_bind, runs_mod.
  do 2 apply runs_bind, runs_bind, runs_get, runs_ret. apply runs_bind, runs_mod.
  apply runs_bind, runs_bind, runs_bind, runs_get, runs_ret.
  do 2 apply runs_bind, runs_mod. apply runs_bind, runs_bind, runs_get, runs_ret.
  apply runs_bind, runs_mod, runs_mod.
  apply runs_bind. eapply runs_buf_get; [exact Hb|].
  apply runs_bind. eapply runs_buf_mod; [exact Hb|].
  apply runs_bind, runs_mod. apply runs_release_bcache; [exact Ht|]. intros c' lk' Hc' Hl'.
  apply HQ; [|done]. split; [by split|].
  set (b' := set_flags (Z.land (b_flags b) (Z.lnot B_BUSY)) b).
  assert (H' : content_rep (v_set_held (delete n (v_held v)) v)
    (set_bufs (<[i := b']> (bc_buf (bio_cache s))) s)).
  { eapply (held_update v _ s _ n i b b'); try done; try apply H.
    - apply same_off_held. intros m Hm. by rewrite lookup_delete_ne.
    - split; cbn; rewrite ?Hbn, ?G2, ?G3, ?G4, ?lookup_delete_eq; auto; [|tauto].
      split; [done | by intros []].
    - cbn. intros j. by rewrite lookup_delete_eq.
    - cbn. tauto. }
  assert (Hp' : mru i (v_order v) ≡ₚ seq 0 NBUF) by (etrans; [exact Hp | apply H]).
  destruct (content_links _ _ _ _ _ H' Hl Hp'). by split.
Qed.

(** *** [binit] *)

(** After [k] rounds of its loop. *)
Record binit_inv (s0 : bio) (k : nat) (s : bio) : Prop := {
  bi_cpu : bio_cpu s = bio_cpu s0;
  bi_lock : locked (bc_lock (bio_cache s)) = 0;
  bi_disk : bio_disk s = bio_disk s0;
  bi_links : dseg (bc_next (bio_cache s)) (bc_prev (bio_cache s)) BHead (rev (seq 0 k)) BHead;
  bi_len : length (bc_buf (bio_cache s)) = NBUF;
  bi_bufs : ∀ i b, bc_buf (bio_cache s) !! i = Some b →
    b_flags b = 0 ∧ ((i < k)%nat → b_dev b = u32 (-1))
}.

Lemma binit_rule s (Q : unit → bio → Prop) :
  cpu_ok (bio_cpu s) → bc_buf (bio_cache s) = bc_buf bcache0 →
  (∀ s', cache_rep (mkBview (md_blocks (bio_disk s)) (md_blocks (bio_disk s))
     (disksize (bio_disk s)) (md_writes (bio_disk s)) ∅ ∅ (rev (seq 0 NBUF))) s' → Q tt s') →
  runs binit s Q.
Proof.
  intros Hc Hb HQ. apply runs_bind, runs_mod, runs_bind, runs_mod, runs_bind, runs_mod.
  apply (runs_kiter_seq _ (binit_inv s)).
  - intros k s1 Hk [I1 I2 I3 I4 I5 I6].
    destruct (lookup_lt_is_Some_2 (bc_buf (bio_cache s1)) k) as [b Hbk]; [lia|].
    apply runs_bind, runs_bind, runs_get, runs_ret. do 2 apply runs_bind, runs_mod.
    apply runs_bind. eapply runs_buf_mod; [exact Hbk|].
    apply runs_bind, runs_bind, runs_get, runs_ret. apply runs_bind, runs_mod, runs_mod.
    split; try done; cbn [bio_cache set_next set_prev set_bufs bc_next bc_prev bc_buf].
    + rewrite seq_S, rev_app_distr. cbn [rev app].
      rewrite (fn_lookup_insert_ne _ (Bbuf _)) by done. apply dseg_push; [|done].
      apply NoDup_cons. split.
      * rewrite elem_of_rev, elem_of_seq. lia.
      * rewrite <- (Permutation_rev). apply NoDup_seq.
    + by rewrite length_insert.
    + intros i c Hi. apply list_lookup_insert_Some in Hi as [(<- & <- & _)|[Hne Hi]].
      * cbn. split; [by apply (I6 k) | done].
      * destruct (I6 i c Hi). split; [done|]. intros. by apply H0; lia.
  - split; cbn; try done; rewrite Hb; [apply length_replicate|].
    intros i b [-> _]%lookup_replicate. cbn. split; [done | lia].
  - intros s' [I1 I2 I3 I4 I5 I6]. apply HQ. split; [split; congruence|].
    assert (Hdev : ∀ i b, bc_buf (bio_cache s') !! i = Some b → b_dev b = u32 (-1) ∧ b_flags b = 0).
    { intros i b Hi. destruct (I6 i b Hi). split; [|done].
      apply H0. rewrite <- I5. by eapply lookup_lt_Some. }
    split; cbn; rewrite ?I3; try done.
    + exact (symmetry (Permutation_rev (seq 0 NBUF))).
    + intros i b Hi. destruct (Hdev i b Hi) as [Hd Hf].
      split; rewrite ?Hd, ?Hf; cbn; try done; [by right | | | by intros []].
      all: split; [done | by intros []].
    + intros i j b c Hi _ H1. destruct (Hdev i b Hi) as [Hd _]. by rewrite Hd in H1.
Qed.

(** ** Properties *)

(** [bread] returns the buffer that caches the block if there is one, otherwise the
    least recently used buffer that is neither busy nor dirty; the buffer is now held
    by the caller and its data is the block's logical contents (the cached copy, or
    the disk's when there is none).  Nothing else a reader of the cache can see
    changes: no other block's contents, no block of the disk, no dirty mark. *)
Theorem bread_correct v s n :
  cache_rep v s → v_held v !! n = None → can_cache n v →
  n < v_size v →
  ∃ i b s', bread 1 n s = Ok (i, s') ∧ bget_choice 1 n (v_order v) s = Some i ∧
    bc_buf (bio_cache s') !! i = Some b ∧ b_data b = v_view v n ∧
    cache_rep (v_set_held (<[n := i]> (v_held v)) v) s'.
Proof.
  intros H Hn Hsz Hlt.
  assert (Hr : runs (bread 1 n) s (λ i s', bget_choice 1 n (v_order v) s = Some i ∧
    cache_rep (v_set_held (<[n := i]> (v_held v)) v) s')) by (apply (bread_rule v); auto).
  destruct Hr as (i & s' & Hr & Hch & H').
  destruct (held_buf _ _ n i (proj2 H')) as (b & Hb & _ & _ & Hd & _);
    [apply lookup_insert_eq|]. by exists i, b, s'.
Qed.

(** a caller that holds block [n], stores [d] in its buffer, writes it and releases
    it leaves [d] on the disk and in the cache, as the only block that changed; the
    buffer is free again, clean, and the most recently used one, and the processes
    that wait for it are woken. *)
Theorem bwrite_correct v s n i d :
  cache_rep v s → v_held v !! n = Some i → n < v_size v →
  ∃ s', (buf_mod i (set_data d);; bwrite i;; brelse i) s = Ok (tt, s') ∧
    md_blocks (bio_disk s') n = d ∧
    md_writes (bio_disk s') = md_writes (bio_disk s) ++ [(n, d)] ∧
    bio_wakeups s' = bio_wakeups s ++ [i] ∧
    cache_rep (mkBview (<[n := d]> (v_view v)) (<[n := d]> (v_disk v)) (v_size v)
      (v_writes v ++ [(n, d)]) (delete n (v_held v)) (v_dirty v ∖ {[n]})
      (mru i (v_order v))) s'.
Proof.
  intros H Hn Hlt.
  set (v' := mkBview (<[n := d]> (v_view v)) (<[n := d]> (v_disk v)) (v_size v)
    (v_writes v ++ [(n, d)]) (delete n (v_held v)) (v_dirty v ∖ {[n]}) (mru i (v_order v))).
  assert (Hr : runs (buf_mod i (set_data d);; bwrite i;; brelse i) s (λ _ s',
    bio_wakeups s' = bio_wakeups s ++ [i] ∧ cache_rep v' s')).
  { apply runs_bind, (set_data_rule v _ n); [done..|]. intros s1 H1 W1.
    apply runs_bind. eapply (bwrite_rule _ _ n); [exact H1 | done..|]. intros s2 H2 W2.
    eapply (brelse_rule _ _ n); [exact H2 | done | right; cbn; by rewrite !fn_lookup_insert |].
    intros s3 H3 W3. split; [congruence|]. cbn in H3. by rewrite fn_lookup_insert in H3. }
  destruct Hr as ([] & s' & Hr & Hw & H'). exists s'. split_and!; try done.
  - rewrite (cr_disk _ _ (proj2 H')). cbn. by rewrite fn_lookup_insert.
  - by rewrite (cr_writes _ _ (proj2 H')), (cr_writes _ _ (proj2 H)).
Qed.

(** *** Witnesses *)

(** A disk of 2000 blocks in which byte [a] of block [n] is [n + a] modulo 256. *)
Definition demo_bio : bio :=
  mkBio (mkCpu 0 0 false true) bcache0 (mkMemdisk 2000 (λ n a, u8 (n + a)) []) [].

Definition demo_view : bview :=
  mkBview (λ n a, u8 (n + a)) (λ n a, u8 (n + a)) 2000 [] ∅ ∅ (rev (seq 0 NBUF)).

Lemma demo_binit : ∃ s, binit demo_bio = Ok (tt, s) ∧ cache_rep demo_view s.
Proof.
  assert (H : runs binit demo_bio (λ _ s, cache_rep demo_view s)).
  { apply binit_rule; [split; cbn; lia | done | auto]. }
  destruct H as ([] & s & H). eauto.
Qed.

Lemma bread_correct_witness :
  ∃ s i b s', binit demo_bio = Ok (tt, s) ∧ bread 1 7 s = Ok (i, s') ∧
    bc_buf (bio_cache s') !! i = Some b ∧ b_data b 3 = 10.
Proof.
  destruct demo_binit as (s & Hi & H).
  destruct (bread_correct demo_view s 7 H eq_refl) as (i & b & s' & Hb & _ & Hl & Hd & _);
    [right; vm_compute; lia | reflexivity |].
  exists s, i, b, s'. split_and!; [exact Hi | exact Hb | exact Hl | by rewrite Hd].
Defined.

Lemma bwrite_correct_witness :
  ∃ s i s1 s2, binit demo_bio = Ok (tt, s) ∧ bread 1 7 s = Ok (i, s1) ∧
    (buf_mod i (set_data (λ _, 9));; bwrite i;; brelse i) s1 = Ok (tt, s2) ∧
    md_blocks (bio_disk s2) 7 = (λ _, 9).
Proof.
  destruct demo_binit as (s & Hi & H).
  assert (Hr : runs (bread 1 7) s (λ i s1, cache_rep (v_set_held {[7 := i]} demo_view) s1)).
  { apply (bread_rule demo_view); [done | done | right; vm_compute; lia | done | auto]. }
  destruct Hr as (i & s1 & Hr & H1).
  destruct (bwrite_correct _ s1 7 i (λ _, 9) H1 (lookup_singleton_eq _ _) eq_refl)
    as (s2 & Hw & Hd & _).
  exists s, i, s1, s2. split_and!; [exact Hi | exact Hr | exact Hw | exact Hd].
Defined.
