(* ===== verification/Ide.v ===== *)
(** * The IDE disk driver

    Models src/ide.c: a queue of buffers, of which the first is the active request of the
    disk; [iderw] appends a buffer and sleeps, and the interrupt handler [ideintr] finishes
    the active request and starts the next.  [iderw] is split where it sleeps:
    [iderw_enter] runs up to the first sleep, [iderw_resume] from one sleep to the next.

    The disk is not code of the repository.  Its ports are the operations of the class
    [AtaOps]; what the driver relies on, the programmed input and output of an ATA disk, are
    the laws of the class [Ata].  [simple_disk] is an instance.

    [ide_rel] relates the driver to an abstract disk that serves requests in order
    ([astep]). *)

From S2P Require Import Prelude Param KString Spinlock Bio.
Local Open Scope Z_scope.

(** ** Definitions *)

Class AtaOps (D : Type) := {
  inb : Z → D → Z * D;
  outb : Z → Z → D → D;
  insl : Z → Z → D → (Z → Z) * D;
  outsl : Z → mem → Z → D → D
}.

Definition SECTOR_SIZE : Z := 512.
Definition IDE_BSY : Z := 128.
Definition IDE_DRDY : Z := 64.
Definition IDE_DF : Z := 32.
Definition IDE_ERR : Z := 1.
Definition IDE_CMD_READ : Z := 32.
Definition IDE_CMD_WRITE : Z := 48.

(** The state of the driver; a buffer is named by its index in [bcache.buf], and the calls
    of [wakeup] are recorded. *)
Record ide (D : Type) := mkIde {
  id_cpu : cpu;
  idelock : spinlock;
  idequeue : option nat;
  havedisk1 : bool;
  id_buf : list buf;
  qnext : nat → option nat;
  id_wakeups : list nat;
  id_dev : D
}.
Arguments mkIde {D}. Arguments id_cpu {D}. Arguments idelock {D}. Arguments idequeue {D}.
Arguments havedisk1 {D}. Arguments id_buf {D}. Arguments qnext {D}. Arguments id_wakeups {D}.
Arguments id_dev {D}.

(** What [pp] points to in the loop that appends: the head of the queue or a link. *)
Inductive qloc := QHead | QNext (i : nat).

Section Driver.
Context {D : Type} `{AtaOps D}.

Definition set_id_sync (c : cpu) (lk : spinlock) (s : ide D) : ide D :=
  mkIde c lk (idequeue s) (havedisk1 s) (id_buf s) (qnext s) (id_wakeups s) (id_dev s).
Definition set_idequeue (q : option nat) (s : ide D) : ide D :=
  mkIde (id_cpu s) (idelock s) q (havedisk1 s) (id_buf s) (qnext s) (id_wakeups s) (id_dev s).
Definition set_havedisk1 (b : bool) (s : ide D) : ide D :=
  mkIde (id_cpu s) (idelock s) (idequeue s) b (id_buf s) (qnext s) (id_wakeups s) (id_dev s).
Definition set_id_buf (l : list buf) (s : ide D) : ide D :=
  mkIde (id_cpu s) (idelock s) (idequeue s) (havedisk1 s) l (qnext s) (id_wakeups s) (id_dev s).
Definition set_qnext (i : nat) (q : option nat) (s : ide D) : ide D :=
  mkIde (id_cpu s) (idelock s) (idequeue s) (havedisk1 s) (id_buf s) (<[i := q]> (qnext s))
    (id_wakeups s) (id_dev s).
Definition set_id_dev (d : D) (s : ide D) : ide D :=
  mkIde (id_cpu s) (idelock s) (idequeue s) (havedisk1 s) (id_buf s) (qnext s) (id_wakeups s) d.
Definition wake_buf (i : nat) (s : ide D) : ide D :=
  mkIde (id_cpu s) (idelock s) (idequeue s) (havedisk1 s) (id_buf s) (qnext s)
    (id_wakeups s ++ [i]) (id_dev s).

Definition acquire_ide : K (ide D) unit := fun s =>
  '(c, lk) ← acquire (id_cpu s) (idelock s); Ok (tt, set_id_sync c lk s).
Definition release_ide : K (ide D) unit := fun s =>
  '(c, lk) ← release (id_cpu s) (idelock s); Ok (tt, set_id_sync c lk s).

Definition ibuf (i : nat) : K (ide D) buf := fun s =>
  match id_buf s !! i with Some b => Ok (b, s) | None => Undef "buffer pointer" end.
Definition ibuf_mod (i : nat) (f : buf → buf) : K (ide D) unit := fun s =>
  match id_buf s !! i with
  | Some b => Ok (tt, set_id_buf (<[i := f b]> (id_buf s)) s)
  | None => Undef "buffer pointer"
  end.

Definition port_in (p : Z) : K (ide D) Z := fun s =>
  let '(v, d) := inb p (id_dev s) in Ok (v, set_id_dev d s).
Definition port_out (p v : Z) : K (ide D) unit := kmod (fun s => set_id_dev (outb p v (id_dev s)) s).

Fixpoint idewait (fuel : nat) (checkerr : bool) : K (ide D) Z :=
  match fuel with
  | O => kout Diverge
  | S fuel' =>
      r ← port_in 503;
      if Z.land r (Z.lor IDE_BSY IDE_DRDY) =? IDE_DRDY then
        mret (if checkerr && negb (Z.land r (Z.lor IDE_DF IDE_ERR) =? 0) then -1 else 0)
      else idewait fuel' checkerr
  end.

(** The probe for disk 1: up to [k] reads of the status. *)
Fixpoint probe_disk1 (k : nat) : K (ide D) unit :=
  match k with
  | O => mret tt
  | S k' =>
      r ← port_in 503;
      if negb (r =? 0) then kmod (set_havedisk1 true) else probe_disk1 k'
  end.

(** [ideinit]; the interrupt controllers are not modelled. *)
Definition ide_init (fuel : nat) : K (ide D) unit :=
  kmod (fun s => set_id_sync (id_cpu s) (initlock "ide") s);;
  idewait fuel false;;
  port_out 502 (Z.lor 224 (Z.shiftl 1 4));;
  probe_disk1 1000;;
  port_out 502 (Z.lor 224 (Z.shiftl 0 4)).

Definition idestart (fuel : nat) (b : option nat) : K (ide D) unit :=
  match b with
  | None => kpanic "idestart"
  | Some i =>
      b ← ibuf i;
      if b_blockno b >=? FSSIZE then kpanic "incorrect blockno"
      else
        let sector_per_block := BSIZE / SECTOR_SIZE in
        let sector := s32 (b_blockno b * sector_per_block) in
        if sector_per_block >? 7 then kpanic "idestart"
        else
          idewait fuel false;;
          port_out 1014 0;;
          port_out 498 sector_per_block;;
          port_out 499 (Z.land sector 255);;
          port_out 500 (Z.land (Z.shiftr sector 8) 255);;
          port_out 501 (Z.land (Z.shiftr sector 16) 255);;
          port_out 502 (Z.lor (Z.lor 224 (Z.shiftl (Z.land (b_dev b) 1) 4))
                          (Z.land (Z.shiftr sector 24) 15));;
          if has (b_flags b) B_DIRTY then
            port_out 503 IDE_CMD_WRITE;;
            kmod (fun s => set_id_dev (outsl 496 (b_data b) (BSIZE / 4) (id_dev s)) s)
          else port_out 503 IDE_CMD_READ
  end.

(** [insl(0x1f0, b->data, BSIZE/4)]. *)
Definition read_data (i : nat) : K (ide D) unit := fun s =>
  let '(w, d) := insl 496 (BSIZE / 4) (id_dev s) in
  ibuf_mod i (fun b => set_data (fun x => if (0 <=? x) && (x <? BSIZE) then w x else b_data b x) b)
    (set_id_dev d s).

Definition ideintr (fuel : nat) : K (ide D) unit :=
  acquire_ide;;
  s ← kget;
  match idequeue s with
  | None => release_ide
  | Some i =>
      kmod (set_idequeue (qnext s i));;
      b ← ibuf i;
      (if negb (has (b_flags b) B_DIRTY) then
         r ← idewait fuel true;
         kwhen (r >=? 0) (read_data i)
       else mret tt);;
      ibuf_mod i (fun b => set_flags (Z.lor (b_flags b) B_VALID) b);;
      ibuf_mod i (fun b => set_flags (Z.land (b_flags b) (Z.lnot B_DIRTY)) b);;
      kmod (wake_buf i);;
      s ← kget;
      (if idequeue s is Some _ then idestart fuel (idequeue s) else mret tt);;
      release_ide
  end.

Definition qload (pp : qloc) (s : ide D) : option nat :=
  match pp with QHead => idequeue s | QNext i => qnext s i end.
Definition qstore (pp : qloc) (q : option nat) (s : ide D) : ide D :=
  match pp with QHead => set_idequeue q s | QNext i => set_qnext i q s end.

(** The loop to the end of the queue. *)
Fixpoint ide_tail (fuel : nat) (pp : qloc) : K (ide D) qloc :=
  match fuel with
  | O => kout Diverge
  | S fuel' =>
      s ← kget;
      match qload pp s with
      | Some i => ide_tail fuel' (QNext i)
      | None => mret pp
      end
  end.

(** The loop that waits for the request, up to the next [sleep], which releases the lock;
    [true] when [iderw] returns. *)
Definition ide_wait (i : nat) : K (ide D) bool :=
  b ← ibuf i;
  release_ide;;
  mret (Z.land (b_flags b) (Z.lor B_VALID B_DIRTY) =? B_VALID).

Definition iderw_enter (fuel : nat) (i : nat) : K (ide D) bool :=
  b ← ibuf i;
  if negb (has (b_flags b) B_BUSY) then kpanic "iderw: buf not busy"
  else if Z.land (b_flags b) (Z.lor B_VALID B_DIRTY) =? B_VALID then kpanic "iderw: nothing to do"
  else
    s ← kget;
    if negb (b_dev b =? 0) && negb (havedisk1 s) then kpanic "iderw: ide disk 1 not present"
    else
      acquire_ide;;
      kmod (set_qnext i None);;
      pp ← ide_tail fuel QHead;
      kmod (qstore pp (Some i));;
      s ← kget;
      kwhen (bool_decide (idequeue s = Some i)) (idestart fuel (Some i));;
      ide_wait i.

Definition iderw_resume (i : nat) : K (ide D) bool :=
  acquire_ide;;
  ide_wait i.
End Driver.

(** *** The disk *)

(** The parts of a disk the driver can see: the registers, the contents by drive, sector and
    byte, and the command in progress (a write?, drive, sector). *)
Class Ata (D : Type) `{AtaOps D} := {
  ata_reg : D → Z → Z;
  ata_byte : D → Z → Z → Z → Z;
  ata_cmd : D → option (bool * Z * Z);
  ata_delay : nat;
  ata_drive (d : D) : Z := (ata_reg d 502 / 16) mod 2;
  ata_lba (d : D) : Z :=
    ata_reg d 499 + 256 * ata_reg d 500 + 65536 * ata_reg d 501 + 16777216 * (ata_reg d 502 mod 16);
  (* reading the status changes nothing else; the disk gets ready, and has no errors *)
  ata_status d : let d' := snd (inb 503 d) in
    ata_reg d' = ata_reg d ∧ ata_byte d' = ata_byte d ∧ ata_cmd d' = ata_cmd d;
  ata_ready d : ∃ k, (k < ata_delay)%nat ∧
    Z.land (inb 503 (Nat.iter k (λ d, (inb 503 d).2) d)).1 192 = 64;
  ata_no_error d : Z.land (inb 503 d).1 33 = 0;
  (* registers hold what is written to them *)
  ata_out_reg p v d : 498 ≤ p ≤ 502 → let d' := outb p v d in
    (∀ q, ata_reg d' q = if q =? p then v mod 256 else ata_reg d q) ∧
    ata_byte d' = ata_byte d ∧ ata_cmd d' = ata_cmd d;
  ata_out_control v d : let d' := outb 1014 v d in
    ata_reg d' = ata_reg d ∧ ata_byte d' = ata_byte d ∧ ata_cmd d' = ata_cmd d;
  (* the commands, for one sector *)
  ata_read d : ata_reg d 498 = 1 → let d' := outb 503 32 d in
    ata_byte d' = ata_byte d ∧ ata_cmd d' = Some (false, ata_drive d, ata_lba d);
  ata_write d : ata_reg d 498 = 1 → let d' := outb 503 48 d in
    ata_byte d' = ata_byte d ∧ ata_cmd d' = Some (true, ata_drive d, ata_lba d);
  (* their data *)
  ata_insl d drv sec : ata_cmd d = Some (false, drv, sec) →
    (∀ x, 0 ≤ x < 512 → (insl 496 128 d).1 x = ata_byte d drv sec x) ∧
    ata_byte (insl 496 128 d).2 = ata_byte d;
  ata_outsl d m drv sec : ata_cmd d = Some (true, drv, sec) → let d' := outsl 496 m 128 d in
    ata_cmd d' = ata_cmd d ∧
    ∀ drv' sec' x, 0 ≤ x < 512 → ata_byte d' drv' sec' x =
      if (drv' =? drv) && (sec' =? sec) then m x else ata_byte d drv' sec' x
}.

(** *** What the driver promises: a disk that serves requests in order *)

Record adisk := mkAdisk {
  a_buf : list buf;
  a_queue : list nat;
  a_byte : Z → Z → Z → Z
}.

Definition dirty (b : buf) : bool := has (b_flags b) B_DIRTY.
Definition drive (b : buf) : Z := Z.land (b_dev b) 1.

(** The disk after a request is served. *)
Definition served (b : buf) (A : Z → Z → Z → Z) : Z → Z → Z → Z := fun drv sec x =>
  if dirty b && ((drv =? drive b) && (sec =? b_blockno b)) then b_data b x else A drv sec x.

(** The buffer after its request is served. *)
Record done_buf (A : Z → Z → Z → Z) (b b' : buf) : Prop := {
  db_flags : b_flags b' = Z.land (Z.lor (b_flags b) B_VALID) (Z.lnot B_DIRTY);
  db_dev : b_dev b' = b_dev b;
  db_blockno : b_blockno b' = b_blockno b;
  db_data : ∀ x, b_data b' x =
    if negb (dirty b) && ((0 <=? x) && (x <? BSIZE)) then A (drive b) (b_blockno b) x else b_data b x
}.

(** A request for buffer [i], a disk interrupt, and a process that waits for [i] waking up;
    the result tells it whether its request is done. *)
Inductive ide_event := Request (i : nat) | Interrupt | Wake (i : nat).

Definition finished (b : buf) : bool := Z.land (b_flags b) (Z.lor B_VALID B_DIRTY) =? B_VALID.

Inductive astep : adisk → ide_event → adisk → bool → Prop :=
| step_request B q A i : astep (mkAdisk B q A) (Request i) (mkAdisk B (q ++ [i]) A) false
| step_idle B A : astep (mkAdisk B [] A) Interrupt (mkAdisk B [] A) false
| step_serve B q A i b b' :
    B !! i = Some b → done_buf A b b' →
    astep (mkAdisk B (i :: q) A) Interrupt (mkAdisk (<[i := b']> B) q (served b A)) false
| step_wake B q A i b : B !! i = Some b → astep (mkAdisk B q A) (Wake i) (mkAdisk B q A) (finished b).

(** A buffer that can be requested. *)
Record wanted (one : bool) (b : buf) : Prop := {
  wt_busy : has (b_flags b) B_BUSY = true;
  wt_todo : finished b = false;
  wt_dev : b_dev b = 0 ∨ one = true;
  wt_block : 0 ≤ b_blockno b < FSSIZE
}.

Definition legal (one : bool) (a : adisk) (e : ide_event) : Prop :=
  match e with
  | Request i => (i ∉ a_queue a) ∧ ∃ b, a_buf a !! i = Some b ∧ wanted one b
  | Interrupt => True
  | Wake i => is_Some (a_buf a !! i)
  end.

(** Running the driver on an event. *)
Definition handle {D : Type} `{AtaOps D} (fuel : nat) (e : ide_event) : K (ide D) bool :=
  match e with
  | Request i => iderw_enter fuel i
  | Interrupt => (ideintr fuel;; mret false)
  | Wake i => iderw_resume i
  end.

(** The queue from [h] through the links. *)
Fixpoint qseg (f : nat → option nat) (h : option nat) (q : list nat) : Prop :=
  match q with
  | [] => h = None
  | i :: q' => h = Some i ∧ qseg f (f i) q'
  end.

Definition same_bytes (A A' : Z → Z → Z → Z) : Prop :=
  ∀ drv sec x, 0 ≤ x < 512 → A drv sec x = A' drv sec x.

(** The driver implements the abstract disk: the buffers are the same, the linked queue is
    the abstract one, and the disk is busy with the first request.  A write reaches the
    disk when it is started. *)
Record ide_rel {D : Type} `{Ata D} (a : adisk) (s : ide D) : Prop := {
  ir_buf : id_buf s = a_buf a;
  ir_queue : qseg (qnext s) (idequeue s) (a_queue a);
  ir_nodup : NoDup (a_queue a);
  ir_wanted : ∀ i, i ∈ a_queue a → ∃ b, a_buf a !! i = Some b ∧ wanted (havedisk1 s) b;
  ir_lock : locked (idelock s) = 0;
  ir_cpu : cpu_ok (id_cpu s);
  ir_dev :
    match a_queue a with
    | [] => same_bytes (ata_byte (id_dev s)) (a_byte a)
    | i :: _ => ∃ b, a_buf a !! i = Some b ∧
        ata_cmd (id_dev s) = Some (dirty b, drive b, b_blockno b) ∧
        same_bytes (ata_byte (id_dev s)) (served b (a_byte a))
    end
}.

(** ** Lemmas *)

Section Proofs.
Context {D : Type} `{Ata D}.
Implicit Types (s : ide D).

Lemma runs_port_out p v s (Q : unit → ide D → Prop) :
  Q tt (set_id_dev (outb p v (id_dev s)) s) → runs (port_out p v) s Q.
Proof. intros HQ. eapply runs_ok; [reflexivity | exact HQ]. Qed.

Lemma runs_port_in p s (Q : Z → ide D → Prop) :
  Q (inb p (id_dev s)).1 (set_id_dev (inb p (id_dev s)).2 s) → runs (port_in p) s Q.
Proof.
  intros HQ. exists (inb p (id_dev s)).1, (set_id_dev (inb p (id_dev s)).2 s). split; [|exact HQ].
  unfold port_in. by destruct (inb p (id_dev s)).
Qed.

Lemma runs_ibuf i b s (Q : buf → ide D → Prop) : id_buf s !! i = Some b → Q b s → runs (ibuf i) s Q.
Proof. intros E HQ. eapply runs_ok; [unfold ibuf; by rewrite E | done]. Qed.

Lemma runs_ibuf_mod i f b s (Q : unit → ide D → Prop) :
  id_buf s !! i = Some b → Q tt (set_id_buf (<[i := f b]> (id_buf s)) s) → runs (ibuf_mod i f) s Q.
Proof. intros E HQ. eapply runs_ok; [unfold ibuf_mod; by rewrite E | done]. Qed.

Lemma runs_acquire_ide s (Q : unit → ide D → Prop) :
  cpu_ok (id_cpu s) → locked (idelock s) = 0 →
  (∀ c lk, taken c lk → Q tt (set_id_sync c lk s)) → runs acquire_ide s Q.
Proof.
  intros Hc Hl HQ. destruct (acquire_taken _ _ Hc Hl) as (c & lk & E & Ht).
  eapply runs_ok; [unfold acquire_ide; rewrite E; reflexivity | auto].
Qed.

Lemma runs_release_ide s (Q : unit → ide D → Prop) :
  taken (id_cpu s) (idelock s) →
  (∀ c lk, cpu_ok c → locked lk = 0 → Q tt (set_id_sync c lk s)) → runs release_ide s Q.
Proof.
  intros Ht HQ. destruct (release_taken _ _ Ht) as (c & lk & E & Hc & Hl).
  eapply runs_ok; [unfold release_ide; rewrite E; reflexivity | auto].
Qed.

(** *** The device *)

Lemma idewait_rule fuel c s (Q : Z → ide D → Prop) :
  (ata_delay ≤ fuel)%nat →
  (∀ d, ata_reg d = ata_reg (id_dev s) → ata_byte d = ata_byte (id_dev s) →
     ata_cmd d = ata_cmd (id_dev s) → Q 0 (set_id_dev d s)) →
  runs (idewait fuel c) s Q.
Proof.
  intros Hf. destruct (ata_ready (id_dev s)) as (k & Hk & Hr). assert (Hkf : (k < fuel)%nat) by lia. clear Hf Hk.
  revert k s Hkf Hr. induction fuel as [|fuel IH]; intros k s Hk Hr HQ; [lia|]. cbn [idewait].
  pose proof (ata_status (id_dev s)) as (E1 & E2 & E3). pose proof (ata_no_error (id_dev s)) as E4.
  apply runs_bind, runs_port_in.
  destruct (inb 503 (id_dev s)) as [r d] eqn:Ei. cbn [fst snd] in *.
  change (Z.lor IDE_BSY IDE_DRDY) with 192. change (Z.lor IDE_DF IDE_ERR) with 33. unfold IDE_DRDY.
  destruct (Z.eqb_spec (Z.land r 192) 64) as [|Hn].
  - apply runs_ret. rewrite E4, andb_false_r. by apply HQ.
  - destruct k as [|k]; [cbn in Hr; by rewrite Ei in Hr|]. rewrite Nat.iter_succ_r, Ei in Hr.
    apply (IH k); [lia | exact Hr |]. cbn. intros d' H1 H2 H3. apply HQ; congruence.
Qed.

(** The registers of a request give back the sector and the drive. *)
Lemma request_regs (d : D) b (sec := b_blockno b) (r502 := Z.lor (Z.lor 224 (Z.shiftl (drive b) 4)) (Z.land (Z.shiftr sec 24) 15)) :
  0 ≤ sec < FSSIZE →
  ata_reg d 499 = Z.land sec 255 mod 256 → ata_reg d 500 = Z.land (Z.shiftr sec 8) 255 mod 256 →
  ata_reg d 501 = Z.land (Z.shiftr sec 16) 255 mod 256 → ata_reg d 502 = r502 mod 256 →
  ata_drive d = drive b ∧ ata_lba d = sec.
Proof.
  unfold FSSIZE. intros Hs E1 E2 E3 E4. unfold ata_drive, ata_lba. rewrite E1, E2, E3, E4. unfold r502.
  rewrite !Z.shiftr_div_pow2 by lia. change 255 with (Z.ones 8). change 15 with (Z.ones 4). rewrite !Z.land_ones by lia.
  change (2 ^ 8) with 256. change (2 ^ 16) with 65536. change (2 ^ 24) with 16777216. change (2 ^ 4) with 16.
  rewrite (Z.div_small sec 16777216) by lia. rewrite (Z.mod_small 0 16) by lia. rewrite Z.lor_0_r.
  assert (Hd : drive b = 0 ∨ drive b = 1).
  { unfold drive. change 1 with (Z.ones 1) at 1 2. rewrite Z.land_ones by lia. change (2 ^ 1) with 2. zmod_lia. }
  clear E1 E2 E3 E4. destruct Hd as [-> | ->]; (split; [reflexivity|]).
  - change ((Z.lor 224 (Z.shiftl 0 4) mod 256) mod 16) with 0. zmod_lia.
  - change ((Z.lor 224 (Z.shiftl 1 4) mod 256) mod 16) with 0. zmod_lia.
Qed.

Lemma idestart_rule fuel i b s A (Q : unit → ide D → Prop) :
  (ata_delay ≤ fuel)%nat → id_buf s !! i = Some b → 0 ≤ b_blockno b < FSSIZE →
  same_bytes (ata_byte (id_dev s)) A →
  (∀ d, ata_cmd d = Some (dirty b, drive b, b_blockno b) → same_bytes (ata_byte d) (served b A) →
     Q tt (set_id_dev d s)) →
  runs (idestart fuel (Some i)) s Q.
Proof.
  intros Hf Hb Hn HA HQ. unfold idestart. apply runs_bind, (runs_ibuf i b); [done|]. rewrite Z.geb_leb.
  destruct (Z.leb_spec FSSIZE (b_blockno b)); [lia|]. cbv zeta. change (BSIZE / SECTOR_SIZE) with 1. cbn [Z.gtb Z.compare Pos.compare Pos.compare_cont].
  rewrite Z.mul_1_r, s32_small by (unfold FSSIZE in Hn; lia).
  apply runs_bind, idewait_rule; [done|]. intros d0 R0 B0 C0.
  pose proof (ata_out_control 0 d0) as (R1 & B1 & C1). apply runs_bind, runs_port_out. cbn [id_dev set_id_dev].
  set (d1 := outb 1014 0 d0) in *. clearbody d1.
  do 5 (match goal with |- runs (port_out ?p ?v ≫= _) (set_id_dev ?d _) _ =>
    let R := fresh "R" in let B := fresh "B" in let C := fresh "C" in let d' := fresh "d" in
    pose proof (ata_out_reg p v d ltac:(lia)) as (R & B & C); apply runs_bind, runs_port_out; cbn [id_dev set_id_dev];
    set (d' := outb p v d) in *; clearbody d' end).
  assert (Hr : ata_drive d5 = drive b ∧ ata_lba d5 = b_blockno b).
  { apply request_regs; [done | rewrite ?R5, ?R4, ?R3, ?R2, ?R; reflexivity ..]. }
  assert (Hcnt : ata_reg d5 498 = 1) by (rewrite R5, R4, R3, R2, R; reflexivity).
  assert (HB : ata_byte d5 = ata_byte (id_dev s)) by congruence. destruct Hr as [Hdrv Hlba].
  unfold dirty in HQ. destruct (has (b_flags b) B_DIRTY) eqn:Ed.
  - pose proof (ata_write d5 Hcnt) as [B7 C7]. apply runs_bind, runs_port_out, runs_mod. cbn [id_dev set_id_dev].
    unfold IDE_CMD_WRITE in *. set (d7 := outb 503 48 d5) in *. rewrite Hdrv, Hlba in C7.
    pose proof (ata_outsl d7 (b_data b) _ _ C7) as [C8 B8]. change (BSIZE / 4) with 128.
    apply HQ; [congruence|]. intros drv sec x Hx. rewrite B8 by done. unfold served, dirty. rewrite Ed. cbn [andb].
    destruct ((drv =? drive b) && (sec =? b_blockno b)); [done|]. rewrite B7, HB. by apply HA.
  - pose proof (ata_read d5 Hcnt) as [B7 C7]. apply runs_port_out. cbn [id_dev set_id_dev]. unfold IDE_CMD_READ.
    apply HQ; [rewrite C7; congruence|]. intros drv sec x Hx. rewrite B7, HB. unfold served, dirty. rewrite Ed. by apply HA.
Qed.

(** *** The queue *)

Definition tail_loc (pp : qloc) (q : list nat) : qloc :=
  match last q with Some i => QNext i | None => pp end.

Lemma ide_tail_rule fuel pp q s (Q : qloc → ide D → Prop) :
  qseg (qnext s) (qload pp s) q → (length q < fuel)%nat → Q (tail_loc pp q) s → runs (ide_tail fuel pp) s Q.
Proof.
  revert pp q. induction fuel as [|fuel IH]; intros pp q Hq Hf HQ; [lia|]. cbn [ide_tail]. apply runs_bind, runs_get.
  destruct q as [|i q]; cbn in Hq.
  - rewrite Hq. by apply runs_ret.
  - destruct Hq as [-> Hq]. apply (IH _ q); [done | cbn in Hf; lia |]. unfold tail_loc in *.
    rewrite last_cons in HQ. by destruct (last q).
Qed.

Lemma qseg_ext f f' h q : qseg f h q → (∀ j, j ∈ q → f' j = f j) → qseg f' h q.
Proof.
  revert h. induction q as [|j q IH]; intros h Hq He; [done|]. destruct Hq as [-> Hq]. split; [done|].
  rewrite He by left. apply IH; [done|]. intros k Hk. apply He. by right.
Qed.

Lemma qseg_snoc f h q l i :
  qseg f h (q ++ [l]) → NoDup (q ++ [l]) → i ∉ q ++ [l] → f i = None →
  qseg (<[l := Some i]> f) h ((q ++ [l]) ++ [i]).
Proof.
  revert h. induction q as [|j q IH]; intros h Hq Hnd Hi Hf; cbn in *.
  - destruct Hq as [-> _]. rewrite fn_lookup_insert. split_and!; [done | done |]. rewrite fn_lookup_insert_ne; [done|].
    intros ->. apply Hi. left.
  - destruct Hq as [-> Hq]. apply NoDup_cons in Hnd as [Hj Hnd]. split; [done|]. rewrite fn_lookup_insert_ne.
    + apply IH; [done | done | | done]. intros Hin. apply Hi. by right.
    + intros ->. apply Hj, elem_of_app. right. left.
Qed.

(** The queue with one more request. *)
Lemma qseg_append i q s s1 (s2 := qstore (tail_loc QHead q) (Some i) s1) :
  qseg (qnext s) (idequeue s) q → NoDup q → i ∉ q → idequeue s1 = idequeue s → qnext s1 = <[i := None]> (qnext s) →
  qseg (qnext s2) (idequeue s2) (q ++ [i]) ∧ idequeue s2 = head (q ++ [i]).
Proof.
  intros Hq Hnd Hi E1 E2. assert (Hq' : qseg (qnext s1) (idequeue s1) q).
  { rewrite E1, E2. eapply qseg_ext; [done|]. intros j Hj. rewrite fn_lookup_insert_ne; [done|]. by intros ->. }
  assert (Hnone : qnext s1 i = None) by by rewrite E2, fn_lookup_insert.
  subst s2. destruct q as [|l q] using rev_ind; unfold tail_loc.
  - cbn. done.
  - clear IHq. rewrite last_snoc. cbn [qstore]. split; [by apply qseg_snoc|]. cbn. rewrite E1.
    destruct q as [|j q]; cbn in Hq; by destruct Hq.
Qed.

Lemma queue_length {B : list buf} q :
  NoDup q → (∀ i : nat, i ∈ q → ∃ b, B !! i = Some b ∧ True) → (length q ≤ length B)%nat.
Proof.
  intros Hnd Hin. rewrite <- (length_seq (length B) 0). apply submseteq_length, NoDup_submseteq; [done|].
  intros i Hi. destruct (Hin i Hi) as (b & Hb & _). apply elem_of_seq. apply lookup_lt_Some in Hb. lia.
Qed.

(** *** The events *)

Lemma request_refines fuel a s i :
  ide_rel a s → legal (havedisk1 s) a (Request i) → (ata_delay ≤ fuel)%nat → (length (a_buf a) < fuel)%nat →
  runs (iderw_enter fuel i) s (λ v s', ∃ a', astep a (Request i) a' v ∧ ide_rel a' s' ∧ havedisk1 s' = havedisk1 s).
Proof.
  intros [Hbuf Hq Hnd Hw Hl Hc Hd] (Hi & b & Hb & Hwb) Hf1 Hf2. destruct a as [B q A]. cbn in *.
  pose proof Hwb as [Hbusy Htodo Hdev Hblk].
  unfold iderw_enter. apply runs_bind, (runs_ibuf i b); [by rewrite Hbuf|]. rewrite Hbusy. cbn [negb].
  unfold finished in Htodo. rewrite Htodo. apply runs_bind, runs_get.
  assert (negb (b_dev b =? 0) && negb (havedisk1 s) = false) as -> by (destruct Hdev as [-> | ->]; [done | apply andb_false_r]).
  apply runs_bind, runs_acquire_ide; [done..|]. intros c lk Ht. apply runs_bind, runs_mod.
  set (s1 := set_qnext i None _). assert (Hlen : (length q ≤ length B)%nat)
    by (apply queue_length; [done|]; intros j Hj; destruct (Hw j Hj) as (bj & ? & _); by exists bj).
  apply runs_bind, (ide_tail_rule _ _ q).
  { cbn. eapply qseg_ext; [done|]. intros j Hj. rewrite fn_lookup_insert_ne; [done|]. by intros ->. }
  { lia. }
  apply runs_bind, runs_mod, runs_bind, runs_get.
  destruct (qseg_append i q s s1 Hq Hnd Hi eq_refl eq_refl) as [Hq2 Hhd]. set (s2 := qstore _ _ s1) in *.
  assert (Es2 : id_buf s2 = B ∧ id_cpu s2 = c ∧ idelock s2 = lk ∧ havedisk1 s2 = havedisk1 s ∧ id_dev s2 = id_dev s)
    by (unfold s2; destruct (tail_loc QHead q); cbn; by rewrite Hbuf).
  destruct Es2 as (Eb2 & Ec2 & El2 & Eh2 & Ed2).
  assert (Hnd' : NoDup (q ++ [i])) by (apply NoDup_app; split_and!; [done | by intros j Hj ->%list_elem_of_singleton | apply NoDup_singleton]).
  assert (Hw' : ∀ j, j ∈ q ++ [i] → ∃ b, B !! j = Some b ∧ wanted (havedisk1 s) b)
    by (intros j [Hj| ->%list_elem_of_singleton]%elem_of_app; [by apply Hw | by exists b]).
  (* the wait, from a state whose disk is busy with the first request *)
  assert (Hwait : ∀ d, match q ++ [i] with [] => True | j :: _ => ∃ bj, B !! j = Some bj ∧
      ata_cmd d = Some (dirty bj, drive bj, b_blockno bj) ∧ same_bytes (ata_byte d) (served bj A) end →
    runs (ide_wait i) (set_id_dev d s2) (λ v s', ∃ a', astep (mkAdisk B q A) (Request i) a' v ∧ ide_rel a' s' ∧
      havedisk1 s' = havedisk1 s)).
  { intros d Hd'. unfold ide_wait. apply runs_bind, (runs_ibuf i b); [cbn; by rewrite Eb2|].
    apply runs_bind, runs_release_ide; [cbn; by rewrite Ec2, El2|]. intros c' lk' Hc' Hl'. apply runs_ret. rewrite Htodo.
    eexists. split; [apply step_request|]. split; [|done]. split; cbn; try done; [by rewrite Eh2|].
    destruct (q ++ [i]) eqn:E; [by destruct q|]. done. }
  destruct q as [|j q']; cbn in Hhd.
  - rewrite bool_decide_true by done. cbn [kwhen].
    apply runs_bind, (idestart_rule fuel i b _ A); [done | by rewrite Eb2 | done | by rewrite Ed2 |].
    intros d Hcmd Hbytes. apply Hwait. cbn. by exists b.
  - rewrite bool_decide_false by (rewrite Hhd; intros [= ->]; apply Hi; left). cbn [kwhen]. apply runs_bind, runs_ret.
    replace s2 with (set_id_dev (id_dev s2) s2) by by destruct s2. apply Hwait. cbn. by rewrite Ed2.
Qed.

Lemma wake_refines a s i :
  ide_rel a s → legal (havedisk1 s) a (Wake i) →
  runs (iderw_resume i) s (λ v s', ∃ a', astep a (Wake i) a' v ∧ ide_rel a' s' ∧ havedisk1 s' = havedisk1 s).
Proof.
  intros [Hbuf Hq Hnd Hw Hl Hc Hd] [b Hb]. destruct a as [B q A]. cbn in *.
  unfold iderw_resume, ide_wait. apply runs_bind, runs_acquire_ide; [done..|]. intros c lk Ht.
  apply runs_bind, (runs_ibuf i b); [cbn; by rewrite Hbuf|].
  apply runs_bind, runs_release_ide; [done|]. intros c' lk' Hc' Hl'. apply runs_ret.
  eexists. split; [by apply step_wake|]. done.
Qed.

Lemma runs_read_data i b s (Q : unit → ide D → Prop) (r := insl 496 128 (id_dev s)) :
  id_buf s !! i = Some b →
  Q tt (set_id_buf (<[i := set_data (fun x => if (0 <=? x) && (x <? BSIZE) then r.1 x else b_data b x) b]> (id_buf s))
          (set_id_dev r.2 s)) →
  runs (read_data i) s Q.
Proof.
  intros Hb HQ. eexists tt, _. split; [|exact HQ]. unfold read_data. change (BSIZE / 4) with 128. subst r.
  destruct (insl 496 128 (id_dev s)) as [w d]. unfold ibuf_mod. cbn [id_buf set_id_dev]. by rewrite Hb.
Qed.

(** The data of a read arrives in the buffer. *)
Lemma intr_data_rule fuel i b A s (Q : unit → ide D → Prop) :
  (ata_delay ≤ fuel)%nat → id_buf s !! i = Some b →
  ata_cmd (id_dev s) = Some (dirty b, drive b, b_blockno b) → same_bytes (ata_byte (id_dev s)) (served b A) →
  (∀ d b', b_flags b' = b_flags b → b_dev b' = b_dev b → b_blockno b' = b_blockno b →
     (∀ x, b_data b' x = if negb (dirty b) && ((0 <=? x) && (x <? BSIZE)) then A (drive b) (b_blockno b) x else b_data b x) →
     same_bytes (ata_byte d) (served b A) →
     Q tt (set_id_buf (<[i := b']> (id_buf s)) (set_id_dev d s))) →
  runs (if negb (has (b_flags b) B_DIRTY) then r ← idewait fuel true; kwhen (r >=? 0) (read_data i) else mret tt) s Q.
Proof.
  intros Hf Hb Hcmd Hbytes HQ. unfold dirty in *. destruct (has (b_flags b) B_DIRTY) eqn:Ed; cbn [negb andb] in *.
  - apply runs_ret. specialize (HQ (id_dev s) b). rewrite list_insert_id in HQ by done. destruct s. by apply HQ.
  - apply runs_bind, idewait_rule; [done|]. intros d Ereg Ebyte Ecmd. cbn [Z.geb Z.compare kwhen].
    rewrite <- Ecmd in Hcmd. pose proof (ata_insl d _ _ Hcmd) as [Hin Hby].
    apply (runs_read_data i b); [done|]. cbn [id_dev set_id_dev id_buf]. apply HQ; [done | done | done | |].
    + intros x. cbn. destruct (Z.leb_spec 0 x), (Z.ltb_spec x BSIZE); cbn [andb]; try done.
      rewrite Hin, Ebyte, Hbytes by (unfold BSIZE in *; lia). unfold served, dirty. by rewrite Ed.
    + rewrite Hby, Ebyte. exact Hbytes.
Qed.

Lemma interrupt_refines fuel a s :
  ide_rel a s → (ata_delay ≤ fuel)%nat →
  runs (handle fuel Interrupt) s (λ v s', ∃ a', astep a Interrupt a' v ∧ ide_rel a' s' ∧ havedisk1 s' = havedisk1 s).
Proof.
  intros [Hbuf Hq Hnd Hw Hl Hc Hd] Hf. destruct a as [B q A]. cbn in *.
  unfold handle, ideintr. apply runs_bind, runs_bind, runs_acquire_ide; [done..|]. intros c lk Ht. apply runs_bind, runs_get.
  cbn [idequeue set_id_sync]. destruct q as [|i q]; cbn in Hq.
  { rewrite Hq. apply runs_release_ide; [done|]. intros c' lk' Hc' Hl'. apply runs_ret.
    eexists. split; [apply step_idle|]. done. }
  destruct Hq as [-> Hq]. destruct Hd as (b & Hb & Hcmd & Hbytes). apply NoDup_cons in Hnd as [Hi Hnd].
  apply runs_bind, runs_mod. cbn [qnext set_id_sync]. apply runs_bind, (runs_ibuf i b); [cbn; by rewrite Hbuf|].
  apply runs_bind, (intr_data_rule fuel i b A); [done | cbn; by rewrite Hbuf | done | done |].
  intros d b1 E1 E2 E3 Hdata Hby. cbn [id_buf set_idequeue set_id_sync]. rewrite Hbuf.
  assert (Hlt : (i < length B)%nat) by by eapply lookup_lt_Some.
  apply runs_bind, (runs_ibuf_mod i _ b1); [cbn; by rewrite list_lookup_insert_eq|].
  apply runs_bind. eapply runs_ibuf_mod; [cbn; apply list_lookup_insert_eq; by rewrite length_insert|].
  cbn [id_buf set_id_buf]. rewrite !list_insert_insert_eq. set (b' := set_flags _ _).
  assert (Hdone : done_buf A b b') by (split; cbn; [by rewrite E1 | done | done | done]).
  apply runs_bind, runs_mod, runs_bind, runs_get. cbn [idequeue wake_buf set_id_buf set_id_dev set_idequeue].
  assert (Hw' : ∀ j, j ∈ q → ∃ bj, <[i := b']> B !! j = Some bj ∧ wanted (havedisk1 s) bj).
  { intros j Hj. destruct (Hw j) as (bj & Hbj & Hwj); [by right|]. exists bj. split; [|done].
    rewrite list_lookup_insert_ne; [done|]. by intros ->. }
  destruct q as [|j q]; cbn in Hq.
  - rewrite Hq. apply runs_bind, runs_ret. apply runs_release_ide; [done|]. intros c' lk' Hc' Hl'. apply runs_ret.
    eexists. split; [by eapply step_serve|]. done.
  - destruct Hq as [Ej Hq]. rewrite Ej. destruct (Hw' j) as (bj & Hbj & Hwj); [left|].
    apply runs_bind, (idestart_rule fuel j bj _ (served b A)); [done | done | apply Hwj | done |].
    intros d' Hcmd' Hby'. apply runs_release_ide; [done|]. intros c' lk' Hc' Hl'. apply runs_ret.
    eexists. split; [by eapply step_serve|]. split; [|done]. split; cbn; try done. by exists bj.
Qed.
End Proofs.

(** ** Theorems *)

(** C10: The driver serves requests one at a time and in the order of the calls: entering
    [iderw] appends the buffer to the queue, and each disk interrupt finishes the request
    at its head, delivering the sector to a buffer that is read and storing a buffer that
    is written; a process that waits is told exactly whether its request is done.  No
    event panics, and the lock is free afterwards. *)
Theorem ide_refines {D : Type} `{Ata D} fuel a (s : ide D) e :
  ide_rel a s → legal (havedisk1 s) a e → (ata_delay ≤ fuel)%nat → (length (a_buf a) < fuel)%nat →
  ∃ v s' a', handle fuel e s = Ok (v, s') ∧ astep a e a' v ∧ ide_rel a' s' ∧ havedisk1 s' = havedisk1 s.
Proof.
  intros Hr Hl Hf1 Hf2.
  assert (R : runs (handle fuel e) s (λ v s', ∃ a', astep a e a' v ∧ ide_rel a' s' ∧ havedisk1 s' = havedisk1 s)).
  { destruct e as [i| |i]; [by apply request_refines | by apply interrupt_refines | by apply wake_refines]. }
  destruct R as (v & s' & E & a' & R). by exists v, s', a'.
Qed.

(** ** Witnesses *)

(** A disk that is always ready. *)
Record simple_disk := mkSimple {
  sd_reg : Z → Z;
  sd_byte : Z → Z → Z → Z;
  sd_cmd : option (bool * Z * Z)
}.

Definition sd_address (d : simple_disk) : Z * Z :=
  ((sd_reg d 502 / 16) mod 2,
   sd_reg d 499 + 256 * sd_reg d 500 + 65536 * sd_reg d 501 + 16777216 * (sd_reg d 502 mod 16)).

Definition sd_out (p v : Z) (d : simple_disk) : simple_disk :=
  if (498 <=? p) && (p <=? 502) then
    mkSimple (fun q => if q =? p then v mod 256 else sd_reg d q) (sd_byte d) (sd_cmd d)
  else if p =? 503 then
    mkSimple (sd_reg d) (sd_byte d) (Some (v =? 48, (sd_address d).1, (sd_address d).2))
  else d.

Definition sd_store (m : mem) (d : simple_disk) : simple_disk :=
  match sd_cmd d with
  | Some (_, drv, sec) =>
      mkSimple (sd_reg d)
        (fun drv' sec' x => if (drv' =? drv) && (sec' =? sec) then m x else sd_byte d drv' sec' x) (sd_cmd d)
  | None => d
  end.

#[export] Instance simple_ops : AtaOps simple_disk := {
  inb p d := (if p =? 503 then 64 else sd_reg d p, d);
  outb := sd_out;
  insl p n d := (fun x => match sd_cmd d with Some (_, drv, sec) => sd_byte d drv sec x | None => 0 end, d);
  outsl p m n d := sd_store m d
}.

#[export] Instance simple_ata : Ata simple_disk.
Proof.
  refine {| ata_reg := sd_reg; ata_byte := sd_byte; ata_cmd := sd_cmd; ata_delay := 1 |}; cbn.
  - done.
  - intros d. exists O. split; [lia | reflexivity].
  - reflexivity.
  - intros p v d Hp. unfold sd_out. destruct (Z.leb_spec 498 p), (Z.leb_spec p 502); try lia. done.
  - done.
  - done.
  - done.
  - intros d drv sec ->. done.
  - intros d m drv sec E. unfold sd_store. rewrite E. done.
Defined.

(** Two buffers, a write of block 7 in progress and a read of the same block waiting. *)
Definition demo_bufs : list buf := [mkBuf (Z.lor B_BUSY B_DIRTY) 0 7 (λ _, 5); mkBuf B_BUSY 0 7 (λ _, 0)].
Definition demo_adisk : adisk := mkAdisk demo_bufs [0; 1]%nat (λ _ _ _, 0).
Definition demo_ide : ide simple_disk :=
  mkIde (mkCpu 0 0 false true) (initlock "ide") (Some 0%nat) false demo_bufs
    (λ i, if decide (i = 0%nat) then Some 1%nat else None) []
    (mkSimple (λ _, 0) (λ drv sec x, if (drv =? 0) && (sec =? 7) then 5 else 0) (Some (true, 0, 7))).

Lemma demo_ide_rel : ide_rel demo_adisk demo_ide.
Proof.
  split; [reflexivity | cbn; done | apply (bool_decide_unpack _); vm_compute; exact I | | reflexivity | split; cbn; lia | ].
  - intros i Hi. cbn in Hi. elem_cases Hi; eexists; (split; [reflexivity|]); split; try reflexivity; try (left; reflexivity); vm_compute; intuition congruence.
  - cbn. eexists. split_and!; [reflexivity | reflexivity |]. intros drv sec x Hx. reflexivity.
Qed.

(** The interrupt ends the write and starts the read. *)
Lemma ide_refines_witness :
  ∃ v s' a', handle 3 Interrupt demo_ide = Ok (v, s') ∧ astep demo_adisk Interrupt a' v ∧ ide_rel a' s' ∧
    idequeue s' = Some 1%nat.
Proof.
  destruct (ide_refines 3 demo_adisk demo_ide Interrupt) as (v & s' & a' & E & Ha & Hr & _).
  - exact demo_ide_rel.
  - exact I.
  - cbn. lia.
  - cbn. lia.
  - exists v, s', a'. split_and!; [exact E | exact Ha | exact Hr |]. inversion Ha; subst. destruct Hr as [_ [Hq _] _ _ _ _ _]. exact Hq.
Defined.
