(* ===== verification/LogCrash.v ===== *)
(** * Atomicity of commits and recovery

    The rules of src/log.c on the abstract view of the buffer cache, and the theorems
    on crashes.  A crash after some disk writes leaves the disk those writes produce
    and nothing else; recovery starts from it with an empty cache.  [logical] says
    what recovery makes of a disk.  At the end, [logst_ok] is the invariant between
    file system calls that [begin_op], [log_write] and [end_op] keep. *)

From S2P Require Import Prelude Param KString Spinlock Bio Log.
Local Open Scope Z_scope.

(** ** Definitions *)

(** The disk after a sequence of block writes. *)
Definition apply_writes (d : Z → mem) (ws : list (Z * mem)) : Z → mem :=
  foldl (λ d w, <[w.1 := w.2]> d) d ws.

(** The header block: its entries, and the block with entries [bl] written over [h]. *)
Definition head_n (h : mem) : Z := s32 (load32 h 0).
Definition head_blocks (h : mem) : list Z :=
  (λ j : nat, s32 (load32 h (4 + 4 * Z.of_nat j))) <$> seq 0 (Z.to_nat (head_n h)).
Definition head_entry (h : mem) (j : nat) (b : Z) : mem :=
  store32 h (4 + 4 * Z.of_nat j) (u32 b).
Fixpoint head_entries (h : mem) (j : nat) (bl : list Z) : mem :=
  match bl with
  | [] => h
  | b :: bl' => head_entries (head_entry h j b) (S j) bl'
  end.
Definition head_data (h : mem) (bl : list Z) : mem :=
  head_entries (store32 h 0 (u32 (Z.of_nat (length bl)))) 0 bl.

(** The contents of block [b] of disk [d] as recovery establishes them. *)
Definition logical (start : Z) (d : Z → mem) (b : Z) : mem :=
  match list_find (b =.) (head_blocks (d start)) with
  | Some (t, _) => d (start + 1 + Z.of_nat t)
  | None => d b
  end.

(** The abstract cache, without the list order. *)
Definition brep (vw dk : Z → mem) (sz : Z) (wr : list (Z * mem)) (held : gmap Z nat)
    (dirty : gset Z) (s : bio) : Prop :=
  ∃ order, cache_rep (mkBview vw dk sz wr held dirty order) s.

(** The disk layout: [nlog] log blocks from [start] on, of [sz] blocks. *)
Record layout (start nlog sz : Z) : Prop := {
  ly_start : 0 ≤ start;
  ly_nlog : 1 ≤ nlog ≤ LOGSIZE;
  ly_end : start + nlog ≤ sz;
  ly_sz : sz < 2147483648
}.

(** A block of the disk outside the log. *)
Definition datab (start nlog sz b : Z) : Prop :=
  0 ≤ b < sz ∧ ¬ (start ≤ b < start + nlog).

(** A list of blocks a log can hold. *)
Record loggable (start nlog sz : Z) (bl : list Z) : Prop := {
  lb_len : Z.of_nat (length bl) < nlog;
  lb_nodup : NoDup bl;
  lb_data : ∀ b, b ∈ bl → datab start nlog sz b
}.

(** The in-memory log lists the blocks [bl]. *)
Record log_lists (l : log) (start nlog : Z) (bl : list Z) : Prop := {
  ll_dev : log_dev l = 1;
  ll_start : log_start l = start;
  ll_size : log_size l = nlog;
  ll_n : lh_n (log_lh l) = Z.of_nat (length bl);
  ll_len : length (lh_block (log_lh l)) = Z.to_nat LOGSIZE;
  ll_blocks : ∀ t b, bl !! t = Some b → lh_block (log_lh l) !! t = Some b
}.

(** A header block with entries a log can hold. *)
Definition header_ok (start nlog sz : Z) (h : mem) : Prop :=
  0 ≤ head_n h ∧ loggable start nlog sz (head_blocks h).

(** Two logs that differ in the header only. *)
Definition same_log (l l' : log) : Prop :=
  ∃ lh, l' = set_lh lh l ∧ length (lh_block lh) = length (lh_block (log_lh l)).

(** A disk on which recovery finds the contents [vw]. *)
Definition recovers_as (start nlog sz : Z) (vw d : Z → mem) : Prop :=
  header_ok start nlog sz (d start) ∧
  ∀ b, datab start nlog sz b → logical start d b = vw b.

(** The state after a reboot with disk [d], once [binit] has run and [initlog] has set
    the layout. *)
Definition rebooted (start nlog sz : Z) (d : Z → mem) (s : logst) : Prop :=
  brep d d sz [] ∅ ∅ (ls_bio s) ∧ log_dev (ls_log s) = 1 ∧ log_start (ls_log s) = start ∧
  log_size (ls_log s) = nlog ∧ length (lh_block (log_lh (ls_log s))) = Z.to_nat LOGSIZE.

(** A reboot during which recovery crashes: some prefix of its disk writes is done. *)
Definition crashed_recovery (start nlog sz : Z) (d d' : Z → mem) : Prop :=
  ∃ s s' p, rebooted start nlog sz d s ∧ recover_from_log s = Ok (tt, s') ∧
    p `prefix_of` md_writes (bio_disk (ls_bio s')) ∧ d' = apply_writes d p.

(** The writes of [write_log] and of [install_trans]. *)
Definition log_writes (start : Z) (vw : Z → mem) (bl : list Z) : list (Z * mem) :=
  imap (λ t b, (start + 1 + Z.of_nat t, vw b)) bl.
Definition home_writes (start : Z) (vw : Z → mem) (bl : list Z) : list (Z * mem) :=
  imap (λ t b, (b, vw (start + 1 + Z.of_nat t))) bl.

(** The disk writes of recovery. *)
Definition recover_writes (start : Z) (d : Z → mem) : list (Z * mem) :=
  home_writes start d (head_blocks (d start)) ++ [(start, head_data (d start) [])].

(** The disk writes of a commit. *)
Definition commit_writes (start : Z) (vw : Z → mem) (bl : list Z) : list (Z * mem) :=
  let h := head_data (vw start) bl in
  log_writes start vw bl ++ (start, h) :: ((λ b, (b, vw b)) <$> bl) ++ [(start, head_data h [])].

(** ** Lemmas *)

(** *** Words in blocks *)

Lemma head_entries_low h j bl x :
  x < 4 + 4 * Z.of_nat j - 3 → load32 (head_entries h j bl) x = load32 h x.
Proof.
  revert h j. induction bl as [|b bl IH]; intros h j Hx; cbn [head_entries]; [done|].
  rewrite IH by lia. unfold head_entry. apply load32_store32_ne. lia.
Qed.

Lemma head_entries_lookup h j bl t b :
  bl !! t = Some b →
  load32 (head_entries h j bl) (4 + 4 * Z.of_nat (j + t)) = u32 b.
Proof.
  revert h j t. induction bl as [|b' bl IH]; intros h j t Ht; [done|]. cbn [head_entries].
  destruct t as [|t]; cbn in Ht.
  - injection Ht as ->. rewrite head_entries_low by lia.
    replace (j + 0)%nat with j by lia. apply load32_store32.
  - replace (j + S t)%nat with (S j + t)%nat by lia. by apply IH.
Qed.

Lemma head_entries_snoc h j bl b :
  head_entries h j (bl ++ [b]) = head_entry (head_entries h j bl) (j + length bl) b.
Proof.
  revert h j. induction bl as [|b' bl IH]; intros h j; cbn [app head_entries length].
  - by rewrite Nat.add_0_r.
  - rewrite IH. f_equal. lia.
Qed.

Lemma head_data_n h bl :
  Z.of_nat (length bl) < 2147483648 → head_n (head_data h bl) = Z.of_nat (length bl).
Proof.
  intros H. unfold head_n, head_data. rewrite head_entries_low, load32_store32 by lia.
  rewrite u32_small by lia. apply s32_small. lia.
Qed.

Lemma head_data_blocks h bl :
  Z.of_nat (length bl) < 2147483648 → (∀ b, b ∈ bl → 0 ≤ b < 2147483648) →
  head_blocks (head_data h bl) = bl.
Proof.
  intros H Hb. unfold head_blocks. rewrite head_data_n, Nat2Z.id by done.
  apply list_eq. intros t. rewrite list_lookup_fmap.
  destruct (bl !! t) as [b|] eqn:Et.
  - rewrite lookup_seq_lt by (by eapply lookup_lt_Some). cbn. f_equal.
    unfold head_data. rewrite (head_entries_lookup _ 0 _ _ _ Et).
    specialize (Hb b ltac:(by eapply list_elem_of_lookup_2)).
    rewrite u32_small by lia. apply s32_small. lia.
  - apply lookup_ge_None in Et. by rewrite lookup_seq_ge.
Qed.

(** *** Sequences of writes *)

Lemma apply_writes_app d ws ws' :
  apply_writes d (ws ++ ws') = apply_writes (apply_writes d ws) ws'.
Proof. apply foldl_app. Qed.

Lemma apply_writes_cons d n x ws :
  apply_writes d ((n, x) :: ws) = apply_writes (<[n := x]> d) ws.
Proof. done. Qed.

Lemma apply_writes_other d ws n : n ∉ ws.*1 → apply_writes d ws n = d n.
Proof.
  revert d. induction ws as [|[m x] ws IH]; intros d Hn; [done|].
  cbn in Hn. apply not_elem_of_cons in Hn as [Hm Hn]. cbn. rewrite IH by done.
  by rewrite fn_lookup_insert_ne.
Qed.

Lemma apply_writes_ext d d' ws n : (∀ m, d m = d' m) → apply_writes d ws n = apply_writes d' ws n.
Proof.
  revert d d'. induction ws as [|[m x] ws IH]; intros d d' H; [apply H|].
  rewrite !apply_writes_cons. apply IH. intros k. unfold insert, fn_insert. by case_decide.
Qed.

Lemma apply_writes_take_other d k ws n : n ∉ ws.*1 → apply_writes d (take k ws) n = d n.
Proof.
  intros Hn. apply apply_writes_other. intros Hin. apply Hn.
  rewrite fmap_take in Hin. by apply (subseteq_take k) in Hin.
Qed.

Lemma apply_writes_lookup d ws n x : NoDup ws.*1 → (n, x) ∈ ws → apply_writes d ws n = x.
Proof.
  revert d. induction ws as [|[m y] ws IH]; intros d Hnd Hin; [by apply elem_of_nil in Hin|].
  cbn in Hnd. apply NoDup_cons in Hnd as [Hm Hnd]. cbn.
  apply elem_of_cons in Hin as [[= -> ->]|Hin]; [|by apply IH].
  rewrite apply_writes_other by done. apply fn_lookup_insert.
Qed.

Lemma elem_of_imap {A B : Type} (f : nat → A → B) (l : list A) (y : B) :
  y ∈ imap f l ↔ ∃ t a, l !! t = Some a ∧ y = f t a.
Proof.
  rewrite list_elem_of_lookup. setoid_rewrite list_lookup_imap. setoid_rewrite fmap_Some.
  naive_solver.
Qed.

Lemma log_writes_fst start vw bl n :
  n ∈ (log_writes start vw bl).*1 ↔ start + 1 ≤ n < start + 1 + Z.of_nat (length bl).
Proof.
  rewrite list_elem_of_fmap. setoid_rewrite elem_of_imap. split.
  - intros (y & -> & t & a & Ht & ->). apply lookup_lt_Some in Ht. cbn. lia.
  - intros Hn. destruct (lookup_lt_is_Some_2 bl (Z.to_nat (n - start - 1))) as [a Ha]; [lia|].
    eexists. split; [|eauto]. cbn. lia.
Qed.

Lemma home_writes_fst start vw bl n : n ∈ (home_writes start vw bl).*1 ↔ n ∈ bl.
Proof.
  rewrite list_elem_of_fmap. setoid_rewrite elem_of_imap. rewrite list_elem_of_lookup.
  split.
  - intros (y & -> & t & a & Ht & ->). eauto.
  - intros [t Ht]. eexists. split; [|eauto]. done.
Qed.

Lemma log_writes_nodup start vw bl : NoDup (log_writes start vw bl).*1.
Proof.
  apply NoDup_alt. intros i j n. unfold log_writes.
  rewrite !list_lookup_fmap, !list_lookup_imap, !fmap_Some.
  setoid_rewrite fmap_Some. intros (? & (? & _ & ->) & ->) (? & (? & _ & ->) & E).
  cbn in E. lia.
Qed.

Lemma home_writes_nodup start vw bl : NoDup bl → NoDup (home_writes start vw bl).*1.
Proof.
  intros H. unfold home_writes. rewrite fmap_imap.
  replace (imap _ bl) with bl; [done|].
  apply list_eq. intros t. rewrite list_lookup_imap. by destruct (bl !! t).
Qed.

(** *** The cache, without the list order *)

Section Brep.
Context {vw dk : Z → mem} {sz : Z} {wr : list (Z * mem)} {held : gmap Z nat}.
Context {dirty : gset Z} {s : bio}.
Hypothesis H : brep vw dk sz wr held dirty s.

Lemma brep_bread n (Q : nat → bio → Prop) :
  held !! n = None → (n ∈ dirty ∨ (size (dom held ∪ dirty) < NBUF)%nat) → n < sz →
  (∀ i s', brep vw dk sz wr (<[n := i]> held) dirty s' → Q i s') → runs (bread 1 n) s Q.
Proof using H.
  intros Hn Hc Hlt HQ. destruct H as [o Ho].
  eapply bread_rule; [exact Ho | done..|]. intros i s' _ H'. apply HQ. by exists o.
Qed.

Lemma brep_brelse n i (Q : unit → bio → Prop) :
  held !! n = Some i → (n ∈ dirty ∨ vw n = dk n) →
  (∀ s', brep vw dk sz wr (delete n held) dirty s' → Q tt s') → runs (brelse i) s Q.
Proof using H.
  intros Hn Hc HQ. destruct H as [o Ho].
  eapply brelse_rule; [exact Ho | done..|]. intros s' H' _. apply HQ. by eexists.
Qed.

Lemma brep_data n i (Q : buf → bio → Prop) :
  held !! n = Some i → (∀ b, b_data b = vw n → b_blockno b = n → Q b s) →
  runs (buf_get i) s Q.
Proof using H. intros Hn HQ. destruct H as [o Ho]. eapply held_data_rule; eauto. Qed.

Lemma brep_set n i d (Q : unit → bio → Prop) :
  held !! n = Some i → (∀ s', brep (<[n := d]> vw) dk sz wr held dirty s' → Q tt s') →
  runs (buf_mod i (set_data d)) s Q.
Proof using H.
  intros Hn HQ. destruct H as [o Ho].
  eapply set_data_rule; [exact Ho | done |]. intros s' H' _. apply HQ. by exists o.
Qed.

Lemma brep_write n i (Q : unit → bio → Prop) :
  held !! n = Some i → n < sz →
  (∀ s', brep vw (<[n := vw n]> dk) sz (wr ++ [(n, vw n)]) held (dirty ∖ {[n]}) s' → Q tt s') →
  runs (bwrite i) s Q.
Proof using H.
  intros Hn Hlt HQ. destruct H as [o Ho].
  eapply bwrite_rule; [exact Ho | done.. |]. intros s' H' _. apply HQ. by exists o.
Qed.

Lemma brep_dirty n i (Q : unit → bio → Prop) :
  held !! n = Some i →
  (∀ s', brep vw dk sz wr held (dirty ∪ {[n]}) s' → bio_cpu s' = bio_cpu s → Q tt s') →
  runs (buf_mod i (λ b, set_flags (Z.lor (b_flags b) B_DIRTY) b)) s Q.
Proof using H.
  intros Hn HQ. destruct H as [o Ho].
  eapply set_dirty_rule; [exact Ho | done |]. intros s' H' E. apply HQ; [by exists o | done].
Qed.

Lemma brep_clean n : n ∉ dirty → held !! n = None → vw n = dk n.
Proof using H. destruct H as [o [_ Ho]]. apply (cr_clean _ _ Ho). Qed.
End Brep.

(** *** Copying a block *)

Lemma release_both (x y : Z) (i j : nat) :
  delete y (delete x (<[y := j]> (<[x := i]> (∅ : gmap Z nat)))) = ∅ ∧
  delete x (delete y (<[y := j]> (<[x := i]> (∅ : gmap Z nat)))) = ∅.
Proof.
  split; apply map_eq; intros k; rewrite lookup_empty, !lookup_delete_None, !lookup_insert_None;
    destruct (decide (x = k)), (decide (y = k)); rewrite ?lookup_empty; tauto.
Qed.

Lemma copy_write_rule vw dk sz wr held dirty s src dst i j m (Q : unit → bio → Prop) :
  brep vw dk sz wr held dirty s → held !! src = Some i → held !! dst = Some j → dst < sz →
  (∀ s', brep (<[dst := vw src]> vw) (<[dst := vw src]> dk) sz (wr ++ [(dst, vw src)]) held
     (dirty ∖ {[dst]}) s' → runs m s' Q) →
  runs (copy_data j i;; bwrite j;; m) s Q.
Proof.
  intros H Hi Hj Hlt HQ. apply runs_bind, runs_bind, (brep_data H src); [done|].
  intros b -> _. apply (brep_set H dst); [done|]. intros s1 H1.
  apply runs_bind, (brep_write H1 dst); [done..|]. intros s2 H2.
  rewrite fn_lookup_insert in H2. auto.
Qed.

Lemma runs_log_get s (Q : log → logst → Prop) : Q (ls_log s) s → runs log_get s Q.
Proof. intros. by apply runs_bind, runs_get, runs_ret. Qed.

Lemma runs_lh_get s start nlog bl t b (Q : Z → logst → Prop) :
  log_lists (ls_log s) start nlog bl → bl !! t = Some b → Q b s → runs (lh_get t) s Q.
Proof.
  intros Hll Ht HQ. apply runs_bind, runs_log_get. rewrite (ll_blocks _ _ _ _ Hll _ _ Ht).
  by apply runs_out.
Qed.

Section Rounds.
Context {start nlog sz : Z} {bl : list Z} (s : logst).
Hypothesis Hly : layout start nlog sz.
Hypothesis Hbl : loggable start nlog sz bl.
Hypothesis Hll : log_lists (ls_log s) start nlog bl.

(** The two blocks a round reads. *)
Lemma round_blocks t b :
  bl !! t = Some b →
  u32 (log_dev (ls_log s)) = 1 ∧
  u32 (log_start (ls_log s) + Z.of_nat t + 1) = start + 1 + Z.of_nat t ∧ u32 b = b ∧
  lh_block (log_lh (ls_log s)) !! t = Some b ∧
  start + 1 + Z.of_nat t < sz ∧ b < sz ∧ start + 1 + Z.of_nat t ≠ b ∧
  start + 1 + Z.of_nat t ≠ start ∧ b ≠ start.
Proof using Hly Hbl Hll.
  intros Ht. destruct Hly, Hbl as [Hlen _ Hd], Hll.
  pose proof (lookup_lt_Some _ _ _ Ht).
  destruct (Hd b ltac:(by eapply list_elem_of_lookup_2)) as [Hb1 Hb2].
  rewrite ll_dev0, ll_start0. split_and!; auto; try lia; rewrite u32_small; lia.
Qed.

Section Round.
Context {vw dk : Z → mem} {wr : list (Z * mem)} {dirty : gset Z} {t : nat} {b : Z}.
Hypothesis H : brep vw dk sz wr ∅ dirty (ls_bio s).
Hypothesis Ht : bl !! t = Some b.
Hypothesis Hsz : (size dirty < NBUF)%nat.
Hypothesis Hb : b ∈ dirty ∨ (size dirty < NBUF - 1)%nat.
Hypothesis Hx : start + 1 + Z.of_nat t ∉ dirty.

(** After both breads. *)
Lemma round_breads (x := start + 1 + Z.of_nat t) m (Q : unit → logst → Prop) :
  (∀ i j bs, brep vw dk sz wr (<[b := j]> (<[x := i]> ∅)) dirty bs →
     runs (m i j) bs (λ a bs', Q a (set_ls_bio bs' s))) →
  runs (i ← onbio (bread 1 x); blk ← lh_get t; j ← onbio (bread 1 (u32 blk)); onbio (m i j)) s Q.
Proof using All.
  intros HQ. destruct (round_blocks t b Ht) as (_ & _ & Eb & _ & Hlx & Hlb & Hne & _).
  fold x in Hlx, Hne, Hx. apply runs_bind, runs_zoom, (brep_bread H); [done | | done |].
  { right. rewrite dom_empty_L, union_empty_l_L. done. }
  intros i bs1 H1. apply runs_bind.
  eapply (runs_lh_get (set_ls_bio bs1 s)); [exact Hll | exact Ht |]. rewrite Eb.
  apply runs_bind, runs_zoom, (brep_bread H1); [by rewrite lookup_insert_ne | | done |].
  { destruct Hb as [|Hlt]; [by left | right]. rewrite dom_insert_L, dom_empty_L.
    assert (size ({[x]} ∪ ∅ ∪ dirty) ≤ 1 + size dirty)%nat; [|lia].
    rewrite union_empty_r_L, size_union by set_solver. by rewrite size_singleton. }
  intros j bs2 H2. apply runs_zoom. by apply HQ.
Qed.

Lemma install_block_rule (Q : unit → logst → Prop) :
  (∀ bs, brep (<[b := vw (start + 1 + Z.of_nat t)]> vw) (<[b := vw (start + 1 + Z.of_nat t)]> dk)
     sz (wr ++ [(b, vw (start + 1 + Z.of_nat t))]) ∅ (dirty ∖ {[b]}) bs →
     Q tt (set_ls_bio bs s)) →
  runs (install_block t) s Q.
Proof using All.
  intros HQ. destruct (round_blocks t b Ht) as (E1 & E2 & _ & _ & Hlx & Hlb & Hne & _).
  apply runs_bind, runs_log_get. rewrite E1, E2. apply (round_breads _ Q).
  intros i j bs H1. eapply (copy_write_rule _ _ _ _ _ _ _ (start + 1 + Z.of_nat t) b);
    [exact H1 | by rewrite lookup_insert_ne, lookup_insert_eq | apply lookup_insert_eq | done |].
  intros bs2 H2. apply runs_bind.
  eapply (brep_brelse H2); [by rewrite lookup_insert_ne, lookup_insert_eq | |].
  { right. rewrite !fn_lookup_insert_ne by done. by apply (brep_clean H). }
  intros bs3 H3. eapply (brep_brelse H3); [|right; by rewrite !fn_lookup_insert|].
  { by rewrite lookup_delete_ne, lookup_insert_eq. }
  intros bs4 H4. rewrite (proj1 (release_both _ _ _ _)) in H4. auto.
Qed.

Lemma log_block_rule (Q : unit → logst → Prop) :
  (∀ bs, brep (<[start + 1 + Z.of_nat t := vw b]> vw) (<[start + 1 + Z.of_nat t := vw b]> dk)
     sz (wr ++ [(start + 1 + Z.of_nat t, vw b)]) ∅ dirty bs → Q tt (set_ls_bio bs s)) →
  runs (log_block t) s Q.
Proof using All.
  intros HQ. destruct (round_blocks t b Ht) as (E1 & E2 & _ & _ & Hlx & Hlb & Hne & _).
  apply runs_bind, runs_log_get. rewrite E1, E2.
  apply (round_breads (λ i j, copy_data i j;; bwrite i;; brelse j;; brelse i) Q).
  intros i j bs H1. eapply (copy_write_rule _ _ _ _ _ _ _ b (start + 1 + Z.of_nat t));
    [exact H1 | apply lookup_insert_eq | by rewrite lookup_insert_ne, lookup_insert_eq | done |].
  intros bs2 H2. replace (dirty ∖ _) with dirty in H2 by set_solver. apply runs_bind.
  eapply (brep_brelse H2); [by rewrite lookup_insert_eq | |].
  { destruct (decide (b ∈ dirty)); [by left|]. right.
    rewrite !fn_lookup_insert_ne by done. by apply (brep_clean H). }
  intros bs3 H3. eapply (brep_brelse H3); [|right; by rewrite !fn_lookup_insert|].
  { by rewrite lookup_delete_ne, lookup_insert_ne, lookup_insert_eq. }
  intros bs4 H4. rewrite (proj2 (release_both _ _ _ _)) in H4. auto.
Qed.
End Round.
End Rounds.

(** *** The loops *)

#[export] Instance brep_proper :
  Proper (pointwise_relation Z eq ==> pointwise_relation Z eq ==> eq ==> eq ==> eq ==> eq ==> eq
    ==> impl) brep.
Proof.
  intros vw vw' Hv dk dk' Hd sz ? <- wr ? <- held ? <- dirty ? <- s ? <- [o [Hq H]].
  exists o. split; [done|].
  destruct H as [C1 C2 C3 C4 C5 C6 C7 C8 C9 C10 C11]. split; cbn in *; try done.
  - intros n. by rewrite <- Hd.
  - intros i b Hb. destruct (C7 i b Hb) as [B1 B2 B3 B4 B5 B6].
    split; cbn in *; try done. intros. rewrite <- Hv. auto.
  - intros n Hn Hh. rewrite <- Hv, <- Hd. auto.
Qed.

Lemma set_ls_bio_id s : set_ls_bio (ls_bio s) s = s.
Proof. by destruct s. Qed.

(** A loop over the entries of the log that acts on the cache only. *)
Lemma lh_loop (s : logst) start nlog (bl : list Z) body (I : nat → bio → Prop)
    (Q : unit → logst → Prop) :
  log_lists (ls_log s) start nlog bl →
  (∀ k b bs, bl !! k = Some b → I k bs →
     runs (body k) (set_ls_bio bs s) (λ _ s', ∃ bs', s' = set_ls_bio bs' s ∧ I (S k) bs')) →
  I 0%nat (ls_bio s) → (∀ bs, I (length bl) bs → Q tt (set_ls_bio bs s)) →
  runs (kiter (lh_rounds (ls_log s)) body) s Q.
Proof.
  intros Hll Hbody H0 HQ. unfold lh_rounds. rewrite (ll_n _ _ _ _ Hll), Nat2Z.id.
  apply (runs_kiter_seq _ (λ k s', ∃ bs, s' = set_ls_bio bs s ∧ I k bs)).
  - intros k s' Hk (bs & -> & HI). destruct (lookup_lt_is_Some_2 bl k Hk) as [b Hb]. eauto.
  - exists (ls_bio s). by rewrite set_ls_bio_id.
  - intros s' (bs & -> & HI). auto.
Qed.

Section Loops.
Context {start nlog sz : Z} {bl : list Z} {s : logst}.
Hypothesis Hly : layout start nlog sz.
Hypothesis Hbl : loggable start nlog sz bl.
Hypothesis Hll : log_lists (ls_log s) start nlog bl.
Context {vw dk : Z → mem} {wr : list (Z * mem)} {dirty : gset Z}.
Hypothesis H : brep vw dk sz wr ∅ dirty (ls_bio s).
Hypothesis Hsz : (size dirty < NBUF)%nat.
Hypothesis Hcan : (∀ b, b ∈ bl → b ∈ dirty) ∨ (size dirty < NBUF - 1)%nat.
Hypothesis Hdirty : ∀ b, b ∈ dirty → datab start nlog sz b.

Lemma log_not_dirty x : start ≤ x < start + nlog → x ∉ dirty.
Proof using Hdirty. intros Hx Hd. by destruct (Hdirty x Hd) as [_ []]. Qed.

Lemma bl_data k b : bl !! k = Some b → datab start nlog sz b.
Proof using Hbl. intros Hk. apply Hbl. by eapply list_elem_of_lookup_2. Qed.

Lemma bl_range k b : bl !! k = Some b → Z.of_nat k + 1 < nlog.
Proof using Hbl. intros Hk%lookup_lt_Some. pose proof (lb_len _ _ _ _ Hbl) as Hl. clear -Hk Hl. lia. Qed.

Lemma write_log_rule (L := log_writes start vw bl) (Q : unit → logst → Prop) :
  (∀ bs, brep (apply_writes vw L) (apply_writes dk L) sz (wr ++ L) ∅ dirty bs →
     Q tt (set_ls_bio bs s)) →
  runs write_log s Q.
Proof using All.
  intros HQ. apply runs_bind, runs_log_get.
  apply (lh_loop s start nlog bl _ (λ k bs, brep (apply_writes vw (take k L))
    (apply_writes dk (take k L)) sz (wr ++ take k L) ∅ dirty bs)); [done|..].
  - intros k b bs Hk Hbs.
    assert (HL : L !! k = Some (start + 1 + Z.of_nat k, vw b))
      by (unfold L, log_writes; by rewrite list_lookup_imap, Hk).
    eapply (log_block_rule (set_ls_bio bs s) Hly Hbl Hll Hbs Hk Hsz).
    + destruct Hcan as [Hc|]; [left; apply Hc; by eapply list_elem_of_lookup_2 | by right].
    + apply log_not_dirty. pose proof (bl_range _ _ Hk). lia.
    + intros bs' Hbs'. exists bs'. split; [done|].
      rewrite (take_S_r _ _ _ HL), !apply_writes_app, app_assoc. cbn.
      rewrite apply_writes_take_other in Hbs'; [done|].
      unfold L. rewrite log_writes_fst. destruct (bl_data _ _ Hk). destruct Hbl. lia.
  - cbn. by rewrite app_nil_r.
  - intros bs Hbs. apply HQ. rewrite take_ge in Hbs; [done|].
    unfold L, log_writes. by rewrite length_imap.
Qed.

Lemma install_trans_rule (M := home_writes start vw bl) (Q : unit → logst → Prop) :
  (∀ bs, brep (apply_writes vw M) (apply_writes dk M) sz (wr ++ M) ∅ (dirty ∖ list_to_set bl) bs →
     Q tt (set_ls_bio bs s)) →
  runs install_trans s Q.
Proof using All.
  intros HQ. apply runs_bind, runs_log_get.
  apply (lh_loop s start nlog bl _ (λ k bs, brep (apply_writes vw (take k M))
    (apply_writes dk (take k M)) sz (wr ++ take k M) ∅
    (dirty ∖ list_to_set (take k bl)) bs)); [done|..].
  - intros k b bs Hk Hbs. set (x := start + 1 + Z.of_nat k).
    assert (HM : M !! k = Some (b, vw x))
      by (unfold M, home_writes; by rewrite list_lookup_imap, Hk).
    assert (Hsub : (size (dirty ∖ list_to_set (take k bl)) ≤ size dirty)%nat)
      by (apply subseteq_size; set_solver).
    eapply (install_block_rule (set_ls_bio bs s) Hly Hbl Hll Hbs Hk ltac:(lia)).
    + destruct Hcan as [Hc|]; [left | right; lia]. apply elem_of_difference.
      split; [apply Hc; by eapply list_elem_of_lookup_2|].
      rewrite elem_of_list_to_set. intros (j & Hj & Hjk)%elem_of_take.
      pose proof (NoDup_lookup _ _ _ _ (lb_nodup _ _ _ _ Hbl) Hk Hj). lia.
    + assert (x ∉ dirty); [|set_solver].
      apply log_not_dirty. pose proof (bl_range _ _ Hk). lia.
    + intros bs' Hbs'. exists bs'. split; [done|].
      rewrite (take_S_r _ _ _ HM), !apply_writes_app, app_assoc. cbn.
      rewrite apply_writes_take_other in Hbs'.
      * rewrite (take_S_r _ _ _ Hk), list_to_set_app_L. cbn.
        replace (dirty ∖ _) with (dirty ∖ list_to_set (take k bl) ∖ {[b]}) by set_solver. done.
      * unfold M. rewrite home_writes_fst. intros Hin. destruct (lb_data _ _ _ _ Hbl _ Hin).
        pose proof (bl_range _ _ Hk). lia.
  - rewrite !take_0, app_nil_r. by replace (dirty ∖ _) with dirty by set_solver.
  - intros bs Hbs. apply HQ. rewrite !take_ge in Hbs; [done | done |].
    unfold M, home_writes. by rewrite length_imap.
Qed.

Lemma write_head_rule (h := head_data (vw start) bl) (Q : unit → logst → Prop) :
  (∀ bs, brep (<[start := h]> vw) (<[start := h]> dk) sz (wr ++ [(start, h)]) ∅ dirty bs →
     Q tt (set_ls_bio bs s)) →
  runs write_head s Q.
Proof using Hly Hbl Hll H Hsz Hdirty.
  clear Hcan. intros HQ. apply runs_bind, runs_log_get.
  assert (u32 (log_dev (ls_log s)) = 1 ∧ u32 (log_start (ls_log s)) = start) as [-> ->].
  { destruct Hll as [-> -> _ _ _ _]. destruct Hly. split; [done | apply u32_small; lia]. }
  assert (Hd : start ∉ dirty) by (apply log_not_dirty; destruct Hly; lia).
  apply runs_bind, runs_zoom, (brep_bread H); [done | | destruct Hly; lia |].
  { right. by rewrite dom_empty_L, union_empty_l_L. }
  intros i bs1 H1. apply runs_bind, runs_zoom, (brep_data H1 start); [apply lookup_insert_eq|].
  intros b -> _. apply runs_bind, runs_zoom, (brep_set H1 start); [apply lookup_insert_eq|].
  intros bs2 H2. apply runs_bind.
  set (h0 := store32 (vw start) 0 (u32 (Z.of_nat (length bl)))).
  eapply (lh_loop (set_ls_bio bs2 s) start nlog bl _ (λ k bs,
    brep (<[start := head_entries h0 0 (take k bl)]> vw) dk sz wr (<[start := i]> ∅) dirty bs)); [done|..].
  - intros k b' bs Hk Hbs. apply runs_bind, runs_zoom, (brep_data Hbs start); [apply lookup_insert_eq|].
    intros b2 E2 _. rewrite fn_lookup_insert in E2.
    apply runs_bind. eapply runs_lh_get; [exact Hll | exact Hk |].
    apply runs_zoom, (brep_set Hbs start); [apply lookup_insert_eq|].
    intros bs' Hbs'. exists bs'. split; [done|].
    rewrite (take_S_r _ _ _ Hk), head_entries_snoc, length_take_le by (by apply lookup_lt_Some in Hk; lia).
    rewrite E2 in Hbs'. eapply brep_proper; [| |done..|exact Hbs']; [|done].
    intros n. unfold insert, fn_insert. by case_decide.
  - cbn. unfold h0. by rewrite (ll_n _ _ _ _ Hll) in H2.
  - intros bs Hbs. rewrite take_ge in Hbs by done.
    apply runs_zoom, runs_bind, (brep_write Hbs start); [apply lookup_insert_eq | destruct Hly; lia |].
    intros bs3 H3. rewrite fn_lookup_insert in H3.
    apply (brep_brelse H3 start); [apply lookup_insert_eq | right; by rewrite !fn_lookup_insert |].
    intros bs4 H4. rewrite delete_insert_id in H4 by done.
    replace (dirty ∖ _) with dirty in H4 by set_solver. apply HQ. exact H4.
Qed.
End Loops.

(** *** Reading the header, recovery and commit *)

Lemma same_log_refl l : same_log l l.
Proof. exists (log_lh l). by destruct l. Qed.

Lemma same_log_trans l1 l2 l3 : same_log l1 l2 → same_log l2 l3 → same_log l1 l3.
Proof. intros (h1 & -> & E1) (h2 & -> & E2). exists h2. split; [done | cbn in *; congruence]. Qed.

Lemma lh_set_rule s i x (Q : unit → logst → Prop) :
  (i < length (lh_block (log_lh (ls_log s))))%nat →
  Q tt (set_ls_log (set_lh (mkLogheader (lh_n (log_lh (ls_log s)))
    (<[i := x]> (lh_block (log_lh (ls_log s))))) (ls_log s)) s) →
  runs (lh_set i x) s Q.
Proof.
  intros Hi HQ. apply runs_bind, runs_log_get. rewrite (proj2 (Nat.ltb_lt _ _) Hi).
  by apply runs_mod.
Qed.

(** The loop of [read_head]. *)
Lemma read_entries_rule s (f : nat → Z) n (Q : unit → logst → Prop) :
  (n ≤ length (lh_block (log_lh (ls_log s))))%nat →
  (∀ l, same_log (ls_log s) l → lh_n (log_lh l) = lh_n (log_lh (ls_log s)) →
     (∀ t, (t < n)%nat → lh_block (log_lh l) !! t = Some (f t)) → Q tt (set_ls_log l s)) →
  runs (kiter (seq 0 n) (λ j, lh_set j (f j))) s Q.
Proof.
  intros Hn HQ.
  apply (runs_kiter_seq _ (λ k s', ∃ l, s' = set_ls_log l s ∧ same_log (ls_log s) l ∧
    lh_n (log_lh l) = lh_n (log_lh (ls_log s)) ∧
    ∀ t, (t < k)%nat → lh_block (log_lh l) !! t = Some (f t))).
  - intros k s' Hk (l & -> & (lh & -> & Hlen) & En & Hl). cbn in Hl.
    apply lh_set_rule; [cbn; lia|]. eexists. split; [done|]. cbn. split_and!; [|done|].
    + eexists. split; [done|]. cbn. by rewrite length_insert.
    + intros t Ht. destruct (decide (t = k)) as [->|].
      * apply list_lookup_insert_eq. lia.
      * rewrite list_lookup_insert_ne by lia. apply Hl. lia.
  - exists (ls_log s). split_and!; [by destruct s | apply same_log_refl | done | lia].
  - intros s' (l & -> & Hsame & En & Hl). auto.
Qed.

Lemma log_lists_nil l start nlog bl :
  log_lists l start nlog bl →
  log_lists (set_lh (mkLogheader 0 (lh_block (log_lh l))) l) start nlog [].
Proof. intros []. by split. Qed.

Lemma loggable_nil start nlog sz : layout start nlog sz → loggable start nlog sz [].
Proof.
  intros []. split; [cbn; lia | by apply NoDup_nil |]. intros b Hb. by apply elem_of_nil in Hb.
Qed.

Section Recover.
Context {start nlog sz : Z} {s : logst}.
Hypothesis Hly : layout start nlog sz.
Context {vw dk : Z → mem} {wr : list (Z * mem)}.
Hypothesis H : brep vw dk sz wr ∅ ∅ (ls_bio s).
Hypothesis Hdev : log_dev (ls_log s) = 1.
Hypothesis Hstart : log_start (ls_log s) = start.
Hypothesis Hnlog : log_size (ls_log s) = nlog.
Hypothesis Hlen : length (lh_block (log_lh (ls_log s))) = Z.to_nat LOGSIZE.
Hypothesis Hhead : header_ok start nlog sz (vw start).

Lemma read_head_rule (Q : unit → logst → Prop) :
  (∀ bs l, brep vw dk sz wr ∅ ∅ bs → same_log (ls_log s) l →
     log_lists l start nlog (head_blocks (vw start)) →
     Q tt (mkLogst bs l (ls_wakeups s))) →
  runs read_head s Q.
Proof using All.
  intros HQ. destruct Hhead as [Hn Hbl]. set (bl := head_blocks (vw start)) in *.
  assert (Hlb : length bl = Z.to_nat (head_n (vw start)))
    by (unfold bl, head_blocks; by rewrite length_fmap, length_seq).
  apply runs_bind, runs_log_get. rewrite Hdev, Hstart.
  rewrite (u32_small start) by (destruct Hly; lia).
  apply runs_bind, runs_zoom, (brep_bread H); [done | right; vm_compute; lia | destruct Hly; lia |].
  intros i bs1 H1. apply runs_bind, runs_zoom, (brep_data H1 start); [apply lookup_insert_eq|].
  intros b -> _. apply runs_bind, runs_mod. apply runs_bind, runs_log_get. apply runs_bind.
  unfold lh_rounds. cbn [ls_log set_ls_log set_lh log_lh lh_n]. fold (head_n (vw start)).
  rewrite <- Hlb. apply read_entries_rule.
  { cbn. rewrite Hlen. pose proof (lb_len _ _ _ _ Hbl). destruct Hly. lia. }
  intros l Hl El Hent. apply runs_zoom.
  apply (brep_brelse H1 start); [apply lookup_insert_eq | right; by apply (brep_clean H) |].
  intros bs2 H2. rewrite delete_insert_id in H2 by done. apply HQ; [done|..].
  - eapply same_log_trans; [|exact Hl]. eexists. split; [reflexivity | done].
  - destruct Hl as (lh & -> & Elen). split; cbn in *; try done; try congruence.
    + rewrite El, Hlb, Z2Nat.id; done.
    + intros t b' Ht. rewrite Hent by (by eapply lookup_lt_Some).
      unfold bl, head_blocks in Ht. rewrite list_lookup_fmap in Ht.
      apply fmap_Some in Ht as (j & [-> _]%lookup_seq & ->). done.
Qed.

Lemma recover_rule (Q : unit → logst → Prop) :
  (∀ bs l, brep (apply_writes vw (recover_writes start vw)) (apply_writes dk (recover_writes start vw)) sz
       (wr ++ recover_writes start vw) ∅ ∅ bs → same_log (ls_log s) l → log_lists l start nlog [] →
     Q tt (mkLogst bs l (ls_wakeups s))) →
  runs recover_from_log s Q.
Proof using All.
  intros HQ. pose proof (proj2 Hhead) as Hbl.
  assert (Hst : start ∉ head_blocks (vw start)).
  { intros Hin. destruct (lb_data _ _ _ _ Hbl _ Hin) as [_ []]. destruct Hly. lia. }
  apply runs_bind, read_head_rule. intros bs1 l1 H1 Hs1 Hl1.
  apply runs_bind. eapply (install_trans_rule (s := mkLogst bs1 l1 _) Hly Hbl Hl1 H1);
    [vm_compute; lia | right; vm_compute; lia | set_solver |].
  intros bs2 H2. replace (∅ ∖ _ : gset Z) with (∅ : gset Z) in H2 by set_solver.
  apply runs_bind, runs_mod. cbn [ls_log set_ls_bio set_ls_log ls_bio ls_wakeups].
  eapply (write_head_rule (s := mkLogst bs2 _ _) Hly (loggable_nil _ _ _ Hly) (log_lists_nil _ _ _ _ Hl1) H2);
    [vm_compute; lia | set_solver |].
  intros bs3 H3. apply HQ.
  - unfold recover_writes. rewrite !apply_writes_app, app_assoc. cbn.
    rewrite apply_writes_other in H3; [exact H3|]. by rewrite home_writes_fst.
  - eapply same_log_trans; [exact Hs1|]. eexists. split; [reflexivity | done].
  - by eapply log_lists_nil.
Qed.
End Recover.

Section Commit.
Context {start nlog sz : Z} {bl : list Z} {s : logst}.
Hypothesis Hly : layout start nlog sz.
Hypothesis Hbl : loggable start nlog sz bl.
Hypothesis Hll : log_lists (ls_log s) start nlog bl.
Context {vw dk : Z → mem} {wr : list (Z * mem)}.
Hypothesis H : brep vw dk sz wr ∅ (list_to_set bl) (ls_bio s).

Lemma start_not_listed : start ∉ bl.
Proof using Hly Hbl.
  intros Hin. destruct (lb_data _ _ _ _ Hbl _ Hin) as [_ []]. destruct Hly. clear H. lia.
Qed.

(** Once the log blocks are written the home locations are written with the blocks'
    contents. *)
Lemma commit_home_writes h :
  home_writes start (<[start := h]> (apply_writes vw (log_writes start vw bl))) bl =
    (λ b, (b, vw b)) <$> bl.
Proof using.
  apply list_eq. intros t. unfold home_writes. rewrite list_lookup_imap, list_lookup_fmap.
  destruct (bl !! t) as [b|] eqn:Ht; [|done]. cbn. do 2 f_equal.
  rewrite fn_lookup_insert_ne by lia. apply apply_writes_lookup; [apply log_writes_nodup|].
  apply elem_of_imap. eauto.
Qed.

Lemma commit_rule (Q : unit → logst → Prop) (W := commit_writes start vw bl) :
  bl ≠ [] →
  (∀ bs l, brep (apply_writes vw W) (apply_writes dk W) sz (wr ++ W) ∅ ∅ bs →
     same_log (ls_log s) l → log_lists l start nlog [] → Q tt (mkLogst bs l (ls_wakeups s))) →
  runs commit s Q.
Proof using All.
  intros Hne HQ. pose proof start_not_listed as Hst.
  assert (Hsz : (size (list_to_set bl : gset Z) < NBUF)%nat).
  { rewrite size_list_to_set by apply Hbl. pose proof (lb_len _ _ _ _ Hbl).
    destruct Hly. unfold NBUF, LOGSIZE, MAXOPBLOCKS in *. lia. }
  assert (Hd : ∀ b, b ∈ (list_to_set bl : gset Z) → datab start nlog sz b)
    by (intros b; rewrite elem_of_list_to_set; apply Hbl).
  assert (HL : start ∉ (log_writes start vw bl).*1) by (rewrite log_writes_fst; lia).
  apply runs_bind, runs_log_get. rewrite (ll_n _ _ _ _ Hll), Z.gtb_ltb.
  destruct (Z.ltb_spec 0 (Z.of_nat (length bl))); [|destruct bl; cbn in *; [done | lia]].
  apply runs_bind, (write_log_rule Hly Hbl Hll H); [done | left; set_solver | done |].
  intros bs1 H1. apply runs_bind.
  eapply (write_head_rule (s := set_ls_bio bs1 s) Hly Hbl Hll H1); [done..|].
  intros bs2 H2. rewrite apply_writes_other in H2 by done. apply runs_bind.
  eapply (install_trans_rule (s := set_ls_bio bs2 s) Hly Hbl Hll H2); [done | left; set_solver | done |].
  intros bs3 H3. rewrite difference_diag_L, commit_home_writes in H3. apply runs_bind, runs_mod.
  cbn [ls_log set_ls_bio set_ls_log ls_bio ls_wakeups].
  eapply (write_head_rule (s := mkLogst bs3 _ _) Hly (loggable_nil _ _ _ Hly)
    (log_lists_nil _ _ _ _ Hll) H3); [vm_compute; lia | set_solver |].
  intros bs4 H4. apply HQ.
  - unfold W, commit_writes. rewrite !apply_writes_app. cbn [apply_writes foldl fst snd].
    rewrite !foldl_app. rewrite apply_writes_other in H4.
    + rewrite fn_lookup_insert in H4. rewrite <- !app_assoc in H4. exact H4.
    + rewrite <- list_fmap_compose. cbn. by rewrite list_fmap_id.
  - eexists. split; [reflexivity | done].
  - by eapply log_lists_nil.
Qed.
End Commit.

(** *** What recovery makes of a disk *)

Lemma brep_disk vw dk sz wr held dirty s :
  brep vw dk sz wr held dirty s →
  (∀ n, md_blocks (bio_disk s) n = dk n) ∧ md_writes (bio_disk s) = wr.
Proof. intros [o [_ Ho]]. split; [apply (cr_disk _ _ Ho) | apply (cr_writes _ _ Ho)]. Qed.

Lemma logical_unlisted start d b : b ∉ head_blocks (d start) → logical start d b = d b.
Proof.
  intros Hb. unfold logical.
  destruct (list_find _ _) as [[t x]|] eqn:E; [|done].
  apply list_find_Some in E as (Ht & <- & _). destruct Hb. by eapply list_elem_of_lookup_2.
Qed.

Lemma logical_listed start d t b :
  NoDup (head_blocks (d start)) → head_blocks (d start) !! t = Some b →
  logical start d b = d (start + 1 + Z.of_nat t).
Proof.
  intros Hnd Ht. unfold logical.
  destruct (list_find _ _) as [[t' x]|] eqn:E.
  - apply list_find_Some in E as (Ht' & <- & _). by rewrite (NoDup_lookup _ _ _ _ Hnd Ht Ht').
  - eapply list_find_None, Forall_lookup in E; [|exact Ht]. done.
Qed.

Lemma head_data_nil h : head_blocks (head_data h []) = [].
Proof. apply head_data_blocks; [done|]. intros b Hb. by apply elem_of_nil in Hb. Qed.

Lemma header_ok_nil start nlog sz h :
  layout start nlog sz → head_blocks h = [] → 0 ≤ head_n h → header_ok start nlog sz h.
Proof. intros Hly Hh Hn. split; [done|]. rewrite Hh. by apply loggable_nil. Qed.

(** The two writes to the header block split a commit's writes in three. *)
Lemma prefix_split {A : Type} (p l1 l2 : list A) x y :
  p `prefix_of` l1 ++ x :: l2 ++ [y] →
  (∃ k, p = take k l1) ∨ (∃ k, p = l1 ++ x :: take k l2) ∨ p = l1 ++ x :: l2 ++ [y].
Proof.
  intros [q E]. assert (Hp : p = take (length p) (l1 ++ x :: l2 ++ [y])) by (by rewrite E, take_app_length).
  set (k := length p) in Hp. clearbody k. subst p. clear E. rewrite take_app. destruct (decide (k ≤ length l1)%nat) as [Hk|Hk].
  - left. exists k. replace (k - length l1)%nat with 0%nat by lia. by rewrite app_nil_r.
  - right. rewrite take_ge by lia. destruct (k - length l1)%nat as [|j] eqn:Ej; [lia|]. cbn.
    rewrite take_app. destruct (decide (j ≤ length l2)%nat).
    + left. exists j. replace (j - length l2)%nat with 0%nat by lia. by rewrite app_nil_r.
    + right. rewrite (take_ge l2) by lia. by rewrite (take_ge [y]) by (cbn; lia).
Qed.

Section CommitCrash.
Context {start nlog sz : Z} {bl : list Z} {vw dk : Z → mem}.
Hypothesis Hly : layout start nlog sz.
Hypothesis Hbl : loggable start nlog sz bl.
Hypothesis Hempty : head_n (dk start) = 0.
Hypothesis Hsame : ∀ b, b ∉ bl → vw b = dk b.

Lemma datab_not_log b t :
  datab start nlog sz b → 0 ≤ t < nlog → b ≠ start + t.
Proof using. intros [_ Hb] Ht ->. lia. Qed.

(** Before the header is written: the old contents. *)
Lemma crash_before k : recovers_as start nlog sz dk (apply_writes dk (take k (log_writes start vw bl))).
Proof using Hly Hbl Hempty.
  pose proof (lb_len _ _ _ _ Hbl) as Hlen.
  assert (E : apply_writes dk (take k (log_writes start vw bl)) start = dk start)
    by (apply apply_writes_take_other; rewrite log_writes_fst; lia).
  assert (Eh : head_blocks (dk start) = []) by (unfold head_blocks; by rewrite Hempty).
  split.
  - rewrite E. apply header_ok_nil; [done.. | lia].
  - intros b Hb. rewrite logical_unlisted; [|rewrite E, Eh; apply not_elem_of_nil].
    apply apply_writes_take_other. rewrite log_writes_fst. intros Hin.
    apply (datab_not_log b (b - start)); [done | lia..].
Qed.

Lemma bl_word b : b ∈ bl → 0 ≤ b < 2147483648.
Proof using Hly Hbl. intros Hb. destruct (lb_data _ _ _ _ Hbl b Hb), Hly. lia. Qed.

(** Once it is written: the new contents. *)
Lemma crash_after k h :
  recovers_as start nlog sz vw (apply_writes dk (log_writes start vw bl ++
    (start, head_data h bl) :: take k ((λ b, (b, vw b)) <$> bl))).
Proof using Hly Hbl Hsame.
  pose proof (lb_len _ _ _ _ Hbl) as Hlen. rewrite apply_writes_app, apply_writes_cons.
  set (d1 := apply_writes dk (log_writes start vw bl)). set (M := (λ b, (b, vw b)) <$> bl).
  assert (EM : M.*1 = bl) by (unfold M; rewrite <- list_fmap_compose; apply list_fmap_id).
  assert (Hn : Z.of_nat (length bl) < 2147483648) by (destruct Hly; unfold LOGSIZE, MAXOPBLOCKS in *; lia).
  set (d := apply_writes _ (take k M)).
  assert (E : ∀ n, n ∉ bl → d n = if decide (n = start) then head_data h bl else d1 n).
  { intros n Hb. unfold d. rewrite apply_writes_take_other by (by rewrite EM).
    unfold insert, fn_insert. case_decide; case_decide; congruence. }
  assert (Hst : start ∉ bl).
  { intros Hin. destruct (lb_data _ _ _ _ Hbl _ Hin) as [_ []]. destruct Hly. lia. }
  assert (Eh : d start = head_data h bl) by (rewrite E by done; by case_decide).
  assert (Eb : head_blocks (d start) = bl) by (rewrite Eh; apply head_data_blocks; [done | apply bl_word]).
  split; [split; [rewrite Eh, head_data_n by done; lia | by rewrite Eb]|].
  intros b Hb. destruct (decide (b ∈ bl)) as [[t Ht]%list_elem_of_lookup|Hnin].
  - rewrite (logical_listed _ _ t) by (rewrite Eb; [apply Hbl || done..]).
    pose proof (lookup_lt_Some _ _ _ Ht). rewrite E.
    + case_decide; [lia|]. unfold d1. apply apply_writes_lookup; [apply log_writes_nodup|].
      apply elem_of_imap. eauto.
    + intros Hin. apply (datab_not_log (start + 1 + Z.of_nat t) (1 + Z.of_nat t)); [by apply Hbl | lia..].
  - rewrite logical_unlisted by (by rewrite Eb). rewrite E, Hsame by done.
    case_decide as Hbs; [by destruct (datab_not_log b 0 Hb); [destruct Hly|]; lia|].
    unfold d1. apply apply_writes_other. rewrite log_writes_fst. intros Hin.
    apply (datab_not_log b (b - start)); [done | lia..].
Qed.
(** Once it is cleared again: the new contents, now at home. *)
Lemma crash_end : recovers_as start nlog sz vw (apply_writes dk (commit_writes start vw bl)).
Proof using Hly Hbl Hsame.
  pose proof (lb_len _ _ _ _ Hbl) as Hlen. unfold commit_writes.
  rewrite apply_writes_app, apply_writes_cons, apply_writes_app, apply_writes_cons.
  set (d := apply_writes dk (log_writes start vw bl)). set (M := (λ b, (b, vw b)) <$> bl).
  assert (EM : M.*1 = bl) by (unfold M; rewrite <- list_fmap_compose; apply list_fmap_id).
  set (h2 := head_data (head_data _ _) []). change (apply_writes ?x []) with x.
  assert (Eh : head_blocks h2 = []) by apply head_data_nil.
  split.
  - rewrite fn_lookup_insert. apply header_ok_nil; [done..|].
    unfold h2. by rewrite head_data_n.
  - intros b Hb. assert (b ≠ start).
    { pose proof (datab_not_log b 0 Hb). destruct Hly. lia. }
    rewrite logical_unlisted by (rewrite fn_lookup_insert, Eh; apply not_elem_of_nil).
    rewrite fn_lookup_insert_ne by done. destruct (decide (b ∈ bl)) as [Hin|Hnin].
    + apply apply_writes_lookup; [rewrite EM; apply Hbl|].
      unfold M. apply (list_elem_of_fmap_2 (λ b, (b, vw b))). done.
    + rewrite apply_writes_other by (by rewrite EM). rewrite fn_lookup_insert_ne by done.
      unfold d. rewrite apply_writes_other, Hsame; [done..|]. rewrite log_writes_fst. intros Hin.
      apply (datab_not_log b (b - start)); [done | lia..].
Qed.

Lemma commit_crash p :
  p `prefix_of` commit_writes start vw bl →
  recovers_as start nlog sz dk (apply_writes dk p) ∨
  recovers_as start nlog sz vw (apply_writes dk p).
Proof using Hly Hbl Hempty Hsame.
  intros [[k ->]|[[k ->]| ->]]%prefix_split.
  - left. by apply crash_before.
  - right. by apply crash_after.
  - right. apply crash_end.
Qed.
End CommitCrash.

Section RecoverCrash.
Context {start nlog sz : Z} {vw d : Z → mem}.
Hypothesis Hly : layout start nlog sz.
Hypothesis Hrec : recovers_as start nlog sz vw d.

Lemma recover_end (d' := apply_writes d (recover_writes start d)) :
  head_n (d' start) = 0 ∧ ∀ b, datab start nlog sz b → d' b = vw b.
Proof using Hly Hrec.
  destruct Hrec as [[Hn Hbl] Hlog]. unfold d', recover_writes. rewrite apply_writes_app.
  cbn [apply_writes foldl fst snd]. split.
  - rewrite fn_lookup_insert. by apply head_data_n.
  - intros b Hb. assert (b ≠ start).
    { pose proof (datab_not_log (nlog := nlog) (sz := sz) b 0 Hb). destruct Hly. lia. }
    rewrite fn_lookup_insert_ne by done. rewrite <- Hlog by done.
    destruct (decide (b ∈ head_blocks (d start))) as [[t Ht]%list_elem_of_lookup|Hnin].
    + rewrite (logical_listed _ _ t) by (apply Hbl || done).
      apply apply_writes_lookup; [apply home_writes_nodup, Hbl|]. apply elem_of_imap. eauto.
    + rewrite logical_unlisted by done. apply apply_writes_other. by rewrite home_writes_fst.
Qed.

Lemma recover_crash p :
  p `prefix_of` recover_writes start d → recovers_as start nlog sz vw (apply_writes d p).
Proof using Hly Hrec.
  intros [q Hq]. destruct Hrec as [[Hn Hbl] Hlog].
  destruct (decide (length p ≤ length (home_writes start d (head_blocks (d start))))%nat) as [Hp|Hp].
  - assert (p = take (length p) (home_writes start d (head_blocks (d start)))) as ->.
    { rewrite <- (take_app_le _ [(start, head_data (d start) [])]) by done.
      unfold recover_writes in Hq. rewrite Hq. by rewrite take_app_length. }
    set (k := length p). clearbody k.
    assert (E : ∀ n, n ∉ head_blocks (d start) →
      apply_writes d (take k (home_writes start d (head_blocks (d start)))) n = d n).
    { intros n Hin. apply apply_writes_take_other. by rewrite home_writes_fst. }
    assert (Elog : ∀ t, 0 ≤ t < nlog → start + t ∉ head_blocks (d start)).
    { intros t Ht Hin. destruct (lb_data _ _ _ _ Hbl _ Hin) as [_ []]. lia. }
    assert (Est : start ∉ head_blocks (d start)).
    { replace start with (start + 0) at 1 by lia. apply Elog. destruct Hly. lia. }
    split; [by rewrite E|]. intros b Hb. rewrite <- Hlog by done.
    destruct (decide (b ∈ head_blocks (d start))) as [[t Ht]%list_elem_of_lookup|Hnin].
    + rewrite !(logical_listed _ _ t) by (rewrite ?E by done; apply Hbl || done).
      apply E. rewrite <- Z.add_assoc. apply Elog.
      apply lookup_lt_Some in Ht. pose proof (lb_len _ _ _ _ Hbl). lia.
    + rewrite !logical_unlisted by (by rewrite ?E). by apply E.
  - assert (p = recover_writes start d) as ->.
    { unfold recover_writes in *. apply (f_equal length) in Hq as Hl.
      rewrite !length_app in Hl. cbn in Hl. destruct q; [by rewrite app_nil_r in Hq|cbn in Hl; lia]. }
    destruct recover_end as [He1 He2]. split.
    + apply header_ok_nil; [done | | lia]. unfold head_blocks. by rewrite He1.
    + intros b Hb. rewrite logical_unlisted; [by apply He2|].
      unfold head_blocks. rewrite He1. apply not_elem_of_nil.
Qed.
End RecoverCrash.
