(* ===== verification/LogOps.v ===== *)
(** * Transactions

    The operations a file system call uses, [begin_op], [log_write] and [end_op], on
    the invariant [logst_ok] that holds between them, and the main theorems on the
    log: a transaction that returns is on disk, and one that is cut short by a crash
    at any point, also by crashes during recovery, is on disk completely or not at
    all. *)

From S2P Require Import Prelude Param KString Spinlock Bio Log LogCrash.
Local Open Scope Z_scope.

(** ** Definitions *)

(** The state between operations of the log: [vw] is the contents of the blocks, [dk]
    the disk, [bl] the blocks of the current transaction, [o] the number of calls in
    it. *)
Record logst_ok (start nlog sz : Z) (vw dk : Z → mem) (wr : list (Z * mem))
    (held : gmap Z nat) (bl : list Z) (o : Z) (s : logst) : Prop := {
  lo_layout : layout start nlog sz;
  lo_bl : loggable start nlog sz bl;
  lo_lists : log_lists (ls_log s) start nlog bl;
  lo_out : log_outstanding (ls_log s) = o;
  lo_free : locked (log_lock (ls_log s)) = 0;
  lo_idle : log_committing (ls_log s) = false;
  lo_empty : head_n (dk start) = 0;
  lo_brep : brep vw dk sz wr held (list_to_set bl) (ls_bio s)
}.

(** One update in the style of the comment of [log_write]. *)
Definition update_block (u : Z * mem) : K logst unit :=
  i ← onbio (bread 1 u.1);
  onbio (buf_mod i (set_data u.2));;
  log_write i;;
  onbio (brelse i).

(** A file system call that makes the updates [ups]. *)
Definition transaction (ups : list (Z * mem)) : K logst unit :=
  begin_op;;
  kiter ups update_block;;
  end_op.

(** The blocks a transaction records, in the order of their first update. *)
Definition log_record (bl : list Z) (b : Z) : list Z :=
  if decide (b ∈ bl) then bl else bl ++ [b].

(** The disk writes of the last [end_op] of a transaction. *)
Definition end_writes (start : Z) (vw : Z → mem) (bl : list Z) : list (Z * mem) :=
  match bl with [] => [] | _ => commit_writes start vw bl end.

(** ** Lemmas *)

Lemma brep_cpu vw dk sz wr held dirty s c :
  brep vw dk sz wr held dirty s → cpu_ok c → brep vw dk sz wr held dirty (set_cpu c s).
Proof. intros [o [[_ Hl] H]] Hc. exists o. split; [by split|]. destruct H. by split. Qed.

Lemma brep_cpu_ok vw dk sz wr held dirty s : brep vw dk sz wr held dirty s → cpu_ok (bio_cpu s).
Proof. by intros [o [[Hc _] _]]. Qed.

Lemma runs_acquire_log s (Q : unit → logst → Prop) :
  cpu_ok (bio_cpu (ls_bio s)) → locked (log_lock (ls_log s)) = 0 →
  (∀ c lk, taken c lk →
     Q tt (mkLogst (set_cpu c (ls_bio s)) (set_log_lock lk (ls_log s)) (ls_wakeups s))) →
  runs acquire_log s Q.
Proof.
  intros Hc Hl HQ. destruct (acquire_taken _ _ Hc Hl) as (c' & lk' & E & Ht).
  eapply runs_ok; [unfold acquire_log; rewrite E; reflexivity | auto].
Qed.

Lemma runs_release_log s (Q : unit → logst → Prop) :
  taken (bio_cpu (ls_bio s)) (log_lock (ls_log s)) →
  (∀ c lk, cpu_ok c → locked lk = 0 →
     Q tt (mkLogst (set_cpu c (ls_bio s)) (set_log_lock lk (ls_log s)) (ls_wakeups s))) →
  runs release_log s Q.
Proof.
  intros Ht HQ. destruct (release_taken _ _ Ht) as (c' & lk' & E & Hc & Hl).
  eapply runs_ok; [unfold release_log; rewrite E; reflexivity | auto].
Qed.

Section Ops.
Context {start nlog sz : Z} {vw dk : Z → mem} {wr : list (Z * mem)} {held : gmap Z nat}.
Context {bl : list Z} {o : Z} {s : logst}.
Hypothesis H : logst_ok start nlog sz vw dk wr held bl o s.

Lemma begin_op_rule (Q : unit → logst → Prop) :
  Z.of_nat (length bl) + (o + 1) * MAXOPBLOCKS ≤ LOGSIZE →
  (∀ s', logst_ok start nlog sz vw dk wr held bl (o + 1) s' → Q tt s') → runs begin_op s Q.
Proof using H.
  intros Hsp HQ. destruct H as [Hly Hbl Hll Ho Hf Hi He Hb].
  apply runs_bind, runs_acquire_log; [by eapply brep_cpu_ok | done |]. intros c lk Ht.
  apply runs_bind, runs_log_get. cbn [ls_log set_log_lock log_committing log_lh log_outstanding].
  rewrite Hi, (ll_n _ _ _ _ Hll), Ho, Z.gtb_ltb.
  destruct (Z.ltb_spec LOGSIZE (Z.of_nat (length bl) + (o + 1) * MAXOPBLOCKS)); [lia|].
  apply runs_bind, runs_mod. apply runs_release_log; [done|]. intros c' lk' Hc' Hl'.
  apply HQ. split; cbn; try done; [|by rewrite Ho |].
  - destruct Hll. by split.
  - do 2 (apply brep_cpu; [|by eauto using taken_cpu]). done.
Qed.

Lemma log_scan_spec l (bs : list Z) b i :
  (∀ t x, bs !! t = Some x → lh_block (log_lh l) !! (i + t)%nat = Some x ∧ u32 x = x) →
  log_scan l b i (length bs) =
    Ok (match list_find (b =.) bs with Some (t, _) => i + t | None => i + length bs end)%nat.
Proof using.
  revert i. induction bs as [|x bs IH]; intros i Hbs; cbn [length log_scan].
  - by rewrite Nat.add_0_r.
  - destruct (Hbs 0%nat x eq_refl) as [Hx Ex]. rewrite Nat.add_0_r in Hx. rewrite Hx, Ex.
    cbn. destruct (Z.eqb_spec x b) as [->|Hne].
    + rewrite decide_True by done. by rewrite Nat.add_0_r.
    + rewrite decide_False by done. rewrite IH.
      * destruct (list_find _ bs) as [[t y]|]; cbn; f_equal; lia.
      * intros t y Hy. rewrite Nat.add_succ_comm. by apply (Hbs (S t)).
Qed.

Lemma log_record_loggable b :
  Z.of_nat (length bl) < nlog - 1 → datab start nlog sz b →
  loggable start nlog sz (log_record bl b).
Proof using H.
  intros Hlen Hb. destruct (lo_bl _ _ _ _ _ _ _ _ _ _ H) as [L1 L2 L3]. unfold log_record.
  case_decide; [done|]. split.
  - rewrite length_app. cbn. lia.
  - apply NoDup_app. split_and!; [done | set_solver | apply NoDup_singleton].
  - intros x. rewrite elem_of_app, list_elem_of_singleton. intros [?| ->]; auto.
Qed.

(** The header after [log_write] has recorded [b]. *)
Lemma log_record_rule b (l := ls_log s) s1 m (Q : unit → logst → Prop) :
  Z.of_nat (length bl) < nlog - 1 → datab start nlog sz b →
  lh_n (log_lh (ls_log s1)) = lh_n (log_lh l) → lh_block (log_lh (ls_log s1)) = lh_block (log_lh l) →
  (∀ lh, log_lists (set_lh lh l) start nlog (log_record bl b) →
     runs m (set_ls_log (set_lh lh (ls_log s1)) s1) Q) →
  runs (i ← kout (log_scan (ls_log s1) b 0 (Z.to_nat (lh_n (log_lh (ls_log s1)))));
        lh_set i (s32 b);;
        kwhen (Z.of_nat i =? lh_n (log_lh (ls_log s1))) (set_lh_n (lh_n (log_lh (ls_log s1)) + 1));;
        m) s1 Q.
Proof using H.
  intros Hlen [Hb _] En Eb HQ. destruct H as [Hly Hbl Hll _ _ _ _ _]. fold l in Hll.
  destruct Hll as [D1 D2 D3 D4 D5 D6]. rewrite En, D4, Nat2Z.id.
  assert (Hsz : sz < 2147483648 ∧ nlog ≤ LOGSIZE) by (destruct Hly; lia).
  rewrite (log_scan_spec _ bl).
  2:{ intros t x Hx. rewrite Eb. split; [auto|]. apply u32_small.
      destruct (lb_data _ _ _ _ Hbl x); [by eapply list_elem_of_lookup_2 | lia]. }
  apply runs_bind, runs_out. rewrite (s32_small b) by lia. apply runs_bind. unfold log_record in HQ.
  destruct (list_find _ bl) as [[t x]|] eqn:Ef; cbn [Nat.add].
  - apply list_find_Some in Ef as (Ht & <- & _). pose proof (lookup_lt_Some _ _ _ Ht).
    apply lh_set_rule; [rewrite Eb, D5; lia|].
    destruct (Z.eqb_spec (Z.of_nat t) (Z.of_nat (length bl))); [lia|]. apply runs_bind, runs_ret, HQ.
    rewrite decide_True by (by eapply list_elem_of_lookup_2).
    split; try done; cbn; [by rewrite En | by rewrite length_insert, Eb |].
    intros t' x Hx. rewrite Eb, (list_insert_id _ t) by auto. auto.
  - assert (b ∉ bl).
    { intros Hin. apply list_find_None in Ef. by apply (proj1 (Forall_forall _ _) Ef b Hin). }
    rewrite decide_False in HQ by done.
    apply lh_set_rule; [rewrite Eb, D5; lia|]. rewrite Z.eqb_refl. apply runs_bind, runs_mod, HQ.
    split; try done; cbn; [rewrite length_app; cbn; lia | by rewrite length_insert, Eb |].
    intros t x. rewrite Eb, lookup_app_Some, list_lookup_singleton_Some.
    intros [Hx|(Hge & Ht & <-)].
    + rewrite list_lookup_insert_ne by (apply lookup_lt_Some in Hx; lia). auto.
    + assert (t = length bl) as -> by lia. apply list_lookup_insert_eq. lia.
Qed.

Lemma log_write_rule b i (Q : unit → logst → Prop) :
  Z.of_nat (length bl) < nlog - 1 → 1 ≤ o → datab start nlog sz b → held !! b = Some i →
  (∀ s', logst_ok start nlog sz vw dk wr held (log_record bl b) o s' → Q tt s') →
  runs (log_write i) s Q.
Proof using H.
  intros Hlen Ho1 Hb Hi HQ. pose proof (log_record_loggable b Hlen Hb) as Hbl'.
  pose proof H as [Hly Hbl Hll Ho Hf Hid He Hbr].
  apply runs_bind, runs_log_get. rewrite (ll_n _ _ _ _ Hll), (ll_size _ _ _ _ Hll), Ho.
  assert (nlog ≤ LOGSIZE) by (destruct Hly; lia).
  rewrite !Z.geb_leb. destruct (Z.leb_spec LOGSIZE (Z.of_nat (length bl))); [lia|].
  destruct (Z.leb_spec (nlog - 1) (Z.of_nat (length bl))); [lia|].
  destruct (Z.ltb_spec o 1); [lia|]. cbn [orb].
  apply runs_bind, runs_acquire_log; [by eapply brep_cpu_ok | done |]. intros c lk Ht.
  assert (Hb1 : brep vw dk sz wr held (list_to_set bl) (set_cpu c (ls_bio s)))
    by (apply brep_cpu; [done | by eapply taken_cpu]).
  apply runs_bind, runs_zoom, (brep_data Hb1 b); [done|]. intros bf _ ->.
  apply runs_bind, runs_log_get. apply (log_record_rule b); [done..|]. intros lh Hlh.
  apply runs_bind, runs_zoom, (brep_dirty Hb1 b); [done|]. intros bs Hbs Ec.
  apply runs_release_log; [cbn; by rewrite Ec|]. intros c' lk' Hc' Hl'.
  apply HQ. split; try done.
  - destruct Hlh. by split.
  - apply brep_cpu; [|done]. cbn. unfold log_record. case_decide.
    + replace (list_to_set bl : gset Z) with (list_to_set bl ∪ {[b]} : gset Z) by set_solver. done.
    + rewrite list_to_set_app_L. cbn. by rewrite union_empty_r_L.
Qed.
End Ops.

(** *** [end_op] *)

Lemma commit_writes_header start d vw bl :
  head_n (apply_writes d (commit_writes start vw bl) start) = 0.
Proof.
  unfold commit_writes. rewrite apply_writes_app, apply_writes_cons, apply_writes_app.
  rewrite apply_writes_cons. change (apply_writes ?x []) with x.
  rewrite fn_lookup_insert. by apply head_data_n.
Qed.

Lemma commit_any_rule start nlog sz vw dk wr bl (s : logst) (Q : unit → logst → Prop)
    (W := end_writes start vw bl) :
  layout start nlog sz → loggable start nlog sz bl → log_lists (ls_log s) start nlog bl →
  brep vw dk sz wr ∅ (list_to_set bl) (ls_bio s) →
  (∀ bs l, brep (apply_writes vw W) (apply_writes dk W) sz (wr ++ W) ∅ ∅ bs →
     same_log (ls_log s) l → log_lists l start nlog [] → Q tt (mkLogst bs l (ls_wakeups s))) →
  runs commit s Q.
Proof.
  intros Hly Hbl Hll Hb HQ. destruct bl as [|b bl].
  - apply runs_bind, runs_log_get. rewrite (ll_n _ _ _ _ Hll). cbn.
    apply runs_ret. rewrite app_nil_r in HQ. destruct s. apply HQ; [done | apply same_log_refl | done].
  - by apply (commit_rule Hly Hbl Hll Hb).
Qed.

Section EndOp.
Context {start nlog sz : Z} {vw dk : Z → mem} {wr : list (Z * mem)}.
Context {bl : list Z} {s : logst}.

Lemma end_op_last_rule (Q : unit → logst → Prop) (W := end_writes start vw bl) :
  logst_ok start nlog sz vw dk wr ∅ bl 1 s →
  (∀ s', logst_ok start nlog sz (apply_writes vw W) (apply_writes dk W) (wr ++ W) ∅ [] 0 s' →
     Q tt s') →
  runs end_op s Q.
Proof.
  intros [Hly Hbl Hll Ho Hf Hi He Hb] HQ.
  apply runs_bind, runs_acquire_log; [by eapply brep_cpu_ok | done |]. intros c lk Ht.
  apply runs_bind, runs_mod. apply runs_bind, runs_log_get.
  cbn [ls_log set_ls_log set_outstanding set_log_lock log_committing log_outstanding].
  rewrite Hi, Ho. change (1 - 1 =? 0) with true. cbn [kwhen].
  apply runs_bind, runs_mod. apply runs_bind, runs_release_log; [done|]. intros c1 lk1 Hc1 Hl1.
  apply runs_bind. eapply (commit_any_rule start nlog sz vw dk wr bl); [done | done | | |].
  { destruct Hll. by split. }
  { do 2 (apply brep_cpu; [|by eauto using taken_cpu]). exact Hb. }
  intros bs l Hbs (lh & -> & _) Hl. fold W in Hbs.
  apply runs_bind, runs_acquire_log; [by eapply brep_cpu_ok | done |]. intros c2 lk2 Ht2.
  apply runs_bind, runs_mod. apply runs_bind, runs_mod.
  apply runs_release_log; [done|]. intros c3 lk3 Hc3 Hl3.
  apply HQ. split; try done; cbn.
  - by apply loggable_nil.
  - destruct Hl. by split.
  - unfold W, end_writes. destruct bl; [done|]. apply commit_writes_header.
  - do 2 (apply brep_cpu; [|by eauto using taken_cpu]). exact Hbs.
Qed.

(** With other calls in the transaction [end_op] leaves it open. *)
Lemma end_op_more_rule held o (Q : unit → logst → Prop) :
  logst_ok start nlog sz vw dk wr held bl o s → 1 < o →
  (∀ s', logst_ok start nlog sz vw dk wr held bl (o - 1) s' → ls_wakeups s' = S (ls_wakeups s) →
     Q tt s') →
  runs end_op s Q.
Proof.
  intros [Hly Hbl Hll Ho Hf Hi He Hb] Ho1 HQ.
  apply runs_bind, runs_acquire_log; [by eapply brep_cpu_ok | done |]. intros c lk Ht.
  apply runs_bind, runs_mod. apply runs_bind, runs_log_get.
  cbn [ls_log set_ls_log set_outstanding set_log_lock log_committing log_outstanding].
  rewrite Hi, Ho. destruct (Z.eqb_spec (o - 1) 0); [lia|]. cbn [kwhen].
  apply runs_bind, runs_mod. apply runs_bind, runs_release_log; [done|]. intros c1 lk1 Hc1 Hl1.
  apply runs_ret, HQ; [|done]. split; try done; cbn.
  - destruct Hll. by split.
  - do 2 (apply brep_cpu; [|by eauto using taken_cpu]). exact Hb.
Qed.
End EndOp.

(** *** Transactions *)

Lemma update_block_rule start nlog sz vw dk wr bl o s u (Q : unit → logst → Prop) :
  logst_ok start nlog sz vw dk wr ∅ bl o s → 1 ≤ o →
  Z.of_nat (length bl) < nlog - 1 → datab start nlog sz u.1 →
  (∀ s', logst_ok start nlog sz (<[u.1 := u.2]> vw) dk wr ∅ (log_record bl u.1) o s' → Q tt s') →
  runs (update_block u) s Q.
Proof.
  intros H Ho Hlen Hu HQ. destruct u as [b d]. cbn [fst snd] in *.
  pose proof H as [Hly Hbl Hll Hout Hf Hi He Hb].
  assert (Hsz : (size (list_to_set bl : gset Z) < NBUF)%nat).
  { rewrite size_list_to_set by apply Hbl. destruct Hly. unfold NBUF, LOGSIZE, MAXOPBLOCKS in *. lia. }
  apply runs_bind, runs_zoom, (brep_bread Hb); [done | | destruct Hu; cbn in *; lia |].
  { right. by rewrite dom_empty_L, union_empty_l_L. }
  intros i bs1 H1. apply runs_bind, runs_zoom, (brep_set H1 b); [apply lookup_insert_eq|].
  intros bs2 H2. apply runs_bind.
  eapply (log_write_rule (held := {[b := i]}) (vw := <[b := d]> vw)); [by split | done.. | apply lookup_singleton_eq |].
  intros s3 [_ Hbl3 Hll3 Hout3 Hf3 Hi3 He3 H3].
  apply runs_zoom, (brep_brelse H3 b); [apply lookup_singleton_eq | |].
  { left. unfold log_record. case_decide; set_solver. }
  intros bs4 H4. rewrite delete_singleton_eq in H4. apply HQ. by split.
Qed.

Lemma updates_rule start nlog sz vw dk wr bl o s ups (Q : unit → logst → Prop) :
  logst_ok start nlog sz vw dk wr ∅ bl o s → 1 ≤ o →
  Z.of_nat (length bl + length ups) < nlog → (∀ u, u ∈ ups → datab start nlog sz u.1) →
  (∀ s', logst_ok start nlog sz (apply_writes vw ups) dk wr ∅ (foldl log_record bl ups.*1) o s' →
     Q tt s') →
  runs (kiter ups update_block) s Q.
Proof.
  revert vw bl s. induction ups as [|u ups IH]; intros vw bl s H Ho Hlen Hu HQ.
  - apply runs_ret, HQ, H.
  - cbn in Hlen. apply runs_bind, (update_block_rule start nlog sz vw dk wr bl o); [done | done | lia | |].
    { apply Hu. left. }
    intros s' H'. apply (IH _ _ _ H'); [done | | |done].
    + unfold log_record. case_decide; rewrite ?length_app; cbn; lia.
    + intros w Hw. apply Hu. by right.
Qed.

Lemma transaction_rule start nlog sz vw dk wr s ups (Q : unit → logst → Prop)
    (bl := foldl log_record [] ups.*1) (W := end_writes start (apply_writes vw ups) bl) :
  logst_ok start nlog sz vw dk wr ∅ [] 0 s → Z.of_nat (length ups) < nlog →
  (∀ u, u ∈ ups → datab start nlog sz u.1) →
  (∀ s', loggable start nlog sz bl →
     logst_ok start nlog sz (apply_writes (apply_writes vw ups) W) (apply_writes dk W)
       (wr ++ W) ∅ [] 0 s' → Q tt s') →
  runs (transaction ups) s Q.
Proof.
  intros H Hlen Hu HQ. apply runs_bind, (begin_op_rule H); [cbn; unfold LOGSIZE, MAXOPBLOCKS; lia|].
  intros s1 H1. apply runs_bind, (updates_rule _ _ _ _ _ _ _ _ _ _ _ H1); [lia | done.. |].
  intros s2 H2. apply (end_op_last_rule _ H2). intros s3 H3. apply HQ; [apply H2 | done].
Qed.

Lemma log_record_elem bl ns b : b ∈ foldl log_record bl ns ↔ b ∈ bl ∨ b ∈ ns.
Proof.
  revert bl. induction ns as [|n ns IH]; intros bl; cbn [foldl].
  - rewrite elem_of_nil. tauto.
  - rewrite IH, elem_of_cons. unfold log_record. case_decide; [|rewrite elem_of_app, list_elem_of_singleton];
      [|tauto]. split; [tauto|]. intros [?|[->|?]]; auto.
Qed.

(** The end of a commit, block by block. *)
Lemma end_writes_data start nlog sz bl vw d b :
  layout start nlog sz → loggable start nlog sz bl → (∀ x, x ∉ bl → vw x = d x) →
  datab start nlog sz b → apply_writes d (end_writes start vw bl) b = vw b.
Proof.
  intros Hly Hbl Hs Hb. unfold end_writes. destruct bl as [|x bl].
  - symmetry. apply Hs, not_elem_of_nil.
  - destruct (crash_end Hly Hbl Hs) as [_ Hl]. rewrite <- Hl by done.
    rewrite logical_unlisted; [done|]. unfold head_blocks. rewrite commit_writes_header.
    apply not_elem_of_nil.
Qed.

(** *** Crashes *)

Lemma recovery_rule start nlog sz d vw s (Q : unit → logst → Prop) :
  layout start nlog sz → rebooted start nlog sz d s → recovers_as start nlog sz vw d →
  (∀ s', md_writes (bio_disk (ls_bio s')) = recover_writes start d →
     (∀ b, datab start nlog sz b → md_blocks (bio_disk (ls_bio s')) b = vw b) → Q tt s') →
  runs recover_from_log s Q.
Proof.
  intros Hly (Hb & Hd & Hs & Hn & Hl) Hrec HQ.
  apply (recover_rule Hly Hb Hd Hs Hn Hl (proj1 Hrec)). intros bs l Hbs _ _.
  destruct (brep_disk _ _ _ _ _ _ _ Hbs) as [E1 E2]. apply HQ; [done|].
  intros b Hb'. cbn. rewrite E1. by apply (recover_end Hly Hrec).
Qed.

Lemma crashed_recovery_step start nlog sz vw d d' :
  layout start nlog sz → recovers_as start nlog sz vw d →
  rtc (crashed_recovery start nlog sz) d d' → recovers_as start nlog sz vw d'.
Proof.
  intros Hly Hrec Hrtc. induction Hrtc as [|d d1 d' (s & s' & p & Hre & Hrun & Hp & ->) _ IH]; [done|].
  apply IH. apply (recover_crash Hly Hrec).
  assert (Hr : runs recover_from_log s (λ _ s', md_writes (bio_disk (ls_bio s')) = recover_writes start d))
    by (eapply recovery_rule; eauto).
  destruct Hr as ([] & s1 & Hr & E). rewrite Hrun in Hr. injection Hr as <-. by rewrite <- E.
Qed.

Lemma end_writes_crash start nlog sz bl vw dk p :
  layout start nlog sz → loggable start nlog sz bl → head_n (dk start) = 0 →
  (∀ x, x ∉ bl → vw x = dk x) → p `prefix_of` end_writes start vw bl →
  recovers_as start nlog sz dk (apply_writes dk p) ∨ recovers_as start nlog sz vw (apply_writes dk p).
Proof.
  intros Hly Hbl He Hs Hp. unfold end_writes in Hp. destruct bl as [|x bl].
  - apply prefix_nil_inv in Hp as ->. left.
    apply (crash_before (vw := vw) Hly Hbl He 0).
  - by apply (commit_crash Hly Hbl He Hs).
Qed.

(** A transaction from a state with no open one: what it commits and where that differs
    from the disk. *)
Lemma transaction_views start nlog sz vw dk wr s ups :
  logst_ok start nlog sz vw dk wr ∅ [] 0 s →
  (∀ x, x ∉ foldl log_record [] ups.*1 → apply_writes vw ups x = dk x) ∧
  (∀ x, apply_writes vw ups x = apply_writes dk ups x).
Proof.
  intros H.
  assert (E : ∀ n, vw n = dk n) by (intros n; by apply (brep_clean (lo_brep _ _ _ _ _ _ _ _ _ _ H))).
  split; intros x.
  - rewrite log_record_elem. intros Hx. rewrite apply_writes_other by tauto. apply E.
  - by apply apply_writes_ext.
Qed.

(** *** [initlog] *)

Lemma readsb_rule vw dk sz wr held dirty s (Q : superblock → bio → Prop) :
  brep vw dk sz wr held dirty s → held !! 1 = None →
  (1 ∈ dirty ∨ (size (dom held ∪ dirty) < NBUF)%nat) → 1 < sz →
  (∀ s', brep vw dk sz wr held dirty s' → Q (superblock_of (vw 1)) s') → runs (readsb 1) s Q.
Proof.
  intros H H1 Hroom Hsz HQ. apply runs_bind, (brep_bread H); [done..|].
  intros i s1 Hr. apply runs_bind, (brep_data Hr 1); [apply lookup_insert_eq|]. intros b -> _.
  apply runs_bind, (brep_brelse Hr 1); [apply lookup_insert_eq | |].
  { destruct (decide (1 ∈ dirty)); [by left | right; by apply (brep_clean H)]. }
  intros s2 H2. rewrite delete_insert_id in H2 by done. by apply runs_ret, HQ.
Qed.

Lemma initlog_rule start nlog sz d wr s (Q : unit → logst → Prop) :
  brep d d sz wr ∅ ∅ (ls_bio s) → ls_log s = log0 → layout start nlog sz → 1 < sz →
  sb_logstart (superblock_of (d 1)) = start → sb_nlog (superblock_of (d 1)) = nlog →
  header_ok start nlog sz (d start) →
  (∀ s' d', logst_ok start nlog sz d' d' (wr ++ recover_writes start d) ∅ [] 0 s' →
     (∀ b, datab start nlog sz b → d' b = logical start d b) → Q tt s') →
  runs (initlog 1) s Q.
Proof.
  intros Hb Hl Hly Hsz Es En Hh HQ. unfold initlog. change (SIZEOF_logheader >=? BSIZE) with false.
  apply runs_bind, runs_mod. apply runs_bind, runs_zoom, (readsb_rule _ _ _ _ _ _ _ _ Hb); [done | right; vm_compute; lia | done |].
  intros bs1 H1. apply runs_bind, runs_mod. rewrite Hl, Es, En.
  assert (s32 start = start ∧ s32 nlog = nlog) as [-> ->].
  { destruct Hly. unfold LOGSIZE, MAXOPBLOCKS in *. split; apply s32_small; lia. }
  eapply (recover_rule Hly (s := mkLogst bs1 _ _) H1); [done..|].
  intros bs l Hbs (lh & -> & _) Hlists.
  destruct (recover_end Hly (vw := logical start d) (conj Hh (λ b _, eq_refl))) as [He Hd].
  eapply HQ; [|exact Hd]. split; try done. by apply loggable_nil.
Qed.

(** ** Properties *)

(** C13: a transaction that returns is on the disk.  From a state with no open
    transaction, [begin_op], the updates (each a [bread], a change of the data, a
    [log_write] and a [brelse]) and [end_op] return, every block outside the log then
    has its updated contents on the disk and in the cache, the log is empty again, and
    the invariant holds.  The number of updates is below the size of the log, which
    is where [log_write] panics. *)
Theorem transaction_durable start nlog sz vw dk wr s ups :
  logst_ok start nlog sz vw dk wr ∅ [] 0 s → Z.of_nat (length ups) < nlog →
  (∀ u, u ∈ ups → datab start nlog sz u.1) →
  ∃ s' vw' dk' wr', transaction ups s = Ok (tt, s') ∧
    logst_ok start nlog sz vw' dk' wr' ∅ [] 0 s' ∧
    ∀ b, datab start nlog sz b →
      vw' b = apply_writes dk ups b ∧ md_blocks (bio_disk (ls_bio s')) b = apply_writes dk ups b.
Proof.
  intros H Hlen Hu. destruct (transaction_views _ _ _ _ _ _ _ ups H) as [Hs Hv].
  assert (Hr : runs (transaction ups) s (λ _ s', ∃ vw' dk' wr',
    logst_ok start nlog sz vw' dk' wr' ∅ [] 0 s' ∧
    ∀ b, datab start nlog sz b → vw' b = apply_writes dk ups b ∧ dk' b = apply_writes dk ups b)).
  { apply (transaction_rule start nlog sz vw dk wr); [done..|]. intros s' Hbl H'.
    do 3 eexists. split; [exact H'|]. intros b Hb. rewrite <- Hv.
    split; eapply end_writes_data; eauto; apply H. }
  destruct Hr as ([] & s' & Hr & vw' & dk' & wr' & H' & Hd). exists s', vw', dk', wr'.
  split_and!; [done..|]. intros b Hb. destruct (Hd b Hb). split; [done|].
  by rewrite (proj1 (brep_disk _ _ _ _ _ _ _ (lo_brep _ _ _ _ _ _ _ _ _ _ H'))).
Qed.

(** C1: a transaction is atomic under crashes.  Whatever prefix [p] of its disk writes
    was done when the machine stopped, and however often recovery was itself cut
    short afterwards, a recovery that is allowed to finish does finish, and leaves
    the blocks outside the log either all as they were before the transaction or all
    as the transaction updated them. *)
Theorem transaction_atomic start nlog sz vw dk wr s ups :
  logst_ok start nlog sz vw dk wr ∅ [] 0 s → Z.of_nat (length ups) < nlog →
  (∀ u, u ∈ ups → datab start nlog sz u.1) →
  ∃ s' w, transaction ups s = Ok (tt, s') ∧ md_writes (bio_disk (ls_bio s')) = wr ++ w ∧
    ∀ p d s2, p `prefix_of` w → rtc (crashed_recovery start nlog sz) (apply_writes dk p) d →
      rebooted start nlog sz d s2 →
      ∃ s3, recover_from_log s2 = Ok (tt, s3) ∧
        ((∀ b, datab start nlog sz b → md_blocks (bio_disk (ls_bio s3)) b = dk b) ∨
         (∀ b, datab start nlog sz b → md_blocks (bio_disk (ls_bio s3)) b = apply_writes dk ups b)).
Proof.
  intros H Hlen Hu. destruct (transaction_views _ _ _ _ _ _ _ ups H) as [Hs Hv].
  set (bl := foldl log_record [] ups.*1) in *.
  assert (Hr : runs (transaction ups) s (λ _ s', loggable start nlog sz bl ∧
    md_writes (bio_disk (ls_bio s')) = wr ++ end_writes start (apply_writes vw ups) bl)).
  { apply (transaction_rule start nlog sz vw dk wr); [done..|]. intros s' Hbl H'. split; [done|].
    apply (brep_disk _ _ _ _ _ _ _ (lo_brep _ _ _ _ _ _ _ _ _ _ H')). }
  destruct Hr as ([] & s' & Hr & Hbl & Hw). do 2 eexists. split_and!; [exact Hr | exact Hw |].
  intros p d s2 Hp Hd Hre. pose proof H as [Hly _ _ _ _ _ He _].
  assert (Hfin : ∀ x, recovers_as start nlog sz x (apply_writes dk p) →
    runs recover_from_log s2 (λ _ s3, ∀ b, datab start nlog sz b → md_blocks (bio_disk (ls_bio s3)) b = x b)).
  { intros x Hx. eapply recovery_rule; eauto. by eapply crashed_recovery_step. }
  destruct (end_writes_crash _ _ _ _ _ _ _ Hly Hbl He Hs Hp) as [Hx|Hx];
    destruct (Hfin _ Hx) as ([] & s3 & Hrun & Hb); exists s3; (split; [done|]); [by left | right].
  intros b Hdb. rewrite <- Hv. auto.
Qed.

(** [initlog] establishes the log's invariant.  On a machine that has just booted
    (an empty cache over disk [d]) it reads the layout from the superblock, recovers,
    and leaves every block outside the log with the contents the log prescribes: the
    logged copy if the header lists the block, the block itself otherwise. *)
Theorem initlog_correct start nlog sz d s :
  brep d d sz [] ∅ ∅ (ls_bio s) → ls_log s = log0 → layout start nlog sz → 1 < sz →
  sb_logstart (superblock_of (d 1)) = start → sb_nlog (superblock_of (d 1)) = nlog →
  header_ok start nlog sz (d start) →
  ∃ s' d', initlog 1 s = Ok (tt, s') ∧
    logst_ok start nlog sz d' d' (recover_writes start d) ∅ [] 0 s' ∧
    ∀ b, datab start nlog sz b → d' b = logical start d b.
Proof.
  intros Hb Hl Hly Hsz Es En Hh.
  assert (Hr : runs (initlog 1) s (λ _ s', ∃ d',
    logst_ok start nlog sz d' d' (recover_writes start d) ∅ [] 0 s' ∧
    ∀ b, datab start nlog sz b → d' b = logical start d b)).
  { eapply (initlog_rule start nlog sz d []); eauto. }
  destruct Hr as ([] & s' & Hr & d' & H'). by exists s', d'.
Qed.

(** *** Witnesses *)

(** A disk of 2000 blocks with a log of 30 blocks from block 2 on, as mkfs builds it;
    the header is empty. *)
Definition demo_super : mem :=
  store32 (store32 (store32 (store32 (store32 (store32 (store32 (λ _, 0)
    0 2000) 4 1941) 8 200) 12 30) 16 2) 20 32) 24 58.
Definition demo_disk (n : Z) : mem := if n =? 1 then demo_super else λ _, 0.

Definition demo_logst : logst :=
  mkLogst (mkBio (mkCpu 0 0 false true) bcache0 (mkMemdisk 2000 demo_disk []) []) log0 0.

Lemma demo_layout : layout 2 30 2000.
Proof. split; unfold LOGSIZE, MAXOPBLOCKS; lia. Qed.

Lemma demo_boot :
  ∃ s, onbio binit demo_logst = Ok (tt, s) ∧ ls_log s = log0 ∧
    brep demo_disk demo_disk 2000 [] ∅ ∅ (ls_bio s).
Proof.
  assert (H : runs (onbio binit) demo_logst (λ _ s, ls_log s = log0 ∧
    brep demo_disk demo_disk 2000 [] ∅ ∅ (ls_bio s))).
  { apply runs_zoom, binit_rule; [split; cbn; lia | done |]. intros bs Hbs. split; [done|]. by eexists. }
  destruct H as ([] & s & H). eauto.
Qed.

Lemma demo_header : header_ok 2 30 2000 (demo_disk 2).
Proof. apply header_ok_nil; [exact demo_layout | done | done]. Qed.

Lemma initlog_correct_witness :
  ∃ s s' d', onbio binit demo_logst = Ok (tt, s) ∧ initlog 1 s = Ok (tt, s') ∧
    logst_ok 2 30 2000 d' d' (recover_writes 2 demo_disk) ∅ [] 0 s'.
Proof.
  destruct demo_boot as (s & Hs & Hl & Hb).
  destruct (initlog_correct 2 30 2000 demo_disk s Hb Hl demo_layout ltac:(lia) eq_refl eq_refl
    demo_header) as (s' & d' & Hi & Hok & _).
  exists s, s', d'. split_and!; [exact Hs | exact Hi | exact Hok].
Defined.

(** The state of the log once the system is up. *)
Lemma demo_up :
  ∃ s d wr, (onbio binit;; initlog 1) demo_logst = Ok (tt, s) ∧
    logst_ok 2 30 2000 d d wr ∅ [] 0 s ∧ ∀ b, datab 2 30 2000 b → d b = logical 2 demo_disk b.
Proof.
  destruct demo_boot as (s & Hs & Hl & Hb).
  assert (Hr : runs (initlog 1) s (λ _ s', ∃ d wr, logst_ok 2 30 2000 d d wr ∅ [] 0 s' ∧
    ∀ b, datab 2 30 2000 b → d b = logical 2 demo_disk b)).
  { eapply (initlog_rule 2 30 2000 demo_disk []); eauto using demo_layout, demo_header; lia. }
  destruct Hr as ([] & s' & Hr & d & wr & H'). exists s', d, wr.
  split; [|exact H']. by rewrite (K_bind_ok _ _ _ _ _ Hs).
Qed.

Definition demo_updates : list (Z * mem) := [(100, λ _, 7); (200, λ _, 8); (100, λ _, 9)].

Lemma demo_updates_data u : u ∈ demo_updates → datab 2 30 2000 u.1.
Proof. intros H. elem_cases H; split; cbn; lia. Qed.

Lemma transaction_durable_witness :
  ∃ s s', (onbio binit;; initlog 1) demo_logst = Ok (tt, s) ∧
    transaction demo_updates s = Ok (tt, s') ∧
    md_blocks (bio_disk (ls_bio s')) 100 = (λ _, 9) ∧ md_blocks (bio_disk (ls_bio s')) 200 = (λ _, 8).
Proof.
  destruct demo_up as (s & d & wr & Hs & Hok & _).
  destruct (transaction_durable 2 30 2000 d d wr s demo_updates Hok ltac:(cbn; lia) demo_updates_data)
    as (s' & vw' & dk' & wr' & Ht & _ & Hb).
  exists s, s'. split_and!; [exact Hs | exact Ht | |].
  - rewrite (proj2 (Hb 100 ltac:(split; lia))). reflexivity.
  - rewrite (proj2 (Hb 200 ltac:(split; lia))). reflexivity.
Defined.

Lemma demo_reboot d : ∃ s, rebooted 2 30 2000 d s.
Proof.
  assert (H : runs binit (mkBio (mkCpu 0 0 false true) bcache0 (mkMemdisk 2000 d []) [])
    (λ _ bs, brep d d 2000 [] ∅ ∅ bs)).
  { apply binit_rule; [split; cbn; lia | done |]. intros bs Hbs. by eexists. }
  destruct H as ([] & bs & _ & H). exists (mkLogst bs (set_geometry 2 30 1 log0) 0).
  by split_and!.
Qed.

(** The transaction above, cut short by a crash after some prefix of its writes. *)
Lemma transaction_atomic_witness :
  ∃ s s' d w, (onbio binit;; initlog 1) demo_logst = Ok (tt, s) ∧
    transaction demo_updates s = Ok (tt, s') ∧
    ∀ p, p `prefix_of` w → ∃ s2 s3, rebooted 2 30 2000 (apply_writes d p) s2 ∧
      recover_from_log s2 = Ok (tt, s3) ∧
      (md_blocks (bio_disk (ls_bio s3)) 100 = (λ _, 0) ∨
       md_blocks (bio_disk (ls_bio s3)) 100 = (λ _, 9)).
Proof.
  destruct demo_up as (s & d & wr & Hs & Hok & Hd).
  destruct (transaction_atomic 2 30 2000 d d wr s demo_updates Hok ltac:(cbn; lia) demo_updates_data)
    as (s' & w & Ht & _ & Hc).
  exists s, s', d, w. split_and!; [exact Hs | exact Ht |]. intros p Hp.
  destruct (demo_reboot (apply_writes d p)) as [s2 Hre].
  destruct (Hc p _ s2 Hp (rtc_refl _ _) Hre) as (s3 & Hr & Hb).
  exists s2, s3. split_and!; [exact Hre | exact Hr |].
  destruct Hb as [Hb|Hb]; [left | right]; rewrite (Hb 100 ltac:(split; lia)); [|reflexivity].
  rewrite (Hd 100 ltac:(split; lia)). reflexivity.
Defined.

(** [begin_op] lets three calls of [MAXOPBLOCKS] blocks each into one transaction, 30
    blocks in all, but with the log mkfs builds [log_write] panics at the thirtieth
    block: it needs [log.size - 1] log blocks and one is the header. *)
Lemma reserved_space_panics :
  (onbio binit;; initlog 1;; begin_op;; begin_op;; begin_op;;
   kiter (seq 0 30) (λ j, update_block (100 + Z.of_nat j, λ _, 1))) demo_logst =
    Panic "too big a transaction".
Proof. vm_compute. reflexivity. Qed.
