(* ===== verification/Kalloc.v ===== *)
(** * The physical page allocator

    Models src/kalloc.c on the flat memory of [Prelude], addressed by kernel virtual
    addresses.  The free list is threaded through the free pages themselves: the first
    word of a free page is the address of the next one, 0 at the end.  The address
    [end] of the first byte after the kernel is chosen by the linker and is a
    parameter.

    [kmem_ok] says that the list holds the pages [l], all distinct and valid; the
    theorems show that [kalloc] takes pages from it, [kfree] puts them back, and that
    neither touches any other memory. *)

From S2P Require Import Prelude Param KString Spinlock.
Local Open Scope Z_scope.

(** ** Definitions *)

(** The machine's memory, the allocator [kmem], and the CPU for its lock. *)
Record kms := mkKms {
  km_cpu : cpu;
  km_lock : spinlock;
  km_use_lock : bool;
  km_freelist : Z;
  km_mem : mem
}.

Definition set_km_lock (c : cpu) (lk : spinlock) (s : kms) : kms :=
  mkKms c lk (km_use_lock s) (km_freelist s) (km_mem s).
Definition set_use_lock (b : bool) (s : kms) : kms :=
  mkKms (km_cpu s) (km_lock s) b (km_freelist s) (km_mem s).
Definition set_freelist (p : Z) (s : kms) : kms :=
  mkKms (km_cpu s) (km_lock s) (km_use_lock s) p (km_mem s).
Definition set_mem (m : mem) (s : kms) : kms :=
  mkKms (km_cpu s) (km_lock s) (km_use_lock s) (km_freelist s) m.

Definition acquire_kmem : K kms unit := fun s =>
  '(c, lk) ← acquire (km_cpu s) (km_lock s); Ok (tt, set_km_lock c lk s).
Definition release_kmem : K kms unit := fun s =>
  '(c, lk) ← release (km_cpu s) (km_lock s); Ok (tt, set_km_lock c lk s).

Section Kalloc.
Variable kend : Z.  (* the address of [end] *)

Definition kfree (v : Z) : K kms unit :=
  if negb (v mod PGSIZE =? 0) || (v <? kend) || (v2p v >=? PHYSTOP) then kpanic "kfree"
  else
    kmod (fun s => set_mem (memset (km_mem s) v 1 PGSIZE) s);;
    s ← kget;
    kwhen (km_use_lock s) acquire_kmem;;
    kmod (fun s => set_mem (store32 (km_mem s) v (km_freelist s)) s);;
    kmod (set_freelist v);;
    s ← kget;
    kwhen (km_use_lock s) release_kmem.

Definition kalloc : K kms Z :=
  s ← kget;
  kwhen (km_use_lock s) acquire_kmem;;
  s ← kget;
  let r := km_freelist s in
  kwhen (negb (r =? 0)) (kmod (set_freelist (load32 (km_mem s) r)));;
  s ← kget;
  kwhen (km_use_lock s) release_kmem;;
  mret r.

(** The loop of [freerange]; the number of rounds is bounded by the number of pages of
    the address space. *)
Fixpoint freerange_loop (fuel : nat) (p vend : Z) : K kms unit :=
  match fuel with
  | O => kout Diverge
  | S fuel' =>
      if u32 (p + PGSIZE) <=? vend then
        kfree p;;
        freerange_loop fuel' (u32 (p + PGSIZE)) vend
      else mret tt
  end.

Definition freerange (vstart vend : Z) : K kms unit :=
  freerange_loop (Z.to_nat (4294967296 / PGSIZE)) (PGROUNDUP vstart) vend.

Definition kinit1 (vstart vend : Z) : K kms unit :=
  kmod (fun s => set_km_lock (km_cpu s) (initlock "kmem") s);;
  kmod (set_use_lock false);;
  freerange vstart vend.

Definition kinit2 (vstart vend : Z) : K kms unit :=
  freerange vstart vend;;
  kmod (set_use_lock true).

(** A page that the allocator may hand out. *)
Definition page_ok (v : Z) : Prop :=
  v mod PGSIZE = 0 ∧ kend ≤ v ∧ KERNBASE < v ∧ v < KERNBASE + PHYSTOP.

(** The list of free pages from address [p]. *)
Fixpoint flist (m : mem) (p : Z) (l : list Z) : Prop :=
  match l with
  | [] => p = 0
  | a :: l' => p = a ∧ flist m (load32 m a) l'
  end.

Record kmem_ok (l : list Z) (s : kms) : Prop := {
  ko_cpu : cpu_ok (km_cpu s);
  ko_lock : locked (km_lock s) = 0;
  ko_list : flist (km_mem s) (km_freelist s) l;
  ko_pages : ∀ v, v ∈ l → page_ok v;
  ko_nodup : NoDup l
}.
End Kalloc.

(** The bytes of a page. *)
Definition in_page (v a : Z) : Prop := v ≤ a < v + PGSIZE.

(** [m'] differs from [m] in the page [v] only. *)
Definition same_outside (v : Z) (m m' : mem) : Prop := ∀ a, ¬ in_page v a → m' a = m a.

(** The [n] pages from [p] on. *)
Fixpoint pages_from (p : Z) (n : nat) : list Z :=
  match n with O => [] | S n' => p :: pages_from (p + PGSIZE) n' end.

(** A client of the allocator: it allocates pages and frees pages it owns, by their
    position in the list of owned pages. *)
Inductive kop := KAlloc | KFree (i : nat).

Fixpoint run_ops (kend : Z) (ops : list kop) (owned : list Z) : K kms (list Z) :=
  match ops with
  | [] => mret owned
  | KAlloc :: ops' =>
      r ← kalloc;
      run_ops kend ops' (if r =? 0 then owned else r :: owned)
  | KFree i :: ops' =>
      match owned !! i with
      | Some v => kfree kend v;; run_ops kend ops' (delete i owned)
      | None => run_ops kend ops' owned
      end
  end.

(** ** Lemmas *)

Lemma flist_frame m m' p l :
  flist m p l → (∀ a, a ∈ l → load32 m' a = load32 m a) → flist m' p l.
Proof.
  revert p. induction l as [|a l IH]; intros p; cbn; [done|].
  intros [-> Hl] Hm. split; [done|]. rewrite Hm by left. apply IH; [done|].
  intros b Hb. apply Hm. by right.
Qed.

(** Pages are disjoint. *)
Lemma page_disjoint v w a b :
  v mod PGSIZE = 0 → w mod PGSIZE = 0 → v ≠ w → in_page v a → in_page w b → a ≠ b.
Proof. unfold in_page, PGSIZE. intros. Z.div_mod_to_equations. lia. Qed.

Lemma load32_ext m m' a : (∀ x, a ≤ x < a + 4 → m' x = m x) → load32 m' a = load32 m a.
Proof. intros H. unfold load32. rewrite !H by lia. done. Qed.

Lemma load32_outside v m m' w k :
  same_outside v m m' → v mod PGSIZE = 0 → w mod PGSIZE = 0 → v ≠ w →
  0 ≤ k → k + 4 ≤ PGSIZE → load32 m' (w + k) = load32 m (w + k).
Proof.
  intros H Hv Hw Hne Hk Hk'. apply load32_ext. intros x Hx. apply H. intros Hin.
  eapply (page_disjoint v w x x); try done. unfold in_page, PGSIZE in *. lia.
Qed.

Lemma store32_outside v m k x : 0 ≤ k → k + 4 ≤ PGSIZE → same_outside v m (store32 m (v + k) x).
Proof.
  intros Hk Hk' a Ha. unfold in_page, PGSIZE in *. unfold store32, mupd. repeat (bool_case; try lia).
Qed.

Lemma store32_outside0 v m x : same_outside v m (store32 m v x).
Proof.
  pose proof (store32_outside v m 0 x) as H. rewrite Z.add_0_r in H. apply H; unfold PGSIZE; lia.
Qed.

Lemma memset_outside v m c : same_outside v m (memset m v c PGSIZE).
Proof.
  intros a Ha. rewrite memset_lookup by (unfold PGSIZE; lia). unfold in_page in Ha.
  bool_cases; done.
Qed.

Lemma same_outside_trans v m1 m2 m3 :
  same_outside v m1 m2 → same_outside v m2 m3 → same_outside v m1 m3.
Proof. intros H1 H2 a Ha. rewrite H2, H1; auto. Qed.

(** Inside a section that takes the lock if [b]. *)
Definition guarded (b : bool) (c : cpu) (lk : spinlock) : Prop :=
  if b then taken c lk
  else cpu_ok c ∧ locked lk = 0.

Lemma set_km_lock_id s : set_km_lock (km_cpu s) (km_lock s) s = s.
Proof. by destruct s. Qed.

Lemma runs_lock_kmem s (Q : unit → kms → Prop) :
  cpu_ok (km_cpu s) → locked (km_lock s) = 0 →
  (∀ c lk, guarded (km_use_lock s) c lk → Q tt (set_km_lock c lk s)) →
  runs (kwhen (km_use_lock s) acquire_kmem) s Q.
Proof.
  intros Hc Hl HQ. destruct (km_use_lock s); cbn [kwhen guarded] in *.
  - destruct (acquire_taken _ _ Hc Hl) as (c' & lk' & E & Ht).
    eapply runs_ok; [unfold acquire_kmem; rewrite E; reflexivity | auto].
  - apply runs_ret. rewrite <- set_km_lock_id. by apply HQ.
Qed.

Lemma runs_unlock_kmem s (Q : unit → kms → Prop) :
  guarded (km_use_lock s) (km_cpu s) (km_lock s) →
  (∀ c lk, cpu_ok c → locked lk = 0 → Q tt (set_km_lock c lk s)) →
  runs (kwhen (km_use_lock s) release_kmem) s Q.
Proof.
  intros Hg HQ. destruct (km_use_lock s); cbn [kwhen guarded] in *.
  - destruct (release_taken _ _ Hg) as (c' & lk' & E & Hc & Hl).
    eapply runs_ok; [unfold release_kmem; rewrite E; reflexivity | auto].
  - destruct Hg. apply runs_ret. rewrite <- set_km_lock_id. by apply HQ.
Qed.

Section Rules.
Context {kend : Z}.

Lemma kfree_guard v :
  page_ok kend v →
  negb (v mod PGSIZE =? 0) || (v <? kend) || (v2p v >=? PHYSTOP) = false.
Proof.
  intros (Hv & Hk & Hb & Hp). rewrite Hv. unfold v2p.
  rewrite u32_small by (unfold KERNBASE, PHYSTOP in *; lia). bool_cases; done.
Qed.

Lemma kfree_rule s l v (Q : unit → kms → Prop) :
  kmem_ok kend l s → page_ok kend v → v ∉ l →
  (∀ s', kmem_ok kend (v :: l) s' → same_outside v (km_mem s) (km_mem s') →
     km_use_lock s' = km_use_lock s → Q tt s') →
  runs (kfree kend v) s Q.
Proof.
  intros [Hc Hl Hf Hp Hnd] Hv Hin HQ. unfold kfree. rewrite kfree_guard by done.
  apply runs_bind, runs_mod. apply runs_bind, runs_get. apply runs_bind, runs_lock_kmem; [done..|].
  intros c lk Hg. apply runs_bind, runs_mod. apply runs_bind, runs_mod. apply runs_bind, runs_get.
  apply runs_unlock_kmem; [done|]. intros c' lk' Hc' Hl'. cbn.
  set (m' := store32 _ v _).
  assert (Hm : same_outside v (km_mem s) m').
  { eapply same_outside_trans; [apply (memset_outside _ _ 1)|]. apply store32_outside0. }
  apply HQ; [|exact Hm | done]. split; cbn; try done.
  - split; [done|]. unfold m' at 2.
    assert (Hr : km_freelist s = u32 (km_freelist s)).
    { destruct l as [|a l]; cbn in Hf; [by rewrite Hf|]. destruct Hf as [-> _].
      destruct (Hp a) as (_ & _ & ? & ?); [left|].
      rewrite u32_small; [done | unfold KERNBASE, PHYSTOP in *; lia]. }
    rewrite Hr, load32_store32, <- Hr. eapply flist_frame; [exact Hf|]. intros a Ha.
    replace a with (a + 0) by lia.
    eapply load32_outside; [exact Hm | apply Hv | by apply Hp | congruence | done | by unfold PGSIZE].
  - intros w [->|Hw]%elem_of_cons; auto.
  - by apply NoDup_cons.
Qed.

Lemma kalloc_rule s l (Q : Z → kms → Prop) :
  kmem_ok kend l s →
  (∀ s', kmem_ok kend (tail l) s' → km_mem s' = km_mem s → km_use_lock s' = km_use_lock s →
     Q (default 0 (head l)) s') →
  runs kalloc s Q.
Proof.
  intros [Hc Hl Hf Hp Hnd] HQ.
  apply runs_bind, runs_get, runs_bind, runs_lock_kmem; [done..|]. intros c lk Hg.
  apply runs_bind, runs_get. apply runs_bind. destruct l as [|a l]; cbn in Hf.
  - cbn. rewrite Hf. apply runs_ret. apply runs_bind, runs_get.
    apply runs_bind, runs_unlock_kmem; [done|]. intros c' lk' Hc' Hl'. apply runs_ret, HQ; [by split | done..].
  - destruct Hf as [Ha Hf]. cbn. rewrite Ha. destruct (Hp a) as (_ & _ & Hpos & _); [left|].
    destruct (Z.eqb_spec a 0); [unfold KERNBASE in Hpos; lia|]. cbn [negb]. apply runs_mod.
    apply runs_bind, runs_get. apply runs_bind, runs_unlock_kmem; [done|]. intros c' lk' Hc' Hl'.
    apply NoDup_cons in Hnd as [Hna Hnd].
    apply runs_ret, HQ; [|done..]. split; try done. intros v Hv. apply Hp. by right.
Qed.

Lemma pages_from_elem p n v :
  v ∈ pages_from p n ↔ ∃ i : nat, (i < n)%nat ∧ v = p + PGSIZE * Z.of_nat i.
Proof.
  revert p. induction n as [|n IH]; intros p; cbn [pages_from].
  - split; [by intros ?%elem_of_nil | intros (i & ? & _); lia].
  - rewrite elem_of_cons, IH. split.
    + intros [->|(i & Hi & ->)]; [exists 0%nat; lia | exists (S i); lia].
    + intros ([|i] & Hi & ->); [left; lia | right; exists i; lia].
Qed.

Lemma freerange_loop_rule fuel s l p vend n (Q : unit → kms → Prop) :
  kmem_ok kend l s → p mod PGSIZE = 0 → 0 ≤ p → vend + PGSIZE < 4294967296 →
  p + PGSIZE * Z.of_nat n ≤ vend < p + PGSIZE * Z.of_nat (S n) → (n < fuel)%nat →
  (∀ v, v ∈ pages_from p n → page_ok kend v ∧ v ∉ l) →
  (∀ s', kmem_ok kend (rev (pages_from p n) ++ l) s' → km_use_lock s' = km_use_lock s → Q tt s') →
  runs (freerange_loop kend fuel p vend) s Q.
Proof.
  revert s l p n. induction fuel as [|fuel IH]; intros s l p n Hk Hp H0 Hv Hn Hf Hpg HQ; [lia|].
  cbn [freerange_loop]. destruct n as [|n]; cbn [pages_from] in *.
  - rewrite u32_small by (unfold PGSIZE in *; lia).
    destruct (Z.leb_spec (p + PGSIZE) vend); [lia|]. by apply runs_ret, HQ.
  - rewrite u32_small by (unfold PGSIZE in *; lia).
    destruct (Z.leb_spec (p + PGSIZE) vend); [|unfold PGSIZE in *; lia].
    destruct (Hpg p) as [Hp1 Hp2]; [left|].
    apply runs_bind, (kfree_rule _ l); [done..|]. intros s1 Hk1 _ Hu1.
    apply (IH s1 (p :: l) (p + PGSIZE) n); [done | | unfold PGSIZE; lia | done | | lia | |].
    + unfold PGSIZE in *. zmod_lia.
    + unfold PGSIZE in *. lia.
    + intros v Hvin. destruct (Hpg v) as [Hv1 Hv2]; [by right|]. split; [done|].
      apply not_elem_of_cons. split; [|done]. apply pages_from_elem in Hvin as (i & _ & ->).
      unfold PGSIZE. lia.
    + intros s' Hk' Hu'. apply HQ; [|congruence]. cbn [rev]. by rewrite <- app_assoc.
Qed.

(** The number of whole pages between two addresses. *)
Definition npages (vstart vend : Z) : nat := Z.to_nat ((vend - PGROUNDUP vstart) / PGSIZE).

Lemma freerange_rule s l vstart vend (Q : unit → kms → Prop)
    (pages := pages_from (PGROUNDUP vstart) (npages vstart vend)) :
  kmem_ok kend l s → vstart ≤ vend → PGROUNDUP vstart ≤ vend → vend ≤ KERNBASE + PHYSTOP →
  kend ≤ vstart → KERNBASE < vstart → (∀ v, v ∈ pages → v ∉ l) →
  (∀ s', kmem_ok kend (rev pages ++ l) s' → km_use_lock s' = km_use_lock s → Q tt s') →
  runs (freerange kend vstart vend) s Q.
Proof.
  intros Hk H0 Hle Hend Hkend Hkb Hnin HQ. unfold KERNBASE, PHYSTOP in *.
  assert (Hr : vstart ≤ PGROUNDUP vstart ∧ PGROUNDUP vstart mod PGSIZE = 0).
  { destruct (Z.leb_spec vstart 4294963200).
    - rewrite PGROUNDUP_spec by lia. unfold PGSIZE. split; zmod_lia.
    - exfalso. lia. }
  destruct Hr as [Hr Hal]. set (p := PGROUNDUP vstart) in *.
  assert (Hnp : p + PGSIZE * Z.of_nat (npages vstart vend) ≤ vend <
    p + PGSIZE * Z.of_nat (S (npages vstart vend))).
  { unfold npages. fold p. unfold PGSIZE in *. zmod_lia. }
  apply (freerange_loop_rule _ _ l _ _ (npages vstart vend)); try done; try lia.
  - unfold PGSIZE in *. lia.
  - change (Z.to_nat (4294967296 / PGSIZE)) with (Z.to_nat 1048576). unfold PGSIZE in *. lia.
  - intros v Hv. split; [|auto]. apply pages_from_elem in Hv as (i & Hi & ->).
    unfold page_ok, KERNBASE, PHYSTOP. unfold PGSIZE in *. split_and!; try lia. zmod_lia.
Qed.
End Rules.

Lemma run_ops_rule kend ops s l owned (Q : list Z → kms → Prop) :
  kmem_ok kend l s → NoDup (l ++ owned) → (∀ v, v ∈ owned → page_ok kend v) →
  (∀ l' owned' s', kmem_ok kend l' s' → l' ++ owned' ≡ₚ l ++ owned →
     (∀ a, (∀ v, v ∈ l ++ owned → ¬ in_page v a) → km_mem s' a = km_mem s a) → Q owned' s') →
  runs (run_ops kend ops owned) s Q.
Proof.
  revert s l owned. induction ops as [|[|i] ops IH]; intros s l owned Hk Hnd Hpg HQ; cbn [run_ops].
  - apply runs_ret. by eapply HQ.
  - apply runs_bind, (kalloc_rule (kend := kend) _ l); [done|]. intros s1 Hk1 Em _.
    destruct l as [|a l]; cbn [default head tail] in *.
    + apply (IH s1 [] owned Hk1 Hnd Hpg). intros l' o' s' Hk' Hp Ha. apply (HQ l'); [done..|].
      intros x Hx. rewrite Ha, Em; auto.
    + destruct (ko_pages _ _ _ Hk a) as (_ & _ & Hpos & _); [left|].
      cbn [id]. destruct (Z.eqb_spec a 0); [unfold KERNBASE in Hpos; lia|].
      assert (Hperm : l ++ a :: owned ≡ₚ a :: l ++ owned) by (symmetry; apply Permutation_middle).
      apply (IH s1 l (a :: owned) Hk1); [by rewrite Hperm | |].
      * intros v [->|Hv]%elem_of_cons; [apply (ko_pages _ _ _ Hk); left | auto].
      * intros l' o' s' Hk' Hp Ha. apply (HQ l'); [done | by rewrite Hp, Hperm |].
        intros x Hx. rewrite Ha, Em; [done|]. intros v Hv. apply Hx.
        revert Hv. by rewrite Hperm.
  - destruct (owned !! i) as [v|] eqn:Ei; [|by apply (IH s l owned)].
    pose proof (delete_Permutation _ _ _ Ei) as Hdel.
    assert (Hperm : (v :: l) ++ delete i owned ≡ₚ l ++ owned).
    { rewrite Hdel at 2. cbn. apply Permutation_middle. }
    assert (Hv : v ∉ l).
    { intros Hin. apply NoDup_app in Hnd as (_ & Hd & _). apply (Hd v Hin). by eapply list_elem_of_lookup_2. }
    apply runs_bind, (kfree_rule _ l); [done | apply Hpg; by eapply list_elem_of_lookup_2 | done |].
    intros s1 Hk1 Hout _. apply (IH s1 (v :: l) (delete i owned) Hk1); [by rewrite Hperm | |].
    + intros w Hw. apply Hpg. rewrite Hdel. by right.
    + intros l' o' s' Hk' Hp Ha. apply (HQ l'); [done | by rewrite Hp, Hperm |].
      intros x Hx. rewrite Ha, Hout; [done | | ].
      * apply Hx. rewrite <- Hperm. left.
      * intros w Hw. apply Hx. by rewrite <- Hperm.
Qed.

#[local] Opaque freerange.

Lemma kmem_ok_nil kend s :
  cpu_ok (km_cpu s) → locked (km_lock s) = 0 → km_freelist s = 0 → kmem_ok kend [] s.
Proof. intros. split; [done..| |by apply NoDup_nil]. intros v Hv. by apply elem_of_nil in Hv. Qed.

(** ** Properties *)

(** the allocator neither loses nor duplicates pages.  Whatever a client allocates
    and frees (it frees pages it owns), no call panics, and the free pages and the
    client's pages are together always the same pages, each once: a page is never
    handed out twice and never both free and owned.  Memory outside those pages is
    not touched. *)
Theorem kalloc_conserves_pages kend ops s l owned :
  kmem_ok kend l s → NoDup (l ++ owned) → (∀ v, v ∈ owned → page_ok kend v) →
  ∃ owned' s' l', run_ops kend ops owned s = Ok (owned', s') ∧ kmem_ok kend l' s' ∧
    l' ++ owned' ≡ₚ l ++ owned ∧ NoDup (l' ++ owned') ∧
    ∀ a, (∀ v, v ∈ l ++ owned → ¬ in_page v a) → km_mem s' a = km_mem s a.
Proof.
  intros Hk Hnd Hpg.
  assert (Hr : runs (run_ops kend ops owned) s (λ owned' s', ∃ l', kmem_ok kend l' s' ∧
    l' ++ owned' ≡ₚ l ++ owned ∧
    ∀ a, (∀ v, v ∈ l ++ owned → ¬ in_page v a) → km_mem s' a = km_mem s a)).
  { eapply run_ops_rule; eauto. }
  destruct Hr as (owned' & s' & Hr & l' & Hk' & Hp & Ha). exists owned', s', l'.
  split_and!; try done. by rewrite Hp.
Qed.

(** [kinit1] puts every whole page between its arguments on the free list, the
    highest first, and nothing else. *)
Theorem kinit1_correct kend s vstart vend :
  cpu_ok (km_cpu s) → km_freelist s = 0 → vstart ≤ vend → PGROUNDUP vstart ≤ vend →
  vend ≤ KERNBASE + PHYSTOP → kend ≤ vstart → KERNBASE < vstart →
  ∃ s', kinit1 kend vstart vend s = Ok (tt, s') ∧ km_use_lock s' = false ∧
    kmem_ok kend (rev (pages_from (PGROUNDUP vstart) (npages vstart vend))) s'.
Proof.
  intros Hc Hf Hle Hup Hend Hk Hkb.
  assert (Hr : runs (kinit1 kend vstart vend) s (λ _ s', km_use_lock s' = false ∧
    kmem_ok kend (rev (pages_from (PGROUNDUP vstart) (npages vstart vend))) s')).
  { apply runs_bind, runs_mod. apply runs_bind, runs_mod.
    apply (freerange_rule _ []); try done.
    - by apply kmem_ok_nil.
    - intros v _ Hv. by apply elem_of_nil in Hv.
    - intros s' Hs' Hu. by rewrite app_nil_r in Hs'. }
  destruct Hr as ([] & s' & Hr & H). eauto.
Qed.

(** *** Witnesses *)

(** A kernel that ends at 0x80110000, its memory zeroed. *)
Definition demo_kend : Z := 2148597760.
Definition demo_kms : kms := mkKms (mkCpu 0 0 false true) (initlock "kmem") false 0 (λ _, 0).

Lemma demo_range :
  demo_kend ≤ demo_kend + 3 * PGSIZE + 17 ∧
  PGROUNDUP demo_kend ≤ demo_kend + 3 * PGSIZE + 17 ∧
  demo_kend + 3 * PGSIZE + 17 ≤ KERNBASE + PHYSTOP ∧ KERNBASE < demo_kend.
Proof. split_and!; vm_compute; congruence. Qed.

Lemma kinit1_correct_witness :
  ∃ s', kinit1 demo_kend demo_kend (demo_kend + 3 * PGSIZE + 17) demo_kms = Ok (tt, s') ∧
    kmem_ok demo_kend [demo_kend + 8192; demo_kend + 4096; demo_kend] s'.
Proof.
  destruct demo_range as (H1 & H2 & H3 & H4).
  assert (Hc : cpu_ok (km_cpu demo_kms)) by (split; cbn; lia).
  destruct (kinit1_correct demo_kend demo_kms demo_kend (demo_kend + 3 * PGSIZE + 17)
    Hc eq_refl H1 H2 H3 (Z.le_refl _) H4) as (s' & H & _ & Hk).
  exists s'. split; [exact H | exact Hk].
Defined.

Lemma kalloc_conserves_pages_witness :
  ∃ s owned s', kinit1 demo_kend demo_kend (demo_kend + 3 * PGSIZE + 17) demo_kms = Ok (tt, s) ∧
    run_ops demo_kend [KAlloc; KAlloc; KFree 1; KAlloc; KAlloc; KAlloc; KFree 0] [] s =
      Ok (owned, s') ∧ NoDup owned.
Proof.
  destruct demo_range as (H1 & H2 & H3 & H4).
  assert (Hr : runs (kinit1 demo_kend demo_kend (demo_kend + 3 * PGSIZE + 17)) demo_kms (λ _ s,
    kmem_ok demo_kend [demo_kend + 8192; demo_kend + 4096; demo_kend] s)).
  { apply runs_bind, runs_mod. apply runs_bind, runs_mod.
    apply (freerange_rule _ []); [| done | done | done | apply Z.le_refl | done | |].
    - apply kmem_ok_nil; [split; [apply Z.le_refl | done] | reflexivity..].
    - intros v _ Hv. by apply elem_of_nil in Hv.
    - intros s' Hs' Hu. exact Hs'. }
  destruct Hr as ([] & s & Hs & Hk).
  destruct (kalloc_conserves_pages demo_kend
    [KAlloc; KAlloc; KFree 1; KAlloc; KAlloc; KAlloc; KFree 0] s _ [] Hk)
    as (owned & s' & l' & Hrun & _ & _ & Hnd & _).
  - rewrite app_nil_r. apply (ko_nodup _ _ _ Hk).
  - intros v Hv. by apply elem_of_nil in Hv.
  - exists s, owned, s'. split_and!; [exact Hs | exact Hrun |].
    apply NoDup_app in Hnd as (_ & _ & Hnd). exact Hnd.
Defined.
