(* ===== verification/Vm.v ===== *)
(** * Page tables

    Models the page-table code of src/vm.c and the page-table macros of src/mmu.h, on
    the memory and allocator of [Kalloc].  A page directory is the address of its
    page; entries are 32-bit words in memory.  [seginit] and the segments of [switchuvm] are
    in [Entry]; [switchkvm] and [kvmalloc] load the page-table register and are not modelled.

    The loops over pages take fuel for one round per page of the address space, which
    is enough: their address advances by a page and stops at a bound or wraps.  A null
    pointer that the code dereferences is [Undef]. *)

From S2P Require Import Prelude Param KString Spinlock Kalloc.
Local Open Scope Z_scope.

(** ** Definitions *)

(** *** src/mmu.h *)
Definition NPDENTRIES : nat := 1024.
Definition NPTENTRIES : Z := 1024.
Definition PTE_P : Z := 1.
Definition PTE_W : Z := 2.
Definition PTE_U : Z := 4.
Definition PDX (va : Z) : Z := Z.land (Z.shiftr va 22) 1023.
Definition PTX (va : Z) : Z := Z.land (Z.shiftr va 12) 1023.
Definition PTE_ADDR (pte : Z) : Z := Z.land pte (Z.lnot 4095).
Definition PTE_FLAGS (pte : Z) : Z := Z.land pte 4095.

Definition present (pte : Z) : bool := negb (Z.land pte PTE_P =? 0).
Definition user (pte : Z) : bool := negb (Z.land pte PTE_U =? 0).

(** Reading and writing words and pages. *)
Definition word (a : Z) : K kms Z := s ← kget; mret (load32 (km_mem s) a).
Definition set_word (a x : Z) : K kms unit := kmod (fun s => set_mem (store32 (km_mem s) a x) s).
Definition kmemset (a c n : Z) : K kms unit := kmod (fun s => set_mem (memset (km_mem s) a c n) s).
Definition kmemmove (dst src n : Z) : K kms unit :=
  kmod (fun s => set_mem (memmove (km_mem s) dst src n) s).

Definition page_fuel : nat := Z.to_nat 1048577.

Section Vm.
Variable kend : Z.   (* the address of [end] *)
Variable kdata : Z.  (* the address of [data] *)

(** Returns the address of the entry for [va], 0 if there is none. *)
Definition walkpgdir (pgdir va : Z) (alloc : bool) : K kms Z :=
  let pde := pgdir + 4 * PDX va in
  d ← word pde;
  if present d then mret (p2v (PTE_ADDR d) + 4 * PTX va)
  else if negb alloc then mret 0
  else
    pgtab ← kalloc;
    if pgtab =? 0 then mret 0
    else
      kmemset pgtab 0 PGSIZE;;
      set_word pde (Z.lor (Z.lor (Z.lor (v2p pgtab) PTE_P) PTE_W) PTE_U);;
      mret (pgtab + 4 * PTX va).

Fixpoint mappages_loop (fuel : nat) (pgdir a last pa perm : Z) : K kms Z :=
  match fuel with
  | O => kout Diverge
  | S fuel' =>
      pte ← walkpgdir pgdir a true;
      if pte =? 0 then mret (-1)
      else
        e ← word pte;
        if present e then kpanic "remap"
        else
          set_word pte (Z.lor (Z.lor pa perm) PTE_P);;
          if a =? last then mret 0
          else mappages_loop fuel' pgdir (u32 (a + PGSIZE)) last (u32 (pa + PGSIZE)) perm
  end.

Definition mappages (pgdir va size pa perm : Z) : K kms Z :=
  mappages_loop page_fuel pgdir (PGROUNDDOWN va) (PGROUNDDOWN (u32 (va + size - 1))) pa perm.

(** The table [kmap]: virtual address, physical start and end, permissions. *)
Definition kmap : list (Z * Z * Z * Z) :=
  [ (KERNBASE, 0, EXTMEM, PTE_W);
    (KERNLINK, v2p KERNLINK, v2p kdata, 0);
    (kdata, v2p kdata, PHYSTOP, PTE_W);
    (DEVSPACE, DEVSPACE, 0, PTE_W) ].

Definition setupkvm : K kms Z :=
  pgdir ← kalloc;
  if pgdir =? 0 then mret 0
  else
    kmemset pgdir 0 PGSIZE;;
    if p2v PHYSTOP >? DEVSPACE then kpanic "PHYSTOP too high"
    else
      r ← kfind kmap (fun '(virt, phys_start, phys_end, perm) =>
            r ← mappages pgdir virt (u32 (phys_end - phys_start)) phys_start perm;
            mret (if r <? 0 then Some 0 else None));
      mret (match r with Some x => x | None => pgdir end).

Definition inituvm (pgdir init sz : Z) : K kms unit :=
  if sz >=? PGSIZE then kpanic "inituvm: more than a page"
  else
    mem ← kalloc;
    if mem =? 0 then kundef "inituvm: null page"
    else
      kmemset mem 0 PGSIZE;;
      mappages pgdir 0 PGSIZE (v2p mem) (Z.lor PTE_W PTE_U);;
      kmemmove mem init sz.

Fixpoint deallocuvm_loop (fuel : nat) (pgdir a oldsz : Z) : K kms unit :=
  match fuel with
  | O => kout Diverge
  | S fuel' =>
      if a <? oldsz then
        pte ← walkpgdir pgdir a false;
        if pte =? 0 then
          deallocuvm_loop fuel' pgdir (u32 (u32 (a + (NPTENTRIES - 1) * PGSIZE) + PGSIZE)) oldsz
        else
          e ← word pte;
          (if present e then
             let pa := PTE_ADDR e in
             if pa =? 0 then kpanic "kfree"
             else
               kfree kend (p2v pa);;
               set_word pte 0
           else mret tt);;
          deallocuvm_loop fuel' pgdir (u32 (a + PGSIZE)) oldsz
      else mret tt
  end.

Definition deallocuvm (pgdir oldsz newsz : Z) : K kms Z :=
  if newsz >=? oldsz then mret oldsz
  else
    deallocuvm_loop page_fuel pgdir (PGROUNDUP newsz) oldsz;;
    mret newsz.

(** The loop of [allocuvm]; [false] when memory is exhausted. *)
Fixpoint allocuvm_loop (fuel : nat) (pgdir a newsz : Z) : K kms bool :=
  match fuel with
  | O => kout Diverge
  | S fuel' =>
      if a <? newsz then
        mem ← kalloc;
        if mem =? 0 then mret false
        else
          kmemset mem 0 PGSIZE;;
          mappages pgdir a PGSIZE (v2p mem) (Z.lor PTE_W PTE_U);;
          allocuvm_loop fuel' pgdir (u32 (a + PGSIZE)) newsz
      else mret true
  end.

Definition allocuvm (pgdir oldsz newsz : Z) : K kms Z :=
  if newsz >=? KERNBASE then mret 0
  else if newsz <? oldsz then mret oldsz
  else
    ok ← allocuvm_loop page_fuel pgdir (PGROUNDUP oldsz) newsz;
    if (ok : bool) then mret newsz
    else
      deallocuvm pgdir newsz oldsz;;
      mret 0.

Definition freevm (pgdir : Z) : K kms unit :=
  if pgdir =? 0 then kpanic "freevm: no pgdir"
  else
    deallocuvm pgdir KERNBASE 0;;
    kiter (seq 0 NPDENTRIES) (fun i =>
      d ← word (pgdir + 4 * Z.of_nat i);
      if present d then kfree kend (p2v (PTE_ADDR d)) else mret tt);;
    kfree kend pgdir.

Definition clearpteu (pgdir uva : Z) : K kms unit :=
  pte ← walkpgdir pgdir uva false;
  if pte =? 0 then kpanic "clearpteu"
  else
    e ← word pte;
    set_word pte (Z.land e (Z.lnot PTE_U)).

(** The loop of [copyuvm]; [false] stands for [goto bad]. *)
Fixpoint copyuvm_loop (fuel : nat) (pgdir d i sz : Z) : K kms bool :=
  match fuel with
  | O => kout Diverge
  | S fuel' =>
      if i <? sz then
        pte ← walkpgdir pgdir i false;
        if pte =? 0 then kpanic "copyuvm: pte should exist"
        else
          e ← word pte;
          if negb (present e) then kpanic "copyuvm: page not present"
          else
            mem ← kalloc;
            if mem =? 0 then mret false
            else
              kmemmove mem (p2v (PTE_ADDR e)) PGSIZE;;
              r ← mappages d i PGSIZE (v2p mem) (PTE_FLAGS e);
              if r <? 0 then mret false
              else copyuvm_loop fuel' pgdir d (u32 (i + PGSIZE)) sz
      else mret true
  end.

Definition copyuvm (pgdir sz : Z) : K kms Z :=
  d ← setupkvm;
  if d =? 0 then mret 0
  else
    ok ← copyuvm_loop page_fuel pgdir d 0 sz;
    if (ok : bool) then mret d
    else
      freevm d;;
      mret 0.

(** The entry is read without testing the pointer. *)
Definition uva2ka (pgdir uva : Z) : K kms Z :=
  pte ← walkpgdir pgdir uva false;
  if pte =? 0 then kundef "uva2ka: null entry"
  else
    e ← word pte;
    if negb (present e) then mret 0
    else if negb (user e) then mret 0
    else mret (p2v (PTE_ADDR e)).

Fixpoint copyout_loop (fuel : nat) (pgdir va buf len : Z) : K kms Z :=
  match fuel with
  | O => kout Diverge
  | S fuel' =>
      if len >? 0 then
        let va0 := PGROUNDDOWN va in
        pa0 ← uva2ka pgdir va0;
        if pa0 =? 0 then mret (-1)
        else
          let n := if PGSIZE - (va - va0) >? len then len else PGSIZE - (va - va0) in
          kmemmove (pa0 + (va - va0)) buf n;;
          copyout_loop fuel' pgdir (u32 (va0 + PGSIZE)) (buf + n) (len - n)
      else mret 0
  end.

Definition copyout (pgdir va p len : Z) : K kms Z := copyout_loop page_fuel pgdir va p len.

(** [loaduvm] reads the file through [readi] of src/fs.c, which works on more than the
    memory: the state is a parameter, with the calls of this file carried over by [onmem].
    [readi dst off n] is that of the inode at hand. *)
Section Loaduvm.
Context {S : Type}.
Variable onmem : ∀ A : Type, K kms A → K S A.
Variable readi : Z → Z → Z → K S Z.

Fixpoint loaduvm_loop (fuel : nat) (pgdir addr offset i sz : Z) : K S Z :=
  match fuel with
  | O => kout Diverge
  | Datatypes.S fuel' =>
      if i <? sz then
        pte ← onmem _ (walkpgdir pgdir (u32 (addr + i)) false);
        if pte =? 0 then kpanic "loaduvm: address should exist"
        else
          e ← onmem _ (word pte);
          let pa := PTE_ADDR e in
          let n := if u32 (sz - i) <? PGSIZE then u32 (sz - i) else PGSIZE in
          r ← readi (p2v pa) (u32 (offset + i)) n;
          if negb (u32 r =? n) then mret (-1)
          else loaduvm_loop fuel' pgdir addr offset (u32 (i + PGSIZE)) sz
      else mret 0
  end.

Definition loaduvm (pgdir addr offset sz : Z) : K S Z :=
  if negb (addr mod PGSIZE =? 0) then kpanic "loaduvm: addr must be page aligned"
  else loaduvm_loop page_fuel pgdir addr offset 0 sz.
End Loaduvm.
End Vm.

#[global] Opaque page_fuel.
