(* ===== verification/VmMap.v ===== *)
(** * What the page-table operations do

    [pt_ok] relates a page directory in memory to its second-level tables, kept apart
    from each other; [pte] reads the entry of a virtual address.  The rules for
    [walkpgdir] and [mappages] and, on top of them, the theorems on [mappages],
    [allocuvm], [copyuvm] and [copyout]. *)

From S2P Require Import Prelude Param KString Spinlock Kalloc Vm.
Local Open Scope Z_scope.

(** ** Definitions *)

Definition tab_entry (t : Z) : Z := Z.lor (Z.lor (Z.lor (v2p t) PTE_P) PTE_W) PTE_U.

(** The directory at [pgdir] has the tables [tabs], by directory index. *)
Record pt_ok (kend : Z) (m : mem) (pgdir : Z) (tabs : gmap Z Z) : Prop := {
  pt_dir : page_ok kend pgdir;
  pt_tab : ∀ i t, tabs !! i = Some t →
    0 ≤ i < 1024 ∧ page_ok kend t ∧ t ≠ pgdir ∧ load32 m (pgdir + 4 * i) = tab_entry t;
  pt_inj : ∀ i j t, tabs !! i = Some t → tabs !! j = Some t → i = j;
  pt_none : ∀ i, 0 ≤ i < 1024 → tabs !! i = None → present (load32 m (pgdir + 4 * i)) = false
}.

(** The entry for [va], 0 if there is no table for it. *)
Definition pte (m : mem) (tabs : gmap Z Z) (va : Z) : Z :=
  match tabs !! PDX va with Some t => load32 m (t + 4 * PTX va) | None => 0 end.

(** The pages of the page table. *)
Definition pt_page (pgdir : Z) (tabs : gmap Z Z) (v : Z) : Prop :=
  v = pgdir ∨ ∃ i, tabs !! i = Some v.

(** The allocator with free pages [l] and a page table apart from them. *)
Record vm_ok (kend pgdir : Z) (tabs : gmap Z Z) (l : list Z) (s : kms) : Prop := {
  vm_kmem : kmem_ok kend l s;
  vm_pt : pt_ok kend (km_mem s) pgdir tabs;
  vm_apart : ∀ v, v ∈ l → ¬ pt_page pgdir tabs v
}.

(** How the page table's pages, the free pages and the other memory may change: new
    tables are pages that were free, and only the page table's pages are written. *)
Record vm_grows (pgdir : Z) (tabs : gmap Z Z) (l : list Z) (m : mem)
    (tabs' : gmap Z Z) (l' : list Z) (m' : mem) : Prop := {
  vg_tabs : tabs ⊆ tabs';
  vg_new : ∀ v, pt_page pgdir tabs' v → pt_page pgdir tabs v ∨ v ∈ l;
  vg_free : l' `sublist_of` l;
  vg_mem : ∀ a, (∀ v, pt_page pgdir tabs' v → ¬ in_page v a) → m' a = m a
}.

(** A 32-bit address. *)
Definition addr (va : Z) : Prop := 0 ≤ va < 4294967296.

(** [f'] maps the [n] pages from [a] on to the pages from [pa] on and is [f] elsewhere. *)
Definition mapped (a pa perm : Z) (n : nat) (f f' : Z → Z) : Prop :=
  ∀ va, addr va →
    f' va = if (a <=? va) && (va <? a + PGSIZE * Z.of_nat n)
            then Z.lor (Z.lor (pa + PGSIZE * ((va - a) / PGSIZE)) perm) PTE_P else f va.

(** ** Lemmas *)

(** *** Entries *)

Lemma land_page pa f : pa mod PGSIZE = 0 → 0 ≤ f < PGSIZE → Z.land pa f = 0.
Proof.
  unfold PGSIZE. intros Hp Hf. apply Z.bits_inj'. intros n Hn. rewrite Z.land_spec, Z.bits_0.
  destruct (Z.ltb_spec n 12).
  - replace pa with (pa / 4096 * 2 ^ 12) by zmod_lia. by rewrite Z.mul_pow2_bits_low.
  - destruct (Z.eq_dec f 0) as [->|]; [by rewrite Z.bits_0, andb_false_r|].
    rewrite (Z.bits_above_log2 f n); [by rewrite andb_false_r | lia |].
    apply Z.log2_lt_pow2; [lia|]. apply Z.lt_le_trans with (2 ^ 12); [change (2 ^ 12) with 4096; lia|].
    apply Z.pow_le_mono_r; lia.
Qed.

Lemma lor_page pa f : pa mod PGSIZE = 0 → 0 ≤ f < PGSIZE → Z.lor pa f = pa + f.
Proof.
  intros Hp Hf. rewrite <- Z.lxor_lor by (by apply land_page).
  symmetry. apply Z.add_nocarry_lxor. by apply land_page.
Qed.

Lemma PTE_ADDR_spec e : 0 ≤ e → PTE_ADDR e = PGSIZE * (e / PGSIZE).
Proof. intros He. by rewrite <- PGROUNDDOWN_spec. Qed.

Lemma PTE_FLAGS_spec e : PTE_FLAGS e = e mod PGSIZE.
Proof. unfold PTE_FLAGS, PGSIZE. change 4095 with (Z.ones 12). by rewrite Z.land_ones. Qed.

Lemma present_spec e : present e = negb (e mod 2 =? 0).
Proof. unfold present, PTE_P. change 1 with (Z.ones 1) at 1. by rewrite Z.land_ones. Qed.

Lemma lor_flags_range x y : 0 ≤ x < PGSIZE → 0 ≤ y < PGSIZE → 0 ≤ Z.lor x y < PGSIZE.
Proof.
  unfold PGSIZE. intros Hx Hy. split; [apply Z.lor_nonneg; lia|].
  destruct (Z.eq_dec (Z.lor x y) 0) as [->|]; [lia|].
  assert (0 ≤ Z.lor x y) by (apply Z.lor_nonneg; lia).
  apply (Z.log2_lt_pow2 _ 12); [lia|]. rewrite Z.log2_lor by lia.
  apply Z.max_lub_lt.
  - destruct (Z.eq_dec x 0) as [->|]; [done | apply Z.log2_lt_pow2; lia].
  - destruct (Z.eq_dec y 0) as [->|]; [done | apply Z.log2_lt_pow2; lia].
Qed.

(** An entry for a page: its address, its flags and the present bit. *)
Lemma page_entry pa perm :
  pa mod PGSIZE = 0 → 0 ≤ pa < 4294967296 → 0 ≤ perm < PGSIZE →
  let e := Z.lor (Z.lor pa perm) PTE_P in
  present e = true ∧ PTE_ADDR e = pa ∧ PTE_FLAGS e = Z.lor perm PTE_P ∧ 0 ≤ e < 4294967296.
Proof.
  intros Hp Hr Hf e. unfold e. rewrite <- Z.lor_assoc.
  assert (Hg : 0 ≤ Z.lor perm PTE_P < PGSIZE)
    by (apply lor_flags_range; [done | unfold PTE_P, PGSIZE; lia]).
  rewrite lor_page by done.
  assert (Hodd : Z.lor perm PTE_P mod 2 = 1).
  { rewrite Zmod_odd. replace (Z.odd (Z.lor perm PTE_P)) with true; [done|].
    rewrite <- Z.bit0_odd, Z.lor_spec. by rewrite orb_true_r. }
  rewrite PTE_FLAGS_spec, present_spec, PTE_ADDR_spec by lia.
  revert Hp Hr Hg Hodd. generalize (Z.lor perm PTE_P). unfold PGSIZE. intros g Hp Hr Hg Hodd.
  destruct (Z.eqb_spec ((pa + g) mod 2) 0); [zmod_lia|]. split_and!; try done; try lia; zmod_lia.
Qed.

Lemma page_v2p kend t :
  page_ok kend t →
  v2p t mod PGSIZE = 0 ∧ 0 < v2p t < PHYSTOP ∧ p2v (v2p t) = t ∧ v2p t = t - KERNBASE.
Proof.
  intros (Ha & _ & Hb & Hp). unfold v2p, p2v, KERNBASE, PHYSTOP, PGSIZE in *.
  rewrite (u32_small (t - _)), u32_small by lia. split_and!; try lia. zmod_lia.
Qed.

(** The directory entry of a table leads to the table. *)
Lemma tab_entry_spec kend t :
  page_ok kend t →
  present (tab_entry t) = true ∧ p2v (PTE_ADDR (tab_entry t)) = t ∧ 0 ≤ tab_entry t < 4294967296.
Proof.
  intros Ht. destruct (page_v2p _ _ Ht) as (Ha & Hr & Hb & _). unfold PHYSTOP in Hr.
  assert (E : tab_entry t = Z.lor (Z.lor (v2p t) 6) PTE_P).
  { unfold tab_entry. rewrite <- !Z.lor_assoc. f_equal. }
  destruct (page_entry (v2p t) 6) as (H1 & H2 & _ & H3); [done | lia | unfold PGSIZE; lia |].
  rewrite E, H2. done.
Qed.

(** *** Virtual addresses *)

Lemma PDX_spec va : addr va → PDX va = va / 4194304.
Proof.
  intros Hva. unfold PDX. change 1023 with (Z.ones 10).
  rewrite Z.land_ones, Z.shiftr_div_pow2 by lia. change (2 ^ 22) with 4194304.
  change (2 ^ 10) with 1024. unfold addr in Hva. apply Z.mod_small. zmod_lia.
Qed.

Lemma PTX_spec va : PTX va = (va / 4096) mod 1024.
Proof.
  unfold PTX. change 1023 with (Z.ones 10). rewrite Z.land_ones, Z.shiftr_div_pow2 by lia. done.
Qed.

Lemma PTX_range va : 0 ≤ PTX va < 1024.
Proof. rewrite PTX_spec. by apply Z.mod_pos_bound. Qed.

Lemma PDX_range va : addr va → 0 ≤ PDX va < 1024.
Proof. intros Hva. rewrite PDX_spec by done. unfold addr in Hva. zmod_lia. Qed.

(** The indices name the page. *)
Lemma page_index va va' :
  addr va → addr va' → PDX va = PDX va' ∧ PTX va = PTX va' ↔ va / PGSIZE = va' / PGSIZE.
Proof.
  intros Hva Hva'. rewrite !PDX_spec, !PTX_spec by done. unfold addr, PGSIZE in *.
  replace 4194304 with (4096 * 1024) by lia. rewrite <- !Z.div_div by lia.
  split.
  - intros [H1 H2]. zmod_lia.
  - by intros ->.
Qed.

(** *** Changing memory *)

(** [m'] agrees with [m] on the page [v]. *)
Definition same_page (v : Z) (m m' : mem) : Prop := ∀ a, in_page v a → m' a = m a.

Lemma same_page_load v m m' k :
  same_page v m m' → 0 ≤ k → k + 4 ≤ PGSIZE → load32 m' (v + k) = load32 m (v + k).
Proof. intros H Hk Hk'. apply load32_ext. intros x Hx. apply H. unfold in_page. lia. Qed.

Lemma same_outside_page v w m m' :
  same_outside v m m' → v mod PGSIZE = 0 → w mod PGSIZE = 0 → v ≠ w → same_page w m m'.
Proof.
  intros H Hv Hw Hne a Ha. apply H. intros Ha'. by apply (page_disjoint v w a a).
Qed.

Lemma pt_ok_frame kend m m' pgdir tabs :
  pt_ok kend m pgdir tabs → same_page pgdir m m' → pt_ok kend m' pgdir tabs.
Proof.
  intros [H1 H2 H3 H4] Hm. split; try done.
  - intros i t Ht. destruct (H2 i t Ht) as (Hi & Hp & Hne & He). split_and!; try done; try lia.
    rewrite <- He. apply same_page_load; [done | lia | unfold PGSIZE; lia].
  - intros i Hi Hn. rewrite (same_page_load pgdir m); [by apply H4 | done | lia | unfold PGSIZE; lia].
Qed.

Lemma pte_frame m m' tabs va :
  (∀ i t, tabs !! i = Some t → same_page t m m') → pte m' tabs va = pte m tabs va.
Proof.
  intros H. unfold pte. destruct (tabs !! PDX va) as [t|] eqn:Et; [|done].
  pose proof (PTX_range va). apply same_page_load; [by eapply H | lia | unfold PGSIZE; lia].
Qed.

Section Store.
Context {kend : Z} {m : mem} {pgdir : Z} {tabs : gmap Z Z} {va t x : Z}.
Hypothesis Hpt : pt_ok kend m pgdir tabs.
Hypothesis Hva : addr va.
Hypothesis Ht : tabs !! PDX va = Some t.
Hypothesis Hx : 0 ≤ x < 4294967296.

(** Writing the entry of [va]. *)
Lemma store_outside : same_outside t m (store32 m (t + 4 * PTX va) x).
Proof using. pose proof (PTX_range va). apply store32_outside; unfold PGSIZE; lia. Qed.

Lemma store_pt_ok : pt_ok kend (store32 m (t + 4 * PTX va) x) pgdir tabs.
Proof using Hpt Ht.
  destruct (pt_tab _ _ _ _ Hpt _ _ Ht) as (_ & Hp & Hne & _).
  eapply pt_ok_frame; [exact Hpt|]. eapply same_outside_page; [apply store_outside | apply Hp | apply Hpt | done].
Qed.

Lemma store_pte va' :
  addr va' →
  pte (store32 m (t + 4 * PTX va) x) tabs va' =
    if va / PGSIZE =? va' / PGSIZE then x else pte m tabs va'.
Proof using All.
  intros Hva'. destruct (pt_tab _ _ _ _ Hpt _ _ Ht) as (_ & Hp & _).
  pose proof (PTX_range va). pose proof (PTX_range va').
  destruct (Z.eqb_spec (va / PGSIZE) (va' / PGSIZE)) as [E|E].
  - apply page_index in E as [E1 E2]; [|done..]. unfold pte. rewrite <- E1, <- E2, Ht.
    rewrite <- (u32_small x) at 1 by done. rewrite load32_store32. by apply u32_small.
  - unfold pte. destruct (tabs !! PDX va') as [t'|] eqn:Et'; [|done].
    destruct (decide (t = t')) as [<-|Hne].
    + rewrite load32_store32_ne; [done|].
      assert (PTX va ≠ PTX va'); [|lia]. intros EX. apply E, page_index; [done..|].
      split; [by eapply (pt_inj _ _ _ _ Hpt) | done].
    + destruct (pt_tab _ _ _ _ Hpt _ _ Et') as (_ & Hp' & _).
      apply same_page_load; [|lia | unfold PGSIZE; lia].
      eapply same_outside_page; [apply store_outside | apply Hp | apply Hp' | done].
Qed.
End Store.

(** *** [walkpgdir] *)

Lemma runs_word a s (Q : Z → kms → Prop) : Q (load32 (km_mem s) a) s → runs (word a) s Q.
Proof. intros. by apply runs_bind, runs_get, runs_ret. Qed.

Lemma walk_lookup_rule kend s pgdir tabs va (Q : Z → kms → Prop) :
  pt_ok kend (km_mem s) pgdir tabs → addr va →
  Q (match tabs !! PDX va with Some t => t + 4 * PTX va | None => 0 end) s →
  runs (walkpgdir pgdir va false) s Q.
Proof.
  intros Hpt Hva HQ. unfold walkpgdir. apply runs_bind, runs_word.
  destruct (tabs !! PDX va) as [t|] eqn:Et.
  - destruct (pt_tab _ _ _ _ Hpt _ _ Et) as (_ & Hp & _ & ->).
    destruct (tab_entry_spec _ _ Hp) as (-> & -> & _). by apply runs_ret.
  - rewrite (pt_none _ _ _ _ Hpt) by (done || by apply PDX_range). by apply runs_ret.
Qed.

(** Adding a zeroed table. *)
Section NewTable.
Context {kend : Z} {m : mem} {pgdir : Z} {tabs : gmap Z Z} {va t : Z}.
Hypothesis Hpt : pt_ok kend m pgdir tabs.
Hypothesis Hva : addr va.
Hypothesis Hnone : tabs !! PDX va = None.
Hypothesis Hp : page_ok kend t.
Hypothesis Hapart : ¬ pt_page pgdir tabs t.

Definition new_table : mem := store32 (memset m t 0 PGSIZE) (pgdir + 4 * PDX va) (tab_entry t).

Lemma new_table_mem a :
  (∀ v, pt_page pgdir (<[PDX va := t]> tabs) v → ¬ in_page v a) → new_table a = m a.
Proof using Hva.
  intros Ha. unfold new_table. pose proof (PDX_range va Hva).
  rewrite (store32_outside pgdir); [|lia | unfold PGSIZE; lia | apply Ha; by left].
  apply (memset_outside t). apply Ha. right. exists (PDX va). apply lookup_insert_eq.
Qed.

(** The pages other than the directory and the new table are unchanged. *)
Lemma new_table_page v :
  v mod PGSIZE = 0 → v ≠ pgdir → v ≠ t → same_page v m new_table.
Proof using Hpt Hva Hp.
  intros Hv H1 H2 a Ha. unfold new_table. pose proof (PDX_range va Hva).
  assert (Hd : same_page v (memset m t 0 PGSIZE) new_table).
  { eapply (same_outside_page pgdir); [apply store32_outside; unfold PGSIZE; lia | apply Hpt | done | done]. }
  fold new_table. rewrite Hd by done.
  apply (same_outside_page t v m); [apply memset_outside | apply Hp | done..].
Qed.

Lemma new_table_zero k : 0 ≤ k → k + 4 ≤ PGSIZE → load32 new_table (t + k) = 0.
Proof using Hpt Hva Hp Hapart.
  intros Hk Hk'. assert (t ≠ pgdir) by (intros ->; apply Hapart; by left).
  pose proof (PDX_range va Hva). unfold new_table.
  rewrite (load32_outside pgdir (memset m t 0 PGSIZE)); [| apply store32_outside; unfold PGSIZE; lia | apply Hpt | apply Hp | done..].
  unfold load32. rewrite !memset_lookup by (unfold PGSIZE; lia). unfold PGSIZE in *.
  bool_cases; done.
Qed.

Lemma new_table_dir i :
  0 ≤ i < 1024 →
  load32 new_table (pgdir + 4 * i) = if i =? PDX va then tab_entry t else load32 m (pgdir + 4 * i).
Proof using Hpt Hva Hp Hapart.
  intros Hi. unfold new_table. destruct (Z.eqb_spec i (PDX va)) as [->|Hne].
  - destruct (tab_entry_spec _ _ Hp) as (_ & _ & Hr).
    rewrite <- (u32_small (tab_entry t)) at 1 by done. rewrite load32_store32. by apply u32_small.
  - rewrite load32_store32_ne by lia.
    apply (load32_outside t); [apply memset_outside | apply Hp | apply Hpt | | lia | unfold PGSIZE; lia].
    intros ->. apply Hapart. by left.
Qed.

Lemma new_table_ok : pt_ok kend new_table pgdir (<[PDX va := t]> tabs).
Proof using All.
  destruct Hpt as [H1 H2 H3 H4]. pose proof (PDX_range va Hva).
  assert (Hnew : ∀ i, tabs !! i ≠ Some t) by (intros i Hi; apply Hapart; right; eauto).
  split; try done.
  - intros i t'. rewrite lookup_insert_Some. intros [[<- <-]|[Hne Ht']].
    + rewrite new_table_dir by lia. rewrite Z.eqb_refl. split_and!; try done; try lia.
      intros ->. apply Hapart. by left.
    + destruct (H2 i t' Ht') as (Hi & Hp' & Hne' & He). rewrite new_table_dir by lia.
      destruct (Z.eqb_spec i (PDX va)); [congruence|]. done.
  - intros i j t'. rewrite !lookup_insert_Some.
    intros [[<- <-]|[? Hi]] [[<- E]|[? Hj]]; try done; [by destruct (Hnew j) | subst; by destruct (Hnew i) | eauto].
  - intros i Hi. rewrite lookup_insert_None. intros [Hn Hne]. rewrite new_table_dir by lia.
    destruct (Z.eqb_spec i (PDX va)); [congruence|]. by apply H4.
Qed.

Lemma new_table_pte va' : addr va' → pte new_table (<[PDX va := t]> tabs) va' = pte m tabs va'.
Proof using All.
  intros Hva'. pose proof (PTX_range va'). unfold pte.
  destruct (decide (PDX va = PDX va')) as [E|Hne].
  - rewrite <- E, lookup_insert_eq, Hnone. apply new_table_zero; unfold PGSIZE; lia.
  - rewrite lookup_insert_ne by done. destruct (tabs !! PDX va') as [t'|] eqn:Et; [|done].
    destruct (pt_tab _ _ _ _ Hpt _ _ Et) as (_ & Hp' & Hd & _).
    apply same_page_load; [|lia | unfold PGSIZE; lia].
    apply new_table_page; [apply Hp' | done|]. intros ->. apply Hapart. right. eauto.
Qed.
End NewTable.

Lemma vm_grows_refl pgdir tabs l m : vm_grows pgdir tabs l m tabs l m.
Proof. split; auto. Qed.

Lemma vm_grows_trans pgdir tabs l m tabs1 l1 m1 tabs2 l2 m2 :
  vm_grows pgdir tabs l m tabs1 l1 m1 → vm_grows pgdir tabs1 l1 m1 tabs2 l2 m2 →
  vm_grows pgdir tabs l m tabs2 l2 m2.
Proof.
  intros [A1 A2 A3 A4] [B1 B2 B3 B4]. split.
  - by transitivity tabs1.
  - intros v [Hv|Hv]%B2; [by apply A2|]. right. by eapply elem_of_sublist.
  - by transitivity l1.
  - intros a Ha. rewrite B4 by done. apply A4. intros v [->|[i Hi]]; apply Ha; [by left|].
    right. exists i. by eapply lookup_weaken.
Qed.

(** [walkpgdir] with allocation gives the entry's address, adding a zeroed table if
    there is none, and 0 only if memory is exhausted. *)
Lemma walk_alloc_rule kend s pgdir tabs l va (Q : Z → kms → Prop) :
  vm_ok kend pgdir tabs l s → addr va →
  (∀ s' tabs' l' t, vm_ok kend pgdir tabs' l' s' → tabs' !! PDX va = Some t →
     vm_grows pgdir tabs l (km_mem s) tabs' l' (km_mem s') →
     (∀ va', addr va' → pte (km_mem s') tabs' va' = pte (km_mem s) tabs va') →
     (length l ≤ S (length l'))%nat → Q (t + 4 * PTX va) s') →
  (∀ s', l = [] → vm_ok kend pgdir tabs [] s' → km_mem s' = km_mem s → Q 0 s') →
  runs (walkpgdir pgdir va true) s Q.
Proof.
  intros [Hk Hpt Hap] Hva HQ H0. unfold walkpgdir. apply runs_bind, runs_word.
  destruct (tabs !! PDX va) as [t|] eqn:Et.
  - destruct (pt_tab _ _ _ _ Hpt _ _ Et) as (_ & Hp & _ & ->).
    destruct (tab_entry_spec _ _ Hp) as (-> & -> & _).
    apply runs_ret, (HQ s tabs l t); [done | done | apply vm_grows_refl | done | lia].
  - rewrite (pt_none _ _ _ _ Hpt) by (done || by apply PDX_range). cbn [negb].
    apply runs_bind, (kalloc_rule (kend := kend) _ l); [done|]. intros s1 Hk1 Em _.
    destruct l as [|t l]; cbn [head default tail id] in *.
    + apply runs_ret, H0; [done | split; rewrite ?Em; done | done].
    + assert (Hp : page_ok kend t) by (apply (ko_pages _ _ _ Hk); left).
      assert (Hna : ¬ pt_page pgdir tabs t) by (apply Hap; left).
      destruct (Z.eqb_spec t 0); [destruct Hp as (_ & _ & Hb & _); unfold KERNBASE in Hb; lia|].
      apply runs_bind, runs_mod. apply runs_bind, runs_mod. apply runs_ret.
      cbn [set_mem km_mem]. rewrite Em.
      change (store32 _ _ _) with (new_table (m := km_mem s) (pgdir := pgdir) (va := va) (t := t)).
      pose proof (ko_nodup _ _ _ Hk) as [Htl Hnd]%NoDup_cons.
      eapply (HQ _ (<[PDX va := t]> tabs) l t); [split | apply lookup_insert_eq | split | | done].
      * destruct Hk1 as [K1 K2 K3 K4 K5]. split; try done. cbn. eapply flist_frame; [exact K3|].
        intros v Hv. rewrite Em. replace v with (v + 0) by lia.
        assert (v ≠ pgdir) by (intros ->; eapply Hap; [right; exact Hv | by left]).
        assert (v ≠ t) by congruence.
        eapply (same_page_load v); [|lia | unfold PGSIZE; lia].
        eapply (new_table_page Hpt Hva Hp); [apply K4; auto | done..].
      * by apply (new_table_ok Hpt Hva Et Hp Hna).
      * intros v Hv [->|[i Hi]]; [eapply Hap; [right; exact Hv | by left]|].
        apply lookup_insert_Some in Hi as [[_ ->]|[_ Hi]]; [done|].
        eapply Hap; [right; exact Hv | right; eauto].
      * by apply insert_subseteq.
      * intros v [->|[i Hi]]; [left; by left|].
        apply lookup_insert_Some in Hi as [[_ ->]|[_ Hi]]; [right; left | left; right; eauto].
      * by apply sublist_cons.
      * intros a Ha. eapply new_table_mem; eauto.
      * intros va' Hva'. by apply (new_table_pte Hpt Hva Et Hp Hna).
Qed.

(** *** [mappages] *)

(** Writing an entry keeps the invariant. *)
Lemma vm_ok_store kend pgdir tabs l s va t x :
  vm_ok kend pgdir tabs l s → tabs !! PDX va = Some t →
  vm_ok kend pgdir tabs l (set_mem (store32 (km_mem s) (t + 4 * PTX va) x) s).
Proof.
  intros [Hk Hpt Hap] Ht. split; [|by apply store_pt_ok | done].
  destruct (pt_tab _ _ _ _ Hpt _ _ Ht) as (_ & Hp & _).
  destruct Hk as [K1 K2 K3 K4 K5]. split; try done. cbn. eapply flist_frame; [exact K3|].
  intros v Hv. replace v with (v + 0) by lia.
  apply (load32_outside t); [apply store_outside | apply Hp | by apply K4 | | lia | unfold PGSIZE; lia].
  intros ->. apply (Hap v Hv). right. eauto.
Qed.

Lemma vm_grows_store pgdir tabs l m va t x :
  tabs !! PDX va = Some t → vm_grows pgdir tabs l m tabs l (store32 m (t + 4 * PTX va) x).
Proof.
  intros Ht. split; [done | auto | done |]. intros a Ha. apply (store_outside (t := t)).
  apply Ha. right. eauto.
Qed.

Lemma mapped_0 a pa perm f : mapped a pa perm 0 f f.
Proof. intros va Hva. bool_cases; done. Qed.

Lemma mapped_cons a pa perm k f f1 f2 :
  a mod PGSIZE = 0 →
  (∀ va, addr va →
     f1 va = if a / PGSIZE =? va / PGSIZE then Z.lor (Z.lor pa perm) PTE_P else f va) →
  mapped (a + PGSIZE) (pa + PGSIZE) perm k f1 f2 → mapped a pa perm (S k) f f2.
Proof.
  intros Ha H1 H2 va Hva. rewrite H2, H1 by done. unfold PGSIZE in *.
  destruct (Z.eqb_spec (a / 4096) (va / 4096)).
  - assert (a ≤ va < a + 4096) by zmod_lia. replace ((va - a) / 4096) with 0 by zmod_lia.
    rewrite Z.mul_0_r, Z.add_0_r. bool_cases; done.
  - replace (pa + 4096 + 4096 * ((va - (a + 4096)) / 4096)) with (pa + 4096 * ((va - a) / 4096)) by zmod_lia.
    assert (¬ a ≤ va < a + 4096) by zmod_lia. bool_cases; done.
Qed.

(** One round of the loop of [mappages]. *)
Lemma map_one_rule kend s pgdir tabs l a pa perm (m : K kms Z) (Q : Z → kms → Prop) :
  vm_ok kend pgdir tabs l s → addr a → pa mod PGSIZE = 0 → 0 ≤ pa < 4294967296 →
  0 ≤ perm < PGSIZE → present (pte (km_mem s) tabs a) = false →
  (∀ s' tabs' l', vm_ok kend pgdir tabs' l' s' →
     vm_grows pgdir tabs l (km_mem s) tabs' l' (km_mem s') →
     (∀ va, addr va → pte (km_mem s') tabs' va =
        if a / PGSIZE =? va / PGSIZE then Z.lor (Z.lor pa perm) PTE_P else pte (km_mem s) tabs va) →
     (length l ≤ S (length l'))%nat → runs m s' Q) →
  (∀ s', l = [] → vm_ok kend pgdir tabs [] s' → km_mem s' = km_mem s → Q (-1) s') →
  runs (p ← walkpgdir pgdir a true;
        if p =? 0 then mret (-1)
        else e ← word p;
             if present e then kpanic "remap"
             else set_word p (Z.lor (Z.lor pa perm) PTE_P);; m) s Q.
Proof.
  intros Hvm Hva Hpa Hpa' Hperm Hnp HQ H0.
  destruct (page_entry pa perm) as (_ & _ & _ & Hx); [done..|].
  apply runs_bind, (walk_alloc_rule kend _ _ tabs l); [done | done | |].
  2:{ intros s1 -> Hvm1 Em. apply runs_ret. by apply H0. }
  intros s1 tabs1 l1 t Hvm1 Ht Hg1 Hp1 Hlen.
  pose proof (pt_tab _ _ _ _ (vm_pt _ _ _ _ _ Hvm1) _ _ Ht) as (_ & (_ & _ & Hb & _) & _).
  pose proof (PTX_range a). destruct (Z.eqb_spec (t + 4 * PTX a) 0); [unfold KERNBASE in Hb; lia|].
  apply runs_bind, runs_word.
  assert (E : load32 (km_mem s1) (t + 4 * PTX a) = pte (km_mem s) tabs a)
    by (rewrite <- Hp1 by done; unfold pte; by rewrite Ht).
  rewrite E, Hnp. apply runs_bind, runs_mod. apply (HQ _ tabs1 l1).
  - by apply vm_ok_store.
  - eapply vm_grows_trans; [exact Hg1 | by apply vm_grows_store].
  - intros va Hva'. cbn [km_mem set_mem].
    rewrite (store_pte (vm_pt _ _ _ _ _ Hvm1) Hva Ht Hx) by done. by rewrite Hp1.
  - done.
Qed.

Lemma mappages_loop_rule kend n fuel s pgdir tabs l a pa perm (Q : Z → kms → Prop) :
  vm_ok kend pgdir tabs l s → (n < fuel)%nat →
  a mod PGSIZE = 0 → 0 ≤ a → a + PGSIZE * Z.of_nat (S n) ≤ 4294967296 →
  pa mod PGSIZE = 0 → 0 ≤ pa → pa + PGSIZE * Z.of_nat (S n) ≤ 4294967296 → 0 ≤ perm < PGSIZE →
  (∀ va, a ≤ va < a + PGSIZE * Z.of_nat (S n) → present (pte (km_mem s) tabs va) = false) →
  (∀ s' tabs' l' r k, vm_ok kend pgdir tabs' l' s' →
     vm_grows pgdir tabs l (km_mem s) tabs' l' (km_mem s') →
     mapped a pa perm k (pte (km_mem s) tabs) (pte (km_mem s') tabs') →
     r = 0 ∧ k = S n ∨ r = -1 ∧ (k ≤ n)%nat ∧ l' = [] → Q r s') →
  runs (mappages_loop fuel pgdir a (a + PGSIZE * Z.of_nat n) pa perm) s Q.
Proof.
  revert fuel s tabs l a pa. induction n as [|n IH];
    intros [|fuel] s tabs l a pa Hvm Hf Ha Ha0 Ha1 Hpa Hpa0 Hpa1 Hperm Hnp HQ; try lia;
    cbn [mappages_loop]; unfold PGSIZE in Ha1, Hpa1;
    (apply (map_one_rule kend _ _ tabs l);
      [done | unfold addr; lia | done | lia | done | apply Hnp; unfold PGSIZE; lia | |]).
  2,4: intros s1 -> Hvm1 Em; apply (HQ s1 tabs [] _ 0%nat); rewrite ?Em;
    [done | apply vm_grows_refl | apply mapped_0 | right; split_and!; [done | lia | done]].
  - intros s1 tabs1 l1 Hvm1 Hg1 Hp1 _. rewrite Z.mul_0_r, Z.add_0_r, Z.eqb_refl.
    apply runs_ret, (HQ s1 tabs1 l1 _ 1%nat); [done | done | | by left].
    eapply mapped_cons; [done | exact Hp1 | apply mapped_0].
  - intros s1 tabs1 l1 Hvm1 Hg1 Hp1 _.
    destruct (Z.eqb_spec a (a + PGSIZE * Z.of_nat (S n))); [unfold PGSIZE in *; lia|].
    rewrite !u32_small by (unfold PGSIZE; lia).
    replace (a + PGSIZE * Z.of_nat (S n)) with (a + PGSIZE + PGSIZE * Z.of_nat n) by lia.
    apply (IH _ s1 tabs1 l1); try done; try (unfold PGSIZE in *; lia); try (unfold PGSIZE in *; zmod_lia).
    + intros va Hva. rewrite Hp1 by (unfold addr, PGSIZE in *; lia).
      destruct (Z.eqb_spec (a / PGSIZE) (va / PGSIZE)); [unfold PGSIZE in *; zmod_lia|].
      apply Hnp. unfold PGSIZE in *. lia.
    + intros s' tabs' l' r k Hvm' Hg' Hm' Hr. apply (HQ s' tabs' l' r (S k)); [done | | |].
      * by eapply vm_grows_trans.
      * by eapply mapped_cons.
      * destruct Hr as [[-> ->]|(-> & ? & ->)]; [by left | right; split_and!; [done | lia | done]].
Qed.

(** The number of pages [mappages] covers, less one. *)
Definition map_last (va size : Z) : nat := Z.to_nat ((va + size - 1) / PGSIZE - va / PGSIZE).

Lemma page_fuel_spec n : Z.of_nat n < 1048577 → (n < page_fuel)%nat.
Proof. intros H. change page_fuel with (Z.to_nat 1048577). lia. Qed.

Lemma mappages_rule kend s pgdir tabs l va size pa perm (n := map_last va size)
    (Q : Z → kms → Prop) :
  vm_ok kend pgdir tabs l s → 0 ≤ va → 0 < size → va + size ≤ 4294967296 →
  pa mod PGSIZE = 0 → 0 ≤ pa → pa + PGSIZE * Z.of_nat (S n) ≤ 4294967296 → 0 ≤ perm < PGSIZE →
  (∀ x, addr x → va / PGSIZE ≤ x / PGSIZE ≤ (va + size - 1) / PGSIZE →
     present (pte (km_mem s) tabs x) = false) →
  (∀ s' tabs' l' r k, vm_ok kend pgdir tabs' l' s' →
     vm_grows pgdir tabs l (km_mem s) tabs' l' (km_mem s') →
     mapped (PGSIZE * (va / PGSIZE)) pa perm k (pte (km_mem s) tabs) (pte (km_mem s') tabs') →
     r = 0 ∧ k = S n ∨ r = -1 ∧ (k ≤ n)%nat ∧ l' = [] → Q r s') →
  runs (mappages pgdir va size pa perm) s Q.
Proof.
  intros Hvm Hva Hsz Hend Hpa Hpa0 Hpa1 Hperm Hnp HQ. unfold mappages.
  rewrite u32_small by lia. rewrite !PGROUNDDOWN_spec by lia.
  assert (En : PGSIZE * ((va + size - 1) / PGSIZE) = PGSIZE * (va / PGSIZE) + PGSIZE * Z.of_nat n).
  { unfold n, map_last. unfold PGSIZE. rewrite Z2Nat.id by zmod_lia. zmod_lia. }
  assert (Hn : Z.of_nat n < 1048576) by (unfold n, map_last, PGSIZE; zmod_lia).
  rewrite En. apply (mappages_loop_rule kend n _ _ _ tabs l); try done.
  - apply page_fuel_spec. lia.
  - unfold PGSIZE. zmod_lia.
  - unfold PGSIZE. zmod_lia.
  - unfold PGSIZE in *. zmod_lia.
  - intros x Hx. unfold PGSIZE in *. apply Hnp; [unfold addr; zmod_lia | zmod_lia].
Qed.

(** *** An empty page table *)

Lemma kmem_ok_page kend l s v m' :
  kmem_ok kend l s → same_outside v (km_mem s) m' → v mod PGSIZE = 0 → v ∉ l →
  kmem_ok kend l (set_mem m' s).
Proof.
  intros [K1 K2 K3 K4 K5] Hm Hv Hin. split; try done. cbn. eapply flist_frame; [exact K3|].
  intros a Ha. replace a with (a + 0) by lia.
  apply (load32_outside v); [done | done | by apply K4 | congruence | lia | unfold PGSIZE; lia].
Qed.

Lemma memset_zero_load m v k : 0 ≤ k → k + 4 ≤ PGSIZE → load32 (memset m v 0 PGSIZE) (v + k) = 0.
Proof.
  intros Hk Hk'. unfold load32. rewrite !memset_lookup by (unfold PGSIZE; lia).
  unfold PGSIZE in *. bool_cases; done.
Qed.

Lemma empty_dir_ok kend l s pgdir :
  kmem_ok kend l s → page_ok kend pgdir → pgdir ∉ l →
  vm_ok kend pgdir ∅ l (set_mem (memset (km_mem s) pgdir 0 PGSIZE) s).
Proof.
  intros Hk Hp Hin. split.
  - eapply kmem_ok_page; [done | apply memset_outside | apply Hp | done].
  - split; try done.
    intros i Hi _. cbn. by rewrite memset_zero_load by (unfold PGSIZE; lia).
  - intros v Hv [->|[i Hi]]; [done|]. by rewrite lookup_empty in Hi.
Qed.

(** *** User memory *)

(** The byte a user program reads at [va]. *)
Definition uread (m : mem) (tabs : gmap Z Z) (va : Z) : option Z :=
  let e := pte m tabs va in
  if present e && user e then Some (m (p2v (PTE_ADDR e) + va mod PGSIZE)) else None.

(** The page behind [va]. *)
Definition upage (m : mem) (tabs : gmap Z Z) (va : Z) : Z := p2v (PTE_ADDR (pte m tabs va)).

(** An address space: the pages behind user addresses are the process's own. *)
Record as_ok (kend pgdir : Z) (tabs : gmap Z Z) (l : list Z) (s : kms) : Prop := {
  as_vm : vm_ok kend pgdir tabs l s;
  as_page : ∀ va, 0 ≤ va < KERNBASE → present (pte (km_mem s) tabs va) = true →
    page_ok kend (upage (km_mem s) tabs va) ∧ (upage (km_mem s) tabs va ∉ l) ∧
    ¬ pt_page pgdir tabs (upage (km_mem s) tabs va);
  as_inj : ∀ va va', 0 ≤ va < KERNBASE → 0 ≤ va' < KERNBASE →
    present (pte (km_mem s) tabs va) = true → present (pte (km_mem s) tabs va') = true →
    upage (km_mem s) tabs va = upage (km_mem s) tabs va' → va / PGSIZE = va' / PGSIZE
}.

Definition WU : Z := Z.lor PTE_W PTE_U.

Lemma user_entry pa :
  pa mod PGSIZE = 0 → 0 ≤ pa < 4294967296 →
  let e := Z.lor (Z.lor pa WU) PTE_P in
  present e = true ∧ user e = true ∧ PTE_ADDR e = pa ∧ 0 ≤ e < 4294967296.
Proof.
  intros Ha Hr. destruct (page_entry pa WU Ha Hr) as (H1 & H2 & _ & H3); [by vm_compute|].
  split_and!; try done; try lia. unfold user. rewrite Z.land_lor_distr_l, Z.land_lor_distr_l.
  unfold PTE_U at 1. rewrite (land_page pa) by (done || (unfold PGSIZE; lia)). done.
Qed.

Lemma uread_page m m' tabs tabs' va :
  pte m' tabs' va = pte m tabs va → (present (pte m tabs va) = true → same_page (upage m tabs va) m m') →
  uread m' tabs' va = uread m tabs va.
Proof.
  intros E Hp. unfold uread. rewrite E. destruct (present _) eqn:Ep; [|done].
  destruct (user _); [|done]. cbn. f_equal. apply Hp; [done|]. unfold in_page, upage.
  pose proof (Z.mod_pos_bound va PGSIZE). unfold PGSIZE in *. lia.
Qed.

(** Filling a page that is neither free nor part of the page table. *)
Lemma vm_ok_page kend pgdir tabs l s v m' :
  vm_ok kend pgdir tabs l s → same_outside v (km_mem s) m' → v mod PGSIZE = 0 → v ∉ l →
  ¬ pt_page pgdir tabs v →
  vm_ok kend pgdir tabs l (set_mem m' s) ∧ ∀ va, pte m' tabs va = pte (km_mem s) tabs va.
Proof.
  intros [Hk Hpt Hap] Hm Hv Hin Hnp. split; [split; [by eapply kmem_ok_page | | done]|].
  - eapply pt_ok_frame; [exact Hpt|]. eapply same_outside_page; [done | done | apply Hpt |].
    intros ->. apply Hnp. by left.
  - intros va. apply pte_frame. intros i t Ht. destruct (pt_tab _ _ _ _ Hpt _ _ Ht) as (_ & Hp & _).
    eapply same_outside_page; [done | done | apply Hp |]. intros ->. apply Hnp. right. eauto.
Qed.

Lemma mappages_one_rule kend s pgdir tabs l a pa perm (Q : Z → kms → Prop) :
  vm_ok kend pgdir tabs l s → l ≠ [] → a mod PGSIZE = 0 → 0 ≤ a → a + PGSIZE ≤ KERNBASE →
  pa mod PGSIZE = 0 → 0 ≤ pa < 4294967296 → 0 ≤ perm < PGSIZE →
  present (pte (km_mem s) tabs a) = false →
  (∀ s' tabs' l', vm_ok kend pgdir tabs' l' s' →
     vm_grows pgdir tabs l (km_mem s) tabs' l' (km_mem s') →
     (∀ va, addr va → pte (km_mem s') tabs' va =
        if a / PGSIZE =? va / PGSIZE then Z.lor (Z.lor pa perm) PTE_P else pte (km_mem s) tabs va) →
     (length l ≤ S (length l'))%nat → Q 0 s') →
  runs (mappages pgdir a PGSIZE pa perm) s Q.
Proof.
  intros Hvm Hne Ha Ha0 Ha1 Hpa Hpa' Hperm Hnp HQ. unfold mappages, KERNBASE in *.
  rewrite u32_small by (unfold PGSIZE in *; lia). rewrite !PGROUNDDOWN_spec by (unfold PGSIZE; lia).
  replace (PGSIZE * (a / PGSIZE)) with a by (unfold PGSIZE in *; zmod_lia).
  replace (PGSIZE * ((a + PGSIZE - 1) / PGSIZE)) with a by (unfold PGSIZE in *; zmod_lia).
  pose proof (page_fuel_spec 0 ltac:(lia)). destruct page_fuel as [|fuel]; [lia|].
  cbn [mappages_loop]. apply (map_one_rule kend _ _ tabs l); try done.
  - unfold addr, PGSIZE in *. lia.
  - intros s' tabs' l' Hvm' Hg Hp Hlen. rewrite Z.eqb_refl. apply runs_ret. by eapply HQ.
Qed.

Section AllocOne.
Context {kend pgdir : Z} {tabs : gmap Z Z} {l : list Z} {s : kms} {x a : Z}.
Hypothesis Has : as_ok kend pgdir tabs l s.
Hypothesis Hx : page_ok kend x.
Hypothesis Hxl : x ∉ l.
Hypothesis Hxp : ¬ pt_page pgdir tabs x.
Hypothesis Hfresh : ∀ va, 0 ≤ va < KERNBASE → present (pte (km_mem s) tabs va) = true →
  upage (km_mem s) tabs va ≠ x.
Hypothesis Ha : a mod PGSIZE = 0.
Hypothesis Ha0 : 0 ≤ a.
Hypothesis Ha1 : a + PGSIZE ≤ KERNBASE.
Hypothesis Hnp : present (pte (km_mem s) tabs a) = false.

(** Page [x], filled with [m1], is mapped at [a]. *)
Context {m1 : mem} {s' : kms} {tabs' : gmap Z Z} {l' : list Z}.
Hypothesis Hm1 : same_outside x (km_mem s) m1.
Hypothesis Hvm' : vm_ok kend pgdir tabs' l' s'.
Hypothesis Hg : vm_grows pgdir tabs l m1 tabs' l' (km_mem s').
Hypothesis Hp' : ∀ va, addr va → pte (km_mem s') tabs' va =
  if a / PGSIZE =? va / PGSIZE then Z.lor (Z.lor (v2p x) WU) PTE_P else pte (km_mem s) tabs va.

Lemma pt_page_aligned v : pt_page pgdir tabs' v → v mod PGSIZE = 0.
Proof using Hvm'.
  intros [->|[i Hi]]; [apply (vm_pt _ _ _ _ _ Hvm')|].
  by destruct (pt_tab _ _ _ _ (vm_pt _ _ _ _ _ Hvm') _ _ Hi) as (_ & [? _] & _).
Qed.

(** A page that is not part of the new page table. *)
Lemma not_pt_page v :
  v mod PGSIZE = 0 → v ∉ l → ¬ pt_page pgdir tabs v →
  ¬ pt_page pgdir tabs' v ∧ same_page v m1 (km_mem s').
Proof using Hvm' Hg.
  intros Hv Hvl Hvp. destruct Hg as [_ G2 _ G4].
  assert (Hn : ¬ pt_page pgdir tabs' v) by (intros [|]%G2; auto). split; [done|].
  intros b Hb. apply G4. intros w Hw Hbw. destruct (decide (w = v)) as [->|Hne]; [done|].
  apply (page_disjoint w v b b); try done. by apply pt_page_aligned.
Qed.

Lemma own_page v :
  page_ok kend v → v ∉ l → ¬ pt_page pgdir tabs v → v ≠ x →
  ¬ pt_page pgdir tabs' v ∧ same_page v (km_mem s) (km_mem s').
Proof using Hx Hm1 Hvm' Hg.
  intros Hv Hvl Hvp Hne. destruct (not_pt_page v) as [H1 H2]; [apply Hv | done | done |].
  split; [done|]. intros b Hb. rewrite H2 by done.
  apply (same_outside_page x v (km_mem s)); [done | apply Hx | apply Hv | done | done].
Qed.

Lemma mapped_entry : let E := Z.lor (Z.lor (v2p x) WU) PTE_P in
  present E = true ∧ user E = true ∧ p2v (PTE_ADDR E) = x.
Proof using Hx.
  destruct (page_v2p _ _ Hx) as (Hv1 & Hv2 & Hv3 & _). unfold PHYSTOP in Hv2.
  destruct (user_entry (v2p x) Hv1 ltac:(lia)) as (E1 & E2 & E3 & _). cbn. by rewrite E3.
Qed.

(** The pages behind user addresses: [x] at [a], the old ones elsewhere. *)
Lemma extend_case va :
  0 ≤ va < KERNBASE → present (pte (km_mem s') tabs' va) = true →
  a / PGSIZE = va / PGSIZE ∧ upage (km_mem s') tabs' va = x ∨
  a / PGSIZE ≠ va / PGSIZE ∧ present (pte (km_mem s) tabs va) = true ∧
    upage (km_mem s') tabs' va = upage (km_mem s) tabs va.
Proof using Hx Hp'.
  intros Hva. unfold upage. rewrite Hp' by (unfold addr, KERNBASE in *; lia).
  destruct (Z.eqb_spec (a / PGSIZE) (va / PGSIZE)) as [e|e]; [left | right; done].
  split; [done | apply mapped_entry].
Qed.

Lemma as_ok_extend : as_ok kend pgdir tabs' l' s'.
Proof using All.
  pose proof (vg_free _ _ _ _ _ _ _ Hg) as Hsub. split; [done | |].
  - intros va Hva Hpr. destruct (extend_case va Hva Hpr) as [[_ ->]|(_ & Hpr' & ->)].
    + split_and!; [done | | apply not_pt_page; [apply Hx | done..]].
      intros Hin. apply Hxl. by eapply elem_of_sublist.
    + destruct (as_page _ _ _ _ _ Has va Hva Hpr') as (P1 & P2 & P3).
      split_and!; [done | intros Hin; apply P2; by eapply elem_of_sublist |].
      apply own_page; auto.
  - intros va va' Hva Hva' Hpr Hpr'.
    destruct (extend_case va Hva Hpr) as [[<- ->]|(_ & H1 & ->)],
      (extend_case va' Hva' Hpr') as [[<- ->]|(_ & H2 & ->)];
      [done | intros E; exfalso; by apply (Hfresh va') | intros E; exfalso; by apply (Hfresh va) |].
    by apply (as_inj _ _ _ _ _ Has).
Qed.

Lemma uread_extend va :
  0 ≤ va < KERNBASE → uread (km_mem s') tabs' va =
    if a / PGSIZE =? va / PGSIZE then Some (m1 (x + va mod PGSIZE)) else uread (km_mem s) tabs va.
Proof using All.
  intros Hva. assert (Hva' : addr va) by (unfold addr, KERNBASE in *; lia).
  pose proof (Hp' va Hva') as E. destruct (Z.eqb_spec (a / PGSIZE) (va / PGSIZE)) as [e|e].
  - unfold uread. rewrite E. destruct mapped_entry as (-> & -> & ->). cbn [andb]. f_equal.
    apply (not_pt_page x); [apply Hx | done | done |].
    unfold in_page. pose proof (Z.mod_pos_bound va PGSIZE). unfold PGSIZE in *. lia.
  - apply uread_page; [done|]. intros Hpr.
    destruct (as_page _ _ _ _ _ Has va Hva Hpr) as (P1 & P2 & P3). apply own_page; auto.
Qed.
End AllocOne.

(** *** [allocuvm] *)

(** Taking a page from the free list. *)
Lemma as_ok_kalloc kend pgdir tabs l s s1 x :
  as_ok kend pgdir tabs (x :: l) s → kmem_ok kend l s1 → km_mem s1 = km_mem s →
  as_ok kend pgdir tabs l s1 ∧ page_ok kend x ∧ (x ∉ l) ∧ ¬ pt_page pgdir tabs x ∧
  ∀ va, 0 ≤ va < KERNBASE → present (pte (km_mem s1) tabs va) = true →
    upage (km_mem s1) tabs va ≠ x.
Proof.
  intros [[Hk Hpt Hap] Hpg Hinj] Hk1 Em. rewrite Em.
  pose proof (ko_nodup _ _ _ Hk) as [Hxl Hnd]%NoDup_cons. split_and!; try done.
  - split; [split; [done | by rewrite Em | intros v Hv; apply Hap; by right]|..]; rewrite Em; [|done].
    intros va Hva Hpr. destruct (Hpg va Hva Hpr) as (P1 & P2 & P3). set_solver.
  - apply (ko_pages _ _ _ Hk). left.
  - apply Hap. left.
  - intros va Hva Hpr. destruct (Hpg va Hva Hpr) as (_ & P2 & _). set_solver.
Qed.

(** One round of the loop of [allocuvm]: a zeroed page appears at [a]. *)
Lemma alloc_round_rule kend s pgdir tabs l a (m : K kms bool) (Q : bool → kms → Prop) :
  as_ok kend pgdir tabs l s → (2 ≤ length l)%nat → a mod PGSIZE = 0 → 0 ≤ a →
  a + PGSIZE ≤ KERNBASE → present (pte (km_mem s) tabs a) = false →
  (∀ s' tabs' l', as_ok kend pgdir tabs' l' s' → (length l ≤ S (S (length l')))%nat →
     (∀ va, 0 ≤ va < KERNBASE → a / PGSIZE ≠ va / PGSIZE →
        pte (km_mem s') tabs' va = pte (km_mem s) tabs va) →
     (∀ va, 0 ≤ va < KERNBASE → uread (km_mem s') tabs' va =
        if a / PGSIZE =? va / PGSIZE then Some 0 else uread (km_mem s) tabs va) →
     runs m s' Q) →
  runs (mem ← kalloc;
        if mem =? 0 then mret false
        else kmemset mem 0 PGSIZE;; mappages pgdir a PGSIZE (v2p mem) WU;; m) s Q.
Proof.
  intros Has Hlen Ha Ha0 Hk Hnp HQ. destruct l as [|x l]; [cbn in Hlen; lia|].
  apply runs_bind, (kalloc_rule (kend := kend) _ (x :: l)); [apply Has|].
  cbn [head default tail id]. intros s1 Hk1 Em _.
  destruct (as_ok_kalloc _ _ _ _ _ _ _ Has Hk1 Em) as (Has1 & Hx & Hxl & Hxp & Hfr).
  destruct (Z.eqb_spec x 0); [destruct Hx as (_ & _ & Hb & _); unfold KERNBASE in Hb; lia|].
  apply runs_bind, runs_mod. set (m1 := memset (km_mem s1) x 0 PGSIZE).
  assert (Hm1 : same_outside x (km_mem s1) m1) by apply memset_outside.
  destruct (vm_ok_page _ _ _ _ _ x m1 (as_vm _ _ _ _ _ Has1) Hm1 ltac:(apply Hx) Hxl Hxp) as [Hvm1 Ep1].
  destruct (page_v2p _ _ Hx) as (Hv1 & Hv2 & _). unfold PHYSTOP in Hv2.
  assert (Hnpa : present (pte (km_mem s1) tabs a) = false) by (by rewrite Em).
  apply runs_bind, (mappages_one_rule kend _ _ tabs l); try done; try (unfold PGSIZE in *; lia).
  - intros ->. cbn in Hlen. lia.
  - cbn [km_mem set_mem]. by rewrite Ep1.
  - intros s2 tabs2 l2 Hvm2 Hg2 Hp2 Hlen2. cbn [km_mem set_mem] in Hg2, Hp2.
    assert (Hp2' : ∀ va, addr va → pte (km_mem s2) tabs2 va = if a / PGSIZE =? va / PGSIZE
      then Z.lor (Z.lor (v2p x) WU) PTE_P else pte (km_mem s1) tabs va)
      by (intros va Hva; rewrite Hp2, Ep1; done).
    apply (HQ s2 tabs2 l2).
    + by eapply (as_ok_extend Has1 Hx Hxl Hxp Hfr Ha Ha0 Hk Hnpa Hm1 Hvm2 Hg2 Hp2').
    + cbn. lia.
    + intros va Hva Hne. rewrite Hp2' by (unfold addr, KERNBASE in *; lia).
      destruct (Z.eqb_spec (a / PGSIZE) (va / PGSIZE)); [done | by rewrite Em].
    + intros va Hva. rewrite (uread_extend Has1 Hx Hxl Hxp Hfr Ha Ha0 Hk Hnpa Hm1 Hvm2 Hg2 Hp2') by done.
      unfold m1. rewrite Em, memset_lookup by (unfold PGSIZE; lia).
      pose proof (Z.mod_pos_bound va PGSIZE). unfold PGSIZE in *. bool_cases; done.
Qed.

Lemma allocuvm_loop_rule kend n fuel s pgdir tabs l a newsz (Q : bool → kms → Prop) :
  as_ok kend pgdir tabs l s → (n < fuel)%nat → (2 * n ≤ length l)%nat →
  a mod PGSIZE = 0 → 0 ≤ a → a + PGSIZE * (Z.of_nat n - 1) < newsz ≤ a + PGSIZE * Z.of_nat n →
  a + PGSIZE * Z.of_nat n ≤ KERNBASE →
  (∀ va, a ≤ va < a + PGSIZE * Z.of_nat n → present (pte (km_mem s) tabs va) = false) →
  (∀ s' tabs' l', as_ok kend pgdir tabs' l' s' →
     (∀ va, 0 ≤ va < KERNBASE → uread (km_mem s') tabs' va =
        if (a <=? va) && (va <? a + PGSIZE * Z.of_nat n) then Some 0 else uread (km_mem s) tabs va) →
     Q true s') →
  runs (allocuvm_loop fuel pgdir a newsz) s Q.
Proof.
  revert fuel s tabs l a. induction n as [|n IH];
    intros [|fuel] s tabs l a Has Hf Hlen Ha Ha0 Hn Hk Hnp HQ; try lia; cbn [allocuvm_loop].
  - destruct (Z.ltb_spec a newsz); [unfold PGSIZE in *; lia|]. apply runs_ret, (HQ s tabs l); [done|].
    intros va Hva. bool_cases; done.
  - destruct (Z.ltb_spec a newsz); [|unfold PGSIZE in *; lia]. unfold PGSIZE in Hk, Hn.
    apply (alloc_round_rule kend _ _ tabs l); try done; try (unfold PGSIZE; lia).
    { apply Hnp. unfold PGSIZE. lia. }
    intros s2 tabs2 l2 Has2 Hl2 Hp2 Hu2. rewrite u32_small by (unfold PGSIZE, KERNBASE in *; lia).
    apply (IH _ s2 tabs2 l2); try done; try (unfold PGSIZE in *; lia).
    + unfold PGSIZE in *. zmod_lia.
    + intros va Hva. rewrite Hp2; unfold PGSIZE, KERNBASE in *; [apply Hnp | |]; zmod_lia.
    + intros s' tabs' l' Has' Hu'. apply (HQ s' tabs' l' Has'). intros va Hva.
      rewrite Hu', Hu2 by done. unfold PGSIZE in *. destruct (Z.eqb_spec (a / 4096) (va / 4096)).
      * assert (a ≤ va < a + 4096) by zmod_lia. bool_cases; done.
      * assert (¬ a ≤ va < a + 4096) by zmod_lia. bool_cases; done.
Qed.

(** *** [copyout] *)

Section WritePage.
Context {kend pgdir : Z} {tabs : gmap Z Z} {l : list Z} {s : kms} {va : Z} {m' : mem}.
Hypothesis Has : as_ok kend pgdir tabs l s.
Hypothesis Hva : 0 ≤ va < KERNBASE.
Hypothesis Hpr : present (pte (km_mem s) tabs va) = true.
Hypothesis Hm' : same_outside (upage (km_mem s) tabs va) (km_mem s) m'.

(** Writing the page behind a user address. *)
Lemma write_page_ok :
  as_ok kend pgdir tabs l (set_mem m' s) ∧ ∀ x, pte m' tabs x = pte (km_mem s) tabs x.
Proof using All.
  destruct (as_page _ _ _ _ _ Has va Hva Hpr) as (P1 & P2 & P3).
  destruct (vm_ok_page _ _ _ _ _ _ m' (as_vm _ _ _ _ _ Has) Hm' ltac:(apply P1) P2 P3) as [Hvm E].
  split; [|done]. destruct Has as [_ A2 A3].
  split; [done|..]; unfold upage; cbn [km_mem set_mem]; intros x; rewrite ?E.
  - apply A2.
  - intros x'. rewrite E. apply A3.
Qed.

Lemma write_page_uread x :
  0 ≤ x < KERNBASE → x / PGSIZE ≠ va / PGSIZE → uread m' tabs x = uread (km_mem s) tabs x.
Proof using All.
  intros Hx Hne. apply uread_page; [apply write_page_ok|]. intros Hxp.
  eapply same_outside_page; [exact Hm' | | | ].
  - by destruct (as_page _ _ _ _ _ Has va Hva Hpr) as ([? _] & _).
  - by destruct (as_page _ _ _ _ _ Has x Hx Hxp) as ([? _] & _).
  - intros E. apply Hne. symmetry. by apply (as_inj _ _ _ _ _ Has).
Qed.
End WritePage.

Lemma uva2ka_rule kend s pgdir tabs va (Q : Z → kms → Prop) :
  pt_ok kend (km_mem s) pgdir tabs → addr va →
  present (pte (km_mem s) tabs va) = true → user (pte (km_mem s) tabs va) = true →
  Q (upage (km_mem s) tabs va) s → runs (uva2ka pgdir va) s Q.
Proof.
  intros Hpt Hva Hp Hu HQ. apply runs_bind, (walk_lookup_rule kend _ _ tabs); [done..|].
  unfold upage, pte in *. destruct (tabs !! PDX va) as [t|] eqn:Et; [|done].
  destruct (pt_tab _ _ _ _ Hpt _ _ Et) as (_ & (_ & _ & Hb & _) & _). pose proof (PTX_range va).
  destruct (Z.eqb_spec (t + 4 * PTX va) 0); [unfold KERNBASE in Hb; lia|].
  apply runs_bind, runs_word. rewrite Hp, Hu. by apply runs_ret.
Qed.

(** The entries of the addresses of one page are the same. *)
Lemma pte_page m tabs va va' :
  addr va → addr va' → va / PGSIZE = va' / PGSIZE → pte m tabs va = pte m tabs va'.
Proof. intros H1 H2 [E1 E2]%page_index; [|done..]. unfold pte. by rewrite E1, E2. Qed.

Definition readable (m : mem) (tabs : gmap Z Z) (va : Z) : Prop :=
  present (pte m tabs va) = true ∧ user (pte m tabs va) = true.

(** Copying [n] bytes to user address [va], inside one page. *)
Lemma write_bytes kend pgdir tabs l s va buf n
    (m' := memmove (km_mem s) (upage (km_mem s) tabs va + va mod PGSIZE) buf n) :
  as_ok kend pgdir tabs l s → 0 ≤ va < KERNBASE → readable (km_mem s) tabs va →
  0 ≤ n → va mod PGSIZE + n ≤ PGSIZE →
  as_ok kend pgdir tabs l (set_mem m' s) ∧
  same_outside (upage (km_mem s) tabs va) (km_mem s) m' ∧
  (∀ x, pte m' tabs x = pte (km_mem s) tabs x) ∧
  ∀ x, 0 ≤ x < KERNBASE → uread m' tabs x =
    if (va <=? x) && (x <? va + n) then Some (km_mem s (buf + (x - va))) else uread (km_mem s) tabs x.
Proof.
  intros Has Hva [Hp Hu] Hn Hoff. set (pa := upage (km_mem s) tabs va) in *.
  pose proof (Z.mod_pos_bound va PGSIZE ltac:(done)) as Hmod.
  assert (Hm' : same_outside pa (km_mem s) m').
  { intros a Ha. unfold m'. rewrite memmove_lookup by done. unfold in_page in Ha. bool_cases; try done; lia. }
  destruct (write_page_ok Has Hva Hp Hm') as [Has' Ep]. split_and!; try done.
  intros x Hx. destruct (decide (x / PGSIZE = va / PGSIZE)) as [E|E].
  - assert (Ex : pte m' tabs x = pte (km_mem s) tabs va).
    { rewrite Ep. apply pte_page; [unfold addr, KERNBASE in *; lia..|done]. }
    unfold uread. rewrite Ep, <- (Ep x), Ex, Hp, Hu. cbn [andb]. fold pa.
    change (p2v (PTE_ADDR (pte (km_mem s) tabs va))) with pa.
    unfold m'. rewrite memmove_lookup by done. unfold PGSIZE in *.
    bool_cases; try done; try zmod_lia. do 2 f_equal. zmod_lia.
  - rewrite (write_page_uread Has Hva Hp Hm') by done. unfold PGSIZE in *. bool_cases; try done. zmod_lia.
Qed.

(** The bytes of one round of [copyout] and the next address. *)
Lemma copyout_chunk va len
    (n := if PGSIZE - va mod PGSIZE >? len then len else PGSIZE - va mod PGSIZE)
    (va' := PGSIZE * (va / PGSIZE) + PGSIZE) :
  0 ≤ va → 0 < len → va + len ≤ KERNBASE →
  0 < n ≤ len ∧ va mod PGSIZE + n ≤ PGSIZE ∧ (n = len ∨ va' = va + n) ∧
  0 ≤ va' ≤ KERNBASE ∧ va < va' ∧ va' mod PGSIZE = 0 ∧ va' / PGSIZE = va / PGSIZE + 1 ∧
  addr (PGSIZE * (va / PGSIZE)) ∧ PGSIZE * (va / PGSIZE) / PGSIZE = va / PGSIZE.
Proof.
  intros Hva Hpos Hend. pose proof (Z.mod_pos_bound va PGSIZE ltac:(done)) as Hmod.
  assert (Hn : 0 < n ≤ len ∧ va mod PGSIZE + n ≤ PGSIZE ∧ (n = len ∨ n = PGSIZE - va mod PGSIZE)).
  { unfold n. rewrite Z.gtb_ltb. bool_cases; lia. }
  clearbody n. unfold va', addr, KERNBASE, PGSIZE in *. zmod_lia.
Qed.

Lemma copyout_loop_rule kend fuel s pgdir tabs l va buf len (Q : Z → kms → Prop) :
  as_ok kend pgdir tabs l s → 0 ≤ va → 0 ≤ len → va + len ≤ KERNBASE →
  (va + len + PGSIZE - 1) / PGSIZE - va / PGSIZE < Z.of_nat fuel →
  (∀ x, va ≤ x < va + len → readable (km_mem s) tabs x) →
  (∀ x a, 0 ≤ x < KERNBASE → present (pte (km_mem s) tabs x) = true → buf ≤ a < buf + len →
     ¬ in_page (upage (km_mem s) tabs x) a) →
  (∀ s', as_ok kend pgdir tabs l s' →
     (∀ x, 0 ≤ x < KERNBASE → uread (km_mem s') tabs x =
        if (va <=? x) && (x <? va + len) then Some (km_mem s (buf + (x - va))) else uread (km_mem s) tabs x) →
     Q 0 s') →
  runs (copyout_loop fuel pgdir va buf len) s Q.
Proof.
  revert s va buf len. induction fuel as [|fuel IH]; intros s va buf len Has Hva Hlen Hend Hf Hu Hbuf HQ.
  { unfold PGSIZE in *. zmod_lia. }
  cbn [copyout_loop]. rewrite Z.gtb_ltb. destruct (Z.ltb_spec 0 len) as [Hpos|].
  2:{ apply runs_ret, HQ; [done|]. intros x Hx. bool_cases; done. }
  rewrite PGROUNDDOWN_spec by done.
  replace (va - PGSIZE * (va / PGSIZE)) with (va mod PGSIZE) by (unfold PGSIZE; zmod_lia).
  destruct (copyout_chunk va len) as (Hn1 & Hn2 & Hn4 & Hva1 & Hva2 & Hva3 & Hva4 & Hva0 & Hpg);
    [lia..|]. revert Hn1 Hn2 Hn4 Hva1 Hva2 Hva3 Hva4.
  generalize (if PGSIZE - va mod PGSIZE >? len then len else PGSIZE - va mod PGSIZE).
  set (va' := PGSIZE * (va / PGSIZE) + PGSIZE). intros n Hn1 Hn2 Hn4 Hva1 Hva2 Hva3 Hva4.
  assert (Eva : pte (km_mem s) tabs (PGSIZE * (va / PGSIZE)) = pte (km_mem s) tabs va).
  { apply pte_page; [done | unfold addr, KERNBASE in *; lia | done]. }
  pose proof (Hu va ltac:(lia)) as Hr. pose proof Hr as [Hp1 Hp2].
  apply runs_bind, (uva2ka_rule kend _ _ tabs); [apply (as_vm _ _ _ _ _ Has) | done | by rewrite Eva.. |].
  assert (Eup : upage (km_mem s) tabs (PGSIZE * (va / PGSIZE)) = upage (km_mem s) tabs va)
    by (unfold upage; by rewrite Eva).
  rewrite Eup. destruct (as_page _ _ _ _ _ Has va) as ((_ & _ & Hb & _) & _); [lia | done|].
  destruct (Z.eqb_spec (upage (km_mem s) tabs va) 0); [unfold KERNBASE in Hb; lia|].
  apply runs_bind, runs_mod.
  destruct (write_bytes kend pgdir tabs l s va buf n) as (Has1 & Hm1 & Hp & Hu1); [done | lia | done | lia | done |].
  rewrite u32_small by (unfold KERNBASE in *; lia).
  apply (IH _ va' (buf + n) (len - n)); [exact Has1 | lia | lia | lia | | | |].
  - unfold PGSIZE in *. destruct Hn4; zmod_lia.
  - intros x Hx. unfold readable. cbn [km_mem set_mem]. rewrite Hp. apply Hu. lia.
  - intros x a Hx. cbn [km_mem set_mem]. unfold upage. rewrite Hp. intros Hpx Ha. apply Hbuf; [done..|lia].
  - intros s' Has' Hu'. apply HQ; [done|]. intros x Hx. rewrite Hu' by done. cbn [km_mem set_mem].
    rewrite Hu1 by done. destruct Hn4 as [-> | ->].
    + bool_cases; done.
    + bool_cases; try done. rewrite Hm1; [do 2 f_equal; lia|]. apply Hbuf; [lia | done | lia].
Qed.

(** ** Properties *)

(** [mappages] maps exactly what it is asked to.  For a range of unmapped addresses
    it returns 0 and every page the range touches has the entry for its physical page
    with the permissions and the present bit, every other entry is as before; or it
    returns -1, with the pages mapped so far a proper prefix of the range, and then
    memory is exhausted.  Only pages of the page table are written, and new tables are
    pages that were free. *)
Theorem mappages_correct kend s pgdir tabs l va size pa perm (n := map_last va size) :
  vm_ok kend pgdir tabs l s → 0 ≤ va → 0 < size → va + size ≤ 4294967296 →
  pa mod PGSIZE = 0 → 0 ≤ pa → pa + PGSIZE * Z.of_nat (S n) ≤ 4294967296 → 0 ≤ perm < PGSIZE →
  (∀ x, addr x → va / PGSIZE ≤ x / PGSIZE ≤ (va + size - 1) / PGSIZE →
     present (pte (km_mem s) tabs x) = false) →
  ∃ r k s' tabs' l', mappages pgdir va size pa perm s = Ok (r, s') ∧
    vm_ok kend pgdir tabs' l' s' ∧ vm_grows pgdir tabs l (km_mem s) tabs' l' (km_mem s') ∧
    mapped (PGSIZE * (va / PGSIZE)) pa perm k (pte (km_mem s) tabs) (pte (km_mem s') tabs') ∧
    (r = 0 ∧ k = S n ∨ r = -1 ∧ (k ≤ n)%nat ∧ l' = []).
Proof.
  intros Hvm H1 H2 H3 H4 H5 H6 H7 H8.
  assert (Hr : runs (mappages pgdir va size pa perm) s (λ r s', ∃ k tabs' l',
    vm_ok kend pgdir tabs' l' s' ∧ vm_grows pgdir tabs l (km_mem s) tabs' l' (km_mem s') ∧
    mapped (PGSIZE * (va / PGSIZE)) pa perm k (pte (km_mem s) tabs) (pte (km_mem s') tabs') ∧
    (r = 0 ∧ k = S n ∨ r = -1 ∧ (k ≤ n)%nat ∧ l' = []))).
  { apply (mappages_rule kend _ _ tabs l); try done. intros s' tabs' l' r k G1 G2 G3 G4.
    by exists k, tabs', l'. }
  destruct Hr as (r & s' & Hr & k & tabs' & l' & H). by exists r, k, s', tabs', l'.
Qed.

(** C32: [allocuvm] grows a process.  With two free pages for each new page (one may be
    needed for a page table) it returns the new size; the new pages are present for the
    user and full of zeros, they are no other page of the process, and all that the
    process could read before is unchanged. *)
Theorem allocuvm_correct kend s pgdir tabs l oldsz newsz
    (n := Z.to_nat ((PGROUNDUP newsz - PGROUNDUP oldsz) / PGSIZE)) :
  as_ok kend pgdir tabs l s → 0 ≤ oldsz ≤ newsz → newsz < KERNBASE → (2 * n ≤ length l)%nat →
  (∀ va, PGROUNDUP oldsz ≤ va < PGROUNDUP newsz → present (pte (km_mem s) tabs va) = false) →
  ∃ s' tabs' l', allocuvm kend pgdir oldsz newsz s = Ok (newsz, s') ∧
    as_ok kend pgdir tabs' l' s' ∧
    ∀ va, 0 ≤ va < KERNBASE → uread (km_mem s') tabs' va =
      if (PGROUNDUP oldsz <=? va) && (va <? PGROUNDUP newsz) then Some 0
      else uread (km_mem s) tabs va.
Proof.
  intros Has Hsz Hk Hlen Hnp. unfold KERNBASE in Hk.
  assert (Hr : runs (allocuvm kend pgdir oldsz newsz) s (λ r s', r = newsz ∧ ∃ tabs' l',
    as_ok kend pgdir tabs' l' s' ∧
    ∀ va, 0 ≤ va < KERNBASE → uread (km_mem s') tabs' va =
      if (PGROUNDUP oldsz <=? va) && (va <? PGROUNDUP newsz) then Some 0
      else uread (km_mem s) tabs va)).
  { unfold allocuvm. rewrite Z.geb_leb. destruct (Z.leb_spec KERNBASE newsz); [unfold KERNBASE in *; lia|].
    destruct (Z.ltb_spec newsz oldsz); [lia|].
    rewrite !PGROUNDUP_spec in * by lia. apply runs_bind.
    assert (En : PGSIZE * ((newsz + PGSIZE - 1) / PGSIZE) =
      PGSIZE * ((oldsz + PGSIZE - 1) / PGSIZE) + PGSIZE * Z.of_nat n).
    { unfold n. rewrite !PGROUNDUP_spec by lia. unfold PGSIZE in *. rewrite Z2Nat.id; zmod_lia. }
    rewrite En in *. apply (allocuvm_loop_rule kend n _ _ _ tabs l); try done.
    - apply page_fuel_spec. unfold PGSIZE in *. zmod_lia.
    - unfold PGSIZE. zmod_lia.
    - unfold PGSIZE. zmod_lia.
    - unfold PGSIZE in *. zmod_lia.
    - unfold KERNBASE, PGSIZE in *. zmod_lia.
    - intros s' tabs' l' Has' Hu. apply runs_ret. split; [done|]. by exists tabs', l'. }
  destruct Hr as (r & s' & Hr & -> & tabs' & l' & H). by exists s', tabs', l'.
Qed.

(** C33: [copyout] writes to user memory.  For a range the user can access it returns 0;
    the user then reads the bytes of the kernel buffer in the range and what was there
    before elsewhere, whatever pages are behind the range; the page table and the
    allocator are untouched. *)
Theorem copyout_correct kend s pgdir tabs l va buf len :
  as_ok kend pgdir tabs l s → 0 ≤ va → 0 ≤ len → va + len ≤ KERNBASE →
  (∀ x, va ≤ x < va + len → readable (km_mem s) tabs x) →
  (∀ x a, 0 ≤ x < KERNBASE → present (pte (km_mem s) tabs x) = true → buf ≤ a < buf + len →
     ¬ in_page (upage (km_mem s) tabs x) a) →
  ∃ s', copyout pgdir va buf len s = Ok (0, s') ∧ as_ok kend pgdir tabs l s' ∧
    ∀ x, 0 ≤ x < KERNBASE → uread (km_mem s') tabs x =
      if (va <=? x) && (x <? va + len) then Some (km_mem s (buf + (x - va)))
      else uread (km_mem s) tabs x.
Proof.
  intros Has Hva Hlen Hend Hu Hbuf.
  assert (Hr : runs (copyout pgdir va buf len) s (λ r s', r = 0 ∧ as_ok kend pgdir tabs l s' ∧
    ∀ x, 0 ≤ x < KERNBASE → uread (km_mem s') tabs x =
      if (va <=? x) && (x <? va + len) then Some (km_mem s (buf + (x - va)))
      else uread (km_mem s) tabs x)).
  { apply (copyout_loop_rule kend _ _ _ tabs l); try done.
    pose proof (page_fuel_spec (Z.to_nat 600000) ltac:(lia)). unfold KERNBASE, PGSIZE in *. zmod_lia. }
  destruct Hr as (r & s' & Hr & -> & H). by exists s'.
Qed.

(** *** Witnesses *)

(** An empty address space on a machine with eight pages. *)
Definition demo_dir : K kms Z :=
  pgdir ← kalloc;
  kmemset pgdir 0 PGSIZE;;
  mret pgdir.

Definition demo_free : list Z := pages_from (demo_kend + PGSIZE) 7.

Lemma as_ok_empty kend pgdir l s : vm_ok kend pgdir ∅ l s → as_ok kend pgdir ∅ l s.
Proof. intros H. split; [done|..]; unfold pte; intros ? *; rewrite lookup_empty; done. Qed.

Definition demo_machine : kms :=
  mkKms (mkCpu 0 0 false true) (initlock "kmem") false demo_kend
    (foldr (λ v m, store32 m v (if v =? demo_kend + 7 * PGSIZE then 0 else v + PGSIZE))
       (λ _, 0) (pages_from demo_kend 8)).

Lemma demo_machine_ok : kmem_ok demo_kend (pages_from demo_kend 8) demo_machine.
Proof.
  split.
  - split; [apply Z.le_refl | done].
  - reflexivity.
  - vm_compute. repeat split.
  - intros v Hv. apply pages_from_elem in Hv as (i & Hi & ->).
    unfold page_ok, demo_kend, KERNBASE, PHYSTOP, PGSIZE. split_and!; try lia. zmod_lia.
  - vm_compute. repeat (apply NoDup_cons; split; [set_solver|]). apply NoDup_nil. done.
Qed.

Lemma demo_space :
  ∃ s, demo_dir demo_machine = Ok (demo_kend, s) ∧ as_ok demo_kend demo_kend ∅ demo_free s.
Proof.
  assert (H : runs demo_dir demo_machine (λ r s, r = demo_kend ∧
    as_ok demo_kend demo_kend ∅ demo_free s)).
  { apply runs_bind, (kalloc_rule (kend := demo_kend) _ (pages_from demo_kend 8));
      [exact demo_machine_ok|].
    intros s Hk _ _. apply runs_bind, runs_mod, runs_ret. split; [done|].
    apply as_ok_empty, empty_dir_ok; [exact Hk | |].
    - apply (ko_pages _ _ _ demo_machine_ok). left.
    - pose proof (ko_nodup _ _ _ demo_machine_ok) as [Hn _]%NoDup_cons. exact Hn. }
  destruct H as (r & s & H & -> & Has). eauto.
Qed.

Lemma mappages_correct_witness :
  ∃ s r s', demo_dir demo_machine = Ok (demo_kend, s) ∧
    mappages demo_kend 4096 5000 4194304 2 s = Ok (r, s').
Proof.
  destruct demo_space as (s & Hs & Has).
  assert (En : map_last 4096 5000 = 1%nat) by reflexivity.
  destruct (mappages_correct demo_kend s demo_kend ∅ demo_free 4096 5000 4194304 2
    (as_vm _ _ _ _ _ Has)) as (r & k & s' & _ & _ & H & _);
    [lia | lia | lia | reflexivity | lia | rewrite En; unfold PGSIZE; lia | unfold PGSIZE; lia | |].
  - intros x Hx _. unfold pte. by rewrite lookup_empty.
  - exists s, r, s'. split; [exact Hs | exact H].
Defined.

Lemma allocuvm_correct_witness :
  ∃ s s' tabs, demo_dir demo_machine = Ok (demo_kend, s) ∧
    allocuvm demo_kend demo_kend 0 5000 s = Ok (5000, s') ∧
    uread (km_mem s') tabs 4999 = Some 0 ∧ uread (km_mem s') tabs 8192 = None.
Proof.
  destruct demo_space as (s & Hs & Has).
  destruct (allocuvm_correct demo_kend s demo_kend ∅ demo_free 0 5000 Has)
    as (s' & tabs' & l' & H & _ & Hu); [lia | reflexivity | vm_compute; lia | |].
  - intros va _. unfold pte. by rewrite lookup_empty.
  - exists s, s', tabs'. split_and!; [exact Hs | exact H | |].
    + rewrite (Hu 4999) by (unfold KERNBASE; lia). reflexivity.
    + rewrite (Hu 8192) by (unfold KERNBASE; lia). unfold uread, pte. rewrite lookup_empty. reflexivity.
Defined.

(** The address space of the previous witness, for [copyout]; nothing is behind a user
    address but pages from [demo_kend] on. *)
Lemma demo_grown :
  ∃ s s' tabs l, demo_dir demo_machine = Ok (demo_kend, s) ∧
    allocuvm demo_kend demo_kend 0 5000 s = Ok (5000, s') ∧ as_ok demo_kend demo_kend tabs l s' ∧
    ∀ va, 0 ≤ va < KERNBASE → uread (km_mem s') tabs va = if va <? 8192 then Some 0 else None.
Proof.
  destruct demo_space as (s & Hs & Has).
  assert (Hr : runs (allocuvm demo_kend demo_kend 0 5000) s (λ r s', r = 5000 ∧ ∃ tabs l,
    as_ok demo_kend demo_kend tabs l s' ∧
    ∀ va, 0 ≤ va < KERNBASE → uread (km_mem s') tabs va = if va <? 8192 then Some 0 else None)).
  { unfold allocuvm. change (5000 >=? KERNBASE) with false. change (5000 <? 0) with false. cbn iota.
    change (PGROUNDUP 0) with 0. apply runs_bind, (allocuvm_loop_rule demo_kend 2 _ _ _ ∅ demo_free);
      [done | apply page_fuel_spec; lia | vm_compute; lia | done | lia | unfold PGSIZE; lia | unfold PGSIZE, KERNBASE; lia | |].
    - intros va _. unfold pte. by rewrite lookup_empty.
    - intros s' tabs l Has' Hu. apply runs_ret. split; [done|]. exists tabs, l. split; [done|].
      intros va Hva. rewrite Hu by done. unfold uread, pte, PGSIZE. rewrite lookup_empty. bool_cases; done. }
  destruct Hr as (r & s' & Hr & -> & tabs & l & H). by exists s, s', tabs, l.
Qed.

Lemma copyout_correct_witness :
  ∃ s s' s'' tabs, demo_dir demo_machine = Ok (demo_kend, s) ∧
    allocuvm demo_kend demo_kend 0 5000 s = Ok (5000, s') ∧
    copyout demo_kend 4090 (KERNBASE + 100) 10 s' = Ok (0, s'') ∧
    uread (km_mem s'') tabs 4098 = Some (km_mem s' (KERNBASE + 108)).
Proof.
  destruct demo_grown as (s & s' & tabs & l & Hs & Ha & Has & Hu).
  destruct (copyout_correct demo_kend s' demo_kend tabs l 4090 (KERNBASE + 100) 10 Has)
    as (s'' & Hc & _ & Hu'); [lia | lia | unfold KERNBASE; lia | | |].
  - intros x Hx. pose proof (Hu x ltac:(unfold KERNBASE; lia)) as E.
    rewrite (proj2 (Z.ltb_lt x 8192)) in E by lia. unfold uread in E. unfold readable.
    destruct (present _), (user _); done.
  - intros x a Hx Hp Hb Hin. destruct (as_page _ _ _ _ _ Has x Hx Hp) as ((_ & Hk & _) & _).
    unfold in_page, demo_kend, KERNBASE in *. lia.
  - exists s, s', s'', tabs. split_and!; [exact Hs | exact Ha | exact Hc |].
    rewrite (Hu' 4098) by (unfold KERNBASE; lia). reflexivity.
Defined.

(** [allocuvm] does not look at what [mappages] returns: when the last free page goes to
    the data and none is left for a page table, it reports success although nothing is
    mapped, and the page is lost. *)
Lemma allocuvm_loses_page kend s pgdir x :
  as_ok kend pgdir ∅ [x] s →
  runs (allocuvm kend pgdir 0 PGSIZE) s (λ r s',
    r = PGSIZE ∧ kmem_ok kend [] s' ∧ uread (km_mem s') ∅ 0 = None).
Proof.
  intros Has. unfold allocuvm. change (PGSIZE >=? KERNBASE) with false.
  change (PGSIZE <? 0) with false. cbn iota. change (PGROUNDUP 0) with 0.
  pose proof (page_fuel_spec 1 ltac:(lia)). destruct page_fuel as [|[|fuel]]; [lia..|].
  cbn [allocuvm_loop]. change (0 <? PGSIZE) with true. cbn iota. apply runs_bind, runs_bind.
  apply (kalloc_rule (kend := kend) _ [x]); [apply Has|]. cbn [head default tail id].
  intros s1 Hk1 Em _. destruct (as_ok_kalloc _ _ _ _ _ _ _ Has Hk1 Em) as (Has1 & Hx & Hxl & Hxp & _).
  destruct (Z.eqb_spec x 0); [destruct Hx as (_ & _ & Hb & _); unfold KERNBASE in Hb; lia|].
  apply runs_bind, runs_mod. set (m1 := memset (km_mem s1) x 0 PGSIZE).
  destruct (vm_ok_page _ _ _ _ _ x m1 (as_vm _ _ _ _ _ Has1) (memset_outside _ _ _) ltac:(apply Hx) Hxl Hxp)
    as [Hvm1 _]. clearbody m1.
  destruct (page_v2p _ _ Hx) as (Hv1 & Hv2 & _). unfold PHYSTOP in Hv2.
  apply runs_bind. unfold mappages. change (PGROUNDDOWN 0) with 0.
  change (PGROUNDDOWN (u32 (0 + PGSIZE - 1))) with 0.
  pose proof (page_fuel_spec 1 ltac:(lia)). destruct page_fuel as [|fuel']; [lia|].
  cbn [mappages_loop]. apply runs_bind, (walk_alloc_rule kend _ _ ∅ []); [exact Hvm1 | done | |].
  - intros s2 tabs2 l2 t Hvm2 Ht Hg _ _. exfalso.
    destruct (vg_new _ _ _ _ _ _ _ Hg t) as [[->|[i Hi]]|Hin].
    + right. eauto.
    + by destruct (pt_tab _ _ _ _ (vm_pt _ _ _ _ _ Hvm2) _ _ Ht) as (_ & _ & ? & _).
    + by rewrite lookup_empty in Hi.
    + by apply elem_of_nil in Hin.
  - intros s2 _ Hvm2 Em2. apply runs_ret. change (u32 (0 + PGSIZE) <? PGSIZE) with false. cbn iota.
    apply runs_ret, runs_ret. split_and!; [done | apply Hvm2 | done].
Qed.
