(* ===== verification/Pipe.v ===== *)
(** * Pipes

    Models src/pipe.c.  The counters [nread] and [nwrite] are 32-bit and wrap around;
    the buffer is indexed by them modulo [PIPESIZE].

    [pipewrite] and [piperead] sleep inside their loops.  Each is modelled by the
    segments between two sleeps: a segment takes the lock (in [acquire], or in [sleep]
    when the process is woken), runs to the next [sleep] or to the end, and gives the
    lock up.  Interleaving segments of readers and writers gives the behaviours of the
    pipe; [pipe_fifo] is about all of them.  The user's buffer is a function from
    indices to bytes for a writer and the list of bytes stored for a reader;
    [proc->killed] is an argument.  [pipealloc] is in [FileTable]. *)

From S2P Require Import Prelude Param KString Spinlock.
Local Open Scope Z_scope.

(** ** Definitions *)

Definition PIPESIZE : Z := 512.

(** [struct pipe], with the CPU, the numbers of calls of [wakeup] on [&nread] and
    [&nwrite], and whether the page has been given back. *)
Record pipe := mkPipe {
  pi_cpu : cpu;
  pi_lock : spinlock;
  pi_data : list Z;
  pi_nread : Z;
  pi_nwrite : Z;
  pi_readopen : bool;
  pi_writeopen : bool;
  pi_wake_readers : nat;
  pi_wake_writers : nat;
  pi_freed : bool
}.

Definition set_pi_lock (c : cpu) (lk : spinlock) (p : pipe) : pipe :=
  mkPipe c lk (pi_data p) (pi_nread p) (pi_nwrite p) (pi_readopen p) (pi_writeopen p)
    (pi_wake_readers p) (pi_wake_writers p) (pi_freed p).
Definition set_pi_wakes (r w : nat) (p : pipe) : pipe :=
  mkPipe (pi_cpu p) (pi_lock p) (pi_data p) (pi_nread p) (pi_nwrite p) (pi_readopen p)
    (pi_writeopen p) r w (pi_freed p).
Definition set_pi_open (r w : bool) (p : pipe) : pipe :=
  mkPipe (pi_cpu p) (pi_lock p) (pi_data p) (pi_nread p) (pi_nwrite p) r w
    (pi_wake_readers p) (pi_wake_writers p) (pi_freed p).
Definition set_pi_freed (p : pipe) : pipe :=
  mkPipe (pi_cpu p) (pi_lock p) (pi_data p) (pi_nread p) (pi_nwrite p) (pi_readopen p)
    (pi_writeopen p) (pi_wake_readers p) (pi_wake_writers p) true.

(** [p->data[p->nwrite++ % PIPESIZE] = b] and [p->nread++]. *)
Definition put_byte (b : Z) (p : pipe) : pipe :=
  mkPipe (pi_cpu p) (pi_lock p) (<[Z.to_nat (pi_nwrite p mod PIPESIZE) := b]> (pi_data p))
    (pi_nread p) (u32 (pi_nwrite p + 1)) (pi_readopen p) (pi_writeopen p)
    (pi_wake_readers p) (pi_wake_writers p) (pi_freed p).
Definition drop_byte (p : pipe) : pipe :=
  mkPipe (pi_cpu p) (pi_lock p) (pi_data p) (u32 (pi_nread p + 1)) (pi_nwrite p)
    (pi_readopen p) (pi_writeopen p) (pi_wake_readers p) (pi_wake_writers p) (pi_freed p).

Definition acquire_pipe : K pipe unit := fun p =>
  '(c, lk) ← acquire (pi_cpu p) (pi_lock p); Ok (tt, set_pi_lock c lk p).
Definition release_pipe : K pipe unit := fun p =>
  '(c, lk) ← release (pi_cpu p) (pi_lock p); Ok (tt, set_pi_lock c lk p).
Definition wakeup_readers : K pipe unit :=
  kmod (fun p => set_pi_wakes (S (pi_wake_readers p)) (pi_wake_writers p) p).
Definition wakeup_writers : K pipe unit :=
  kmod (fun p => set_pi_wakes (pi_wake_readers p) (S (pi_wake_writers p)) p).

(** The fields [pipealloc] sets in a fresh page, whose data is arbitrary. *)
Definition pipe_init (c : cpu) (data : list Z) : pipe :=
  mkPipe c (initlock "pipe") data 0 0 true true 0 0 false.

Definition pipeclose (writable : bool) : K pipe unit :=
  acquire_pipe;;
  (if writable then
     kmod (fun p => set_pi_open (pi_readopen p) false p);;
     wakeup_readers
   else
     kmod (fun p => set_pi_open false (pi_writeopen p) p);;
     wakeup_writers);;
  p ← kget;
  if negb (pi_readopen p) && negb (pi_writeopen p) then
    release_pipe;;
    kmod set_pi_freed
  else release_pipe.

(** How a segment ends: the call returns, or the process sleeps at index [i] of its
    buffer (a reader sleeps before its first byte). *)
Inductive wres := WRet (r : Z) | WSleep (i : nat).
Inductive rres := RErr | RRet (bytes : list Z) | RSleep.

(** The loop of [pipewrite] from index [i] on, with [k] bytes to go. *)
Fixpoint pipewrite_loop (killed : bool) (src : nat → Z) (n : Z) (i k : nat) : K pipe wres :=
  match k with
  | O =>
      wakeup_readers;;
      release_pipe;;
      mret (WRet n)
  | S k' =>
      p ← kget;
      if pi_nwrite p =? u32 (pi_nread p + PIPESIZE) then
        if negb (pi_readopen p) || killed then
          release_pipe;;
          mret (WRet (-1))
        else
          wakeup_readers;;
          release_pipe;;
          mret (WSleep i)
      else
        kmod (put_byte (src i));;
        pipewrite_loop killed src n (S i) k'
  end.

(** A segment of [pipewrite(p, src, n)] that starts at index [i]. *)
Definition pipewrite (killed : bool) (src : nat → Z) (n : Z) (i : nat) : K pipe wres :=
  acquire_pipe;;
  pipewrite_loop killed src n i (Z.to_nat n - i).

(** The copy loop of [piperead]; it returns the bytes stored in the buffer. *)
Fixpoint piperead_loop (k : nat) : K pipe (list Z) :=
  match k with
  | O => mret []
  | S k' =>
      p ← kget;
      if pi_nread p =? pi_nwrite p then mret []
      else
        b ← kout (of_option "pipe data" (pi_data p !! Z.to_nat (pi_nread p mod PIPESIZE)));
        kmod drop_byte;;
        bs ← piperead_loop k';
        mret (b :: bs)
  end.

(** A segment of [piperead(p, addr, n)]. *)
Definition piperead (killed : bool) (n : Z) : K pipe rres :=
  acquire_pipe;;
  p ← kget;
  if (pi_nread p =? pi_nwrite p) && pi_writeopen p then
    release_pipe;;
    mret (if killed then RErr else RSleep)
  else
    bs ← piperead_loop (Z.to_nat n);
    wakeup_writers;;
    release_pipe;;
    mret (RRet bs).

(** *** Interleavings *)

(** The number of bytes in the pipe, and the bytes, oldest first. *)
Definition count (p : pipe) : nat := Z.to_nat (u32 (pi_nwrite p - pi_nread p)).
Definition queue (p : pipe) : list Z :=
  (λ k : nat, pi_data p !!! Z.to_nat (u32 (pi_nread p + Z.of_nat k) mod PIPESIZE)) <$> seq 0 (count p).

(** The bytes a segment of [pipewrite] put into the pipe. *)
Definition bytes_put (src : nat → Z) (i : nat) (p p' : pipe) : list Z :=
  src <$> seq i (Z.to_nat (u32 (pi_nwrite p' - pi_nwrite p))).

(** The pipe with all bytes written and all bytes read so far, under any segments of
    readers and writers, and of processes that close an end. *)
Inductive pstep : pipe * list Z * list Z → pipe * list Z * list Z → Prop :=
| pstep_write p p' w r killed src n i res :
    pipewrite killed src n i p = Ok (res, p') →
    pstep (p, w, r) (p', w ++ bytes_put src i p p', r)
| pstep_read p p' w r killed n res :
    piperead killed n p = Ok (res, p') →
    pstep (p, w, r) (p', w, r ++ match res with RRet bs => bs | _ => [] end)
| pstep_close p p' w r writable :
    pipeclose writable p = Ok (tt, p') → pstep (p, w, r) (p', w, r).

Record pipe_ok (p : pipe) : Prop := {
  po_cpu : cpu_ok (pi_cpu p);
  po_lock : locked (pi_lock p) = 0;
  po_len : length (pi_data p) = Z.to_nat PIPESIZE;
  po_nread : 0 ≤ pi_nread p < 4294967296;
  po_nwrite : 0 ≤ pi_nwrite p < 4294967296;
  po_count : (count p ≤ Z.to_nat PIPESIZE)%nat
}.

(** ** Lemmas *)

(** What the lock does not matter for. *)
Record content_ok (p : pipe) : Prop := {
  co_len : length (pi_data p) = Z.to_nat PIPESIZE;
  co_nread : 0 ≤ pi_nread p < 4294967296;
  co_nwrite : 0 ≤ pi_nwrite p < 4294967296;
  co_count : (count p ≤ Z.to_nat PIPESIZE)%nat
}.

Lemma pipe_ok_content p : pipe_ok p → content_ok p.
Proof. intros []. by split. Qed.

Lemma runs_acquire_pipe p (Q : unit → pipe → Prop) :
  cpu_ok (pi_cpu p) → locked (pi_lock p) = 0 →
  (∀ c lk, taken c lk → Q tt (set_pi_lock c lk p)) → runs acquire_pipe p Q.
Proof.
  intros Hc Hl HQ. destruct (acquire_taken _ _ Hc Hl) as (c' & lk' & E & Ht).
  eapply runs_ok; [unfold acquire_pipe; rewrite E; reflexivity | auto].
Qed.

Lemma runs_release_pipe p (Q : unit → pipe → Prop) :
  taken (pi_cpu p) (pi_lock p) →
  (∀ c lk, cpu_ok c → locked lk = 0 → Q tt (set_pi_lock c lk p)) → runs release_pipe p Q.
Proof.
  intros Ht HQ. destruct (release_taken _ _ Ht) as (c' & lk' & E & Hc & Hl).
  eapply runs_ok; [unfold release_pipe; rewrite E; reflexivity | auto].
Qed.

(** *** The ring buffer *)

Lemma count_spec p :
  content_ok p → u32 (pi_nread p + Z.of_nat (count p)) = pi_nwrite p ∧ Z.of_nat (count p) ≤ 512.
Proof.
  intros [_ Hr Hw Hc]. unfold count, PIPESIZE in *. pose proof (u32_range (pi_nwrite p - pi_nread p)).
  rewrite Z2Nat.id by lia. rewrite u32_add_r. split; [|lia].
  replace (pi_nread p + (pi_nwrite p - pi_nread p)) with (pi_nwrite p) by lia. by apply u32_small.
Qed.

Lemma count_of p n :
  0 ≤ Z.of_nat n ≤ 512 → pi_nwrite p = u32 (pi_nread p + Z.of_nat n) → count p = n.
Proof.
  intros Hn E. unfold count. rewrite E, u32_sub_l.
  replace (pi_nread p + Z.of_nat n - pi_nread p) with (Z.of_nat n) by lia.
  rewrite u32_small by lia. lia.
Qed.

Lemma full_spec p :
  content_ok p → (pi_nwrite p =? u32 (pi_nread p + PIPESIZE)) = (count p =? Z.to_nat PIPESIZE)%nat.
Proof.
  intros H. destruct (count_spec p H) as [E Hc].
  destruct (Z.eqb_spec (pi_nwrite p) (u32 (pi_nread p + PIPESIZE))) as [e|e], (Nat.eqb_spec (count p) (Z.to_nat PIPESIZE)) as [f|f]; try done.
  - destruct f. apply count_of; [unfold PIPESIZE; lia|]. rewrite e. f_equal.
  - destruct e. rewrite <- E, f. f_equal.
Qed.

Lemma empty_spec p : content_ok p → (pi_nread p =? pi_nwrite p) = (count p =? 0)%nat.
Proof.
  intros H. destruct (count_spec p H) as [E Hc]. destruct H as [_ Hr Hw _].
  destruct (Z.eqb_spec (pi_nread p) (pi_nwrite p)) as [e|e], (Nat.eqb_spec (count p) 0) as [f|f]; try done.
  - destruct f. apply count_of; [lia|]. rewrite <- e, Z.add_0_r. symmetry. by apply u32_small.
  - destruct e. rewrite <- E, f, Z.add_0_r. symmetry. by apply u32_small.
Qed.

(** Positions in the buffer: consecutive counters, up to 512 of them, are distinct. *)
Lemma slot_spec r k : u32 (r + Z.of_nat k) mod PIPESIZE = (r + Z.of_nat k) mod PIPESIZE.
Proof. unfold u32, PIPESIZE. zmod_lia. Qed.

Lemma slot_range r : (Z.to_nat (r mod PIPESIZE) < Z.to_nat PIPESIZE)%nat.
Proof. unfold PIPESIZE. pose proof (Z.mod_pos_bound r 512 ltac:(lia)). lia. Qed.

Lemma put_byte_ok p b :
  content_ok p → (count p < Z.to_nat PIPESIZE)%nat →
  content_ok (put_byte b p) ∧ count (put_byte b p) = S (count p) ∧
  queue (put_byte b p) = queue p ++ [b].
Proof.
  intros H Hlt. destruct (count_spec p H) as [E Hc]. pose proof H as [Hl Hr Hw _].
  assert (Ec : count (put_byte b p) = S (count p)).
  { unfold PIPESIZE in Hlt. apply count_of; [lia|]. cbn. rewrite <- E, u32_add_l. f_equal. lia. }
  split_and!; [split; rewrite ?Ec; cbn; [by rewrite length_insert | done | apply u32_range | lia] | done |].
  unfold queue. rewrite Ec, seq_S, fmap_app. cbn [pi_data pi_nread put_byte fmap list_fmap Nat.add].
  rewrite <- E. f_equal.
  - apply list_fmap_ext. intros j k [-> Hj]%lookup_seq. cbn.
    apply list_lookup_total_insert_ne. rewrite !slot_spec. unfold PIPESIZE in *. zmod_lia.
  - f_equal. apply list_lookup_total_insert_eq. rewrite Hl. apply slot_range.
Qed.

Lemma drop_byte_ok p :
  content_ok p → (0 < count p)%nat →
  content_ok (drop_byte p) ∧ ∃ b, pi_data p !! Z.to_nat (pi_nread p mod PIPESIZE) = Some b ∧
  queue p = b :: queue (drop_byte p).
Proof.
  intros H Hpos. destruct (count_spec p H) as [E Hc]. pose proof H as [Hl Hr Hw _].
  assert (Ec : count p = S (count (drop_byte p))).
  { destruct (count p) as [|n] eqn:En; [lia|]. f_equal. symmetry. apply count_of; [lia|].
    cbn. rewrite <- E, u32_add_l. f_equal. lia. }
  split; [split; [done | apply u32_range | done | unfold PIPESIZE; lia]|].
  destruct (lookup_lt_is_Some_2 (pi_data p) (Z.to_nat (pi_nread p mod PIPESIZE))) as [b Hb].
  { rewrite Hl. apply slot_range. }
  exists b. split; [done|]. unfold queue. rewrite Ec. cbn [seq fmap list_fmap]. f_equal.
  - rewrite slot_spec, Z.add_0_r. by apply list_lookup_total_correct.
  - rewrite <- fmap_S_seq, <- list_fmap_compose. apply list_fmap_ext. intros j k _. cbn.
    do 2 f_equal. rewrite !slot_spec. unfold u32, PIPESIZE. zmod_lia.
Qed.

(** *** Segments *)

(** The result of a segment of [pipewrite] that puts [m] of its remaining [k] bytes. *)
Definition write_end (killed : bool) (n : Z) (i k m : nat) (p p' : pipe) (res : wres) : Prop :=
  m = k ∧ res = WRet n ∨
  (m < k)%nat ∧ count p' = Z.to_nat PIPESIZE ∧
    res = (if negb (pi_readopen p) || killed then WRet (-1) else WSleep (i + m)).

Lemma pipewrite_loop_rule killed src n k : ∀ i p (Q : wres → pipe → Prop),
  content_ok p → taken (pi_cpu p) (pi_lock p) →
  (∀ res p' m, pipe_ok p' → queue p' = queue p ++ (src <$> seq i m) →
     pi_nread p' = pi_nread p → count p' = (count p + m)%nat →
     write_end killed n i k m p p' res → Q res p') →
  runs (pipewrite_loop killed src n i k) p Q.
Proof.
  induction k as [|k IH]; intros i p Q Hc Ht HQ; cbn [pipewrite_loop].
  - apply runs_bind, runs_mod. apply runs_bind, runs_release_pipe; [done|]. intros c lk Hc' Hl'.
    apply runs_ret, (HQ _ _ 0%nat); [by destruct Hc; split | | done | | by left].
    + symmetry. apply app_nil_r.
    + unfold count. cbn. lia.
  - apply runs_bind, runs_get. rewrite full_spec by done.
    destruct (Nat.eqb_spec (count p) (Z.to_nat PIPESIZE)) as [Hf|Hf].
    + assert (Hend : ∀ c lk r w, cpu_ok c → locked lk = 0 →
        Q (if negb (pi_readopen p) || killed then WRet (-1) else WSleep i)
          (set_pi_lock c lk (set_pi_wakes r w p))).
      { intros c lk r w Hc' Hl'. apply (HQ _ _ 0%nat); [by destruct Hc; split | | done | |].
        - symmetry. apply app_nil_r.
        - unfold count. cbn. lia.
        - right. rewrite Nat.add_0_r. split_and!; [lia | done | done]. }
      destruct (negb (pi_readopen p) || killed).
      * apply runs_bind, runs_release_pipe; [done|]. intros c lk Hc' Hl'.
        apply runs_ret. by apply (Hend c lk (pi_wake_readers p) (pi_wake_writers p)).
      * apply runs_bind, runs_mod. apply runs_bind, runs_release_pipe; [done|]. intros c lk Hc' Hl'.
        apply runs_ret. by apply Hend.
    + destruct (put_byte_ok p (src i) Hc) as (Hc1 & Ec1 & Eq1); [destruct Hc; lia|].
      apply runs_bind, runs_mod. apply IH; [done | done|].
      intros res p' m Hp' Eq En Ec Hend. apply (HQ res p' (S m)); [done | | done | lia |].
      * rewrite Eq, Eq1, <- app_assoc. done.
      * destruct Hend as [[-> ->]|(Hm & Hfull & ->)]; [by left | right].
        split_and!; [lia | done |]. cbn. by rewrite Nat.add_succ_r.
Qed.

Lemma pipewrite_rule killed src n i p (Q : wres → pipe → Prop) :
  pipe_ok p →
  (∀ res p' m, pipe_ok p' → queue p' = queue p ++ (src <$> seq i m) →
     pi_nread p' = pi_nread p → count p' = (count p + m)%nat →
     write_end killed n i (Z.to_nat n - i) m p p' res → Q res p') →
  runs (pipewrite killed src n i) p Q.
Proof.
  intros Hp HQ. pose proof Hp as [H1 H2 H3 H4 H5 H6].
  apply runs_bind, runs_acquire_pipe; [done..|]. intros c lk Ht.
  apply pipewrite_loop_rule; [by split | done|]. intros res p' m Hp' Eq En Ec Hend.
  by apply (HQ res p' m).
Qed.

Lemma piperead_loop_rule k : ∀ p (Q : list Z → pipe → Prop),
  content_ok p →
  (∀ p', content_ok p' → queue p' = drop k (queue p) → pi_cpu p' = pi_cpu p →
     pi_lock p' = pi_lock p → Q (take k (queue p)) p') →
  runs (piperead_loop k) p Q.
Proof.
  induction k as [|k IH]; intros p Q Hc HQ; cbn [piperead_loop].
  - apply runs_ret. by apply HQ.
  - apply runs_bind, runs_get. rewrite empty_spec by done.
    destruct (Nat.eqb_spec (count p) 0) as [He|He].
    + apply runs_ret. assert (Eq : queue p = []) by (unfold queue; by rewrite He).
      rewrite Eq in HQ. apply HQ; [done | by rewrite Eq | done..].
    + destruct (drop_byte_ok p Hc) as (Hc1 & b & Hb & Eq); [lia|].
      rewrite Hb. apply runs_bind, runs_out. apply runs_bind, runs_mod. apply runs_bind, IH; [done|].
      intros p' Hp' Eq' E1 E2. apply runs_ret. rewrite Eq in HQ. by apply HQ.
Qed.

Lemma piperead_rule (killed : bool) n p (Q : rres → pipe → Prop) :
  pipe_ok p →
  (∀ res p', pipe_ok p' →
     match res with
     | RRet bs => bs = take (Z.to_nat n) (queue p) ∧ queue p' = drop (Z.to_nat n) (queue p) ∧
         (queue p = [] → pi_writeopen p = false)
     | _ => res = (if killed then RErr else RSleep) ∧ queue p = [] ∧ queue p' = [] ∧
         pi_writeopen p = true
     end → Q res p') →
  runs (piperead killed n) p Q.
Proof.
  intros Hp HQ. pose proof Hp as [H1 H2 H3 H4 H5 H6].
  apply runs_bind, runs_acquire_pipe; [done..|]. intros c lk Ht. apply runs_bind, runs_get.
  rewrite empty_spec by (by split). change (count (set_pi_lock c lk p)) with (count p).
  cbn [pi_writeopen set_pi_lock].
  destruct (Nat.eqb_spec (count p) 0) as [He|He]; [destruct (pi_writeopen p) eqn:Ew|]; cbn [andb].
  - assert (Eq : queue p = []) by (unfold queue; by rewrite He).
    apply runs_bind, runs_release_pipe; [done|]. intros c' lk' Hc' Hl'. apply runs_ret, HQ; [by split|].
    by destruct killed.
  - apply runs_bind, piperead_loop_rule; [by split|]. intros p' [C1 C2 C3 C4] Eq E1 E2.
    apply runs_bind, runs_mod. apply runs_bind, runs_release_pipe; [cbn; by rewrite E1, E2|].
    intros c' lk' Hc' Hl'. apply runs_ret, HQ; [by split | done].
  - apply runs_bind, piperead_loop_rule; [by split|]. intros p' [C1 C2 C3 C4] Eq E1 E2.
    apply runs_bind, runs_mod. apply runs_bind, runs_release_pipe; [cbn; by rewrite E1, E2|].
    intros c' lk' Hc' Hl'. apply runs_ret, HQ; [by split|]. split_and!; [done..|].
    intros Eq0. exfalso. apply He. apply (f_equal length) in Eq0. unfold queue in Eq0.
    by rewrite length_fmap, length_seq in Eq0.
Qed.

Lemma pipeclose_rule writable p (Q : unit → pipe → Prop) :
  pipe_ok p →
  (∀ p', pipe_ok p' → queue p' = queue p →
     pi_readopen p' = pi_readopen p && writable → pi_writeopen p' = pi_writeopen p && negb writable →
     pi_freed p' = pi_freed p || negb (pi_readopen p' || pi_writeopen p') → Q tt p') →
  runs (pipeclose writable) p Q.
Proof.
  intros Hp HQ. pose proof Hp as [H1 H2 H3 H4 H5 H6].
  apply runs_bind, runs_acquire_pipe; [done..|]. intros c lk Ht. apply runs_bind.
  destruct writable; (apply runs_bind, runs_mod; apply runs_mod; apply runs_bind, runs_get; cbn [pi_readopen pi_writeopen set_pi_open set_pi_wakes set_pi_lock]).
  all: destruct (pi_readopen p) eqn:Er, (pi_writeopen p) eqn:Ew; cbn [negb andb].
  all: first [apply runs_bind, runs_release_pipe; [done|]; intros c' lk' Hc' Hl'; apply runs_mod
             | apply runs_release_pipe; [done|]; intros c' lk' Hc' Hl'].
  all: apply HQ; [by split | done | done | done |]; cbn; rewrite ?Er, ?Ew, ?orb_false_r, ?orb_true_r; done.
Qed.

(** *** Interleavings *)

Lemma bytes_put_spec src i p p' m :
  content_ok p → content_ok p' → pi_nread p' = pi_nread p → count p' = (count p + m)%nat →
  bytes_put src i p p' = src <$> seq i m.
Proof.
  intros H H' En Ec. destruct (count_spec p H) as [E Hc], (count_spec p' H') as [E' Hc'].
  unfold bytes_put. do 2 f_equal. rewrite <- E, <- E', En, Ec, u32_sub_l, u32_sub_r.
  replace (pi_nread p + Z.of_nat (count p + m) - (pi_nread p + Z.of_nat (count p))) with (Z.of_nat m) by lia.
  rewrite u32_small by lia. lia.
Qed.

Definition pipe_inv (st : pipe * list Z * list Z) : Prop :=
  let '(p, w, r) := st in pipe_ok p ∧ w = r ++ queue p.

Lemma pipe_inv_step st st' : pipe_inv st → pstep st st' → pipe_inv st'.
Proof.
  intros Hinv Hs. destruct Hs as [p p' w r killed src n i res Hrun|p p' w r killed n res Hrun
    |p p' w r writable Hrun]; destruct Hinv as [Hp ->].
  - assert (Hr : runs (pipewrite killed src n i) p (λ _ p',
      pipe_inv (p', (r ++ queue p) ++ bytes_put src i p p', r))).
    { apply pipewrite_rule; [done|]. intros res' p1 m Hp1 Eq En Ec _. split; [done|].
      rewrite (bytes_put_spec src i p p1 m), Eq, app_assoc by auto using pipe_ok_content. done. }
    destruct Hr as (res1 & p1 & Hr & Hinv). rewrite Hrun in Hr. by injection Hr as <- <-.
  - assert (Hr : runs (piperead killed n) p (λ res p',
      pipe_inv (p', r ++ queue p, r ++ match res with RRet bs => bs | _ => [] end))).
    { apply piperead_rule; [done|]. intros [|bs|] p1 Hp1 H; (split; [done|]).
      - destruct H as (_ & -> & -> & _). by rewrite !app_nil_r.
      - destruct H as (-> & -> & _). by rewrite <- app_assoc, take_drop.
      - destruct H as (_ & -> & -> & _). by rewrite !app_nil_r. }
    destruct Hr as (res1 & p1 & Hr & Hinv). rewrite Hrun in Hr. by injection Hr as <- <-.
  - assert (Hr : runs (pipeclose writable) p (λ _ p', pipe_inv (p', r ++ queue p, r))).
    { apply pipeclose_rule; [done|]. intros p1 Hp1 Eq _ _ _. split; [done | by rewrite Eq]. }
    destruct Hr as ([] & p1 & Hr & Hinv). rewrite Hrun in Hr. by injection Hr as <-.
Qed.

Lemma pipe_inv_init c data :
  cpu_ok c → length data = Z.to_nat PIPESIZE → pipe_inv (pipe_init c data, [], []).
Proof.
  intros Hc Hd. split; [|done]. split; try done.
  change (count (pipe_init c data)) with 0%nat. lia.
Qed.

Lemma pipe_inv_reach c data st :
  cpu_ok c → length data = Z.to_nat PIPESIZE → rtc pstep (pipe_init c data, [], []) st → pipe_inv st.
Proof.
  intros Hc Hd H. pose proof (pipe_inv_init c data Hc Hd) as Hi.
  induction H; eauto using pipe_inv_step.
Qed.

(** ** Properties *)

(** C31: a pipe delivers the bytes in order, each once.  However the segments of readers,
    writers and closing processes interleave, also across the wrap-around of the
    counters at 2^32, the bytes read so far followed by the at most 512 bytes in the
    buffer are exactly the bytes written so far; and no further call can panic or go
    out of the buffer. *)
Theorem pipe_fifo c data p w r :
  cpu_ok c → length data = Z.to_nat PIPESIZE →
  rtc pstep (pipe_init c data, [], []) (p, w, r) →
  w = r ++ queue p ∧ (length (queue p) ≤ Z.to_nat PIPESIZE)%nat ∧
  (∀ killed src n i, is_Ok (pipewrite killed src n i p)) ∧
  (∀ killed n, is_Ok (piperead killed n p)) ∧ (∀ writable, is_Ok (pipeclose writable p)).
Proof.
  intros Hc Hd H. destruct (pipe_inv_reach c data _ Hc Hd H) as [Hp Hw]. split_and!; [done | | | |].
  - unfold queue. rewrite length_fmap, length_seq. apply Hp.
  - intros killed src n i. destruct (pipewrite_rule killed src n i p (λ _ _, True) Hp) as (a & s & E & _);
      [done | by exists (a, s)].
  - intros killed n. destruct (piperead_rule killed n p (λ _ _, True) Hp) as (a & s & E & _);
      [done | by exists (a, s)].
  - intros writable. destruct (pipeclose_rule writable p (λ _ _, True) Hp) as (a & s & E & _);
      [done | by exists (a, s)].
Qed.

(** what the calls return.  [pipewrite] returns [n] once all its bytes are in the
    buffer; it stops early only when the buffer is full, with -1 if there is no reader
    left or the process was killed, asleep otherwise.  [piperead] returns the oldest
    bytes, as many as there are up to [n]; only with an empty buffer and an open write
    end it sleeps, or returns -1 if the process was killed, and only with an empty
    buffer and a closed write end it returns no byte of a positive [n]. *)
Theorem pipe_calls_correct p killed src n i :
  pipe_ok p →
  (∃ res p' m, pipewrite killed src n i p = Ok (res, p') ∧ pipe_ok p' ∧
     queue p' = queue p ++ (src <$> seq i m) ∧
     write_end killed n i (Z.to_nat n - i) m p p' res) ∧
  (∃ res p', piperead killed n p = Ok (res, p') ∧ pipe_ok p' ∧
     match res with
     | RRet bs => bs = take (Z.to_nat n) (queue p) ∧ queue p' = drop (Z.to_nat n) (queue p) ∧
         (queue p = [] → pi_writeopen p = false)
     | _ => res = (if killed then RErr else RSleep) ∧ queue p = [] ∧ queue p' = [] ∧
         pi_writeopen p = true
     end).
Proof.
  intros Hp. split.
  - assert (Hr : runs (pipewrite killed src n i) p (λ res p', ∃ m, pipe_ok p' ∧
      queue p' = queue p ++ (src <$> seq i m) ∧ write_end killed n i (Z.to_nat n - i) m p p' res)).
    { apply pipewrite_rule; [done|]. intros res p' m Hp' Eq _ _ Hend. by exists m. }
    destruct Hr as (res & p' & Hr & m & H). by exists res, p', m.
  - pose proof (piperead_rule killed n p (λ res p', pipe_ok p' ∧ match res with
     | RRet bs => bs = take (Z.to_nat n) (queue p) ∧ queue p' = drop (Z.to_nat n) (queue p) ∧
         (queue p = [] → pi_writeopen p = false)
     | _ => res = (if killed then RErr else RSleep) ∧ queue p = [] ∧ queue p' = [] ∧
         pi_writeopen p = true
     end) Hp) as Hr.
    destruct Hr as (res & p' & Hr & H); [done|]. by exists res, p'.
Qed.

(** *** Witnesses *)

Lemma demo_cpu_ok : cpu_ok (mkCpu 0 0 false true).
Proof. split; cbn; lia. Qed.

Definition demo_pipe : pipe := pipe_init (mkCpu 0 0 false true) (replicate (Z.to_nat PIPESIZE) 0).

Definition final {A : Type} (m : K pipe A) (p : pipe) : pipe :=
  match m p with Ok (_, p') => p' | _ => p end.

(** A writer puts three bytes, a reader takes two, a writer puts one more. *)
Definition demo_pipe1 : pipe := final (pipewrite false (λ k, 10 + Z.of_nat k) 3 0) demo_pipe.
Definition demo_pipe2 : pipe := final (piperead false 2) demo_pipe1.
Definition demo_pipe3 : pipe := final (pipewrite false (λ k, 20 + Z.of_nat k) 1 0) demo_pipe2.

Lemma demo_pipe_run : rtc pstep (demo_pipe, [], []) (demo_pipe3, [10; 11; 12; 20], [10; 11]).
Proof.
  eapply rtc_l; [apply (pstep_write demo_pipe demo_pipe1 [] [] false (λ k, 10 + Z.of_nat k) 3 0 (WRet 3));
    vm_compute; reflexivity|].
  eapply rtc_l; [apply (pstep_read demo_pipe1 demo_pipe2 _ [] false 2 (RRet [10; 11]));
    vm_compute; reflexivity|].
  eapply rtc_l; [apply (pstep_write demo_pipe2 demo_pipe3 _ _ false (λ k, 20 + Z.of_nat k) 1 0 (WRet 1));
    vm_compute; reflexivity|].
  apply rtc_refl.
Defined.

Lemma pipe_fifo_witness :
  rtc pstep (demo_pipe, [], []) (demo_pipe3, [10; 11; 12; 20], [10; 11]) ∧
  [10; 11; 12; 20] = [10; 11] ++ queue demo_pipe3.
Proof.
  split; [exact demo_pipe_run|].
  destruct (pipe_fifo (mkCpu 0 0 false true) (replicate (Z.to_nat PIPESIZE) 0) demo_pipe3
    [10; 11; 12; 20] [10; 11]) as [H _].
  - exact demo_cpu_ok.
  - reflexivity.
  - exact demo_pipe_run.
  - exact H.
Defined.

Lemma pipe_calls_correct_witness :
  ∃ res p', piperead true 5 demo_pipe3 = Ok (res, p') ∧ queue p' = [].
Proof.
  assert (Hp : pipe_ok demo_pipe3).
  { apply (pipe_inv_reach (mkCpu 0 0 false true) (replicate (Z.to_nat PIPESIZE) 0) _
      demo_cpu_ok eq_refl demo_pipe_run). }
  destruct (pipe_calls_correct demo_pipe3 true (λ _, 0) 5 0 Hp) as [_ (res & p' & Hr & _ & H)].
  exists res, p'. split; [exact Hr|]. destruct res as [|bs|].
  - destruct H as (_ & _ & H & _). exact H.
  - destruct H as (_ & H & _). rewrite H. vm_compute. reflexivity.
  - destruct H as (_ & _ & H & _). exact H.
Defined.
