(* ===== verification/Fs.v ===== *)
(** * The file system

    Models src/fs.c (block allocator, inodes, file contents, directories, path names),
    the on-disk formats of src/fs.h and [struct inode] of src/file.h, on top of the log.
    An in-memory inode is named by its index in [icache.inode].  Kernel and user memory
    is one flat memory, from which [writei] and path names are read and to which [readi]
    writes.

    The device switch [devsw], which src/console.c fills in, and the addresses of the
    local variables [de] and [name] that are passed by pointer are parameters.  Where
    [ilock] would sleep for a locked inode the definition is [Diverge].  The loops over
    bytes of a path take fuel; [readi] and [writei] have one round per block. *)

From S2P Require Import Prelude Param KString Spinlock Bio Log.
Local Open Scope Z_scope.

(** ** Definitions *)

(** *** src/fs.h, src/stat.h *)
Definition ROOTINO : Z := 1.
Definition NDIRECT : nat := 10.
Definition NINDIRECT : Z := BSIZE / 4.
Definition MAXFILE : Z := Z.of_nat NDIRECT + NINDIRECT.
Definition SIZEOF_dinode : Z := 64.
Definition IPB : Z := BSIZE / SIZEOF_dinode.
Definition BPB : Z := BSIZE * 8.
Definition DIRSIZ : Z := 14.
Definition SIZEOF_dirent : Z := 16.
Definition T_DIR : Z := 1.
Definition T_FILE : Z := 2.
Definition T_DEV : Z := 3.
Definition I_BUSY : Z := 1.
Definition I_VALID : Z := 2.

Definition IBLOCK (i : Z) (sb : superblock) : Z := u32 (i / IPB + sb_inodestart sb).
Definition BBLOCK (b : Z) (sb : superblock) : Z := u32 (b / BPB + sb_bmapstart sb).

(** 16-bit words. *)
Definition load16 (m : mem) (a : Z) : Z := m a + 256 * m (a + 1).
Definition store16 (m : mem) (a v : Z) : mem := mupd (mupd m a (u8 v)) (a + 1) (u8 (Z.shiftr v 8)).
Definition s16 (x : Z) : Z := if u16 x <? 32768 then u16 x else u16 x - 65536.

(** The fields an inode has both on disk ([struct dinode]) and in memory. *)
Record dinode := mkDinode {
  di_type : Z;
  di_major : Z;
  di_minor : Z;
  di_nlink : Z;
  di_uid : Z;
  di_gid : Z;
  di_mode : Z;
  di_size : Z;
  di_addrs : list Z
}.

(** [struct inode]. *)
Record inode := mkInode {
  i_dev : Z;
  i_inum : Z;
  i_ref : Z;
  i_flags : Z;
  i_d : dinode
}.

(** [struct dinode] at offset [o] of a block. *)
Definition dinode_at (d : mem) (o : Z) : dinode :=
  mkDinode (s16 (load16 d o)) (s16 (load16 d (o + 2))) (s16 (load16 d (o + 4)))
    (s16 (load16 d (o + 6))) (load16 d (o + 8)) (load16 d (o + 10)) (load32 d (o + 12))
    (load32 d (o + 16))
    ((λ k : nat, load32 d (o + 20 + 4 * Z.of_nat k)) <$> seq 0 (S NDIRECT)).

Fixpoint store_addrs (d : mem) (o : Z) (l : list Z) : mem :=
  match l with
  | [] => d
  | x :: l' => store_addrs (store32 d o x) (o + 4) l'
  end.

Definition dinode_store (d : mem) (o : Z) (x : dinode) : mem :=
  let d := store16 d o (di_type x) in
  let d := store16 d (o + 2) (di_major x) in
  let d := store16 d (o + 4) (di_minor x) in
  let d := store16 d (o + 6) (di_nlink x) in
  let d := store32 d (o + 16) (di_size x) in
  let d := store16 d (o + 8) (di_uid x) in
  let d := store16 d (o + 10) (di_gid x) in
  let d := store32 d (o + 12) (di_mode x) in
  store_addrs d (o + 20) (di_addrs x).

Definition set_i_ref (r : Z) (x : inode) : inode :=
  mkInode (i_dev x) (i_inum x) r (i_flags x) (i_d x).
Definition set_i_flags (f : Z) (x : inode) : inode :=
  mkInode (i_dev x) (i_inum x) (i_ref x) f (i_d x).
Definition set_i_d (d : dinode) (x : inode) : inode :=
  mkInode (i_dev x) (i_inum x) (i_ref x) (i_flags x) d.
Definition set_di_type (t : Z) (x : dinode) : dinode :=
  mkDinode t (di_major x) (di_minor x) (di_nlink x) (di_uid x) (di_gid x) (di_mode x)
    (di_size x) (di_addrs x).
Definition set_di_size (n : Z) (x : dinode) : dinode :=
  mkDinode (di_type x) (di_major x) (di_minor x) (di_nlink x) (di_uid x) (di_gid x)
    (di_mode x) n (di_addrs x).
Definition set_di_addrs (l : list Z) (x : dinode) : dinode :=
  mkDinode (di_type x) (di_major x) (di_minor x) (di_nlink x) (di_uid x) (di_gid x)
    (di_mode x) (di_size x) l.

(** *** State *)

(** The log below, the superblock [sb], [icache], memory, the current directory of the
    running process and the inodes [wakeup] has been called on. *)
Record fsst := mkFsst {
  fs_log : logst;
  fs_sb : superblock;
  ic_lock : spinlock;
  ic_inode : list inode;
  fs_mem : mem;
  fs_cwd : nat;
  fs_wakeups : list nat
}.

Definition set_fs_log (l : logst) (s : fsst) : fsst :=
  mkFsst l (fs_sb s) (ic_lock s) (ic_inode s) (fs_mem s) (fs_cwd s) (fs_wakeups s).
Definition set_fs_sb (sb : superblock) (s : fsst) : fsst :=
  mkFsst (fs_log s) sb (ic_lock s) (ic_inode s) (fs_mem s) (fs_cwd s) (fs_wakeups s).
Definition set_ic_lock (lk : spinlock) (s : fsst) : fsst :=
  mkFsst (fs_log s) (fs_sb s) lk (ic_inode s) (fs_mem s) (fs_cwd s) (fs_wakeups s).
Definition set_ic_inode (l : list inode) (s : fsst) : fsst :=
  mkFsst (fs_log s) (fs_sb s) (ic_lock s) l (fs_mem s) (fs_cwd s) (fs_wakeups s).
Definition set_fs_mem (m : mem) (s : fsst) : fsst :=
  mkFsst (fs_log s) (fs_sb s) (ic_lock s) (ic_inode s) m (fs_cwd s) (fs_wakeups s).

Definition onlog {A : Type} (m : K logst A) : K fsst A := kzoom fs_log set_fs_log m.
Definition oncache {A : Type} (m : K bio A) : K fsst A := onlog (onbio m).

(** The data of a buffer, read and changed. *)
Definition bdata (i : nat) : K fsst mem := oncache (b ← buf_get i; mret (b_data b)).
Definition set_bdata (i : nat) (d : mem) : K fsst unit := oncache (buf_mod i (set_data d)).

Definition get_sb : K fsst superblock := s ← kget; mret (fs_sb s).

(** [*ip], read and changed. *)
Definition ino (ip : nat) : K fsst inode := fun s =>
  match ic_inode s !! ip with Some x => Ok (x, s) | None => Undef "inode pointer" end.
Definition ino_mod (ip : nat) (f : inode → inode) : K fsst unit := fun s =>
  match ic_inode s !! ip with
  | Some x => Ok (tt, set_ic_inode (<[ip := f x]> (ic_inode s)) s)
  | None => Undef "inode pointer"
  end.

Definition fs_cpu (s : fsst) : cpu := bio_cpu (ls_bio (fs_log s)).
Definition set_fs_cpu (c : cpu) (s : fsst) : fsst :=
  set_fs_log (set_ls_bio (set_cpu c (ls_bio (fs_log s))) (fs_log s)) s.

Definition acquire_icache : K fsst unit := fun s =>
  '(c, lk) ← acquire (fs_cpu s) (ic_lock s); Ok (tt, set_fs_cpu c (set_ic_lock lk s)).
Definition release_icache : K fsst unit := fun s =>
  '(c, lk) ← release (fs_cpu s) (ic_lock s); Ok (tt, set_fs_cpu c (set_ic_lock lk s)).
Definition wakeup_inode (ip : nat) : K fsst unit :=
  kmod (fun s => mkFsst (fs_log s) (fs_sb s) (ic_lock s) (ic_inode s) (fs_mem s) (fs_cwd s)
    (fs_wakeups s ++ [ip])).

(** *** Blocks *)

Definition log_write_buf (bp : nat) : K fsst unit := onlog (log_write bp).
Definition bread_fs (dev n : Z) : K fsst nat := oncache (bread dev n).
Definition brelse_fs (bp : nat) : K fsst unit := oncache (brelse bp).

(** [readsb(dev, &sb)]. *)
Definition readsb_fs (dev : Z) : K fsst unit :=
  sb ← oncache (readsb (u32 dev));
  kmod (set_fs_sb sb).

(** Offsets of [bp->data] stand for its addresses. *)
Definition bzero (dev bno : Z) : K fsst unit :=
  bp ← bread_fs (u32 dev) (u32 bno);
  d ← bdata bp;
  set_bdata bp (memset d 0 0 BSIZE);;
  log_write_buf bp;;
  brelse_fs bp.

(** [bp->data[bi/8] & m] with [m = 1 << (bi % 8)], and the two updates of that byte. *)
Definition bit_of (d : mem) (bi : Z) : Z := Z.land (d (bi / 8)) (Z.shiftl 1 (bi mod 8)).
Definition bit_on (d : mem) (bi : Z) : mem :=
  mupd d (bi / 8) (u8 (Z.lor (d (bi / 8)) (Z.shiftl 1 (bi mod 8)))).
Definition bit_off (d : mem) (bi : Z) : mem :=
  mupd d (bi / 8) (u8 (Z.land (d (bi / 8)) (Z.lnot (Z.shiftl 1 (bi mod 8))))).

(** The rounds of the inner loop of [balloc] and of its outer loop. *)
Definition bit_rounds (b size : Z) : list Z :=
  Z.of_nat <$> seq 0 (Z.to_nat (Z.min BPB (size - b))).
Definition map_rounds (size : Z) : list Z :=
  (λ k : nat, Z.of_nat k * BPB) <$> seq 0 (Z.to_nat ((size + BPB - 1) / BPB)).

Definition balloc (dev : Z) : K fsst Z :=
  sb ← get_sb;
  r ← kfind (map_rounds (sb_size sb)) (fun b =>
    sb ← get_sb;
    bp ← bread_fs dev (BBLOCK b sb);
    d ← bdata bp;
    match List.find (fun bi => bit_of d bi =? 0) (bit_rounds b (sb_size sb)) with
    | Some bi =>
        set_bdata bp (bit_on d bi);;
        log_write_buf bp;;
        brelse_fs bp;;
        bzero dev (b + bi);;
        mret (Some (b + bi))
    | None => brelse_fs bp;; mret None
    end);
  match r with
  | Some b => mret b
  | None => kpanic "balloc: out of blocks"
  end.

Definition bfree (dev b : Z) : K fsst unit :=
  readsb_fs dev;;
  sb ← get_sb;
  bp ← bread_fs (u32 dev) (BBLOCK b sb);
  d ← bdata bp;
  let bi := b mod BPB in
  if bit_of d bi =? 0 then kpanic "freeing free block"
  else
    set_bdata bp (bit_off d bi);;
    log_write_buf bp;;
    brelse_fs bp.

(** *** Inodes *)

Definition iinit (dev : Z) : K fsst unit :=
  kmod (set_ic_lock (initlock "icache"));;
  readsb_fs dev.

(** The scan of [iget]: the entry for the inode, or the first empty entry. *)
Fixpoint iget_scan (l : list inode) (k : nat) (dev inum : Z) (empty : option nat) :
    nat + option nat :=
  match l with
  | [] => inr empty
  | ip :: l' =>
      if (i_ref ip >? 0) && (i_dev ip =? dev) && (i_inum ip =? inum) then inl k
      else
        iget_scan l' (S k) dev inum
          (match empty with
           | None => if i_ref ip =? 0 then Some k else None
           | Some _ => empty
           end)
  end.

Definition iget (dev inum : Z) : K fsst nat :=
  acquire_icache;;
  s ← kget;
  match iget_scan (ic_inode s) 0 dev inum None with
  | inl ip =>
      ino_mod ip (fun x => set_i_ref (i_ref x + 1) x);;
      release_icache;;
      mret ip
  | inr None => kpanic "iget: no inodes"
  | inr (Some ip) =>
      ino_mod ip (fun x => mkInode dev inum 1 0 (i_d x));;
      release_icache;;
      mret ip
  end.

Definition ialloc (dev type : Z) : K fsst nat :=
  sb ← get_sb;
  r ← kfind (Z.of_nat <$> seq 1 (Z.to_nat (sb_ninodes sb - 1))) (fun inum =>
    sb ← get_sb;
    bp ← bread_fs dev (IBLOCK inum sb);
    d ← bdata bp;
    let o := inum mod IPB * SIZEOF_dinode in
    if di_type (dinode_at d o) =? 0 then
      set_bdata bp (store16 (memset d o 0 SIZEOF_dinode) o type);;
      log_write_buf bp;;
      brelse_fs bp;;
      ip ← iget dev inum;
      mret (Some ip)
    else brelse_fs bp;; mret None);
  match r with
  | Some ip => mret ip
  | None => kpanic "ialloc: no inodes"
  end.

Definition iupdate (ip : nat) : K fsst unit :=
  x ← ino ip;
  sb ← get_sb;
  bp ← bread_fs (i_dev x) (IBLOCK (i_inum x) sb);
  d ← bdata bp;
  set_bdata bp (dinode_store d (i_inum x mod IPB * SIZEOF_dinode) (i_d x));;
  log_write_buf bp;;
  brelse_fs bp.

Definition idup (ip : nat) : K fsst nat :=
  acquire_icache;;
  ino_mod ip (fun x => set_i_ref (i_ref x + 1) x);;
  release_icache;;
  mret ip.

(** The test of a flag of [ip->flags]. *)
Definition iflag (x : inode) (f : Z) : bool := negb (Z.land (i_flags x) f =? 0).

(** [ilock] and [iunlock] test for the null pointer. *)
Definition ilock (p : option nat) : K fsst unit :=
  match p with
  | None => kpanic "ilock"
  | Some ip =>
      x ← ino ip;
      if i_ref x <? 1 then kpanic "ilock"
      else
        acquire_icache;;
        x ← ino ip;
        if iflag x I_BUSY then kout Diverge
        else
          ino_mod ip (fun x => set_i_flags (Z.lor (i_flags x) I_BUSY) x);;
          release_icache;;
          x ← ino ip;
          if negb (iflag x I_VALID) then
            sb ← get_sb;
            bp ← bread_fs (i_dev x) (IBLOCK (i_inum x) sb);
            d ← bdata bp;
            ino_mod ip (set_i_d (dinode_at d (i_inum x mod IPB * SIZEOF_dinode)));;
            brelse_fs bp;;
            ino_mod ip (fun x => set_i_flags (Z.lor (i_flags x) I_VALID) x);;
            x ← ino ip;
            if di_type (i_d x) =? 0 then kpanic "ilock: no type" else mret tt
          else mret tt
  end.

Definition iunlock (p : option nat) : K fsst unit :=
  match p with
  | None => kpanic "iunlock"
  | Some ip =>
      x ← ino ip;
      if negb (iflag x I_BUSY) || (i_ref x <? 1) then kpanic "iunlock"
      else
        acquire_icache;;
        ino_mod ip (fun x => set_i_flags (Z.land (i_flags x) (Z.lnot I_BUSY)) x);;
        wakeup_inode ip;;
        release_icache
  end.

(** [ip->addrs[k]], read and written. *)
Definition addr_get (ip k : nat) : K fsst Z :=
  x ← ino ip;
  kout (of_option "ip->addrs" (di_addrs (i_d x) !! k)).
Definition addr_set (ip k : nat) (a : Z) : K fsst unit :=
  ino_mod ip (fun x => set_i_d (set_di_addrs (<[k := a]> (di_addrs (i_d x))) (i_d x)) x).

(** [if((addr = ip->addrs[k]) == 0) ip->addrs[k] = addr = balloc(ip->dev)]. *)
Definition addr_alloc (ip k : nat) : K fsst Z :=
  addr ← addr_get ip k;
  if addr =? 0 then
    x ← ino ip;
    addr ← balloc (i_dev x);
    addr_set ip k addr;;
    mret addr
  else mret addr.

(** Entry [bn] of the indirect block [addr]. *)
Definition bmap_indirect (ip : nat) (addr bn : Z) : K fsst Z :=
  x ← ino ip;
  bp ← bread_fs (i_dev x) addr;
  a ← bdata bp;
  let addr := load32 a (4 * bn) in
  if addr =? 0 then
    x ← ino ip;
    addr ← balloc (i_dev x);
    a ← bdata bp;
    set_bdata bp (store32 a (4 * bn) addr);;
    log_write_buf bp;;
    brelse_fs bp;;
    mret addr
  else
    brelse_fs bp;;
    mret addr.

Definition bmap (ip : nat) (bn : Z) : K fsst Z :=
  if bn <? Z.of_nat NDIRECT then addr_alloc ip (Z.to_nat bn)
  else
    let bn := bn - Z.of_nat NDIRECT in
    if bn <? NINDIRECT then
      addr ← addr_alloc ip NDIRECT;
      bmap_indirect ip addr bn
    else kpanic "bmap: out of range".

Definition itrunc (ip : nat) : K fsst unit :=
  kiter (seq 0 NDIRECT) (fun i =>
    addr ← addr_get ip i;
    kwhen (negb (addr =? 0))
      (x ← ino ip;
       bfree (s32 (i_dev x)) addr;;
       addr_set ip i 0));;
  addr ← addr_get ip NDIRECT;
  kwhen (negb (addr =? 0))
    (x ← ino ip;
     bp ← bread_fs (i_dev x) addr;
     kiter (seq 0 (Z.to_nat NINDIRECT)) (fun j =>
       a ← bdata bp;
       let b := load32 a (4 * Z.of_nat j) in
       kwhen (negb (b =? 0)) (bfree (s32 (i_dev x)) b));;
     brelse_fs bp;;
     addr ← addr_get ip NDIRECT;
     bfree (s32 (i_dev x)) addr;;
     addr_set ip NDIRECT 0);;
  ino_mod ip (fun x => set_i_d (set_di_size 0 (i_d x)) x);;
  iupdate ip.

Definition iput (ip : nat) : K fsst unit :=
  acquire_icache;;
  x ← ino ip;
  (if (i_ref x =? 1) && iflag x I_VALID && (di_nlink (i_d x) =? 0) then
     if iflag x I_BUSY then kpanic "iput busy"
     else
       ino_mod ip (fun x => set_i_flags (Z.lor (i_flags x) I_BUSY) x);;
       release_icache;;
       itrunc ip;;
       ino_mod ip (fun x => set_i_d (set_di_type 0 (i_d x)) x);;
       iupdate ip;;
       acquire_icache;;
       ino_mod ip (set_i_flags 0);;
       wakeup_inode ip
   else mret tt);;
  ino_mod ip (fun x => set_i_ref (i_ref x - 1) x);;
  release_icache.

Definition iunlockput (ip : nat) : K fsst unit :=
  iunlock (Some ip);;
  iput ip.

(** [struct stat] at address [st]. *)
Definition stati (ip : nat) (st : Z) : K fsst unit :=
  x ← ino ip;
  kmod (fun s =>
    let m := store32 (fs_mem s) (st + 4) (i_dev x) in
    let m := store32 m (st + 8) (i_inum x) in
    let m := store16 m st (di_type (i_d x)) in
    let m := store16 m (st + 12) (di_nlink (i_d x)) in
    let m := store32 m (st + 16) (di_size (i_d x)) in
    let m := store16 m (st + 24) (di_uid (i_d x)) in
    let m := store16 m (st + 26) (di_gid (i_d x)) in
    let m := store32 m (st + 20) (di_mode (i_d x)) in
    set_fs_mem m s).

(** [memmove(dst, src, n)] from one memory to another: between kernel or user memory and
    the data of a buffer, which do not overlap. *)
Definition blit (m : mem) (dst : Z) (d : mem) (src n : Z) : mem := fun a =>
  if (dst <=? a) && (a <? dst + n) then d (src + (a - dst)) else m a.

(** *** File contents, directories and path names *)

(** A row of [devsw]. *)
Record devsw := mkDevsw {
  dev_read : option (nat → Z → Z → K fsst Z);
  dev_write : option (nat → Z → Z → K fsst Z)
}.

(** [min(n - tot, BSIZE - off%BSIZE)]. *)
Definition chunk (n tot off : Z) : Z :=
  if n - tot <? BSIZE - off mod BSIZE then n - tot else BSIZE - off mod BSIZE.

(** The rounds of the copying loops, with the final test. *)
Definition io_fuel (n : Z) : nat := Z.to_nat (n / BSIZE + 3).

Fixpoint readi_loop (fuel : nat) (ip : nat) (dst off n tot : Z) : K fsst unit :=
  match fuel with
  | O => kout Diverge
  | S fuel' =>
      if tot <? n then
        x ← ino ip;
        b ← bmap ip (off / BSIZE);
        bp ← bread_fs (i_dev x) b;
        let m := chunk n tot off in
        d ← bdata bp;
        kmod (fun s => set_fs_mem (blit (fs_mem s) dst d (off mod BSIZE) m) s);;
        brelse_fs bp;;
        readi_loop fuel' ip (u32 (dst + m)) (u32 (off + m)) n (tot + m)
      else mret tt
  end.

(** [writei_loop] returns the final value of [off]. *)
Fixpoint writei_loop (fuel : nat) (ip : nat) (src off n tot : Z) : K fsst Z :=
  match fuel with
  | O => kout Diverge
  | S fuel' =>
      if tot <? n then
        x ← ino ip;
        b ← bmap ip (off / BSIZE);
        bp ← bread_fs (i_dev x) b;
        let m := chunk n tot off in
        d ← bdata bp;
        s ← kget;
        set_bdata bp (blit d (off mod BSIZE) (fs_mem s) src m);;
        log_write_buf bp;;
        brelse_fs bp;;
        writei_loop fuel' ip (u32 (src + m)) (u32 (off + m)) n (tot + m)
      else mret off
  end.

Section Files.
Variable devsw_table : list devsw.

(** The addresses of the local variables [struct dirent de] and [char name[DIRSIZ]]. *)
Variables de_at name_at : Z.

(** [devsw[major].read] and [devsw[major].write], null if [major] is out of range. *)
Definition dev_fun (major : Z) (f : devsw → option (nat → Z → Z → K fsst Z)) :
    option (nat → Z → Z → K fsst Z) :=
  if (major <? 0) || (major >=? NDEV) then None
  else devsw_table !! Z.to_nat major ≫= f.

Definition readi (ip : nat) (dst off n : Z) : K fsst Z :=
  x ← ino ip;
  if di_type (i_d x) =? T_DEV then
    match dev_fun (di_major (i_d x)) dev_read with
    | None => mret (-1)
    | Some f => f ip dst (s32 n)
    end
  else
    let size := di_size (i_d x) in
    if (off >? size) || (u32 (off + n) <? off) then mret (-1)
    else
      let n := if u32 (off + n) >? size then u32 (size - off) else n in
      readi_loop (io_fuel n) ip dst off n 0;;
      mret (s32 n).

Definition writei (ip : nat) (src off n : Z) : K fsst Z :=
  x ← ino ip;
  if di_type (i_d x) =? T_DEV then
    match dev_fun (di_major (i_d x)) dev_write with
    | None => mret (-1)
    | Some f => f ip src (s32 n)
    end
  else if (off >? di_size (i_d x)) || (u32 (off + n) <? off) then mret (-1)
  else if u32 (off + n) >? MAXFILE * BSIZE then mret (-1)
  else
    off ← writei_loop (io_fuel n) ip src off n 0;
    x ← ino ip;
    kwhen ((n >? 0) && (off >? di_size (i_d x)))
      (ino_mod ip (fun x => set_i_d (set_di_size off (i_d x)) x);;
       iupdate ip);;
    mret (s32 n).

Definition namecmp (m : mem) (s t : Z) : Z := strncmp m s t (Z.to_nat DIRSIZ).

(** The rounds of a loop over the entries of a directory, with the final test. *)
Definition dir_fuel (size : Z) : nat := Z.to_nat (size / SIZEOF_dirent + 2).

(** The result is the inode and the offset stored in [*poff]. *)
Fixpoint dirlookup_loop (fuel : nat) (dp : nat) (name off : Z) : K fsst (option (nat * Z)) :=
  match fuel with
  | O => kout Diverge
  | S fuel' =>
      x ← ino dp;
      if off <? di_size (i_d x) then
        r ← readi dp de_at off SIZEOF_dirent;
        if negb (r =? SIZEOF_dirent) then kpanic "dirlink read"
        else
          s ← kget;
          let inum := load16 (fs_mem s) de_at in
          if inum =? 0 then dirlookup_loop fuel' dp name (u32 (off + SIZEOF_dirent))
          else if namecmp (fs_mem s) name (de_at + 2) =? 0 then
            x ← ino dp;
            ip ← iget (i_dev x) inum;
            mret (Some (ip, off))
          else dirlookup_loop fuel' dp name (u32 (off + SIZEOF_dirent))
      else mret None
  end.

Definition dirlookup (dp : nat) (name : Z) : K fsst (option (nat * Z)) :=
  x ← ino dp;
  if negb (di_type (i_d x) =? T_DIR) then kpanic "dirlookup not DIR"
  else dirlookup_loop (dir_fuel (di_size (i_d x))) dp name 0.

(** The second loop of [dirlink]: the offset of an empty entry or of the end. *)
Fixpoint dirlink_loop (fuel : nat) (dp : nat) (off : Z) : K fsst Z :=
  match fuel with
  | O => kout Diverge
  | S fuel' =>
      x ← ino dp;
      if off <? di_size (i_d x) then
        r ← readi dp de_at off SIZEOF_dirent;
        if negb (r =? SIZEOF_dirent) then kpanic "dirlink read"
        else
          s ← kget;
          if load16 (fs_mem s) de_at =? 0 then mret off
          else dirlink_loop fuel' dp (off + SIZEOF_dirent)
      else mret off
  end.

Definition dirlink (dp : nat) (name inum : Z) : K fsst Z :=
  r ← dirlookup dp name;
  match r with
  | Some (ip, _) => iput ip;; mret (-1)
  | None =>
      x ← ino dp;
      off ← dirlink_loop (dir_fuel (di_size (i_d x))) dp 0;
      kmod (fun s => set_fs_mem (strncpy (fs_mem s) (de_at + 2) name (Z.to_nat DIRSIZ)) s);;
      kmod (fun s => set_fs_mem (store16 (fs_mem s) de_at inum) s);;
      r ← writei dp de_at off SIZEOF_dirent;
      if negb (r =? SIZEOF_dirent) then kpanic "dirlink" else mret 0
  end.

(** The loops of [skipelem] over slashes and over the bytes of an element. *)
Definition slash : Z := 47.

Fixpoint skip_slashes (fuel : nat) (m : mem) (path : Z) : outcome Z :=
  match fuel with
  | O => Diverge
  | S fuel' => if m path =? slash then skip_slashes fuel' m (path + 1) else Ok path
  end.

Fixpoint skip_name (fuel : nat) (m : mem) (path : Z) : outcome Z :=
  match fuel with
  | O => Diverge
  | S fuel' =>
      if negb (m path =? slash) && negb (m path =? 0) then skip_name fuel' m (path + 1)
      else Ok path
  end.

(** The new memory and the rest of the path, null if there is no element. *)
Definition skipelem (fuel : nat) (m : mem) (path name : Z) : outcome (mem * Z) :=
  path ← skip_slashes fuel m path;
  if m path =? 0 then Ok (m, 0)
  else
    let s := path in
    path ← skip_name fuel m path;
    let len := path - s in
    let m :=
      if len >=? DIRSIZ then memmove m name s DIRSIZ
      else mupd (memmove m name s len) (name + len) 0 in
    path ← skip_slashes fuel m path;
    Ok (m, path).

Fixpoint namex_loop (fuel : nat) (ip : nat) (path : Z) (nameiparent : bool) (name : Z) :
    K fsst (option nat) :=
  match fuel with
  | O => kout Diverge
  | S fuel' =>
      s ← kget;
      '(m, path) ← kout (skipelem (S fuel') (fs_mem s) path name);
      kmod (set_fs_mem m);;
      if negb (path =? 0) then
        ilock (Some ip);;
        x ← ino ip;
        if negb (di_type (i_d x) =? T_DIR) then iunlockput ip;; mret None
        else
          s ← kget;
          if nameiparent && (fs_mem s path =? 0) then
            iunlock (Some ip);;
            mret (Some ip)
          else
            r ← dirlookup ip name;
            match r with
            | None => iunlockput ip;; mret None
            | Some (next, _) =>
                iunlockput ip;;
                namex_loop fuel' next path nameiparent name
            end
      else if nameiparent then iput ip;; mret None
      else mret (Some ip)
  end.

Definition namex (fuel : nat) (path : Z) (nameiparent : bool) (name : Z) : K fsst (option nat) :=
  s ← kget;
  ip ← (if fs_mem s path =? slash then iget ROOTDEV ROOTINO else idup (fs_cwd s));
  namex_loop fuel ip path nameiparent name.

Definition namei (fuel : nat) (path : Z) : K fsst (option nat) :=
  namex fuel path false name_at.

Definition nameiparent (fuel : nat) (path name : Z) : K fsst (option nat) :=
  namex fuel path true name.
End Files.
