(* ===== verification/FsView.v ===== *)
(** * The file system on blocks

    The invariant [fs_ok] of the file system code inside a transaction, which views the
    disk as a function from block numbers to contents, the rules for reading and updating
    one block on it, and the block allocator: [balloc] and [bfree] of src/fs.c are correct
    operations on the set of blocks the bitmap marks. *)

From S2P Require Import Prelude Param KString Spinlock Bio Log LogCrash LogOps Fs.
Local Open Scope Z_scope.

(** ** Definitions *)

(** The first block after the boot block, super block, log, inodes and bitmap. *)
Definition data_start (sb : superblock) : Z := sb_bmapstart sb + sb_size sb / BPB + 1.

(** The order of the parts of the disk, see the comment of src/fs.h. *)
Record geometry (sb : superblock) : Prop := {
  gm_layout : layout (sb_logstart sb) (sb_nlog sb) (sb_size sb);
  gm_log : 2 ≤ sb_logstart sb;
  gm_ninodes : 0 ≤ sb_ninodes sb;
  gm_inodes : sb_logstart sb + sb_nlog sb ≤ sb_inodestart sb;
  gm_bmap : sb_inodestart sb + sb_ninodes sb / IPB < sb_bmapstart sb;
  gm_data : data_start sb < sb_size sb
}.

(** File system code inside a transaction: [vw] is the contents of the blocks, [dk] the
    disk, [held] the buffers in use, [bl] the blocks written by the transaction. *)
Record fs_ok (sb : superblock) (vw dk : Z → mem) (wr : list (Z * mem)) (held : gmap Z nat)
    (bl : list Z) (o : Z) (s : fsst) : Prop := {
  fo_geo : geometry sb;
  fo_log : logst_ok (sb_logstart sb) (sb_nlog sb) (sb_size sb) vw dk wr held bl o (fs_log s);
  fo_sb : fs_sb s = sb;
  fo_super : superblock_of (vw 1) = sb;
  fo_lock : locked (ic_lock s) = 0
}.

Arguments fo_geo {sb vw dk wr held bl o s} _.
Arguments fo_log {sb vw dk wr held bl o s} _.
Arguments fo_sb {sb vw dk wr held bl o s} _.
Arguments fo_super {sb vw dk wr held bl o s} _.
Arguments fo_lock {sb vw dk wr held bl o s} _.

(** A buffer can be found for one more block. *)
Definition buf_room (held : gmap Z nat) (bl : list Z) : Prop :=
  (length bl + size held < NBUF)%nat.

(** The bitmap. *)
Definition used (sb : superblock) (vw : Z → mem) (b : Z) : bool :=
  negb (bit_of (vw (BBLOCK b sb)) (b mod BPB) =? 0).

Definition free (sb : superblock) (vw : Z → mem) (b : Z) : Prop :=
  0 ≤ b < sb_size sb ∧ used sb vw b = false.

(** The view after [b] has been allocated, and after it has been freed. *)
Definition alloc_view (sb : superblock) (vw : Z → mem) (b : Z) : Z → mem :=
  let vw' := <[BBLOCK b sb := bit_on (vw (BBLOCK b sb)) (b mod BPB)]> vw in
  <[b := memset (vw' b) 0 0 BSIZE]> vw'.
Definition free_view (sb : superblock) (vw : Z → mem) (b : Z) : Z → mem :=
  <[BBLOCK b sb := bit_off (vw (BBLOCK b sb)) (b mod BPB)]> vw.

(** The blocks before the data blocks are marked. *)
Definition meta_used (sb : superblock) (vw : Z → mem) : Prop :=
  ∀ b, 0 ≤ b < data_start sb → used sb vw b = true.

(** ** Lemmas *)

(** *** Blocks in transactions *)

Section Blocks.
Context {sb : superblock} {vw dk : Z → mem} {wr : list (Z * mem)} {held : gmap Z nat}.
Context {bl : list Z} {o : Z} {s : fsst}.
Hypothesis H : fs_ok sb vw dk wr held bl o s.

Lemma fs_ok_log vw' held' bl' l :
  logst_ok (sb_logstart sb) (sb_nlog sb) (sb_size sb) vw' dk wr held' bl' o l →
  vw' 1 = vw 1 → fs_ok sb vw' dk wr held' bl' o (set_fs_log l s).
Proof using H. intros Hl E. destruct H. split; try done. by rewrite E. Qed.

Lemma onlog_rule {A : Type} (m : K logst A) (Q : A → fsst → Prop) :
  runs m (fs_log s) (λ a l, Q a (set_fs_log l s)) → runs (onlog m) s Q.
Proof using. apply runs_zoom. Qed.

Lemma oncache_rule {A : Type} (m : K bio A) (Q : A → fsst → Prop) :
  runs m (ls_bio (fs_log s)) (λ a c, Q a (set_fs_log (set_ls_bio c (fs_log s)) s)) →
  runs (oncache m) s Q.
Proof using. intros HQ. by apply onlog_rule, runs_zoom. Qed.

Lemma buf_room_size :
  buf_room held bl → (size (dom held ∪ list_to_set bl : gset Z) < NBUF)%nat.
Proof using H.
  unfold buf_room. intros Hroom. rewrite size_union_alt, size_dom.
  assert (size (list_to_set bl : gset Z) = length bl) as E.
  { apply size_list_to_set, (lb_nodup _ _ _ _ (lo_bl _ _ _ _ _ _ _ _ _ _ (fo_log H))). }
  assert (size (list_to_set bl ∖ dom held : gset Z) ≤ length bl)%nat
    by (rewrite <- E; apply subseteq_size; set_solver).
  lia.
Qed.

Lemma fs_bread_rule n (Q : nat → fsst → Prop) :
  held !! n = None → buf_room held bl → n < sb_size sb →
  (∀ i l, n ∈ bl ∨ vw n = dk n →
     fs_ok sb vw dk wr (<[n := i]> held) bl o (set_fs_log l s) → Q i (set_fs_log l s)) →
  runs (bread_fs 1 n) s Q.
Proof using H.
  intros Hn Hroom Hlt HQ. pose proof (fo_log H) as HL. pose proof HL as [].
  apply oncache_rule. eapply (brep_bread lo_brep); [done | | done |].
  - right. by apply buf_room_size.
  - intros i c Hc. apply HQ; [|apply fs_ok_log; [by split | done]].
    destruct (decide (n ∈ bl)); [by left|]. right. apply (brep_clean lo_brep); [set_solver | done].
Qed.

Lemma fs_brelse_rule n i (Q : unit → fsst → Prop) :
  held !! n = Some i → (n ∈ bl ∨ vw n = dk n) →
  (∀ l, fs_ok sb vw dk wr (delete n held) bl o (set_fs_log l s) → Q tt (set_fs_log l s)) →
  runs (brelse_fs i) s Q.
Proof using H.
  intros Hn Hc HQ. pose proof (fo_log H) as []. apply oncache_rule.
  eapply (brep_brelse lo_brep n); [done | set_solver |].
  intros c Hc'. apply HQ, fs_ok_log; [by split | done].
Qed.

Lemma fs_bdata_rule n i (Q : mem → fsst → Prop) :
  held !! n = Some i → Q (vw n) s → runs (bdata i) s Q.
Proof using H.
  intros Hn HQ. pose proof (fo_log H) as []. apply oncache_rule.
  apply runs_bind, (brep_data lo_brep n); [done|]. intros b -> _. apply runs_ret.
  by destruct s as [[] ? ? ? ? ? ?].
Qed.

Lemma fs_set_rule n i d (Q : unit → fsst → Prop) :
  held !! n = Some i → n ≠ 1 →
  (∀ l, fs_ok sb (<[n := d]> vw) dk wr held bl o (set_fs_log l s) → Q tt (set_fs_log l s)) →
  runs (set_bdata i d) s Q.
Proof using H.
  intros Hn H1 HQ. pose proof (fo_log H) as []. apply oncache_rule.
  apply (brep_set lo_brep n); [done|]. intros c Hc. apply HQ, fs_ok_log; [by split|].
  by rewrite fn_lookup_insert_ne.
Qed.

Lemma fs_log_write_rule n i (Q : unit → fsst → Prop) :
  held !! n = Some i → Z.of_nat (length bl) < sb_nlog sb - 1 → 1 ≤ o →
  datab (sb_logstart sb) (sb_nlog sb) (sb_size sb) n →
  (∀ l, fs_ok sb vw dk wr held (log_record bl n) o (set_fs_log l s) → Q tt (set_fs_log l s)) →
  runs (log_write_buf i) s Q.
Proof using H.
  intros Hn Hlen Ho Hd HQ. apply onlog_rule.
  apply (log_write_rule (fo_log H) n); [done..|].
  intros l Hl. by apply HQ, fs_ok_log.
Qed.
End Blocks.

(** *** The bitmap *)

Lemma one_bit r k : 0 ≤ r → 0 ≤ k → Z.testbit (Z.shiftl 1 r) k = (r =? k).
Proof. intros. rewrite Z.shiftl_1_l. by apply Z.pow2_bits_eqb. Qed.

Lemma bit_of_test d i : (bit_of d i =? 0) = negb (Z.testbit (d (i / 8)) (i mod 8)).
Proof.
  pose proof (Z.mod_pos_bound i 8 ltac:(lia)) as Hr. unfold bit_of.
  destruct (Z.testbit (d (i / 8)) (i mod 8)) eqn:E; cbn [negb].
  - apply Z.eqb_neq. intros E0. apply (f_equal (λ x, Z.testbit x (i mod 8))) in E0.
    by rewrite Z.land_spec, E, one_bit, Z.eqb_refl, Z.bits_0 in E0 by lia.
  - apply Z.eqb_eq, Z.bits_inj'. intros k Hk. rewrite Z.land_spec, Z.bits_0, one_bit by lia.
    destruct (Z.eqb_spec (i mod 8) k) as [<-|]; [by rewrite E | apply andb_false_r].
Qed.

Lemma same_byte i j : i / 8 = j / 8 → (i mod 8 =? j mod 8) = (i =? j).
Proof. intros E. destruct (Z.eqb_spec i j), (Z.eqb_spec (i mod 8) (j mod 8)); try done; zmod_lia. Qed.

Lemma bit_on_test d i j :
  (bit_of (bit_on d i) j =? 0) = negb (i =? j) && (bit_of d j =? 0).
Proof.
  pose proof (Z.mod_pos_bound j 8 ltac:(lia)). pose proof (Z.mod_pos_bound i 8 ltac:(lia)).
  rewrite !bit_of_test. unfold bit_on, mupd. destruct (Z.eqb_spec (j / 8) (i / 8)) as [E|E].
  - rewrite u8_testbit, Z.lor_spec, one_bit, E, same_byte by (lia || done).
    destruct (i =? j), (Z.testbit _ _); done.
  - destruct (Z.eqb_spec i j) as [->|]; done.
Qed.

Lemma bit_off_test d i j :
  (bit_of (bit_off d i) j =? 0) = (i =? j) || (bit_of d j =? 0).
Proof.
  pose proof (Z.mod_pos_bound j 8 ltac:(lia)). pose proof (Z.mod_pos_bound i 8 ltac:(lia)).
  rewrite !bit_of_test. unfold bit_off, mupd. destruct (Z.eqb_spec (j / 8) (i / 8)) as [E|E].
  - rewrite u8_testbit, Z.land_spec, Z.lnot_spec, one_bit, E, same_byte by (lia || done).
    destruct (i =? j), (Z.testbit _ _); done.
  - destruct (Z.eqb_spec i j) as [->|]; done.
Qed.

Section Geometry.
Context {sb : superblock}.
Hypothesis G : geometry sb.

Lemma BBLOCK_eq b : 0 ≤ b < sb_size sb → BBLOCK b sb = b / BPB + sb_bmapstart sb.
Proof using G.
  intros Hb. destruct G as [[] ? ? ? ? Hd]. unfold data_start, BBLOCK, BPB, IPB, BSIZE, SIZEOF_dinode in *.
  apply u32_small. change (512 * 8) with 4096 in *. change (512 / 64) with 8 in *. zmod_lia.
Qed.

Lemma BBLOCK_range b : 0 ≤ b < sb_size sb → sb_bmapstart sb ≤ BBLOCK b sb < data_start sb.
Proof using G.
  intros Hb. rewrite BBLOCK_eq by done. unfold data_start, BPB, BSIZE. change (512 * 8) with 4096. zmod_lia.
Qed.

(** The blocks that follow the log. *)
Lemma after_log b :
  sb_inodestart sb ≤ b < sb_size sb →
  datab (sb_logstart sb) (sb_nlog sb) (sb_size sb) b ∧ b ≠ 1.
Proof using G. intros Hb. destruct G as [[] ? ? ? ? Hd]. unfold datab. lia. Qed.

Lemma inodes_before_bmap : sb_inodestart sb < sb_bmapstart sb.
Proof using G.
  destruct G. pose proof (Z.div_pos (sb_ninodes sb) IPB gm_ninodes0 ltac:(done)). lia.
Qed.

Lemma used_eq vw b :
  0 ≤ b < sb_size sb → used sb vw b = negb (bit_of (vw (b / BPB + sb_bmapstart sb)) (b mod BPB) =? 0).
Proof using G. intros Hb. unfold used. by rewrite BBLOCK_eq. Qed.

Lemma same_bit b x :
  b / BPB + sb_bmapstart sb = x / BPB + sb_bmapstart sb → (b mod BPB =? x mod BPB) = (b =? x).
Proof using.
  intros E. unfold BPB, BSIZE in *. change (512 * 8) with 4096 in *.
  destruct (Z.eqb_spec b x), (Z.eqb_spec (b mod 4096) (x mod 4096)); try done; zmod_lia.
Qed.

Lemma geo_order :
  2 ≤ sb_inodestart sb < sb_bmapstart sb ∧
  sb_bmapstart sb < data_start sb < sb_size sb ∧ sb_size sb < 2147483648.
Proof using G.
  pose proof inodes_before_bmap. destruct G as [[] ? ? ? ? Hd].
  pose proof (BBLOCK_range 0 ltac:(lia)). lia.
Qed.

(** The two operations on the set of used blocks. *)
Lemma used_alloc vw b x :
  data_start sb ≤ b < sb_size sb → 0 ≤ x < sb_size sb →
  used sb (alloc_view sb vw b) x = (b =? x) || used sb vw x.
Proof using G.
  intros Hb Hx. assert (0 ≤ b < sb_size sb) as Hb0.
  { pose proof geo_order. lia. }
  rewrite !used_eq by done. unfold alloc_view. pose proof (BBLOCK_range x Hx) as Hr.
  rewrite BBLOCK_eq in * by done. rewrite fn_lookup_insert_ne by lia.
  destruct (decide (b / BPB + sb_bmapstart sb = x / BPB + sb_bmapstart sb)) as [E|E].
  - rewrite <- E, fn_lookup_insert, bit_on_test, (same_bit b x E), negb_andb, negb_involutive. done.
  - rewrite fn_lookup_insert_ne by done. destruct (Z.eqb_spec b x) as [->|]; done.
Qed.

Lemma used_free vw b x :
  0 ≤ b < sb_size sb → 0 ≤ x < sb_size sb →
  used sb (free_view sb vw b) x = negb (b =? x) && used sb vw x.
Proof using G.
  intros Hb Hx. rewrite !used_eq by done. unfold free_view. rewrite BBLOCK_eq by done.
  destruct (decide (b / BPB + sb_bmapstart sb = x / BPB + sb_bmapstart sb)) as [E|E].
  - rewrite <- E, fn_lookup_insert, bit_off_test, (same_bit b x E), negb_orb. done.
  - rewrite fn_lookup_insert_ne by done. destruct (Z.eqb_spec b x) as [->|]; done.
Qed.
End Geometry.

(** *** [balloc] and [bfree] *)

Lemma runs_get_sb s (Q : superblock → fsst → Prop) : Q (fs_sb s) s → runs get_sb s Q.
Proof. intros HQ. by apply runs_bind, runs_get, runs_ret. Qed.

Lemma length_log_record bl b :
  (length bl ≤ length (log_record bl b) ≤ S (length bl))%nat.
Proof. unfold log_record. case_decide; rewrite ?length_app; cbn; lia. Qed.

Lemma log_record_in bl b : b ∈ log_record bl b.
Proof. unfold log_record. case_decide; set_solver. Qed.

Lemma log_record_id bl b : b ∈ bl → log_record bl b = bl.
Proof. intros Hb. unfold log_record. by rewrite decide_True. Qed.

Lemma log_record_incl bl b x : x ∈ bl → x ∈ log_record bl b.
Proof. unfold log_record. case_decide; set_solver. Qed.

Lemma size_held_insert (held : gmap Z nat) n i :
  held !! n = None → size (<[n := i]> held) = S (size held).
Proof. apply map_size_insert_None. Qed.

(** The end of an update of the block [n]. *)
Lemma fs_store_rule sb vw dk wr held bl o s n i d (Q : unit → fsst → Prop) :
  fs_ok sb vw dk wr (<[n := i]> held) bl o s → held !! n = None →
  Z.of_nat (length bl) < sb_nlog sb - 1 → 1 ≤ o → sb_inodestart sb ≤ n < sb_size sb →
  (∀ l, fs_ok sb (<[n := d]> vw) dk wr held (log_record bl n) o (set_fs_log l s) →
     Q tt (set_fs_log l s)) →
  runs (set_bdata i d;; log_write_buf i;; brelse_fs i) s Q.
Proof.
  intros H Hn Hlen Ho Hr HQ. pose proof (after_log (fo_geo H) n Hr) as [Hd H1].
  apply runs_bind, (fs_set_rule H n); [apply lookup_insert_eq | done |]. intros l1 H1'.
  apply runs_bind, (fs_log_write_rule H1' n); [apply lookup_insert_eq | done..|]. intros l2 H2.
  apply (fs_brelse_rule H2 n); [apply lookup_insert_eq | left; apply log_record_in |].
  intros l3 H3. rewrite delete_insert_id in H3 by done. by apply HQ.
Qed.

(** The same before further code. *)
Lemma fs_store_then {A : Type} (m : K fsst A) i d s (Q : A → fsst → Prop) :
  runs (set_bdata i d;; log_write_buf i;; brelse_fs i) s (λ _ s', runs m s' Q) →
  runs (set_bdata i d;; log_write_buf i;; brelse_fs i;; m) s Q.
Proof.
  intros (u & s' & E & HQ). apply K_bind_inv in E as ([] & s1 & E1 & E).
  apply K_bind_inv in E as ([] & s2 & E2 & E3). destruct u.
  do 3 (apply runs_bind; eapply runs_ok; [done|]). done.
Qed.

(** The rounds of [balloc]. *)
Lemma map_rounds_elem sb b : b ∈ map_rounds (sb_size sb) → b mod BPB = 0 ∧ 0 ≤ b < sb_size sb.
Proof.
  intros (k & -> & Hk)%list_elem_of_fmap. apply elem_of_seq in Hk.
  unfold BPB, BSIZE in *. change (512 * 8) with 4096 in *. zmod_lia.
Qed.

Lemma bit_rounds_elem sb b bi :
  bi ∈ bit_rounds b (sb_size sb) → 0 ≤ bi < BPB ∧ b + bi < sb_size sb.
Proof. intros (k & -> & Hk)%list_elem_of_fmap. apply elem_of_seq in Hk. lia. Qed.

Lemma round_of_block sb b :
  0 ≤ b < sb_size sb →
  b / BPB * BPB ∈ map_rounds (sb_size sb) ∧ b mod BPB ∈ bit_rounds (b / BPB * BPB) (sb_size sb).
Proof.
  unfold map_rounds, bit_rounds, BPB, BSIZE. change (512 * 8) with 4096. intros Hb. split.
  - apply list_elem_of_fmap. exists (Z.to_nat (b / 4096)). rewrite elem_of_seq. zmod_lia.
  - apply list_elem_of_fmap. exists (Z.to_nat (b mod 4096)). rewrite elem_of_seq. zmod_lia.
Qed.

Lemma round_block sb b bi :
  geometry sb → b mod BPB = 0 → 0 ≤ bi < BPB → 0 ≤ b → b + bi < sb_size sb →
  BBLOCK (b + bi) sb = BBLOCK b sb ∧ (b + bi) mod BPB = bi.
Proof.
  intros G Hb Hbi H0 Hlt. rewrite !(BBLOCK_eq G) by lia.
  unfold BPB, BSIZE in *. change (512 * 8) with 4096 in *. zmod_lia.
Qed.

(** A found bit is that of a free block. *)
Lemma round_free sb vw b bi :
  geometry sb → b ∈ map_rounds (sb_size sb) →
  List.find (λ bi, bit_of (vw (BBLOCK b sb)) bi =? 0) (bit_rounds b (sb_size sb)) = Some bi →
  free sb vw (b + bi) ∧ BBLOCK (b + bi) sb = BBLOCK b sb ∧ (b + bi) mod BPB = bi.
Proof.
  intros G [Hm H0]%map_rounds_elem Hf. apply find_some in Hf as [Hin Hbit].
  apply list_elem_of_In, bit_rounds_elem in Hin as [Hbi Hlt].
  destruct (round_block sb b bi G Hm Hbi ltac:(lia) Hlt) as [E1 E2].
  split; [|done]. split; [lia|]. unfold used. rewrite E1, E2. by rewrite Hbit.
Qed.

(** A round without success has only used blocks. *)
Lemma round_used sb vw b x :
  geometry sb → 0 ≤ x < sb_size sb → b = x / BPB * BPB →
  List.find (λ bi, bit_of (vw (BBLOCK b sb)) bi =? 0) (bit_rounds b (sb_size sb)) = None →
  used sb vw x = true.
Proof.
  intros G Hx -> Hf. destruct (round_of_block sb x Hx) as [_ Hin].
  pose proof (find_none _ _ Hf _ (proj1 (list_elem_of_In _ _) Hin)) as Hbit. cbn in Hbit.
  rewrite (used_eq G) by done. rewrite (BBLOCK_eq G), Z.div_mul in Hbit; [by rewrite Hbit | done |].
  unfold BPB, BSIZE. change (512 * 8) with 4096. zmod_lia.
Qed.

Section Alloc.
Context {sb : superblock} {vw dk : Z → mem} {wr : list (Z * mem)} {held : gmap Z nat}.
Context {bl : list Z} {o : Z} {s : fsst}.
Hypothesis H : fs_ok sb vw dk wr held bl o s.
Hypothesis Ho : 1 ≤ o.

Lemma bzero_rule b (Q : unit → fsst → Prop) :
  data_start sb ≤ b < sb_size sb → held !! b = None → buf_room held bl →
  Z.of_nat (length bl) < sb_nlog sb - 1 →
  (∀ l, fs_ok sb (<[b := memset (vw b) 0 0 BSIZE]> vw) dk wr held (log_record bl b) o
     (set_fs_log l s) → Q tt (set_fs_log l s)) →
  runs (bzero 1 b) s Q.
Proof using H Ho.
  intros Hb Hn Hroom Hlen HQ. pose proof (fo_geo H) as G.
  pose proof (geo_order G). unfold bzero. rewrite (u32_small b) by lia.
  apply runs_bind, (fs_bread_rule H); [done | done | lia |]. intros i l _ Hr.
  apply runs_bind, (fs_bdata_rule Hr b); [apply lookup_insert_eq|].
  apply (fs_store_rule _ _ _ _ _ _ _ _ _ _ _ _ Hr); [done.. | lia |].
  intros l2 Hs. by apply HQ.
Qed.

End Alloc.

Section Balloc.
Context {sb : superblock} {vw dk : Z → mem} {wr : list (Z * mem)} {held : gmap Z nat}.
Context {bl : list Z} {o : Z}.
Hypothesis Ho : 1 ≤ o.

(** A round of [balloc] that finds a free block. *)
Lemma balloc_found_rule b i (Q : option Z → fsst → Prop) (n := BBLOCK b sb) :
  free sb vw b → data_start sb ≤ b → held !! n = None → held !! b = None →
  (length bl + size held + 1 < NBUF)%nat → Z.of_nat (length bl) + 1 < sb_nlog sb - 1 →
  ∀ s1, fs_ok sb vw dk wr (<[n := i]> held) bl o s1 →
  (∀ l, fs_ok sb (alloc_view sb vw b) dk wr held (log_record (log_record bl n) b) o
     (set_fs_log l s1) → Q (Some b) (set_fs_log l s1)) →
  runs (set_bdata i (bit_on (vw n) (b mod BPB));; log_write_buf i;; brelse_fs i;;
        bzero 1 b;; mret (Some b)) s1 Q.
Proof using Ho.
  intros [Hb Hu] Hds Hn Hhb Hroom Hlen s1 H1 HQ. pose proof (fo_geo H1) as G.
  pose proof (geo_order G) as Hg. pose proof (BBLOCK_range G b Hb) as Hbr.
  pose proof (length_log_record bl n) as Hlr.
  apply fs_store_then, (fs_store_rule _ _ _ _ _ _ _ _ _ _ _ _ H1); [done | lia | done | subst n; lia |].
  intros l2 H2. apply runs_bind, (bzero_rule H2 Ho); [lia | done | unfold buf_room; lia | lia |].
  intros l3 H3. by apply runs_ret, HQ.
Qed.

Lemma balloc_rule s (Q : Z → fsst → Prop) :
  fs_ok sb vw dk wr held bl o s → meta_used sb vw → (∃ b, free sb vw b) →
  (∀ n i, held !! n = Some i → data_start sb ≤ n ∧ used sb vw n = true) →
  (length bl + size held + 1 < NBUF)%nat → Z.of_nat (length bl) + 1 < sb_nlog sb - 1 →
  (∀ b l, free sb vw b → data_start sb ≤ b →
     fs_ok sb (alloc_view sb vw b) dk wr held (log_record (log_record bl (BBLOCK b sb)) b) o
       (set_fs_log l s) → Q b (set_fs_log l s)) →
  runs (balloc 1) s Q.
Proof using Ho.
  intros H Hmeta [x [Hx Hfree]] Hheld Hroom Hlen HQ. pose proof (fo_geo H) as G.
  apply runs_bind, runs_get_sb. rewrite (fo_sb H). apply runs_bind.
  assert (Hbit : ∀ b, 0 ≤ b < sb_size sb → held !! BBLOCK b sb = None).
  { intros b Hb. pose proof (BBLOCK_range G b Hb). destruct (held !! _) as [i|] eqn:E; [|done].
    destruct (Hheld _ _ E). lia. }
  apply (runs_kfind_inv _ _
    (λ s', ∃ l, s' = set_fs_log l s ∧ fs_ok sb vw dk wr held bl o s')
    (λ b, ∀ y, 0 ≤ y < sb_size sb → b = y / BPB * BPB → used sb vw y = true)).
  - intros b s' Hb (l & -> & H'). pose proof (map_rounds_elem sb b Hb) as [Hm Hr].
    apply runs_bind, runs_get_sb. rewrite (fo_sb H').
    apply runs_bind, (fs_bread_rule H'); [auto | unfold buf_room; lia | |].
    { pose proof (BBLOCK_range G b Hr). pose proof (geo_order G). lia. }
    intros i l1 Hclean H1. apply runs_bind, (fs_bdata_rule H1 (BBLOCK b sb)); [apply lookup_insert_eq|].
    destruct (List.find _ _) as [bi|] eqn:Hf.
    + destruct (round_free sb vw b bi G Hb Hf) as (Hfr & E1 & E2). rewrite <- E1 in H1.
      replace (bit_on (vw (BBLOCK b sb)) bi) with (bit_on (vw (BBLOCK (b + bi) sb)) ((b + bi) mod BPB)) by congruence.
      assert (data_start sb ≤ b + bi).
      { destruct (Z.le_gt_cases (data_start sb) (b + bi)); [done|]. destruct Hfr as [? Hu].
        rewrite Hmeta in Hu by lia. done. }
      apply balloc_found_rule; [done | done | rewrite E1; auto | | lia | lia | done |].
      { destruct (held !! (b + bi)) as [j|] eqn:E; [|done]. destruct (Hheld _ _ E) as [_ Hu].
        destruct Hfr as [_ Hu']. congruence. }
      intros l2 H2. by apply runs_ret, HQ.
    + apply runs_bind, (fs_brelse_rule H1 (BBLOCK b sb)); [apply lookup_insert_eq | done |].
      intros l2 H2. rewrite delete_insert_id in H2 by auto. apply runs_ret. split; [by exists l2|].
      intros y Hy Eb. by apply (round_used sb vw b y).
  - intros s' _ Hall. exfalso. destruct (round_of_block sb x Hx) as [Hin _].
    rewrite (Hall _ Hin x Hx eq_refl) in Hfree. done.
  - exists (fs_log s). split; [|done]. by destruct s.
Qed.
End Balloc.

Lemma readsb_fs_rule sb vw dk wr held bl o s (Q : unit → fsst → Prop) :
  fs_ok sb vw dk wr held bl o s → held !! 1 = None → buf_room held bl →
  (∀ l, fs_ok sb vw dk wr held bl o (set_fs_log l s) → Q tt (set_fs_log l s)) →
  runs (readsb_fs 1) s Q.
Proof.
  intros H Hn Hroom HQ. pose proof (geo_order (fo_geo H)) as Hg.
  pose proof (fo_log H) as []. unfold readsb_fs. change (u32 1) with 1.
  apply runs_bind, oncache_rule.
  apply (readsb_rule _ _ _ _ _ _ _ _ lo_brep Hn); [right; by apply (buf_room_size H) | lia |].
  intros c Hc. rewrite (fo_super H). apply runs_mod.
  set (l := set_ls_bio c (fs_log s)).
  assert (set_fs_sb sb (set_fs_log l s) = set_fs_log l s) as ->.
  { unfold set_fs_sb, set_fs_log. cbn. by rewrite (fo_sb H). }
  apply HQ, (fs_ok_log H); [by split | done].
Qed.

Lemma bfree_rule sb vw dk wr held bl o s b (Q : unit → fsst → Prop) :
  fs_ok sb vw dk wr held bl o s → 1 ≤ o → 0 ≤ b < sb_size sb → used sb vw b = true →
  (∀ n, n ∈ dom held → data_start sb ≤ n) → buf_room held bl →
  Z.of_nat (length bl) < sb_nlog sb - 1 →
  (∀ l, fs_ok sb (free_view sb vw b) dk wr held (log_record bl (BBLOCK b sb)) o
     (set_fs_log l s) → Q tt (set_fs_log l s)) →
  runs (bfree 1 b) s Q.
Proof.
  intros H Ho Hb Hu Hheld Hroom Hlen HQ. pose proof (geo_order (fo_geo H)) as Hg.
  pose proof (BBLOCK_range (fo_geo H) b Hb) as Hr.
  assert (Hnone : ∀ n, n < data_start sb → held !! n = None).
  { intros n Hn. apply not_elem_of_dom. intros Hin. apply Hheld in Hin. lia. }
  apply runs_bind, (readsb_fs_rule _ _ _ _ _ _ _ _ _ H); [apply Hnone; lia | done |]. intros l1 H1.
  apply runs_bind, runs_get_sb. rewrite (fo_sb H1). change (u32 1) with 1.
  apply runs_bind, (fs_bread_rule H1); [apply Hnone; lia | done | lia |]. intros i l2 _ H2.
  apply runs_bind, (fs_bdata_rule H2 (BBLOCK b sb)); [apply lookup_insert_eq|].
  cbv zeta. unfold used in Hu. destruct (bit_of _ _ =? 0); [done|].
  apply (fs_store_rule _ _ _ _ _ _ _ _ _ _ _ _ H2); [apply Hnone; lia | done | done | lia |].
  intros l3 H3. by apply HQ.
Qed.

(** Freeing a block that is not in use panics. *)
Lemma bfree_free_panics sb vw dk wr held bl o s b :
  fs_ok sb vw dk wr held bl o s → free sb vw b → (∀ n, n ∈ dom held → data_start sb ≤ n) →
  buf_room held bl → bfree 1 b s = Panic "freeing free block".
Proof.
  intros H [Hb Hu] Hheld Hroom. pose proof (geo_order (fo_geo H)) as Hg.
  pose proof (BBLOCK_range (fo_geo H) b Hb) as Hr.
  assert (Hnone : ∀ n, n < data_start sb → held !! n = None).
  { intros n Hn. apply not_elem_of_dom. intros Hin. apply Hheld in Hin. lia. }
  assert (R1 : runs (readsb_fs 1) s (λ _ s1, fs_ok sb vw dk wr held bl o s1))
    by (apply (readsb_fs_rule _ _ _ _ _ _ _ _ _ H); [apply Hnone; lia | done..]).
  destruct R1 as ([] & s1 & E1 & H1). unfold bfree. rewrite (K_bind_ok _ _ _ _ _ E1).
  rewrite (K_bind_ok get_sb _ _ (fs_sb s1) s1) by done. rewrite (fo_sb H1). change (u32 1) with 1.
  assert (R2 : runs (bread_fs 1 (BBLOCK b sb)) s1 (λ i s2,
    fs_ok sb vw dk wr (<[BBLOCK b sb := i]> held) bl o s2)).
  { apply (fs_bread_rule H1); [apply Hnone; lia | done | lia |]. intros i l2 _ H2. done. }
  destruct R2 as (i & s2 & E2 & H2). rewrite (K_bind_ok _ _ _ _ _ E2).
  assert (R3 : runs (bdata i) s2 (λ d s3, d = vw (BBLOCK b sb) ∧ s3 = s2))
    by (apply (fs_bdata_rule H2 (BBLOCK b sb)); [apply lookup_insert_eq | done]).
  destruct R3 as (d & s3 & E3 & -> & ->). rewrite (K_bind_ok _ _ _ _ _ E3).
  cbv zeta. unfold used in Hu. by destruct (bit_of _ _ =? 0).
Qed.

(** ** Theorems *)

(** [balloc] returns a data block that was free, marks exactly it as used and zeroes
    it; no other block changes but the bitmap block. *)
Theorem balloc_correct sb vw dk wr bl o s :
  fs_ok sb vw dk wr ∅ bl o s → 1 ≤ o → meta_used sb vw → (∃ b, free sb vw b) →
  Z.of_nat (length bl) + 1 < sb_nlog sb - 1 →
  ∃ b s' vw' bl', balloc 1 s = Ok (b, s') ∧ fs_ok sb vw' dk wr ∅ bl' o s' ∧
    free sb vw b ∧ data_start sb ≤ b ∧
    (∀ x, 0 ≤ x < sb_size sb → used sb vw' x = (b =? x) || used sb vw x) ∧
    (∀ a, 0 ≤ a < BSIZE → vw' b a = 0) ∧
    (∀ x, x ≠ b → x ≠ BBLOCK b sb → vw' x = vw x).
Proof.
  intros H Ho Hm Hex Hlen. pose proof (fo_geo H) as G.
  pose proof (ly_nlog _ _ _ (gm_layout _ G)) as Hnlog. unfold LOGSIZE, MAXOPBLOCKS in Hnlog.
  assert (R : runs (balloc 1) s (λ b s', free sb vw b ∧ data_start sb ≤ b ∧
    ∃ bl', fs_ok sb (alloc_view sb vw b) dk wr ∅ bl' o s')).
  { apply (balloc_rule Ho _ _ H Hm Hex).
    - intros n i Hn. by rewrite lookup_empty in Hn.
    - rewrite map_size_empty. unfold NBUF. lia.
    - lia.
    - intros b l Hb Hds H'. eauto. }
  destruct R as (b & s' & E & Hb & Hds & bl' & H'). exists b, s', (alloc_view sb vw b), bl'.
  split_and!; [done.. | | |].
  - intros x Hx. apply (used_alloc G); [destruct Hb; lia | done].
  - intros a Ha. unfold alloc_view. rewrite fn_lookup_insert, memset_lookup by done.
    destruct (Z.leb_spec 0 a), (Z.ltb_spec a (0 + BSIZE)); lia || done.
  - intros x Hx1 Hx2. unfold alloc_view. by rewrite !fn_lookup_insert_ne by done.
Qed.

(** [bfree] of a block in use clears exactly its mark and changes no block but the
    bitmap block; of a block that is free it panics. *)
Theorem bfree_correct sb vw dk wr bl o s b :
  fs_ok sb vw dk wr ∅ bl o s → 1 ≤ o → 0 ≤ b < sb_size sb →
  Z.of_nat (length bl) < sb_nlog sb - 1 →
  if used sb vw b then
    ∃ s' vw' bl', bfree 1 b s = Ok (tt, s') ∧ fs_ok sb vw' dk wr ∅ bl' o s' ∧
      (∀ x, 0 ≤ x < sb_size sb → used sb vw' x = negb (b =? x) && used sb vw x) ∧
      (∀ x, x ≠ BBLOCK b sb → vw' x = vw x)
  else bfree 1 b s = Panic "freeing free block".
Proof.
  intros H Ho Hb Hlen. pose proof (fo_geo H) as G.
  pose proof (ly_nlog _ _ _ (gm_layout _ G)) as Hnlog. unfold LOGSIZE, MAXOPBLOCKS in Hnlog.
  assert (Hroom : buf_room ∅ bl) by (unfold buf_room, NBUF; rewrite map_size_empty; lia).
  assert (Hheld : ∀ n, n ∈ dom (∅ : gmap Z nat) → data_start sb ≤ n) by set_solver.
  destruct (used sb vw b) eqn:Hu; [|by eapply bfree_free_panics].
  assert (R : runs (bfree 1 b) s (λ _ s', ∃ bl', fs_ok sb (free_view sb vw b) dk wr ∅ bl' o s')).
  { eapply bfree_rule; [done..|]. intros l H'. eauto. }
  destruct R as ([] & s' & E & bl' & H'). exists s', (free_view sb vw b), bl'. split_and!; [done..| |].
  - intros x Hx. by apply (used_free G).
  - intros x Hx. unfold free_view. by rewrite fn_lookup_insert_ne.
Qed.
