(* ===== verification/FsRead.v ===== *)
(** * Reading files

    [readi] of src/fs.c returns the bytes of the file, see [fbyte]: it needs no
    transaction, changes nothing but the destination, and stops at the end of the file. *)

From S2P Require Import Prelude Param KString Spinlock Bio Log LogCrash LogOps Fs FsView FsFile.
Local Open Scope Z_scope.

(** ** Definitions *)

(** Memory after [n] bytes of the file from offset [off] on have been copied to [dst]. *)
Definition copied (vw : Z → mem) (d : dinode) (dst off n : Z) (m : mem) : mem := fun a =>
  if (dst <=? a) && (a <? dst + n) then fbyte vw d (off + (a - dst)) else m a.

(** The file has a block for each offset in the range. *)
Definition no_hole (vw : Z → mem) (d : dinode) (off n : Z) : Prop :=
  ∀ x, off ≤ x < off + n → slot vw d (bslot (x / BSIZE)) ≠ 0.

(** The rounds left of the copying loops. *)
Definition rounds (off n : Z) : Z := (off mod BSIZE + n + BSIZE - 1) / BSIZE.

(** ** Lemmas *)

(** *** Chunks *)

Lemma chunk_range n tot off :
  0 ≤ off → tot < n → let c := chunk n tot off in
  0 < c ∧ c ≤ n - tot ∧ off mod BSIZE + c ≤ BSIZE.
Proof.
  intros Hoff Hlt. cbv zeta. unfold chunk, BSIZE. destruct (Z.ltb_spec (n - tot) (512 - off mod 512)); zmod_lia.
Qed.

(** The offsets of one chunk lie in one block. *)
Lemma chunk_block off c y :
  0 ≤ off → off mod BSIZE + c ≤ BSIZE → off ≤ y < off + c →
  y / BSIZE = off / BSIZE ∧ y mod BSIZE = off mod BSIZE + (y - off).
Proof. unfold BSIZE. intros. zmod_lia. Qed.

Lemma rounds_step n tot off (c := chunk n tot off) :
  0 ≤ off → tot < n → c < n - tot → rounds (off + c) (n - (tot + c)) = rounds off (n - tot) - 1.
Proof.
  intros Hoff Hlt Hc. unfold c, rounds, chunk, BSIZE in *.
  destruct (Z.ltb_spec (n - tot) (512 - off mod 512)); [lia|].
  replace (off + (512 - off mod 512)) with ((off / 512 + 1) * 512) by zmod_lia.
  rewrite Z.mod_mul by lia. zmod_lia.
Qed.

Lemma rounds_pos off n : 0 < n → 1 ≤ rounds off n.
Proof. intros. unfold rounds, BSIZE. zmod_lia. Qed.

Lemma io_fuel_enough off n : 0 ≤ n → 1 ≤ rounds off n + 1 ≤ Z.of_nat (io_fuel n).
Proof. intros. unfold rounds, io_fuel, BSIZE. zmod_lia. Qed.

(** Copying in two steps. *)
Lemma copied_step vw d dst off n c m a :
  0 ≤ c ≤ n → copied vw d dst off n m a = copied vw d (dst + c) (off + c) (n - c) (copied vw d dst off c m) a.
Proof.
  intros Hc. unfold copied.
  destruct (Z.leb_spec dst a), (Z.ltb_spec a (dst + n)), (Z.leb_spec (dst + c) a),
    (Z.ltb_spec a (dst + c + (n - c))), (Z.ltb_spec a (dst + c)); cbn [andb]; try lia; f_equal; lia.
Qed.

Lemma copied_ext vw d dst off n m m' a : m a = m' a → copied vw d dst off n m a = copied vw d dst off n m' a.
Proof. intros E. unfold copied. by rewrite E. Qed.

(** *** [bmap] on a block that exists *)

Section Read.
Context {sb : superblock} {vw dk : Z → mem} {wr : list (Z * mem)} {bl : list Z} {o : Z}.
Context {ip : nat} {x : inode}.
Hypothesis Hdev : i_dev x = 1.
Hypothesis Hf : file_ok sb vw (i_d x).
Hypothesis Hroom : buf_room ∅ bl.

Lemma bmap_mapped_rule s l bn (Q : Z → fsst → Prop) (a := slot vw (i_d x) (bslot bn)) :
  (ip < length (ic_inode s))%nat → fs_ok sb vw dk wr ∅ bl o (ist ip x l s) →
  0 ≤ bn < MAXFILE → a ≠ 0 →
  (∀ l', fs_ok sb vw dk wr ∅ bl o (ist ip x l' s) → Q a (ist ip x l' s)) →
  runs (bmap ip bn) (ist ip x l s) Q.
Proof using Hdev Hf Hroom.
  intros Hip H Hbn Ha HQ. unfold bmap. pose proof (fk_addrs Hf) as Hlen. pose proof NDIRECT_NSLOT as HN.
  assert (Hget : ∀ k Q', (k ≤ NDIRECT)%nat → di_addrs (i_d x) !!! k ≠ 0 →
    Q' (di_addrs (i_d x) !!! k) (ist ip x l s) → runs (addr_alloc ip k) (ist ip x l s) Q').
  { intros k Q' Hk Hk0 HQ'. apply runs_bind, (addr_get_rule Hip); [lia|].
    destruct (Z.eqb_spec (di_addrs (i_d x) !!! k) 0); [done|]. by apply runs_ret. }
  unfold a, bslot in *. destruct (Z.ltb_spec bn (Z.of_nat NDIRECT)) as [Hlt|Hge].
  - rewrite slot_direct in * by lia. apply Hget; [lia | done | by apply HQ].
  - cbv zeta. destruct (Z.ltb_spec (bn - Z.of_nat NDIRECT) NINDIRECT) as [_|Hge2]; [|unfold MAXFILE in Hbn; lia].
    assert (Ha10 : di_addrs (i_d x) !!! NDIRECT ≠ 0).
    { intros E. destruct Ha. apply slot_no_indirect; [lia | done]. }
    destruct (fk_data Hf NDIRECT HN) as [Har _]; [by rewrite slot_direct|]. rewrite slot_direct in Har by done.
    apply runs_bind, Hget; [done | done |]. apply runs_bind, (ino_rule Hip). rewrite Hdev.
    apply runs_bind, (fs_bread_rule H); [done | done | lia |]. intros i l1 Hc H1.
    apply runs_bind, (fs_bdata_rule H1 (di_addrs (i_d x) !!! NDIRECT)); [apply lookup_insert_eq|].
    rewrite slot_entry in * by (lia || done).
    replace (Z.of_nat (S (Z.to_nat bn) - S NDIRECT)) with (bn - Z.of_nat NDIRECT) in * by lia.
    cbv zeta. destruct (Z.eqb_spec (load32 (vw (di_addrs (i_d x) !!! NDIRECT)) (4 * (bn - Z.of_nat NDIRECT))) 0); [done|].
    apply runs_bind, (fs_brelse_rule H1 (di_addrs (i_d x) !!! NDIRECT)); [apply lookup_insert_eq | done |].
    intros l2 H2. rewrite delete_insert_id in H2 by done. by apply runs_ret, (HQ l2).
Qed.

(** The state after the copy: only the log's bookkeeping and memory change. *)
Lemma readi_loop_rule fuel s l dst off n tot (Q : unit → fsst → Prop) :
  (ip < length (ic_inode s))%nat → fs_ok sb vw dk wr ∅ bl o (ist ip x l s) →
  0 ≤ off → 0 ≤ dst → tot ≤ n → off + (n - tot) ≤ MAXFILE * BSIZE →
  dst + (n - tot) < 4294967296 → no_hole vw (i_d x) off (n - tot) →
  (if tot <? n then rounds off (n - tot) + 1 else 1) ≤ Z.of_nat fuel →
  (∀ l' m, (∀ a, m a = copied vw (i_d x) dst off (n - tot) (fs_mem s) a) →
     fs_ok sb vw dk wr ∅ bl o (ist ip x l' (set_fs_mem m s)) →
     Q tt (ist ip x l' (set_fs_mem m s))) →
  runs (readi_loop fuel ip dst off n tot) (ist ip x l s) Q.
Proof using Hdev Hf Hroom.
  revert s l dst off tot Q.
  induction fuel as [|fuel IH]; intros s l dst off tot Q Hip H Hoff Hdst Htot Hmax Hwrap Hhole Hfuel HQ.
  { pose proof (rounds_pos off (n - tot)). destruct (Z.ltb_spec tot n); lia. }
  cbn [readi_loop]. destruct (Z.ltb_spec tot n) as [Hlt|Hge].
  - pose proof (chunk_range n tot off Hoff Hlt) as Hc. cbv zeta in Hc. set (c := chunk n tot off) in *.
    assert (Hbn : 0 ≤ off / BSIZE < MAXFILE).
    { split; [by apply Z.div_pos | apply Z.div_lt_upper_bound; [done | lia]]. }
    assert (Ha : slot vw (i_d x) (bslot (off / BSIZE)) ≠ 0) by (apply Hhole; lia).
    destruct (fk_data Hf _ (bslot_lt _ Hbn) Ha) as [Har _].
    apply runs_bind, (ino_rule Hip). apply runs_bind, bmap_mapped_rule; [done..|]. intros l1 H1.
    rewrite Hdev. apply runs_bind, (fs_bread_rule H1); [done | done | lia |]. intros i l2 Hcl H2.
    apply runs_bind, (fs_bdata_rule H2 (slot vw (i_d x) (bslot (off / BSIZE)))); [apply lookup_insert_eq|].
    apply runs_bind, runs_mod. set (m := blit _ _ _ _ _).
    change (set_fs_mem m _) with (ist ip x l2 (set_fs_mem m s)).
    assert (H3 : fs_ok sb vw dk wr (<[slot vw (i_d x) (bslot (off / BSIZE)) := i]> ∅) bl o
      (ist ip x l2 (set_fs_mem m s))) by (destruct H2; by split).
    apply runs_bind, (fs_brelse_rule H3 (slot vw (i_d x) (bslot (off / BSIZE)))); [apply lookup_insert_eq | done |].
    intros l3 H4. rewrite delete_insert_id in H4 by done. change (set_fs_log l3 _) with (ist ip x l3 (set_fs_mem m s)) in H4 |- *.
    rewrite (u32_small (dst + c)), (u32_small (off + c)) by (change (MAXFILE * BSIZE) with 70656 in *; lia).
    apply IH; [done | done | lia.. | | |].
    + intros y Hy. apply Hhole. lia.
    + pose proof (rounds_pos off (n - tot) ltac:(lia)).
      destruct (Z.ltb_spec (tot + c) n); [|lia]. unfold c in *. rewrite rounds_step by lia. lia.
    + intros l' m' Hm' H'. apply HQ; [|done]. intros a. rewrite Hm'.
      rewrite (copied_step _ _ dst off (n - tot) c) by lia.
      replace (n - (tot + c)) with (n - tot - c) by lia. apply copied_ext.
      change (m a = copied vw (i_d x) dst off c (fs_mem s) a). unfold m, blit, copied.
      destruct (Z.leb_spec dst a), (Z.ltb_spec a (dst + c)); cbn [andb]; [|done..].
      destruct (chunk_block off c (off + (a - dst))) as [E1 E2]; [lia..|].
      unfold fbyte. rewrite E1, E2. destruct (Z.eqb_spec (slot vw (i_d x) (bslot (off / BSIZE))) 0); [done|].
      f_equal. lia.
  - apply runs_ret. replace s with (set_fs_mem (fs_mem s) s) by by destruct s.
    apply HQ; [|destruct H; by split]. intros a. unfold copied.
    destruct (Z.leb_spec dst a), (Z.ltb_spec a (dst + (n - tot))); lia || done.
Qed.
End Read.

(** [readi] on a file without holes returns the bytes from [off] on, at most [n] and
    none past the end of the file, stores exactly them at [dst], and changes neither the
    inodes nor the contents of any block; past the end of the file it returns -1. *)
Lemma readi_reads devs sb vw dk wr bl o s ip x dst off n
    (size := di_size (i_d x)) (r := if off >? size then -1 else Z.min n (size - off)) :
  fs_ok sb vw dk wr ∅ bl o s → ic_inode s !! ip = Some x → i_dev x = 1 →
  di_type (i_d x) ≠ T_DEV → file_ok sb vw (i_d x) → size ≤ MAXFILE * BSIZE →
  no_hole vw (i_d x) 0 size → buf_room ∅ bl →
  0 ≤ off → 0 ≤ n → off + n < 4294967296 → 0 ≤ dst → dst + n < 4294967296 →
  ∃ s', readi devs ip dst off n s = Ok (r, s') ∧ fs_ok sb vw dk wr ∅ bl o s' ∧
    ic_inode s' = ic_inode s ∧
    ∀ a, fs_mem s' a = if (dst <=? a) && (a <? dst + r) then fbyte vw (i_d x) (off + (a - dst))
                       else fs_mem s a.
Proof.
  intros H Hx Hdev Ht Hf Hsz Hhole Hroom Hoff Hn Hon Hdst Hdn.
  assert (Hip : (ip < length (ic_inode s))%nat) by by eapply lookup_lt_Some.
  assert (R : runs (readi devs ip dst off n) s (λ v s', v = r ∧ fs_ok sb vw dk wr ∅ bl o s' ∧
    ic_inode s' = ic_inode s ∧ ∀ a, fs_mem s' a = copied vw (i_d x) dst off r (fs_mem s) a)).
  2:{ destruct R as (v & s' & E & -> & R). by exists s'. }
  unfold readi. rewrite <- (ist_id ip x s) by done. apply runs_bind, (ino_rule Hip).
  destruct (Z.eqb_spec (di_type (i_d x)) T_DEV); [done|].
  rewrite (u32_small (off + n)) by lia. fold size. unfold r. rewrite Z.gtb_ltb.
  destruct (Z.ltb_spec size off); cbn [orb].
  { rewrite ist_id by done. apply runs_ret. split_and!; [done..|]. intros a. unfold copied.
    destruct (Z.leb_spec dst a), (Z.ltb_spec a (dst + -1)); lia || done. }
  destruct (Z.ltb_spec (off + n) off); [lia|]. cbv zeta. rewrite Z.gtb_ltb.
  assert (En : (if size <? off + n then u32 (size - off) else n) = Z.min n (size - off)).
  { change (MAXFILE * BSIZE) with 70656 in *.
    destruct (Z.ltb_spec size (off + n)); [rewrite u32_small|]; lia. }
  rewrite En. set (k := Z.min n (size - off)) in *. change (MAXFILE * BSIZE) with 70656 in *.
  pose proof (io_fuel_enough off k ltac:(lia)) as Hfuel.
  apply runs_bind, (readi_loop_rule (dk := dk) (wr := wr) (o := o) Hdev Hf Hroom); [done | by rewrite ist_id | lia | lia | lia | change (MAXFILE * BSIZE) with 70656; lia | lia | | |].
  - intros y Hy. apply Hhole. lia.
  - rewrite Z.sub_0_r. destruct (Z.ltb_spec 0 k); lia.
  - intros l' m Hm H'. apply runs_ret. rewrite s32_small by lia. split_and!; [done | done | |].
    + cbn. by rewrite list_insert_id.
    + intros a. cbn. rewrite Hm. by rewrite Z.sub_0_r.
Qed.

(** ** Theorems *)

(** [readi] never changes what is on disk: on a file without holes it returns the
    number of bytes between [off] and the end of the file, at most [n], or -1 if [off]
    is past the end; memory outside the destination and all inodes are unchanged, and
    the bytes delivered are those of the file. *)
Theorem readi_correct devs sb vw dk wr bl o s ip x dst off n
    (size := di_size (i_d x)) (r := if off >? size then -1 else Z.min n (size - off)) :
  fs_ok sb vw dk wr ∅ bl o s → ic_inode s !! ip = Some x → i_dev x = 1 →
  di_type (i_d x) ≠ T_DEV → file_ok sb vw (i_d x) → size ≤ MAXFILE * BSIZE →
  no_hole vw (i_d x) 0 size → buf_room ∅ bl →
  0 ≤ off → 0 ≤ n → off + n < 4294967296 → 0 ≤ dst → dst + n < 4294967296 →
  ∃ s', readi devs ip dst off n s = Ok (r, s') ∧ fs_ok sb vw dk wr ∅ bl o s' ∧
    ic_inode s' = ic_inode s ∧
    (∀ a, a < dst ∨ dst + r ≤ a → fs_mem s' a = fs_mem s a) ∧
    ∀ i, 0 ≤ i < r → fs_mem s' (dst + i) = fbyte vw (i_d x) (off + i).
Proof.
  intros H Hx Hdev Ht Hf Hsz Hhole Hroom Hoff Hn Hon Hdst Hdn.
  destruct (readi_reads devs _ _ _ _ _ _ _ _ _ dst off n H Hx Hdev Ht Hf Hsz Hhole Hroom Hoff Hn Hon Hdst Hdn)
    as (s' & E & H' & Ei & Hm).
  exists s'. fold size r in E, Hm. split_and!; [done..| |].
  - intros a Ha. rewrite Hm. destruct (Z.leb_spec dst a), (Z.ltb_spec a (dst + r)); lia || done.
  - intros i Hi. rewrite Hm. destruct (Z.leb_spec dst (dst + i)), (Z.ltb_spec (dst + i) (dst + r)); try lia.
    cbn [andb]. f_equal. lia.
Qed.
