(* ===== verification/FsInode.v ===== *)
(** * Inodes on disk and in memory

    [struct dinode] is read back as it was written ([dinode_roundtrip]), [iupdate] of
    src/fs.c writes the one inode it is called for, and [ilock] after [iupdate] finds
    what was written. *)

From S2P Require Import Prelude Param KString Spinlock Bio Log LogCrash LogOps Fs FsView FsFile.
Local Open Scope Z_scope.

(** ** Definitions *)

Definition short (z : Z) : Prop := -32768 ≤ z < 32768.
Definition ushort (z : Z) : Prop := 0 ≤ z < 65536.
Definition uint (z : Z) : Prop := 0 ≤ z < 4294967296.

(** The values the C types of the fields hold. *)
Record dinode_wf (x : dinode) : Prop := {
  dw_type : short (di_type x);
  dw_major : short (di_major x);
  dw_minor : short (di_minor x);
  dw_nlink : short (di_nlink x);
  dw_uid : ushort (di_uid x);
  dw_gid : ushort (di_gid x);
  dw_mode : uint (di_mode x);
  dw_size : uint (di_size x);
  dw_addrs : Forall uint (di_addrs x);
  dw_len : length (di_addrs x) = S NDIRECT
}.

(** Inode [inum] as the blocks have it. *)
Definition disk_inode (sb : superblock) (vw : Z → mem) (inum : Z) : dinode :=
  dinode_at (vw (IBLOCK inum sb)) (inum mod IPB * SIZEOF_dinode).

(** An entry of the cache in use for inode [inum] of [dev]. *)
Definition caches_inode (dev inum : Z) (x : inode) : Prop :=
  0 < i_ref x ∧ i_dev x = dev ∧ i_inum x = inum.

#[export] Instance caches_inode_dec dev inum x : Decision (caches_inode dev inum x).
Proof. unfold caches_inode. apply _. Defined.

(** The inode cache holds at most one copy of an inode. *)
Record icache_ok (l : list inode) : Prop := {
  io_ref : ∀ i x, l !! i = Some x → 0 ≤ i_ref x;
  io_uniq : ∀ i j x y, l !! i = Some x → l !! j = Some y → 0 < i_ref x →
    caches_inode (i_dev x) (i_inum x) y → i = j
}.

(** The number of references to an inode. *)
Definition refs (l : list inode) (dev inum : Z) : Z :=
  match list_find (caches_inode dev inum) l with Some (_, x) => i_ref x | None => 0 end.

(** ** Lemmas *)

(** *** Half words and words *)

Lemma load16_store16 m a v : load16 (store16 m a v) a = u16 v.
Proof.
  unfold load16, store16, mupd, u8, u16. rewrite Z.shiftr_div_pow2 by lia. change (2 ^ 8) with 256.
  repeat (bool_case; try lia). zmod_lia.
Qed.

Lemma load16_store16_ne m a v x : x + 2 ≤ a ∨ a + 2 ≤ x → load16 (store16 m a v) x = load16 m x.
Proof. intros H. unfold load16, store16, mupd. repeat (bool_case; try lia). Qed.

Lemma load16_store32_ne m a v x : x + 2 ≤ a ∨ a + 4 ≤ x → load16 (store32 m a v) x = load16 m x.
Proof. intros H. unfold load16, store32, mupd. repeat (bool_case; try lia). Qed.

Lemma load32_store16_ne m a v x : x + 4 ≤ a ∨ a + 2 ≤ x → load32 (store16 m a v) x = load32 m x.
Proof. intros H. unfold load32, store16, mupd. repeat (bool_case; try lia). Qed.

Lemma s16_u16 z : short z → s16 (u16 z) = z.
Proof.
  unfold short, s16, u16. intros H. rewrite Z.mod_mod by lia.
  destruct (Z.ltb_spec (z mod 65536) 32768); zmod_lia.
Qed.

Lemma store_addrs_frame d o l a : a < o ∨ o + 4 * Z.of_nat (length l) ≤ a → store_addrs d o l a = d a.
Proof.
  revert d o. induction l as [|x l IH]; intros d o Ha; [done|]. cbn [store_addrs length] in *.
  rewrite IH by lia. unfold store32, mupd. by repeat (bool_case; try lia).
Qed.

Lemma store_addrs_lookup d o l k x :
  Forall uint l → l !! k = Some x → load32 (store_addrs d o l) (o + 4 * Z.of_nat k) = x.
Proof.
  revert d o k. induction l as [|y l IH]; intros d o k Hl Hk; [done|].
  apply Forall_cons in Hl as [Hy Hl]. cbn [store_addrs]. destruct k as [|k].
  - cbn in Hk. injection Hk as ->. rewrite Z.mul_0_r, Z.add_0_r.
    unfold load32. rewrite !store_addrs_frame by lia.
    change (load32 (store32 d o x) o = x). rewrite <- (u32_small x Hy) at 1.
    rewrite load32_store32. by apply u32_small.
  - replace (o + 4 * Z.of_nat (S k)) with (o + 4 + 4 * Z.of_nat k) by lia. by apply IH.
Qed.

(** *** [struct dinode] *)

Lemma dinode_store_frame d o x a :
  length (di_addrs x) = S NDIRECT → a < o ∨ o + SIZEOF_dinode ≤ a → dinode_store d o x a = d a.
Proof.
  unfold SIZEOF_dinode. intros Hl Ha. unfold dinode_store. cbv zeta.
  rewrite store_addrs_frame by (rewrite Hl; unfold NDIRECT; lia).
  unfold store16, store32, mupd. by repeat (bool_case; try lia).
Qed.

Lemma load16_store_addrs d o l a : a + 2 ≤ o → load16 (store_addrs d o l) a = load16 d a.
Proof. intros. unfold load16. by rewrite !store_addrs_frame by lia. Qed.

Lemma load32_store_addrs d o l a : a + 4 ≤ o → load32 (store_addrs d o l) a = load32 d a.
Proof. intros. unfold load32. by rewrite !store_addrs_frame by lia. Qed.

(** Reading a field through the writes of the others. *)
Ltac read_field :=
  repeat first
    [ rewrite load16_store16 | rewrite load16_store_addrs by lia | rewrite load32_store_addrs by lia
    | rewrite load16_store16_ne by lia | rewrite load16_store32_ne by lia
    | rewrite load32_store32_ne by lia | rewrite load32_store16_ne by lia ].

Lemma load32_store32_uint m a v : uint v → load32 (store32 m a v) a = v.
Proof. intros Hv. rewrite <- (u32_small v Hv) at 1. rewrite load32_store32. by apply u32_small. Qed.

Lemma addrs_roundtrip d o l :
  Forall uint l → length l = S NDIRECT →
  (λ k : nat, load32 (store_addrs d o l) (o + 4 * Z.of_nat k)) <$> seq 0 (S NDIRECT) = l.
Proof.
  intros Hl Hlen. apply list_eq. intros k. rewrite list_lookup_fmap.
  destruct (decide (k < S NDIRECT)%nat) as [Hk|Hk].
  - rewrite lookup_seq_lt by done. cbn [fmap option_fmap option_map].
    destruct (lookup_lt_is_Some_2 l k) as [x Hx]; [lia|]. rewrite Hx. f_equal.
    by apply store_addrs_lookup.
  - rewrite lookup_seq_ge by lia. cbn. symmetry. apply lookup_ge_None_2. lia.
Qed.

Lemma dinode_read_back d o x : dinode_wf x → dinode_at (dinode_store d o x) o = x.
Proof.
  intros [Ht Hma Hmi Hn Hu Hg Hmo Hs Ha Hl]. destruct x as [t ma mi n u g mo sz l]. cbn in *.
  unfold dinode_at, dinode_store. cbn [di_type di_major di_minor di_nlink di_uid di_gid di_mode di_size di_addrs].
  f_equal; [by read_field; apply s16_u16 .. | by read_field; apply u16_small | by read_field; apply u16_small | | |].
  - read_field. by apply load32_store32_uint.
  - read_field. by apply load32_store32_uint.
  - by apply addrs_roundtrip.
Qed.

Lemma dinode_at_ext d d' o :
  (∀ a, o ≤ a < o + SIZEOF_dinode → d a = d' a) → dinode_at d o = dinode_at d' o.
Proof.
  unfold SIZEOF_dinode. intros E. unfold dinode_at, load16. f_equal; try by rewrite !E by lia.
  - unfold load32. by rewrite !E by lia.
  - unfold load32. by rewrite !E by lia.
  - apply list_fmap_ext. intros i k [-> Hk]%lookup_seq. unfold load32, NDIRECT in *.
    by rewrite !E by lia.
Qed.

(** *** The inode blocks *)

Section InodeBlocks.
Context {sb : superblock}.
Hypothesis G : geometry sb.

Lemma IBLOCK_eq i : 0 ≤ i < sb_ninodes sb → IBLOCK i sb = i / IPB + sb_inodestart sb.
Proof using G.
  intros Hi. pose proof (geo_order G). destruct G. unfold IBLOCK. apply u32_small.
  unfold IPB, BSIZE, SIZEOF_dinode in *. change (512 / 64) with 8 in *. zmod_lia.
Qed.

Lemma IBLOCK_range i : 0 ≤ i < sb_ninodes sb → sb_inodestart sb ≤ IBLOCK i sb < sb_bmapstart sb.
Proof using G.
  intros Hi. rewrite IBLOCK_eq by done. destruct G.
  unfold IPB, BSIZE, SIZEOF_dinode in *. change (512 / 64) with 8 in *. zmod_lia.
Qed.

(** Writing an inode leaves the others alone. *)
Lemma disk_inode_update vw i j x :
  0 ≤ i < sb_ninodes sb → 0 ≤ j < sb_ninodes sb → length (di_addrs x) = S NDIRECT → i ≠ j →
  disk_inode sb (<[IBLOCK i sb := dinode_store (vw (IBLOCK i sb)) (i mod IPB * SIZEOF_dinode) x]> vw) j =
  disk_inode sb vw j.
Proof using G.
  intros Hi Hj Hl Hne. unfold disk_inode. rewrite !IBLOCK_eq by done.
  destruct (decide (i / IPB = j / IPB)) as [E|E]; [|by rewrite fn_lookup_insert_ne by lia].
  rewrite <- E, fn_lookup_insert. apply dinode_at_ext. intros a Ha. apply dinode_store_frame; [done|].
  unfold IPB, BSIZE, SIZEOF_dinode in *. change (512 / 64) with 8 in *. zmod_lia.
Qed.

Lemma disk_inode_written vw i x :
  dinode_wf x →
  disk_inode sb (<[IBLOCK i sb := dinode_store (vw (IBLOCK i sb)) (i mod IPB * SIZEOF_dinode) x]> vw) i = x.
Proof using. intros Hx. unfold disk_inode. rewrite fn_lookup_insert. by apply dinode_read_back. Qed.
End InodeBlocks.

(** *** [iupdate] *)

Lemma iupdate_rule sb vw dk wr bl o ip x l s (Q : unit → fsst → Prop)
    (b := IBLOCK (i_inum x) sb) :
  1 ≤ o → (ip < length (ic_inode s))%nat → fs_ok sb vw dk wr ∅ bl o (ist ip x l s) → i_dev x = 1 →
  0 ≤ i_inum x < sb_ninodes sb → buf_room ∅ bl → Z.of_nat (length bl) < sb_nlog sb - 1 →
  (∀ l', fs_ok sb (<[b := dinode_store (vw b) (i_inum x mod IPB * SIZEOF_dinode) (i_d x)]> vw)
      dk wr ∅ (log_record bl b) o (ist ip x l' s) → Q tt (ist ip x l' s)) →
  runs (iupdate ip) (ist ip x l s) Q.
Proof.
  intros Ho Hip H Hdev Hi Hroom Hlen HQ. pose proof (fo_geo H) as G. pose proof (geo_order G) as Hg.
  pose proof (IBLOCK_range G (i_inum x) Hi) as Hb.
  apply runs_bind, (ino_rule Hip). apply runs_bind, runs_get_sb. rewrite (fo_sb H), Hdev.
  apply runs_bind, (fs_bread_rule H); [done | done | lia |]. intros i l1 _ H1.
  apply runs_bind, (fs_bdata_rule H1 b); [apply lookup_insert_eq|].
  apply (fs_store_rule _ _ _ _ _ _ _ _ _ _ _ _ H1); [done.. | lia |].
  intros l2 H2. by apply (HQ l2).
Qed.

(** *** The lock of the inode cache *)

Lemma runs_acquire_icache s (Q : unit → fsst → Prop) :
  cpu_ok (fs_cpu s) → locked (ic_lock s) = 0 →
  (∀ c lk, taken c lk → Q tt (set_fs_cpu c (set_ic_lock lk s))) → runs acquire_icache s Q.
Proof.
  intros Hc Hl HQ. destruct (acquire_taken _ _ Hc Hl) as (c & lk & E & Ht).
  eapply runs_ok; [unfold acquire_icache; rewrite E; reflexivity | auto].
Qed.

Lemma runs_release_icache s (Q : unit → fsst → Prop) :
  taken (fs_cpu s) (ic_lock s) →
  (∀ c lk, cpu_ok c → locked lk = 0 → Q tt (set_fs_cpu c (set_ic_lock lk s))) → runs release_icache s Q.
Proof.
  intros Ht HQ. destruct (release_taken _ _ Ht) as (c & lk & E & Hc & Hl).
  eapply runs_ok; [unfold release_icache; rewrite E; reflexivity | auto].
Qed.

Lemma fs_ok_cpu {sb vw dk wr held bl o s} :
  fs_ok sb vw dk wr held bl o s → cpu_ok (fs_cpu s).
Proof. intros H. eapply brep_cpu_ok, lo_brep, (fo_log H). Qed.

(** The invariant does not depend on the inodes, and holds again when the lock is free. *)
Lemma fs_ok_icache sb vw dk wr held bl o s c lk l w :
  fs_ok sb vw dk wr held bl o s → cpu_ok c → locked lk = 0 →
  fs_ok sb vw dk wr held bl o
    (mkFsst (set_ls_bio (set_cpu c (ls_bio (fs_log s))) (fs_log s)) (fs_sb s) lk l (fs_mem s) (fs_cwd s) w).
Proof.
  intros [G [] Hsb Hsup _] Hc Hl. split; try done. split; try done. by apply brep_cpu.
Qed.

(** *** [iget] *)

Lemma iget_scan_ok l k dev inum empty :
  match iget_scan l k dev inum empty with
  | inl ip => ∃ x, (k ≤ ip)%nat ∧ l !! (ip - k)%nat = Some x ∧ 0 < i_ref x ∧ i_dev x = dev ∧ i_inum x = inum
  | inr e => (∀ i x, l !! i = Some x → 0 < i_ref x → ¬ (i_dev x = dev ∧ i_inum x = inum)) ∧
      match e with
      | Some ip => empty = Some ip ∨ ∃ x, (k ≤ ip)%nat ∧ l !! (ip - k)%nat = Some x ∧ i_ref x = 0
      | None => empty = None ∧ ∀ i x, l !! i = Some x → i_ref x ≠ 0
      end
  end.
Proof.
  revert k empty. induction l as [|y l IH]; intros k empty; cbn [iget_scan].
  { destruct empty; split; try done; auto. }
  destruct ((i_ref y >? 0) && (i_dev y =? dev) && (i_inum y =? inum)) eqn:Ehit.
  { exists y. rewrite Nat.sub_diag. rewrite !andb_true_iff, Z.gtb_lt, !Z.eqb_eq in Ehit. by destruct Ehit as [[? ?] ?]. }
  assert (Hmiss : 0 < i_ref y → ¬ (i_dev y = dev ∧ i_inum y = inum)).
  { intros Hr [Hd Hi]. rewrite <- not_true_iff_false, !andb_true_iff, Z.gtb_lt, !Z.eqb_eq in Ehit. tauto. }
  set (em := match empty with None => if i_ref y =? 0 then Some k else None | Some _ => empty end).
  specialize (IH (S k) em). destruct (iget_scan l (S k) dev inum em) as [ip|e].
  { destruct IH as (x & Hk & Hx & IH). exists x. replace (ip - k)%nat with (S (ip - S k)) by lia.
    split_and!; [lia | done | apply IH..]. }
  destruct IH as [Hno IH]. split.
  { intros [|i] x Hx; cbn in Hx; [by simplify_eq | by eapply Hno]. }
  destruct e as [ip|].
  - destruct IH as [IH|(x & Hk & Hx & Hr)].
    + destruct empty as [j|]; cbn in em; [by left|]. subst em.
      destruct (Z.eqb_spec (i_ref y) 0); [|done]. injection IH as <-. right. exists y. by rewrite Nat.sub_diag.
    + right. exists x. replace (ip - k)%nat with (S (ip - S k)) by lia. split_and!; [lia | done..].
  - destruct IH as [IH Hall]. destruct empty as [j|]; cbn in em; [done|]. subst em.
    destruct (Z.eqb_spec (i_ref y) 0) as [|Hr]; [done|]. split; [done|].
    intros [|i] x Hx; cbn in Hx; [by simplify_eq | by eapply Hall].
Qed.

(** A new reference. *)
Lemma iget_rule sb vw dk wr held bl o s dev inum (l := ic_inode s) (Q : nat → fsst → Prop) :
  fs_ok sb vw dk wr held bl o s →
  (∃ i x, l !! i = Some x ∧ (i_ref x = 0 ∨ (0 < i_ref x ∧ i_dev x = dev ∧ i_inum x = inum))) →
  (∀ ip x x' s', l !! ip = Some x →
     (0 < i_ref x ∧ i_dev x = dev ∧ i_inum x = inum ∧ x' = set_i_ref (i_ref x + 1) x) ∨
     ((∀ i y, l !! i = Some y → 0 < i_ref y → ¬ (i_dev y = dev ∧ i_inum y = inum)) ∧
      i_ref x = 0 ∧ x' = mkInode dev inum 1 0 (i_d x)) →
     fs_ok sb vw dk wr held bl o s' → ic_inode s' = <[ip := x']> l → fs_mem s' = fs_mem s →
     Q ip s') →
  runs (iget dev inum) s Q.
Proof.
  intros H Hex HQ. apply runs_bind, runs_acquire_icache; [by eapply fs_ok_cpu | apply (fo_lock H) |].
  intros c lk Ht. apply runs_bind, runs_get. change (ic_inode (set_fs_cpu _ _)) with l.
  assert (Hupd : ∀ ip x f (Q' : unit → fsst → Prop), l !! ip = Some x →
    (∀ s', fs_ok sb vw dk wr held bl o s' → ic_inode s' = <[ip := f x]> l → fs_mem s' = fs_mem s → Q' tt s') →
    runs (ino_mod ip f;; release_icache) (set_fs_cpu c (set_ic_lock lk s)) Q').
  { intros ip x f Q' Hx HQ'. apply runs_bind. eapply runs_ok.
    - unfold ino_mod. change (ic_inode (set_fs_cpu _ _)) with l. by rewrite Hx.
    - apply runs_release_icache; [done|]. intros c' lk' Hc' Hl'. apply HQ'; [|done..]. exact (fs_ok_icache _ _ _ _ _ _ _ s c' lk' _ _ H Hc' Hl'). }
  pose proof (iget_scan_ok l 0 dev inum None) as Hscan.
  destruct (iget_scan l 0 dev inum None) as [ip|[ip|]].
  - destruct Hscan as (x & _ & Hx & Hr & Hd & Hi). rewrite Nat.sub_0_r in Hx.
    apply runs_bind_assoc, runs_bind, (Hupd ip x); [done|]. intros s' H' Es Em. apply runs_ret.
    eapply HQ; [done | left; by split_and! | done..].
  - destruct Hscan as (Hno & [?|(x & _ & Hx & Hr)]); [done|]. rewrite Nat.sub_0_r in Hx.
    apply runs_bind_assoc, runs_bind, (Hupd ip x); [done|]. intros s' H' Es Em. apply runs_ret.
    eapply HQ; [done | right; by split_and! | done..].
  - destruct Hscan as (Hno & _ & Hall). exfalso. destruct Hex as (i & x & Hx & [Hr|(Hr & Hd & Hi)]).
    + by apply (Hall i x).
    + by apply (Hno i x).
Qed.

(** *** Reference counts *)

Lemma refs_cached l dev inum i x :
  icache_ok l → l !! i = Some x → caches_inode dev inum x → refs l dev inum = i_ref x.
Proof.
  intros Hl Hi Hx. unfold refs. destruct (list_find _ l) as [[j y]|] eqn:E.
  - apply list_find_Some in E as (Hj & Hy & _). destruct Hx as (Hr & <- & <-).
    assert (i = j) as <- by by eapply (io_uniq _ Hl). congruence.
  - apply list_find_None in E. rewrite Forall_lookup in E. by destruct (E i x Hi).
Qed.

Lemma refs_none l dev inum :
  (∀ i x, l !! i = Some x → ¬ caches_inode dev inum x) → refs l dev inum = 0.
Proof.
  intros Hno. unfold refs. destruct (list_find _ l) as [[j y]|] eqn:E; [|done].
  apply list_find_Some in E as (Hj & Hy & _). by destruct (Hno j y).
Qed.

Section Refs.
Context {l : list inode} {ip : nat} {x x' : inode} {dev inum : Z}.
Hypothesis Hl : icache_ok l.
Hypothesis Hx : l !! ip = Some x.
Hypothesis Hx' : caches_inode dev inum x'.
Hypothesis Hold : ∀ i y, l !! i = Some y → i ≠ ip → ¬ caches_inode dev inum y.
Hypothesis Hown : 0 < i_ref x → i_dev x = dev ∧ i_inum x = inum.

Lemma icache_ok_insert : icache_ok (<[ip := x']> l).
Proof using Hl Hx Hx' Hold.
  destruct Hx' as (Hr & Hd & Hi).
  assert (Hlk : ∀ i y, <[ip := x']> l !! i = Some y → (i = ip ∧ y = x') ∨ (i ≠ ip ∧ l !! i = Some y)).
  { intros i y. destruct (decide (i = ip)) as [->|Hne].
    - rewrite list_lookup_insert_eq by by eapply lookup_lt_Some. intros [= <-]. by left.
    - rewrite list_lookup_insert_ne by done. by right. }
  split.
  - intros i y [[_ ->]|[_ Hy]]%Hlk; [lia | by apply (io_ref _ Hl i)].
  - intros i j y z [[-> ->]|[Hi1 Hy]]%Hlk [[-> ->]|[Hj Hz]]%Hlk Hr1 Hc; [done|..].
    + rewrite Hd, Hi in Hc. by destruct (Hold j z).
    + destruct (Hold i y Hy Hi1). destruct Hc as (_ & E1 & E2). split_and!; [done | congruence..].
    + by eapply (io_uniq _ Hl).
Qed.

Lemma refs_insert : refs (<[ip := x']> l) dev inum = i_ref x'.
Proof using Hl Hx Hx' Hold.
  eapply refs_cached; [exact icache_ok_insert | | done].
  apply list_lookup_insert_eq. by eapply lookup_lt_Some.
Qed.

Lemma refs_insert_other dev' inum' :
  (dev', inum') ≠ (dev, inum) → refs (<[ip := x']> l) dev' inum' = refs l dev' inum'.
Proof using Hl Hx Hx' Hold Hown.
  intros Hne. destruct (list_find (caches_inode dev' inum') l) as [[j y]|] eqn:E.
  - apply list_find_Some in E as (Hj & Hy & _). assert (j ≠ ip) as Hji.
    { intros ->. assert (y = x) as -> by congruence. destruct Hy as (Hr & <- & <-).
      destruct (Hown Hr). congruence. }
    rewrite (refs_cached l _ _ j y) by done. apply (refs_cached _ _ _ j); [exact icache_ok_insert | | done].
    by rewrite list_lookup_insert_ne.
  - apply list_find_None in E. rewrite Forall_lookup in E. rewrite (refs_none l) by done.
    apply refs_none. intros i y Hi. destruct (decide (i = ip)) as [->|Hne'].
    + rewrite list_lookup_insert_eq in Hi by by eapply lookup_lt_Some. injection Hi as <-.
      intros (_ & E1 & E2). destruct Hx' as (_ & E3 & E4). congruence.
    + rewrite list_lookup_insert_ne in Hi by done. by eapply E.
Qed.
End Refs.

(** *** [ilock] *)

Lemma iflag_valid_busy x : iflag (set_i_flags (Z.lor (i_flags x) I_BUSY) x) I_VALID = iflag x I_VALID.
Proof.
  unfold iflag. cbn. rewrite Z.land_lor_distr_l. change (Z.land I_BUSY I_VALID) with 0. by rewrite Z.lor_0_r.
Qed.

(** The part of [ilock] under the lock of the cache. *)
Lemma ilock_take_rule sb vw dk wr held bl o s ip x {A : Type} (m : K fsst A) (Q : A → fsst → Prop)
    (x1 := set_i_flags (Z.lor (i_flags x) I_BUSY) x) :
  fs_ok sb vw dk wr held bl o s → ic_inode s !! ip = Some x → iflag x I_BUSY = false →
  (∀ l lk, fs_ok sb vw dk wr held bl o (ist ip x1 l (set_ic_lock lk s)) →
     runs m (ist ip x1 l (set_ic_lock lk s)) Q) →
  runs (acquire_icache;; x ← ino ip;
    if iflag x I_BUSY then kout Diverge
    else
      ino_mod ip (fun x => set_i_flags (Z.lor (i_flags x) I_BUSY) x);; release_icache;; m) s Q.
Proof.
  intros H Hx Hb HQ. apply runs_bind, runs_acquire_icache; [by eapply fs_ok_cpu | apply (fo_lock H) |].
  intros c lk Ht. set (s1 := set_fs_cpu c (set_ic_lock lk s)).
  assert (Hx1 : ic_inode s1 !! ip = Some x) by exact Hx.
  apply runs_bind. eapply runs_ok; [unfold ino; by rewrite Hx1|]. rewrite Hb.
  apply runs_bind. eapply runs_ok; [unfold ino_mod; by rewrite Hx1|].
  apply runs_bind, runs_release_icache; [done|]. intros c' lk' Hc' Hl'.
  apply (HQ (set_ls_bio (set_cpu c' (ls_bio (fs_log s))) (fs_log s)) lk').
  exact (fs_ok_icache _ _ _ _ _ _ _ s c' lk' _ _ H Hc' Hl').
Qed.

(** [ilock] of an inode in the cache that has been read. *)
Lemma ilock_valid_rule sb vw dk wr held bl o s ip x (Q : unit → fsst → Prop) :
  fs_ok sb vw dk wr held bl o s → ic_inode s !! ip = Some x → 1 ≤ i_ref x →
  iflag x I_BUSY = false → iflag x I_VALID = true →
  (∀ l lk (x1 := set_i_flags (Z.lor (i_flags x) I_BUSY) x),
     fs_ok sb vw dk wr held bl o (ist ip x1 l (set_ic_lock lk s)) → Q tt (ist ip x1 l (set_ic_lock lk s))) →
  runs (ilock (Some ip)) s Q.
Proof.
  intros H Hx Hr Hb Hv HQ. unfold ilock. apply runs_bind. eapply runs_ok; [unfold ino; by rewrite Hx|].
  destruct (Z.ltb_spec (i_ref x) 1); [lia|].
  apply (ilock_take_rule _ _ _ _ _ _ _ _ _ _ _ _ H Hx Hb). intros l lk H1.
  assert (Hip : (ip < length (ic_inode (set_ic_lock lk s)))%nat) by (eapply lookup_lt_Some; exact Hx).
  apply runs_bind, (ino_rule Hip). rewrite iflag_valid_busy, Hv. by apply runs_ret, HQ.
Qed.

Lemma iunlock_rule sb vw dk wr held bl o s ip x (Q : unit → fsst → Prop) :
  fs_ok sb vw dk wr held bl o s → ic_inode s !! ip = Some x → 1 ≤ i_ref x → iflag x I_BUSY = true →
  (∀ s', fs_ok sb vw dk wr held bl o s' →
     ic_inode s' = <[ip := set_i_flags (Z.land (i_flags x) (Z.lnot I_BUSY)) x]> (ic_inode s) →
     fs_mem s' = fs_mem s → Q tt s') →
  runs (iunlock (Some ip)) s Q.
Proof.
  intros H Hx Hr Hb HQ. unfold iunlock. apply runs_bind. eapply runs_ok; [unfold ino; by rewrite Hx|].
  rewrite Hb. destruct (Z.ltb_spec (i_ref x) 1); [lia|]. cbn [negb orb].
  apply runs_bind, runs_acquire_icache; [by eapply fs_ok_cpu | apply (fo_lock H) |]. intros c lk Ht.
  set (s1 := set_fs_cpu c (set_ic_lock lk s)). assert (Hx1 : ic_inode s1 !! ip = Some x) by exact Hx.
  apply runs_bind. eapply runs_ok; [unfold ino_mod; by rewrite Hx1|].
  apply runs_bind, runs_mod, runs_release_icache; [done|]. intros c' lk' Hc' Hl'.
  apply HQ; [|done..]. exact (fs_ok_icache _ _ _ _ _ _ _ s c' lk' _ _ H Hc' Hl').
Qed.

(** ** Theorems *)

(** What [iupdate] stores in a block is what [ilock] finds there: [struct dinode] is
    read back with every field as it was written, and the other inodes of the block and
    the rest of it are not touched. *)
Theorem dinode_roundtrip d i j x (o := i mod IPB * SIZEOF_dinode) :
  dinode_wf x →
  dinode_at (dinode_store d o x) o = x ∧
  (i mod IPB ≠ j mod IPB →
     dinode_at (dinode_store d o x) (j mod IPB * SIZEOF_dinode) = dinode_at d (j mod IPB * SIZEOF_dinode)) ∧
  ∀ a, a < o ∨ o + SIZEOF_dinode ≤ a → dinode_store d o x a = d a.
Proof.
  intros Hx. split_and!.
  - by apply dinode_read_back.
  - intros Hne. apply dinode_at_ext. intros a Ha. apply dinode_store_frame; [apply Hx|].
    unfold o, SIZEOF_dinode in *. lia.
  - intros a. apply dinode_store_frame, Hx.
Qed.

(** [ilock] of an inode that is not locked locks it, and if it is not valid reads it
    from its place on disk; it changes no other inode and no block. *)
Theorem ilock_correct sb vw dk wr bl o s ip x :
  fs_ok sb vw dk wr ∅ bl o s → ic_inode s !! ip = Some x → 1 ≤ i_ref x → i_dev x = 1 →
  0 ≤ i_inum x < sb_ninodes sb → iflag x I_BUSY = false → buf_room ∅ bl →
  di_type (disk_inode sb vw (i_inum x)) ≠ 0 →
  ∃ s', ilock (Some ip) s = Ok (tt, s') ∧ fs_ok sb vw dk wr ∅ bl o s' ∧
    ic_inode s' = <[ip := mkInode 1 (i_inum x) (i_ref x)
        (if iflag x I_VALID then Z.lor (i_flags x) I_BUSY else Z.lor (Z.lor (i_flags x) I_BUSY) I_VALID)
        (if iflag x I_VALID then i_d x else disk_inode sb vw (i_inum x))]> (ic_inode s).
Proof.
  intros H Hx Hr Hdev Hi Hb Hroom Ht.
  assert (Hip : (ip < length (ic_inode s))%nat) by by eapply lookup_lt_Some.
  assert (R : runs (ilock (Some ip)) s (λ _ s', fs_ok sb vw dk wr ∅ bl o s' ∧
    ic_inode s' = <[ip := mkInode 1 (i_inum x) (i_ref x)
        (if iflag x I_VALID then Z.lor (i_flags x) I_BUSY else Z.lor (Z.lor (i_flags x) I_BUSY) I_VALID)
        (if iflag x I_VALID then i_d x else disk_inode sb vw (i_inum x))]> (ic_inode s))).
  2:{ destruct R as ([] & s' & R). by exists s'. }
  unfold ilock. apply runs_bind. eapply runs_ok; [unfold ino; by rewrite Hx|].
  destruct (Z.ltb_spec (i_ref x) 1); [lia|].
  apply (ilock_take_rule _ _ _ _ _ _ _ _ _ _ _ _ H Hx Hb). intros l lk H1.
  set (s1 := set_ic_lock lk s) in *.
  assert (Hip1 : (ip < length (ic_inode s1))%nat) by exact Hip.
  apply runs_bind, (ino_rule Hip1). rewrite iflag_valid_busy.
  destruct (iflag x I_VALID) eqn:Ev; cbn [negb].
  { apply runs_ret. split; [done|]. cbn. unfold set_i_flags. by rewrite Hdev. }
  pose proof (IBLOCK_range (fo_geo H) _ Hi) as Hbr. pose proof (geo_order (fo_geo H)) as Hg.
  apply runs_bind, runs_get_sb. rewrite (fo_sb H1). cbn [i_dev i_inum set_i_flags]. rewrite Hdev.
  apply runs_bind, (fs_bread_rule H1); [done | done | lia |]. intros i l2 Hc H2.
  apply runs_bind, (fs_bdata_rule H2 (IBLOCK (i_inum x) sb)); [apply lookup_insert_eq|].
  change (set_fs_log l2 (ist ip ?y l s1)) with (ist ip y l2 s1) in *.
  apply runs_bind, (ino_mod_rule Hip1).
  apply runs_bind. eapply (fs_brelse_rule (fs_ok_ist _ _ _ _ _ _ H2) (IBLOCK (i_inum x) sb)); [apply lookup_insert_eq | done |].
  intros l3 H3. rewrite delete_insert_id in H3 by done.
  change (set_fs_log l3 (ist ip ?y l2 s1)) with (ist ip y l3 s1) in *.
  apply runs_bind, (ino_mod_rule Hip1). apply runs_bind, (ino_rule Hip1). cbn [i_d set_i_d set_i_flags].
  change (dinode_at (vw (IBLOCK (i_inum x) sb)) (i_inum x mod IPB * SIZEOF_dinode)) with (disk_inode sb vw (i_inum x)).
  destruct (Z.eqb_spec (di_type (disk_inode sb vw (i_inum x))) 0); [done|]. apply runs_ret.
  split; [by eapply fs_ok_ist|]. cbn. unfold set_i_flags, set_i_d. cbn. by rewrite Hdev.
Qed.

(** [iget] returns the one entry of the cache for the inode, made from a free entry
    if there was none, with one more reference; the cache still holds at most one copy of
    each inode and the references of all other inodes are unchanged. *)
Theorem iget_correct sb vw dk wr held bl o s dev inum (l := ic_inode s) :
  fs_ok sb vw dk wr held bl o s → icache_ok l →
  (∃ i x, l !! i = Some x ∧ (i_ref x = 0 ∨ caches_inode dev inum x)) →
  ∃ ip x s', iget dev inum s = Ok (ip, s') ∧ ic_inode s' = <[ip := x]> l ∧
    caches_inode dev inum x ∧ i_ref x = refs l dev inum + 1 ∧
    (∀ d n, refs (ic_inode s') d n = refs l d n + if decide ((d, n) = (dev, inum)) then 1 else 0) ∧
    icache_ok (ic_inode s') ∧ fs_ok sb vw dk wr held bl o s'.
Proof.
  intros H Hl Hex.
  assert (R : runs (iget dev inum) s (λ ip s', ∃ x, ic_inode s' = <[ip := x]> l ∧
    caches_inode dev inum x ∧ i_ref x = refs l dev inum + 1 ∧
    (∀ d n, refs (ic_inode s') d n = refs l d n + if decide ((d, n) = (dev, inum)) then 1 else 0) ∧
    icache_ok (ic_inode s') ∧ fs_ok sb vw dk wr held bl o s')).
  2:{ destruct R as (ip & s' & E & x & R). by exists ip, x, s'. }
  eapply iget_rule; [done..|]. intros ip x x' s' Hx Hcase H' Es _.
  assert (Hfacts : caches_inode dev inum x' ∧ i_ref x' = refs l dev inum + 1 ∧
    (∀ i y, l !! i = Some y → i ≠ ip → ¬ caches_inode dev inum y) ∧
    (0 < i_ref x → i_dev x = dev ∧ i_inum x = inum)).
  { destruct Hcase as [(Hr & Hd & Hi & ->)|(Hno & Hr & ->)]; split_and!; try done; cbn.
    - split_and!; cbn; done || lia.
    - by rewrite (refs_cached l dev inum ip x).
    - intros i y Hy Hne Hc. destruct Hne. subst dev inum. symmetry. by apply (io_uniq _ Hl ip i x y).
    - rewrite refs_none; [done|]. intros i y Hy (Hr' & Hc). by apply (Hno i y).
    - intros i y Hy _ (Hr' & Hc). by apply (Hno i y).
    - lia. }
  destruct Hfacts as (Hc & Er & Hold & Hown). exists x'. rewrite Es. split_and!; try done.
  - intros d n. case_decide as E.
    + injection E as -> ->. fold l. by rewrite (refs_insert Hl Hx Hc Hold).
    + fold l. rewrite (refs_insert_other Hl Hx Hc Hold Hown) by done. lia.
  - by apply (icache_ok_insert Hl Hx Hc Hold).
Qed.
