(* ===== verification/FsWrite.v ===== *)
(** * Writing files

    [writei] of src/fs.c replaces exactly the bytes it is given, in blocks of the file that
    it allocates where they are missing, and grows the file and its inode on disk; the
    blocks and inodes of other files keep their contents. *)

From S2P Require Import Prelude Param KString Spinlock Bio Log LogCrash LogOps Fs FsView FsFile FsRead FsInode.
Local Open Scope Z_scope.

(** ** Definitions *)

(** The file after the [n] bytes at [src] of memory [m] have been written at [off]. *)
Record wrote (sb : superblock) (m : mem) (src off n : Z) (vw : Z → mem) (d : dinode)
    (vw' : Z → mem) (d' : dinode) : Prop := {
  wt_ok : file_ok sb vw' d';
  wt_rest : set_di_addrs [] d' = set_di_addrs [] d;
  wt_byte : ∀ y, 0 ≤ y < MAXFILE * BSIZE →
    fbyte vw' d' y = if (off <=? y) && (y <? off + n) then m (src + (y - off)) else fbyte vw d y;
  wt_slot : ∀ k, (k < NSLOT)%nat → slot vw d k ≠ 0 → slot vw' d' k ≠ 0;
  wt_hole : no_hole vw' d' off n;
  wt_foreign : ∀ x, foreign sb vw d x → foreign sb vw' d' x ∧ vw' x = vw x;
  wt_meta : meta_used sb vw → meta_used sb vw'
}.
Arguments wt_ok {sb m src off n vw d vw' d'} _.
Arguments wt_rest {sb m src off n vw d vw' d'} _.
Arguments wt_byte {sb m src off n vw d vw' d'} _.
Arguments wt_slot {sb m src off n vw d vw' d'} _.
Arguments wt_hole {sb m src off n vw d vw' d'} _.
Arguments wt_foreign {sb m src off n vw d vw' d'} _.
Arguments wt_meta {sb m src off n vw d vw' d'} _.

(** The rounds left when [tot] bytes have been copied. *)
Definition rounds_left (off n tot : Z) : Z := if tot <? n then rounds off (n - tot) else 0.

(** What a call of [writei] promises. *)
Record written (sb : superblock) (m : mem) (inum src off n : Z) (vw : Z → mem) (d : dinode)
    (vw' : Z → mem) (d' : dinode) : Prop := {
  wn_ok : file_ok sb vw' d';
  wn_rest : set_di_size 0 (set_di_addrs [] d') = set_di_size 0 (set_di_addrs [] d);
  wn_size : di_size d' = Z.max (di_size d) (if n =? 0 then 0 else off + n);
  wn_byte : ∀ y, 0 ≤ y < MAXFILE * BSIZE →
    fbyte vw' d' y = if (off <=? y) && (y <? off + n) then m (src + (y - off)) else fbyte vw d y;
  wn_hole : no_hole vw d 0 (di_size d) → no_hole vw' d' 0 (di_size d');
  wn_disk : di_size d < di_size d' → disk_inode sb vw' inum = d';
  wn_inodes : ∀ j, 0 ≤ j < sb_ninodes sb → j ≠ inum → disk_inode sb vw' j = disk_inode sb vw j;
  wn_blocks : ∀ x, data_start sb ≤ x → foreign sb vw d x → foreign sb vw' d' x ∧ vw' x = vw x;
  wn_meta : meta_used sb vw'
}.
Arguments wn_ok {sb m inum src off n vw d vw' d'} _.
Arguments wn_rest {sb m inum src off n vw d vw' d'} _.
Arguments wn_size {sb m inum src off n vw d vw' d'} _.
Arguments wn_byte {sb m inum src off n vw d vw' d'} _.
Arguments wn_hole {sb m inum src off n vw d vw' d'} _.
Arguments wn_disk {sb m inum src off n vw d vw' d'} _.
Arguments wn_inodes {sb m inum src off n vw d vw' d'} _.
Arguments wn_blocks {sb m inum src off n vw d vw' d'} _.
Arguments wn_meta {sb m inum src off n vw d vw' d'} _.

(** ** Lemmas *)

(** *** One chunk *)

Section Chunk.
Context {sb : superblock} {vw : Z → mem} {d : dinode} {m : mem} {src off c : Z}.
Hypothesis G : geometry sb.
Hypothesis Hf : file_ok sb vw d.
Hypothesis Hoff : 0 ≤ off.
Hypothesis Hc : 0 < c ∧ off mod BSIZE + c ≤ BSIZE.
Hypothesis Hmax : off + c ≤ MAXFILE * BSIZE.
Let bn := off / BSIZE.
Let a := slot vw d (bslot bn).
Hypothesis Ha : a ≠ 0.
Let vw' := <[a := blit (vw a) (off mod BSIZE) m src c]> vw.

Lemma chunk_bn : 0 ≤ bn < MAXFILE.
Proof using All.
  unfold bn. split; [by apply Z.div_pos | apply Z.div_lt_upper_bound; [done | lia]].
Qed.

Lemma chunk_addr : data_start sb ≤ a < sb_size sb ∧ used sb vw a = true.
Proof using All. apply (fk_data Hf); [by apply bslot_lt, chunk_bn | done]. Qed.

Lemma chunk_used x : 0 ≤ x < sb_size sb → used sb vw' x = used sb vw x.
Proof using All.
  intros Hx. unfold used, vw'. rewrite fn_lookup_insert_ne; [done|].
  pose proof (BBLOCK_range G x Hx). pose proof chunk_addr. lia.
Qed.

Lemma chunk_slot k : slot vw' d k = slot vw d k.
Proof using All.
  apply slot_ext. unfold vw'. rewrite fn_lookup_insert_ne; [done|].
  rewrite <- slot_direct with (vw := vw) by done. unfold a. intros E.
  apply (bslot_indirect bn chunk_bn).
  apply (fk_inj Hf); [by apply bslot_lt, chunk_bn | apply NDIRECT_NSLOT | done | done].
Qed.

Lemma chunk_ok : file_ok sb vw' d.
Proof using All.
  pose proof (geo_order G) as Hg. split; [apply Hf | |].
  - intros k Hk. rewrite chunk_slot. intros Hne. destruct (fk_data Hf k Hk Hne) as [Hr Hu].
    split; [done|]. by rewrite chunk_used by lia.
  - intros k j Hk Hj. rewrite !chunk_slot. by apply (fk_inj Hf).
Qed.

Lemma chunk_byte y :
  0 ≤ y < MAXFILE * BSIZE →
  fbyte vw' d y = if (off <=? y) && (y <? off + c) then m (src + (y - off)) else fbyte vw d y.
Proof using All.
  intros Hy. destruct (fbyte_slot y Hy) as (Hk & _ & Hmod). unfold fbyte. rewrite chunk_slot.
  destruct (decide (y / BSIZE = bn)) as [E|E].
  - rewrite E. fold a. destruct (Z.eqb_spec a 0); [done|]. unfold vw'. rewrite fn_lookup_insert.
    unfold blit. replace (off mod BSIZE <=? y mod BSIZE) with (off <=? y).
    2:{ unfold bn, BSIZE in *. destruct (Z.leb_spec off y), (Z.leb_spec (off mod 512) (y mod 512)); zmod_lia. }
    replace (y mod BSIZE <? off mod BSIZE + c) with (y <? off + c).
    2:{ unfold bn, BSIZE in *. destruct (Z.ltb_spec y (off + c)), (Z.ltb_spec (y mod 512) (off mod 512 + c)); zmod_lia. }
    destruct (_ && _); [|done]. f_equal. unfold bn, BSIZE in *. zmod_lia.
  - replace ((off <=? y) && (y <? off + c)) with false.
    2:{ symmetry. apply andb_false_iff. destruct (Z.leb_spec off y), (Z.ltb_spec y (off + c)); auto.
        destruct E. apply (chunk_block off c y); lia. }
    destruct (Z.eqb_spec (slot vw d (bslot (y / BSIZE))) 0) as [|Hne]; [done|].
    unfold vw'. rewrite fn_lookup_insert_ne; [done|]. intros E'. destruct E.
    apply bslot_inj; [apply Z.div_pos; [lia | done] | apply chunk_bn |]. symmetry.
    apply (fk_inj Hf); [by apply bslot_lt, chunk_bn | done | done | done].
Qed.

Lemma chunk_room n : disk_room sb vw d n → disk_room sb vw' d n.
Proof using All.
  intros (fl & Hnd & Hlen & Hfl). exists fl. split_and!; [done..|].
  intros b Hb. destruct (Hfl b Hb) as [Hr Hu]. split; [done|]. by rewrite chunk_used.
Qed.

Lemma chunk_wrote : wrote sb m src off c vw d vw' d.
Proof using All.
  pose proof (geo_order G) as Hg. pose proof chunk_addr as [Har Hau]. pose proof chunk_bn as Hbn. split.
  - apply chunk_ok.
  - done.
  - apply chunk_byte.
  - intros k _. by rewrite chunk_slot.
  - intros y Hy. destruct (chunk_block off c y) as [E _]; [lia..|]. rewrite chunk_slot, E. done.
  - intros x [Hx|(Hx & Hu & Hs)].
    + split; [by left|]. unfold vw'. rewrite fn_lookup_insert_ne by lia. done.
    + assert (a ≠ x) by by apply Hs, bslot_lt. split.
      * right. rewrite chunk_used by lia. split_and!; [lia.. | done |]. intros k. rewrite chunk_slot. auto.
      * unfold vw'. by rewrite fn_lookup_insert_ne.
  - intros Hm x Hx. rewrite chunk_used by lia. by apply Hm.
Qed.
End Chunk.

(** *** Composition *)

Lemma wrote_nothing sb m src off vw d : file_ok sb vw d → wrote sb m src off 0 vw d vw d.
Proof.
  intros Hf. split; auto.
  - intros y Hy. destruct (Z.leb_spec off y), (Z.ltb_spec y (off + 0)); lia || done.
  - intros y Hy. lia.
Qed.

Lemma wrote_extends sb m src off n vw d vw1 d1 vw2 d2 :
  extends sb vw d vw1 d1 → wrote sb m src off n vw1 d1 vw2 d2 → wrote sb m src off n vw d vw2 d2.
Proof.
  intros H1 H2. split; try apply H2.
  - rewrite (wt_rest H2). apply H1.
  - intros y Hy. rewrite (wt_byte H2) by done. by rewrite (ex_byte H1).
  - intros k Hk Hne. apply H2; [done|]. by rewrite (ex_slot H1).
  - intros x Hx. destruct (ex_foreign H1 x Hx) as [Hx1 <-]. by apply H2.
  - intros Hm. by apply H2, H1.
Qed.

Lemma wrote_trans sb m src off c n vw d vw1 d1 vw2 d2 :
  0 ≤ off → 0 ≤ c ≤ n → off + n ≤ MAXFILE * BSIZE →
  wrote sb m src off c vw d vw1 d1 →
  wrote sb m (src + c) (off + c) (n - c) vw1 d1 vw2 d2 → wrote sb m src off n vw d vw2 d2.
Proof.
  intros Hoff Hc Hmax H1 H2. split; try apply H2.
  - rewrite (wt_rest H2). apply H1.
  - intros y Hy. rewrite (wt_byte H2), (wt_byte H1) by done.
    destruct (Z.leb_spec off y), (Z.ltb_spec y (off + n)), (Z.leb_spec (off + c) y),
      (Z.ltb_spec y (off + c + (n - c))), (Z.ltb_spec y (off + c)); cbn [andb]; try lia; f_equal; lia.
  - intros k Hk Hne. by apply H2, H1.
  - intros y Hy. destruct (Z.lt_ge_cases y (off + c)); [|apply (wt_hole H2); lia].
    apply (wt_slot H2); [|apply (wt_hole H1); lia]. apply bslot_lt.
    split; [apply Z.div_pos; [lia | done] | apply Z.div_lt_upper_bound; [done | lia]].
  - intros x Hx. destruct (wt_foreign H1 x Hx) as [Hx1 <-]. by apply H2.
  - intros Hm. by apply H2, H1.
Qed.

(** *** The loop *)

Section Write.
Context {sb : superblock} {dk : Z → mem} {wr : list (Z * mem)} {o : Z} {ip : nat} {s : fsst}.
Hypothesis Ho : 1 ≤ o.
Hypothesis Hip : (ip < length (ic_inode s))%nat.
Hypothesis Hone : sb_size sb ≤ BPB.

Lemma left_step n tot off (c := chunk n tot off) :
  0 ≤ off → tot < n → rounds_left off n tot = rounds_left (off + c) n (tot + c) + 1 ∨
    (rounds_left off n tot = rounds off (n - tot) ∧ rounds_left (off + c) n (tot + c) = 0 ∧ 1 ≤ rounds_left off n tot).
Proof using.
  clear. intros Hoff Hlt. pose proof (chunk_range n tot off Hoff Hlt) as Hc. cbv zeta in Hc. fold c in Hc.
  pose proof (rounds_pos off (n - tot) ltac:(lia)). unfold rounds_left.
  destruct (Z.ltb_spec tot n); [|lia]. destruct (Z.ltb_spec (tot + c) n); [left | right; lia].
  unfold c. rewrite rounds_step by lia. lia.
Qed.

Lemma disk_room_mono vw d n n' : (n' ≤ n)%nat → disk_room sb vw d n → disk_room sb vw d n'.
Proof using. clear. intros Hn (fl & ? & ? & ?). exists fl. split_and!; [done | lia | done]. Qed.

Lemma log_room_mono bl d n n' : n' ≤ n → log_room sb bl d n → log_room sb bl d n'.
Proof using. clear. unfold log_room. lia. Qed.

Lemma log_room_bufs bl d n :
  geometry sb → log_room sb bl d n → 0 ≤ n → buf_room ∅ bl ∧ Z.of_nat (length bl) < sb_nlog sb - 1.
Proof using.
  clear. intros G Hr Hn. pose proof (log_room_len Hr Hn).
  pose proof (ly_nlog _ _ _ (gm_layout _ G)). unfold buf_room, NBUF, LOGSIZE, MAXOPBLOCKS in *.
  rewrite map_size_empty. lia.
Qed.

Lemma writei_loop_rule fuel vw bl x l src off n tot e (Q : Z → fsst → Prop) :
  fs_ok sb vw dk wr ∅ bl o (ist ip x l s) → i_dev x = 1 → file_ok sb vw (i_d x) →
  meta_used sb vw → 0 ≤ off → 0 ≤ src → tot ≤ n → off + (n - tot) ≤ MAXFILE * BSIZE →
  src + (n - tot) < 4294967296 → disk_room sb vw (i_d x) (Z.to_nat (rounds_left off n tot) + e) →
  log_room sb bl (i_d x) (rounds_left off n tot + 1) → rounds_left off n tot + 1 ≤ Z.of_nat fuel →
  (∀ vw' bl' d' l', wrote sb (fs_mem s) src off (n - tot) vw (i_d x) vw' d' →
     log_room sb bl' d' 1 → disk_room sb vw' d' e →
     fs_ok sb vw' dk wr ∅ bl' o (ist ip (set_i_d d' x) l' s) →
     Q (off + (n - tot)) (ist ip (set_i_d d' x) l' s)) →
  runs (writei_loop fuel ip src off n tot) (ist ip x l s) Q.
Proof using Ho Hip Hone.
  revert vw bl x l src off tot Q. induction fuel as [|fuel IH];
    intros vw bl x l src off tot Q H Hdev Hf Hmeta Hoff Hsrc Htot Hmax Hwrap Hdisk Hlog Hfuel HQ.
  { pose proof (rounds_pos off (n - tot)). unfold rounds_left in Hfuel. destruct (Z.ltb_spec tot n); lia. }
  pose proof (fo_geo H) as G. pose proof (geo_order G) as Hg.
  cbn [writei_loop]. destruct (Z.ltb_spec tot n) as [Hlt|Hge].
  - pose proof (chunk_range n tot off Hoff Hlt) as Hc. cbv zeta in Hc.
    pose proof (left_step n tot off Hoff Hlt) as Hleft. set (c := chunk n tot off) in *.
    assert (Hl1 : rounds_left (off + c) n (tot + c) + 1 ≤ rounds_left off n tot) by lia.
    assert (Hl0 : 0 ≤ rounds_left (off + c) n (tot + c)).
    { unfold rounds_left. destruct (Z.ltb_spec (tot + c) n); [|lia].
      pose proof (rounds_pos (off + c) (n - (tot + c))). lia. }
    set (r := Z.to_nat (rounds_left (off + c) n (tot + c))) in *.
    assert (Hbn : 0 ≤ off / BSIZE < MAXFILE).
    { split; [by apply Z.div_pos | apply Z.div_lt_upper_bound; [done | lia]]. }
    apply runs_bind, (ino_rule Hip). rewrite Hdev. apply runs_bind.
    eapply (bmap_rule Ho Hip Hone _ _ _ _ _ (r + e) (rounds_left off n tot + 1)); [done.. | | done | lia |].
    { eapply disk_room_mono; [|done]. lia. }
    intros vw1 bl1 d1 l1 a Ha Hex Hdisk1 Hlog1 H1.
    destruct (fk_data (ex_ok Hex) _ (bslot_lt _ Hbn) Ha) as [Har _].
    destruct (log_room_bufs _ _ _ G Hlog1) as [_ Hlen1]; [lia|].
    pose proof (length_log_record bl1 a) as Hlr.
    assert (Hroom1 : buf_room ∅ bl1).
    { pose proof (ly_nlog _ _ _ (gm_layout _ G)). unfold buf_room, NBUF, LOGSIZE, MAXOPBLOCKS in *.
      rewrite map_size_empty. lia. }
    apply runs_bind, (fs_bread_rule H1); [done | done | lia |]. intros i l2 _ H2.
    apply runs_bind, (fs_bdata_rule H2 a); [apply lookup_insert_eq|]. apply runs_bind, runs_get.
    apply fs_store_then, (fs_store_rule _ _ _ _ _ _ _ _ _ _ _ _ H2); [done | lia | done | lia |].
    intros l3 H3.
    change (set_fs_log l3 _) with (ist ip (set_i_d d1 x) l3 s) in H3 |- *.
    change (fs_mem (set_fs_log _ _)) with (fs_mem s) in H3.
    rewrite (u32_small (src + c)), (u32_small (off + c)) by (change (MAXFILE * BSIZE) with 70656 in *; lia).
    pose proof (chunk_wrote (sb := sb) (vw := vw1) (d := d1) (m := fs_mem s) (src := src) (off := off)
      (c := c) G (ex_ok Hex) Hoff ltac:(lia) ltac:(lia) Ha) as Hw.
    change (slot vw1 d1 (bslot (off / BSIZE))) with a in Hw.
    eapply IH; [exact H3 | done | apply Hw | by apply Hw, Hex | lia.. | | | lia |].
    + apply (chunk_room (src := src) (c := c) G (ex_ok Hex) Hoff); [lia | lia | done | done].
    + eapply log_room_mono; [|exact Hlog1]. lia.
    + intros vw2 bl2 d2 l4 Hw2 Hlog2 Hdr2 H4. replace (off + c + (n - (tot + c))) with (off + (n - tot)) by lia.
      apply (HQ vw2 bl2 d2 l4); [|done..]. eapply wrote_extends; [exact Hex|].
      eapply (wrote_trans _ _ _ _ c); [lia.. | exact Hw |]. by replace (n - tot - c) with (n - (tot + c)) by lia.
  - assert (n - tot = 0) as E by lia. rewrite E in *. apply runs_ret. rewrite <- (set_i_d_id x).
    replace off with (off + 0) at 1 by lia. apply (HQ vw bl); [by apply wrote_nothing | | | by rewrite set_i_d_id].
    + eapply log_room_mono; [|done]. unfold rounds_left. destruct (Z.ltb_spec tot n); lia.
    + eapply disk_room_mono; [|done]. lia.
Qed.
End Write.

(** *** The inode *)

Section InodeFrame.
Context {sb : superblock} {vw : Z → mem} {d : dinode} {b : Z} {m : mem}.
Hypothesis G : geometry sb.
Hypothesis Hf : file_ok sb vw d.
Hypothesis Hb : sb_inodestart sb ≤ b < sb_bmapstart sb.

Lemma inode_frame_used x : 0 ≤ x < sb_size sb → used sb (<[b := m]> vw) x = used sb vw x.
Proof using G Hb.
  intros Hx. unfold used. pose proof (BBLOCK_range G x Hx). by rewrite fn_lookup_insert_ne by lia.
Qed.

Lemma inode_frame_data k : (k < NSLOT)%nat → slot vw d k ≠ 0 → slot vw d k ≠ b.
Proof using G Hf Hb. intros Hk Hne. pose proof (geo_order G). destruct (fk_data Hf k Hk Hne). lia. Qed.

Lemma inode_frame_slot k : slot (<[b := m]> vw) d k = slot vw d k.
Proof using G Hf Hb.
  destruct (decide (di_addrs d !!! NDIRECT = 0)) as [E|E].
  - unfold slot. by rewrite E.
  - apply slot_ext. rewrite fn_lookup_insert_ne; [done|].
    rewrite <- slot_direct with (vw := vw) in E |- * by done.
    intros E'. by apply (inode_frame_data NDIRECT NDIRECT_NSLOT E).
Qed.

Lemma inode_frame_ok : file_ok sb (<[b := m]> vw) d.
Proof using G Hf Hb.
  pose proof (geo_order G). split; [apply Hf | |].
  - intros k Hk. rewrite inode_frame_slot. intros Hne. destruct (fk_data Hf k Hk Hne).
    split; [done|]. by rewrite inode_frame_used by lia.
  - intros k j Hk Hj. rewrite !inode_frame_slot. by apply (fk_inj Hf).
Qed.

Lemma inode_frame_byte y : 0 ≤ y < MAXFILE * BSIZE → fbyte (<[b := m]> vw) d y = fbyte vw d y.
Proof using G Hf Hb.
  intros (Hk & _ & _)%fbyte_slot. unfold fbyte. rewrite inode_frame_slot.
  destruct (Z.eqb_spec (slot vw d (bslot (y / BSIZE))) 0); [done|].
  rewrite fn_lookup_insert_ne; [done|]. intros E. by apply (inode_frame_data _ Hk).
Qed.

Lemma inode_frame_room n : disk_room sb vw d n → disk_room sb (<[b := m]> vw) d n.
Proof using G Hb.
  intros (fl & Hnd & Hlen & Hfl). exists fl. split_and!; [done..|].
  intros y Hy. destruct (Hfl y Hy) as [Hr Hu]. split; [done|]. by rewrite inode_frame_used.
Qed.
End InodeFrame.

(** The size is no part of the blocks. *)
Lemma slot_size vw d n k : slot vw (set_di_size n d) k = slot vw d k.
Proof. done. Qed.

Lemma file_ok_size sb vw d n : file_ok sb vw d → file_ok sb vw (set_di_size n d).
Proof. intros []. by split. Qed.

Lemma file_addrs_uint sb vw d : geometry sb → file_ok sb vw d → Forall uint (di_addrs d).
Proof.
  intros G Hf. pose proof (geo_order G). apply Forall_lookup. intros k a Hk.
  assert (k ≤ NDIRECT)%nat as Hle by (apply lookup_lt_Some in Hk; rewrite (fk_addrs Hf) in Hk; lia).
  assert (slot vw d k = a) as Es by (rewrite slot_direct by done; by apply list_lookup_total_correct).
  pose proof NDIRECT_NSLOT. unfold uint. destruct (decide (a = 0)); [lia|].
  destruct (fk_data Hf k); [lia | congruence | lia].
Qed.

Lemma wrote_fields sb m src off n vw d vw' d' :
  wrote sb m src off n vw d vw' d' →
  di_size d' = di_size d ∧ (dinode_wf d → Forall uint (di_addrs d') → ∀ k, uint k →
    dinode_wf (set_di_size k d')).
Proof.
  intros H. pose proof (wt_rest H) as E. destruct d, d'. cbn in *. injection E as -> -> -> -> -> -> -> ->.
  split; [done|]. intros [] Ha k Hk. split; cbn in *; try done. apply (fk_addrs (wt_ok H)).
Qed.

Lemma bslot_file y : 0 ≤ y < MAXFILE * BSIZE → (bslot (y / BSIZE) < NSLOT)%nat.
Proof. intros Hy. by destruct (fbyte_slot y Hy). Qed.

Section Written.
Context {sb : superblock} {m : mem} {inum src off n : Z} {vw vw' : Z → mem} {d d' : dinode}.
Hypothesis G : geometry sb.
Hypothesis Hw : wrote sb m src off n vw d vw' d'.
Hypothesis Hmeta : meta_used sb vw.
Hypothesis Hoff : 0 ≤ off ≤ di_size d.
Hypothesis Hn : 0 ≤ n.
Hypothesis Hmax : off + n ≤ MAXFILE * BSIZE ∧ di_size d ≤ MAXFILE * BSIZE.
Hypothesis Hi : 0 ≤ inum < sb_ninodes sb.

Lemma wrote_no_hole :
  no_hole vw d 0 (di_size d) → no_hole vw' d' 0 (Z.max (di_size d) (off + n)).
Proof using Hw Hoff Hmax.
  intros Hh y Hy. destruct (Z.lt_ge_cases y (di_size d)).
  - apply (wt_slot Hw); [apply bslot_file; lia | apply Hh; lia].
  - apply (wt_hole Hw). lia.
Qed.

Lemma wrote_disk_inode j : 0 ≤ j < sb_ninodes sb → disk_inode sb vw' j = disk_inode sb vw j.
Proof using G Hw.
  intros Hj. unfold disk_inode. pose proof (IBLOCK_range G j Hj).
  destruct (wt_foreign Hw (IBLOCK j sb)) as [_ ->]; [by left | done].
Qed.

Lemma written_same :
  n = 0 ∨ off + n ≤ di_size d → written sb m inum src off n vw d vw' d'.
Proof using G Hw Hmeta Hoff Hn Hmax Hi.
  intros Hs. destruct (wrote_fields _ _ _ _ _ _ _ _ _ Hw) as [Es _]. split; try apply Hw.
  - pose proof (wt_rest Hw) as E. by rewrite E.
  - rewrite Es. destruct (Z.eqb_spec n 0); lia.
  - intros Hh. rewrite Es. pose proof (wrote_no_hole Hh) as Hh'. intros y Hy. apply Hh'. lia.
  - lia.
  - intros j Hj _. by apply wrote_disk_inode.
  - intros x _. apply Hw.
  - done.
Qed.

Lemma written_grow (b := IBLOCK inum sb) (d2 := set_di_size (off + n) d') :
  dinode_wf d → di_size d < off + n →
  written sb m inum src off n vw d
    (<[b := dinode_store (vw' b) (inum mod IPB * SIZEOF_dinode) d2]> vw') d2.
Proof using G Hw Hmeta Hoff Hn Hmax Hi.
  intros Hwf Hs. destruct (wrote_fields _ _ _ _ _ _ _ _ _ Hw) as [Es Hwf'].
  pose proof (IBLOCK_range G inum Hi) as Hb. pose proof (geo_order G) as Hg.
  assert (Hd2 : file_ok sb vw' d2) by apply file_ok_size, Hw.
  change (MAXFILE * BSIZE) with 70656 in Hmax.
  assert (Hwf2 : dinode_wf d2) by (apply Hwf'; [done | eapply file_addrs_uint; [done | apply Hw] | unfold uint; lia]).
  split.
  - by apply inode_frame_ok.
  - pose proof (wt_rest Hw) as E. destruct d, d'. cbn in *. by injection E as -> -> -> -> -> -> -> ->.
  - cbn. destruct (Z.eqb_spec n 0); lia.
  - intros y Hy. rewrite inode_frame_byte by done. by apply (wt_byte Hw).
  - intros Hh y Hy. rewrite inode_frame_slot by done. apply (wrote_no_hole Hh). cbn in Hy. lia.
  - intros _. by apply disk_inode_written.
  - intros j Hj Hne. unfold b. rewrite disk_inode_update by (done || apply Hwf2). by apply wrote_disk_inode.
  - intros x Hx Hfo. destruct (wt_foreign Hw x Hfo) as [Hfo' <-]. split.
    + destruct Hfo' as [?|(Hr & Hu & Hsl)]; [by left|right]. rewrite inode_frame_used by (done || lia).
      split_and!; [lia.. | done |]. intros k Hk. rewrite inode_frame_slot by done. by apply Hsl.
    + rewrite fn_lookup_insert_ne; [done | lia].
  - intros x Hx. rewrite inode_frame_used by (done || lia). by apply (wt_meta Hw).
Qed.
End Written.

Lemma written_type {sb m inum src off n vw d vw' d'} :
  written sb m inum src off n vw d vw' d' → di_type d' = di_type d.
Proof. intros H. pose proof (wn_rest H) as E. by apply (f_equal di_type) in E. Qed.

Lemma written_wf {sb m inum src off n vw d vw' d'} :
  geometry sb → written sb m inum src off n vw d vw' d' → dinode_wf d → uint (di_size d') → dinode_wf d'.
Proof.
  intros G H [] Hs. pose proof (file_addrs_uint _ _ _ G (wn_ok H)) as Ha. pose proof (fk_addrs (wn_ok H)) as Hl.
  pose proof (wn_rest H) as E. destruct d, d'. cbn in *. injection E as -> -> -> -> -> -> ->. by split.
Qed.

(** *** [writei] *)

Lemma writei_rule devs sb vw dk wr bl o s ip x src off n e (Q : Z → fsst → Prop)
    (r := if n =? 0 then 0 else rounds off n) :
  fs_ok sb vw dk wr ∅ bl o s → 1 ≤ o → sb_size sb ≤ BPB →
  ic_inode s !! ip = Some x → i_dev x = 1 → 0 ≤ i_inum x < sb_ninodes sb →
  di_type (i_d x) ≠ T_DEV → dinode_wf (i_d x) → file_ok sb vw (i_d x) → meta_used sb vw →
  0 ≤ off ≤ di_size (i_d x) → di_size (i_d x) ≤ MAXFILE * BSIZE → 0 ≤ n →
  off + n ≤ MAXFILE * BSIZE → 0 ≤ src → src + n < 4294967296 →
  disk_room sb vw (i_d x) (Z.to_nat r + e) → log_room sb bl (i_d x) (r + 1) →
  (∀ vw' bl' d' l', written sb (fs_mem s) (i_inum x) src off n vw (i_d x) vw' d' →
     (length bl' ≤ Z.to_nat (sb_nlog sb - 1))%nat → disk_room sb vw' d' e →
     fs_ok sb vw' dk wr ∅ bl' o (ist ip (set_i_d d' x) l' s) →
     Q n (ist ip (set_i_d d' x) l' s)) →
  runs (writei devs ip src off n) s Q.
Proof.
  intros H Ho Hone Hx Hdev Hi Ht Hwf Hf Hmeta Hoff Hsz Hn Hmax Hsrc Hwrap Hdisk Hlog HQ.
  assert (Hip : (ip < length (ic_inode s))%nat) by by eapply lookup_lt_Some.
  pose proof (fo_geo H) as G. unfold writei. rewrite <- (ist_id ip x s) in H |- * by done.
  apply runs_bind, (ino_rule Hip). destruct (Z.eqb_spec (di_type (i_d x)) T_DEV); [done|].
  pose proof (io_fuel_enough off n Hn) as Hfuel.
  assert (Hr : rounds_left off n 0 = r).
  { unfold rounds_left, r. rewrite Z.sub_0_r. destruct (Z.ltb_spec 0 n), (Z.eqb_spec n 0); lia || done. }
  rewrite (u32_small (off + n)) by (change (MAXFILE * BSIZE) with 70656 in *; lia).
  rewrite !Z.gtb_ltb. destruct (Z.ltb_spec (di_size (i_d x)) off); [lia|].
  destruct (Z.ltb_spec (off + n) off); [lia|]. destruct (Z.ltb_spec (MAXFILE * BSIZE) (off + n)); [lia|].
  cbn [orb]. apply runs_bind.
  eapply (writei_loop_rule (dk := dk) (wr := wr) Ho Hip Hone _ vw bl x (fs_log s) _ _ _ _ e); [done.. | lia | lia | lia | lia | lia | by rewrite Hr | by rewrite Hr | |].
  { rewrite Hr. unfold r. destruct (Z.eqb_spec n 0); lia. }
  rewrite Z.sub_0_r. intros vw' bl' d' l' Hw Hlog' Hdr' H'.
  destruct (wrote_fields _ _ _ _ _ _ _ _ _ Hw) as [Es _].
  destruct (log_room_bufs _ _ _ G Hlog' ltac:(lia)) as [Hroom' Hlen'].
  apply runs_bind, (ino_rule Hip). cbn [i_d set_i_d]. rewrite Es, !Z.gtb_ltb.
  change (MAXFILE * BSIZE) with 70656 in *. rewrite s32_small by lia.
  destruct (decide (0 < n ∧ di_size (i_d x) < off + n)) as [[Hpos Hgrow]|Hno].
  - replace ((0 <? n) && (di_size (i_d x) <? off + n)) with true by (bool_cases; done). cbn [kwhen].
    apply runs_bind, runs_bind, (ino_mod_rule Hip). cbn [i_d set_i_d].
    eapply (iupdate_rule sb vw' dk wr bl' o ip); [done.. | | done | done | done | done |].
    { by eapply fs_ok_ist. }
    intros l2 Hup. apply runs_ret. eapply (HQ _ _ (set_di_size (off + n) d') l2); [| | |exact Hup].
    + by apply written_grow.
    + pose proof (length_log_record bl' (IBLOCK (i_inum x) sb)). cbn. lia.
    + apply inode_frame_room; [done | by apply (IBLOCK_range G) | done].
  - replace ((0 <? n) && (di_size (i_d x) <? off + n)) with false by (bool_cases; lia || done). cbn [kwhen].
    apply runs_bind, runs_ret, runs_ret. eapply (HQ vw' bl'); [|lia | done | exact H']. apply written_same; lia || done.
Qed.

(** ** Theorems *)

(** C7: [writei] inside a transaction with room for the blocks returns [n] and has
    [written] the file: the bytes at [off, off + n) are those at [src], the other bytes
    are unchanged (new blocks are zero), the size is extended and stored in the inode on
    disk, the blocks stay disjoint from those of other files, and other inodes, other
    files' blocks and memory are unchanged. *)
Theorem writei_correct devs sb vw dk wr bl o s ip x src off n
    (r := if n =? 0 then 0 else rounds off n) :
  fs_ok sb vw dk wr ∅ bl o s → 1 ≤ o → sb_size sb ≤ BPB →
  ic_inode s !! ip = Some x → i_dev x = 1 → 0 ≤ i_inum x < sb_ninodes sb →
  di_type (i_d x) ≠ T_DEV → dinode_wf (i_d x) → file_ok sb vw (i_d x) → meta_used sb vw →
  0 ≤ off ≤ di_size (i_d x) → di_size (i_d x) ≤ MAXFILE * BSIZE → 0 ≤ n →
  off + n ≤ MAXFILE * BSIZE → 0 ≤ src → src + n < 4294967296 →
  disk_room sb vw (i_d x) (Z.to_nat r) → log_room sb bl (i_d x) (r + 1) →
  ∃ s' vw' bl' d', writei devs ip src off n s = Ok (n, s') ∧
    written sb (fs_mem s) (i_inum x) src off n vw (i_d x) vw' d' ∧
    fs_ok sb vw' dk wr ∅ bl' o s' ∧ fs_mem s' = fs_mem s ∧
    ic_inode s' = <[ip := set_i_d d' x]> (ic_inode s).
Proof.
  intros H Ho Hone Hx Hdev Hi Ht Hwf Hf Hmeta Hoff Hsz Hn Hmax Hsrc Hwrap Hdisk Hlog.
  assert (R : runs (writei devs ip src off n) s (λ v s', v = n ∧ ∃ vw' bl' d',
    written sb (fs_mem s) (i_inum x) src off n vw (i_d x) vw' d' ∧ fs_ok sb vw' dk wr ∅ bl' o s' ∧
    fs_mem s' = fs_mem s ∧ ic_inode s' = <[ip := set_i_d d' x]> (ic_inode s))).
  { eapply (writei_rule _ _ _ _ _ _ _ _ _ _ _ _ _ 0); [done.. | by rewrite Nat.add_0_r | done |].
    intros vw' bl' d' l' Hw _ _ H'. split; [done|]. by exists vw', bl', d'. }
  destruct R as (v & s' & E & -> & vw' & bl' & d' & R). by exists s', vw', bl', d'.
Qed.

(** Reading back: after [writei] of [n] bytes, [readi] of the same range of the file
    delivers the same bytes. *)
Theorem writei_readi_roundtrip devs sb vw dk wr bl o s ip x src dst off n
    (r := if n =? 0 then 0 else rounds off n) :
  fs_ok sb vw dk wr ∅ bl o s → 1 ≤ o → sb_size sb ≤ BPB →
  ic_inode s !! ip = Some x → i_dev x = 1 → 0 ≤ i_inum x < sb_ninodes sb →
  di_type (i_d x) ≠ T_DEV → dinode_wf (i_d x) → file_ok sb vw (i_d x) → meta_used sb vw →
  no_hole vw (i_d x) 0 (di_size (i_d x)) →
  0 ≤ off ≤ di_size (i_d x) → di_size (i_d x) ≤ MAXFILE * BSIZE → 0 ≤ n →
  off + n ≤ MAXFILE * BSIZE → 0 ≤ src → src + n < 4294967296 →
  0 ≤ dst → dst + n < 4294967296 →
  disk_room sb vw (i_d x) (Z.to_nat r) → log_room sb bl (i_d x) (r + 1) →
  ∃ s1 s2, writei devs ip src off n s = Ok (n, s1) ∧ readi devs ip dst off n s1 = Ok (n, s2) ∧
    ∀ i, 0 ≤ i < n → fs_mem s2 (dst + i) = fs_mem s (src + i).
Proof.
  intros H Ho Hone Hx Hdev Hi Ht Hwf Hf Hmeta Hhole Hoff Hsz Hn Hmax Hsrc Hwrap Hdst Hdwrap Hdisk Hlog.
  assert (Hip : (ip < length (ic_inode s))%nat) by by eapply lookup_lt_Some.
  assert (R : runs (writei devs ip src off n) s (λ v s1, v = n ∧
    ∃ s2, readi devs ip dst off n s1 = Ok (n, s2) ∧ ∀ i, 0 ≤ i < n → fs_mem s2 (dst + i) = fs_mem s (src + i))).
  2:{ destruct R as (v & s1 & E & -> & s2 & R). by exists s1, s2. }
  eapply (writei_rule _ _ _ _ _ _ _ _ _ _ _ _ _ 0); [done.. | by rewrite Nat.add_0_r | done |].
  intros vw' bl' d' l' Hw Hlen _ H'. split; [done|].
  pose proof (written_type Hw) as Et. pose proof (wn_size Hw) as Es. change (MAXFILE * BSIZE) with 70656 in *.
  destruct (readi_reads devs sb vw' dk wr bl' o (ist ip (set_i_d d' x) l' s) ip (set_i_d d' x) dst off n)
    as (s2 & E2 & _ & _ & Hm).
  all: try done; try lia.
  - cbn. by rewrite list_lookup_insert_eq.
  - cbn. congruence.
  - apply Hw.
  - cbn. change (MAXFILE * BSIZE) with 70656. destruct (Z.eqb_spec n 0); lia.
  - by apply Hw.
  - pose proof (ly_nlog _ _ _ (gm_layout _ (fo_geo H))). unfold buf_room, NBUF, LOGSIZE, MAXOPBLOCKS in *.
    rewrite map_size_empty. lia.
  - exists s2. cbn [i_d set_i_d] in *.
    assert (Er : (if off >? di_size d' then -1 else Z.min n (di_size d' - off)) = n).
    { rewrite Z.gtb_ltb. destruct (Z.eqb_spec n 0), (Z.ltb_spec (di_size d') off); lia. }
    rewrite Er in *. split; [done|]. intros i Hi'. rewrite Hm.
    destruct (Z.leb_spec dst (dst + i)), (Z.ltb_spec (dst + i) (dst + n)); try lia. cbn [andb].
    rewrite (wn_byte Hw) by (change (MAXFILE * BSIZE) with 70656; lia).
    destruct (Z.leb_spec off (off + (dst + i - dst))), (Z.ltb_spec (off + (dst + i - dst)) (off + n)); try lia.
    cbn [andb]. f_equal. lia.
Qed.
