(* ===== verification/FsAgree.v ===== *)
(** * Transactions of the file system

    A commit changes only the blocks of the log: views of the disk that agree on the
    inode, bitmap and data blocks ([agree], an equivalence) show the same files.  With
    that, [begin_op] and [end_op] are rules on the invariant of the file system, and what
    was written in a transaction is on the disk when its [end_op] returns. *)

From S2P Require Import Prelude Param KString Spinlock Bio Log LogCrash LogOps Fs FsView FsFile FsRead FsInode FsWrite.
Local Open Scope Z_scope.

(** ** Definitions *)

Definition agree (sb : superblock) (vw vw' : Z → mem) : Prop :=
  ∀ b, sb_inodestart sb ≤ b < sb_size sb → vw b = vw' b.

#[export] Instance agree_equivalence sb : Equivalence (agree sb).
Proof.
  split.
  - by intros vw b Hb.
  - intros vw vw' H b Hb. symmetry. by apply H.
  - intros vw vw1 vw2 H1 H2 b Hb. rewrite H1 by done. by apply H2.
Qed.

(** ** Lemmas *)

Section Agree.
Context {sb : superblock} {vw vw' : Z → mem} {d : dinode}.
Hypothesis G : geometry sb.
Hypothesis A : agree sb vw vw'.

Lemma agree_used x : 0 ≤ x < sb_size sb → used sb vw' x = used sb vw x.
Proof using G A.
  intros Hx. unfold used. pose proof (BBLOCK_range G x Hx). pose proof (geo_order G). by rewrite A by lia.
Qed.

Lemma agree_free x : free sb vw x → free sb vw' x.
Proof using G A. intros [Hx Hu]. split; [done|]. by rewrite agree_used. Qed.

Lemma agree_meta : meta_used sb vw → meta_used sb vw'.
Proof using G A. intros Hm x Hx. pose proof (geo_order G). rewrite agree_used by lia. by apply Hm. Qed.

Lemma agree_room n : disk_room sb vw d n → disk_room sb vw' d n.
Proof using G A. intros (fl & ? & ? & Hfl). exists fl. split_and!; [done..|]. intros b Hb. by apply agree_free, Hfl. Qed.

Lemma agree_disk_inode i : 0 ≤ i < sb_ninodes sb → disk_inode sb vw' i = disk_inode sb vw i.
Proof using G A.
  intros Hi. unfold disk_inode. pose proof (IBLOCK_range G i Hi). pose proof (geo_order G).
  by rewrite A by lia.
Qed.

Hypothesis Hf : file_ok sb vw d.

Lemma agree_slot k : slot vw' d k = slot vw d k.
Proof using G A Hf.
  destruct (decide (di_addrs d !!! NDIRECT = 0)) as [E|E]; [unfold slot; by rewrite E|].
  apply slot_ext. symmetry. apply A. pose proof (geo_order G).
  destruct (fk_data Hf NDIRECT NDIRECT_NSLOT) as [Hr _]; rewrite slot_direct in *; done || lia.
Qed.

Lemma agree_file_ok : file_ok sb vw' d.
Proof using G A Hf.
  pose proof (geo_order G). split; [apply Hf | |].
  - intros k Hk. rewrite agree_slot. intros Hne. destruct (fk_data Hf k Hk Hne).
    split; [done|]. by rewrite agree_used by lia.
  - intros k j Hk Hj. rewrite !agree_slot. by apply (fk_inj Hf).
Qed.

Lemma agree_fbyte y : 0 ≤ y < MAXFILE * BSIZE → fbyte vw' d y = fbyte vw d y.
Proof using G A Hf.
  intros (Hk & _ & _)%fbyte_slot. unfold fbyte. rewrite agree_slot. pose proof (geo_order G).
  destruct (Z.eqb_spec (slot vw d (bslot (y / BSIZE))) 0) as [|Hne]; [done|].
  destruct (fk_data Hf _ Hk Hne). by rewrite A by lia.
Qed.

Lemma agree_no_hole off n : no_hole vw d off n → no_hole vw' d off n.
Proof using G A Hf. intros Hh y Hy. rewrite agree_slot. by apply Hh. Qed.

Lemma agree_foreign x : foreign sb vw d x → foreign sb vw' d x.
Proof using G A Hf.
  pose proof (geo_order G). intros [?|(Hx & Hu & Hs)]; [by left|right].
  rewrite agree_used by lia. split_and!; [lia.. | done |]. intros k. rewrite agree_slot. apply Hs.
Qed.
End Agree.

Lemma written_agree sb m inum src off n vw d vw1 vw2 d1 :
  geometry sb → 0 ≤ inum < sb_ninodes sb → written sb m inum src off n vw d vw1 d1 → agree sb vw1 vw2 →
  written sb m inum src off n vw d vw2 d1.
Proof.
  intros G Hi H A. pose proof (wn_ok H) as Hf. pose proof (geo_order G) as Hg. split.
  - by apply (agree_file_ok G A).
  - apply H.
  - apply H.
  - intros y Hy. rewrite (agree_fbyte G A) by done. by apply (wn_byte H).
  - intros Hh. apply (agree_no_hole G A Hf). by apply (wn_hole H).
  - intros Hs. rewrite (agree_disk_inode G A) by done. by apply (wn_disk H).
  - intros j Hj Hne. rewrite (agree_disk_inode G A) by done. by apply (wn_inodes H).
  - intros x Hx Hfo. destruct (wn_blocks H x Hx Hfo) as [Hfo' E]. split; [by apply (agree_foreign G A)|].
    rewrite <- E. symmetry. apply A. destruct Hfo' as [?|[? _]]; lia.
  - apply (agree_meta G A), H.
Qed.

(** Two writes, the second where the first one ended. *)
Lemma written_trans sb m inum src off n1 n2 vw d vw1 d1 vw2 d2 :
  0 ≤ off ≤ di_size d → 0 < n1 → 0 < n2 → off + n1 + n2 ≤ MAXFILE * BSIZE →
  0 ≤ inum < sb_ninodes sb →
  written sb m inum src off n1 vw d vw1 d1 →
  written sb m inum (src + n1) (off + n1) n2 vw1 d1 vw2 d2 →
  written sb m inum src off (n1 + n2) vw d vw2 d2.
Proof.
  intros Hoff Hn1 Hn2 Hmax Hi H1 H2. pose proof (wn_size H1) as E1. pose proof (wn_size H2) as E2.
  destruct (Z.eqb_spec n1 0), (Z.eqb_spec n2 0); try lia. split.
  - apply H2.
  - rewrite (wn_rest H2). apply H1.
  - destruct (Z.eqb_spec (n1 + n2) 0); lia.
  - intros y Hy. rewrite (wn_byte H2), (wn_byte H1) by done.
    destruct (Z.leb_spec off y), (Z.ltb_spec y (off + (n1 + n2))), (Z.leb_spec (off + n1) y),
      (Z.ltb_spec y (off + n1 + n2)), (Z.ltb_spec y (off + n1)); cbn [andb]; first [lia | done | f_equal; lia].
  - intros Hh. by apply (wn_hole H2), (wn_hole H1).
  - intros Hs. destruct (Z.lt_ge_cases (di_size d1) (di_size d2)); [by apply (wn_disk H2)|lia].
  - intros j Hj Hne. rewrite (wn_inodes H2) by done. by apply (wn_inodes H1).
  - intros x Hx Hfo. destruct (wn_blocks H1 x Hx Hfo) as [Hfo' <-]. by apply (wn_blocks H2).
  - apply H2.
Qed.

(** *** Begin and end of a transaction *)

Lemma fs_begin_rule sb vw dk wr s (Q : unit → fsst → Prop) :
  fs_ok sb vw dk wr ∅ [] 0 s →
  (∀ l, fs_ok sb vw dk wr ∅ [] 1 (set_fs_log l s) → Q tt (set_fs_log l s)) →
  runs (onlog begin_op) s Q.
Proof.
  intros H HQ. apply onlog_rule, (begin_op_rule (fo_log H)); [cbn; unfold LOGSIZE, MAXOPBLOCKS; lia|].
  intros l Hl. apply HQ. destruct H. by split.
Qed.

Lemma fs_end_rule sb vw dk wr bl s (Q : unit → fsst → Prop) :
  fs_ok sb vw dk wr ∅ bl 1 s →
  (∀ l vw' dk' wr', agree sb vw vw' → agree sb vw dk' →
     fs_ok sb vw' dk' wr' ∅ [] 0 (set_fs_log l s) → Q tt (set_fs_log l s)) →
  runs (onlog end_op) s Q.
Proof.
  intros H HQ. pose proof (fo_geo H) as G. pose proof (geo_order G) as Hg.
  pose proof (fo_log H) as [Hly Hbl Hll Ho Hf Hi He Hb].
  assert (Hclean : ∀ x, x ∉ bl → vw x = dk x) by (intros x Hx; apply (brep_clean Hb); [set_solver | done]).
  apply onlog_rule, (end_op_last_rule _ (fo_log H)). intros l Hl.
  set (W := end_writes (sb_logstart sb) vw bl) in *.
  apply (HQ l (apply_writes vw W) (apply_writes dk W) (wr ++ W)).
  - intros b Hb'. symmetry. eapply end_writes_data; [done | done | done |]. by apply (after_log G).
  - intros b Hb'. symmetry. eapply end_writes_data; [done | done | done |]. by apply (after_log G).
  - destruct H as [_ _ Hsb Hsup Hlk]. split; [done | exact Hl | done | | done].
    unfold W. rewrite (end_writes_data (sb_logstart sb) (sb_nlog sb) (sb_size sb)); [done | done | done | done |].
    destruct G. unfold datab. lia.
Qed.
