(* ===== verification/FsWitness.v ===== *)
(** * A small file system

    A concrete disk with one file of 600 bytes, the state of the kernel after the boot
    sequence [binit], [initlog], [begin_op] on it, and the theorems on the file system
    applied to it. *)

From S2P Require Import Prelude Param KString Spinlock Bio Log LogCrash LogOps Fs FsView FsFile FsRead FsInode FsWrite.
Local Open Scope Z_scope.

(** ** Definitions *)

Definition demo_sb : superblock := mkSuperblock 2000 1941 200 30 2 32 58.

(** Inode 2: a file with blocks 59 and 60. *)
Definition demo_dinode : dinode :=
  mkDinode T_FILE 0 0 1 0 0 493 600 [59; 60; 0; 0; 0; 0; 0; 0; 0; 0; 0].

(** Blocks 0 to 60 are in use. *)
Definition demo_bitmap : mem := λ a, if a <? 7 then 255 else if a =? 7 then 31 else 0.

Definition fs_disk (n : Z) : mem :=
  if n =? 1 then demo_super
  else if n =? 32 then dinode_store (λ _, 0) 128 demo_dinode
  else if n =? 58 then demo_bitmap
  else if n =? 59 then (λ a, u8 a)
  else λ _, 0.

Definition fs_boot : logst :=
  mkLogst (mkBio (mkCpu 0 0 false true) bcache0 (mkMemdisk 2000 fs_disk []) []) log0 0.

Definition demo_inode : inode := mkInode 1 2 1 (Z.lor I_BUSY I_VALID) demo_dinode.

Definition demo_icache : list inode :=
  demo_inode :: replicate 49 (mkInode 0 0 0 0 (mkDinode 0 0 0 0 0 0 0 0 (replicate 11 0))).

Definition demo_fsst (l : logst) : fsst :=
  mkFsst l demo_sb (initlock "icache") demo_icache (λ a, u8 (a + 1)) 0 [].

(** ** Lemmas *)

Lemma demo_geometry : geometry demo_sb.
Proof. split; [exact demo_layout | vm_compute; reflexivity || congruence ..]. Qed.

Lemma fs_header : header_ok 2 30 2000 (fs_disk 2).
Proof. apply header_ok_nil; [exact demo_layout | done | done]. Qed.

(** The system is up, before and in a transaction. *)
Lemma fs_idle :
  ∃ l d wr, (onbio binit;; initlog 1) fs_boot = Ok (tt, l) ∧
    fs_ok demo_sb d d wr ∅ [] 0 (demo_fsst l) ∧ ∀ b, datab 2 30 2000 b → d b = fs_disk b.
Proof.
  assert (R : runs (onbio binit;; initlog 1) fs_boot (λ _ l, ∃ d wr,
    logst_ok 2 30 2000 d d wr ∅ [] 0 l ∧ ∀ b, datab 2 30 2000 b → d b = fs_disk b)).
  { apply runs_bind, runs_zoom, binit_rule; [split; cbn; lia | done |]. intros c Hc.
    apply (initlog_rule 2 30 2000 fs_disk []); [by eexists | done | exact demo_layout | lia | done | done | exact fs_header |].
    intros s1 d' H1 Hd. eexists d', _. split; [exact H1|]. intros b Hb. rewrite Hd by done.
    apply logical_unlisted. change (head_blocks (fs_disk 2)) with (@nil Z). apply not_elem_of_nil. }
  destruct R as ([] & l & E & d & wr & H & Hd). exists l, d, wr. split_and!; [done | | done].
  split; [exact demo_geometry | done | done | | done]. rewrite Hd by (split; lia). done.
Qed.

Lemma fs_up :
  ∃ l d wr, (onbio binit;; initlog 1;; begin_op) fs_boot = Ok (tt, l) ∧
    fs_ok demo_sb d d wr ∅ [] 1 (demo_fsst l) ∧ ∀ b, datab 2 30 2000 b → d b = fs_disk b.
Proof.
  destruct fs_idle as (l & d & wr & E & H & Hd).
  assert (R : runs begin_op l (λ _ l', fs_ok demo_sb d d wr ∅ [] 1 (demo_fsst l'))).
  { apply (begin_op_rule (fo_log H)); [cbn; unfold LOGSIZE, MAXOPBLOCKS; lia|]. intros l' Hl.
    destruct H as [G _ Hsb Hsup Hlk]. split; [exact G | exact Hl | reflexivity | exact Hsup | reflexivity]. }
  destruct R as ([] & l' & E' & H'). exists l', d, wr. split_and!; [|exact H' | exact Hd].
  rewrite <- E'. revert E. generalize (initlog 1). intros m E.
  apply K_bind_inv in E as ([] & s1 & E1 & E2). rewrite (K_bind_ok _ _ _ _ _ E1). exact (K_bind_ok _ _ _ _ _ E2).
Qed.

(** The bitmap of the disk. *)
Lemma demo_used d b : d 58 = fs_disk 58 → 0 ≤ b < 2000 → used demo_sb d b = bool_decide (b < 61).
Proof.
  intros E Hb. rewrite (used_eq demo_geometry) by (cbn; lia). cbn [sb_bmapstart demo_sb].
  replace (b / BPB) with 0 by (symmetry; apply Z.div_small; unfold BPB, BSIZE; lia).
  rewrite Z.mod_small by (unfold BPB, BSIZE; lia). change (0 + 58) with 58. rewrite E.
  assert (Hall : forallb (λ k : nat, Bool.eqb (negb (bit_of demo_bitmap (Z.of_nat k) =? 0))
    (bool_decide (Z.of_nat k < 61))) (seq 0 2000) = true) by (vm_compute; reflexivity).
  rewrite forallb_forall in Hall. specialize (Hall (Z.to_nat b)). rewrite Z2Nat.id in Hall by lia.
  apply Bool.eqb_prop, Hall. apply in_seq. lia.
Qed.

Lemma demo_meta d : d 58 = fs_disk 58 → meta_used demo_sb d.
Proof.
  intros E b Hb. change (data_start demo_sb) with 59 in Hb. rewrite demo_used by (done || lia).
  apply bool_decide_true. lia.
Qed.

(** The file of the demonstration has its blocks 59 and 60. *)
Lemma demo_slot d k : slot d demo_dinode k = if decide (k = 0)%nat then 59 else if decide (k = 1)%nat then 60 else 0.
Proof.
  unfold slot. case_decide as Hk.
  - do 11 (destruct k as [|k]; [done|]). unfold NDIRECT in Hk. lia.
  - cbn. repeat case_decide; unfold NDIRECT in Hk; lia || done.
Qed.

Lemma demo_file d : d 58 = fs_disk 58 → file_ok demo_sb d demo_dinode.
Proof.
  intros E. split; [done | |].
  - intros k _. rewrite demo_slot. change (data_start demo_sb) with 59. cbn [sb_size demo_sb].
    repeat case_decide; intros Hne; [..|done]; (split; [lia | rewrite demo_used by (done || lia); apply bool_decide_true; lia]).
  - intros k j _ _. rewrite !demo_slot. repeat case_decide; congruence || lia.
Qed.

Lemma demo_no_hole d : no_hole d demo_dinode 0 600.
Proof.
  intros y Hy. rewrite demo_slot. unfold bslot, BSIZE.
  assert (y / 512 = 0 ∨ y / 512 = 1) as [-> | ->] by zmod_lia; cbn; done.
Qed.

Lemma demo_disk_room d : d 58 = fs_disk 58 → disk_room demo_sb d demo_dinode 3.
Proof.
  intros E. exists [100; 101; 102; 103]. split_and!; [by apply (bool_decide_unpack _) | done |].
  intros b Hb. elem_cases Hb; (split; [cbn; lia | by rewrite demo_used by (done || lia)]).
Qed.

Lemma demo_dinode_wf : dinode_wf demo_dinode.
Proof. split; cbn; try done; repeat constructor; unfold uint; lia. Qed.

Lemma demo_log_room : log_room demo_sb [] demo_dinode 4.
Proof. unfold log_room. vm_compute. reflexivity. Qed.

Lemma demo_icache_ok : icache_ok demo_icache.
Proof.
  assert (Hk : ∀ i x, demo_icache !! i = Some x → (i = 0%nat ∧ x = demo_inode) ∨ i_ref x = 0).
  { intros [|i] x Hx; [left; by injection Hx as <-|]. right.
    apply lookup_replicate in Hx as [-> _]. done. }
  split.
  - intros i x [[_ ->]| ->]%Hk; done.
  - intros i j x y [[-> ->]|Hx]%Hk [[-> ->]|Hy]%Hk Hr Hc; try done; destruct Hc; lia.
Qed.

(** ** Witnesses *)

Lemma readi_correct_witness :
  ∃ l s', (onbio binit;; initlog 1;; begin_op) fs_boot = Ok (tt, l) ∧
    readi [] 0 5000 500 200 (demo_fsst l) = Ok (100, s') ∧ fs_mem s' 5000 = 244.
Proof.
  destruct fs_up as (l & d & wr & E & H & Hd).
  assert (E58 : d 58 = fs_disk 58) by (apply Hd; split; lia).
  destruct (readi_correct [] demo_sb d d wr [] 1 (demo_fsst l) 0 demo_inode 5000 500 200
    H eq_refl eq_refl ltac:(discriminate) (demo_file d E58) ltac:(vm_compute; congruence)
    (demo_no_hole d) ltac:(vm_compute; lia) ltac:(lia) ltac:(lia) ltac:(lia) ltac:(lia) ltac:(lia))
    as (s' & Er & _ & _ & _ & Hb).
  exists l, s'. split_and!; [exact E | exact Er |].
  change 5000 with (5000 + 0). rewrite (Hb 0 ltac:(vm_compute; split; congruence)). unfold fbyte.
  change (d 59 500 = 244). rewrite (Hd 59) by (split; lia). reflexivity.
Defined.

Lemma writei_correct_witness :
  ∃ l s' vw', (onbio binit;; initlog 1;; begin_op) fs_boot = Ok (tt, l) ∧
    writei [] 0 7000 600 1000 (demo_fsst l) = Ok (1000, s') ∧
    di_size (disk_inode demo_sb vw' 2) = 1600.
Proof.
  destruct fs_up as (l & d & wr & E & H & Hd).
  assert (E58 : d 58 = fs_disk 58) by (apply Hd; split; lia).
  destruct (writei_correct [] demo_sb d d wr [] 1 (demo_fsst l) 0 demo_inode 7000 600 1000
    H ltac:(lia) ltac:(vm_compute; congruence) eq_refl eq_refl ltac:(cbn; lia) ltac:(discriminate)
    demo_dinode_wf (demo_file d E58) (demo_meta d E58) ltac:(cbn; lia) ltac:(vm_compute; congruence)
    ltac:(lia) ltac:(vm_compute; congruence) ltac:(lia) ltac:(lia) (demo_disk_room d E58) demo_log_room)
    as (s' & vw' & bl' & d' & Ew & Hw & _).
  exists l, s', vw'. split_and!; [exact E | exact Ew |].
  pose proof (wn_size Hw) as Es. cbn in Es. pose proof (wn_disk Hw) as Ed. cbn in Ed.
  rewrite Ed by lia. exact Es.
Defined.

Lemma writei_readi_roundtrip_witness :
  ∃ l s1 s2, (onbio binit;; initlog 1;; begin_op) fs_boot = Ok (tt, l) ∧
    writei [] 0 7000 600 1000 (demo_fsst l) = Ok (1000, s1) ∧
    readi [] 0 20000 600 1000 s1 = Ok (1000, s2) ∧ fs_mem s2 20000 = fs_mem (demo_fsst l) 7000.
Proof.
  destruct fs_up as (l & d & wr & E & H & Hd).
  assert (E58 : d 58 = fs_disk 58) by (apply Hd; split; lia).
  destruct (writei_readi_roundtrip [] demo_sb d d wr [] 1 (demo_fsst l) 0 demo_inode 7000 20000 600 1000
    H ltac:(lia) ltac:(vm_compute; congruence) eq_refl eq_refl ltac:(cbn; lia) ltac:(discriminate)
    demo_dinode_wf (demo_file d E58) (demo_meta d E58) (demo_no_hole d) ltac:(cbn; lia)
    ltac:(vm_compute; congruence) ltac:(lia) ltac:(vm_compute; congruence) ltac:(lia) ltac:(lia)
    ltac:(lia) ltac:(lia) (demo_disk_room d E58) demo_log_room)
    as (s1 & s2 & Ew & Er & Hb).
  exists l, s1, s2. split_and!; [exact E | exact Ew | exact Er | exact (Hb 0 ltac:(lia))].
Defined.

Lemma balloc_correct_witness :
  ∃ l b s' vw', (onbio binit;; initlog 1;; begin_op) fs_boot = Ok (tt, l) ∧
    balloc 1 (demo_fsst l) = Ok (b, s') ∧ used demo_sb vw' b = true.
Proof.
  destruct fs_up as (l & d & wr & E & H & Hd).
  assert (E58 : d 58 = fs_disk 58) by (apply Hd; split; lia).
  destruct (balloc_correct demo_sb d d wr [] 1 (demo_fsst l) H ltac:(lia) (demo_meta d E58)) as
    (b & s' & vw' & bl' & Eb & _ & [Hb _] & _ & Hu & _); [|cbn; lia|].
  { exists 61. split; [cbn; lia | rewrite demo_used; [reflexivity | exact E58 | lia]]. }
  exists l, b, s', vw'. split_and!; [exact E | exact Eb | rewrite Hu, Z.eqb_refl; [reflexivity | exact Hb]].
Defined.

Lemma bfree_correct_witness :
  ∃ l s' vw', (onbio binit;; initlog 1;; begin_op) fs_boot = Ok (tt, l) ∧
    bfree 1 60 (demo_fsst l) = Ok (tt, s') ∧ used demo_sb vw' 60 = false ∧
    bfree 1 61 (demo_fsst l) = Panic "freeing free block".
Proof.
  destruct fs_up as (l & d & wr & E & H & Hd).
  assert (E58 : d 58 = fs_disk 58) by (apply Hd; split; lia).
  pose proof (bfree_correct demo_sb d d wr [] 1 (demo_fsst l) 60 H ltac:(lia) ltac:(cbn; lia) ltac:(cbn; lia)) as H60.
  pose proof (bfree_correct demo_sb d d wr [] 1 (demo_fsst l) 61 H ltac:(lia) ltac:(cbn; lia) ltac:(cbn; lia)) as H61.
  rewrite (demo_used d 60 E58) in H60 by lia. rewrite (demo_used d 61 E58) in H61 by lia. cbn in H60, H61.
  destruct H60 as (s' & vw' & bl' & Eb & _ & Hu & _).
  exists l, s', vw'. split_and!; [exact E | exact Eb | rewrite Hu by lia; reflexivity | exact H61].
Defined.

Lemma iget_correct_witness :
  ∃ l ip s', (onbio binit;; initlog 1;; begin_op) fs_boot = Ok (tt, l) ∧
    iget 1 2 (demo_fsst l) = Ok (ip, s') ∧ refs (ic_inode s') 1 2 = 2.
Proof.
  destruct fs_up as (l & d & wr & E & H & Hd).
  destruct (iget_correct demo_sb d d wr ∅ [] 1 (demo_fsst l) 1 2 H) as (ip & x & s' & Eg & _ & _ & _ & Hr & _).
  - exact demo_icache_ok.
  - exists 0%nat, demo_inode. split; [reflexivity | right; split_and!; reflexivity].
  - exists l, ip, s'. split_and!; [exact E | exact Eg | rewrite Hr; reflexivity].
Defined.

Lemma dinode_roundtrip_witness :
  dinode_at (dinode_store (λ _, 0) (2 mod IPB * SIZEOF_dinode) demo_dinode) 128 = demo_dinode.
Proof. exact (proj1 (dinode_roundtrip (λ _, 0) 2 0 demo_dinode demo_dinode_wf)). Defined.

Lemma ilock_correct_witness :
  ∃ l s', (onbio binit;; initlog 1;; begin_op) fs_boot = Ok (tt, l) ∧
    ilock (Some 0%nat) (set_ic_inode [mkInode 1 2 1 0 (mkDinode 0 0 0 0 0 0 0 0 [])] (demo_fsst l)) = Ok (tt, s') ∧
    ic_inode s' = [mkInode 1 2 1 3 demo_dinode].
Proof.
  destruct fs_up as (l & d & wr & E & H & Hd).
  set (x := mkInode 1 2 1 0 (mkDinode 0 0 0 0 0 0 0 0 [])).
  assert (Edi : disk_inode demo_sb d 2 = demo_dinode).
  { unfold disk_inode. change (IBLOCK 2 demo_sb) with 32. rewrite (Hd 32) by (split; lia). reflexivity. }
  destruct (ilock_correct demo_sb d d wr [] 1 (set_ic_inode [x] (demo_fsst l)) 0 x) as (s' & El & _ & Hx).
  - destruct H. split; assumption.
  - reflexivity.
  - cbn. lia.
  - reflexivity.
  - cbn. lia.
  - reflexivity.
  - vm_compute. lia.
  - cbn [i_inum x]. rewrite Edi. discriminate.
  - exists l, s'. split_and!; [exact E | exact El |]. rewrite Hx. cbn [i_inum x]. rewrite Edi. reflexivity.
Defined.
