(* ===== verification/Mkfs.v ===== *)
(** * The file system image builder

    Models src/mkfs.c, the program of the build host that makes the initial disk image, on
    top of the on-disk formats of src/fs.h that the kernel uses ([Fs]).  The image is a host
    file of [mk_nsect] sectors.  The host is a parameter: which of its calls on the image
    succeed, and what the reads of a named file deliver.  An exit after [perror] and a failed
    [assert] are [Panic]; the messages on the standard output are left out.  The host is
    little-endian, so a C struct has in memory the bytes it has on the disk.

    [iappend_loop] takes fuel; it copies at least a byte in each round, and [iappend] gives
    it one unit more than there are bytes. *)

From S2P Require Import Prelude Param KString Spinlock Bio Log LogCrash LogOps Fs FsView FsFile FsRead FsInode FsWrite.
Local Open Scope Z_scope.

(** ** Definitions *)

Definition NINODES : Z := 200.
Definition nbitmap : Z := FSSIZE / (BSIZE * 8) + 1.
Definition ninodeblocks : Z := NINODES / IPB + 1.
Definition nlog : Z := LOGSIZE.

(** [UID], [GID] and [MODE] of src/param.h. *)
Definition DEFAULT_UID : Z := 0.
Definition DEFAULT_GID : Z := 0.
Definition DEFAULT_MODE : Z := 493.

(** The host: whether the [n]th call on the image file succeeds, whether the image can be
    created, and what successive reads of a file return until the end. *)
Record host := mkHost {
  h_io : nat → bool;
  h_creat : bool;
  h_open : list Z → option (list (list Z))
}.

(** The image file and the global variables. *)
Record mkfs := mkMkfs {
  mk_img : Z → mem;
  mk_nsect : Z;
  mk_calls : nat;
  mk_sb : superblock;
  mk_freeinode : Z;
  mk_freeblock : Z
}.

Definition set_mk_file (img : Z → mem) (n : Z) (s : mkfs) : mkfs :=
  mkMkfs img n (mk_calls s) (mk_sb s) (mk_freeinode s) (mk_freeblock s).
Definition set_mk_calls (n : nat) (s : mkfs) : mkfs :=
  mkMkfs (mk_img s) (mk_nsect s) n (mk_sb s) (mk_freeinode s) (mk_freeblock s).
Definition set_mk_sb (sb : superblock) (s : mkfs) : mkfs :=
  mkMkfs (mk_img s) (mk_nsect s) (mk_calls s) sb (mk_freeinode s) (mk_freeblock s).
Definition set_mk_freeinode (n : Z) (s : mkfs) : mkfs :=
  mkMkfs (mk_img s) (mk_nsect s) (mk_calls s) (mk_sb s) n (mk_freeblock s).
Definition set_mk_freeblock (n : Z) (s : mkfs) : mkfs :=
  mkMkfs (mk_img s) (mk_nsect s) (mk_calls s) (mk_sb s) (mk_freeinode s) n.

(** Before [main]: the globals with their initial values. *)
Definition mkfs0 : mkfs := mkMkfs (λ _ _, 0) 0 0 (mkSuperblock 0 0 0 0 0 0 0) 1 0.

Definition zeroes : mem := λ _, 0.

(** The bytes of [x], least significant first, read as a host integer. *)
Definition xshort (x : Z) : Z := u8 x + 256 * u8 (Z.shiftr x 8).
Definition xint (x : Z) : Z :=
  u8 x + 256 * (u8 (Z.shiftr x 8) + 256 * (u8 (Z.shiftr x 16) + 256 * u8 (Z.shiftr x 24))).

Definition massert (b : bool) (msg : string) : K mkfs unit := if b then mret tt else kpanic msg.

(** [struct superblock] and [struct dirent] in memory; the name fills up to [DIRSIZ] bytes. *)
Definition put_bytes (m : mem) (a : Z) (l : list Z) : mem := λ x,
  if (a <=? x) && (x <? a + Z.of_nat (length l)) then l !!! Z.to_nat (x - a) else m x.
Definition super_bytes (sb : superblock) : mem :=
  let m := store32 zeroes 0 (sb_size sb) in
  let m := store32 m 4 (sb_nblocks sb) in
  let m := store32 m 8 (sb_ninodes sb) in
  let m := store32 m 12 (sb_nlog sb) in
  let m := store32 m 16 (sb_logstart sb) in
  let m := store32 m 20 (sb_inodestart sb) in
  store32 m 24 (sb_bmapstart sb).
Definition dirent_bytes (inum : Z) (name : list Z) : mem :=
  put_bytes (store16 zeroes 0 (xshort inum)) 2 (take (Z.to_nat DIRSIZ) name).

Section Host.
Variable h : host.

(** One call of the host on the image file. *)
Definition host_call (msg : string) : K mkfs unit :=
  s ← kget;
  kmod (set_mk_calls (S (mk_calls s)));;
  if h_io h (mk_calls s) then mret tt else kpanic msg.

Definition wsect (sec : Z) (buf : mem) : K mkfs unit :=
  host_call "lseek";;
  host_call "write";;
  kmod (fun s => set_mk_file (<[sec := buf]> (mk_img s)) (Z.max (mk_nsect s) (sec + 1)) s).

(** A read past the end of the file is short. *)
Definition rsect (sec : Z) : K mkfs mem :=
  host_call "lseek";;
  host_call "read";;
  s ← kget;
  if sec <? mk_nsect s then mret (mk_img s sec) else kpanic "read".

Definition winode (inum : Z) (ip : dinode) : K mkfs unit :=
  s ← kget;
  let bn := IBLOCK inum (mk_sb s) in
  buf ← rsect bn;
  wsect bn (dinode_store buf (inum mod IPB * SIZEOF_dinode) ip).

Definition rinode (inum : Z) : K mkfs dinode :=
  s ← kget;
  let bn := IBLOCK inum (mk_sb s) in
  buf ← rsect bn;
  mret (dinode_at buf (inum mod IPB * SIZEOF_dinode)).

Definition ialloc (type : Z) : K mkfs Z :=
  s ← kget;
  let inum := mk_freeinode s in
  kmod (set_mk_freeinode (u32 (inum + 1)));;
  winode inum (mkDinode (s16 (xshort type)) 0 0 (s16 (xshort 1)) DEFAULT_UID DEFAULT_GID
    DEFAULT_MODE (xint 0) (replicate (S NDIRECT) 0));;
  mret inum.

(** The bitmap with the first [used] bits set. *)
Definition bitmap (used : Z) : mem :=
  foldl (λ buf i, bit_on buf (Z.of_nat i)) zeroes (seq 0 (Z.to_nat used)).

Definition balloc (used : Z) : K mkfs unit :=
  massert (used <? BSIZE * 8) "used < BSIZE*8";;
  s ← kget;
  wsect (sb_bmapstart (mk_sb s)) (bitmap used).

(** [freeblock++] *)
Definition next_block : K mkfs Z :=
  s ← kget;
  kmod (set_mk_freeblock (u32 (mk_freeblock s + 1)));;
  mret (mk_freeblock s).

(** [din.addrs[k]] gets a block if it has none. *)
Definition iappend_addr (din : dinode) (k : nat) : K mkfs dinode :=
  if xint (di_addrs din !!! k) =? 0 then
    b ← next_block;
    mret (set_di_addrs (<[k := xint b]> (di_addrs din)) din)
  else mret din.

(** The entry [i] of the indirect block [ind], a new block if there is none. *)
Definition iappend_entry (ind i : Z) : K mkfs Z :=
  indirect ← rsect ind;
  indirect ← (if load32 indirect (4 * i) =? 0 then
                b ← next_block;
                let indirect := store32 indirect (4 * i) (xint b) in
                wsect ind indirect;;
                mret indirect
              else mret indirect);
  mret (xint (load32 indirect (4 * i))).

(** The block of [din] for block [fbn] of the file, a new one where it has none. *)
Definition iappend_block (din : dinode) (fbn : Z) : K mkfs (dinode * Z) :=
  if fbn <? Z.of_nat NDIRECT then
    let k := Z.to_nat fbn in
    din ← iappend_addr din k;
    mret (din, xint (di_addrs din !!! k))
  else
    din ← iappend_addr din NDIRECT;
    x ← iappend_entry (xint (di_addrs din !!! NDIRECT)) (fbn - Z.of_nat NDIRECT);
    mret (din, x).

(** The loop of [iappend]: [n] bytes at [p] go to offset [off]. *)
Fixpoint iappend_loop (fuel : nat) (m : mem) (din : dinode) (off p n : Z) : K mkfs (dinode * Z) :=
  match fuel with
  | O => kout Diverge
  | S fuel' =>
      if n >? 0 then
        let fbn := off / BSIZE in
        massert (fbn <? MAXFILE) "fbn < MAXFILE";;
        r ← iappend_block din fbn;
        let n1 := Z.min n (u32 ((fbn + 1) * BSIZE - off)) in
        buf ← rsect r.2;
        wsect r.2 (blit buf (u32 (off - fbn * BSIZE)) m p n1);;
        iappend_loop fuel' m r.1 (u32 (off + n1)) (p + n1) (n - n1)
      else mret (din, off)
  end.

(** [iappend(inum, xp, n)], for a buffer [m] that [xp] points to. *)
Definition iappend (inum : Z) (m : mem) (n : Z) : K mkfs unit :=
  din ← rinode inum;
  r ← iappend_loop (S (Z.to_nat n)) m din (xint (di_size din)) 0 n;
  winode inum (set_di_size (xint r.2) r.1).

(** The parts of [main]. *)
Definition mkfs_super : K mkfs unit :=
  let nmeta := 2 + nlog + ninodeblocks + nbitmap in
  let nblocks := FSSIZE - nmeta in
  kmod (set_mk_sb (mkSuperblock (xint FSSIZE) (xint nblocks) (xint NINODES) (xint nlog) (xint 2)
    (xint (2 + nlog)) (xint (2 + nlog + ninodeblocks))));;
  kmod (set_mk_freeblock nmeta);;
  kiter (seq 0 (Z.to_nat FSSIZE)) (fun i => wsect (Z.of_nat i) zeroes);;
  s ← kget;
  wsect 1 (super_bytes (mk_sb s)).

Definition mkfs_root : K mkfs Z :=
  rootino ← ialloc T_DIR;
  massert (rootino =? ROOTINO) "rootino == ROOTINO";;
  iappend rootino (dirent_bytes rootino [46]) SIZEOF_dirent;;
  iappend rootino (dirent_bytes rootino [46; 46]) SIZEOF_dirent;;
  mret rootino.

Definition mkfs_file (rootino : Z) (name : list Z) : K mkfs unit :=
  massert (negb (bool_decide (47 ∈ name))) "index(argv[i], '/') == 0";;
  match h_open h name with
  | None => kpanic "open"
  | Some reads =>
      let name := if name is 95 :: rest then rest else name in
      inum ← ialloc T_FILE;
      iappend rootino (dirent_bytes inum name) SIZEOF_dirent;;
      kiter reads (fun r => iappend inum (put_bytes zeroes 0 r) (Z.of_nat (length r)))
  end.

Definition mkfs_fix_root (rootino : Z) : K mkfs unit :=
  din ← rinode rootino;
  let off := xint (di_size din) in
  let off := u32 ((off / BSIZE + 1) * BSIZE) in
  winode rootino (set_di_size (xint off) din).

Definition main (argv : list (list Z)) : K mkfs unit :=
  match argv with
  | _ :: _ :: files =>
      if negb (h_creat h) then kpanic "open image"
      else
        mkfs_super;;
        rootino ← mkfs_root;
        kiter files (mkfs_file rootino);;
        mkfs_fix_root rootino;;
        s ← kget;
        balloc (mk_freeblock s)
  | _ => kpanic "Usage: mkfs fs.img files..."
  end.
End Host.

(** *** The image, as the kernel reads it *)

(** The superblock that [main] writes. *)
Definition mksb : superblock := mkSuperblock FSSIZE 1941 NINODES nlog 2 32 58.

(** The image with the bitmap that [balloc] would write now is [vw]: the blocks below
    [fb] are in use and the others zero. *)
Record img_ok (img : Z → mem) (nsect : Z) (sb : superblock) (fb : Z) (vw : Z → mem) : Prop := {
  im_nsect : nsect = FSSIZE;
  im_sb : sb = mksb;
  im_fb : data_start mksb ≤ fb ≤ FSSIZE;
  im_view : ∀ x, x ≠ sb_bmapstart mksb → vw x = img x;
  im_used : ∀ b, 0 ≤ b < FSSIZE → used mksb vw b = (b <? fb);
  im_zero : ∀ b a, fb ≤ b < FSSIZE → 0 ≤ a < BSIZE → img b a = 0
}.
Arguments im_nsect {img nsect sb fb vw} _.
Arguments im_sb {img nsect sb fb vw} _.
Arguments im_fb {img nsect sb fb vw} _.
Arguments im_view {img nsect sb fb vw} _.
Arguments im_used {img nsect sb fb vw} _.
Arguments im_zero {img nsect sb fb vw} _.

Definition image (s : mkfs) (vw : Z → mem) : Prop :=
  img_ok (mk_img s) (mk_nsect s) (mk_sb s) (mk_freeblock s) vw.

(** The blocks of a file of [n] bytes, the indirect block included. *)
Definition blocks_of (n : Z) : Z :=
  (n + BSIZE - 1) / BSIZE + (if Z.of_nat NDIRECT * BSIZE <? n then 1 else 0).

(** A file of [n] bytes has these blocks and no more. *)
Definition exact (vw : Z → mem) (d : dinode) (n : Z) : Prop :=
  (∀ b, 0 ≤ b < MAXFILE → (slot vw d (bslot b) = 0 ↔ n ≤ b * BSIZE)) ∧
  (slot vw d NDIRECT = 0 ↔ n ≤ Z.of_nat NDIRECT * BSIZE).

(** The file has got its block [bn]. *)
Record mapped (bn : Z) (vw : Z → mem) (d : dinode) (vw' : Z → mem) (d' : dinode) : Prop := {
  mp_ext : extends mksb vw d vw' d';
  mp_slot : slot vw' d' (bslot bn) ≠ 0;
  mp_other : ∀ k, (k < NSLOT)%nat → k ≠ bslot bn → k ≠ NDIRECT → slot vw' d' k = slot vw d k;
  mp_ind : slot vw' d' NDIRECT = 0 ↔ slot vw d NDIRECT = 0 ∧ bn < Z.of_nat NDIRECT;
  mp_frame : ∀ x, 0 < x < sb_bmapstart mksb → vw' x = vw x
}.
Arguments mp_ext {bn vw d vw' d'} _.
Arguments mp_slot {bn vw d vw' d'} _.
Arguments mp_other {bn vw d vw' d'} _.
Arguments mp_ind {bn vw d vw' d'} _.
Arguments mp_frame {bn vw d vw' d'} _.

(** The blocks that are missing for it. *)
Definition missing (vw : Z → mem) (d : dinode) (bn : Z) : Z :=
  (if slot vw d (bslot bn) =? 0 then 1 else 0) +
  (if (Z.of_nat NDIRECT <=? bn) && (slot vw d NDIRECT =? 0) then 1 else 0).

(** The inode [d] is a file of type [t] with contents [bytes]. *)
Record stored (vw : Z → mem) (d : dinode) (t : Z) (bytes : list Z) : Prop := {
  sr_ok : file_ok mksb vw d;
  sr_attr : d = mkDinode t 0 0 1 DEFAULT_UID DEFAULT_GID DEFAULT_MODE
                  (Z.of_nat (length bytes)) (di_addrs d);
  sr_type : short t;
  sr_max : Z.of_nat (length bytes) ≤ MAXFILE * BSIZE;
  sr_byte : ∀ y, 0 ≤ y < MAXFILE * BSIZE → fbyte vw d y = default 0 (bytes !! Z.to_nat y);
  sr_exact : exact vw d (Z.of_nat (length bytes))
}.
Arguments sr_ok {vw d t bytes} _.
Arguments sr_attr {vw d t bytes} _.
Arguments sr_type {vw d t bytes} _.
Arguments sr_max {vw d t bytes} _.
Arguments sr_byte {vw d t bytes} _.
Arguments sr_exact {vw d t bytes} _.

(** The files of a disk: the [k]th of them is inode [k + 1]. *)
Definition node (vw : Z → mem) (k : nat) : dinode := disk_inode mksb vw (Z.of_nat k + 1).

Record disk_has (vw : Z → mem) (files : list (Z * list Z)) : Prop := {
  dh_file : ∀ k t b, files !! k = Some (t, b) → stored vw (node vw k) t b;
  dh_apart : ∀ i j ki kj, (i < length files)%nat → (j < length files)%nat →
    (ki < NSLOT)%nat → (kj < NSLOT)%nat → slot vw (node vw i) ki = slot vw (node vw j) kj →
    slot vw (node vw i) ki ≠ 0 → i = j;
  dh_free : ∀ k, (length files ≤ k)%nat → Z.of_nat k + 1 < NINODES → di_type (node vw k) = 0;
  dh_super : superblock_of (vw 1) = mksb;
  dh_log : vw (sb_logstart mksb) = zeroes
}.
Arguments dh_file {vw files} _.
Arguments dh_apart {vw files} _.
Arguments dh_free {vw files} _.
Arguments dh_super {vw files} _.
Arguments dh_log {vw files} _.

Definition total_blocks (files : list (Z * list Z)) : Z :=
  foldr (λ f n, blocks_of (Z.of_nat (length f.2)) + n) 0 files.

(** [mkfs] has put [files] on the disk. *)
Record built (files : list (Z * list Z)) (s : mkfs) (vw : Z → mem) : Prop := {
  bt_image : image s vw;
  bt_disk : disk_has vw files;
  bt_inodes : mk_freeinode s = Z.of_nat (length files) + 1;
  bt_blocks : mk_freeblock s = data_start mksb + total_blocks files
}.
Arguments bt_image {files s vw} _.
Arguments bt_disk {files s vw} _.
Arguments bt_inodes {files s vw} _.
Arguments bt_blocks {files s vw} _.

(** The directory entry that [mkfs] makes, and the contents of the root directory. *)
Definition entry (inum : Z) (name : list Z) : list Z := mread (dirent_bytes inum name) 0 16.
Definition strip (name : list Z) : list Z := if name is 95 :: rest then rest else name.
Definition file_entries (i : nat) (names : list (list Z)) : list Z :=
  concat (imap (λ j name, entry (Z.of_nat (i + j) + 2) (strip name)) names).
Definition root_bytes (names : list (list Z)) : list Z :=
  entry ROOTINO [46] ++ entry ROOTINO [46; 46] ++ file_entries 0 names.

(** What is asked for: the root directory, then the files. *)
Definition initial_files (names contents : list (list Z)) : list (Z * list Z) :=
  (T_DIR, root_bytes names) :: (pair T_FILE <$> contents).

(** The host file [name] has these contents. *)
Definition host_file (h : host) (name c : list Z) : Prop :=
  (47 ∉ name) ∧ ∃ reads, h_open h name = Some reads ∧ concat reads = c.

(** The disk a kernel boots from: [contents] are files 2, 3, ..., which the root directory
    lists under their names; its size is a whole number of blocks. *)
Record initial_disk (vw : Z → mem) (names contents : list (list Z)) : Prop := {
  id_super : superblock_of (vw 1) = mksb;
  id_log : vw (sb_logstart mksb) = zeroes;
  id_used : ∀ b, 0 ≤ b < FSSIZE →
    used mksb vw b = (b <? data_start mksb + total_blocks (initial_files names contents));
  id_root : ∃ addrs d, d = mkDinode T_DIR 0 0 1 DEFAULT_UID DEFAULT_GID DEFAULT_MODE
      ((Z.of_nat (length (root_bytes names)) / BSIZE + 1) * BSIZE) addrs ∧
    disk_inode mksb vw ROOTINO = d ∧ file_ok mksb vw d ∧
    no_hole vw d 0 (Z.of_nat (length (root_bytes names))) ∧
    ∀ y, 0 ≤ y < MAXFILE * BSIZE → fbyte vw d y = default 0 (root_bytes names !! Z.to_nat y);
  id_file : ∀ k c, contents !! k = Some c → ∃ addrs d,
    d = mkDinode T_FILE 0 0 1 DEFAULT_UID DEFAULT_GID DEFAULT_MODE (Z.of_nat (length c)) addrs ∧
    disk_inode mksb vw (Z.of_nat k + 2) = d ∧ file_ok mksb vw d ∧
    no_hole vw d 0 (Z.of_nat (length c)) ∧
    ∀ y x, c !! y = Some x → fbyte vw d (Z.of_nat y) = x;
  id_apart : ∀ i j ki kj, (i ≤ length contents)%nat → (j ≤ length contents)%nat →
    (ki < NSLOT)%nat → (kj < NSLOT)%nat → slot vw (node vw i) ki = slot vw (node vw j) kj →
    slot vw (node vw i) ki ≠ 0 → i = j;
  id_free : ∀ inum, Z.of_nat (length contents) + 1 < inum < NINODES →
    di_type (disk_inode mksb vw inum) = 0
}.
Arguments id_super {vw names contents} _.
Arguments id_log {vw names contents} _.
Arguments id_used {vw names contents} _.
Arguments id_root {vw names contents} _.
Arguments id_file {vw names contents} _.
Arguments id_apart {vw names contents} _.
Arguments id_free {vw names contents} _.

(** An inode of the disk is written. *)
Definition put_node (vw : Z → mem) (k : nat) (d : dinode) : Z → mem :=
  <[IBLOCK (Z.of_nat k + 1) mksb :=
      dinode_store (vw (IBLOCK (Z.of_nat k + 1) mksb)) ((Z.of_nat k + 1) mod IPB * SIZEOF_dinode) d]> vw.

(** A new inode has no blocks. *)
Definition empty_node (t : Z) : dinode :=
  mkDinode t 0 0 1 DEFAULT_UID DEFAULT_GID DEFAULT_MODE 0 (replicate (S NDIRECT) 0).

(** A build host with the files [_cat] and [R]. *)
Definition demo_host : host :=
  mkHost (λ _, true) true (λ name,
    if bool_decide (name = [95; 99; 97; 116]) then Some [[1; 2; 3]; [4]]
    else if bool_decide (name = [82]) then Some [replicate 512 7; replicate 88 9]
    else None).
Definition demo_names : list (list Z) := [[95; 99; 97; 116]; [82]].
Definition demo_contents : list (list Z) := [[1; 2; 3; 4]; replicate 512 7 ++ replicate 88 9].

(** ** Lemmas *)

(** *** Host integers and the bitmap *)

Lemma xint_small x : 0 ≤ x < 4294967296 → xint x = x.
Proof. intros Hx. unfold xint, u8. rewrite !Z.shiftr_div_pow2 by lia. zmod_lia. Qed.

Lemma blocks_of_mono m n : m ≤ n → blocks_of m ≤ blocks_of n.
Proof. intros Hmn. unfold blocks_of, BSIZE. repeat bool_case; zmod_lia. Qed.

Lemma xshort_small x : 0 ≤ x < 65536 → xshort x = x.
Proof. intros Hx. unfold xshort, u8. rewrite !Z.shiftr_div_pow2 by lia. zmod_lia. Qed.

Lemma bitmap_test n i : 0 ≤ i → (bit_of (bitmap n) i =? 0) = negb (i <? n).
Proof.
  intros Hi. unfold bitmap.
  assert (H : ∀ k : nat, (bit_of (foldl (λ buf i, bit_on buf (Z.of_nat i)) zeroes (seq 0 k)) i =? 0) =
    negb (i <? Z.of_nat k)).
  { induction k as [|k IH].
    - unfold bit_of, zeroes. cbn [seq foldl]. rewrite Z.land_0_l. destruct (Z.ltb_spec i (Z.of_nat 0)); lia || done.
    - rewrite seq_S, foldl_app. cbn [foldl]. rewrite bit_on_test, IH, Nat.add_0_l.
      destruct (Z.eqb_spec (Z.of_nat k) i), (Z.ltb_spec i (Z.of_nat k)), (Z.ltb_spec i (Z.of_nat (S k)));
        lia || done. }
  rewrite H. destruct (Z.ltb_spec i (Z.of_nat (Z.to_nat n))), (Z.ltb_spec i n); lia || done.
Qed.

Lemma mksb_geometry : geometry mksb.
Proof. split; [exact demo_layout | vm_compute; reflexivity || congruence ..]. Qed.

Lemma mksb_used vw b :
  0 ≤ b < FSSIZE → used mksb vw b = negb (bit_of (vw (sb_bmapstart mksb)) b =? 0).
Proof.
  intros Hb. rewrite (used_eq mksb_geometry) by done.
  unfold FSSIZE, BPB, BSIZE in *. change (512 * 8) with 4096. cbn [sb_bmapstart mksb].
  rewrite Z.mod_small, Z.div_small by lia. done.
Qed.

(** *** Taking a block *)

Section Take.
Context {img : Z → mem} {nsect : Z} {sb : superblock} {fb : Z} {vw : Z → mem}.
Hypothesis H : img_ok img nsect sb fb vw.
Hypothesis Hfb : fb < FSSIZE.
Let vw' := <[sb_bmapstart mksb := bitmap (fb + 1)]> vw.

Lemma take_ok : img_ok img nsect sb (fb + 1) vw'.
Proof using H Hfb.
  pose proof (im_fb H). split; try apply H; [lia | | |].
  - intros x Hx. unfold vw'. rewrite fn_lookup_insert_ne by done. by apply H.
  - intros b Hb. rewrite mksb_used by done. unfold vw'. rewrite fn_lookup_insert, bitmap_test by lia.
    by rewrite negb_involutive.
  - intros b a Hb. apply H. lia.
Qed.

Lemma take_free : free mksb vw fb.
Proof using H Hfb.
  pose proof (im_fb H) as Hr. change (data_start mksb) with 59 in Hr. split; [cbn; lia|].
  rewrite (im_used H) by (unfold FSSIZE in *; lia). apply Z.ltb_irrefl.
Qed.

Lemma take_allocates : allocates mksb vw fb vw'.
Proof using H Hfb.
  pose proof (im_fb H) as Hr. split.
  - intros x Hne Hx. unfold vw'. apply fn_lookup_insert_ne. intros <-.
    pose proof (geo_order mksb_geometry). lia.
  - intros a Ha. unfold vw'. rewrite fn_lookup_insert_ne.
    + rewrite (im_view H); [by apply H; lia |]. pose proof (geo_order mksb_geometry). lia.
    + pose proof (geo_order mksb_geometry). lia.
  - intros x Hx. rewrite (im_used take_ok), (im_used H) by done.
    destruct (Z.ltb_spec x (fb + 1)), (Z.ltb_spec x fb), (Z.eqb_spec fb x); lia || done.
Qed.
End Take.

(** *** The calls on the image *)

Lemma slot_xint vw d k : file_ok mksb vw d → (k < NSLOT)%nat → xint (slot vw d k) = slot vw d k.
Proof.
  intros Hf Hk. apply xint_small. destruct (Z.eq_dec (slot vw d k) 0) as [->|Hne]; [lia|].
  destruct (fk_data Hf k Hk Hne) as [Hr _]. change (data_start mksb) with 59 in Hr. cbn in Hr.
  unfold FSSIZE in Hr. lia.
Qed.

Lemma addr_xint vw d k :
  file_ok mksb vw d → (k ≤ NDIRECT)%nat → xint (di_addrs d !!! k) = di_addrs d !!! k.
Proof.
  intros Hf Hk. rewrite <- (slot_direct vw d k Hk). apply slot_xint; [done|].
  pose proof NDIRECT_NSLOT. lia.
Qed.

(** A data block in use is written. *)
Lemma image_write s vw a buf n :
  image s vw → data_start mksb ≤ a < mk_freeblock s →
  image (mkMkfs (<[a := buf]> (mk_img s)) (Z.max (mk_nsect s) (a + 1)) n (mk_sb s)
    (mk_freeinode s) (mk_freeblock s)) (<[a := buf]> vw).
Proof.
  intros H Ha. pose proof (im_fb H) as Hfb. pose proof (geo_order mksb_geometry) as Hg.
  unfold image. cbn [mk_img mk_nsect mk_sb mk_freeblock]. split; try apply H.
  - rewrite (im_nsect H) in *. lia.
  - intros x Hx. destruct (decide (x = a)) as [->|Hne].
    + by rewrite !fn_lookup_insert.
    + rewrite !fn_lookup_insert_ne by done. by apply H.
  - intros b Hb. rewrite <- (im_used H) by done. rewrite !mksb_used by done.
    rewrite fn_lookup_insert_ne by lia. done.
  - intros b x Hb Hx. rewrite fn_lookup_insert_ne by lia. by apply H.
Qed.

Section Rules.
Context {h : host}.
Hypothesis Hio : ∀ n, h_io h n = true.

Lemma host_call_rule msg s (Q : unit → mkfs → Prop) :
  Q tt (set_mk_calls (S (mk_calls s)) s) → runs (host_call h msg) s Q.
Proof using Hio.
  intros HQ. apply runs_bind, runs_get, runs_bind, runs_mod. rewrite Hio. by apply runs_ret.
Qed.

Lemma wsect_rule sec buf s (Q : unit → mkfs → Prop) :
  (∀ n, Q tt (mkMkfs (<[sec := buf]> (mk_img s)) (Z.max (mk_nsect s) (sec + 1)) n (mk_sb s)
                (mk_freeinode s) (mk_freeblock s))) →
  runs (wsect h sec buf) s Q.
Proof using Hio. intros HQ. do 2 apply runs_bind, host_call_rule. apply runs_mod, HQ. Qed.

Lemma rsect_rule sec s (Q : mem → mkfs → Prop) :
  sec < mk_nsect s → (∀ n, Q (mk_img s sec) (set_mk_calls n s)) → runs (rsect h sec) s Q.
Proof using Hio.
  intros Hs HQ. do 2 apply runs_bind, host_call_rule. apply runs_bind, runs_get. cbn [mk_nsect set_mk_calls].
  rewrite (proj2 (Z.ltb_lt _ _) Hs). apply runs_ret, HQ.
Qed.

Lemma next_block_rule s vw (Q : Z → mkfs → Prop) (fb := mk_freeblock s) :
  image s vw → fb < FSSIZE →
  (image (set_mk_freeblock (fb + 1) s) (<[sb_bmapstart mksb := bitmap (fb + 1)]> vw) →
     Q fb (set_mk_freeblock (fb + 1) s)) →
  runs next_block s Q.
Proof using.
  clear. intros H Hfb HQ. pose proof (im_fb H) as Hr. change (data_start mksb) with 59 in Hr.
  unfold FSSIZE in *. apply runs_bind, runs_get, runs_bind, runs_mod, runs_ret.
  rewrite u32_small by (fold fb in Hr; lia). apply HQ. by apply take_ok.
Qed.

Lemma new_slot_frame vw d vw' d' k b x :
  file_ok mksb vw d → new_slot mksb vw d vw' d' k b → 0 < x < sb_bmapstart mksb → vw' x = vw x.
Proof using.
  clear. intros Hf H Hx. pose proof (geo_order mksb_geometry) as Hg. pose proof (ns_data H).
  apply (ns_frame H); [lia | | lia]. intros ->.
  destruct (fk_data Hf NDIRECT NDIRECT_NSLOT) as [Hr _]; lia.
Qed.

Lemma iappend_addr_rule s vw d k (Q : dinode → mkfs → Prop) (fb := mk_freeblock s) :
  image s vw → file_ok mksb vw d → (k ≤ NDIRECT)%nat → (slot vw d k = 0 → fb < FSSIZE) →
  (slot vw d k ≠ 0 → Q d s) →
  (∀ vw' d', slot vw d k = 0 → new_slot mksb vw d vw' d' k fb → image (set_mk_freeblock (fb + 1) s) vw' →
     Q d' (set_mk_freeblock (fb + 1) s)) →
  runs (iappend_addr d k) s Q.
Proof using.
  clear. intros H Hf Hk Hfb HQ1 HQ2. unfold iappend_addr. rewrite (addr_xint vw) by done.
  rewrite <- (slot_direct vw d k Hk). destruct (Z.eqb_spec (slot vw d k) 0) as [E|E]; [|by apply runs_ret, HQ1].
  pose proof (im_fb H) as Hr. fold fb in Hr.
  apply runs_bind, (next_block_rule _ _ _ H); [by apply Hfb|]. intros H'. apply runs_ret.
  fold fb in H' |- *. rewrite xint_small by (change (data_start mksb) with 59 in Hr; unfold FSSIZE in Hr; lia).
  eapply HQ2; [done | | exact H'].
  apply new_direct; [apply mksb_geometry | done | apply (take_free H); auto | lia | apply (take_allocates H); auto | done..].
Qed.

Lemma iappend_entry_rule s vw d i (Q : Z → mkfs → Prop) (fb := mk_freeblock s)
    (k := (S NDIRECT + Z.to_nat i)%nat) :
  image s vw → file_ok mksb vw d → slot vw d NDIRECT ≠ 0 → 0 ≤ i < NINDIRECT →
  (slot vw d k = 0 → fb < FSSIZE) →
  (∀ n, slot vw d k ≠ 0 → Q (slot vw d k) (set_mk_calls n s)) →
  (∀ s' vw', slot vw d k = 0 → new_slot mksb vw d vw' d k fb → image s' vw' →
     mk_freeblock s' = fb + 1 → mk_freeinode s' = mk_freeinode s → Q fb s') →
  runs (iappend_entry h (di_addrs d !!! NDIRECT) i) s Q.
Proof using Hio.
  intros H Hf Ha Hi Hfb HQ1 HQ2. destruct (fk_data Hf _ NDIRECT_NSLOT Ha) as [Har Hau].
  rewrite slot_direct in Ha, Har, Hau by done. set (a := di_addrs d !!! NDIRECT) in *.
  pose proof (geo_order mksb_geometry) as Hg. pose proof (im_fb H) as Hr. fold fb in Hr.
  change (data_start mksb) with 59 in *. change (sb_size mksb) with FSSIZE in *.
  assert (Hafb : a < fb).
  { rewrite (im_used H) in Hau by lia. by apply Z.ltb_lt. }
  assert (Hk : (NDIRECT < k < NSLOT)%nat) by (unfold k, NSLOT; lia).
  assert (Ei : load32 (vw a) (4 * i) = slot vw d k).
  { rewrite slot_entry by (lia || done). fold a. do 2 f_equal. unfold k. lia. }
  apply runs_bind, rsect_rule; [rewrite (im_nsect H); lia|]. intros n.
  rewrite <- (im_view H a) by (change (sb_bmapstart mksb) with 58; lia). rewrite Ei. destruct (Z.eqb_spec (slot vw d k) 0) as [E|E].
  - apply runs_bind, runs_bind, (next_block_rule _ vw); [exact H | by apply Hfb |].
    cbn [mk_freeblock set_mk_calls]. fold fb. intros H'.
    apply runs_bind, wsect_rule. intros n2. apply runs_ret, runs_ret.
    unfold FSSIZE in *. rewrite (xint_small fb) by lia.
    rewrite load32_store32_uint, xint_small by (unfold uint; lia). eapply HQ2; [done | | | done..].
    + apply (@new_entry mksb vw (<[sb_bmapstart mksb := bitmap (fb + 1)]> vw) d fb mksb_geometry Hf
        (take_free H (Hfb E)) ltac:(change (data_start mksb) with 59; lia) (take_allocates H (Hfb E)) k); done.
    + fold a. rewrite fn_lookup_insert_ne by (change (sb_bmapstart mksb) with 58; lia).
      replace (4 * Z.of_nat (k - S NDIRECT)) with (4 * i) by (unfold k; lia).
      apply (image_write _ _ a _ n2 H'). change (data_start mksb) with 59. change (59 ≤ a < fb + 1). lia.
  - apply runs_bind, runs_ret, runs_ret. rewrite Ei, (slot_xint vw) by (done || lia). by apply HQ1.
Qed.

Lemma mapped_found vw d bn :
  file_ok mksb vw d → 0 ≤ bn < MAXFILE → slot vw d (bslot bn) ≠ 0 → mapped bn vw d vw d.
Proof using.
  clear. intros Hf Hbn Hs. split; [by apply extends_refl | done | done | | done].
  split; [|tauto]. intros E. split; [done|]. apply Z.lt_nge. intros Hge. destruct Hs.
  apply slot_no_indirect; [|by rewrite <- (slot_direct vw)].
  unfold bslot. destruct (Z.ltb_spec bn (Z.of_nat NDIRECT)); lia.
Qed.

Lemma mapped_new vw d vw' d' bn b :
  file_ok mksb vw d → 0 ≤ bn < MAXFILE → new_slot mksb vw d vw' d' (bslot bn) b →
  (Z.of_nat NDIRECT ≤ bn → slot vw d NDIRECT ≠ 0) → mapped bn vw d vw' d'.
Proof using.
  clear. intros Hf Hbn H Hi. pose proof (new_slot_range mksb_geometry H) as Hr.
  pose proof (bslot_indirect bn Hbn) as Hni. split.
  - exact (new_slot_extends mksb_geometry Hf H).
  - rewrite (ns_slot H) by apply H. rewrite decide_True by done. lia.
  - intros k Hk Hne _. rewrite (ns_slot H) by done. by rewrite decide_False.
  - rewrite (ns_slot H) by apply NDIRECT_NSLOT. rewrite decide_False by done.
    destruct (Z.lt_ge_cases bn (Z.of_nat NDIRECT)); tauto || (split; [|tauto]; intros E; by destruct Hi).
  - intros x. by apply (new_slot_frame _ _ _ _ _ _ _ Hf H).
Qed.

Lemma mapped_indirect vw d vw1 d1 vw2 d2 bn b :
  file_ok mksb vw d → 0 ≤ bn < MAXFILE → new_slot mksb vw d vw1 d1 NDIRECT b →
  mapped bn vw1 d1 vw2 d2 → Z.of_nat NDIRECT ≤ bn → mapped bn vw d vw2 d2.
Proof using.
  clear. intros Hf Hbn H H2 Hge. pose proof (new_slot_range mksb_geometry H) as Hr.
  pose proof (new_slot_extends mksb_geometry Hf H) as H1. split.
  - exact (extends_trans _ _ _ _ _ _ _ H1 (mp_ext H2)).
  - apply H2.
  - intros k Hk Hne Hni. rewrite (mp_other H2) by done. rewrite (ns_slot H) by done. by rewrite decide_False.
  - rewrite (mp_ind H2). lia.
  - intros x Hx. rewrite (mp_frame H2) by done. by apply (new_slot_frame _ _ _ _ _ _ _ Hf H).
Qed.

Lemma entry_mapped_rule s vw d bn (Q : Z → mkfs → Prop) (fb := mk_freeblock s)
    (n := if slot vw d (bslot bn) =? 0 then 1 else 0) :
  image s vw → file_ok mksb vw d → slot vw d NDIRECT ≠ 0 → Z.of_nat NDIRECT ≤ bn < MAXFILE →
  fb + n ≤ FSSIZE →
  (∀ s' vw', image s' vw' → mapped bn vw d vw' d → mk_freeblock s' = fb + n →
     mk_freeinode s' = mk_freeinode s → Q (slot vw' d (bslot bn)) s') →
  runs (iappend_entry h (di_addrs d !!! NDIRECT) (bn - Z.of_nat NDIRECT)) s Q.
Proof using Hio.
  intros H Hf Hi Hbn Hroom HQ.
  assert (Ek : bslot bn = (S NDIRECT + Z.to_nat (bn - Z.of_nat NDIRECT))%nat).
  { unfold bslot. destruct (Z.ltb_spec bn (Z.of_nat NDIRECT)); lia. }
  apply (iappend_entry_rule s vw); [done | done | done | unfold MAXFILE in Hbn; lia | rewrite <- Ek..].
  - intros E. subst n. rewrite E in Hroom. cbn in Hroom. fold fb. lia.
  - intros k Hs. apply (HQ _ vw); [exact H | apply mapped_found; auto; lia | | done].
    subst n. rewrite (proj2 (Z.eqb_neq _ _) Hs). change (fb = fb + 0). lia.
  - intros s' vw' Hs Hn H' Hb Hfi.
    replace (mk_freeblock s) with (slot vw' d (bslot bn)).
    2:{ rewrite (ns_slot Hn) by apply Hn. by rewrite decide_True. }
    apply HQ; [done | eapply mapped_new; eauto; lia | | done]. subst n. by rewrite Hs.
Qed.

(** The block of the file is there, or it is taken from the free blocks. *)
Lemma iappend_block_rule s vw d bn (Q : dinode * Z → mkfs → Prop) (fb := mk_freeblock s) :
  image s vw → file_ok mksb vw d → 0 ≤ bn < MAXFILE → fb + missing vw d bn ≤ FSSIZE →
  (∀ s' vw' d', image s' vw' → mapped bn vw d vw' d' → mk_freeblock s' = fb + missing vw d bn →
     mk_freeinode s' = mk_freeinode s → Q (d', slot vw' d' (bslot bn)) s') →
  runs (iappend_block h d bn) s Q.
Proof using Hio.
  intros H Hf Hbn Hroom HQ. unfold iappend_block, missing in *.
  destruct (Z.ltb_spec bn (Z.of_nat NDIRECT)) as [Hlt|Hge].
  - assert (Ek : bslot bn = Z.to_nat bn) by (unfold bslot; by rewrite (proj2 (Z.ltb_lt _ _) Hlt)).
    rewrite (proj2 (Z.leb_gt _ _) Hlt), andb_false_l, Z.add_0_r in *.
    apply runs_bind, (iappend_addr_rule s vw); [done.. | unfold NDIRECT in *; lia | |
      intros Hs | intros vw' d' Hs Hn H'].
    + intros Hz. rewrite Ek, Hz in Hroom. cbn in Hroom. fold fb. lia.
    + apply runs_ret. rewrite (addr_xint vw), <- (slot_direct vw) by (done || unfold NDIRECT in *; lia).
      rewrite <- Ek in *. apply (HQ s vw); auto using mapped_found.
      rewrite (proj2 (Z.eqb_neq _ _) Hs). lia.
    + apply runs_ret. rewrite <- Ek in *. pose proof (new_slot_ok mksb_geometry Hf Hn) as Hf'.
      rewrite (addr_xint vw'), <- (slot_direct vw') by (done || unfold NDIRECT in *; lia).
      apply (HQ _ vw'); [done | | | done].
      * eapply mapped_new; [done.. | lia].
      * rewrite Hs. done.
  - rewrite (proj2 (Z.leb_le _ _) Hge), andb_true_l in *. pose proof NDIRECT_NSLOT as HN.
    apply runs_bind, (iappend_addr_rule s vw); [done.. | | intros Hs | intros vw1 d1 Hs Hn H1].
    + intros Hz. rewrite Hz in Hroom. cbn in Hroom. fold fb.
      destruct (slot vw d (bslot bn) =? 0); lia.
    + rewrite (addr_xint vw) by done. rewrite (proj2 (Z.eqb_neq _ _) Hs), Z.add_0_r in *.
      apply runs_bind, (entry_mapped_rule s vw); [done.. | lia | done |].
      intros s' vw' H' Hm Hb Hfi. apply runs_ret. by apply (HQ s' vw').
    + pose proof (new_slot_ok mksb_geometry Hf Hn) as Hf1.
      pose proof (new_slot_range mksb_geometry Hn) as Hr.
      assert (En : slot vw1 d1 (bslot bn) = slot vw d (bslot bn)).
      { rewrite (ns_slot Hn) by by apply bslot_lt. by rewrite decide_False by by apply bslot_indirect. }
      rewrite (addr_xint vw1) by done. rewrite Hs, <- En in *. cbn [Z.eqb] in *.
      apply runs_bind, (entry_mapped_rule _ vw1); [done.. | | lia | |].
      * rewrite (ns_slot Hn) by done. rewrite decide_True by done. lia.
      * change (fb + 1 + (if slot vw1 d1 (bslot bn) =? 0 then 1 else 0) ≤ FSSIZE). lia.
      * intros s' vw' H' Hm Hb Hfi. apply runs_ret. apply (HQ s' vw'); [done | | | done].
        -- eapply mapped_indirect; eauto.
        -- rewrite Hb. change (mk_freeblock (set_mk_freeblock _ _)) with (fb + 1). lia.
Qed.

(** *** The loop of [iappend] *)

Lemma missing_blocks vw d off c (bn := off / BSIZE) :
  exact vw d off → 0 ≤ off < MAXFILE * BSIZE → 0 < c → off + c ≤ (bn + 1) * BSIZE →
  missing vw d bn = blocks_of (off + c) - blocks_of off.
Proof using.
  clear. intros [Hb Hi] Hoff Hc Hend. unfold missing, blocks_of.
  assert (Hbn : 0 ≤ bn < MAXFILE).
  { split; [apply Z.div_pos; [lia | done] | apply Z.div_lt_upper_bound; [done | lia]]. }
  specialize (Hb bn Hbn). unfold NDIRECT, BSIZE in *. change (Z.of_nat 10) with 10 in *.
  assert (bn = off / 512) as Ebn by done. clearbody bn.
  destruct (Z.eqb_spec (slot vw d (bslot bn)) 0), (Z.eqb_spec (slot vw d 10) 0), (Z.leb_spec 10 bn),
    (Z.ltb_spec (10 * 512) (off + c)), (Z.ltb_spec (10 * 512) off); cbn [andb];
  zmod_lia.
Qed.

Lemma exact_mapped vw d vw' d' off c (bn := off / BSIZE) :
  exact vw d off → mapped bn vw d vw' d' → 0 ≤ off < MAXFILE * BSIZE → 0 < c →
  off + c ≤ (bn + 1) * BSIZE → exact vw' d' (off + c).
Proof using.
  clear. intros [Hb Hi] H Hoff Hc Hend. assert (Hbn : bn * BSIZE ≤ off < (bn + 1) * BSIZE).
  { subst bn. unfold BSIZE. zmod_lia. }
  split.
  - intros b Hbr. destruct (decide (b = bn)) as [->|Hne].
    + pose proof (mp_slot H). split; [done | lia].
    + rewrite (mp_other H), Hb; [|done | by apply bslot_lt | | by apply bslot_indirect].
      * split; [|lia]. intros Hle. destruct (Z.lt_ge_cases b bn); [unfold BSIZE in *; nia | ].
        assert (bn + 1 ≤ b) as Hb1 by lia. apply (Zmult_le_compat_r _ _ BSIZE) in Hb1; [lia | done].
      * intros E%bslot_inj; [done | lia | subst bn; apply Z.div_pos; [lia | done]].
  - rewrite (mp_ind H), Hi. unfold BSIZE in *. lia.
Qed.

(** One round. *)
Lemma iappend_round_rule {A : Type} m s vw d off p c (k : dinode → K mkfs A) (Q : A → mkfs → Prop)
    (fb := mk_freeblock s) (bn := off / BSIZE) (need := blocks_of (off + c) - blocks_of off) :
  image s vw → file_ok mksb vw d → exact vw d off → 0 ≤ off → 0 < c →
  off + c ≤ (bn + 1) * BSIZE → off + c ≤ MAXFILE * BSIZE → fb + need ≤ FSSIZE →
  (∀ s' vw' d', image s' vw' → wrote mksb m p off c vw d vw' d' → exact vw' d' (off + c) →
     mk_freeblock s' = fb + need → mk_freeinode s' = mk_freeinode s →
     (∀ x, 0 < x < sb_bmapstart mksb → vw' x = vw x) → runs (k d') s' Q) →
  runs (r ← iappend_block h d bn;
        buf ← rsect h r.2;
        wsect h r.2 (blit buf (off - bn * BSIZE) m p c);; k r.1) s Q.
Proof using Hio.
  intros H Hf He Hoff Hc Hend Hmax Hroom HQ.
  assert (Hbn : 0 ≤ bn < MAXFILE).
  { subst bn. split; [by apply Z.div_pos | apply Z.div_lt_upper_bound; [done | lia]]. }
  assert (Hmb : missing vw d bn = need) by (apply missing_blocks; auto; lia).
  apply runs_bind, (iappend_block_rule s vw); [done.. | fold fb; lia |].
  intros s1 vw1 d1 H1 Hm Hb1 Hi1. cbn [fst snd]. rewrite Hmb in Hb1. fold fb in Hb1.
  pose proof (ex_ok (mp_ext Hm)) as Hf1. pose proof (mp_slot Hm) as Hne.
  pose proof (geo_order mksb_geometry) as Hg. set (a := slot vw1 d1 (bslot bn)) in *.
  destruct (fk_data Hf1 _ (bslot_lt _ Hbn) Hne) as [Har Hau]. fold a in Har, Hau.
  change (sb_size mksb) with FSSIZE in *. rewrite (im_used H1), Z.ltb_lt in Hau by lia.
  apply runs_bind, rsect_rule; [rewrite (im_nsect H1); lia|]. intros n1.
  rewrite <- (im_view H1) by lia. apply runs_bind, wsect_rule. intros n2.
  cbn [mk_img mk_nsect mk_sb mk_freeinode mk_freeblock set_mk_calls].
  replace (off - bn * BSIZE) with (off mod BSIZE) by (subst bn; unfold BSIZE; zmod_lia).
  assert (Hw : wrote mksb m p off c vw1 d1 (<[a := blit (vw1 a) (off mod BSIZE) m p c]> vw1) d1).
  { apply (chunk_wrote mksb_geometry Hf1); [done | | done | done].
    split; [done|]. subst bn. unfold BSIZE in *. zmod_lia. }
  assert (Hsl : ∀ k, slot (<[a := blit (vw1 a) (off mod BSIZE) m p c]> vw1) d1 k = slot vw1 d1 k).
  { intros j. apply slot_ext, fn_lookup_insert_ne. rewrite <- (slot_direct vw1) by done. intros E.
    apply (bslot_indirect _ Hbn). by apply (fk_inj Hf1); [apply bslot_lt | apply NDIRECT_NSLOT | ..]. }
  eapply HQ.
  - apply image_write; [exact H1 | lia].
  - exact (wrote_extends _ _ _ _ _ _ _ _ _ _ _ (mp_ext Hm) Hw).
  - destruct (exact_mapped vw d vw1 d1 off c) as [Ex Ei]; [done.. | lia | done | done |].
    split; [intros b Hb|]; rewrite Hsl; auto.
  - done.
  - done.
  - intros x Hx. rewrite fn_lookup_insert_ne by lia. by apply (mp_frame Hm).
Qed.

Lemma iappend_loop_rule fuel m s vw d off p n (Q : dinode * Z → mkfs → Prop) (fb := mk_freeblock s) :
  image s vw → file_ok mksb vw d → exact vw d off → 0 ≤ off → 0 ≤ n → off + n ≤ MAXFILE * BSIZE →
  fb + (blocks_of (off + n) - blocks_of off) ≤ FSSIZE → (Z.to_nat n < fuel)%nat →
  (∀ s' vw' d', image s' vw' → wrote mksb m p off n vw d vw' d' → exact vw' d' (off + n) →
     mk_freeblock s' = fb + (blocks_of (off + n) - blocks_of off) →
     mk_freeinode s' = mk_freeinode s → (∀ x, 0 < x < sb_bmapstart mksb → vw' x = vw x) →
     Q (d', off + n) s') →
  runs (iappend_loop h fuel m d off p n) s Q.
Proof using Hio.
  revert s vw d off p n Q fb. induction fuel as [|fuel IH]; [lia|].
  intros s vw d off p n Q fb H Hf He Hoff Hn Hmax Hroom Hfuel HQ. cbn [iappend_loop].
  rewrite Z.gtb_ltb. destruct (Z.ltb_spec 0 n) as [Hpos|Hz].
  2:{ assert (n = 0) as -> by lia. apply runs_ret. rewrite <- (Z.add_0_r off) at 1.
      apply (HQ s vw d); auto using wrote_nothing; [by rewrite Z.add_0_r | fold fb; rewrite Z.add_0_r; lia]. }
  set (bn := off / BSIZE). assert (Hbn : 0 ≤ bn < MAXFILE).
  { subst bn. split; [by apply Z.div_pos | apply Z.div_lt_upper_bound; [done | lia]]. }
  assert (Hend : bn * BSIZE ≤ off < (bn + 1) * BSIZE ∧ off mod BSIZE = off - bn * BSIZE).
  { subst bn. unfold BSIZE. zmod_lia. }
  unfold MAXFILE, NINDIRECT, NDIRECT, BSIZE in Hmax. change (512 / 4) with 128 in Hmax.
  rewrite (u32_small ((bn + 1) * BSIZE - off)), (u32_small (off - bn * BSIZE)) by (unfold BSIZE in *; lia).
  set (c := Z.min n ((bn + 1) * BSIZE - off)) in *. assert (Hc : 0 < c ≤ n ∧ off + c ≤ (bn + 1) * BSIZE) by lia.
  rewrite (u32_small (off + c)) by lia.
  assert (Hmono : blocks_of (off + c) ≤ blocks_of (off + n)).
  { apply blocks_of_mono. lia. }
  unfold massert. rewrite (proj2 (Z.ltb_lt bn MAXFILE)) by lia. apply runs_bind, runs_ret.
  apply (iappend_round_rule m s vw d off p c (λ d, iappend_loop h fuel m d (off + c) (p + c) (n - c))); [done.. | lia | lia | | fold fb; lia |].
  { unfold MAXFILE, NINDIRECT, NDIRECT, BSIZE. change (512 / 4) with 128. lia. }
  intros s1 vw1 d1 H1 Hw He1 Hb1 Hi1 Hfr.
  apply (IH s1 vw1 d1); [done | apply Hw | done | lia | lia | | | lia |].
  { unfold MAXFILE, NINDIRECT, NDIRECT, BSIZE. change (512 / 4) with 128. lia. }
  { rewrite Hb1. replace (off + c + (n - c)) with (off + n) by lia. fold fb. lia. }
  intros s' vw' d' H' Hw' He' Hb' Hi' Hfr'.
  replace (off + c + (n - c)) with (off + n) in * by lia. apply (HQ s' vw'); [done | | done | | congruence |].
  - eapply wrote_trans; [..|exact Hw|exact Hw']; [lia..|].
    unfold MAXFILE, NINDIRECT, NDIRECT, BSIZE. change (512 / 4) with 128. lia.
  - rewrite Hb', Hb1. fold fb. lia.
  - intros x Hx. rewrite Hfr' by done. by apply Hfr.
Qed.
End Rules.

(** *** The files of the disk *)

Lemma slot_ge vw d k :
  file_ok mksb vw d → (k < NSLOT)%nat → slot vw d k ≠ 0 → data_start mksb ≤ slot vw d k < FSSIZE.
Proof. intros Hf Hk Hs. apply (fk_data Hf k Hk Hs). Qed.

(** Blocks that are not of the file may change. *)
Section Frame.
Context {vw vw' : Z → mem} {d : dinode}.
Hypothesis Hf : file_ok mksb vw d.
Hypothesis Hsame : ∀ k, (k < NSLOT)%nat → slot vw d k ≠ 0 → vw' (slot vw d k) = vw (slot vw d k).
Hypothesis Hused : ∀ x, 0 ≤ x < FSSIZE → used mksb vw x = true → used mksb vw' x = true.

Lemma frame_slot k : slot vw' d k = slot vw d k.
Proof using Hsame.
  destruct (Z.eq_dec (slot vw d NDIRECT) 0) as [E|E].
  - rewrite slot_direct in E by done. unfold slot. by rewrite E.
  - apply slot_ext. rewrite <- (slot_direct vw) by done. apply Hsame; [apply NDIRECT_NSLOT | done].
Qed.

Lemma frame_file_ok : file_ok mksb vw' d.
Proof using Hf Hsame Hused.
  pose proof (geo_order mksb_geometry). split; [apply Hf | |].
  - intros k Hk. rewrite frame_slot. intros Hs. destruct (fk_data Hf k Hk Hs) as [Hr Hu].
    split; [done|]. apply Hused; [|done]. change (sb_size mksb) with FSSIZE in Hr. lia.
  - intros k j Hk Hj. rewrite !frame_slot. by apply (fk_inj Hf).
Qed.

Lemma frame_fbyte y : 0 ≤ y < MAXFILE * BSIZE → fbyte vw' d y = fbyte vw d y.
Proof using Hsame.
  intros Hy. destruct (fbyte_slot y Hy) as (Hk & _ & _). unfold fbyte. rewrite frame_slot.
  destruct (Z.eqb_spec (slot vw d (bslot (y / BSIZE))) 0); [done|]. by rewrite Hsame.
Qed.

Lemma frame_stored t b : stored vw d t b → stored vw' d t b.
Proof using Hf Hsame Hused.
  intros H. split; try apply H; [apply frame_file_ok | |].
  - intros y Hy. rewrite frame_fbyte by done. by apply (sr_byte H).
  - destruct (sr_exact H) as [He Hi]. split; [intros x Hx|]; rewrite frame_slot; auto.
Qed.
End Frame.

Lemma stored_wf vw d t b : stored vw d t b → dinode_wf d.
Proof.
  intros H. rewrite (sr_attr H). pose proof (sr_max H) as Hmax. pose proof (sr_type H) as Ht.
  unfold MAXFILE, NINDIRECT, NDIRECT, BSIZE in Hmax. change (512 / 4) with 128 in Hmax.
  split; cbn; try (unfold short, ushort, uint, DEFAULT_UID, DEFAULT_GID, DEFAULT_MODE in *; lia).
  - apply Forall_lookup. intros i x Hx. pose proof (fk_addrs (sr_ok H)) as Hl.
    apply lookup_lt_Some in Hx as Hi. rewrite Hl in Hi. apply list_lookup_total_correct in Hx as <-.
    rewrite <- (slot_direct vw) by lia. destruct (Z.eq_dec (slot vw d i) 0) as [->|Hne]; [unfold uint; lia|].
    pose proof NDIRECT_NSLOT. destruct (slot_ge vw d i (sr_ok H)) as [Hge Hlt]; [lia | done |].
    change (data_start mksb) with 59 in Hge. unfold FSSIZE in Hlt. unfold uint. lia.
  - apply H.
Qed.

Section PutNode.
Context {vw : Z → mem} {k : nat} {d : dinode}.
Hypothesis Hk : Z.of_nat k + 1 < NINODES.
Hypothesis Hd : dinode_wf d.

Lemma put_node_block x : x < sb_inodestart mksb ∨ sb_bmapstart mksb ≤ x → put_node vw k d x = vw x.
Proof using Hk.
  intros Hx. apply fn_lookup_insert_ne.
  pose proof (IBLOCK_range mksb_geometry (Z.of_nat k + 1) ltac:(cbn; unfold NINODES in *; lia)). lia.
Qed.

Lemma put_node_same : node (put_node vw k d) k = d.
Proof using Hd. unfold node, put_node. by apply disk_inode_written. Qed.

Lemma put_node_other j : Z.of_nat j + 1 < NINODES → j ≠ k → node (put_node vw k d) j = node vw j.
Proof using Hk Hd.
  intros Hj Hne. apply (disk_inode_update mksb_geometry); [cbn; lia.. | apply Hd | lia].
Qed.

Lemma put_node_used x : 0 ≤ x < FSSIZE → used mksb (put_node vw k d) x = used mksb vw x.
Proof using Hk.
  intros Hx. rewrite !mksb_used by done. by rewrite put_node_block by (right; lia).
Qed.

Lemma put_node_slot e j : file_ok mksb vw e → slot (put_node vw k d) e j = slot vw e j.
Proof using Hk.
  intros Hf. apply frame_slot. intros i Hi Hs. apply put_node_block.
  pose proof (geo_order mksb_geometry). pose proof (slot_ge _ _ _ Hf Hi Hs). lia.
Qed.

Lemma put_node_stored e t b : stored vw e t b → stored (put_node vw k d) e t b.
Proof using Hk.
  intros H. apply (frame_stored (sr_ok H)); [..|done].
  - intros i Hi Hs. apply put_node_block.
    pose proof (geo_order mksb_geometry). pose proof (slot_ge _ _ _ (sr_ok H) Hi Hs). lia.
  - intros x Hx Hu. by rewrite put_node_used.
Qed.
End PutNode.

Section Append.
Context {vw vw1 : Z → mem} {files : list (Z * list Z)} {k : nat} {t : Z} {b l : list Z} {m : mem} {d1 : dinode}.
Let d := node vw k.
Let off := Z.of_nat (length b).
Let n := Z.of_nat (length l).
Let d2 := set_di_size (off + n) d1.
Hypothesis H : disk_has vw files.
Hypothesis Hn : Z.of_nat (length files) < NINODES.
Hypothesis Hk : files !! k = Some (t, b).
Hypothesis Hm : ∀ i c, l !! i = Some c → m (Z.of_nat i) = c.
Hypothesis Hmax : off + n ≤ MAXFILE * BSIZE.
Hypothesis Hw : wrote mksb m 0 off n vw d vw1 d1.
Hypothesis He : exact vw1 d1 (off + n).
Hypothesis Hfr : ∀ x, 0 < x < sb_bmapstart mksb → vw1 x = vw x.
Hypothesis Hused : ∀ x, 0 ≤ x < FSSIZE → used mksb vw x = true → used mksb vw1 x = true.

Lemma append_stored : stored vw1 d2 t (b ++ l).
Proof using H Hk Hm Hmax Hw He.
  pose proof (dh_file H k t b Hk) as Hs. fold d in Hs.
  assert (Es : ∀ j, slot vw1 d2 j = slot vw1 d1 j) by done. split.
  - destruct (wt_ok Hw). split; done.
  - pose proof (wt_rest Hw) as Er. rewrite (sr_attr Hs) in Er. destruct d1 as [ty mj mn nl u g mo sz ad].
    unfold set_di_addrs in Er. cbn in Er. injection Er as -> -> -> -> -> -> -> _.
    unfold d2. cbn. rewrite length_app, Nat2Z.inj_add. done.
  - apply Hs.
  - rewrite length_app, Nat2Z.inj_add. done.
  - intros y Hy. change (fbyte vw1 d2 y) with (fbyte vw1 d1 y). rewrite (wt_byte Hw) by done.
    rewrite (sr_byte Hs) by done. destruct (Z.leb_spec off y) as [Hge|Hlt].
    + rewrite lookup_app_r by (unfold off in *; lia). destruct (Z.ltb_spec y (off + n)); cbn [andb].
      * destruct (l !! (Z.to_nat y - length b)%nat) as [c|] eqn:E.
        -- cbn. rewrite <- (Hm _ _ E). f_equal. unfold off in *. lia.
        -- apply lookup_ge_None in E. unfold off, n in *. lia.
      * rewrite !lookup_ge_None_2 by (unfold off, n in *; lia). done.
    + cbn [andb]. rewrite lookup_app_l by (unfold off in *; lia). done.
  - rewrite length_app, Nat2Z.inj_add. exact He.
Qed.

Lemma append_other j t' b' : j ≠ k → files !! j = Some (t', b') →
  node vw1 j = node vw j ∧ stored vw1 (node vw j) t' b' ∧
  (∀ i, slot vw1 (node vw j) i = slot vw (node vw j) i) ∧
  ∀ i, (i < NSLOT)%nat → slot vw (node vw j) i ≠ 0 → foreign mksb vw1 d1 (slot vw (node vw j) i).
Proof using H Hn Hk Hw Hfr Hused.
  intros Hne Hj. pose proof (dh_file H j t' b' Hj) as Hs. pose proof (geo_order mksb_geometry) as Hg.
  pose proof (lookup_lt_Some _ _ _ Hj) as Hlj. pose proof (lookup_lt_Some _ _ _ Hk) as Hlk.
  assert (Hfo : ∀ i, (i < NSLOT)%nat → slot vw (node vw j) i ≠ 0 → foreign mksb vw d (slot vw (node vw j) i)).
  { intros i Hi Hsl. destruct (fk_data (sr_ok Hs) i Hi Hsl) as [Hr Hu]. right. split; [done|]. split; [done|].
    intros i' Hi' E. apply Hne. symmetry. apply (dh_apart H k j i' i); auto. fold d. congruence. }
  assert (Hsame : ∀ i, (i < NSLOT)%nat → slot vw (node vw j) i ≠ 0 →
    vw1 (slot vw (node vw j) i) = vw (slot vw (node vw j) i)).
  { intros i Hi Hsl. apply (wt_foreign Hw). auto. }
  split_and!.
  - unfold node, disk_inode.
    pose proof (IBLOCK_range mksb_geometry (Z.of_nat j + 1) ltac:(cbn; unfold NINODES in *; lia)).
    by rewrite Hfr by lia.
  - by apply (frame_stored (sr_ok Hs) Hsame Hused).
  - intros i. by apply frame_slot.
  - intros i Hi Hsl. apply (wt_foreign Hw). auto.
Qed.

Lemma append_node j : Z.of_nat j + 1 < NINODES → node vw1 j = node vw j.
Proof using Hfr.
  clear -Hfr. intros Hj. unfold node, disk_inode. pose proof (geo_order mksb_geometry).
  pose proof (IBLOCK_range mksb_geometry (Z.of_nat j + 1) ltac:(cbn; lia)). by rewrite Hfr by lia.
Qed.

Let vw2 := put_node vw1 k d2.

Lemma append_range : Z.of_nat k + 1 < NINODES ∧ dinode_wf d2.
Proof using H Hn Hk Hm Hmax Hw He.
  apply lookup_lt_Some in Hk as Hlk. split; [lia|]. exact (stored_wf _ _ _ _ append_stored).
Qed.

Lemma append_slots j t' b' : j ≠ k → files !! j = Some (t', b') →
  node vw2 j = node vw j ∧ stored vw2 (node vw j) t' b' ∧
  ∀ i, (i < NSLOT)%nat → slot vw2 (node vw j) i = slot vw (node vw j) i ∧
    (slot vw (node vw j) i ≠ 0 → ∀ i', (i' < NSLOT)%nat → slot vw2 d2 i' ≠ slot vw (node vw j) i).
Proof using All.
  intros Hne Hj. destruct append_range as [Hlk Hwf]. apply lookup_lt_Some in Hj as Hlj.
  destruct (append_other j t' b' Hne Hj) as (En & Hs & Hsl & Hfo). split_and!.
  - unfold vw2. rewrite put_node_other by (done || lia). done.
  - by apply put_node_stored.
  - intros i Hi. split; [unfold vw2; by rewrite put_node_slot by (done || apply Hs)|].
    intros Hz i' Hi'. unfold vw2. rewrite put_node_slot; [|done | apply append_stored].
    destruct (Hfo i Hi Hz) as [Hr|(_ & _ & Hd)]; [|by apply Hd].
    destruct (slot_ge _ _ _ (sr_ok (dh_file H _ _ _ Hj)) Hi Hz). pose proof (geo_order mksb_geometry). lia.
Qed.

Lemma append_disk : disk_has vw2 (<[k := (t, b ++ l)]> files).
Proof using All.
  destruct append_range as [Hlk Hwf]. pose proof (lookup_lt_Some _ _ _ Hk) as Hkl.
  assert (E2 : node vw2 k = d2) by by apply put_node_same. split.
  - intros j t' b' Hj. destruct (decide (j = k)) as [->|Hne].
    + rewrite list_lookup_insert_eq in Hj by done. injection Hj as <- <-. rewrite E2.
      apply put_node_stored; [done | apply append_stored].
    + rewrite list_lookup_insert_ne in Hj by done.
      destruct (append_slots j t' b' Hne Hj) as (-> & Hs & _). done.
  - intros i j ki kj. rewrite length_insert. intros Hi Hj Hki Hkj.
    destruct (lookup_lt_is_Some_2 _ _ Hi) as [[ti bi] Ei], (lookup_lt_is_Some_2 _ _ Hj) as [[tj bj] Ej].
    destruct (decide (i = k)) as [->|Hik], (decide (j = k)) as [->|Hjk]; [done|..].
    + destruct (append_slots j tj bj Hjk Ej) as (-> & _ & Hs). destruct (Hs kj Hkj) as [-> Hd]. rewrite E2.
      intros E Hz. destruct (Hd ltac:(congruence) ki Hki E).
    + destruct (append_slots i ti bi Hik Ei) as (-> & _ & Hs). destruct (Hs ki Hki) as [-> Hd]. rewrite E2.
      intros E Hz. by destruct (Hd Hz kj Hkj).
    + destruct (append_slots i ti bi Hik Ei) as (-> & _ & Hs), (append_slots j tj bj Hjk Ej) as (-> & _ & Hs').
      destruct (Hs ki Hki) as [-> _], (Hs' kj Hkj) as [-> _]. by apply (dh_apart H).
  - intros j. rewrite length_insert. intros Hj Hjn. unfold vw2.
    rewrite put_node_other, append_node by (done || lia). by apply (dh_free H).
  - unfold vw2. rewrite put_node_block, Hfr by (done || by left). apply H.
  - unfold vw2. rewrite put_node_block, Hfr by (done || by left). apply H.
Qed.
End Append.

Lemma total_blocks_cons f files :
  total_blocks (f :: files) = blocks_of (Z.of_nat (length f.2)) + total_blocks files.
Proof. done. Qed.

Lemma total_blocks_insert files k t b t' b' :
  files !! k = Some (t, b) →
  total_blocks (<[k := (t', b')]> files) =
    total_blocks files + (blocks_of (Z.of_nat (length b')) - blocks_of (Z.of_nat (length b))).
Proof.
  revert k. induction files as [|[t0 b0] files IH]; intros k Hk; [done|]. destruct k as [|k].
  - injection Hk as -> ->. change (<[0%nat := (t', b')]> ((t, b) :: files)) with ((t', b') :: files).
    rewrite !total_blocks_cons. cbn [snd]. lia.
  - change (<[S k := (t', b')]> ((t0, b0) :: files)) with ((t0, b0) :: <[k := (t', b')]> files).
    rewrite !total_blocks_cons, (IH k Hk). lia.
Qed.

Lemma total_blocks_snoc files t : total_blocks (files ++ [(t, [])]) = total_blocks files.
Proof. unfold total_blocks. rewrite foldr_app. done. Qed.

Lemma empty_slot vw t k : slot vw (empty_node t) k = 0.
Proof.
  unfold slot. cbn [di_addrs empty_node]. destruct (decide (k ≤ NDIRECT)%nat).
  - rewrite lookup_total_replicate_2 by lia. done.
  - rewrite lookup_total_replicate_2 by lia. done.
Qed.

Lemma empty_stored vw t : short t → stored vw (empty_node t) t [].
Proof.
  intros Ht. split; try done.
  - split; [done | intros k _; by rewrite empty_slot | intros k j _ _; by rewrite empty_slot].
  - intros y Hy. unfold fbyte. by rewrite empty_slot.
  - split; [intros b Hb|]; rewrite empty_slot; [|done]. cbn. unfold BSIZE. lia.
Qed.

Lemma disk_has_new vw files t (k := length files) (vw' := put_node vw k (empty_node t)) :
  disk_has vw files → Z.of_nat k + 1 < NINODES → short t → disk_has vw' (files ++ [(t, [])]).
Proof.
  intros H Hk Ht. assert (Hwf : dinode_wf (empty_node t)) by exact (stored_wf _ _ _ _ (empty_stored vw t Ht)).
  assert (Enew : node vw' k = empty_node t) by by apply put_node_same.
  assert (Eold : ∀ j, (j < k)%nat → node vw' j = node vw j).
  { intros j Hj. apply put_node_other; done || lia. }
  assert (Hst : ∀ j, (j < k)%nat → ∃ t' b', files !! j = Some (t', b') ∧ stored vw (node vw j) t' b').
  { intros j [[t' b'] Hj]%lookup_lt_is_Some_2. exists t', b'. split; [done | by apply H]. }
  split.
  - intros j t' b' [Hj|[Hj [? Ej]%list_lookup_singleton_Some]]%lookup_app_Some.
    + rewrite Eold by by eapply lookup_lt_Some. apply put_node_stored; [done | by apply H].
    + injection Ej as <- <-. replace j with k by (unfold k; lia). rewrite Enew. by apply empty_stored.
  - intros i j ki kj. rewrite length_app. cbn [length]. intros Hi Hj Hki Hkj.
    destruct (decide (i = k)) as [->|Hik]; [rewrite Enew, empty_slot; done|].
    destruct (decide (j = k)) as [->|Hjk]; [rewrite Enew, empty_slot; congruence|].
    rewrite !Eold by (unfold k in *; lia).
    destruct (Hst i) as (? & ? & _ & Hsi), (Hst j) as (? & ? & _ & Hsj); [unfold k in *; lia..|].
    unfold vw'. rewrite !put_node_slot by (done || apply Hsi || apply Hsj).
    apply (dh_apart H); unfold k in *; lia || done.
  - intros j. rewrite length_app. cbn [length]. intros Hj Hjn. unfold vw'.
    rewrite put_node_other by (done || unfold k; lia). apply (dh_free H); lia.
  - unfold vw'. rewrite put_node_block by (done || by left). apply H.
  - unfold vw'. rewrite put_node_block by (done || by left). apply H.
Qed.

Section Files.
Context {h : host}.
Hypothesis Hio : ∀ n, h_io h n = true.

Lemma inode_block k : Z.of_nat k + 1 < NINODES →
  sb_inodestart mksb ≤ IBLOCK (Z.of_nat k + 1) mksb < sb_bmapstart mksb.
Proof using. clear. intros Hk. apply (IBLOCK_range mksb_geometry). cbn. lia. Qed.

Lemma winode_rule s vw k d (Q : unit → mkfs → Prop) :
  image s vw → Z.of_nat k + 1 < NINODES →
  (∀ s', image s' (put_node vw k d) → mk_freeblock s' = mk_freeblock s →
     mk_freeinode s' = mk_freeinode s → Q tt s') →
  runs (winode h (Z.of_nat k + 1) d) s Q.
Proof using Hio.
  intros H Hk HQ. pose proof (inode_block k Hk) as Hb. pose proof (geo_order mksb_geometry) as Hg.
  apply runs_bind, runs_get. rewrite (im_sb H). set (x := IBLOCK _ _) in *.
  change (sb_size mksb) with FSSIZE in *.
  apply runs_bind, (rsect_rule Hio); [rewrite (im_nsect H); lia|]. intros n.
  rewrite <- (im_view H) by lia. apply (wsect_rule Hio). intros n'. apply HQ; [|done..].
  pose proof (im_fb H) as Hfb. unfold image. cbn [mk_img mk_nsect mk_sb mk_freeblock set_mk_calls].
  unfold put_node. fold x. split; try apply H.
  - rewrite (im_nsect H). lia.
  - intros y Hy. destruct (decide (y = x)) as [->|Hne]; [by rewrite !fn_lookup_insert|].
    rewrite !fn_lookup_insert_ne by done. by apply H.
  - intros b Hb'. rewrite <- (im_used H) by done. by apply put_node_used.
  - intros b a Hb' Ha. rewrite fn_lookup_insert_ne by lia. by apply H.
Qed.

Lemma rinode_rule s vw k (Q : dinode → mkfs → Prop) :
  image s vw → Z.of_nat k + 1 < NINODES → (∀ n, Q (node vw k) (set_mk_calls n s)) →
  runs (rinode h (Z.of_nat k + 1)) s Q.
Proof using Hio.
  intros H Hk HQ. pose proof (inode_block k Hk) as Hb. pose proof (geo_order mksb_geometry) as Hg.
  apply runs_bind, runs_get. rewrite (im_sb H). change (sb_size mksb) with FSSIZE in *.
  apply runs_bind, (rsect_rule Hio); [rewrite (im_nsect H); lia|]. intros n.
  rewrite <- (im_view H) by lia. apply runs_ret, HQ.
Qed.

Lemma ialloc_rule files s vw t (Q : Z → mkfs → Prop) :
  built files s vw → Z.of_nat (length files) + 1 < NINODES → 0 ≤ t < 32768 →
  (∀ s' vw', built (files ++ [(t, [])]) s' vw' → Q (Z.of_nat (length files) + 1) s') →
  runs (ialloc h t) s Q.
Proof using Hio.
  intros H Hn Ht HQ. assert (Hst : short t) by (unfold short; lia).
  apply runs_bind, runs_get, runs_bind, runs_mod. rewrite (bt_inodes H).
  rewrite (xint_small 0), (xshort_small 1), (xshort_small t) by lia.
  rewrite <- (u16_small t), (s16_u16 t Hst) by (unfold ushort; lia).
  change (s16 1) with 1. fold (empty_node t).
  apply runs_bind, (winode_rule _ vw); [apply H | done |]. intros s' H' Hb Hi. apply runs_ret.
  eapply HQ. split; [exact H' | by apply disk_has_new, Hst; [apply H|] | |].
  - rewrite Hi. cbn. rewrite length_app. cbn. unfold NINODES in Hn. rewrite u32_small; lia.
  - rewrite Hb. rewrite total_blocks_snoc. apply H.
Qed.

(** Appending to the [k]th file. *)
Lemma iappend_rule files s vw k t b l m (Q : unit → mkfs → Prop) (files' := <[k := (t, b ++ l)]> files) :
  built files s vw → Z.of_nat (length files) < NINODES → files !! k = Some (t, b) →
  (∀ i c, l !! i = Some c → m (Z.of_nat i) = c) →
  Z.of_nat (length (b ++ l)) ≤ MAXFILE * BSIZE → data_start mksb + total_blocks files' ≤ FSSIZE →
  (∀ s' vw', built files' s' vw' → Q tt s') →
  runs (iappend h (Z.of_nat k + 1) m (Z.of_nat (length l))) s Q.
Proof using Hio.
  intros H Hn Hk Hm Hmax Hroom HQ. pose proof (lookup_lt_Some _ _ _ Hk) as Hlk.
  pose proof (dh_file (bt_disk H) k t b Hk) as Hs. rewrite length_app, Nat2Z.inj_add in Hmax.
  unfold files' in Hroom. rewrite (total_blocks_insert _ _ _ _ _ _ Hk), length_app, Nat2Z.inj_add in Hroom.
  assert (Hsz : di_size (node vw k) = Z.of_nat (length b)) by (rewrite (sr_attr Hs); done).
  assert (Hu : 0 ≤ Z.of_nat (length b) + Z.of_nat (length l) < 4294967296).
  { unfold MAXFILE, NINDIRECT, NDIRECT, BSIZE in Hmax. change (512 / 4) with 128 in Hmax. lia. }
  apply runs_bind, (rinode_rule _ vw); [apply H | lia |]. intros n. rewrite Hsz, xint_small by lia.
  apply runs_bind, (iappend_loop_rule Hio _ _ _ vw); [exact (bt_image H) | apply Hs | apply (sr_exact Hs) | lia..
    | exact Hmax | cbn; rewrite (bt_blocks H); lia | lia |].
  intros s1 vw1 d1 H1 Hw He Hb Hi Hfr. cbn [fst snd]. rewrite xint_small by done.
  apply (winode_rule _ vw1); [done | lia |]. intros s2 H2 Hb2 Hi2. eapply HQ. split; [exact H2 | | |].
  - eapply append_disk; eauto; [apply H|]. intros x Hx.
    rewrite (im_used (bt_image H)), (im_used H1), !Z.ltb_lt by done. cbn [mk_freeblock set_mk_calls] in Hb.
    pose proof (blocks_of_mono (Z.of_nat (length b)) (Z.of_nat (length b) + Z.of_nat (length l))). lia.
  - rewrite Hi2, Hi. unfold files'. rewrite length_insert. apply H.
  - rewrite Hb2, Hb. cbn [mk_freeblock set_mk_calls]. unfold files'. rewrite (total_blocks_insert _ _ _ _ _ _ Hk), length_app, (bt_blocks H). rewrite Nat2Z.inj_add. lia.
Qed.

Lemma blocks_of_nonneg n : 0 ≤ n → 0 ≤ blocks_of n.
Proof using. clear. intros Hn. unfold blocks_of, BSIZE. repeat bool_case; zmod_lia. Qed.

Lemma total_blocks_mono fs fs1 fs2 :
  Forall2 (λ f f', (length f.2 ≤ length f'.2)%nat) fs fs1 → total_blocks fs ≤ total_blocks (fs1 ++ fs2).
Proof using.
  clear. intros HF. induction HF as [|f f' fs fs1 Hle HF IH]; cbn [app].
  - induction fs2 as [|f fs2 IH]; [done|]. rewrite total_blocks_cons.
    pose proof (blocks_of_nonneg (Z.of_nat (length f.2)) ltac:(lia)). change (total_blocks []) with 0 in *. lia.
  - rewrite !total_blocks_cons.
    pose proof (blocks_of_mono (Z.of_nat (length f.2)) (Z.of_nat (length f'.2)) ltac:(lia)). lia.
Qed.

(** The contents of a file, read by read. *)
Lemma reads_rule files s vw k t b reads (Q : unit → mkfs → Prop)
    (files' := <[k := (t, b ++ concat reads)]> files) :
  built files s vw → Z.of_nat (length files) < NINODES → files !! k = Some (t, b) →
  Z.of_nat (length (b ++ concat reads)) ≤ MAXFILE * BSIZE →
  data_start mksb + total_blocks files' ≤ FSSIZE →
  (∀ s' vw', built files' s' vw' → Q tt s') →
  runs (kiter reads (fun r => iappend h (Z.of_nat k + 1) (put_bytes zeroes 0 r) (Z.of_nat (length r)))) s Q.
Proof using Hio.
  revert files s vw b Q files'. induction reads as [|r reads IH]; intros files s vw b Q files' H Hn Hk Hmax Hroom HQ.
  - apply runs_ret. apply (HQ s vw). unfold files'. cbn [concat]. rewrite app_nil_r.
    by rewrite list_insert_id.
  - cbn [kiter]. cbn [concat] in *. subst files'. rewrite app_assoc in *.
    rewrite length_app, Nat2Z.inj_add in Hmax. apply runs_bind.
    apply (iappend_rule files s vw k t b r); [done.. | | lia | |].
    + intros i c Hi. unfold put_bytes. apply lookup_lt_Some in Hi as Hlt.
      destruct (Z.leb_spec 0 (Z.of_nat i)), (Z.ltb_spec (Z.of_nat i) (0 + Z.of_nat (length r))); try lia.
      cbn [andb]. rewrite Z.sub_0_r, Nat2Z.id. by apply list_lookup_total_correct.
    + rewrite (total_blocks_insert _ _ _ _ _ _ Hk) in Hroom. rewrite (total_blocks_insert _ _ _ _ _ _ Hk).
      pose proof (blocks_of_mono (Z.of_nat (length (b ++ r))) (Z.of_nat (length ((b ++ r) ++ concat reads)))
        ltac:(rewrite (length_app (b ++ r)); lia)). lia.
    + intros s1 vw1 H1. apply lookup_lt_Some in Hk as Hlk.
      apply (IH (<[k := (t, b ++ r)]> files) s1 vw1 (b ++ r) Q); [done | by rewrite length_insert | by rewrite list_lookup_insert_eq | | |].
      * rewrite length_app, Nat2Z.inj_add. lia.
      * by rewrite list_insert_insert_eq.
      * rewrite list_insert_insert_eq. done.
Qed.

Lemma length_entry inum name : length (entry inum name) = 16%nat.
Proof using. apply length_mread. Qed.

Lemma file_entries_cons i name names :
  file_entries i (name :: names) = entry (Z.of_nat i + 2) (strip name) ++ file_entries (S i) names.
Proof using.
  clear. unfold file_entries. cbn [imap concat]. rewrite Nat.add_0_r. do 2 f_equal.
  apply imap_ext. intros j x _.
  change (entry (Z.of_nat (i + S j) + 2) (strip x) = entry (Z.of_nat (S i + j) + 2) (strip x)).
  by rewrite <- Nat.add_succ_comm.
Qed.

Lemma length_file_entries i names : length (file_entries i names) = (16 * length names)%nat.
Proof using.
  clear. revert i. induction names as [|name names IH]; intros i; [done|].
  rewrite file_entries_cons, length_app, length_entry, IH. cbn [length]. lia.
Qed.

(** Adding a directory entry. *)
Lemma entry_rule files s vw b inum name (Q : unit → mkfs → Prop)
    (files' := (T_DIR, b ++ entry inum name) :: files) :
  built ((T_DIR, b) :: files) s vw → Z.of_nat (length files) + 1 < NINODES →
  Z.of_nat (length (b ++ entry inum name)) ≤ MAXFILE * BSIZE →
  data_start mksb + total_blocks files' ≤ FSSIZE →
  (∀ s' vw', built files' s' vw' → Q tt s') →
  runs (iappend h 1 (dirent_bytes inum name) SIZEOF_dirent) s Q.
Proof using Hio.
  intros H Hn Hmax Hroom HQ. change SIZEOF_dirent with (Z.of_nat 16). rewrite <- (length_entry inum name).
  change 1 with (Z.of_nat 0 + 1). apply (iappend_rule ((T_DIR, b) :: files) s vw 0 T_DIR b (entry inum name)); [done | cbn [length]; lia | done | | done..].
  intros i c Hi. unfold entry in Hi. apply lookup_lt_Some in Hi as Hlt. rewrite length_mread in Hlt.
  rewrite mread_lookup in Hi by done. injection Hi as <-. f_equal.
Qed.

(** *** [main] *)

(** One file of the command line. *)
Lemma mkfs_file_rule fs s vw b name c (Q : unit → mkfs → Prop) (i := length fs)
    (files' := ((T_DIR, b ++ entry (Z.of_nat i + 2) (strip name)) :: fs) ++ [(T_FILE, c)]) :
  built ((T_DIR, b) :: fs) s vw → host_file h name c → Z.of_nat i + 2 < NINODES →
  Z.of_nat (length b) + 16 ≤ MAXFILE * BSIZE → Z.of_nat (length c) ≤ MAXFILE * BSIZE →
  data_start mksb + total_blocks files' ≤ FSSIZE →
  (∀ s' vw', built files' s' vw' → Q tt s') →
  runs (mkfs_file h 1 name) s Q.
Proof using Hio.
  intros H [Hslash (reads & Ho & Hc)] Hn Hb Hlc Hroom HQ. unfold mkfs_file, massert.
  rewrite bool_decide_eq_false_2 by done. apply runs_bind, runs_ret. rewrite Ho. fold (strip name).
  apply runs_bind, (ialloc_rule ((T_DIR, b) :: fs) s vw); [done | cbn [length]; fold i; lia | done |].
  intros s1 vw1 H1. cbn [length app] in *. replace (Z.of_nat (S (length fs)) + 1) with (Z.of_nat i + 2) by (unfold i; lia).
  assert (Hle : total_blocks ((T_DIR, b ++ entry (Z.of_nat i + 2) (strip name)) :: fs ++ [(T_FILE, [])]) ≤ total_blocks files').
  { rewrite <- (app_nil_r files'). apply total_blocks_mono. unfold files'. cbn [app].
    constructor; [done|]. apply Forall2_app; [by apply Forall_Forall2_diag, Forall_true | constructor; [cbn; lia | done]]. }
  apply runs_bind, (entry_rule (fs ++ [(T_FILE, [])]) s1 vw1 b); [exact H1 | rewrite length_app; cbn [length]; fold i; lia
    | rewrite length_app, length_entry; lia | lia |].
  intros s2 vw2 H2. replace (Z.of_nat i + 2) with (Z.of_nat (S i) + 1) by lia.
  set (fs2 := _ :: fs ++ _) in H2.
  assert (E : <[S i := (T_FILE, [] ++ concat reads)]> fs2 = files').
  { unfold fs2, files'. change (<[S i := ?x]> (?f :: ?l)) with (f :: <[i := x]> l). cbn [app].
    rewrite Hc. unfold i. by rewrite <- (Nat.add_0_r (length fs)), insert_app_r. }
  apply (reads_rule fs2 s2 vw2 (S i) T_FILE []); [exact H2 | | | | by rewrite E | by rewrite E].
  - unfold fs2. cbn [length]. rewrite length_app. cbn [length]. fold i. lia.
  - unfold fs2. change ((?f :: ?l) !! S i) with (l !! i). unfold i. by rewrite list_lookup_middle.
  - cbn [app]. by rewrite Hc.
Qed.

Lemma mkfs_files_rule names contents fs s vw b (Q : unit → mkfs → Prop)
    (files' := (T_DIR, b ++ file_entries (length fs) names) :: fs ++ (pair T_FILE <$> contents)) :
  built ((T_DIR, b) :: fs) s vw → Forall2 (host_file h) names contents →
  Z.of_nat (length fs + length names) + 1 < NINODES →
  Z.of_nat (length b + 16 * length names) ≤ MAXFILE * BSIZE →
  Forall (λ c, Z.of_nat (length c) ≤ MAXFILE * BSIZE) contents →
  data_start mksb + total_blocks files' ≤ FSSIZE →
  (∀ s' vw', built files' s' vw' → Q tt s') →
  runs (kiter names (mkfs_file h 1)) s Q.
Proof using Hio.
  intros H HF. revert fs s vw b Q files' H.
  induction HF as [|name c names contents Hh HF IH]; intros fs s vw b Q files' H Hn Hb Hc Hroom HQ.
  - apply runs_ret, (HQ s vw). unfold files', file_entries. cbn. by rewrite !app_nil_r.
  - apply Forall_cons in Hc as [Hc0 Hc]. cbn [length] in *.
    set (e := entry (Z.of_nat (length fs) + 2) (strip name)).
    assert (Ef : files' = (T_DIR, (b ++ e) ++ file_entries (length (fs ++ [(T_FILE, c)])) names) ::
        (fs ++ [(T_FILE, c)]) ++ (pair T_FILE <$> contents)).
    { unfold files', e. rewrite file_entries_cons, length_app, fmap_cons. cbn [length].
      by rewrite Nat.add_1_r, <- !app_assoc. }
    clearbody files'. subst files'. apply runs_bind, (mkfs_file_rule fs s vw b name c); [done.. | lia | lia | lia | |].
    + eapply Z.le_trans; [|exact Hroom]. apply Z.add_le_mono_l. rewrite app_comm_cons. apply total_blocks_mono.
      cbn [app]. constructor; [cbn; rewrite !length_app; lia|].
      by apply Forall_Forall2_diag, Forall_true.
    + cbn [app]. fold e. intros s1 vw1 H1. apply (IH (fs ++ [(T_FILE, c)]) s1 vw1 (b ++ e)); [done | | | done..].
      * rewrite length_app. cbn [length]. lia.
      * rewrite length_app. unfold e. rewrite length_entry. lia.
Qed.

Lemma empty_disk img (vw := <[sb_bmapstart mksb := bitmap (data_start mksb)]> img) :
  img 1 = super_bytes mksb → (∀ x, 0 ≤ x < FSSIZE → x ≠ 1 → img x = zeroes) →
  img_ok img FSSIZE mksb (data_start mksb) vw ∧ disk_has vw [].
Proof using.
  clear. intros H1 Hz. pose proof (geo_order mksb_geometry) as Hg.
  change (sb_size mksb) with FSSIZE in Hg. split; split; try done.
  - intros x Hx. unfold vw. by rewrite fn_lookup_insert_ne.
  - intros b Hb. rewrite mksb_used by done. unfold vw.
    rewrite fn_lookup_insert, bitmap_test, negb_involutive by lia. done.
  - intros b a Hb Ha. by rewrite Hz by lia.
  - intros i j ki kj Hi. by apply Nat.nlt_0_r in Hi.
  - intros k _ Hk. pose proof (inode_block k Hk) as Hr. unfold node, disk_inode.
    unfold vw. rewrite fn_lookup_insert_ne by lia. rewrite Hz by lia. done.
  - unfold vw. rewrite fn_lookup_insert_ne, H1 by done. vm_compute. done.
  - unfold vw. rewrite fn_lookup_insert_ne by done. by apply Hz.
Qed.

(** The superblock and the empty disk. *)
Lemma mkfs_super_rule s (Q : unit → mkfs → Prop) :
  mk_nsect s = 0 → mk_freeinode s = 1 → (∀ s' vw', built [] s' vw' → Q tt s') → runs (mkfs_super h) s Q.
Proof using Hio.
  intros Hns Hfi HQ. apply runs_bind, runs_mod, runs_bind, runs_mod, runs_bind.
  set (s0 := set_mk_freeblock _ _).
  apply (runs_kiter_seq _ (λ k s', mk_nsect s' = Z.of_nat k ∧ mk_sb s' = mksb ∧ mk_freeinode s' = 1 ∧
    mk_freeblock s' = data_start mksb ∧ ∀ x, 0 ≤ x < Z.of_nat k → mk_img s' x = zeroes)).
  - intros k s1 Hk (E1 & E2 & E3 & E4 & E5). apply (wsect_rule Hio). intros n. cbn [mk_nsect mk_sb mk_freeinode mk_freeblock mk_img].
    split_and!; [lia | done.. |]. intros x Hx. destruct (decide (x = Z.of_nat k)) as [->|Hne].
    + by rewrite fn_lookup_insert.
    + rewrite fn_lookup_insert_ne by done. apply E5. lia.
  - split_and!; [done.. | intros x Hx; lia].
  - intros s1 (E1 & E2 & E3 & E4 & E5). apply runs_bind, runs_get, (wsect_rule Hio). intros n.
    change (Z.of_nat (Z.to_nat FSSIZE)) with FSSIZE in *. rewrite E2.
    set (img := <[1 := super_bytes mksb]> (mk_img s1)).
    destruct (empty_disk img) as [Hi Hd].
    { apply fn_lookup_insert. }
    { intros x Hx Hne. unfold img. rewrite fn_lookup_insert_ne by done. auto. }
    eapply HQ. split; [|exact Hd | cbn; lia | done].
    unfold image. cbn [mk_img mk_nsect mk_sb mk_freeblock]. fold img. rewrite E1, E4. exact Hi.
Qed.

Lemma stored_no_hole vw d t b : stored vw d t b → no_hole vw d 0 (Z.of_nat (length b)).
Proof using.
  clear. intros H x Hx. pose proof (sr_max H) as Hmax. assert (0 ≤ x / BSIZE < MAXFILE) as Hb.
  { split; [apply Z.div_pos; [lia | done] | apply Z.div_lt_upper_bound; [done | lia]]. }
  rewrite (proj1 (sr_exact H) _ Hb). unfold BSIZE. zmod_lia.
Qed.

(** The disk that is left when the size of the root directory and the bitmap are written. *)
Section Finish.
Context {vw f : Z → mem} {names contents : list (list Z)}.
Let files := initial_files names contents.
Let n := (Z.of_nat (length (root_bytes names)) / BSIZE + 1) * BSIZE.
Let d := set_di_size n (node vw 0).
Hypothesis H : disk_has vw files.
Hypothesis Hn : Z.of_nat (length contents) + 1 < NINODES.
Hypothesis Hvw : ∀ b, 0 ≤ b < FSSIZE → used mksb vw b = (b <? data_start mksb + total_blocks files).
Hypothesis Hf : ∀ b, 0 ≤ b < FSSIZE → used mksb f b = (b <? data_start mksb + total_blocks files).
Hypothesis Hfr : ∀ x, x ≠ sb_bmapstart mksb → f x = put_node vw 0 d x.

Lemma finish_wf : dinode_wf d.
Proof using H.
  pose proof (dh_file H 0%nat T_DIR _ eq_refl) as Hs. pose proof (sr_max Hs) as Hmax.
  destruct (stored_wf _ _ _ _ Hs). split; try done. unfold d, n, uint. cbn [set_di_size di_size].
  unfold MAXFILE, NINDIRECT, NDIRECT, BSIZE in *. change (512 / 4) with 128 in Hmax. zmod_lia.
Qed.

Lemma finish_node k : (k ≤ length contents)%nat ∨ Z.of_nat k + 1 < NINODES →
  node f k = if decide (k = 0%nat) then d else node vw k.
Proof using H Hn Hfr.
  intros Hk. assert (Hk' : Z.of_nat k + 1 < NINODES) by lia.
  assert (E : node f k = node (put_node vw 0 d) k).
  { unfold node, disk_inode. pose proof (inode_block k Hk'). by rewrite Hfr by lia. }
  rewrite E. case_decide as Ek; [subst k; apply put_node_same, finish_wf|].
  apply put_node_other; [done | apply finish_wf | done | done].
Qed.

Lemma finish_same e i : file_ok mksb vw e → (i < NSLOT)%nat → slot vw e i ≠ 0 → f (slot vw e i) = vw (slot vw e i).
Proof using Hfr.
  clear -Hfr. intros He Hi Hs. pose proof (slot_ge _ _ _ He Hi Hs). pose proof (geo_order mksb_geometry).
  rewrite Hfr by lia. apply put_node_block; [done | lia].
Qed.

Lemma finish_stored k t b : files !! k = Some (t, b) → stored f (node vw k) t b ∧
  ∀ i, slot f (node vw k) i = slot vw (node vw k) i.
Proof using H Hvw Hf Hfr.
  intros Hk. pose proof (dh_file H k t b Hk) as Hs. split.
  - apply (frame_stored (sr_ok Hs)); [intros i; by apply finish_same, Hs | | done].
    intros x Hx. by rewrite Hvw, Hf.
  - intros i. apply frame_slot. intros j. by apply finish_same, Hs.
Qed.

Lemma finish_slot k i : (k ≤ length contents)%nat → slot f (node f k) i = slot vw (node vw k) i.
Proof using All.
  intros Hk. rewrite finish_node by auto.
  destruct (lookup_lt_is_Some_2 files k) as [[t b] Hkb].
  { unfold files, initial_files. cbn [length]. rewrite length_fmap. lia. }
  destruct (finish_stored k t b Hkb) as [_ <-]. case_decide; [by subst | done].
Qed.

Lemma finish_disk : initial_disk f names contents.
Proof using All.
  split.
  - rewrite Hfr, put_node_block by (done || by left). apply H.
  - rewrite Hfr, put_node_block by (done || by left). apply H.
  - exact Hf.
  - destruct (finish_stored 0 T_DIR _ eq_refl) as [Hs Hsl]. exists (di_addrs (node vw 0)), d.
    split; [|split; [|split; [|split]]].
    + unfold d. by rewrite (sr_attr Hs) at 1.
    + change (node f 0 = d). by rewrite finish_node by auto with lia.
    + destruct (sr_ok Hs). split; done.
    + exact (stored_no_hole _ _ _ _ Hs).
    + exact (sr_byte Hs).
  - intros k c Hk. assert (Hkf : files !! S k = Some (T_FILE, c)).
    { change (files !! S k) with ((pair T_FILE <$> contents) !! k). by rewrite list_lookup_fmap, Hk. }
    destruct (finish_stored (S k) T_FILE c Hkf) as [Hs Hsl]. exists (di_addrs (node vw (S k))), (node vw (S k)).
    split; [|split; [|split; [|split]]].
    + exact (sr_attr Hs).
    + replace (Z.of_nat k + 2) with (Z.of_nat (S k) + 1) by lia. change (node f (S k) = node vw (S k)).
      apply lookup_lt_Some in Hk. by rewrite finish_node by (left; lia).
    + apply Hs.
    + exact (stored_no_hole _ _ _ _ Hs).
    + intros y x Hy. apply lookup_lt_Some in Hy as Hly. pose proof (sr_max Hs).
      rewrite (sr_byte Hs), Nat2Z.id, Hy by lia. done.
  - intros i j ki kj Hi Hj Hki Hkj. rewrite !finish_slot by done.
    apply (dh_apart H); [..|done|done]; unfold files, initial_files; cbn [length]; rewrite length_fmap; lia.
  - intros inum Hi. replace inum with (Z.of_nat (Z.to_nat (inum - 1)) + 1) by lia.
    change (di_type (node f (Z.to_nat (inum - 1))) = 0). rewrite finish_node by lia.
    rewrite decide_False by lia. apply (dh_free H); [|lia].
    unfold files, initial_files. cbn [length]. rewrite length_fmap. lia.
Qed.
End Finish.

Lemma mkfs_root_rule s vw (Q : Z → mkfs → Prop) (b := entry ROOTINO [46] ++ entry ROOTINO [46; 46]) :
  built [] s vw → (∀ s' vw', built [(T_DIR, b)] s' vw' → Q 1 s') → runs (mkfs_root h) s Q.
Proof using Hio.
  intros H HQ. apply runs_bind, (ialloc_rule [] s vw); [done.. |]. intros s1 vw1 H1.
  change (Z.of_nat (length ([] : list (Z * list Z))) + 1) with 1. unfold massert. apply runs_bind, runs_ret.
  apply runs_bind, (entry_rule [] s1 vw1 []); [exact H1 | done | done | done |]. intros s2 vw2 H2.
  apply runs_bind, (entry_rule [] s2 vw2 (entry ROOTINO [46])); [exact H2 | done | done | done |].
  intros s3 vw3 H3. apply runs_ret. by apply (HQ s3 vw3).
Qed.

Lemma mkfs_fix_root_rule files b s vw (Q : unit → mkfs → Prop)
    (d := set_di_size ((Z.of_nat (length b) / BSIZE + 1) * BSIZE) (node vw 0)) :
  built ((T_DIR, b) :: files) s vw →
  (∀ s', image s' (put_node vw 0 d) → mk_freeblock s' = mk_freeblock s → Q tt s') →
  runs (mkfs_fix_root h 1) s Q.
Proof using Hio.
  intros H HQ. pose proof (dh_file (bt_disk H) 0%nat T_DIR b eq_refl) as Hs. pose proof (sr_max Hs) as Hmax.
  unfold MAXFILE, NINDIRECT, NDIRECT, BSIZE in Hmax. change (512 / 4) with 128 in Hmax.
  apply runs_bind. change 1 with (Z.of_nat 0 + 1). apply (rinode_rule s vw); [apply H | done |]. intros n.
  assert (Hsz : di_size (node vw 0) = Z.of_nat (length b)) by by rewrite (sr_attr Hs).
  cbv zeta. rewrite Hsz, (xint_small (Z.of_nat (length b))) by lia.
  rewrite u32_small, xint_small by (unfold BSIZE; zmod_lia).
  apply (winode_rule _ vw); [apply H | done |]. intros s' H' Hb _. by apply HQ.
Qed.

Lemma main_rule prog fsimg names contents (files := initial_files names contents) :
  h_creat h = true → Forall2 (host_file h) names contents → Z.of_nat (length names) + 1 < NINODES →
  Forall (λ c, Z.of_nat (length c) ≤ MAXFILE * BSIZE) contents →
  data_start mksb + total_blocks files ≤ FSSIZE →
  runs (main h (prog :: fsimg :: names)) mkfs0 (λ _ s, initial_disk (mk_img s) names contents).
Proof using Hio.
  intros Hcr HF Hn Hc Hroom. apply Forall2_length in HF as Hlen. unfold main. rewrite Hcr. cbn [negb].
  apply runs_bind, mkfs_super_rule; [done | done |]. intros s0 vw0 H0.
  apply runs_bind, (mkfs_root_rule s0 vw0 _ H0). intros s1 vw1 H1.
  apply runs_bind, (mkfs_files_rule names contents [] s1 vw1 _ _ H1 HF); [done | | done | |].
  { unfold entry. rewrite length_app, !length_mread. unfold NINODES in Hn.
    unfold MAXFILE, NINDIRECT, NDIRECT, BSIZE. change (512 / 4) with 128. lia. }
  { rewrite <- app_assoc. exact Hroom. }
  rewrite <- app_assoc. change (_ :: [] ++ _) with files. intros s2 vw2 H2.
  apply runs_bind, (mkfs_fix_root_rule _ _ s2 vw2 _ H2). intros s3 H3 Hb3.
  apply runs_bind, runs_get. unfold balloc, massert. rewrite Hb3, (bt_blocks H2).
  rewrite (proj2 (Z.ltb_lt _ _)) by (unfold FSSIZE, BSIZE in *; lia).
  apply runs_bind, runs_ret, runs_bind, runs_get, (wsect_rule Hio). intros n. rewrite (im_sb H3).
  cbn [mk_img]. apply (@finish_disk vw2); [apply H2 | lia | | |].
  - intros b Hb. rewrite (im_used (bt_image H2)), (bt_blocks H2) by done. done.
  - intros b Hb. rewrite mksb_used by done. by rewrite fn_lookup_insert, bitmap_test, negb_involutive by lia.
  - intros x Hx. rewrite fn_lookup_insert_ne by done. by rewrite <- (im_view H3).
Qed.
End Files.

Lemma demo_host_files : Forall2 (host_file demo_host) demo_names demo_contents.
Proof.
  repeat constructor; try (apply (bool_decide_unpack _); vm_compute; exact I).
  - exists [[1; 2; 3]; [4]]. done.
  - exists [replicate 512 7; replicate 88 9]. done.
Qed.

Lemma demo_lengths : Forall (λ c, Z.of_nat (length c) ≤ MAXFILE * BSIZE) demo_contents.
Proof. repeat constructor; vm_compute; congruence. Qed.

(** ** Theorems *)

(** [mkfs] builds a disk for the kernel.  If the host's calls succeed and the files fit (each
    in the largest file, all in the disk and in the inode table), it returns, and the image
    has a superblock that describes the layout, an empty log, a bitmap that marks exactly
    the blocks in use, the files under inode numbers 2, 3, ... with their contents, and a
    root directory with [.], [..] and one entry per file, named without a leading
    underscore; no block belongs to two files and the other inodes are free. *)
Theorem mkfs_correct h prog fsimg names contents :
  (∀ n, h_io h n = true) → h_creat h = true → Forall2 (host_file h) names contents →
  Z.of_nat (length names) + 1 < NINODES →
  Forall (λ c, Z.of_nat (length c) ≤ MAXFILE * BSIZE) contents →
  data_start mksb + total_blocks (initial_files names contents) ≤ FSSIZE →
  ∃ s, main h (prog :: fsimg :: names) mkfs0 = Ok (tt, s) ∧ initial_disk (mk_img s) names contents.
Proof.
  intros Hio Hcr HF Hn Hc Hroom.
  destruct (main_rule Hio prog fsimg names contents Hcr HF Hn Hc Hroom) as ([] & s & E & H).
  by exists s.
Qed.

Lemma mkfs_correct_witness :
  ∃ s, main demo_host ([109] :: [102] :: demo_names) mkfs0 = Ok (tt, s) ∧
    initial_disk (mk_img s) demo_names demo_contents.
Proof.
  apply (mkfs_correct demo_host [109] [102] demo_names demo_contents (λ _, eq_refl) eq_refl
    demo_host_files); [reflexivity | exact demo_lengths | vm_compute; congruence].
Defined.
