(* ===== verification/MkfsBoot.v ===== *)
(** * Booting from an image

    The kernel starts on the disk that src/mkfs.c built: [binit], then [iinit] and [initlog]
    as [forkret] of src/proc.c calls them.  A file of the command line of [mkfs] is then read
    through the inode cache with its contents. *)

From S2P Require Import Prelude Param KString Spinlock Bio Log LogCrash LogOps Fs FsView FsFile FsRead FsInode FsWrite Mkfs.
Local Open Scope Z_scope.

(** ** Definitions *)

Definition no_inode : inode := mkInode 0 0 0 0 (mkDinode 0 0 0 0 0 0 0 0 (replicate (S NDIRECT) 0)).

(** The machine before the file system is up. *)
Definition boot_state (img : Z → mem) (m : mem) : fsst :=
  mkFsst (mkLogst (mkBio (mkCpu 0 0 false true) bcache0 (mkMemdisk FSSIZE img []) []) log0 0)
    (mkSuperblock 0 0 0 0 0 0 0) (initlock "icache") (replicate NINODE no_inode) m 0 [].

(** The calls that bring the file system up. *)
Definition fs_start : K fsst unit :=
  oncache binit;; iinit ROOTDEV;; onlog (initlog ROOTDEV).

(** Reading [n] bytes of the inode [inum] from its beginning. *)
Definition read_inode (inum dst n : Z) : K fsst Z :=
  ip ← iget ROOTDEV inum;
  ilock (Some ip);;
  readi [] ip dst 0 n.

(** ** Lemmas *)

Section Boot.
Context {img : Z → mem} {names contents : list (list Z)}.
Hypothesis H : initial_disk img names contents.

Lemma boot_header : header_ok (sb_logstart mksb) (sb_nlog mksb) FSSIZE (img (sb_logstart mksb)) ∧
  head_blocks (img (sb_logstart mksb)) = [].
Proof using H.
  rewrite (id_log H). split; [|done]. apply header_ok_nil; [exact (gm_layout _ mksb_geometry) | done..].
Qed.

Lemma fs_start_rule m (Q : unit → fsst → Prop) :
  (∀ s vw wr, fs_ok mksb vw vw wr ∅ [] 0 s → ic_inode s = replicate NINODE no_inode → fs_mem s = m →
     (∀ b, datab (sb_logstart mksb) (sb_nlog mksb) FSSIZE b → vw b = img b) → Q tt s) →
  runs fs_start (boot_state img m) Q.
Proof using H.
  intros HQ. apply runs_bind, oncache_rule, binit_rule; [split; cbn; lia | done |].
  intros c Hc. apply runs_bind, runs_bind, runs_mod, runs_bind, oncache_rule.
  apply (readsb_rule img img FSSIZE [] ∅ ∅); [by eexists | done | right; vm_compute; lia | done |].
  intros c1 Hc1. rewrite (id_super H). apply runs_mod, onlog_rule.
  destruct boot_header as [Hh Eh].
  apply (initlog_rule (sb_logstart mksb) (sb_nlog mksb) FSSIZE img []); [exact Hc1 | done |
    exact (gm_layout _ mksb_geometry) | done | by rewrite (id_super H) | by rewrite (id_super H) | done |].
  intros l d Hl Hd. eapply HQ; [split; [exact mksb_geometry | exact Hl | done | | done] | done | done |].
  - rewrite Hd by (split; cbn; unfold nlog, LOGSIZE, MAXOPBLOCKS, FSSIZE; lia).
    rewrite logical_unlisted by (rewrite Eh; apply not_elem_of_nil). apply H.
  - intros b Hb. rewrite Hd by done. apply logical_unlisted. rewrite Eh. apply not_elem_of_nil.
Qed.

(** A block outside the log, so a block of a file, is as [mkfs] left it. *)
Lemma boot_block vw b :
  (∀ b, datab (sb_logstart mksb) (sb_nlog mksb) FSSIZE b → vw b = img b) →
  sb_inodestart mksb ≤ b < FSSIZE → vw b = img b.
Proof using. clear. intros Hvw Hb. apply Hvw. by apply (after_log mksb_geometry). Qed.

Lemma read_inode_rule s vw wr inum addrs t n dst len (d := mkDinode t 0 0 1 0 0 493 len addrs) (Q : Z → fsst → Prop) :
  fs_ok mksb vw vw wr ∅ [] 0 s → ic_inode s = replicate NINODE no_inode →
  (∀ b, datab (sb_logstart mksb) (sb_nlog mksb) FSSIZE b → vw b = img b) →
  0 ≤ inum < NINODES → disk_inode mksb img inum = d → t = T_DIR ∨ t = T_FILE →
  file_ok mksb img d → no_hole img d 0 len → 0 ≤ len ≤ MAXFILE * BSIZE →
  0 ≤ n → n < 4294967296 → 0 ≤ dst → dst + n < 4294967296 →
  (∀ s', (∀ j, 0 ≤ j < Z.min n len → fs_mem s' (dst + j) = fbyte img d j) → Q (Z.min n len) s') →
  runs (read_inode inum dst n) s Q.
Proof using.
  clear. intros H Hic Hvw Hi Hd Ht Hf Hh Hlen Hn Hn2 Hdst Hdn HQ. pose proof (geo_order mksb_geometry) as Hg.
  change (sb_size mksb) with FSSIZE in Hg.
  assert (Hsame : ∀ k, (k < NSLOT)%nat → slot img d k ≠ 0 → vw (slot img d k) = img (slot img d k)).
  { intros k Hk Hs. apply (boot_block _ _ Hvw). pose proof (slot_ge _ _ _ Hf Hk Hs). lia. }
  assert (Hused : ∀ x, 0 ≤ x < FSSIZE → used mksb img x = true → used mksb vw x = true).
  { intros x Hx. by rewrite !mksb_used, (boot_block _ _ Hvw) by lia. }
  assert (Hdv : disk_inode mksb vw inum = d).
  { rewrite <- Hd. unfold disk_inode. pose proof (IBLOCK_range mksb_geometry inum Hi).
    by rewrite (boot_block _ _ Hvw) by lia. }
  apply runs_bind, (iget_rule _ _ _ _ _ _ _ _ _ _ _ H).
  { exists 0%nat, no_inode. rewrite Hic. split; [done | by left]. }
  intros ip x x' s1 Hx Hcase H1 Hic1 _. rewrite Hic in Hx, Hcase, Hic1.
  apply lookup_replicate in Hx as [-> Hip]. destruct Hcase as [[Hr _]|(_ & _ & ->)]; [done|].
  assert (Hl1 : ic_inode s1 !! ip = Some (mkInode ROOTDEV inum 1 0 (i_d no_inode))).
  { rewrite Hic1. apply list_lookup_insert_eq. by rewrite length_replicate. }
  destruct (ilock_correct mksb vw vw wr [] 0 s1 ip _ H1 Hl1) as (s2 & E2 & H2 & Hic2); [done.. | | |].
  { unfold buf_room. vm_compute. lia. }
  { change (di_type (disk_inode mksb vw inum) ≠ 0). rewrite Hdv. cbn. destruct Ht as [-> | ->]; done. }
  apply runs_bind. exists tt, s2. split; [exact E2|]. cbn [i_inum i_ref i_flags iflag] in Hic2.
  set (y := mkInode _ _ _ _ _) in Hic2.
  assert (Hy : i_d y = d) by exact Hdv.
  assert (Hl2 : ic_inode s2 !! ip = Some y).
  { rewrite Hic2. apply list_lookup_insert_eq. by eapply lookup_lt_Some. }
  destruct (readi_reads [] mksb vw vw wr [] 0 s2 ip y dst 0 n H2 Hl2) as (s3 & E3 & _ & _ & Hm);
    rewrite ?Hy in *; try done; try lia.
  { cbn. destruct Ht as [-> | ->]; done. }
  { by apply (frame_file_ok Hf Hsame Hused). }
  { cbn. lia. }
  { intros z Hz. rewrite (frame_slot Hsame). by apply Hh. }
  { unfold buf_room. vm_compute. lia. }
  cbn [di_size d] in E3, Hm. rewrite Z.gtb_ltb in E3, Hm.
  destruct (Z.ltb_spec len 0); [lia|]. rewrite Z.sub_0_r in E3, Hm.
  eexists _, s3. split; [exact E3|]. apply HQ. intros j Hj. rewrite Hm.
  destruct (Z.leb_spec dst (dst + j)), (Z.ltb_spec (dst + j) (dst + Z.min n len)); try lia.
  cbn [andb]. replace (0 + (dst + j - dst)) with j by lia. apply (frame_fbyte Hsame). lia.
Qed.
End Boot.

(** ** Theorems *)

(** C17: What [mkfs] writes, the kernel reads.  The kernel boots from the image of [mkfs], and a
    read of the inode of a file of its command line delivers the first [n] bytes of the file
    of the build host. *)
Theorem mkfs_boots h prog fsimg names contents k c m dst n :
  (∀ i, h_io h i = true) → h_creat h = true → Forall2 (host_file h) names contents →
  Z.of_nat (length names) + 1 < NINODES →
  Forall (λ c, Z.of_nat (length c) ≤ MAXFILE * BSIZE) contents →
  data_start mksb + total_blocks (initial_files names contents) ≤ FSSIZE →
  contents !! k = Some c → 0 ≤ n → 0 ≤ dst → dst + n < 4294967296 →
  ∃ s s', main h (prog :: fsimg :: names) mkfs0 = Ok (tt, s) ∧
    (fs_start;; read_inode (Z.of_nat k + 2) dst n) (boot_state (mk_img s) m) =
      Ok (Z.min n (Z.of_nat (length c)), s') ∧
    ∀ j x, Z.of_nat j < n → c !! j = Some x → fs_mem s' (dst + Z.of_nat j) = x.
Proof.
  intros Hio Hcr HF Hn Hc Hroom Hk Hn0 Hd0 Hdn.
  destruct (main_rule Hio prog fsimg names contents Hcr HF Hn Hc Hroom) as ([] & s & E & H).
  destruct (id_file H k c Hk) as (addrs & d & -> & Hi & Hf & Hh & Hb).
  apply lookup_lt_Some in Hk as Hlk. apply Forall2_length in HF as Hlen.
  pose proof (proj1 (Forall_lookup _ _) Hc k c Hk) as Hmax. cbn in Hmax.
  assert (R : runs (fs_start;; read_inode (Z.of_nat k + 2) dst n) (boot_state (mk_img s) m) (λ r s',
    r = Z.min n (Z.of_nat (length c)) ∧
    ∀ j x, Z.of_nat j < n → c !! j = Some x → fs_mem s' (dst + Z.of_nat j) = x)).
  { apply runs_bind, (fs_start_rule H). intros s1 vw wr H1 Hic _ Hvw.
    eapply read_inode_rule; [exact H1 | done | exact Hvw | lia | exact Hi | by right | done | done | lia..|].
    intros s' Hs'. split; [done|]. intros j x Hj Hx. apply lookup_lt_Some in Hx as Hlx.
    rewrite Hs' by lia. by apply Hb. }
  destruct R as (r & s' & E' & -> & Hm). exists s, s'.
  split; [exact E|]. split; [exact E' | exact Hm].
Qed.

Lemma mkfs_boots_witness :
  ∃ s s', main demo_host ([109] :: [102] :: demo_names) mkfs0 = Ok (tt, s) ∧
    (fs_start;; read_inode (Z.of_nat 1 + 2) 4096 1000) (boot_state (mk_img s) (λ _, 0)) = Ok (600, s') ∧
    fs_mem s' (4096 + Z.of_nat 599) = 9.
Proof.
  destruct (mkfs_boots demo_host [109] [102] demo_names demo_contents 1 (replicate 512 7 ++ replicate 88 9)
    (λ _, 0) 4096 1000 (λ _, eq_refl) eq_refl demo_host_files ltac:(reflexivity) demo_lengths
    ltac:(vm_compute; congruence) eq_refl ltac:(lia) ltac:(lia) ltac:(lia)) as (s & s' & E & E' & Hm).
  exists s, s'. split; [exact E|]. split; [exact E'|]. apply Hm; [lia | reflexivity].
Defined.
