(* ===== verification/Boot.v ===== *)
(** * The boot loader

    Models src/bootmain.c: it reads the kernel, an ELF file that starts at sector 1 of the
    disk, into memory, segment by segment, and returns the address it jumps to.  The disk is
    that of the class [Ata] the IDE driver uses.  Loops take fuel: [ata_delay] rounds are
    enough to wait for the disk.

    A segment is read by whole sectors, so bytes before and after it are written as well;
    the theorem says that every segment is in place nevertheless if they are loaded in
    increasing order, as the comment of [readseg] promises, and away from the page the
    headers are read into. *)

From S2P Require Import Prelude Param KString Spinlock Bio Ide Kalloc Fs.
Local Open Scope Z_scope.

(** ** Definitions *)

Definition SECTSIZE : Z := 512.
(** Where the headers are read to. *)
Definition scratch : Z := 65536.
Definition BOOT_ELF_MAGIC : Z := 1179403647.

(** Memory and the disk. *)
Record boot (D : Type) := mkBoot { bt_mem : mem; bt_dev : D }.
Arguments mkBoot {D}. Arguments bt_mem {D}. Arguments bt_dev {D}.

Section Boot.
Context {D : Type} `{AtaOps D}.

Definition boot_in (p : Z) : K (boot D) Z := fun s =>
  let '(v, d) := inb p (bt_dev s) in Ok (v, mkBoot (bt_mem s) d).
Definition boot_out (p v : Z) : K (boot D) unit := kmod (fun s => mkBoot (bt_mem s) (outb p (u8 v) (bt_dev s))).

Fixpoint waitdisk (fuel : nat) : K (boot D) unit :=
  match fuel with
  | O => kout Diverge
  | S fuel' =>
      r ← boot_in 503;
      if negb (Z.land r 192 =? 64) then waitdisk fuel' else mret tt
  end.

Definition readsect (fuel : nat) (dst offset : Z) : K (boot D) unit :=
  waitdisk fuel;;
  boot_out 498 1;;
  boot_out 499 offset;;
  boot_out 500 (Z.shiftr offset 8);;
  boot_out 501 (Z.shiftr offset 16);;
  boot_out 502 (Z.lor (Z.shiftr offset 24) 224);;
  boot_out 503 32;;
  waitdisk fuel;;
  kmod (fun s =>
    let '(w, d) := insl 496 (SECTSIZE / 4) (bt_dev s) in
    mkBoot (fun x => if (dst <=? x) && (x <? dst + SECTSIZE) then w (x - dst) else bt_mem s x) d).

(** [for(; pa < epa; pa += SECTSIZE, offset++)], with room for [n] rounds. *)
Fixpoint readseg_loop (fuel n : nat) (pa epa offset : Z) : K (boot D) unit :=
  if pa <? epa then
    match n with
    | O => kout Diverge
    | S n' =>
        readsect fuel pa offset;;
        readseg_loop fuel n' (u32 (pa + SECTSIZE)) epa (u32 (offset + 1))
    end
  else mret tt.

Definition readseg (fuel n : nat) (pa count offset : Z) : K (boot D) unit :=
  let epa := u32 (pa + count) in
  let pa := u32 (pa - offset mod SECTSIZE) in
  let offset := u32 (offset / SECTSIZE + 1) in
  readseg_loop fuel n pa epa offset.

(** The segment of a program header: its bytes from the file, zeros up to its size. *)
Definition load_segment (fuel n : nat) (ph : Z) : K (boot D) unit :=
  s ← kget;
  let pa := load32 (bt_mem s) (ph + 12) in
  readseg fuel n pa (load32 (bt_mem s) (ph + 16)) (load32 (bt_mem s) (ph + 4));;
  s ← kget;
  let filesz := load32 (bt_mem s) (ph + 16) in
  let memsz := load32 (bt_mem s) (ph + 20) in
  kwhen (memsz >? filesz)
    (kmod (fun s => mkBoot (stosb (bt_mem s) (u32 (pa + filesz)) 0 (Z.to_nat (memsz - filesz))) (bt_dev s))).

(** [for(; ph < eph; ph++)], with room for [k] rounds. *)
Fixpoint load_kernel (fuel n k : nat) (ph eph : Z) : K (boot D) unit :=
  if ph <? eph then
    match k with
    | O => kout Diverge
    | S k' => load_segment fuel n ph;; load_kernel fuel n k' (u32 (ph + 32)) eph
    end
  else mret tt.

(** The address of the entry point; [None] if the file is not an ELF file. *)
Definition bootmain (fuel n k : nat) : K (boot D) (option Z) :=
  readseg fuel n scratch 4096 0;;
  s ← kget;
  if negb (load32 (bt_mem s) scratch =? BOOT_ELF_MAGIC) then mret None
  else
    let ph := u32 (scratch + load32 (bt_mem s) (scratch + 28)) in
    let eph := u32 (ph + 32 * load16 (bt_mem s) (scratch + 44)) in
    load_kernel fuel n k ph eph;;
    s ← kget;
    mret (Some (load32 (bt_mem s) (scratch + 24))).
End Boot.

(** *** What the loader promises *)

(** The bytes of the kernel file, which starts at sector 1 of drive 0. *)
Definition kernel_file {D : Type} `{Ata D} (d : D) (i : Z) : Z := ata_byte d 0 (i / SECTSIZE + 1) (i mod SECTSIZE).

Record seg := mkSeg { g_off : Z; g_pa : Z; g_filesz : Z; g_memsz : Z }.

(** The headers of the file: in the first page, with the segments. *)
Record elf_file (file : mem) (entry : Z) (segs : list seg) : Prop := {
  ef_magic : load32 file 0 = BOOT_ELF_MAGIC;
  ef_entry : load32 file 24 = entry;
  ef_phnum : load16 file 44 = Z.of_nat (length segs);
  ef_phoff : 0 ≤ load32 file 28 ∧ load32 file 28 + 32 * Z.of_nat (length segs) ≤ 4096;
  ef_segs i g : segs !! i = Some g → let ph := load32 file 28 + 32 * Z.of_nat i in
    load32 file (ph + 4) = g_off g ∧ load32 file (ph + 12) = g_pa g ∧
    load32 file (ph + 16) = g_filesz g ∧ load32 file (ph + 20) = g_memsz g
}.

(** The first address that is written for a segment, and the end of the segment. *)
Definition seg_start (g : seg) : Z := g_pa g - g_off g mod SECTSIZE.
Definition seg_end (g : seg) : Z := g_pa g + Z.max (g_filesz g) (g_memsz g).

(** Above the headers and within the address space. *)
Record seg_ok (g : seg) : Prop := {
  sg_off : 0 ≤ g_off g ∧ g_off g + g_filesz g < 2147483648;
  sg_size : 0 ≤ g_filesz g ∧ 0 ≤ g_memsz g;
  sg_low : scratch + 4096 ≤ seg_start g;
  sg_high : seg_end g + SECTSIZE < 4294967296
}.

(** Each segment starts, rounded down, after the end of the ones before. *)
Fixpoint increasing (segs : list seg) : Prop :=
  match segs with
  | [] => True
  | g :: segs' => Forall (λ h, seg_end g ≤ seg_start h) segs' ∧ increasing segs'
  end.

(** A segment is in place. *)
Definition seg_loaded (file m : mem) (g : seg) : Prop :=
  ∀ x, g_pa g ≤ x < seg_end g →
    m x = if x <? g_pa g + g_filesz g then file (g_off g + (x - g_pa g)) else 0.

(** ** Lemmas *)

Section Rules.
Context {D : Type} `{Ata D}.
Implicit Types (s : boot D) (d : D).

Lemma waitdisk_rule fuel s (Q : unit → boot D → Prop) :
  (ata_delay ≤ fuel)%nat →
  (∀ d, ata_reg d = ata_reg (bt_dev s) → ata_byte d = ata_byte (bt_dev s) →
     ata_cmd d = ata_cmd (bt_dev s) → Q tt (mkBoot (bt_mem s) d)) →
  runs (waitdisk fuel) s Q.
Proof.
  intros Hf. destruct (ata_ready (bt_dev s)) as (k & Hk & Hr). assert (Hkf : (k < fuel)%nat) by lia. clear Hf Hk.
  revert k s Hkf Hr. induction fuel as [|fuel IH]; intros k s Hk Hr HQ; [lia|]. cbn [waitdisk].
  pose proof (ata_status (bt_dev s)) as (E1 & E2 & E3).
  apply runs_bind. unfold boot_in. destruct (inb 503 (bt_dev s)) as [r d] eqn:Ei. cbn [fst snd] in *.
  eapply runs_ok; [by rewrite Ei|]. destruct (Z.eqb_spec (Z.land r 192) 64) as [|Hn]; cbn [negb].
  - apply runs_ret. by apply HQ.
  - destruct k as [|k]; [cbn in Hr; by rewrite Ei in Hr|]. rewrite Nat.iter_succ_r, Ei in Hr.
    apply (IH k); [lia | exact Hr |]. cbn. intros d' H1 H2 H3. apply HQ; congruence.
Qed.

(** The registers give back the sector. *)
Lemma boot_regs d off :
  0 ≤ off < 268435456 →
  ata_reg d 499 = u8 off mod 256 → ata_reg d 500 = u8 (Z.shiftr off 8) mod 256 →
  ata_reg d 501 = u8 (Z.shiftr off 16) mod 256 → ata_reg d 502 = u8 (Z.lor (Z.shiftr off 24) 224) mod 256 →
  ata_drive d = 0 ∧ ata_lba d = off.
Proof.
  intros Ho E1 E2 E3 E4. unfold ata_drive, ata_lba. rewrite E1, E2, E3, E4. unfold u8.
  rewrite !Z.shiftr_div_pow2 by lia. change (2 ^ 8) with 256. change (2 ^ 16) with 65536. change (2 ^ 24) with 16777216.
  assert (Hb : 0 ≤ off / 16777216 < 16) by zmod_lia.
  assert (Hl : Z.lor (off / 16777216) 224 = off / 16777216 + 224).
  { revert Hb. generalize (off / 16777216). intros b Hb.
    assert (b ∈ seqZ 0 16) as Hin by (apply elem_of_seqZ; lia). vm_compute in Hin. by elem_cases Hin. }
  rewrite Hl. split; zmod_lia.
Qed.

Lemma readsect_rule fuel dst off s (Q : unit → boot D → Prop) :
  (ata_delay ≤ fuel)%nat → 0 ≤ off < 268435456 →
  (∀ m d, ata_byte d = ata_byte (bt_dev s) →
     (∀ x, m x = if (dst <=? x) && (x <? dst + SECTSIZE) then ata_byte (bt_dev s) 0 off (x - dst) else bt_mem s x) →
     Q tt (mkBoot m d)) →
  runs (readsect fuel dst off) s Q.
Proof.
  intros Hf Ho HQ. unfold readsect. apply runs_bind, waitdisk_rule; [done|]. intros d0 R0 B0 C0.
  do 5 (match goal with |- runs (boot_out ?p ?v ≫= _) (mkBoot _ ?d) _ =>
    let R := fresh "R" in let B := fresh "B" in let C := fresh "C" in let d' := fresh "d" in
    pose proof (ata_out_reg p (u8 v) d ltac:(lia)) as (R & B & C); apply runs_bind, runs_mod; cbn [bt_mem bt_dev];
    set (d' := outb p (u8 v) d) in *; clearbody d' end).
  assert (Hr : ata_drive d4 = 0 ∧ ata_lba d4 = off).
  { apply boot_regs; [done | rewrite ?R4, ?R3, ?R2, ?R1, ?R; reflexivity ..]. }
  assert (Hcnt : ata_reg d4 498 = 1) by (rewrite R4, R3, R2, R1, R; reflexivity).
  assert (HB : ata_byte d4 = ata_byte (bt_dev s)) by congruence. destruct Hr as [Hdrv Hlba].
  apply runs_bind, runs_mod. cbn [bt_mem bt_dev]. change (u8 32) with 32.
  pose proof (ata_read d4 Hcnt) as [B7 C7]. set (d7 := outb 503 32 d4) in *. clearbody d7. rewrite Hdrv, Hlba in C7.
  apply runs_bind, waitdisk_rule; [done|]. cbn [bt_mem bt_dev]. intros d8 R8 B8 C8.
  apply runs_mod. cbn [bt_mem bt_dev]. change (SECTSIZE / 4) with 128. rewrite C7 in C8.
  pose proof (ata_insl d8 0 off C8) as [Hw Hb]. destruct (insl 496 128 d8) as [w d9]. cbn [fst snd] in *.
  apply HQ; [congruence|]. intros x. unfold SECTSIZE in *.
  destruct (Z.leb_spec dst x), (Z.ltb_spec x (dst + 512)); cbn [andb]; try done.
  rewrite Hw by lia. congruence.
Qed.

(** Sectors one after the other. *)
Lemma readseg_loop_rule fuel n pa epa off s (Q : unit → boot D → Prop) :
  (ata_delay ≤ fuel)%nat → 0 ≤ pa → pa < 4294967296 → epa + SECTSIZE < 4294967296 →
  0 ≤ off → off + Z.of_nat n < 268435456 → epa - pa ≤ SECTSIZE * Z.of_nat n →
  (∀ m d e, ata_byte d = ata_byte (bt_dev s) → pa ≤ e → epa ≤ e → (e = pa ∨ e < epa + SECTSIZE) →
     (∃ j, e = pa + SECTSIZE * j) →
     (∀ x, m x = if (pa <=? x) && (x <? e)
                 then ata_byte (bt_dev s) 0 (off + (x - pa) / SECTSIZE) ((x - pa) mod SECTSIZE) else bt_mem s x) →
     Q tt (mkBoot m d)) →
  runs (readseg_loop fuel n pa epa off) s Q.
Proof.
  intros Hf. unfold SECTSIZE. revert pa off s Q. induction n as [|n IH]; intros pa off s Q Hp0 Hp He Ho Hon Hn HQ; cbn [readseg_loop].
  - destruct (Z.ltb_spec pa epa); [lia|]. apply runs_ret. destruct s as [m d].
    apply (HQ m d pa); try done; try lia; [exists 0; lia|]. intros x. destruct (Z.leb_spec pa x), (Z.ltb_spec x pa); done || lia.
  - destruct (Z.ltb_spec pa epa) as [Hlt|Hge].
    + apply runs_bind, readsect_rule; [done | lia|]. intros m1 d1 B1 E1. unfold SECTSIZE in *.
      rewrite !u32_small by lia. apply IH; try lia. intros m d e B1' Hpe Hee Hes [j Hj] E. cbn [bt_mem bt_dev] in *.
      apply (HQ m d e); [congruence | lia | lia | lia | exists (j + 1); lia |]. intros x. rewrite E, E1, B1.
      destruct (Z.leb_spec (pa + 512) x), (Z.ltb_spec x e), (Z.leb_spec pa x), (Z.ltb_spec x (pa + 512)); cbn [andb]; try lia; try done.
      * replace (x - pa) with (x - (pa + 512) + 1 * 512) by lia. rewrite Z.div_add, Z.mod_add by lia.
        replace (off + (_ + 1)) with (off + 1 + (x - (pa + 512)) / 512) by lia. done.
      * rewrite Z.div_small, Z.mod_small by lia. by rewrite Z.add_0_r.
    + apply runs_ret. destruct s as [m d].
      apply (HQ m d pa); try done; try lia; [exists 0; lia|]. intros x. destruct (Z.leb_spec pa x), (Z.ltb_spec x pa); done || lia.
Qed.

(** Part of the kernel file, with what precedes it in its sector and what follows it. *)
Lemma readseg_rule fuel n pa count off s (Q : unit → boot D → Prop) :
  (ata_delay ≤ fuel)%nat → 0 ≤ count → 0 ≤ off → 0 ≤ pa - off mod SECTSIZE → pa + count + SECTSIZE < 4294967296 →
  off < 2147483648 → Z.of_nat n < 8388608 → count + SECTSIZE ≤ SECTSIZE * Z.of_nat n →
  (∀ m d e, ata_byte d = ata_byte (bt_dev s) → pa + count ≤ e →
     (e = pa - off mod SECTSIZE ∨ e < pa + count + SECTSIZE) → (∃ j, e = pa - off mod SECTSIZE + SECTSIZE * j) →
     (∀ x, m x = if (pa - off mod SECTSIZE <=? x) && (x <? e)
                 then kernel_file (bt_dev s) (off + (x - pa)) else bt_mem s x) →
     Q tt (mkBoot m d)) →
  runs (readseg fuel n pa count off) s Q.
Proof.
  intros Hf Hc Ho Hp Hh Hoff Hn1 Hn HQ. unfold readseg, SECTSIZE in *.
  pose proof (Z.mod_pos_bound off 512 ltac:(lia)). assert (off / 512 < 4194304) by zmod_lia. assert (0 ≤ off / 512) by zmod_lia.
  rewrite !u32_small by lia. apply readseg_loop_rule; unfold SECTSIZE; try lia.
  intros m d e B _ Hend He Hj E. apply (HQ m d e B Hend He Hj). intros x. rewrite E.
  destruct (Z.leb_spec (pa - off mod 512) x), (Z.ltb_spec x e); cbn [andb]; try done. unfold kernel_file, SECTSIZE.
  replace (off + (x - pa)) with (x - (pa - off mod 512) + off / 512 * 512) by zmod_lia.
  rewrite Z.div_add, Z.mod_add by lia. f_equal. lia.
Qed.

Lemma increasing_before segs g segs' : increasing (segs ++ g :: segs') → Forall (λ h, seg_end h ≤ seg_start g) segs.
Proof using.
  induction segs as [|h segs IH]; [constructor|]. cbn [app increasing]. intros [Hh Hi].
  constructor; [|auto]. apply Forall_app in Hh as [_ Hh]. by apply Forall_cons in Hh as [? _].
Qed.

(** The headers are in memory, and the disk is the same. *)
Definition headers (file : mem) (s : boot D) : Prop :=
  (∀ x, 0 ≤ x < 4096 → bt_mem s (scratch + x) = file x) ∧ ∀ i, kernel_file (bt_dev s) i = file i.

Lemma headers_load32 file s a : headers file s → 0 ≤ a ≤ 4092 → load32 (bt_mem s) (scratch + a) = load32 file a.
Proof using.
  intros [Hh _] Ha. unfold load32. rewrite Hh by lia.
  rewrite <- !Z.add_assoc, !Hh by lia. done.
Qed.

(** The memory after a segment is read into [m] and its end is cleared. *)
Lemma segment_in_place file g segs (m m1 m3 : mem) e :
  seg_ok g → Forall (seg_loaded file m) segs → Forall (λ h, seg_end h ≤ seg_start g) segs →
  g_pa g + g_filesz g ≤ e →
  (∀ x, m1 x = if (seg_start g <=? x) && (x <? e) then file (g_off g + (x - g_pa g)) else m x) →
  (∀ x, m3 x = if (g_pa g + g_filesz g <=? x) && (x <? seg_end g) then 0 else m1 x) →
  Forall (seg_loaded file m3) (segs ++ [g]) ∧ ∀ x, x < seg_start g → m3 x = m x.
Proof using.
  intros [_ [Hfz _] _ _] Hld Hinc He E1 E3. pose proof (Z.mod_pos_bound (g_off g) SECTSIZE ltac:(done)).
  assert (Hsame : ∀ x, x < seg_start g → m3 x = m x).
  { intros x Hx. unfold seg_start in *. rewrite E3, E1.
    destruct (Z.leb_spec (g_pa g + g_filesz g) x), (Z.leb_spec (g_pa g - g_off g mod SECTSIZE) x); done || lia. }
  split; [|done]. apply Forall_app; split; [|constructor; [|constructor]].
  - rewrite Forall_forall in Hld, Hinc |- *. intros h Hin x Hx. rewrite Hsame; [by apply Hld|].
    pose proof (Hinc h Hin). lia.
  - intros x Hx. rewrite E3, E1. unfold seg_start, seg_end in *.
    destruct (Z.leb_spec (g_pa g + g_filesz g) x), (Z.ltb_spec x (g_pa g + Z.max (g_filesz g) (g_memsz g))),
      (Z.ltb_spec x (g_pa g + g_filesz g)); cbn [andb]; try lia; try done.
    destruct (Z.leb_spec (g_pa g - g_off g mod SECTSIZE) x), (Z.ltb_spec x e); cbn [andb]; done || lia.
Qed.

(** One segment. *)
Lemma load_segment_rule fuel n file g s (Q : unit → boot D → Prop) ph segs :
  (ata_delay ≤ fuel)%nat → seg_ok g → headers file s → Forall (seg_loaded file (bt_mem s)) segs →
  Forall (λ h, seg_end h ≤ seg_start g) segs → Z.of_nat n < 8388608 → g_filesz g + SECTSIZE ≤ SECTSIZE * Z.of_nat n →
  0 ≤ ph ≤ 4064 → load32 file (ph + 4) = g_off g → load32 file (ph + 12) = g_pa g →
  load32 file (ph + 16) = g_filesz g → load32 file (ph + 20) = g_memsz g →
  (∀ s', headers file s' → Forall (seg_loaded file (bt_mem s')) (segs ++ [g]) → Q tt s') →
  runs (load_segment fuel n (scratch + ph)) s Q.
Proof using.
  intros Hf Hg Hh Hld Hinc Hn1 Hn Hph Eo Ep Efz Emz HQ. pose proof Hg as [[Ho Hof] [Hfz Hmz] Hlow Hhigh].
  apply runs_bind, runs_get. cbv zeta. rewrite <- !Z.add_assoc, !(headers_load32 file s), Eo, Ep, Efz by (done || lia).
  unfold seg_start, seg_end in Hlow, Hhigh.
  pose proof (Z.mod_pos_bound (g_off g) SECTSIZE ltac:(done)).
  apply runs_bind, readseg_rule; try done; unfold scratch in *; try lia. fold scratch.
  intros m1 d1 e B1 He _ _ E1. apply runs_bind, runs_get. cbv zeta. cbn [bt_mem]. fold (seg_start g) in E1.
  destruct Hh as [Hh Hk]. assert (Hl : ∀ a, 0 ≤ a ≤ 4092 → load32 m1 (scratch + a) = load32 file a).
  { intros a Ha. apply (headers_load32 file (mkBoot m1 d1)); [|done]. split; cbn [bt_mem bt_dev].
    - intros x Hx. rewrite E1. unfold seg_start, scratch in *.
      destruct (Z.leb_spec (g_pa g - g_off g mod SECTSIZE) (65536 + x)); [lia|]. by apply Hh.
    - intros j. rewrite <- Hk. unfold kernel_file. by rewrite B1. }
  rewrite !Hl, Efz, Emz by lia. rewrite u32_small by (unfold SECTSIZE in *; lia).
  assert (Hfin : ∀ m3, (∀ x, m3 x = if (g_pa g + g_filesz g <=? x) && (x <? seg_end g) then 0 else m1 x) → Q tt (mkBoot m3 d1)).
  { intros m3 E3. destruct (segment_in_place file g segs (bt_mem s) m1 m3 e) as [Hld' Hsame]; try done.
    { intros x. rewrite E1. by rewrite Hk. }
    apply HQ; [|done]. split; cbn [bt_mem bt_dev].
    - intros x Hx. rewrite Hsame by (unfold seg_start, scratch in *; lia). by apply Hh.
    - intros j. rewrite <- Hk. unfold kernel_file. by rewrite B1. }
  unfold seg_end in Hfin. rewrite Z.gtb_ltb. destruct (Z.ltb_spec (g_filesz g) (g_memsz g)); cbn [kwhen].
  - apply runs_mod. cbn [bt_mem bt_dev]. apply Hfin. intros x. rewrite stosb_spec, Z2Nat.id by lia. rewrite Z.max_r by lia.
    by replace (g_pa g + g_filesz g + (g_memsz g - g_filesz g)) with (g_pa g + g_memsz g) by lia.
  - apply runs_ret, Hfin. intros x. rewrite Z.max_l by lia.
    destruct (Z.leb_spec (g_pa g + g_filesz g) x), (Z.ltb_spec x (g_pa g + g_filesz g)); cbn [andb]; try lia; done.
Qed.

(** All segments. *)
Lemma load_kernel_rule fuel n k file entry segs todo s (Q : unit → boot D → Prop) :
  (ata_delay ≤ fuel)%nat → Z.of_nat n < 8388608 → (length todo ≤ k)%nat →
  elf_file file entry (segs ++ todo) → Forall seg_ok (segs ++ todo) → increasing (segs ++ todo) →
  Forall (λ g, g_filesz g + SECTSIZE ≤ SECTSIZE * Z.of_nat n) todo →
  headers file s → Forall (seg_loaded file (bt_mem s)) segs →
  (∀ s', headers file s' → Forall (seg_loaded file (bt_mem s')) (segs ++ todo) → Q tt s') →
  let ph := scratch + load32 file 28 in
  runs (load_kernel fuel n k (ph + 32 * Z.of_nat (length segs)) (ph + 32 * Z.of_nat (length (segs ++ todo)))) s Q.
Proof using.
  intros Hf Hn1. cbv zeta. revert segs k s.
  induction todo as [|g todo IH]; intros segs k s Hk Hef Hok Hinc Hn Hh Hld HQ.
  - rewrite app_nil_r in *. unfold load_kernel. destruct k; rewrite Z.ltb_irrefl; by apply runs_ret, HQ.
  - destruct k as [|k]; [cbn in Hk; lia|]. cbn [load_kernel].
    pose proof (ef_segs _ _ _ Hef (length segs) g) as Hg. rewrite lookup_app_r, Nat.sub_diag in Hg by done.
    specialize (Hg eq_refl) as (Eo & Ep & Ef & Em). destruct (ef_phoff _ _ _ Hef) as [Hp0 Hp1].
    set (ph := load32 file 28 + 32 * Z.of_nat (length segs)) in *. rewrite <- !Z.add_assoc. fold ph.
    rewrite length_app in *. cbn [length] in *.
    destruct (Z.ltb_spec (scratch + ph) (scratch + (load32 file 28 + 32 * Z.of_nat (length segs + S (length todo))))); [|lia].
    apply Forall_app in Hok as Hok'. destruct Hok' as [_ Hok'].
    apply Forall_cons in Hok' as [Hgok _]. apply Forall_cons in Hn as [Hng Hn].
    apply runs_bind, (load_segment_rule fuel n file g s _ ph segs); try done; try lia.
    { by apply increasing_before in Hinc. }
    intros s' Hh' Hld'. rewrite u32_small by (unfold scratch in *; lia).
    assert (Es : segs ++ g :: todo = (segs ++ [g]) ++ todo) by (by rewrite <- app_assoc).
    rewrite Es in *. specialize (IH (segs ++ [g]) k s'). rewrite !length_app in IH. cbn [length] in IH.
    match goal with |- runs (load_kernel _ _ _ ?a ?b) _ _ =>
      replace a with (scratch + load32 file 28 + 32 * Z.of_nat (length segs + 1)) by lia;
      replace b with (scratch + load32 file 28 + 32 * Z.of_nat (length segs + 1 + length todo)) by lia end.
    apply IH; try done. lia.
Qed.
End Rules.

(** ** Theorems *)

(** C26: The boot loader puts the kernel in place: if the file that starts at sector 1 is an ELF
    file with its headers in the first page, whose segments lie above the scratch page and in
    increasing order, [bootmain] returns its entry point with every segment loaded, the bytes
    of the file followed by zeros up to the size of the segment in memory.  If the file has
    not the magic number, it returns without an entry point and has written nothing but the
    scratch page, which holds the first 4096 bytes of the file. *)
Theorem bootmain_correct {D : Type} `{Ata D} fuel n k entry segs (s : boot D) (file := kernel_file (bt_dev s)) :
  (ata_delay ≤ fuel)%nat → Z.of_nat n < 8388608 → (9 ≤ n)%nat →
  (elf_file file entry segs → (length segs ≤ k)%nat →
     Forall (λ g, g_filesz g + SECTSIZE ≤ SECTSIZE * Z.of_nat n) segs → Forall seg_ok segs → increasing segs →
     runs (bootmain fuel n k) s (λ r s', r = Some entry ∧ Forall (seg_loaded file (bt_mem s')) segs)) ∧
  (load32 file 0 ≠ BOOT_ELF_MAGIC →
     runs (bootmain fuel n k) s (λ r s', r = None ∧
       ∀ x, bt_mem s' x = if (scratch <=? x) && (x <? scratch + 4096) then file (x - scratch) else bt_mem s x)).
Proof.
  intros Hf Hn1 Hn9.
  assert (Hread : ∀ Q : unit → boot D → Prop, (∀ s', headers file s' →
    (∀ x, ¬ scratch ≤ x < scratch + 4096 → bt_mem s' x = bt_mem s x) → Q tt s') → runs (readseg fuel n scratch 4096 0) s Q).
  { intros Q HQ. apply readseg_rule; try done; unfold SECTSIZE, scratch in *; try lia.
    intros m d e B He He' [j Hj] E. change (0 mod 512) with 0 in *. assert (e = 69632) as -> by lia.
    apply HQ; [split|]; cbn [bt_mem bt_dev].
    - intros x Hx. rewrite E.
      destruct (Z.leb_spec (65536 - 0) (scratch + x)), (Z.ltb_spec (scratch + x) 69632); unfold scratch in *; cbn [andb]; try lia.
      f_equal. lia.
    - intros i. unfold file, kernel_file. by rewrite B.
    - intros x Hx. rewrite E. destruct (Z.leb_spec (65536 - 0) x), (Z.ltb_spec x 69632); cbn [andb]; lia || done. }
  split.
  - intros Hef Hk Hn Hok Hinc. unfold bootmain. apply runs_bind, Hread. intros s1 Hh _. apply runs_bind, runs_get.
    destruct (ef_phoff _ _ _ Hef) as [Hp0 Hp1].
    assert (Hl : ∀ a, 0 ≤ a ≤ 4092 → load32 (bt_mem s1) (scratch + a) = load32 file a) by (intros; by apply headers_load32).
    rewrite <- (Z.add_0_r scratch) at 1. rewrite !Hl, (ef_magic _ _ _ Hef) by lia. change (BOOT_ELF_MAGIC =? BOOT_ELF_MAGIC) with true.
    cbn [negb]. cbv zeta. assert (E44 : load16 (bt_mem s1) (scratch + 44) = Z.of_nat (length segs)).
    { rewrite <- (ef_phnum _ _ _ Hef). destruct Hh as [Hh _]. unfold load16. by rewrite <- Z.add_assoc, !Hh by lia. }
    rewrite E44, !u32_small by (unfold scratch; lia). apply runs_bind.
    pose proof (load_kernel_rule fuel n k file entry [] segs s1) as Hload. cbn [app length] in Hload.
    replace (scratch + load32 file 28) with (scratch + load32 file 28 + 32 * Z.of_nat 0) at 1 by lia.
    apply Hload; try done. intros s2 Hh2 Hld. apply runs_bind, runs_get, runs_ret.
    split; [|done]. by rewrite (headers_load32 file s2), (ef_entry _ _ _ Hef) by (done || lia).
  - intros Hm. unfold bootmain. apply runs_bind, Hread. intros s1 Hh Hout. apply runs_bind, runs_get.
    rewrite <- (Z.add_0_r scratch) at 1. rewrite (headers_load32 file s1) by (done || lia).
    destruct (Z.eqb_spec (load32 file 0) BOOT_ELF_MAGIC); [done|]. apply runs_ret. split; [done|]. intros x.
    destruct (Z.leb_spec scratch x), (Z.ltb_spec x (scratch + 4096)); cbn [andb]; try (apply Hout; lia).
    destruct Hh as [Hh _]. rewrite <- (Hh (x - scratch)) by lia. f_equal. lia.
Qed.

(** *** A kernel with two segments *)

Definition demo_segs : list seg := [mkSeg 4096 1048576 10 2000; mkSeg 4700 1052780 5 5].

Definition demo_headers : list (Z * Z) :=
  [(0, BOOT_ELF_MAGIC); (24, 1048588); (28, 52); (44, 2);
   (56, 4096); (64, 1048576); (68, 10); (72, 2000);
   (88, 4700); (96, 1052780); (100, 5); (104, 5)].

Definition demo_file : mem := foldl (λ m '(a, v), store32 m a v) (λ i, i mod 256) demo_headers.

Definition demo_boot : boot simple_disk :=
  mkBoot (λ _, 255) (mkSimple (λ _, 0) (λ drv sec x, demo_file (512 * (sec - 1) + x)) None).

Lemma demo_file_elf : elf_file (kernel_file (bt_dev demo_boot)) 1048588 demo_segs.
Proof.
  split; [vm_compute; reflexivity.. | split; vm_compute; discriminate |].
  intros i g Hg. destruct i as [|[|i]]; cbn in Hg; [injection Hg as <- | injection Hg as <- | discriminate];
    (vm_compute; repeat split; reflexivity).
Qed.

Lemma bootmain_correct_witness :
  ∃ s', bootmain 1 12 2 demo_boot = Ok (Some 1048588, s') ∧
    Forall (seg_loaded (kernel_file (bt_dev demo_boot)) (bt_mem s')) demo_segs.
Proof.
  destruct (bootmain_correct 1 12 2 1048588 demo_segs demo_boot) as [H _].
  - cbn. lia.
  - cbn. lia.
  - lia.
  - destruct (H demo_file_elf) as (r & s' & E & Er & Hl).
    + cbn. lia.
    + constructor; [|constructor; [|constructor]]; vm_compute; discriminate.
    + constructor; [|constructor; [|constructor]]; (split; vm_compute; try split; congruence).
    + split; [constructor; [vm_compute; discriminate | constructor] | split; [constructor | exact I]].
    + exists s'. rewrite Er in E. split; [exact E | exact Hl].
Defined.
