(* ===== verification/Mp.v ===== *)
(** * Multiprocessor tables

    Models src/mp.c: the search for the floating pointer structure and the configuration
    table in the memory of the kernel, and [mpinit], which counts the processors.  Messages
    are left out.  The search takes fuel, a unit for each structure it looks at; so does the
    loop over the entries of the table, a unit for each entry. *)

From S2P Require Import Prelude Param KString Spinlock Kalloc Fs.
Local Open Scope Z_scope.

(** ** Definitions *)

Definition SIZEOF_mp : Z := 16.
Definition SIZEOF_mpconf : Z := 44.
Definition SIZEOF_mpproc : Z := 20.
Definition SIZEOF_mpioapic : Z := 8.
Definition MPBOOT : Z := 2.
Definition MPPROC : Z := 0.
Definition MPBUS : Z := 1.
Definition MPIOAPIC : Z := 2.
Definition MPIOINTR : Z := 3.
Definition MPLINTR : Z := 4.

(** The variables of src/mp.c and [lapic]; the ids of [cpus], and the ports written. *)
Record mpst := mkMp {
  cpu_ids : list Z;
  bcpu : nat;
  ismp : bool;
  ncpu : Z;
  ioapicid : Z;
  lapic : Z;
  mp_ports : list (Z * Z)
}.

Definition set_cpus (l : list Z) (s : mpst) : mpst :=
  mkMp l (bcpu s) (ismp s) (ncpu s) (ioapicid s) (lapic s) (mp_ports s).
Definition set_bcpu (i : nat) (s : mpst) : mpst :=
  mkMp (cpu_ids s) i (ismp s) (ncpu s) (ioapicid s) (lapic s) (mp_ports s).
Definition set_ismp (b : bool) (s : mpst) : mpst :=
  mkMp (cpu_ids s) (bcpu s) b (ncpu s) (ioapicid s) (lapic s) (mp_ports s).
Definition set_ncpu (n : Z) (s : mpst) : mpst :=
  mkMp (cpu_ids s) (bcpu s) (ismp s) n (ioapicid s) (lapic s) (mp_ports s).
Definition set_ioapicid (n : Z) (s : mpst) : mpst :=
  mkMp (cpu_ids s) (bcpu s) (ismp s) (ncpu s) n (lapic s) (mp_ports s).
Definition set_lapic (a : Z) (s : mpst) : mpst :=
  mkMp (cpu_ids s) (bcpu s) (ismp s) (ncpu s) (ioapicid s) a (mp_ports s).
Definition mp_out (p v : Z) (s : mpst) : mpst :=
  mkMp (cpu_ids s) (bcpu s) (ismp s) (ncpu s) (ioapicid s) (lapic s) (mp_ports s ++ [(p, v)]).

Definition mpbcpu (s : mpst) : Z := Z.of_nat (bcpu s).

Section Mp.
Variable m : mem.

(** [sum(addr, len)]. *)
Fixpoint sum_loop (addr : Z) (len : nat) : Z :=
  match len with
  | O => 0
  | S len' => m addr + sum_loop (addr + 1) len'
  end.
Definition sum (addr len : Z) : Z := u8 (sum_loop addr (Z.to_nat len)).

(** [memcmp(p, sig, 4) == 0]. *)
Definition has_sig (p : Z) (sig : list Z) : bool := bool_decide (mread m p 4 = sig).
Definition sig_mp : list Z := [95; 77; 80; 95].
Definition sig_pcmp : list Z := [80; 67; 77; 80].

(** [for(p = addr; p < e; p += sizeof(struct mp))]. *)
Fixpoint mpsearch1_loop (fuel : nat) (p e : Z) : outcome (option Z) :=
  if p <? e then
    match fuel with
    | O => Diverge
    | S fuel' =>
        if has_sig p sig_mp && (sum p SIZEOF_mp =? 0) then Ok (Some p)
        else mpsearch1_loop fuel' (p + SIZEOF_mp) e
    end
  else Ok None.

Definition mpsearch1 (fuel : nat) (a len : Z) : outcome (option Z) :=
  let addr := p2v a in
  mpsearch1_loop fuel addr (u32 (addr + len)).

Definition mpsearch (fuel : nat) : outcome (option Z) :=
  let bda := KERNBASE + 1024 in
  let p := Z.shiftl (Z.lor (Z.shiftl (m (bda + 15)) 8) (m (bda + 14))) 4 in
  r ← (if negb (p =? 0) then mpsearch1 fuel p 1024
       else
         let p := Z.lor (Z.shiftl (m (bda + 20)) 8) (m (bda + 19)) * 1024 in
         mpsearch1 fuel (u32 (p - 1024)) 1024);
  match r with
  | Some mp => Ok (Some mp)
  | None => mpsearch1 fuel 983040 65536
  end.

(** The structure and the table it points to. *)
Definition mpconfig (fuel : nat) : outcome (option (Z * Z)) :=
  r ← mpsearch fuel;
  match r with
  | None => Ok None
  | Some mp =>
      let physaddr := load32 m (mp + 4) in
      if physaddr =? 0 then Ok None
      else
        let conf := p2v physaddr in
        if negb (has_sig conf sig_pcmp) then Ok None
        else if negb (m (conf + 6) =? 1) && negb (m (conf + 6) =? 4) then Ok None
        else if negb (sum conf (load16 m (conf + 4)) =? 0) then Ok None
        else Ok (Some (mp, conf))
  end.

(** The loop over the entries from [p] to [e]. *)
Fixpoint mp_entries (fuel : nat) (p e : Z) : K mpst unit :=
  if p <? e then
    match fuel with
    | O => kout Diverge
    | S fuel' =>
        let t := m p in
        if t =? MPPROC then
          s ← kget;
          kwhen (negb (ncpu s =? m (p + 1))) (kmod (set_ismp false));;
          kwhen (negb (Z.land (m (p + 3)) MPBOOT =? 0)) (kmod (set_bcpu (Z.to_nat (ncpu s))));;
          (if ncpu s <? Z.of_nat (length (cpu_ids s))
           then kmod (set_cpus (<[Z.to_nat (ncpu s) := u8 (ncpu s)]> (cpu_ids s)))
           else kundef "cpus[ncpu]");;
          kmod (set_ncpu (s32 (ncpu s + 1)));;
          mp_entries fuel' (p + SIZEOF_mpproc) e
        else if t =? MPIOAPIC then
          kmod (set_ioapicid (m (p + 1)));;
          mp_entries fuel' (p + SIZEOF_mpioapic) e
        else if (t =? MPBUS) || (t =? MPIOINTR) || (t =? MPLINTR) then
          mp_entries fuel' (p + 8) e
        else
          kmod (set_ismp false);;
          mp_entries fuel' p e
    end
  else mret tt.

(** [imcr] is what port 0x23 reads. *)
Definition mpinit (fuel : nat) (imcr : Z) : K mpst unit :=
  kmod (set_bcpu 0);;
  c ← kout (mpconfig fuel);
  match c with
  | None => mret tt
  | Some (mp, conf) =>
      kmod (set_ismp true);;
      kmod (set_lapic (load32 m (conf + 36)));;
      mp_entries fuel (conf + SIZEOF_mpconf) (conf + load16 m (conf + 4));;
      s ← kget;
      if negb (ismp s) then kmod (fun s => set_ioapicid 0 (set_lapic 0 (set_ncpu 1 s)))
      else kwhen (negb (m (mp + 12) =? 0)) (kmod (fun s => mp_out 35 (Z.lor imcr 1) (mp_out 34 112 s)))
  end.
End Mp.

(** *** What the tables say *)

(** A floating pointer structure. *)
Definition is_mp (m : mem) (p : Z) : Prop := mread m p 4 = sig_mp ∧ sum m p SIZEOF_mp = 0.

Inductive mpentry := EProc (apicid flags : Z) | EIoapic (apicno : Z) | EOther (type : Z).

Definition entry_size (x : mpentry) : Z := match x with EProc _ _ => SIZEOF_mpproc | _ => 8 end.

(** The entries of a table in memory. *)
Fixpoint entries_at (m : mem) (p : Z) (es : list mpentry) (e : Z) : Prop :=
  match es with
  | [] => p = e
  | x :: es' =>
      match x with
      | EProc apicid flags => m p = MPPROC ∧ m (p + 1) = apicid ∧ m (p + 3) = flags
      | EIoapic apicno => m p = MPIOAPIC ∧ m (p + 1) = apicno
      | EOther t => m p = t ∧ (t = MPBUS ∨ t = MPIOINTR ∨ t = MPLINTR)
      end ∧ p + entry_size x ≤ e ∧ entries_at m (p + entry_size x) es' e
  end.

(** The processors of a table, its interrupt controllers. *)
Definition processors (es : list mpentry) : list (Z * Z) :=
  omap (λ x, match x with EProc a f => Some (a, f) | _ => None end) es.
Definition ioapics (es : list mpentry) : list Z :=
  omap (λ x, match x with EIoapic a => Some a | _ => None end) es.

(** The boot processor: the last one with the flag, the first without. *)
Fixpoint boot_index (i dflt : nat) (ps : list (Z * Z)) : nat :=
  match ps with
  | [] => dflt
  | (_, f) :: ps' => boot_index (S i) (if Z.land f MPBOOT =? 0 then dflt else i) ps'
  end.

(** The ids of the processors are the numbers from [i] on. *)
Fixpoint numbered (i : Z) (ps : list (Z * Z)) : bool :=
  match ps with
  | [] => true
  | (a, _) :: ps' => (i =? a) && numbered (i + 1) ps'
  end.

(** The state after the entries, from one with [n] processors found. *)
Record entries_done (s : mpst) (es : list mpentry) (s' : mpst) : Prop := {
  ed_ncpu : ncpu s' = ncpu s + Z.of_nat (length (processors es));
  ed_ismp : ismp s' = ismp s && numbered (ncpu s) (processors es);
  ed_bcpu : bcpu s' = boot_index (Z.to_nat (ncpu s)) (bcpu s) (processors es);
  ed_ioapic : ioapicid s' = default (ioapicid s) (last (ioapics es));
  ed_lapic : lapic s' = lapic s;
  ed_ports : mp_ports s' = mp_ports s;
  ed_length : length (cpu_ids s') = length (cpu_ids s);
  ed_ids i : (i < length (cpu_ids s))%nat → cpu_ids s' !! i =
    if (ncpu s <=? Z.of_nat i) && (Z.of_nat i <? ncpu s') then Some (Z.of_nat i) else cpu_ids s !! i
}.

(** ** Lemmas *)

Lemma mpsearch1_loop_spec m fuel p e :
  e - p ≤ SIZEOF_mp * Z.of_nat fuel →
  match mpsearch1_loop m fuel p e with
  | Ok (Some q) => ∃ k, 0 ≤ k ∧ q = p + SIZEOF_mp * k ∧ q < e ∧ is_mp m q ∧
      ∀ j, 0 ≤ j < k → ¬ is_mp m (p + SIZEOF_mp * j)
  | Ok None => ∀ j, 0 ≤ j → p + SIZEOF_mp * j < e → ¬ is_mp m (p + SIZEOF_mp * j)
  | _ => False
  end.
Proof.
  unfold SIZEOF_mp. revert p. induction fuel as [|fuel IH]; intros p Hf; cbn [mpsearch1_loop]; change SIZEOF_mp with 16.
  - destruct (Z.ltb_spec p e); [lia|]. intros j H1 H2. lia.
  - destruct (Z.ltb_spec p e) as [Hlt|Hge]; [|intros j H1 H2; lia].
    destruct (has_sig m p sig_mp && (sum m p 16 =? 0)) eqn:Eh.
    + apply andb_true_iff in Eh as [E1 E2]. apply bool_decide_eq_true in E1. apply Z.eqb_eq in E2.
      exists 0. rewrite Z.mul_0_r, Z.add_0_r. split_and!; [lia | done | done | by split | intros; lia].
    + assert (Hno : ¬ is_mp m p).
      { intros [E1 E2]. unfold has_sig in Eh. rewrite bool_decide_eq_true_2 in Eh by done.
        unfold SIZEOF_mp in E2. rewrite E2 in Eh. done. }
      specialize (IH (p + 16) ltac:(lia)). destruct (mpsearch1_loop m fuel (p + 16) e) as [[q|]|?|?|]; try done.
      * destruct IH as (k & Hk & -> & Hq & Hmp & Hmin). exists (k + 1). split_and!; [lia | lia | lia | |].
        { by replace (p + 16 * (k + 1)) with (p + 16 + 16 * k) by lia. }
        intros j Hj. destruct (decide (j = 0)) as [->|]; [by rewrite Z.mul_0_r, Z.add_0_r|].
        replace (p + 16 * j) with (p + 16 + 16 * (j - 1)) by lia. apply Hmin. lia.
      * intros j Hj Hlt'. destruct (decide (j = 0)) as [->|]; [by rewrite Z.mul_0_r, Z.add_0_r|].
        replace (p + 16 * j) with (p + 16 + 16 * (j - 1)) by lia. apply IH; lia.
Qed.

Lemma entries_done_nil s : entries_done s [] s.
Proof.
  split; cbn; try done; [lia | by rewrite andb_true_r |]. intros i Hi.
  destruct (Z.leb_spec (ncpu s) (Z.of_nat i)), (Z.ltb_spec (Z.of_nat i) (ncpu s)); cbn; done || lia.
Qed.

Lemma last_default {A : Type} (d x : A) l : default d (last (x :: l)) = default x (last l).
Proof. by rewrite last_cons; destruct (last l). Qed.

(** The state after the entry of a processor. *)
Definition add_cpu (apicid flags : Z) (s : mpst) : mpst :=
  mkMp (<[Z.to_nat (ncpu s) := ncpu s]> (cpu_ids s))
    (if Z.land flags MPBOOT =? 0 then bcpu s else Z.to_nat (ncpu s)) (ismp s && (ncpu s =? apicid))
    (ncpu s + 1) (ioapicid s) (lapic s) (mp_ports s).

Lemma entries_done_proc apicid flags es s s' :
  0 ≤ ncpu s < Z.of_nat (length (cpu_ids s)) →
  entries_done (add_cpu apicid flags s) es s' → entries_done s (EProc apicid flags :: es) s'.
Proof.
  intros Hn [E1 E2 E3 E4 E5 E6 E7 E8]. cbn [add_cpu cpu_ids bcpu ismp ncpu ioapicid lapic mp_ports] in *.
  rewrite length_insert in *. split; try done; unfold processors, ioapics in *; cbn [omap list_omap].
  - rewrite E1. cbn [length]. lia.
  - rewrite E2. cbn [numbered]. by rewrite andb_assoc.
  - rewrite E3. cbn [boot_index]. rewrite Z2Nat.inj_add, Nat.add_1_r by lia. done.
  - intros i Hi. rewrite E8 by done. rewrite E1.
    destruct (Z.leb_spec (ncpu s + 1) (Z.of_nat i)), (Z.leb_spec (ncpu s) (Z.of_nat i)); cbn [andb]; try lia.
    + destruct (Z.ltb_spec (Z.of_nat i) (ncpu s + 1 + Z.of_nat (length (omap (λ x, match x with EProc a f => Some (a, f) | _ => None end) es)))); [done|].
      rewrite list_lookup_insert_ne by lia. done.
    + assert (Z.to_nat (ncpu s) = i) as <- by lia. rewrite list_lookup_insert_eq by lia.
      destruct (Z.ltb_spec (Z.of_nat (Z.to_nat (ncpu s))) (ncpu s + 1 + Z.of_nat (length (omap (λ x, match x with EProc a f => Some (a, f) | _ => None end) es)))); [|lia].
      f_equal. lia.
    + rewrite list_lookup_insert_ne by lia. done.
Qed.

(** The loop over the entries. *)
Lemma mp_entries_rule m fuel p e es s (Q : unit → mpst → Prop) :
  entries_at m p es e → (length es ≤ fuel)%nat → 0 ≤ ncpu s →
  ncpu s + Z.of_nat (length (processors es)) ≤ Z.of_nat (length (cpu_ids s)) → (length (cpu_ids s) ≤ 256)%nat →
  (∀ s', entries_done s es s' → Q tt s') → runs (mp_entries m fuel p e) s Q.
Proof.
  revert p s fuel Q. induction es as [|x es IH]; intros p s fuel Q He Hf H0 Hn H256 HQ.
  - cbn in He. subst e. destruct fuel; cbn [mp_entries]; rewrite Z.ltb_irrefl; apply runs_ret, HQ, entries_done_nil.
  - destruct fuel as [|fuel]; [cbn in Hf; lia|]. destruct He as (Hx & Hsz & He). cbn [mp_entries]. cbn [length] in Hf.
    destruct (Z.ltb_spec p e); [|by destruct x; cbn in Hsz; unfold SIZEOF_mpproc in *; lia].
    destruct x as [apicid flags|apicno|t]; unfold processors in Hn; cbn [omap list_omap] in Hn; fold (processors es) in Hn.
    + destruct Hx as (-> & Ha & Hfl). change (MPPROC =? MPPROC) with true. cbv iota zeta. cbn [length] in Hn.
      apply runs_bind, runs_get. rewrite Ha, Hfl.
      destruct (Z.ltb_spec (ncpu s) (Z.of_nat (length (cpu_ids s)))); [|lia].
      assert (E1 : u8 (ncpu s) = ncpu s) by (apply Z.mod_small; lia). assert (E2 : s32 (ncpu s + 1) = ncpu s + 1) by (apply s32_small; lia).
      rewrite E1, E2. assert (HA : runs (mp_entries m fuel (p + SIZEOF_mpproc) e) (add_cpu apicid flags s) Q).
      { apply IH; try done; cbn [add_cpu ncpu cpu_ids]; rewrite ?length_insert; try lia.
        intros s' Hs'. apply HQ, entries_done_proc; [lia | done]. }
      unfold add_cpu in HA. destruct s as [ids b i n io la po]. cbn [ncpu cpu_ids bcpu ismp ioapicid lapic mp_ports] in *.
      destruct (n =? apicid), (Z.land flags MPBOOT =? 0); cbn [negb kwhen]; rewrite ?andb_true_r, ?andb_false_r in HA;
        do 4 (apply runs_bind; (apply runs_mod || apply runs_ret)); exact HA.
    + destruct Hx as (-> & Ha). change (MPIOAPIC =? MPPROC) with false. change (MPIOAPIC =? MPIOAPIC) with true. cbv iota zeta.
      apply runs_bind, runs_mod. rewrite Ha. apply IH; try done; [lia|]. intros s' [E1 E2 E3 E4 E5 E6 E7 E8].
      apply HQ. split; try done. cbn [set_ioapicid ioapicid] in E4. rewrite E4. symmetry. apply last_default.
    + destruct Hx as [-> Ht].
      assert (Hc : (t =? MPPROC) = false ∧ (t =? MPIOAPIC) = false ∧ (t =? MPBUS) || (t =? MPIOINTR) || (t =? MPLINTR) = true).
      { by destruct Ht as [->|[->| ->]]. }
      destruct Hc as (-> & -> & ->). apply IH; try done; [lia|]. intros s' [E1 E2 E3 E4 E5 E6 E7 E8]. by apply HQ.
Qed.

(** One round, for a processor. *)
Lemma mp_entries_proc m fuel p e s :
  p < e → m p = MPPROC → 0 ≤ ncpu s < Z.of_nat (length (cpu_ids s)) → (length (cpu_ids s) ≤ 256)%nat →
  mp_entries m (S fuel) p e s = mp_entries m fuel (p + SIZEOF_mpproc) e (add_cpu (m (p + 1)) (m (p + 3)) s).
Proof.
  intros Hp Hm Hn H256. cbn [mp_entries]. destruct (Z.ltb_spec p e); [|lia]. rewrite Hm.
  change (MPPROC =? MPPROC) with true. cbv iota zeta. rewrite (K_bind_ok _ _ _ s s) by done.
  destruct (Z.ltb_spec (ncpu s) (Z.of_nat (length (cpu_ids s)))); [|lia].
  assert (E1 : u8 (ncpu s) = ncpu s) by (apply Z.mod_small; lia).
  assert (E2 : s32 (ncpu s + 1) = ncpu s + 1) by (apply s32_small; lia). rewrite E1, E2.
  unfold add_cpu. destruct s as [ids b i n io la po]. cbn [ncpu cpu_ids bcpu ismp ioapicid lapic mp_ports] in *.
  destruct (n =? m (p + 1)), (Z.land (m (p + 3)) MPBOOT =? 0); cbn [negb kwhen]; rewrite ?andb_true_r, ?andb_false_r; reflexivity.
Qed.

(** An entry of an unknown type is never passed. *)
Lemma mp_entries_unknown m fuel p e s :
  p < e → m p ∉ [MPPROC; MPBUS; MPIOAPIC; MPIOINTR; MPLINTR] → mp_entries m fuel p e s = Diverge.
Proof.
  intros Hp Hm. rewrite !not_elem_of_cons in Hm. destruct Hm as (H1 & H2 & H3 & H4 & H5 & _).
  revert s. induction fuel as [|fuel IH]; intros s; cbn [mp_entries]; (destruct (Z.ltb_spec p e); [|lia]); [done|].
  apply Z.eqb_neq in H1, H2, H3, H4, H5. rewrite H1, H2, H3, H4, H5. cbn [orb]. cbv zeta.
  rewrite (K_bind_ok _ _ _ tt (set_ismp false s)) by done. apply IH.
Qed.

(** Known entries [es] up to [q], and one of an unknown type there. *)
Lemma mp_entries_stuck m fuel p e q es s :
  entries_at m p es q → q < e → m q ∉ [MPPROC; MPBUS; MPIOAPIC; MPIOINTR; MPLINTR] →
  0 ≤ ncpu s → ncpu s + Z.of_nat (length (processors es)) ≤ Z.of_nat (length (cpu_ids s)) →
  (length (cpu_ids s) ≤ 256)%nat → mp_entries m fuel p e s = Diverge.
Proof.
  intros He Hq Hm. revert p fuel s He. induction es as [|x es IH]; intros p fuel s He H0 Hn H256.
  { cbn in He. subst p. by apply mp_entries_unknown. }
  destruct He as (Hx & Hsz & He). assert (Hp : p < e) by (destruct x; cbn in Hsz; unfold SIZEOF_mpproc in *; lia).
  destruct fuel as [|fuel]; [cbn [mp_entries]; by destruct (Z.ltb_spec p e); [|lia]|].
  destruct x as [apicid flags|apicno|t]; unfold processors in Hn; cbn [omap list_omap] in Hn; fold (processors es) in Hn.
  - destruct Hx as (Ht & Ha & Hfl). cbn [length] in Hn. rewrite mp_entries_proc by (done || lia).
    apply IH; [done|..]; cbn [add_cpu ncpu cpu_ids]; rewrite ?length_insert; lia.
  - destruct Hx as (Ht & Ha). cbn [mp_entries]. destruct (Z.ltb_spec p e); [|lia]. rewrite Ht.
    change (MPIOAPIC =? MPPROC) with false. change (MPIOAPIC =? MPIOAPIC) with true. cbv iota zeta.
    rewrite (K_bind_ok _ _ _ tt (set_ioapicid (m (p + 1)) s)) by done. by apply IH.
  - destruct Hx as [Ht Ho]. cbn [mp_entries]. destruct (Z.ltb_spec p e); [|lia]. rewrite Ht.
    assert (Hc : (t =? MPPROC) = false ∧ (t =? MPIOAPIC) = false ∧ (t =? MPBUS) || (t =? MPIOINTR) || (t =? MPLINTR) = true)
      by (by destruct Ho as [->|[->| ->]]).
    destruct Hc as (-> & -> & ->). by apply IH.
Qed.

(** ** Theorems *)

(** The search finds the first floating pointer structure of a range, by signature and
    checksum, at the multiples of its size, and finds nothing exactly if there is none; it
    ends, a unit of fuel for each place. *)
Theorem mpsearch1_correct m fuel a len :
  0 ≤ a → 0 ≤ len → a + len < KERNBASE → len ≤ SIZEOF_mp * Z.of_nat fuel →
  (∃ q, mpsearch1 m fuel a len = Ok (Some q) ∧ is_mp m q ∧ ∃ k, 0 ≤ k ∧ q = KERNBASE + a + SIZEOF_mp * k ∧ q < KERNBASE + a + len ∧
     ∀ j, 0 ≤ j < k → ¬ is_mp m (KERNBASE + a + SIZEOF_mp * j)) ∨
  (mpsearch1 m fuel a len = Ok None ∧
     ∀ j, 0 ≤ j → SIZEOF_mp * j < len → ¬ is_mp m (KERNBASE + a + SIZEOF_mp * j)).
Proof.
  intros Ha Hl Hk Hf. unfold mpsearch1, p2v. rewrite (Z.add_comm a). unfold KERNBASE in *. rewrite !u32_small by lia.
  pose proof (mpsearch1_loop_spec m fuel (2147483648 + a) (2147483648 + a + len) ltac:(lia)) as H.
  destruct (mpsearch1_loop m fuel (2147483648 + a) (2147483648 + a + len)) as [[q|]|?|?|]; [left|right|done..].
  - destruct H as (k & Hk0 & -> & Hq & Hmp & Hmin). eexists. split; [done|]. split; [done|]. by exists k.
  - split; [done|]. intros j H0 H1. apply H; lia.
Qed.

(** C28: [mpinit] counts the processors of the configuration table: if their ids are the numbers
    from 0 on, [ncpu] is how many there are, [cpus] has their ids, [bcpu] is the one with the
    boot flag and [ioapicid] the interrupt controller; otherwise the kernel falls back to one
    processor. *)
Theorem mpinit_correct m fuel imcr mp conf es s :
  mpconfig m fuel = Ok (Some (mp, conf)) →
  entries_at m (conf + SIZEOF_mpconf) es (conf + load16 m (conf + 4)) → (length es ≤ fuel)%nat →
  ncpu s = 0 → length (cpu_ids s) = NCPU → (length (processors es) ≤ NCPU)%nat →
  runs (mpinit m fuel imcr) s (λ _ s',
    if numbered 0 (processors es) then
      ismp s' = true ∧ ncpu s' = Z.of_nat (length (processors es)) ∧
      take (length (processors es)) (cpu_ids s') = seqZ 0 (Z.of_nat (length (processors es))) ∧
      mpbcpu s' = Z.of_nat (boot_index 0 0 (processors es)) ∧
      ioapicid s' = default (ioapicid s) (last (ioapics es)) ∧ lapic s' = load32 m (conf + 36)
    else ismp s' = false ∧ ncpu s' = 1 ∧ ioapicid s' = 0 ∧ lapic s' = 0).
Proof.
  intros Hc He Hf Hn Hl Hp. unfold mpinit. apply runs_bind, runs_mod, runs_bind. eapply runs_ok; [unfold kout; by rewrite Hc|].
  apply runs_bind, runs_mod, runs_bind, runs_mod, runs_bind.
  apply (mp_entries_rule m fuel _ _ es); try done; cbn [set_lapic set_ismp set_bcpu ncpu cpu_ids];
    [lia | lia | rewrite Hl; unfold NCPU; lia |].
  intros s' [E1 E2 E3 E4 E5 E6 E7 E8]. cbn [set_lapic set_ismp set_bcpu ncpu cpu_ids ismp bcpu lapic ioapicid] in *.
  apply runs_bind, runs_get. rewrite E2, Hn. cbn [andb]. rewrite Hn in *. destruct (numbered 0 (processors es)); cbn [negb].
  - assert (Hfin : ismp s' = true ∧ ncpu s' = Z.of_nat (length (processors es)) ∧
      take (length (processors es)) (cpu_ids s') = seqZ 0 (Z.of_nat (length (processors es))) ∧
      mpbcpu s' = Z.of_nat (boot_index 0 0 (processors es)) ∧
      ioapicid s' = default (ioapicid s) (last (ioapics es)) ∧ lapic s' = load32 m (conf + 36)).
    { split_and!; [done | lia | | unfold mpbcpu; by rewrite E3 | done | done].
      apply list_eq. intros i. destruct (decide (i < length (processors es))%nat) as [Hi|Hi].
      - rewrite lookup_take_lt, E8 by lia. rewrite E1.
        destruct (Z.leb_spec 0 (Z.of_nat i)), (Z.ltb_spec (Z.of_nat i) (0 + Z.of_nat (length (processors es)))); try lia. cbn [andb].
        rewrite lookup_seqZ_lt by lia. f_equal.
      - rewrite lookup_take_ge, lookup_ge_None_2; [done | rewrite length_seqZ; lia | lia]. }
    destruct (m (mp + 12) =? 0); cbn [negb kwhen]; [by apply runs_ret|]. apply runs_mod. exact Hfin.
  - by apply runs_mod.
Qed.

(** C29: An entry of an unknown type, anywhere in the table: [mpinit] never returns, whatever the
    fuel, since the loop does not step over it.  The entries [es] before it are of known types
    and name no more processors than there is room for. *)
Theorem mpinit_unknown_entry m fuel imcr mp conf es p s :
  mpconfig m fuel = Ok (Some (mp, conf)) →
  entries_at m (conf + SIZEOF_mpconf) es p → p < conf + load16 m (conf + 4) →
  m p ∉ [MPPROC; MPBUS; MPIOAPIC; MPIOINTR; MPLINTR] →
  ncpu s = 0 → length (cpu_ids s) = NCPU → (length (processors es) ≤ NCPU)%nat →
  mpinit m fuel imcr s = Diverge.
Proof.
  intros Hc He Hl Hm Hn Hlen Hp. unfold mpinit. rewrite (K_bind_ok _ _ _ tt (set_bcpu 0 s)) by done.
  rewrite (K_bind_ok _ _ _ (Some (mp, conf)) (set_bcpu 0 s)) by (unfold kout; by rewrite Hc).
  do 2 (rewrite (K_bind_ok _ _ _ tt _ eq_refl)). unfold mbind, K_bind.
  rewrite (mp_entries_stuck m fuel _ _ p es); try done; cbn [set_lapic set_ismp set_bcpu ncpu cpu_ids];
    rewrite ?Hn, ?Hlen; unfold NCPU in *; lia.
Qed.

(** *** A machine with two processors *)

Definition demo_conf : list Z :=
  sig_pcmp ++ [92; 0; 4; 95] ++ replicate 28 0 ++ [0; 0; 224; 254] ++ replicate 4 0 ++
  ([0; 0; 20; 3] ++ replicate 16 0) ++ ([0; 1; 20; 1] ++ replicate 16 0) ++ [2; 2; 17; 1; 0; 0; 192; 254].
Definition demo_mp : list Z := sig_mp ++ [0; 144; 0; 0; 1; 4; 0; 0; 0; 0; 0; 0].

(** The sum of the bytes is 0 with this byte. *)
Definition checksum (l : list Z) : Z := u8 (- foldr Z.add 0 l).

Definition demo_tables : mem := λ x,
  let at_ (base : Z) (l : list Z) := l !! Z.to_nat (x - base) in
  let conf := KERNBASE + 36864 in
  let mp := KERNBASE + 983040 in
  if (conf <=? x) && (x <? conf + 92) then
    default 0 (at_ conf (<[7%nat := checksum (<[7%nat := 0]> demo_conf)]> demo_conf))
  else if (mp <=? x) && (x <? mp + 16) then
    default 0 (at_ mp (<[10%nat := checksum demo_mp]> demo_mp))
  else 0.

Lemma mpinit_correct_witness :
  ∃ s', mpinit demo_tables 64 0 (mkMp (replicate NCPU 0) 0 false 0 0 0 []) = Ok (tt, s') ∧
    ncpu s' = 2 ∧ mpbcpu s' = 0 ∧ ioapicid s' = 2 ∧ lapic s' = 4276092928.
Proof.
  destruct (mpinit_correct demo_tables 64 0 (KERNBASE + 983040) (KERNBASE + 36864)
    [EProc 0 3; EProc 1 1; EIoapic 2] (mkMp (replicate NCPU 0) 0 false 0 0 0 [])) as (r & s' & E & H).
  - vm_compute. reflexivity.
  - vm_compute. repeat split; (reflexivity || discriminate).
  - vm_compute. lia.
  - reflexivity.
  - reflexivity.
  - vm_compute. lia.
  - exists s'. destruct r. destruct H as (_ & H1 & _ & H2 & H3 & H4). split; [exact E|].
    rewrite H1, H2, H3, H4. repeat split; vm_compute; reflexivity.
Defined.

(** The same tables with a last entry of type 9, and the checksum for it. *)
Definition demo_unknown : mem :=
  let conf := KERNBASE + 36864 in
  mupd (mupd demo_tables (conf + 84) 9) (conf + 7) (u8 (demo_tables (conf + 7) - 7)).

Lemma mpinit_unknown_entry_witness :
  mpinit demo_unknown 5000 0 (mkMp (replicate NCPU 0) 0 false 0 0 0 []) = Diverge.
Proof.
  apply (mpinit_unknown_entry demo_unknown 5000 0 (KERNBASE + 983040) (KERNBASE + 36864)
    [EProc 0 3; EProc 1 1] (KERNBASE + 36864 + 84)).
  - vm_compute. reflexivity.
  - vm_compute. repeat split; (reflexivity || discriminate).
  - vm_compute. reflexivity.
  - apply (bool_decide_eq_true_1 _). vm_compute. reflexivity.
  - reflexivity.
  - reflexivity.
  - vm_compute. lia.
Defined.
