(* ===== verification/Entry.v ===== *)
(** * Entering and leaving the kernel

    Models the interrupt and segment descriptors of src/mmu.h with [tvinit] of src/trap.c,
    [seginit] and the segments of [switchuvm] of src/vm.c, the entry points src/vectors.pl
    generates, src/trapasm.S, src/swtch.S and the stubs of src/usys.S.  The assembly is given as lists of instructions
    ([alltraps], [trapret], [vector], [swtch], [stub]) for a small part of the processor:
    registers, segment registers and the stack in memory.  The code calls [trap], a C
    function, in the middle of [alltraps]; [trap] gets the trap frame and leaves a trap frame.

    The theorems say that the entry code builds the [struct trapframe] of src/x86.h, that
    leaving restores the registers from it, that user code cannot enter the kernel with an
    [int] instruction but for the system call, and that [swtch] saves and restores the
    registers a C function must preserve. *)

From S2P Require Import Prelude Param ProcData.
Local Open Scope Z_scope.

(** ** Definitions *)

(** *** Descriptors *)

Definition FL_IF : Z := 512.
Definition SEG_KCODE : Z := 1.
Definition SEG_KDATA : Z := 2.
Definition SEG_KCPU : Z := 3.
Definition SEG_UCODE : Z := 4.
Definition SEG_UDATA : Z := 5.
Definition SEG_TSS : Z := 6.
Definition NSEGS : nat := 7.
Definition USER_DPL : Z := 3.
Definition STA_X : Z := 8.
Definition STA_W : Z := 2.
Definition STA_R : Z := 2.
Definition STS_T32A : Z := 9.
Definition STS_IG32 : Z := 14.
Definition STS_TG32 : Z := 15.

(** [struct segdesc]; the fields that are constant in [SEG] and [SEG16] but for [avl] and
    [rsv1], which are 0. *)
Record segdesc := mkSegdesc {
  sd_lim_15_0 : Z;
  sd_base_15_0 : Z;
  sd_base_23_16 : Z;
  sd_type : Z;
  sd_s : Z;
  sd_dpl : Z;
  sd_p : Z;
  sd_lim_19_16 : Z;
  sd_db : Z;
  sd_g : Z;
  sd_base_31_24 : Z
}.

Definition SEG (type base lim dpl : Z) : segdesc :=
  mkSegdesc (Z.land (Z.shiftr lim 12) 65535) (Z.land base 65535) (Z.land (Z.shiftr base 16) 255)
    type 1 dpl 1 (Z.shiftr lim 28) 1 1 (Z.shiftr base 24).
Definition SEG16 (type base lim dpl : Z) : segdesc :=
  mkSegdesc (Z.land lim 65535) (Z.land base 65535) (Z.land (Z.shiftr base 16) 255)
    type 1 dpl 1 (Z.shiftr lim 16) 1 0 (Z.shiftr base 24).

(** What the processor makes of a descriptor: base, limit, privilege. *)
Definition seg_base (d : segdesc) : Z := sd_base_15_0 d + 65536 * sd_base_23_16 d + 16777216 * sd_base_31_24 d.
Definition seg_limit (d : segdesc) : Z :=
  let lim := sd_lim_15_0 d + 65536 * sd_lim_19_16 d in
  if sd_g d =? 1 then 4096 * lim + 4095 else lim.

(** [struct gatedesc]. *)
Record gatedesc := mkGate {
  gd_off_15_0 : Z;
  gd_cs : Z;
  gd_args : Z;
  gd_rsv1 : Z;
  gd_type : Z;
  gd_s : Z;
  gd_dpl : Z;
  gd_p : Z;
  gd_off_31_16 : Z
}.

Definition SETGATE (istrap : bool) (sel off d : Z) : gatedesc :=
  mkGate (Z.land off 65535) sel 0 0 (if istrap then STS_TG32 else STS_IG32) 0 d 1 (Z.shiftr off 16).

Definition gate_offset (g : gatedesc) : Z := gd_off_15_0 g + 65536 * gd_off_31_16 g.

Section Tables.
(** [vectors[]]: the addresses of the entry points. *)
Variable vectors : Z → Z.

(** [tvinit]: the interrupt descriptor table. *)
Definition tvinit : list gatedesc :=
  <[Z.to_nat T_SYSCALL := SETGATE true (Z.shiftl SEG_KCODE 3) (vectors T_SYSCALL) USER_DPL]>
    ((λ i : nat, SETGATE false (Z.shiftl SEG_KCODE 3) (vectors (Z.of_nat i)) 0) <$> seq 0 256).
End Tables.

(** [seginit]: the descriptor table of a CPU whose [cpu] field is at address [c]. *)
Definition seginit (c : Z) (gdt : list segdesc) : list segdesc :=
  <[Z.to_nat SEG_KCPU := SEG STA_W c 8 0]>
  (<[Z.to_nat SEG_UDATA := SEG STA_W 0 4294967295 USER_DPL]>
  (<[Z.to_nat SEG_UCODE := SEG (Z.lor STA_X STA_R) 0 4294967295 USER_DPL]>
  (<[Z.to_nat SEG_KDATA := SEG STA_W 0 4294967295 0]>
  (<[Z.to_nat SEG_KCODE := SEG (Z.lor STA_X STA_R) 0 4294967295 0]> gdt)))).

(** *** The processor *)

Inductive reg := EAX | ECX | EDX | EBX | ESP | EBP | ESI | EDI.
Inductive sreg := CS | DS | ES | FS | GS | SS.

#[export] Instance reg_eq_dec : EqDecision reg.
Proof. solve_decision. Defined.
#[export] Instance sreg_eq_dec : EqDecision sreg.
Proof. solve_decision. Defined.

Record machine := mkMachine {
  regs : reg → Z;
  segs : sreg → Z;
  eip : Z;
  eflags : Z;
  ram : mem
}.

Definition set_reg (r : reg) (v : Z) (s : machine) : machine :=
  mkMachine (λ r', if decide (r' = r) then v else regs s r') (segs s) (eip s) (eflags s) (ram s).
Definition set_seg (g : sreg) (v : Z) (s : machine) : machine :=
  mkMachine (regs s) (λ g', if decide (g' = g) then v else segs s g') (eip s) (eflags s) (ram s).
Definition set_eip (a : Z) (s : machine) : machine := mkMachine (regs s) (segs s) a (eflags s) (ram s).
Definition set_eflags (f : Z) (s : machine) : machine := mkMachine (regs s) (segs s) (eip s) f (ram s).
Definition set_ram (m : mem) (s : machine) : machine := mkMachine (regs s) (segs s) (eip s) (eflags s) m.

Definition push_word (v : Z) (s : machine) : machine :=
  let sp := u32 (regs s ESP - 4) in
  set_ram (store32 (ram s) sp (u32 v)) (set_reg ESP sp s).
Definition top_word (s : machine) : Z := load32 (ram s) (regs s ESP).
Definition drop_word (s : machine) : machine := set_reg ESP (u32 (regs s ESP + 4)) s.

Inductive operand := Reg (r : reg) | Seg (g : sreg) | Imm (v : Z).

Definition value (x : operand) (s : machine) : Z :=
  match x with Reg r => regs s r | Seg g => segs s g | Imm v => v end.

Inductive instr :=
| Pushl (x : operand)
| Popl_r (r : reg)
| Popl_s (g : sreg)
| Pushal
| Popal
| Movw_ax (v : Z)                    (* movw $v, %ax *)
| Movw_seg (g : sreg)                (* movw %ax, %g *)
| Movl (x : operand) (r : reg)       (* movl x, %r *)
| Load (disp : Z) (a r : reg)        (* movl disp(%a), %r *)
| Store (r a : reg)                  (* movl %r, (%a) *)
| Addl_esp (n : Z)                   (* addl $n, %esp *)
| Ret
| Iret.

(** [pushal] pushes the stack pointer it starts with. *)
Definition pushal_order : list reg := [EAX; ECX; EDX; EBX; ESP; EBP; ESI; EDI].

(** [popal] skips the saved stack pointer. *)
Definition pop_reg (s : machine) (r : reg) : machine :=
  let v := top_word s in
  let s := drop_word s in
  if decide (r = ESP) then s else set_reg r v s.

Definition pop_seg (g : sreg) (s : machine) : machine := set_seg g (u16 (top_word s)) (drop_word s).

Definition cpl (s : machine) : Z := Z.land (segs s CS) 3.

(** [iret]: [eip], [cs], [eflags], and if the privilege changes [esp] and [ss]. *)
Definition iret (s : machine) : machine :=
  let old := cpl s in
  let s := drop_word (set_eip (top_word s) s) in
  let s := pop_seg CS s in
  let s := drop_word (set_eflags (top_word s) s) in
  if cpl s =? old then s
  else
    let sp := top_word s in
    set_reg ESP sp (pop_seg SS (drop_word s)).

Definition step (s : machine) (i : instr) : machine :=
  match i with
  | Pushl x => push_word (value x s) s
  | Popl_r r => let v := top_word s in set_reg r v (drop_word s)
  | Popl_s g => pop_seg g s
  | Pushal => foldl (λ s' r, push_word (regs s r) s') s pushal_order
  | Popal => foldl pop_reg s (reverse pushal_order)
  | Movw_ax v => set_reg EAX (65536 * (regs s EAX / 65536) + u16 v) s
  | Movw_seg g => set_seg g (u16 (regs s EAX)) s
  | Movl x r => set_reg r (value x s) s
  | Load disp a r => set_reg r (load32 (ram s) (u32 (regs s a + disp))) s
  | Store r a => set_ram (store32 (ram s) (regs s a) (regs s r)) s
  | Addl_esp n => set_reg ESP (u32 (regs s ESP + n)) s
  | Ret => let a := top_word s in set_eip a (drop_word s)
  | Iret => iret s
  end.

Definition exec_code (code : list instr) (s : machine) : machine := foldl step s code.

(** *** The code *)

(** The processor pushes an error code for these exceptions. *)
Definition has_error (n : Z) : bool := (n =? 8) || ((10 <=? n) && (n <=? 14)) || (n =? 17).

(** The entry point [vector]n of src/vectors.pl, up to the jump to [alltraps]. *)
Definition vector (n : Z) : list instr :=
  (if negb (has_error n) then [Pushl (Imm 0)] else []) ++ [Pushl (Imm n)].

(** [alltraps] up to [call trap]. *)
Definition alltraps : list instr :=
  [Pushl (Seg DS); Pushl (Seg ES); Pushl (Seg FS); Pushl (Seg GS); Pushal;
   Movw_ax (Z.shiftl SEG_KDATA 3); Movw_seg DS; Movw_seg ES;
   Movw_ax (Z.shiftl SEG_KCPU 3); Movw_seg FS; Movw_seg GS;
   Pushl (Reg ESP)].

(** What follows the call, into [trapret]. *)
Definition trapret : list instr :=
  [Popal; Popl_s GS; Popl_s FS; Popl_s ES; Popl_s DS; Addl_esp 8; Iret].
Definition alltraps_return : list instr := Addl_esp 4 :: trapret.

Definition swtch : list instr :=
  [Load 4 ESP EAX; Load 8 ESP EDX;
   Pushl (Reg EBP); Pushl (Reg EBX); Pushl (Reg ESI); Pushl (Reg EDI);
   Store ESP EAX; Movl (Reg EDX) ESP;
   Popl_r EDI; Popl_r ESI; Popl_r EBX; Popl_r EBP; Ret].

(** *** Interrupts *)

(** Where the task state says the kernel stack is. *)
Record tss := mkTss { ts_ss0 : Z; ts_esp0 : Z }.

(** [switchuvm] points the task state, at address [t], to the top of the kernel stack; it has 104 bytes. *)
Definition switchuvm_gdt (t : Z) (gdt : list segdesc) : list segdesc :=
  let d := SEG16 STS_T32A t (104 - 1) 0 in
  <[Z.to_nat SEG_TSS := mkSegdesc (sd_lim_15_0 d) (sd_base_15_0 d) (sd_base_23_16 d) (sd_type d) 0 (sd_dpl d) (sd_p d)
                          (sd_lim_19_16 d) (sd_db d) (sd_g d) (sd_base_31_24 d)]> gdt.
Definition switchuvm_tss (kstack : Z) : tss := mkTss (Z.shiftl SEG_KDATA 3) (u32 (kstack + KSTACKSIZE)).

(** The processor takes interrupt [n]: it switches to the kernel stack if it runs user code,
    saves what [iret] needs, and goes on at the gate. *)
Definition switch_stack (g : gatedesc) (ts : tss) (s : machine) : machine :=
  if Z.land (gd_cs g) 3 <? cpl s then
    push_word (regs s ESP) (push_word (segs s SS) (set_reg ESP (ts_esp0 ts) (set_seg SS (ts_ss0 ts) s)))
  else s.
Definition deliver (g : gatedesc) (ts : tss) (err : option Z) (s : machine) : machine :=
  let s1 := push_word (eip s) (push_word (segs s CS) (push_word (eflags s) (switch_stack g ts s))) in
  let s1 := match err with Some e => push_word e s1 | None => s1 end in
  let s1 := set_eip (gate_offset g) (set_seg CS (gd_cs g) s1) in
  if gd_type g =? STS_IG32 then set_eflags (Z.land (eflags s) (Z.lnot FL_IF)) s1 else s1.

(** The instruction [int n] of two bytes: without the privilege for the gate it is a general
    protection fault at the instruction. *)
Definition T_GPFLT : Z := 13.
Definition int_n (idt : list gatedesc) (ts : tss) (n : Z) (s : machine) : option machine :=
  g ← idt !! Z.to_nat n;
  if gd_dpl g <? cpl s then g ← idt !! Z.to_nat T_GPFLT; Some (deliver g ts (Some (8 * n + 2)) s)
  else Some (deliver g ts None (set_eip (u32 (eip s + 2)) s)).

(** The stub [SYSCALL(name)] of src/usys.S up to its trap; [movl $num, %eax] has five bytes.
    The [ret] after the trap ends it. *)
Definition stub (idt : list gatedesc) (ts : tss) (num : Z) (s : machine) : option machine :=
  int_n idt ts T_SYSCALL (set_eip (u32 (eip s + 5)) (step s (Movl (Imm num) EAX))).

(** [struct trapframe] at an address; the segment registers are 16 bits wide. *)
Definition frame_at (m : mem) (a : Z) : trapframe :=
  let w i := load32 m (a + 4 * i) in
  let h i := u16 (w i) in
  mkTf (w 0) (w 1) (w 2) (w 3) (w 4) (w 5) (w 6) (w 7) (h 8) (h 9) (h 10) (h 11) (w 12) (w 13)
    (w 14) (h 15) (w 16) (w 17) (h 18).

(** [struct context] at an address. *)
Definition context_at (m : mem) (a : Z) : context :=
  mkContext (load32 m a) (load32 m (a + 4)) (load32 m (a + 8)) (load32 m (a + 12)) (load32 m (a + 16)).

(** Registers hold 32 bits, segment registers 16. *)
Record machine_ok (s : machine) : Prop := {
  mo_reg r : 0 ≤ regs s r < 4294967296;
  mo_seg g : 0 ≤ segs s g < 65536;
  mo_eip : 0 ≤ eip s < 4294967296;
  mo_eflags : 0 ≤ eflags s < 4294967296
}.

(** The trap frame of a machine that is interrupted. *)
Definition frame_of (n err oesp : Z) (s : machine) : trapframe :=
  mkTf (regs s EDI) (regs s ESI) (regs s EBP) oesp (regs s EBX) (regs s EDX) (regs s ECX) (regs s EAX)
    (segs s GS) (segs s FS) (segs s ES) (segs s DS) n err (eip s) (segs s CS) (eflags s) (regs s ESP) (segs s SS).

(** A machine with the registers of a trap frame. *)
Record restored (tf : trapframe) (s : machine) : Prop := {
  rs_regs : regs s EDI = tf_edi tf ∧ regs s ESI = tf_esi tf ∧ regs s EBP = tf_ebp tf ∧ regs s EBX = tf_ebx tf ∧
            regs s EDX = tf_edx tf ∧ regs s ECX = tf_ecx tf ∧ regs s EAX = tf_eax tf ∧ regs s ESP = tf_esp tf;
  rs_segs : segs s GS = tf_gs tf ∧ segs s FS = tf_fs tf ∧ segs s ES = tf_es tf ∧ segs s DS = tf_ds tf ∧
            segs s CS = tf_cs tf ∧ segs s SS = tf_ss tf;
  rs_rest : eip s = tf_eip tf ∧ eflags s = tf_eflags tf
}.

(** ** Lemmas *)

(** The words on the stack. *)
Definition stack (m : mem) (a : Z) (ws : list Z) : Prop := ∀ i w, ws !! i = Some w → load32 m (a + 4 * Z.of_nat i) = w.

(** A machine whose memory is seen only through its stack.  The instructions that use nothing
    else of the memory run on it as on the machine ([exec_view]). *)
Record view := mkView {
  v_regs : reg → Z;
  v_segs : sreg → Z;
  v_eip : Z;
  v_eflags : Z;
  v_words : list Z
}.

Definition v_set_reg (r : reg) (x : Z) (v : view) : view :=
  mkView (λ r', if decide (r' = r) then x else v_regs v r') (v_segs v) (v_eip v) (v_eflags v) (v_words v).
Definition v_set_seg (g : sreg) (x : Z) (v : view) : view :=
  mkView (v_regs v) (λ g', if decide (g' = g) then x else v_segs v g') (v_eip v) (v_eflags v) (v_words v).
Definition v_set_words (ws : list Z) (v : view) : view := mkView (v_regs v) (v_segs v) (v_eip v) (v_eflags v) ws.
Definition v_push (x : Z) (v : view) : view := v_set_words (u32 x :: v_words v) (v_set_reg ESP (v_regs v ESP - 4) v).
Definition v_top (v : view) : Z := hd 0 (v_words v).
Definition v_drop (v : view) : view := v_set_words (tail (v_words v)) (v_set_reg ESP (v_regs v ESP + 4) v).
Definition v_value (x : operand) (v : view) : Z := match x with Reg r => v_regs v r | Seg g => v_segs v g | Imm w => w end.
Definition v_pop_reg (v : view) (r : reg) : view := if decide (r = ESP) then v_drop v else v_set_reg r (v_top v) (v_drop v).
Definition v_pop_seg (g : sreg) (v : view) : view := v_set_seg g (u16 (v_top v)) (v_drop v).

Definition v_cpl (v : view) : Z := Z.land (v_segs v CS) 3.
Definition v_goto (a : Z) (v : view) : view := mkView (v_regs v) (v_segs v) a (v_eflags v) (v_words v).
Definition v_flags (f : Z) (v : view) : view := mkView (v_regs v) (v_segs v) (v_eip v) f (v_words v).
Definition v_iret (v : view) : view :=
  let v1 := v_drop (v_goto (v_top v) v) in
  let v2 := v_pop_seg CS v1 in
  let v3 := v_drop (v_flags (v_top v2) v2) in
  if v_cpl v3 =? v_cpl v then v3
  else v_set_words [] (v_set_reg ESP (v_top v3) (v_pop_seg SS (v_drop v3))).

Definition v_step (v : view) (i : instr) : view :=
  match i with
  | Pushl x => v_push (v_value x v) v
  | Popl_r r => v_pop_reg v r
  | Popl_s g => v_pop_seg g v
  | Pushal => foldl (λ v' r, v_push (v_regs v r) v') v pushal_order
  | Popal => foldl v_pop_reg v (reverse pushal_order)
  | Movw_ax w => v_set_reg EAX (65536 * (v_regs v EAX / 65536) + u16 w) v
  | Movw_seg g => v_set_seg g (u16 (v_regs v EAX)) v
  | Movl x r => v_set_reg r (v_value x v) v
  | Load d _ r => v_set_reg r (nth (Z.to_nat d / 4) (v_words v) 0) v
  | Addl_esp n => v_set_words (drop (Z.to_nat n / 4) (v_words v)) (v_set_reg ESP (v_regs v ESP + n) v)
  | Ret => v_goto (v_top v) (v_drop v)
  | Iret => v_iret v
  | Store _ _ => v
  end.

(** There is room below the stack, or there are words to take. *)
Definition room (n : Z) (v : view) : Prop := 4 * n ≤ v_regs v ESP < 4294967296.
Definition words (n : Z) (v : view) : Prop :=
  n ≤ Z.of_nat (length (v_words v)) ∧ 0 ≤ v_regs v ESP ∧ v_regs v ESP + 4 * n < 4294967296.

Definition v_safe (v : view) (i : instr) : Prop :=
  match i with
  | Pushl _ => room 1 v
  | Pushal => room 8 v
  | Popl_r r => r ≠ ESP ∧ words 1 v
  | Popl_s _ | Ret => words 1 v
  | Popal => words 8 v
  | Movw_ax _ | Movw_seg _ => True
  | Movl _ r => r ≠ ESP
  | Load d a r => a = ESP ∧ r ≠ ESP ∧ 0 ≤ d ∧ (Z.to_nat d mod 4 = 0)%nat ∧ words (Z.of_nat (Z.to_nat d / 4) + 1) v
  | Addl_esp n => 0 ≤ n ∧ (Z.to_nat n mod 4 = 0)%nat ∧ words (Z.of_nat (Z.to_nat n / 4)) v
  | Iret => words 3 v ∧ (Z.land (u16 (nth 1 (v_words v) 0)) 3 ≠ v_cpl v → words 5 v)
  | Store _ _ => False
  end.

Fixpoint v_safes (code : list instr) (v : view) : Prop :=
  match code with [] => True | i :: code => v_safe v i ∧ v_safes code (v_step v i) end.

Record stands (s : machine) (v : view) : Prop := {
  st_regs r : regs s r = v_regs v r;
  st_segs g : segs s g = v_segs v g;
  st_eip : eip s = v_eip v;
  st_eflags : eflags s = v_eflags v;
  st_words : stack (ram s) (v_regs v ESP) (v_words v)
}.

Lemma stands_set_reg r x s v : stands s v → r ≠ ESP → stands (set_reg r x s) (v_set_reg r x v).
Proof.
  intros [H1 H2 H3 H4 H5] Hr. split; try done; cbn.
  - intros r'. by case_decide.
  - by rewrite decide_False by congruence.
Qed.

Lemma stands_set_seg g x s v : stands s v → stands (set_seg g x s) (v_set_seg g x v).
Proof. intros [H1 H2 H3 H4 H5]. split; try done; cbn. intros g'. by case_decide. Qed.

Lemma stands_push x s v : stands s v → room 1 v → stands (push_word x s) (v_push x v).
Proof.
  unfold room. intros [H1 H2 H3 H4 H5] Ha. unfold push_word. rewrite H1, u32_small by lia. split; try done; cbn.
  - intros r. case_decide; [done|apply H1].
  - rewrite decide_True by done. intros [|i] w Hi; cbn in Hi.
    + injection Hi as <-. rewrite Z.mul_0_r, Z.add_0_r. apply load32_store32.
    + rewrite load32_store32_ne by lia. rewrite <- (H5 i w Hi). f_equal. lia.
Qed.

(** Words are dropped by moving the stack pointer. *)
Lemma stands_skip n s v :
  stands s v → 0 ≤ n → words n v →
  stands (set_reg ESP (u32 (regs s ESP + 4 * n)) s)
    (v_set_words (drop (Z.to_nat n) (v_words v)) (v_set_reg ESP (v_regs v ESP + 4 * n) v)).
Proof.
  intros [H1 H2 H3 H4 H5] Hn (Hl & H0 & Hm). rewrite H1, u32_small by lia. split; try done; cbn.
  - intros r. by case_decide.
  - rewrite decide_True by done. intros i w Hi. rewrite lookup_drop in Hi. rewrite <- (H5 _ w Hi). f_equal. lia.
Qed.

Lemma stands_drop s v : stands s v → words 1 v → top_word s = v_top v ∧ stands (drop_word s) (v_drop v).
Proof.
  intros Hs Hw. split; [|exact (stands_skip 1 s v Hs ltac:(lia) Hw)].
  destruct Hs as [H1 _ _ _ H5], Hw as [Hl _]. unfold top_word, v_top. rewrite H1.
  destruct (v_words v) as [|w ws]; [cbn in Hl; lia|]. by rewrite <- (H5 0%nat w eq_refl), Z.mul_0_r, Z.add_0_r.
Qed.

Lemma stands_pop r s v :
  stands s v → words 1 v → stands (pop_reg s r) (v_pop_reg v r).
Proof.
  intros Hs Hw. destruct (stands_drop s v Hs Hw) as [Ht Hd]. unfold pop_reg, v_pop_reg. rewrite Ht.
  case_decide; [exact Hd|]. by apply stands_set_reg.
Qed.

Lemma stands_pop_seg g s v : stands s v → words 1 v → stands (pop_seg g s) (v_pop_seg g v).
Proof.
  intros Hs Hw. destruct (stands_drop s v Hs Hw) as [Ht Hd]. unfold pop_seg, v_pop_seg. rewrite Ht.
  by apply stands_set_seg.
Qed.

Lemma stands_pushes (f g : reg → Z) rs s v :
  (∀ r, f r = g r) → stands s v → room (Z.of_nat (length rs)) v →
  stands (foldl (λ s' r, push_word (f r) s') s rs) (foldl (λ v' r, v_push (g r) v') v rs).
Proof.
  intros Hfg. revert s v. induction rs as [|r rs IH]; intros s v Hs Hv; [done|]. cbn [foldl length] in *.
  unfold room in Hv. rewrite Hfg. apply IH; [apply stands_push; [done|unfold room; lia]|].
  unfold room. cbn. rewrite decide_True by done. lia.
Qed.

Lemma stands_pops rs s v :
  stands s v → words (Z.of_nat (length rs)) v → stands (foldl pop_reg s rs) (foldl v_pop_reg v rs).
Proof.
  revert s v. induction rs as [|r rs IH]; intros s v Hs Hv; [done|]. cbn [foldl length] in *.
  destruct Hv as (H1 & H2 & H3). apply IH; [apply stands_pop; [done|split_and!; lia]|].
  assert (v_words (v_pop_reg v r) = tail (v_words v) ∧ v_regs (v_pop_reg v r) ESP = v_regs v ESP + 4) as [E1 E2].
  { unfold v_pop_reg. case_decide; cbn; [by rewrite decide_True|].
    by rewrite (decide_False (P := ESP = r)), decide_True by congruence. }
  split_and!; rewrite ?E1, ?E2; [|lia..]. destruct (v_words v); cbn in *; lia.
Qed.

Lemma stands_value x s v : stands s v → value x s = v_value x v.
Proof. intros Hs. destruct x; cbn; [apply (st_regs s v Hs)|apply (st_segs s v Hs)|done]. Qed.

Lemma stands_load d s v :
  stands s v → 0 ≤ d → (Z.to_nat d mod 4 = 0)%nat → words (Z.of_nat (Z.to_nat d / 4) + 1) v →
  load32 (ram s) (u32 (regs s ESP + d)) = nth (Z.to_nat d / 4) (v_words v) 0.
Proof.
  intros Hs H0 Hd (Hl & Hp & Hm). pose proof (Nat.div_mod_eq (Z.to_nat d) 4) as E.
  rewrite (st_regs s v Hs), u32_small by lia.
  destruct (lookup_lt_is_Some_2 (v_words v) (Z.to_nat d / 4)) as [w Hw]; [lia|].
  rewrite (nth_lookup_Some _ _ _ _ Hw), <- (st_words s v Hs _ _ Hw). f_equal. lia.
Qed.

Lemma stands_goto a s v : stands s v → stands (set_eip a s) (v_goto a v).
Proof. intros [H1 H2 H3 H4 H5]. by split. Qed.

Lemma stands_flags f s v : stands s v → stands (set_eflags f s) (v_flags f v).
Proof. intros [H1 H2 H3 H4 H5]. by split. Qed.

Lemma words_drop n v : words (n + 1) v → words n (v_drop v).
Proof.
  unfold words, v_drop, v_set_words, v_set_reg. cbn [v_words v_regs]. rewrite decide_True by done.
  intros (H1 & H2 & H3). split_and!; [|lia..]. destruct (v_words v); cbn in *; lia.
Qed.

Lemma stands_cpl s v : stands s v → cpl s = v_cpl v.
Proof. intros Hs. unfold cpl, v_cpl. by rewrite (st_segs s v Hs). Qed.

Lemma stands_iret s v :
  stands s v → words 3 v → (Z.land (u16 (nth 1 (v_words v) 0)) 3 ≠ v_cpl v → words 5 v) →
  stands (iret s) (v_iret v).
Proof.
  intros Hs H3 H5. unfold iret, v_iret. rewrite (stands_cpl s v Hs).
  assert (W1 : words 1 v) by (unfold words in *; lia).
  rewrite (proj1 (stands_drop s v Hs W1)).
  set (v1 := v_drop (v_goto (v_top v) v)). set (v2 := v_pop_seg CS v1).
  assert (S1 : stands (drop_word (set_eip (v_top v) s)) v1) by (by apply stands_drop; [apply stands_goto|]).
  assert (W2 : words 2 v1) by (by apply (words_drop 2 (v_goto (v_top v) v))).
  assert (S2 : stands (pop_seg CS (drop_word (set_eip (v_top v) s))) v2)
    by (apply stands_pop_seg; [done|unfold words in *; lia]).
  assert (W3 : words 1 v2) by exact (words_drop 1 v1 W2).
  set (s2 := pop_seg CS _) in *. clearbody s2. rewrite (proj1 (stands_drop s2 v2 S2 W3)).
  assert (S3 : stands (drop_word (set_eflags (v_top v2) s2)) (v_drop (v_flags (v_top v2) v2)))
    by (by apply stands_drop; [apply stands_flags|]).
  rewrite (stands_cpl _ _ S3). case_eq (v_cpl (v_drop (v_flags (v_top v2) v2)) =? v_cpl v); [done|].
  intros Hc%Z.eqb_neq. assert (W5 : words 2 (v_drop (v_flags (v_top v2) v2))).
  { apply (words_drop 2 (v_flags (v_top v2) v2)), (words_drop 3 v1), (words_drop 4 (v_goto (v_top v) v)), H5.
    intros E. apply Hc. rewrite <- E. unfold v_cpl, v2, v1. cbn. rewrite decide_True by done. unfold v_top. cbn. clear. by destruct (v_words v) as [|? []]. }
  set (v3 := v_drop (v_flags (v_top v2) v2)) in *. set (s3 := drop_word (set_eflags _ _)) in *. clearbody v3 s3.
  assert (W4 : words 1 v3) by (unfold words in *; lia). destruct (stands_drop s3 v3 S3 W4) as [-> S4].
  destruct (stands_pop_seg SS (drop_word s3) (v_drop v3) S4 (words_drop 1 v3 W5)) as [R1 R2 R3 R4 _].
  split; try done. intros r. cbn. case_decide; [done|apply (st_regs s3 v3 S3)].
Qed.

(** One instruction, and a sequence of them. *)
Lemma stands_step i s v : stands s v → v_safe v i → stands (step s i) (v_step v i).
Proof.
  intros Hs. destruct i; cbn [v_safe step v_step].
  - intros Hr. rewrite (stands_value x s v Hs). by apply stands_push.
  - intros [Hr Hw]. pose proof (stands_pop r s v Hs Hw) as Hp. unfold pop_reg in Hp. by rewrite decide_False in Hp.
  - by apply stands_pop_seg.
  - exact (stands_pushes (regs s) (v_regs v) pushal_order s v (st_regs s v Hs) Hs).
  - exact (stands_pops (reverse pushal_order) s v Hs).
  - intros _. rewrite (st_regs s v Hs). by apply stands_set_reg.
  - intros _. rewrite (st_regs s v Hs). by apply stands_set_seg.
  - intros Hr. rewrite (stands_value x s v Hs). by apply stands_set_reg.
  - intros (-> & Hr & H0 & Hd & Hw). rewrite (stands_load disp s v) by done. by apply stands_set_reg.
  - done.
  - intros (H0 & Hd & Hw). pose proof (Nat.div_mod_eq (Z.to_nat n) 4) as E.
    pose proof (stands_skip (Z.of_nat (Z.to_nat n / 4)) s v Hs ltac:(lia) Hw) as Hp. rewrite Nat2Z.id in Hp.
    by replace (4 * Z.of_nat (Z.to_nat n / 4)) with n in Hp by lia.
  - intros Hw. destruct (stands_drop s v Hs Hw) as [-> Hd]. by apply stands_goto.
  - intros [H3 H5]. by apply stands_iret.
Qed.

Lemma exec_cons i code s : exec_code (i :: code) s = exec_code code (step s i).
Proof. done. Qed.

Lemma exec_view code s v :
  stands s v → v_safes code v → stands (exec_code code s) (foldl v_step v code).
Proof.
  revert s v. induction code as [|i code IH]; intros s v Hs Hv; [done|]. destruct Hv as [H1 H2].
  apply IH; [by apply stands_step|done].
Qed.

(** Delivery of an interrupt on the view. *)
Definition v_switch_stack (g : gatedesc) (ts : tss) (v : view) : view :=
  if Z.land (gd_cs g) 3 <? v_cpl v then
    v_push (v_regs v ESP) (v_push (v_segs v SS)
      (v_set_words [] (v_set_reg ESP (ts_esp0 ts) (v_set_seg SS (ts_ss0 ts) v))))
  else v.
Definition v_deliver (g : gatedesc) (ts : tss) (err : option Z) (v : view) : view :=
  let v1 := v_push (v_eip v) (v_push (v_segs v CS) (v_push (v_eflags v) (v_switch_stack g ts v))) in
  let v1 := match err with Some e => v_push e v1 | None => v1 end in
  let v1 := v_goto (gate_offset g) (v_set_seg CS (gd_cs g) v1) in
  if gd_type g =? STS_IG32 then v_flags (Z.land (v_eflags v) (Z.lnot FL_IF)) v1 else v1.

Lemma room_push n x v : 0 ≤ n → room (n + 1) v → room n (v_push x v).
Proof. unfold room, v_push. cbn. rewrite decide_True by done. lia. Qed.

Lemma room_mono m n v : room m v → n ≤ m → room n v.
Proof. unfold room. lia. Qed.

Lemma stands_switch ts s v :
  stands s v →
  stands (set_reg ESP (ts_esp0 ts) (set_seg SS (ts_ss0 ts) s))
    (v_set_words [] (v_set_reg ESP (ts_esp0 ts) (v_set_seg SS (ts_ss0 ts) v))).
Proof.
  intros [H1 H2 H3 H4 H5]. split; try done; cbn; intros x; by case_decide.
Qed.

Lemma room_switch n x v : 4 * n ≤ x < 4294967296 → room n (v_set_words [] (v_set_reg ESP x v)).
Proof. unfold room. cbn. by rewrite decide_True. Qed.

(** The stack an interrupt uses: the one of the task state for user code. *)
Definition kstack (g : gatedesc) (ts : tss) (v : view) : Z :=
  if Z.land (gd_cs g) 3 <? v_cpl v then ts_esp0 ts else v_regs v ESP.

Lemma stands_switch_stack g ts s v :
  stands s v → 24 ≤ kstack g ts v < 4294967296 →
  stands (switch_stack g ts s) (v_switch_stack g ts v) ∧ room 4 (v_switch_stack g ts v).
Proof.
  intros Hs Hr. unfold kstack, switch_stack, v_switch_stack in *.
  rewrite (stands_cpl s v Hs), (st_segs s v Hs), (st_regs s v Hs ESP).
  destruct (_ <? _); [|split; [done|unfold room; lia]]. split.
  - apply stands_push; [apply stands_push; [by apply stands_switch|]|];
      repeat (apply room_push; [lia|]); apply room_switch; lia.
  - do 2 (apply room_push; [lia|]). apply room_switch. lia.
Qed.

Lemma stands_deliver g ts err s v :
  stands s v → 24 ≤ kstack g ts v < 4294967296 → stands (deliver g ts err s) (v_deliver g ts err v).
Proof.
  intros Hs Hr. destruct (stands_switch_stack g ts s v Hs Hr) as [S1 R1]. unfold deliver, v_deliver.
  rewrite (st_eflags s v Hs), (st_eip s v Hs), !(st_segs s v Hs).
  set (s2 := push_word (v_eip v) _). set (v2 := v_push (v_eip v) _).
  assert (stands s2 v2 ∧ room 1 v2) as [S2 R2].
  { split; [|by do 3 (apply room_push; [lia|])].
    repeat (apply stands_push; [|repeat (apply room_push; [lia|]); by apply (room_mono 4)]). done. }
  clearbody s2 v2. destruct err; destruct (_ =? _); try apply stands_flags; apply stands_goto, stands_set_seg; try done;
    by apply stands_push.
Qed.

(** Evaluation of code on a view, and the goals it leaves. *)
Ltac view_eval :=
  lazy -[Z.sub Z.add Z.mul Z.div Z.opp Z.le Z.lt u16 u32 Z.land Z.lnot Z.eqb Z.ltb not regs segs eip eflags ts_esp0 ts_ss0].
Ltac machine_facts Hr Hg :=
  pose proof (Hr EAX); pose proof (Hr ECX); pose proof (Hr EDX); pose proof (Hr EBX); pose proof (Hr ESP);
  pose proof (Hr EBP); pose proof (Hr ESI); pose proof (Hr EDI); pose proof (Hg CS); pose proof (Hg DS);
  pose proof (Hg ES); pose proof (Hg FS); pose proof (Hg GS); pose proof (Hg SS).
Ltac view_done :=
  try split_and!; try done; try lia; try (unfold u16; zmod_lia);
  try (repeat apply (f_equal2 cons); try done; first [rewrite u32_small by lia; lia | lia]).

Definition machine_view (s : machine) : view := mkView (regs s) (segs s) (eip s) (eflags s) [].

Lemma stands_machine_view s : stands s (machine_view s).
Proof. by split. Qed.

(** The error code a frame has, and how the processor reports it. *)
Definition error_of (n e : Z) : option Z := if has_error n then Some e else None.
Definition frame_error (n e : Z) : Z := if has_error n then e else 0.

(** Where the frame is: [esp] and [ss] are part of it if user code is interrupted. *)
Definition frame_addr (ts : tss) (s : machine) : Z := if 0 <? cpl s then ts_esp0 ts - 76 else regs s ESP - 68.

Definition frame_size (s : machine) : Z := if 0 <? cpl s then 76 else 68.

(** The words on the stack when [trap] is called. *)
Definition entry_words (n e a : Z) (s : machine) : list Z :=
  [a; regs s EDI; regs s ESI; regs s EBP; a + 32; regs s EBX; regs s EDX; regs s ECX; regs s EAX;
   segs s GS; segs s FS; segs s ES; segs s DS; n; frame_error n e; eip s; segs s CS; eflags s] ++
  (if 0 <? cpl s then [regs s ESP; segs s SS] else []).

Definition kernel_view (v : view) : Prop :=
  v_segs v DS = 16 ∧ v_segs v ES = 16 ∧ v_segs v FS = 24 ∧ v_segs v GS = 24 ∧ v_segs v CS = 8.

Lemma entry_view g ts n e s :
  machine_ok s → gd_cs g = 8 → 0 ≤ n < 256 → 0 ≤ e < 4294967296 → 24 ≤ frame_addr ts s < 4294967200 →
  let v := v_deliver g ts (error_of n e) (machine_view s) in
  let v' := foldl v_step v (vector n ++ alltraps) in
  v_safes (vector n ++ alltraps) v ∧ v_words v' = entry_words n e (frame_addr ts s) s ∧
  v_regs v' ESP = frame_addr ts s - 4 ∧ kernel_view v' ∧
  v_segs v' SS = (if 0 <? cpl s then ts_ss0 ts else segs s SS).
Proof.
  intros [Hr Hg Hi Hf] Hcs Hn He Ht. machine_facts Hr Hg.
  unfold v_deliver, v_switch_stack, v_cpl, machine_view, entry_words, frame_addr, cpl in *.
  cbn [v_segs]. rewrite Hcs. change (Z.land 8 3) with 0.
  unfold error_of, vector, frame_error.
  destruct (has_error n), (gd_type g =? STS_IG32), (0 <? _); view_eval; view_done.
Qed.

(** The frame [trapret] takes from the stack, with the two words of a return to user code. *)
Definition frame_words (tf : trapframe) (user : bool) : list Z :=
  [tf_edi tf; tf_esi tf; tf_ebp tf; tf_oesp tf; tf_ebx tf; tf_edx tf; tf_ecx tf; tf_eax tf; tf_gs tf; tf_fs tf;
   tf_es tf; tf_ds tf; tf_trapno tf; tf_err tf; tf_eip tf; tf_cs tf; tf_eflags tf] ++
  (if user then [tf_esp tf; tf_ss tf] else []).

Record v_restored (tf : trapframe) (user : bool) (v v' : view) : Prop := {
  vr_regs : v_regs v' EDI = tf_edi tf ∧ v_regs v' ESI = tf_esi tf ∧ v_regs v' EBP = tf_ebp tf ∧ v_regs v' EBX = tf_ebx tf ∧
            v_regs v' EDX = tf_edx tf ∧ v_regs v' ECX = tf_ecx tf ∧ v_regs v' EAX = tf_eax tf;
  vr_esp : v_regs v' ESP = if user then tf_esp tf else v_regs v ESP + 68;
  vr_segs : v_segs v' GS = u16 (tf_gs tf) ∧ v_segs v' FS = u16 (tf_fs tf) ∧ v_segs v' ES = u16 (tf_es tf) ∧
            v_segs v' DS = u16 (tf_ds tf) ∧ v_segs v' CS = u16 (tf_cs tf);
  vr_ss : v_segs v' SS = if user then u16 (tf_ss tf) else v_segs v SS;
  vr_rest : v_eip v' = tf_eip tf ∧ v_eflags v' = tf_eflags tf
}.

Lemma trapret_view tf v :
  let user := negb (Z.land (u16 (tf_cs tf)) 3 =? 0) in
  v_words v = frame_words tf user → 0 ≤ v_regs v ESP < 4294967200 → v_cpl v = 0 →
  v_safes trapret v ∧ v_restored tf user v (foldl v_step v trapret).
Proof.
  intros user Hw Hp Hc. unfold v_cpl in Hc. destruct v as [rs sg ip fl ws], tf. cbn in Hw, Hp, Hc, user.
  subst ws user. destruct (_ =? _) eqn:E; (split; [|split]); view_eval; rewrite ?Hc, ?E; view_done.
Qed.

Lemma user_frame n err o s :
  0 ≤ segs s CS < 65536 → negb (Z.land (u16 (tf_cs (frame_of n err o s))) 3 =? 0) = (0 <? cpl s).
Proof.
  intros Hs. cbn. rewrite u16_small by done. unfold cpl. pose proof (Z.land_nonneg (segs s CS) 3).
  destruct (Z.eqb_spec (Z.land (segs s CS) 3) 0) as [->|]; [done|]. symmetry. apply Z.ltb_lt. lia.
Qed.

(** The machine when [trap] is called. *)
Definition entered (g : gatedesc) (ts : tss) (n e : Z) (s : machine) : machine :=
  exec_code (vector n ++ alltraps) (deliver g ts (error_of n e) s).

(** All of [alltraps] and [trapret]: [trap] is what [call trap] does, from the call to its
    return. *)
Definition interrupt (trap : machine → machine) (g : gatedesc) (ts : tss) (n e : Z) (s : machine) : machine :=
  exec_code alltraps_return (trap (entered g ts n e s)).

(** The call comes back with the stack and code segments it had, and the [len] bytes of the
    frame at [a] are the same. *)
Record handled (a len : Z) (s t : machine) : Prop := {
  hd_esp : regs t ESP = regs s ESP;
  hd_cs : segs t CS = segs s CS;
  hd_ss : segs t SS = segs s SS;
  hd_frame x : a ≤ x < a + len → ram t x = ram s x
}.

Lemma entered_syscall g ts s :
  entered g ts T_SYSCALL 0 s = exec_code (vector T_SYSCALL ++ alltraps) (deliver g ts None s).
Proof. unfold entered. assert (error_of T_SYSCALL 0 = None) as -> by reflexivity. reflexivity. Qed.

Lemma entered_rule g ts n e s :
  machine_ok s → gd_cs g = 8 → 0 ≤ n < 256 → 0 ≤ e < 4294967296 → 24 ≤ frame_addr ts s < 4294967200 →
  ∃ v, stands (entered g ts n e s) v ∧ v_words v = entry_words n e (frame_addr ts s) s ∧
       v_regs v ESP = frame_addr ts s - 4 ∧ kernel_view v ∧
       v_segs v SS = (if 0 <? cpl s then ts_ss0 ts else segs s SS).
Proof.
  intros Hm Hcs Hn He Ha. eexists. split; [|exact (proj2 (entry_view g ts n e s Hm Hcs Hn He Ha))].
  apply exec_view; [|exact (proj1 (entry_view g ts n e s Hm Hcs Hn He Ha))].
  apply stands_deliver; [apply stands_machine_view|].
  unfold kstack, frame_addr, v_cpl, machine_view, cpl in *. cbn [v_segs v_regs]. rewrite Hcs.
  change (Z.land 8 3) with 0. destruct (0 <? _); lia.
Qed.

Lemma stack_tail m a w ws : stack m a (w :: ws) → stack m (a + 4) ws.
Proof. intros Hs i x Hi. rewrite <- (Hs (S i) x Hi). f_equal. lia. Qed.

Definition short_segs (tf : trapframe) : Prop :=
  u16 (tf_gs tf) = tf_gs tf ∧ u16 (tf_fs tf) = tf_fs tf ∧ u16 (tf_es tf) = tf_es tf ∧ u16 (tf_ds tf) = tf_ds tf ∧
  u16 (tf_cs tf) = tf_cs tf ∧ u16 (tf_ss tf) = tf_ss tf.

Lemma frame_at_words m a tf : stack m a (frame_words tf true) → short_segs tf → frame_at m a = tf.
Proof.
  intros Hs (G1 & G2 & G3 & G4 & G5 & G6). destruct tf. cbn in *. unfold frame_at.
  repeat match goal with
  | |- context [load32 m (a + 4 * ?k)] => rewrite (Hs (Z.to_nat k) _ eq_refl : load32 m (a + 4 * k) = _)
  end.
  by rewrite G1, G2, G3, G4, G5, G6.
Qed.

(** An interrupt of user code calls [trap] with the address of a [struct trapframe] that holds
    the user's registers, in kernel mode with the kernel's segments. *)
Lemma trap_entry g ts n e s :
  machine_ok s → cpl s = 3 → gd_cs g = 8 → 0 ≤ n < 256 → 0 ≤ e < 4294967296 → 100 ≤ ts_esp0 ts < 4294967200 →
  let s' := entered g ts n e s in
  let a := ts_esp0 ts - 76 in
  top_word s' = a ∧ regs s' ESP = a - 4 ∧ frame_at (ram s') a = frame_of n (frame_error n e) (a + 32) s ∧
  cpl s' = 0 ∧ segs s' DS = 16 ∧ segs s' ES = 16 ∧ segs s' FS = 24 ∧ segs s' GS = 24 ∧ segs s' SS = ts_ss0 ts.
Proof.
  intros Hm Hc Hcs Hn He Ht s' a. assert (Ea : frame_addr ts s = a) by (unfold frame_addr; by rewrite Hc).
  destruct (entered_rule g ts n e s) as (v & Hv & Hw & Hp & (D1 & D2 & D3 & D4 & D5) & D6); [done..|lia|].
  rewrite Hc in D6. fold s' in Hv. unfold entry_words in Hw. rewrite Ea, Hc in *. cbn in Hw.
  pose proof (st_words s' v Hv) as Hs. rewrite Hw, Hp in Hs.
  unfold top_word, cpl. rewrite !(st_segs s' v Hv), (st_regs s' v Hv), D1, D2, D3, D4, D5, D6, Hp.
  split_and!; try done.
  - pose proof (Hs 0%nat a eq_refl) as E. by rewrite Z.mul_0_r, Z.add_0_r in E.
  - apply stack_tail in Hs. rewrite Z.sub_add in Hs. apply frame_at_words; [exact Hs|].
    destruct Hm as [_ Hg _ _]. split_and!; apply u16_small, Hg.
Qed.

(** [trapret] continues the user code with the registers of the trap frame it finds on the
    stack, whatever [trap] or [fork] has written there. *)
Lemma trapret_rule s a :
  regs s ESP = a → 0 ≤ a < 4294967200 → cpl s = 0 → Z.land (tf_cs (frame_at (ram s) a)) 3 = 3 →
  restored (frame_at (ram s) a) (exec_code trapret s).
Proof.
  intros Ea Ha Hc Hu. set (w i := load32 (ram s) (a + 4 * i)).
  set (tf := mkTf (w 0) (w 1) (w 2) (w 3) (w 4) (w 5) (w 6) (w 7) (w 8) (w 9) (w 10) (w 11) (w 12) (w 13)
               (w 14) (w 15) (w 16) (w 17) (w 18)).
  set (v := mkView (regs s) (segs s) (eip s) (eflags s) (frame_words tf true)).
  assert (Hv : stands s v).
  { split; try done. cbn [v v_regs v_words]. rewrite Ea. intros i x Hi.
    do 19 (destruct i as [|i]; [by injection Hi as <-|]). done. }
  pose proof (trapret_view tf v) as T. cbn zeta in T. change (Z.land (u16 (tf_cs tf)) 3 = 3) in Hu. rewrite Hu in T.
  destruct T as [H1 R]; [done|cbn; lia|done|]. destruct (exec_view trapret s v Hv H1) as [E1 E2 E3 E4 _].
  set (v' := foldl v_step v trapret) in *. set (s' := exec_code trapret s) in *. clearbody s' v'.
  destruct R as [R1 R2 R3 R4 R5]. split; rewrite ?E1, ?E2, ?E3, ?E4.
  - split_and!; try apply R1. exact R2.
  - split_and!; try apply R3. exact R4.
  - exact R5.
Qed.

(** *** The interrupt descriptor table *)

Lemma tvinit_lookup vectors n :
  0 ≤ n < 256 →
  tvinit vectors !! Z.to_nat n =
    Some (if n =? T_SYSCALL then SETGATE true 8 (vectors T_SYSCALL) 3 else SETGATE false 8 (vectors n) 0).
Proof.
  intros Hn. unfold tvinit. destruct (Z.eqb_spec n T_SYSCALL) as [->|Hs].
  - rewrite list_lookup_insert_eq; [done|]. rewrite length_fmap, length_seq. unfold T_SYSCALL. lia.
  - rewrite list_lookup_insert_ne by (unfold T_SYSCALL in *; lia).
    rewrite list_lookup_fmap, lookup_seq_lt by lia. cbn [fmap option_fmap option_map]. by rewrite Nat.add_0_l, Z2Nat.id by lia.
Qed.

Lemma gate_offset_set b sel off d : 0 ≤ off < 4294967296 → gate_offset (SETGATE b sel off d) = off.
Proof.
  intros H. unfold gate_offset, SETGATE. cbn [gd_off_15_0 gd_off_31_16].
  change 65535 with (Z.ones 16). rewrite Z.land_ones, Z.shiftr_div_pow2 by lia.
  change (2 ^ 16) with 65536. zmod_lia.
Qed.

Lemma base_of c :
  0 ≤ c < 4294967296 → Z.land c 65535 + 65536 * Z.land (Z.shiftr c 16) 255 + 16777216 * Z.shiftr c 24 = c.
Proof.
  intros Hc. change 65535 with (Z.ones 16). change 255 with (Z.ones 8). rewrite !Z.land_ones, !Z.shiftr_div_pow2 by lia.
  change (2 ^ 16) with 65536. change (2 ^ 8) with 256. change (2 ^ 24) with 16777216. zmod_lia.
Qed.

Lemma deliver_gate g ts err s :
  segs (deliver g ts err s) CS = gd_cs g ∧ eip (deliver g ts err s) = gate_offset g ∧
  eflags (deliver g ts err s) =
    (if gd_type g =? STS_IG32 then Z.land (eflags s) (Z.lnot FL_IF) else eflags s).
Proof.
  assert (F : ∀ x m, eflags (push_word x m) = eflags m) by done.
  unfold deliver, switch_stack. destruct (gd_type g =? STS_IG32), err, (_ <? _); split_and!; done.
Qed.

(** Code without a push or a store leaves the memory alone. *)
Definition writes (i : instr) : bool := match i with Pushl _ | Pushal | Store _ _ => true | _ => false end.

Lemma exec_ram code s : forallb (negb ∘ writes) code → ram (exec_code code s) = ram s.
Proof.
  revert s. induction code as [|i code IH]; intros s; [done|]. cbn [forallb]. intros [Hi Hc]%andb_True.
  rewrite exec_cons, IH by done. destruct i; try (by destruct Hi); try done; cbn [step].
  unfold iret. by destruct (_ =? _).
Qed.

(** The return to user code after a system call, with the [ret] of the stub. *)
Lemma return_rule s a tf :
  regs s ESP = a - 4 → 24 ≤ a < 4294967200 → cpl s = 0 → frame_at (ram s) a = tf → Z.land (tf_cs tf) 3 = 3 →
  restored tf (exec_code alltraps_return s) ∧ ram (exec_code alltraps_return s) = ram s.
Proof.
  intros Hp Ha Hc Hf Hu. split; [|by apply exec_ram]. unfold alltraps_return. rewrite exec_cons.
  set (s1 := step s (Addl_esp 4)).
  assert (E : regs s1 ESP = a) by (cbn; rewrite decide_True, Hp, u32_small by (done || lia); lia).
  subst tf. apply (trapret_rule s1 a E); [lia|done|done].
Qed.

(** User code at the system call: the number in [eax], the next instruction the [ret]. *)
Definition calling (num : Z) (s : machine) : machine := set_eip (eip s + 7) (set_reg EAX num s).

Lemma calling_ok num s : machine_ok s → 0 ≤ num < 4294967296 → eip s + 7 < 4294967296 → machine_ok (calling num s).
Proof.
  intros [Hr Hg Hi Hf] Hn He. split; cbn; [|done|lia|done]. intros r. by case_decide.
Qed.

Lemma stub_ret n err o num r s t :
  restored (set_tf_eax r (frame_of n err o (calling num s))) t → 0 ≤ regs s ESP < 4294967200 →
  let t' := step t Ret in
  eip t' = load32 (ram t) (regs s ESP) ∧ regs t' EAX = r ∧ regs t' ESP = regs s ESP + 4 ∧
  (∀ q, q ≠ EAX → q ≠ ESP → regs t' q = regs s q) ∧ (∀ q, segs t' q = segs s q) ∧ eflags t' = eflags s.
Proof.
  intros [E1 E2 E3] Hp t'. cbn in E1, E2, E3. cbn. unfold top_word.
  destruct E1 as (E1 & F1 & G1 & H1 & I1 & J1 & K1 & L1).
  rewrite decide_False, decide_True, L1, K1 by done. split_and!; try done.
  - apply u32_small. lia.
  - intros q Hq1 Hq2. rewrite decide_False by done. by destruct q.
  - intros q. destruct q; apply E2.
  - apply E3.
Qed.

Lemma stub_rule vectors ts num s :
  machine_ok s → cpl s = 3 → eip s + 7 < 4294967296 →
  stub (tvinit vectors) ts num s = Some (deliver (SETGATE true 8 (vectors T_SYSCALL) 3) ts None (calling num s)).
Proof.
  intros Hm Hc He. unfold stub, int_n. rewrite (tvinit_lookup vectors T_SYSCALL) by (unfold T_SYSCALL; lia).
  cbn [mbind option_bind]. change (T_SYSCALL =? T_SYSCALL) with true. cbv iota.
  change (cpl (set_eip _ (step s _))) with (cpl s). rewrite Hc. change (gd_dpl _ <? 3) with false. cbv iota.
  f_equal. unfold calling. cbn [step]. f_equal. pose proof (mo_eip s Hm).
  change (eip (set_eip ?x _)) with x.
  unfold set_eip. cbn [regs segs eflags ram eip value]. rewrite !u32_small by (rewrite ?u32_small; lia).
  by replace (eip s + 5 + 2) with (eip s + 7) by lia.
Qed.

(** *** The context switch *)

Definition swtch_save : list instr :=
  [Load 4 ESP EAX; Load 8 ESP EDX; Pushl (Reg EBP); Pushl (Reg EBX); Pushl (Reg ESI); Pushl (Reg EDI)].
Definition swtch_load : list instr := [Popl_r EDI; Popl_r ESI; Popl_r EBX; Popl_r EBP; Ret].

Lemma swtch_split : swtch = swtch_save ++ [Store ESP EAX; Movl (Reg EDX) ESP] ++ swtch_load.
Proof. reflexivity. Qed.

Lemma exec_app c1 c2 s : exec_code (c1 ++ c2) s = exec_code c2 (exec_code c1 s).
Proof. apply foldl_app. Qed.

(** Pushes and loads change no memory above the stack pointer, nor far below. *)
Fixpoint pushed (code : list instr) : option Z :=
  match code with
  | [] => Some 0
  | Pushl _ :: code => n ← pushed code; Some (n + 4)
  | Load _ _ _ :: code => pushed code
  | _ => None
  end.

Lemma pushed_nonneg code n : pushed code = Some n → 0 ≤ n.
Proof.
  revert n. induction code as [|i code IH]; intros n; [by intros [= <-]|]. destruct i; try done; cbn [pushed]; [|apply IH].
  destruct (pushed code); [|done]. intros [= <-]. specialize (IH _ eq_refl). lia.
Qed.

Lemma exec_outside code n s v x :
  stands s v → v_safes code v → pushed code = Some n → x + 4 ≤ v_regs v ESP - n ∨ v_regs v ESP ≤ x →
  load32 (ram (exec_code code s)) x = load32 (ram s) x.
Proof.
  revert n s v. induction code as [|i code IH]; intros n s v Hs Hv Hf Hx; [done|].
  destruct Hv as [H1 H2]. rewrite exec_cons. destruct i; try done; cbn [pushed] in Hf.
  - destruct (pushed code) as [k|] eqn:Ek; [|done]. injection Hf as <-. assert (0 ≤ k) by exact (pushed_nonneg code k Ek).
    rewrite (IH k _ _ (stands_step _ s v Hs H1) H2); [|done..|cbn; rewrite decide_True by done; lia].
    cbn in H1. unfold room in H1. cbn. rewrite (st_regs s v Hs), u32_small by lia. apply load32_store32_ne. lia.
  - rewrite (IH n _ _ (stands_step _ s v Hs H1) H2); [done..|].
    destruct H1 as (_ & Hr & _). cbn. by rewrite decide_False by congruence.
Qed.

Lemma save_view v ret old new :
  v_words v = [ret; old; new] → 24 ≤ v_regs v ESP < 4294967200 →
  let v' := foldl v_step v swtch_save in
  v_safes swtch_save v ∧ v_regs v' ESP = v_regs v ESP - 16 ∧ v_regs v' EAX = old ∧ v_regs v' EDX = new ∧
  v_words v' = [u32 (v_regs v EDI); u32 (v_regs v ESI); u32 (v_regs v EBX); u32 (v_regs v EBP); ret; old; new].
Proof.
  destruct v as [rs sg ip fl ws]. cbn. intros -> Hp. view_eval. view_done.
Qed.

Lemma load_view v c :
  v_words v = [ctx_edi c; ctx_esi c; ctx_ebx c; ctx_ebp c; ctx_eip c] → 0 ≤ v_regs v ESP < 4294967200 →
  let v' := foldl v_step v swtch_load in
  v_safes swtch_load v ∧ v_regs v' ESP = v_regs v ESP + 20 ∧ v_regs v' EDI = ctx_edi c ∧ v_regs v' ESI = ctx_esi c ∧
  v_regs v' EBX = ctx_ebx c ∧ v_regs v' EBP = ctx_ebp c ∧ v_eip v' = ctx_eip c.
Proof.
  destruct v as [rs sg ip fl ws], c. cbn. intros -> Hp. view_eval. view_done.
Qed.

(** A call of [swtch(old, new)] with the stack pointer at [a], its two stacks and the place of
    the pointer apart. *)
Record switching (s : machine) (a ret old new : Z) : Prop := {
  sw_ok : machine_ok s;
  sw_esp : regs s ESP = a;
  sw_args : stack (ram s) a [ret; old; new];
  sw_room : 24 ≤ a < 4294967200 ∧ 0 ≤ new < 4294967200;
  sw_stacks : new + 20 ≤ a - 16 ∨ a ≤ new;
  sw_old : (old + 4 ≤ a - 16 ∨ a + 12 ≤ old) ∧ (old + 4 ≤ new ∨ new + 20 ≤ old)
}.

(** The registers a C function must preserve, with the place it returns to. *)
Definition kept (s : machine) (ret : Z) : context := mkContext (regs s EDI) (regs s ESI) (regs s EBX) (regs s EBP) ret.

Lemma store_switch s a ret old new s1 v1 :
  switching s a ret old new → stands s1 v1 → v_regs v1 ESP = a - 16 → v_regs v1 EAX = old → v_regs v1 EDX = new →
  v_words v1 = [u32 (regs s EDI); u32 (regs s ESI); u32 (regs s EBX); u32 (regs s EBP); ret; old; new] →
  (∀ x, x + 4 ≤ a - 16 ∨ a ≤ x → load32 (ram s1) x = load32 (ram s) x) →
  let s' := exec_code [Store ESP EAX; Movl (Reg EDX) ESP] s1 in
  load32 (ram s') old = a - 16 ∧ context_at (ram s') (a - 16) = kept s ret ∧
  context_at (ram s') new = context_at (ram s) new ∧ regs s' ESP = new.
Proof.
  intros [[Hr _ _ _] Hp Hs [Ha Hn] Hst [Ho1 Ho2]] Hv' H2 H3 H4 H5 Ho s'.
  assert (R : ram s' = store32 (ram s1) old (u32 (a - 16))).
  { cbn. rewrite !(st_regs s1 v1 Hv'), H3, H2. by rewrite u32_small by lia. }
  pose proof (st_words s1 v1 Hv') as Hw. rewrite H2, H5, !u32_small in Hw by apply Hr.
  unfold context_at. rewrite R, load32_store32, !load32_store32_ne by lia.
  split_and!; [apply u32_small; lia| | |].
  - unfold kept. f_equal; [rewrite <- (Hw 0%nat _ eq_refl)|rewrite <- (Hw 1%nat _ eq_refl)|rewrite <- (Hw 2%nat _ eq_refl)|
      rewrite <- (Hw 3%nat _ eq_refl)|rewrite <- (Hw 4%nat _ eq_refl)]; f_equal; lia.
  - by rewrite !Ho by lia.
  - cbn. rewrite decide_True by done. by rewrite (st_regs s1 v1 Hv'), H4.
Qed.

Lemma saved_rule s a ret old new :
  switching s a ret old new →
  let s' := exec_code [Store ESP EAX; Movl (Reg EDX) ESP] (exec_code swtch_save s) in
  load32 (ram s') old = a - 16 ∧ context_at (ram s') (a - 16) = kept s ret ∧
  context_at (ram s') new = context_at (ram s) new ∧ regs s' ESP = new.
Proof.
  intros Hsw. pose proof (sw_esp s a ret old new Hsw) as Hp.
  set (v := mkView (regs s) (segs s) (eip s) (eflags s) [ret; old; new]).
  assert (Hv : stands s v) by (split; try done; cbn [v v_regs v_words]; rewrite Hp; apply Hsw).
  assert (Ev : v_regs v ESP = a) by exact Hp.
  destruct (save_view v ret old new) as (H1 & H2 & H3 & H4 & H5); [done|rewrite Ev; apply Hsw|].
  rewrite Ev in H2.
  apply (store_switch s a ret old new _ _ Hsw (exec_view _ s v Hv H1) H2 H3 H4 H5).
  intros x Hx. apply (exec_outside swtch_save 16 s v x Hv H1 eq_refl). by rewrite Ev.
Qed.

Lemma swtch_rule s a ret old new :
  switching s a ret old new →
  let s' := exec_code swtch s in
  load32 (ram s') old = a - 16 ∧ context_at (ram s') (a - 16) = kept s ret ∧
  kept s' (eip s') = context_at (ram s) new ∧ regs s' ESP = new + 20.
Proof.
  intros Hsw s'. destruct (saved_rule s a ret old new Hsw) as (H1 & H2 & H3 & H4).
  assert (E : s' = exec_code swtch_load (exec_code [Store ESP EAX; Movl (Reg EDX) ESP] (exec_code swtch_save s)))
    by (unfold s'; rewrite swtch_split, !exec_app; reflexivity).
  set (s1 := exec_code [_; _] _) in *. rewrite E. clear E. clearbody s1.
  set (c := context_at (ram s1) new) in *.
  set (v := mkView (regs s1) (segs s1) (eip s1) (eflags s1) [ctx_edi c; ctx_esi c; ctx_ebx c; ctx_ebp c; ctx_eip c]).
  assert (Hv : stands s1 v).
  { split; try done. cbn. rewrite H4. intros i w Hi.
    do 5 (destruct i as [|i]; [injection Hi as <-; cbn; f_equal; lia|]). done. }
  destruct (load_view v c) as (L1 & L2 & L3 & L4 & L5 & L6 & L7); [done|cbn; rewrite H4; apply Hsw|].
  destruct (exec_view _ s1 v Hv L1) as [E1 _ E3 _ _]. rewrite exec_ram by done.
  unfold kept. rewrite !E1, E3, L2, L3, L4, L5, L6, L7. cbn. rewrite H4. by rewrite <- H3.
Qed.

(** *** The handler *)

(** After the call: the stack is as the entry code left it, but for the argument. *)
Lemma handled_view trap g ts n e s :
  machine_ok s → gd_cs g = 8 → 0 ≤ n < 256 → 0 ≤ e < 4294967296 → 24 ≤ frame_addr ts s < 4294967200 →
  let a := frame_addr ts s in
  let t := trap (entered g ts n e s) in
  handled a (frame_size s) (entered g ts n e s) t →
  ∃ v, stands t v ∧
    v_words v = load32 (ram t) (a - 4) :: frame_words (frame_of n (frame_error n e) (a + 32) s) (0 <? cpl s) ∧
    v_regs v ESP = a - 4 ∧ v_segs v CS = 8 ∧ v_segs v SS = (if 0 <? cpl s then ts_ss0 ts else segs s SS).
Proof.
  intros Hm Hcs Hn He Ha a t [Hp Hc Hs Hf].
  destruct (entered_rule g ts n e s Hm Hcs Hn He Ha) as (v & Hv & Hw & Hv4 & (_ & _ & _ & _ & D5) & D6).
  fold a in Hw, Hv4. set (fw := frame_words (frame_of n (frame_error n e) (a + 32) s) (0 <? cpl s)).
  pose proof (st_words _ v Hv) as Hst. rewrite Hw, Hv4 in Hst. apply stack_tail in Hst. rewrite Z.sub_add in Hst.
  assert (Hfw : stack (ram t) a fw).
  { intros i x Hi. rewrite <- (Hst i x Hi).
    assert (Hl : 4 * Z.of_nat (length fw) = frame_size s) by (unfold fw, frame_size; by destruct (0 <? cpl s)).
    pose proof (lookup_lt_Some _ _ _ Hi). unfold load32. by rewrite !Hf by lia. }
  exists (mkView (regs t) (segs t) (eip t) (eflags t) (load32 (ram t) (a - 4) :: fw)). cbn [v_words v_regs v_segs].
  assert (Ep : regs t ESP = a - 4) by (by rewrite Hp, (st_regs _ v Hv)).
  split_and!; [|done|exact Ep|by rewrite Hc, (st_segs _ v Hv)|by rewrite Hs, (st_segs _ v Hv)].
  split; try done. cbn [v_regs v_words]. rewrite Ep. intros [|i] x Hi.
  - injection Hi as <-. f_equal. lia.
  - rewrite <- (Hfw i x Hi). f_equal. lia.
Qed.

(** ** Theorems *)

(** C19: an interrupt whose handler leaves the trap frame alone leaves no trace in the interrupted
    code, user code or kernel code: all registers are as before.  The handler is any function
    that comes back with the stack pointer and the segments [cs] and [ss] it was called with
    and the same bytes in the frame; it may leave anything in the other registers, in the flags
    and in the rest of the memory, the argument of the call included. *)
Theorem trap_roundtrip trap g ts n e s :
  machine_ok s → gd_cs g = 8 → 0 ≤ n < 256 → 0 ≤ e < 4294967296 → 24 ≤ frame_addr ts s < 4294967200 →
  handled (frame_addr ts s) (frame_size s) (entered g ts n e s) (trap (entered g ts n e s)) →
  let s' := interrupt trap g ts n e s in
  (∀ r, regs s' r = regs s r) ∧ (∀ q, segs s' q = segs s q) ∧ eip s' = eip s ∧ eflags s' = eflags s.
Proof.
  intros Hm Hcs Hn He Ha Hh s'. set (a := frame_addr ts s) in *.
  set (tf := frame_of n (frame_error n e) (a + 32) s).
  destruct (handled_view trap g ts n e s Hm Hcs Hn He Ha Hh) as (v & Hv & Hw & Hp & D5 & D6).
  fold tf in Hw. set (s1 := trap (entered g ts n e s)) in *.
  assert (Es : s' = exec_code alltraps_return s1) by reflexivity. clearbody s1 s'. clear Hh.
  set (v1 := v_step v (Addl_esp 4)).
  assert (W1 : v_words v1 = frame_words tf (0 <? cpl s)) by (cbn; by rewrite Hw).
  assert (P1 : v_regs v1 ESP = a) by (cbn; rewrite decide_True by done; lia).
  pose proof (trapret_view tf v1) as T. cbn zeta in T.
  rewrite (user_frame n (frame_error n e) (a + 32) s (mo_seg s Hm CS) : negb (Z.land (u16 (tf_cs tf)) 3 =? 0) = _) in T.
  destruct T as [H1 [R1 R2 R3 R4 R5]]; [done|lia|unfold v_cpl; cbn; by rewrite D5|].
  assert (H0 : v_safe v (Addl_esp 4)).
  { cbn [v_safe]. unfold words. rewrite Hw, Hp. change (Z.of_nat (Z.to_nat 4 / 4)) with 1.
    split_and!; [lia|done|cbn; lia|lia|lia]. }
  destruct (exec_view trapret _ v1 (stands_step _ s1 v Hv H0) H1) as [E1 E2 E3 E4 _].
  rewrite <- (exec_cons (Addl_esp 4) trapret s1) in E1, E2, E3, E4. fold alltraps_return in E1, E2, E3, E4. rewrite <- Es in E1, E2, E3, E4. clear Es.
  set (v' := foldl v_step v1 trapret) in *. clearbody v'.
  rewrite E3, E4. split_and!; [| |apply R5..].
  - intros r. rewrite E1. destruct r; try apply R1. rewrite R2, P1. unfold a, frame_addr. destruct (0 <? cpl s); [done|lia].
  - intros q. rewrite E2. destruct Hm as [_ Hg _ _].
    destruct q; try (etransitivity; [apply R3|by apply u16_small]).
    rewrite R4. change (v_segs v1 SS) with (v_segs v SS). rewrite D6. destruct (0 <? cpl s); [by apply u16_small|done].
Qed.

(** C20: user code that executes [int n] gets into the kernel through the gate of the system
    call only; any other [n] is a general protection fault, taken with interrupts off. *)
Theorem user_int_safe vectors ts n s :
  cpl s = 3 → 0 ≤ n < 256 → (∀ i, 0 ≤ i < 256 → 0 ≤ vectors i < 4294967296) →
  ∃ s', int_n (tvinit vectors) ts n s = Some s' ∧ cpl s' = 0 ∧
    if n =? T_SYSCALL then eip s' = vectors T_SYSCALL ∧ eflags s' = eflags s
    else eip s' = vectors T_GPFLT ∧ Z.testbit (eflags s') 9 = false.
Proof.
  intros Hc Hn Hv. unfold int_n.
  rewrite (tvinit_lookup vectors n), (tvinit_lookup vectors T_GPFLT) by (done || (unfold T_GPFLT; lia)).
  cbn [mbind option_bind]. rewrite Hc.
  destruct (n =? T_SYSCALL) eqn:E; cbn [gd_dpl SETGATE].
  - change (3 <? 3) with false. cbv iota. eexists. split; [reflexivity|].
    destruct (deliver_gate (SETGATE true 8 (vectors T_SYSCALL) 3) ts None (set_eip (u32 (eip s + 2)) s)) as (D1 & D2 & D3).
    rewrite D2, D3, gate_offset_set by (apply Hv; done). unfold cpl. by rewrite D1.
  - change (0 <? 3) with true. cbv iota. eexists. split; [reflexivity|].
    change (T_GPFLT =? T_SYSCALL) with false. cbv iota.
    destruct (deliver_gate (SETGATE false 8 (vectors T_GPFLT) 0) ts (Some (8 * n + 2)) s) as (D1 & D2 & D3).
    rewrite D2, D3, gate_offset_set by (apply Hv; done). unfold cpl. rewrite D1. split_and!; try done.
    change (gd_type _ =? STS_IG32) with true. cbv iota. rewrite Z.land_spec. apply andb_false_r.
Qed.

(** the segments a CPU runs with: code and data of the kernel and of user code are the whole
    address space, with the privilege of each, and the per-CPU segment starts at the [cpu] field. *)
Theorem seginit_correct c gdt :
  length gdt = NSEGS → 0 ≤ c < 4294967296 →
  let flat i type dpl := ∃ d, seginit c gdt !! i = Some d ∧ seg_base d = 0 ∧ seg_limit d = 4294967295 ∧
                              sd_type d = type ∧ sd_dpl d = dpl ∧ sd_p d = 1 in
  flat 1%nat 10 0 ∧ flat 2%nat 2 0 ∧ flat 4%nat 10 3 ∧ flat 5%nat 2 3 ∧
  (∃ d, seginit c gdt !! 3%nat = Some d ∧ seg_base d = c ∧ 8 ≤ seg_limit d ∧ sd_dpl d = 0 ∧ sd_p d = 1) ∧
  seginit c gdt !! 0%nat = gdt !! 0%nat ∧ seginit c gdt !! 6%nat = gdt !! 6%nat ∧
  ∃ d, switchuvm_gdt c gdt !! 6%nat = Some d ∧ seg_base d = c ∧ seg_limit d = 103 ∧ sd_s d = 0 ∧ sd_dpl d = 0.
Proof.
  intros Hl Hc flat. do 7 (destruct gdt as [|? gdt]; [done|]). destruct gdt; [|done].
  split_and!; try (eexists; split_and!; reflexivity); try reflexivity.
  - eexists. split; [reflexivity|]. split_and!; try done. by apply base_of.
  - eexists. split; [reflexivity|]. split_and!; try done. by apply base_of.
Qed.

(** C21: [swtch] leaves a [struct context] with the registers a C function preserves where [old]
    points to, and continues with the registers of [new]; a later [swtch] to the saved context
    returns from the first call with those registers and the stack as it was. *)
Theorem swtch_correct s a ret old new :
  switching s a ret old new →
  let s' := exec_code swtch s in
  load32 (ram s') old = a - 16 ∧ context_at (ram s') (a - 16) = kept s ret ∧
  kept s' (eip s') = context_at (ram s) new ∧ regs s' ESP = new + 20 ∧
  ∀ t b ret' old', switching t b ret' old' (a - 16) → context_at (ram t) (a - 16) = context_at (ram s') (a - 16) →
    let t' := exec_code swtch t in kept t' (eip t') = kept s ret ∧ regs t' ESP = a + 4.
Proof.
  intros Hs s'. destruct (swtch_rule s a ret old new Hs) as (H1 & H2 & H3 & H4). fold s' in H1, H2, H3, H4.
  split_and!; [done..|]. intros t b ret' old' Ht E t'.
  destruct (swtch_rule t b ret' old' (a - 16) Ht) as (_ & _ & K & P). fold t' in K, P.
  split; [by rewrite K, E|rewrite P; lia].
Qed.

(** C15: a system call from its stub in user code to the kernel and back: [trap] gets a frame
    at the top of the process's kernel stack with the number of the call in [eax] and the trap number, and when the kernel has put the
    result in the frame's [eax] and returns, user code returns from the stub with it, all other
    registers as they were. *)
Theorem system_call_correct vectors kstack num s :
  machine_ok s → cpl s = 3 → regs s ESP < 4294967200 → eip s + 7 < 4294967296 → 0 ≤ num < 4294967296 →
  0 ≤ kstack < 4294960000 → 0 ≤ vectors T_SYSCALL < 4294967296 →
  let ts := switchuvm_tss kstack in
  let a := kstack + KSTACKSIZE - 76 in
  let tf := frame_of T_SYSCALL 0 (a + 32) (calling num s) in
  ∃ s1, stub (tvinit vectors) ts num s = Some s1 ∧ eip s1 = vectors T_SYSCALL ∧
    (let s2 := exec_code (vector T_SYSCALL ++ alltraps) s1 in
     top_word s2 = a ∧ frame_at (ram s2) a = tf ∧ tf_eax tf = num ∧ tf_trapno tf = T_SYSCALL) ∧
    ∀ s3 r, regs s3 ESP = a - 4 → cpl s3 = 0 → frame_at (ram s3) a = set_tf_eax r tf →
      let s4 := step (exec_code alltraps_return s3) Ret in
      eip s4 = load32 (ram s3) (regs s ESP) ∧ regs s4 EAX = r ∧ regs s4 ESP = regs s ESP + 4 ∧
      (∀ q, q ≠ EAX → q ≠ ESP → regs s4 q = regs s q) ∧ (∀ q, segs s4 q = segs s q) ∧ eflags s4 = eflags s.
Proof.
  intros Hm Hc Hp He Hn Ht Hv ts a tf.
  assert (Ets : ts_esp0 ts = kstack + KSTACKSIZE) by (apply u32_small; unfold KSTACKSIZE; lia).
  pose proof (calling_ok num s Hm Hn He) as Hm'.
  eexists. split_and!; [by apply stub_rule| | |].
  - destruct (deliver_gate (SETGATE true 8 (vectors T_SYSCALL) 3) ts None (calling num s)) as (_ & -> & _).
    by apply gate_offset_set.
  - destruct (trap_entry (SETGATE true 8 (vectors T_SYSCALL) 3) ts T_SYSCALL 0 (calling num s)) as (T1 & _ & T2 & _);
      [done..|unfold T_SYSCALL; lia|lia|unfold KSTACKSIZE in *; lia|].
    rewrite entered_syscall in T1, T2. rewrite Ets in T1, T2. split_and!; [exact T1|exact T2|done|done].
  - intros s3 r R1 R2 R3. destruct (return_rule s3 a _ R1 ltac:(unfold a, KSTACKSIZE; lia) R2 R3 Hc) as [E1 E2]. rewrite <- E2.
    apply (stub_ret T_SYSCALL 0 (a + 32) num); [exact E1|]. pose proof (mo_reg s Hm ESP). lia.
Qed.

(** ** Witnesses *)

(** User code at address 100, and a kernel stack. *)
Definition demo_user : machine :=
  mkMachine (λ r, match r with ESP => 12280 | EAX => 7 | EBX => 3 | _ => 0 end) (λ g, match g with CS => 27 | _ => 35 end)
    100 512 (λ _, 0).
Definition demo_tss : tss := mkTss 16 2147491840.
Definition demo_vectors (n : Z) : Z := 2148532224 + 8 * n.

Lemma demo_user_ok : machine_ok demo_user.
Proof. split; [intros []|intros []| |]; cbn; lia. Qed.

(** A handler that leaves other values in every register it may change, and in the word below
    the frame. *)
Definition demo_trap (s : machine) : machine :=
  mkMachine (λ r, if decide (r = ESP) then regs s ESP else 4242) (λ g, match g with CS => segs s CS | SS => segs s SS | _ => 77 end)
    9999 0 (store32 (ram s) (regs s ESP) 1).

Lemma demo_trap_handled a len s : regs s ESP = a - 4 → handled a len s (demo_trap s).
Proof. intros E. split; [done..|]. intros x Hx. cbn [demo_trap ram]. unfold store32. by rewrite !mupd_ne by lia. Qed.

Lemma trap_roundtrip_witness :
  let s' := interrupt demo_trap (SETGATE false 8 (demo_vectors 32) 0) demo_tss 32 0 demo_user in
  (∀ r, regs s' r = regs demo_user r) ∧ eip s' = 100.
Proof.
  destruct (trap_roundtrip demo_trap (SETGATE false 8 (demo_vectors 32) 0) demo_tss 32 0 demo_user) as (H1 & _ & H3 & _).
  - apply demo_user_ok.
  - reflexivity.
  - lia.
  - lia.
  - vm_compute; split; [discriminate|reflexivity].
  - apply demo_trap_handled. vm_compute. reflexivity.
  - split; [exact H1|exact H3].
Defined.

Lemma demo_vectors_ok n : 0 ≤ n < 256 → 0 ≤ demo_vectors n < 4294967296.
Proof. unfold demo_vectors. lia. Qed.

Lemma user_int_safe_witness :
  ∃ s', int_n (tvinit demo_vectors) demo_tss 32 demo_user = Some s' ∧ eip s' = demo_vectors 13.
Proof.
  destruct (user_int_safe demo_vectors demo_tss 32 demo_user) as (s' & H1 & _ & H2 & _).
  - reflexivity.
  - lia.
  - exact demo_vectors_ok.
  - exists s'. split; [exact H1|exact H2].
Defined.

Lemma system_call_correct_witness :
  ∃ s1, stub (tvinit demo_vectors) (switchuvm_tss 2147487744) 11 demo_user = Some s1 ∧ eip s1 = demo_vectors T_SYSCALL.
Proof.
  destruct (system_call_correct demo_vectors 2147487744 11 demo_user) as (s1 & H1 & H2 & _).
  - apply demo_user_ok.
  - reflexivity.
  - cbn. lia.
  - cbn. lia.
  - lia.
  - lia.
  - unfold demo_vectors, T_SYSCALL. lia.
  - exists s1. split; [exact H1|exact H2].
Defined.

(** A kernel thread at the call [swtch(16384, 4096)]. *)
Definition demo_thread : machine :=
  mkMachine (λ r, match r with ESP => 8192 | EBX => 3 | _ => 0 end) (λ _, 16) 100 512
    (store32 (store32 (store32 (store32 (λ _, 0) 8192 500) 8196 16384) 8200 4096) 4112 900).

Lemma demo_thread_switching : switching demo_thread 8192 500 16384 4096.
Proof.
  split; try lia; try done.
  - split; [intros []|intros g| |]; cbn; lia.
  - intros [|[|[|i]]] w Hi; [injection Hi as <-; vm_compute; reflexivity..|done].
Qed.

Lemma swtch_correct_witness :
  let s' := exec_code swtch demo_thread in load32 (ram s') 16384 = 8176 ∧ eip s' = 900 ∧ regs s' ESP = 4116.
Proof.
  destruct (swtch_correct demo_thread 8192 500 16384 4096 demo_thread_switching) as (H1 & _ & H2 & H3 & _).
  split; [exact H1|]. split; [|exact H3]. exact (f_equal ctx_eip H2).
Defined.
