(* ===== verification/FsPath.v ===== *)
(** * Path names

    [skipelem] of src/fs.c, on the bytes in memory, against the reference definition
    [elements]: the parts of a path between slashes that are not empty.  The length of
    the rest of the path bounds the loop of [namex]. *)

From S2P Require Import Prelude Param KString Fs.
Local Open Scope Z_scope.

(** ** Definitions *)

(** The parts of a path between slashes. *)
Fixpoint split_path (p : list Z) : list (list Z) :=
  match p with
  | [] => [[]]
  | c :: p' =>
      if c =? slash then [] :: split_path p'
      else match split_path p' with e :: es => (c :: e) :: es | [] => [[c]] end
  end.

Definition elements (p : list Z) : list (list Z) := filter (λ e, e ≠ []) (split_path p).

(** The buffer [name] after an element [e] has been copied to it: [DIRSIZ] bytes of a
    longer element, and a terminating NUL if there is room for one. *)
Definition name_field (e : list Z) : list Z := take (Z.to_nat DIRSIZ) (e ++ [0]).

(** The copying step of [skipelem]. *)
Definition copy_name (m : mem) (name s len : Z) : mem :=
  if len >=? DIRSIZ then memmove m name s DIRSIZ
  else mupd (memmove m name s len) (name + len) 0.

(** ** Lemmas *)

Lemma elements_slash p : elements (slash :: p) = elements p.
Proof. unfold elements. cbn [split_path]. rewrite Z.eqb_refl. done. Qed.

Lemma elements_slashes k p : elements (replicate k slash ++ p) = elements p.
Proof. induction k as [|k IH]; [done|]. cbn [replicate app]. by rewrite elements_slash. Qed.

Lemma split_path_cons p : ∃ e es, split_path p = e :: es.
Proof.
  induction p as [|c p (e & es & IH)]; [by eexists _, _|]. cbn. destruct (c =? slash); [by eexists _, _|].
  rewrite IH. by eexists _, _.
Qed.

Lemma split_path_elem e p :
  slash ∉ e → p = [] ∨ head p = Some slash →
  split_path (e ++ p) = e :: tail (split_path p).
Proof.
  induction e as [|c e IH]; intros He Hp.
  - destruct Hp as [-> | Hp]; [done|]. destruct p as [|c p]; [done|]. injection Hp as ->.
    cbn. done.
  - cbn [app split_path]. destruct (Z.eqb_spec c slash) as [->|]; [destruct He; left|].
    rewrite IH; [done | | done]. intros H. destruct He. by right.
Qed.

Lemma elements_elem e p :
  e ≠ [] → slash ∉ e → p = [] ∨ head p = Some slash → elements (e ++ p) = e :: elements p.
Proof.
  intros Hne He Hp. unfold elements. rewrite split_path_elem by done. rewrite filter_cons_True by done.
  f_equal. destruct Hp as [-> | Hp]; [done|]. destruct p as [|c p]; [done|]. injection Hp as ->. done.
Qed.

(** *** The loops *)

Lemma cstr_app_l m a e p : cstr m a (e ++ p) → cstr m (a + Z.of_nat (length e)) p.
Proof.
  revert a. induction e as [|c e IH]; intros a H; cbn in *; [by rewrite Z.add_0_r|].
  destruct H as (_ & _ & H). apply IH in H. by replace (a + Z.of_nat (S (length e))) with (a + 1 + Z.of_nat (length e)) by lia.
Qed.

Lemma skip_slashes_ok fuel m path p :
  cstr m path p → (length p < fuel)%nat →
  ∃ k p', p = replicate k slash ++ p' ∧ head p' ≠ Some slash ∧
    skip_slashes fuel m path = Ok (path + Z.of_nat k) ∧ cstr m (path + Z.of_nat k) p'.
Proof.
  revert path p. induction fuel as [|fuel IH]; intros path p Hp Hlen; [lia|]. cbn [skip_slashes].
  destruct p as [|c p].
  - exists 0%nat, []. rewrite Z.add_0_r. cbn in Hp. rewrite Hp. done.
  - cbn in Hp. destruct Hp as (Ec & Hc & Hp). rewrite Ec. destruct (Z.eqb_spec c slash) as [->|Hs].
    + destruct (IH _ _ Hp) as (k & p' & -> & Hh & E & Hp'); [cbn in Hlen; lia|].
      exists (S k), p'. split_and!; [done | done | |].
      * rewrite E. f_equal. lia.
      * by replace (path + Z.of_nat (S k)) with (path + 1 + Z.of_nat k) by lia.
    + exists 0%nat, (c :: p). rewrite Z.add_0_r. split_and!; [done | | done | done]. cbn. congruence.
Qed.

Lemma skip_name_ok fuel m path p :
  cstr m path p → (length p < fuel)%nat →
  ∃ e p', p = e ++ p' ∧ (slash ∉ e) ∧ (p' = [] ∨ head p' = Some slash) ∧
    skip_name fuel m path = Ok (path + Z.of_nat (length e)).
Proof.
  revert path p. induction fuel as [|fuel IH]; intros path p Hp Hlen; [lia|]. cbn [skip_name].
  destruct p as [|c p].
  - exists [], []. cbn in Hp. rewrite Hp, Z.add_0_r. split_and!; [done | apply not_elem_of_nil | by left | done].
  - cbn in Hp. destruct Hp as (Ec & Hc & Hp). rewrite Ec. destruct (Z.eqb_spec c slash) as [->|Hs]; cbn [negb andb].
    + exists [], (slash :: p). rewrite Z.add_0_r. split_and!; [done | apply not_elem_of_nil | by right | done].
    + destruct (Z.eqb_spec c 0); [done|]. cbn [negb].
      destruct (IH _ _ Hp) as (e & p' & -> & He & Hh & E); [cbn in Hlen; lia|].
      exists (c :: e), p'. split_and!; [done | | done |].
      * intros [E'|Hin]%elem_of_cons; [congruence | done].
      * rewrite E. f_equal. cbn [length]. lia.
Qed.

(** *** [skipelem] *)

Lemma copy_name_frame m name s len a :
  0 ≤ len → a < name ∨ name + DIRSIZ ≤ a → copy_name m name s len a = m a.
Proof.
  intros Hlen Ha. unfold copy_name. rewrite Z.geb_leb. destruct (Z.leb_spec DIRSIZ len).
  - rewrite memmove_lookup by done. destruct (Z.leb_spec name a), (Z.ltb_spec a (name + DIRSIZ)); lia || done.
  - rewrite mupd_ne by lia. rewrite memmove_lookup by done.
    destruct (Z.leb_spec name a), (Z.ltb_spec a (name + len)); lia || done.
Qed.

Lemma copy_name_bytes m name s e p :
  cstr m s (e ++ p) →
  mread (copy_name m name s (Z.of_nat (length e))) name (length (name_field e)) = name_field e.
Proof.
  intros Hs. assert (Hm : ∀ i c, e !! i = Some c → m (s + Z.of_nat i) = c).
  { intros i c Hi. eapply cstr_lookup; [done|]. by apply lookup_app_l_Some. }
  unfold copy_name, name_field. rewrite Z.geb_leb. destruct (Z.leb_spec DIRSIZ (Z.of_nat (length e))) as [Hge|Hlt].
  - rewrite take_app_le by lia. apply list_eq. intros i. destruct (decide (i < Z.to_nat DIRSIZ)%nat) as [Hi|Hi].
    + rewrite mread_lookup by (rewrite length_take; lia). rewrite lookup_take_lt by done.
      destruct (lookup_lt_is_Some_2 e i) as [c Hc]; [lia|]. rewrite Hc, memmove_lookup by done. f_equal.
      destruct (Z.leb_spec name (name + Z.of_nat i)), (Z.ltb_spec (name + Z.of_nat i) (name + DIRSIZ)); try lia.
      cbn [andb]. rewrite <- (Hm i c Hc). f_equal. lia.
    + rewrite !lookup_ge_None_2; [done | rewrite length_take; lia | rewrite length_mread, length_take; lia].
  - rewrite take_ge by (rewrite length_app; cbn; lia). apply list_eq. intros i.
    destruct (decide (i < length e)%nat) as [Hi|Hi]; [|destruct (decide (i = length e)) as [->|Hi']].
    + rewrite mread_lookup by (rewrite length_app; cbn; lia). rewrite lookup_app_l by done.
      destruct (lookup_lt_is_Some_2 e i Hi) as [c Hc]. rewrite Hc, mupd_ne, memmove_lookup by lia. f_equal.
      destruct (Z.leb_spec name (name + Z.of_nat i)), (Z.ltb_spec (name + Z.of_nat i) (name + Z.of_nat (length e))); try lia.
      cbn [andb]. rewrite <- (Hm i c Hc). f_equal. lia.
    + rewrite mread_lookup by (rewrite length_app; cbn; lia). rewrite mupd_eq.
      by rewrite lookup_app_r, Nat.sub_diag.
    + rewrite !lookup_ge_None_2; [done | rewrite length_app; cbn; lia | rewrite length_mread, length_app; cbn; lia].
Qed.

(** ** Theorems *)

(** [skipelem] implements [elements]: on a path without elements it returns null,
    otherwise it copies the first element to [name], cut to [DIRSIZ] bytes, and returns a
    suffix of the path that has the remaining elements; enough fuel is one more than the
    length of the path, which gets shorter.  Only the buffer changes. *)
Theorem skipelem_correct fuel m path name p :
  cstr m path p → (length p < fuel)%nat → 0 < path →
  name + DIRSIZ ≤ path ∨ path + Z.of_nat (length p) < name →
  match elements p with
  | [] => skipelem fuel m path name = Ok (m, 0)
  | e :: es => ∃ m' path' rest, skipelem fuel m path name = Ok (m', path') ∧
      path < path' ≤ path + Z.of_nat (length p) ∧ cstr m' path' rest ∧ elements rest = es ∧
      path' + Z.of_nat (length rest) = path + Z.of_nat (length p) ∧
      mread m' name (length (name_field e)) = name_field e ∧
      ∀ a, a < name ∨ name + DIRSIZ ≤ a → m' a = m a
  end.
Proof.
  intros Hp Hfuel Hpos Hap. unfold skipelem.
  destruct (skip_slashes_ok fuel m path p Hp Hfuel) as (k & p1 & -> & Hh1 & E1 & Hp1).
  rewrite length_app, length_replicate in *. rewrite E1. cbn [mbind outcome_bind obind]. rewrite elements_slashes.
  set (s := path + Z.of_nat k) in *. destruct p1 as [|c p1].
  { cbn in Hp1. rewrite Hp1. done. }
  destruct (skip_name_ok fuel m s _ Hp1) as (e & p2 & Ep & He & Hh2 & E2); [lia|].
  assert (Hs0 : m s ≠ 0) by (cbn in Hp1; destruct Hp1 as (-> & ? & _); done).
  destruct (Z.eqb_spec (m s) 0) as [|_]; [done|]. rewrite E2. cbn [mbind outcome_bind obind].
  assert (Hne : e ≠ []).
  { intros ->. cbn in Ep. subst p2. destruct Hh2 as [?|?]; [done|]. cbn in *. congruence. }
  rewrite Ep in *. rewrite elements_elem by done. rewrite length_app in *.
  replace (s + Z.of_nat (length e) - s) with (Z.of_nat (length e)) by lia.
  change (if Z.of_nat (length e) >=? DIRSIZ then _ else _) with (copy_name m name s (Z.of_nat (length e))).
  pose proof (copy_name_bytes m name s e p2 Hp1) as Hname.
  pose proof (λ a, copy_name_frame m name s (Z.of_nat (length e)) a ltac:(lia)) as Hframe.
  set (m' := copy_name m name s (Z.of_nat (length e))) in *.
  assert (Hp2 : cstr m' (s + Z.of_nat (length e)) p2).
  { eapply cstr_ext; [|by eapply cstr_app_l]. intros a Ha. symmetry. apply Hframe. lia. }
  destruct (skip_slashes_ok fuel m' _ p2 Hp2) as (j & p3 & -> & _ & E3 & Hp3); [lia|].
  rewrite E3. cbn [mbind outcome_bind obind]. rewrite length_app, length_replicate in *.
  assert (length e ≠ 0)%nat by by destruct e.
  eexists m', _, p3. split; [done|]. rewrite elements_slashes. split_and!; [lia.. | done | done | lia | done | done].
Qed.

(** The path "///a//bb" at address 100. *)
Definition demo_path : mem := λ a,
  if a =? 103 then 97
  else if (100 <=? a) && (a <? 106) then slash
  else if (106 <=? a) && (a <? 108) then 98
  else 0.

Lemma skipelem_correct_witness :
  ∃ m' path' rest, skipelem 9 demo_path 100 200 = Ok (m', path') ∧ cstr m' path' rest ∧
    elements rest = [[98; 98]] ∧ mread m' 200 2 = [97; 0].
Proof.
  destruct (skipelem_correct 9 demo_path 100 200 [47; 47; 47; 97; 47; 47; 98; 98]) as
    (m' & path' & rest & E & _ & Hc & He & _ & Hn & _); [by vm_compute; split_and! | cbn; lia | lia | cbn; lia |].
  exists m', path', rest. split_and!; [exact E | exact Hc | exact He | exact Hn].
Defined.
