(* ===== verification/FileTable.v ===== *)
(** * Open files

    Models src/file.c and [pipealloc] of src/pipe.c.  The state puts the file system
    ([Fs]), the pipes ([Pipe]) and the page allocator ([Kalloc]) together: there is one
    CPU and one memory, those of the file system's state, and a call of another component
    gets them and gives them back.  A pipe is kept under the address of its page.

    Where a pipe operation would sleep the definition is [Diverge]; [Pipe] has the
    operations in segments between sleeps. *)

From S2P Require Import Prelude Param KString Spinlock Bio Log Fs Kalloc Pipe.
Local Open Scope Z_scope.

(** ** Definitions *)

Inductive ftype := FD_NONE | FD_PIPE | FD_INODE.

#[export] Instance ftype_eq_dec : EqDecision ftype.
Proof. solve_decision. Defined.

(** [struct file]. *)
Record file := mkFile {
  f_type : ftype;
  f_ref : Z;
  f_readable : bool;
  f_writable : bool;
  f_pipe : Z;
  f_ip : nat;
  f_off : Z
}.

Definition set_f_type (t : ftype) (f : file) : file :=
  mkFile t (f_ref f) (f_readable f) (f_writable f) (f_pipe f) (f_ip f) (f_off f).
Definition set_f_ref (r : Z) (f : file) : file :=
  mkFile (f_type f) r (f_readable f) (f_writable f) (f_pipe f) (f_ip f) (f_off f).
Definition set_f_off (o : Z) (f : file) : file :=
  mkFile (f_type f) (f_ref f) (f_readable f) (f_writable f) (f_pipe f) (f_ip f) o.

(** [ftable], beside the file system, the pipes, [kmem] and [proc->killed]. *)
Record kfst := mkKfst {
  kf_fs : fsst;
  kf_lock : spinlock;
  kf_file : list file;
  kf_pipes : gmap Z pipe;
  kf_km_lock : spinlock;
  kf_km_use_lock : bool;
  kf_km_freelist : Z;
  kf_killed : bool
}.

Definition set_kf_fs (x : fsst) (s : kfst) : kfst :=
  mkKfst x (kf_lock s) (kf_file s) (kf_pipes s) (kf_km_lock s) (kf_km_use_lock s)
    (kf_km_freelist s) (kf_killed s).
Definition set_kf_lock (x : spinlock) (s : kfst) : kfst :=
  mkKfst (kf_fs s) x (kf_file s) (kf_pipes s) (kf_km_lock s) (kf_km_use_lock s)
    (kf_km_freelist s) (kf_killed s).
Definition set_kf_file (x : list file) (s : kfst) : kfst :=
  mkKfst (kf_fs s) (kf_lock s) x (kf_pipes s) (kf_km_lock s) (kf_km_use_lock s)
    (kf_km_freelist s) (kf_killed s).
Definition set_kf_pipes (x : gmap Z pipe) (s : kfst) : kfst :=
  mkKfst (kf_fs s) (kf_lock s) (kf_file s) x (kf_km_lock s) (kf_km_use_lock s)
    (kf_km_freelist s) (kf_killed s).

(** Calls of the other components. *)
Definition onfs {A : Type} (m : K fsst A) : K kfst A := kzoom kf_fs set_kf_fs m.

Definition kf_kms (s : kfst) : kms :=
  mkKms (fs_cpu (kf_fs s)) (kf_km_lock s) (kf_km_use_lock s) (kf_km_freelist s) (fs_mem (kf_fs s)).
Definition set_kf_kms (k : kms) (s : kfst) : kfst :=
  mkKfst (set_fs_cpu (km_cpu k) (set_fs_mem (km_mem k) (kf_fs s))) (kf_lock s) (kf_file s)
    (kf_pipes s) (km_lock k) (km_use_lock k) (km_freelist k) (kf_killed s).
Definition onkmem {A : Type} (m : K kms A) : K kfst A := kzoom kf_kms set_kf_kms m.

Definition set_pi_cpu (c : cpu) (p : pipe) : pipe := set_pi_lock c (pi_lock p) p.
Definition onpipe {A : Type} (a : Z) (m : K pipe A) : K kfst A := fun s =>
  match kf_pipes s !! a with
  | None => Undef "pipe pointer"
  | Some p =>
      '(r, p') ← m (set_pi_cpu (fs_cpu (kf_fs s)) p);
      Ok (r, set_kf_pipes (<[a := p']> (kf_pipes s))
               (set_kf_fs (set_fs_cpu (pi_cpu p') (kf_fs s)) s))
  end.

(** [*f], read and changed. *)
Definition file_get (f : nat) : K kfst file := fun s =>
  match kf_file s !! f with Some x => Ok (x, s) | None => Undef "file pointer" end.
Definition file_mod (f : nat) (g : file → file) : K kfst unit := fun s =>
  match kf_file s !! f with
  | Some x => Ok (tt, set_kf_file (<[f := g x]> (kf_file s)) s)
  | None => Undef "file pointer"
  end.

Definition acquire_ftable : K kfst unit := fun s =>
  '(c, lk) ← acquire (fs_cpu (kf_fs s)) (kf_lock s);
  Ok (tt, set_kf_fs (set_fs_cpu c (kf_fs s)) (set_kf_lock lk s)).
Definition release_ftable : K kfst unit := fun s =>
  '(c, lk) ← release (fs_cpu (kf_fs s)) (kf_lock s);
  Ok (tt, set_kf_fs (set_fs_cpu c (kf_fs s)) (set_kf_lock lk s)).

Definition fileinit : K kfst unit := kmod (set_kf_lock (initlock "ftable")).

Definition filealloc : K kfst (option nat) :=
  acquire_ftable;;
  s ← kget;
  match list_find (λ f, f_ref f = 0) (kf_file s) with
  | Some (f, _) =>
      file_mod f (set_f_ref 1);;
      release_ftable;;
      mret (Some f)
  | None =>
      release_ftable;;
      mret None
  end.

Definition filedup (f : nat) : K kfst nat :=
  acquire_ftable;;
  x ← file_get f;
  if f_ref x <? 1 then kpanic "filedup"
  else
    file_mod f (fun x => set_f_ref (f_ref x + 1) x);;
    release_ftable;;
    mret f.

Section File.
Variable kend : Z.                 (* the end of the kernel image, see [Kalloc] *)
Variable devsw_table : list devsw. (* see [Fs] *)

(** [pipeclose(p, writable)]; the page is freed when both ends are closed. *)
Definition pipeclose_at (p : Z) (writable : bool) : K kfst unit :=
  onpipe p (pipeclose writable);;
  s ← kget;
  match kf_pipes s !! p with
  | Some x =>
      kwhen (pi_freed x)
        (onkmem (kfree kend p);;
         kmod (fun s => set_kf_pipes (delete p (kf_pipes s)) s))
  | None => mret tt
  end.

Definition fileclose (f : nat) : K kfst unit :=
  acquire_ftable;;
  x ← file_get f;
  if f_ref x <? 1 then kpanic "fileclose"
  else
    file_mod f (fun x => set_f_ref (f_ref x - 1) x);;
    x ← file_get f;
    if f_ref x >? 0 then release_ftable
    else
      let ff := x in
      file_mod f (set_f_ref 0);;
      file_mod f (set_f_type FD_NONE);;
      release_ftable;;
      match f_type ff with
      | FD_PIPE => pipeclose_at (f_pipe ff) (f_writable ff)
      | FD_INODE =>
          onfs (onlog begin_op;;
                iput (f_ip ff);;
                onlog end_op)
      | FD_NONE => mret tt
      end.

Definition filestat (f : nat) (st : Z) : K kfst Z :=
  x ← file_get f;
  match f_type x with
  | FD_INODE =>
      onfs (ilock (Some (f_ip x));;
            stati (f_ip x) st;;
            iunlock (Some (f_ip x)));;
      mret 0
  | _ => mret (-1)
  end.

(** [addr[i] = bytes[i]] for the bytes of a pipe. *)
Fixpoint store_bytes (m : mem) (addr : Z) (bytes : list Z) : mem :=
  match bytes with
  | [] => m
  | b :: bytes' => store_bytes (mupd m addr b) (addr + 1) bytes'
  end.

Definition fileread (f : nat) (addr n : Z) : K kfst Z :=
  x ← file_get f;
  if negb (f_readable x) then mret (-1)
  else
    match f_type x with
    | FD_PIPE =>
        s ← kget;
        r ← onpipe (f_pipe x) (piperead (kf_killed s) n);
        match r with
        | RErr => mret (-1)
        | RSleep => kout Diverge
        | RRet bytes =>
            onfs (kmod (fun s => set_fs_mem (store_bytes (fs_mem s) addr bytes) s));;
            mret (Z.of_nat (length bytes))
        end
    | FD_INODE =>
        onfs (ilock (Some (f_ip x)));;
        r ← onfs (readi devsw_table (f_ip x) addr (f_off x) (u32 n));
        kwhen (r >? 0) (file_mod f (fun x => set_f_off (u32 (f_off x + r)) x));;
        onfs (iunlock (Some (f_ip x)));;
        mret r
    | FD_NONE => kpanic "fileread"
    end.

Definition write_max : Z := (LOGSIZE - 1 - 1 - 2) / 2 * 512.

(** The loop of [filewrite] from [i] on; the result is the final [i]. *)
Fixpoint filewrite_loop (fuel : nat) (f : nat) (addr n i : Z) : K kfst Z :=
  match fuel with
  | O => kout Diverge
  | S fuel' =>
      if i <? n then
        let n1 := if n - i >? write_max then write_max else n - i in
        x ← file_get f;
        onfs (onlog begin_op;; ilock (Some (f_ip x)));;
        r ← onfs (writei devsw_table (f_ip x) (u32 (addr + i)) (f_off x) (u32 n1));
        kwhen (r >? 0) (file_mod f (fun x => set_f_off (u32 (f_off x + r)) x));;
        onfs (iunlock (Some (f_ip x));; onlog end_op);;
        if r <? 0 then mret i
        else if negb (r =? n1) then kpanic "short filewrite"
        else filewrite_loop fuel' f addr n (i + r)
      else mret i
  end.

Definition filewrite (f : nat) (addr n : Z) : K kfst Z :=
  x ← file_get f;
  if negb (f_writable x) then mret (-1)
  else
    match f_type x with
    | FD_PIPE =>
        s ← kget;
        r ← onpipe (f_pipe x)
              (pipewrite (kf_killed s) (fun i => fs_mem (kf_fs s) (addr + Z.of_nat i)) n 0);
        match r with
        | WRet v => mret v
        | WSleep _ => kout Diverge
        end
    | FD_INODE =>
        i ← filewrite_loop (Z.to_nat (n / write_max + 2)) f addr n 0;
        mret (if i =? n then n else -1)
    | FD_NONE => kpanic "filewrite"
    end.

(** The offset of [data] in [struct pipe], the size of [struct spinlock]. *)
Definition pipe_data_at : Z := 52.

(** [pipealloc] returns the two files, or -1 as [None]. *)
Definition pipealloc : K kfst (option (nat * nat)) :=
  let bad (f0 f1 : option nat) : K kfst (option (nat * nat)) :=
    match f0 with Some f => fileclose f | None => mret tt end;;
    match f1 with Some f => fileclose f | None => mret tt end;;
    mret None in
  f0 ← filealloc;
  match f0 with
  | None => bad None None
  | Some f0 =>
      f1 ← filealloc;
      match f1 with
      | None => bad (Some f0) None
      | Some f1 =>
          p ← onkmem kalloc;
          if p =? 0 then bad (Some f0) (Some f1)
          else
            kmod (fun s => set_kf_pipes
              (<[p := pipe_init (fs_cpu (kf_fs s))
                        (mread (fs_mem (kf_fs s)) (p + pipe_data_at) (Z.to_nat PIPESIZE))]>
                 (kf_pipes s)) s);;
            file_mod f0 (fun f => mkFile FD_PIPE (f_ref f) true false p (f_ip f) (f_off f));;
            file_mod f1 (fun f => mkFile FD_PIPE (f_ref f) false true p (f_ip f) (f_off f));;
            mret (Some (f0, f1))
      end
  end.
End File.
