(* ===== verification/FileWrite.v ===== *)
(** * Reading and writing open files

    [fileread] and [filewrite] of src/file.c on a regular file.  [filewrite] makes chunks
    that fit the log, each one transaction of the file system, and together they write the
    bytes and advance the file offset.  What has been written is on the disk when the call
    returns.  [SysFileOps] lifts both to the system calls. *)

From S2P Require Import Prelude Param KString Spinlock Bio Log LogCrash LogOps Fs FsView FsFile FsRead FsInode FsWrite FsAgree Kalloc Pipe FileTable.
Local Open Scope Z_scope.

(** ** Definitions *)

(** Open file [f], the struct [x], is a regular file with inode [y] in entry [ip] of the
    cache, unlocked and read in; no transaction is open. *)
Record open_file (sb : superblock) (vw dk : Z → mem) (wr : list (Z * mem)) (f : nat) (x : file)
    (y : inode) (s : kfst) : Prop := {
  op_fs : fs_ok sb vw dk wr ∅ [] 0 (kf_fs s);
  op_meta : meta_used sb vw;
  op_file : kf_file s !! f = Some x;
  op_type : f_type x = FD_INODE;
  op_inode : ic_inode (kf_fs s) !! f_ip x = Some y;
  op_ref : 1 ≤ i_ref y;
  op_busy : iflag y I_BUSY = false;
  op_valid : iflag y I_VALID = true;
  op_dev : i_dev y = 1;
  op_inum : 0 ≤ i_inum y < sb_ninodes sb;
  op_reg : di_type (i_d y) ≠ T_DEV;
  op_wf : dinode_wf (i_d y);
  op_ok : file_ok sb vw (i_d y);
  op_size : di_size (i_d y) ≤ MAXFILE * BSIZE;
  op_off : 0 ≤ f_off x ≤ di_size (i_d y)
}.

(** The disk and log [filewrite] is made for: one bitmap block, room for a chunk. *)
Definition roomy (sb : superblock) : Prop := sb_size sb ≤ BPB ∧ 19 ≤ sb_nlog sb.

(** The number of chunks of a write of [n] bytes; each takes at most 14 blocks. *)
Definition chunks (n : Z) : nat := Z.to_nat ((n + write_max - 1) / write_max).

(** ** Lemmas *)

Lemma onfs_rule {A : Type} (m : K fsst A) s (Q : A → kfst → Prop) :
  runs m (kf_fs s) (λ a t, Q a (set_kf_fs t s)) → runs (onfs m) s Q.
Proof. apply runs_zoom. Qed.

Lemma file_get_rule f x s (Q : file → kfst → Prop) :
  kf_file s !! f = Some x → Q x s → runs (file_get f) s Q.
Proof. intros Hx HQ. eapply runs_ok; [|exact HQ]. unfold file_get. by rewrite Hx. Qed.

Lemma file_mod_rule f g x s (Q : unit → kfst → Prop) :
  kf_file s !! f = Some x → Q tt (set_kf_file (<[f := g x]> (kf_file s)) s) → runs (file_mod f g) s Q.
Proof. intros Hx HQ. eapply runs_ok; [|exact HQ]. unfold file_mod. by rewrite Hx. Qed.

(** Locking and unlocking leaves the flags as they were, as far as they are tested. *)
Lemma flags_lock fl :
  Z.land (Z.lor fl I_BUSY) I_BUSY ≠ 0 ∧
  Z.land (Z.land (Z.lor fl I_BUSY) (Z.lnot I_BUSY)) I_BUSY = 0 ∧
  Z.land (Z.land (Z.lor fl I_BUSY) (Z.lnot I_BUSY)) I_VALID = Z.land fl I_VALID.
Proof.
  split_and!.
  - rewrite Z.land_lor_distr_l. change (Z.land I_BUSY I_BUSY) with 1. intros E.
    apply Z.lor_eq_0_iff in E. lia.
  - rewrite <- Z.land_assoc. change (Z.land (Z.lnot I_BUSY) I_BUSY) with 0. apply Z.land_0_r.
  - rewrite <- Z.land_assoc. change (Z.land (Z.lnot I_BUSY) I_VALID) with 2.
    rewrite Z.land_lor_distr_l. change (Z.land I_BUSY 2) with 0. by rewrite Z.lor_0_r.
Qed.

Lemma rounds_chunk off n1 : 0 < n1 ≤ write_max → 1 ≤ rounds off n1 ≤ 14.
Proof.
  intros Hn. split; [apply rounds_pos; lia|]. unfold write_max, LOGSIZE, MAXOPBLOCKS in Hn.
  change ((10 * 3 - 1 - 1 - 2) / 2 * 512) with 6656 in Hn. unfold rounds, BSIZE. zmod_lia.
Qed.

Lemma chunks_step n n1 :
  0 < n → n1 = (if n >? write_max then write_max else n) → chunks n = S (chunks (n - n1)).
Proof.
  intros Hn ->. unfold chunks. rewrite Z.gtb_ltb. unfold write_max, LOGSIZE, MAXOPBLOCKS.
  change ((10 * 3 - 1 - 1 - 2) / 2 * 512) with 6656. destruct (Z.ltb_spec 6656 n); zmod_lia.
Qed.

Lemma log_room_chunk sb d r : 19 ≤ sb_nlog sb → r ≤ 14 → log_room sb [] d (r + 1).
Proof.
  intros Hn Hr. unfold log_room. cbn. rewrite !decide_False; [lia | by intros [_ ?%not_elem_of_nil] | apply not_elem_of_nil].
Qed.

(** One chunk: a whole transaction. *)
Lemma write_round_rule {A : Type} devs sb vw dk wr f x y s addr n1 e (k : Z → K kfst A)
    (Q : A → kfst → Prop) :
  open_file sb vw dk wr f x y s → roomy sb → 0 < n1 ≤ write_max →
  f_off x + n1 ≤ MAXFILE * BSIZE → 0 ≤ addr → addr + n1 < 4294967296 →
  disk_room sb vw (i_d y) (14 + e) →
  (∀ s' vw' dk' wr' y', written sb (fs_mem (kf_fs s)) (i_inum y) addr (f_off x) n1 vw (i_d y) vw' (i_d y') →
     agree sb vw' dk' → disk_room sb vw' (i_d y') e → i_inum y' = i_inum y →
     open_file sb vw' dk' wr' f (set_f_off (f_off x + n1) x) y' s' →
     fs_mem (kf_fs s') = fs_mem (kf_fs s) →
     runs (k n1) s' Q) →
  runs (x ← file_get f;
        onfs (onlog begin_op;; ilock (Some (f_ip x)));;
        r ← onfs (writei devs (f_ip x) addr (f_off x) n1);
        kwhen (r >? 0) (file_mod f (fun x => set_f_off (u32 (f_off x + r)) x));;
        onfs (iunlock (Some (f_ip x));; onlog end_op);;
        k r) s Q.
Proof.
  intros H [Hone Hnlog] Hn1 Hmax Haddr Hwrap Hroom HQ. pose proof (fo_geo (op_fs _ _ _ _ _ _ _ _ H)) as G.
  pose proof H as [Hfs Hmeta Hx Ht Hy Href Hbusy Hval Hdev Hinum Hreg Hwf Hok Hsize Hoff].
  pose proof (rounds_chunk (f_off x) n1 Hn1) as Hr.
  set (ip := f_ip x) in *. assert (Hip : (ip < length (ic_inode (kf_fs s)))%nat) by by eapply lookup_lt_Some.
  destruct (flags_lock (i_flags y)) as (Hfl1 & Hfl2 & Hfl3).
  apply runs_bind, (file_get_rule f x); [done|].
  apply runs_bind, onfs_rule, runs_bind, (fs_begin_rule _ _ _ _ _ _ Hfs). intros l1 H1.
  apply (ilock_valid_rule _ _ _ _ _ _ _ _ _ _ _ H1 Hy Href Hbusy Hval). intros l2 lk y1 H2.
  set (s2 := ist ip y1 l2 _) in *.
  apply runs_bind, onfs_rule. change (kf_fs (set_kf_fs s2 s)) with s2.
  eapply (writei_rule devs sb vw dk wr [] 1 s2 ip y1 addr (f_off x) n1 e);
    [done | lia | done | cbn; by rewrite list_lookup_insert_eq | done.. | lia | done | done | done | | |].
  { destruct (Z.eqb_spec n1 0); [lia|]. eapply disk_room_mono; [|done]. lia. }
  { destruct (Z.eqb_spec n1 0); [lia|]. apply log_room_chunk; lia. }
  intros vw' bl' d' l3 Hw _ Hroom' H3. rewrite Z.gtb_ltb. destruct (Z.ltb_spec 0 n1); [|lia]. cbn [kwhen].
  set (s3 := ist ip (set_i_d d' y1) l3 s2) in *.
  change (MAXFILE * BSIZE) with 70656 in *.
  apply runs_bind, (file_mod_rule f _ x); [done|]. rewrite u32_small by lia.
  set (x' := set_f_off (f_off x + n1) x).
  apply runs_bind, onfs_rule. cbn [kf_fs set_kf_file set_kf_fs].
  apply runs_bind. eapply (iunlock_rule _ _ _ _ _ _ _ s3 ip (set_i_d d' y1) _ H3);
    [cbn; rewrite list_lookup_insert_eq; [done | by rewrite length_insert] | done | |].
  { unfold iflag. cbn. by apply negb_true_iff, Z.eqb_neq. }
  intros s4 H4 Hi4 Hm4. apply (fs_end_rule _ _ _ _ _ _ _ H4). intros l5 vw2 dk2 wr2 Ha Hd H5.
  set (y' := mkInode (i_dev y) (i_inum y) (i_ref y) (Z.land (Z.lor (i_flags y) I_BUSY) (Z.lnot I_BUSY)) d').
  pose proof (written_agree _ _ _ _ _ _ _ _ _ _ _ G Hinum Hw Ha) as Hw2.
  apply (HQ _ vw2 dk2 wr2 y'); [done | | | done | | done].
  - intros b Hb. rewrite <- Ha, Hd by done. done.
  - by apply (agree_room G Ha).
  - pose proof (wn_size Hw) as Esz. change (i_d y1) with (i_d y) in Esz. destruct (Z.eqb_spec n1 0); [lia|]. split; cbn; try done.
    + apply Hw2.
    + rewrite list_lookup_insert_eq; [done | by eapply lookup_lt_Some].
    + rewrite Hi4. cbn. rewrite !list_insert_insert_eq. by apply list_lookup_insert_eq.
    + unfold iflag. cbn. by rewrite Hfl2.
    + unfold iflag in *. cbn. by rewrite Hfl3.
    + by rewrite (written_type Hw).
    + eapply written_wf; [done | exact Hw | done | unfold uint; lia].
    + apply Hw2.
    + change (MAXFILE * BSIZE) with 70656. lia.
    + lia.
Qed.

Lemma filewrite_loop_rule devs sb fuel vw dk wr f x y s addr n i (Q : Z → kfst → Prop) :
  open_file sb vw dk wr f x y s → roomy sb → 0 ≤ i < n → f_off x + (n - i) ≤ MAXFILE * BSIZE →
  0 ≤ addr → addr + n < 4294967296 → disk_room sb vw (i_d y) (14 * chunks (n - i)) →
  (chunks (n - i) < fuel)%nat →
  (∀ s' vw' dk' wr' y',
     written sb (fs_mem (kf_fs s)) (i_inum y) (addr + i) (f_off x) (n - i) vw (i_d y) vw' (i_d y') →
     agree sb vw' dk' → i_inum y' = i_inum y →
     open_file sb vw' dk' wr' f (set_f_off (f_off x + (n - i)) x) y' s' →
     fs_mem (kf_fs s') = fs_mem (kf_fs s) → Q n s') →
  runs (filewrite_loop devs fuel f addr n i) s Q.
Proof.
  revert vw dk wr x y s i. induction fuel as [|fuel IH]; intros vw dk wr x y s i H Hr Hi Hmax Ha Hwrap Hroom Hfuel HQ; [lia|].
  cbn [filewrite_loop]. destruct (Z.ltb_spec i n); [|lia]. cbv zeta.
  set (n1 := if n - i >? write_max then write_max else n - i).
  assert (Hn1 : 0 < n1 ≤ write_max ∧ n1 ≤ n - i).
  { unfold n1. rewrite Z.gtb_ltb. unfold write_max, LOGSIZE, MAXOPBLOCKS.
    change ((10 * 3 - 1 - 1 - 2) / 2 * 512) with 6656. destruct (Z.ltb_spec 6656 (n - i)); lia. }
  pose proof (chunks_step (n - i) n1 ltac:(lia) eq_refl) as Hch.
  pose proof (op_off _ _ _ _ _ _ _ _ H) as Hoff. change (MAXFILE * BSIZE) with 70656 in *.
  rewrite (u32_small (addr + i)), (u32_small n1) by lia.
  apply (write_round_rule devs sb vw dk wr f x y s (addr + i) n1 (14 * chunks (n - i - n1)) _ _ H Hr);
    [lia | change (MAXFILE * BSIZE) with 70656; lia | lia | lia | eapply disk_room_mono; [|done]; lia |].
  intros s' vw' dk' wr' y' Hw Hag Hroom' Hinum H' Hmem.
  destruct (Z.ltb_spec n1 0); [lia|]. destruct (Z.eqb_spec n1 n1); [|done]. cbn [negb].
  destruct (decide (i + n1 = n)) as [E|E].
  - destruct fuel as [|fuel]; [lia|]. cbn [filewrite_loop]. destruct (Z.ltb_spec (i + n1) n); [lia|].
    apply runs_ret. rewrite E. assert (n1 = n - i) as En by lia. rewrite En in *. by eapply HQ.
  - apply (IH vw' dk' wr' (set_f_off (f_off x + n1) x) y'); [done | done | lia | cbn; change (MAXFILE * BSIZE) with 70656; lia | done | done | | |].
    + by replace (n - (i + n1)) with (n - i - n1) by lia.
    + replace (n - (i + n1)) with (n - i - n1) by lia. lia.
    + cbn [f_off set_f_off]. intros s2 vw2 dk2 wr2 y2 Hw2 Hag2 Hinum2 H2 Hmem2. rewrite Hmem, Hinum in *.
      apply (HQ s2 vw2 dk2 wr2 y2); [|done | congruence | | congruence].
      * replace (n - i) with (n1 + (n - (i + n1))) by lia.
        eapply written_trans; [lia | lia | lia | change (MAXFILE * BSIZE) with 70656; lia | apply H | done |].
        by replace (addr + i + n1) with (addr + (i + n1)) by lia.
      * by replace (f_off x + (n - i)) with (f_off x + n1 + (n - (i + n1))) by lia.
Qed.

(** [filewrite] of [n] bytes to a regular file, with room on the disk, returns [n]; the
    file has the bytes at [addr] at the old offset and keeps all others, the offset is
    advanced by [n], the other files and inodes are unchanged, no transaction is left open,
    and the disk itself has the new contents. *)
Lemma filewrite_writes devs sb vw dk wr f x y s addr n :
  open_file sb vw dk wr f x y s → roomy sb → f_writable x = true →
  0 < n → f_off x + n ≤ MAXFILE * BSIZE → 0 ≤ addr → addr + n < 4294967296 →
  disk_room sb vw (i_d y) (14 * chunks n) →
  runs (filewrite devs f addr n) s (λ v s', v = n ∧ fs_mem (kf_fs s') = fs_mem (kf_fs s) ∧
    ∃ vw' dk' wr' y',
    written sb (fs_mem (kf_fs s)) (i_inum y) addr (f_off x) n vw (i_d y) vw' (i_d y') ∧
    open_file sb vw' dk' wr' f (set_f_off (f_off x + n) x) y' s' ∧
    ∀ b, sb_inodestart sb ≤ b < sb_size sb → md_blocks (bio_disk (ls_bio (fs_log (kf_fs s')))) b = vw' b).
Proof.
  intros H Hr Hwr Hn Hmax Ha Hwrap Hroom.
  unfold filewrite. apply runs_bind, (file_get_rule f x); [apply H|]. rewrite Hwr, (op_type _ _ _ _ _ _ _ _ H).
  cbn [negb]. apply runs_bind.
  eapply (filewrite_loop_rule devs sb _ vw dk wr f x y s addr n 0); [done | done | lia | lia | done | done | by rewrite Z.sub_0_r | |].
  { rewrite Z.sub_0_r. unfold chunks, write_max, LOGSIZE, MAXOPBLOCKS.
    change ((10 * 3 - 1 - 1 - 2) / 2 * 512) with 6656. zmod_lia. }
  rewrite Z.sub_0_r, Z.add_0_r. intros s' vw' dk' wr' y' Hw Hag _ H' Hm. apply runs_ret.
  rewrite Z.eqb_refl. split_and!; [done..|]. exists vw', dk', wr', y'. split_and!; [done..|]. intros b Hb.
  destruct (brep_disk _ _ _ _ _ _ _ (lo_brep _ _ _ _ _ _ _ _ _ _ (fo_log (op_fs _ _ _ _ _ _ _ _ H')))) as [-> _].
  symmetry. by apply Hag.
Qed.

(** [fileread] of up to [n] bytes from a regular file returns the number of bytes there
    are from the offset on, at most [n], stores exactly these and advances the offset; the
    contents of no file change. *)
Lemma fileread_reads devs sb vw dk wr f x y s addr n (r := Z.min n (di_size (i_d y) - f_off x)) :
  open_file sb vw dk wr f x y s → f_readable x = true → no_hole vw (i_d y) 0 (di_size (i_d y)) →
  0 ≤ n < 2147483648 → 0 ≤ addr → addr + n < 4294967296 →
  runs (fileread devs f addr n) s (λ v s', v = r ∧
    (∃ y', i_d y' = i_d y ∧ open_file sb vw dk wr f (set_f_off (f_off x + r) x) y' s') ∧
    ∀ a, fs_mem (kf_fs s') a = copied vw (i_d y) addr (f_off x) r (fs_mem (kf_fs s)) a).
Proof.
  intros H Hrd Hhole Hn Ha Hwrap.
  pose proof H as [Hfs Hmeta Hx Ht Hy Href Hbusy Hval Hdev Hinum Hreg Hwf Hok Hsize Hoff].
  set (ip := f_ip x) in *. assert (Hip : (ip < length (ic_inode (kf_fs s)))%nat) by by eapply lookup_lt_Some.
  destruct (flags_lock (i_flags y)) as (Hfl1 & Hfl2 & Hfl3).
  unfold fileread. apply runs_bind, (file_get_rule f x); [done|]. rewrite Hrd, Ht. cbn [negb].
  apply runs_bind, onfs_rule.
  apply (ilock_valid_rule _ _ _ _ _ _ _ _ _ _ _ Hfs Hy Href Hbusy Hval). intros l1 lk y1 H1.
  set (s1 := ist ip y1 l1 _) in *.
  assert (Hy1 : ic_inode s1 !! ip = Some y1) by (cbn; by rewrite list_lookup_insert_eq).
  change (MAXFILE * BSIZE) with 70656 in *. rewrite (u32_small n) by lia.
  destruct (readi_reads devs sb vw dk wr [] 0 s1 ip y1 addr (f_off x) n H1 Hy1 Hdev Hreg Hok Hsize Hhole)
    as (s2 & E & H2 & Hi2 & Hm2); [vm_compute; lia | lia..|].
  change (i_d y1) with (i_d y) in E, Hm2. rewrite Z.gtb_ltb in E, Hm2.
  destruct (Z.ltb_spec (di_size (i_d y)) (f_off x)); [lia|]. fold r in E, Hm2.
  apply runs_bind, onfs_rule. eapply runs_ok; [exact E|]. rewrite Z.gtb_ltb.
  set (x' := set_f_off (f_off x + r) x).
  assert (Hmod : ∀ t (Q : unit → kfst → Prop), kf_file t !! f = Some x →
    Q tt (set_kf_file (<[f := x']> (kf_file t)) t) →
    runs (kwhen (0 <? r) (file_mod f (fun x => set_f_off (u32 (f_off x + r)) x))) t Q).
  { intros t Q Hf HQ. destruct (Z.ltb_spec 0 r); cbn [kwhen].
    - eapply file_mod_rule; [done|]. by rewrite u32_small by lia.
    - assert (Er : r = 0) by lia. apply runs_ret. unfold x' in HQ. rewrite Er, Z.add_0_r in HQ.
      replace (set_f_off (f_off x) x) with x in HQ by by destruct x.
      rewrite list_insert_id in HQ by done. by destruct t. }
  apply runs_bind, Hmod; [done|]. apply runs_bind, onfs_rule. cbn [kf_fs set_kf_file set_kf_fs].
  eapply (iunlock_rule _ _ _ _ _ _ _ s2 ip y1 _ H2); [by rewrite Hi2 | done | unfold iflag; cbn; by apply negb_true_iff, Z.eqb_neq |].
  intros s3 H3 Hi3 Hm3. apply runs_ret. split_and!; [done| |].
  - eexists (set_i_flags _ y1). split; [done|]. split; cbn; try done; try lia.
    + rewrite list_lookup_insert_eq; [done | by eapply lookup_lt_Some].
    + rewrite Hi3, Hi2. apply list_lookup_insert_eq. cbn. by rewrite length_insert.
    + unfold iflag. cbn. by rewrite Hfl2.
    + unfold iflag in *. cbn. by rewrite Hfl3.
  - intros a. cbn. by rewrite Hm3, Hm2.
Qed.
