(* ===== verification/FileWitness.v ===== *)
(** * Open files of a small file system

    The file of [FsWitness], open; the examples on the system calls use it. *)

From S2P Require Import Prelude Param KString Spinlock Bio Log LogCrash LogOps Fs FsView FsFile FsRead FsInode FsWrite FsAgree FsWitness Kalloc Pipe FileTable FileWrite.
Local Open Scope Z_scope.

(** ** Definitions *)

(** The file, at offset [off]. *)
Definition demo_open (off : Z) : file := mkFile FD_INODE 1 true true 0 0 off.

Definition demo_unlocked : inode := mkInode 1 2 1 I_VALID demo_dinode.

(** The file system of [FsWitness] with memory [m] and this file open. *)
Definition demo_kfst (l : logst) (m : mem) (off : Z) : kfst :=
  mkKfst (set_fs_mem m (set_ic_inode [demo_unlocked] (demo_fsst l))) (initlock "ftable")
    (demo_open off :: replicate 99 (mkFile FD_NONE 0 false false 0 0 0)) ∅ (initlock "kmem") true 0 false.

(** ** Lemmas *)

Lemma demo_open_file l m off d wr :
  fs_ok demo_sb d d wr ∅ [] 0 (demo_fsst l) → d 58 = fs_disk 58 → 0 ≤ off ≤ 600 →
  open_file demo_sb d d wr 0 (demo_open off) demo_unlocked (demo_kfst l m off).
Proof.
  intros [] E58 Hoff. split; cbn; try done; try lia.
  - by apply demo_meta.
  - exact demo_dinode_wf.
  - by apply demo_file.
Qed.

Lemma demo_blocks d n : d 58 = fs_disk 58 → (n ≤ 1000)%nat → disk_room demo_sb d demo_dinode n.
Proof.
  intros E Hn. exists (Z.of_nat <$> seq 100 (S n)). split_and!.
  - apply NoDup_fmap; [intros ? ?; lia | apply NoDup_seq].
  - rewrite length_fmap, length_seq. cbn. lia.
  - intros b (k & -> & Hk%elem_of_seq)%list_elem_of_fmap. split; [cbn; lia|].
    rewrite demo_used by (done || lia). apply bool_decide_false. lia.
Qed.
