(* ===== verification/Cmos.v ===== *)
(** * Reading the real-time clock

    Models [cmostime] of src/lapic.c, which reads the date from the CMOS clock while the
    clock runs.  The clock is hardware: [value r n] is what register [r] holds at the
    [n]-th read, and the state is the number of reads so far.  [Clock] says what the
    driver relies on: the registers encode a date, the date changes rarely, and from time
    to time there is no update in progress. *)

From S2P Require Import Prelude Param.
Local Open Scope Z_scope.

(** ** Definitions *)

Record rtcdate := mkDate {
  second : Z;
  minute : Z;
  hour : Z;
  day : Z;
  month : Z;
  year : Z
}.

#[export] Instance rtcdate_eq_dec : EqDecision rtcdate.
Proof. solve_decision. Defined.

Definition SECS : Z := 0.
Definition MINS : Z := 2.
Definition HOURS : Z := 4.
Definition DAY : Z := 7.
Definition MONTH : Z := 8.
Definition YEAR : Z := 9.
Definition CMOS_STATA : Z := 10.
Definition CMOS_STATB : Z := 11.
Definition CMOS_UIP : Z := 128.

(** [CONV]. *)
Definition CONV (x : Z) : Z := u32 (Z.shiftr x 4 * 10 + Z.land x 15).

Definition conv_date (t : rtcdate) : rtcdate :=
  mkDate (CONV (second t)) (CONV (minute t)) (CONV (hour t)) (CONV (day t)) (CONV (month t))
    (CONV (year t)).

Section Cmos.
Variable value : Z → nat → Z.

Definition cmos_read (reg : Z) : K nat Z := fun n => Ok (value reg n, S n).

Definition fill_rtcdate : K nat rtcdate :=
  s ← cmos_read SECS;
  m ← cmos_read MINS;
  h ← cmos_read HOURS;
  d ← cmos_read DAY;
  mo ← cmos_read MONTH;
  y ← cmos_read YEAR;
  mret (mkDate s m h d mo y).

(** The loop until two readings agree. *)
Fixpoint cmos_loop (fuel : nat) : K nat rtcdate :=
  match fuel with
  | O => kout Diverge
  | S fuel' =>
      t1 ← fill_rtcdate;
      a ← cmos_read CMOS_STATA;
      if negb (Z.land a CMOS_UIP =? 0) then cmos_loop fuel'
      else
        t2 ← fill_rtcdate;
        if bool_decide (t1 = t2) then mret t1 else cmos_loop fuel'
  end.

Definition cmostime (fuel : nat) : K nat rtcdate :=
  sb ← cmos_read CMOS_STATB;
  let bcd := Z.land sb (Z.shiftl 1 2) =? 0 in
  t1 ← cmos_loop fuel;
  let t1 := if bcd then conv_date t1 else t1 in
  mret (mkDate (second t1) (minute t1) (hour t1) (day t1) (month t1) (u32 (year t1 + 2000))).

(** *** The clock *)

(** A field as the register holds it. *)
Definition encode (bcd : bool) (x : Z) : Z := if bcd then 16 * (x / 10) + x mod 10 else x.

Definition encode_date (bcd : bool) (t : rtcdate) : rtcdate :=
  mkDate (encode bcd (second t)) (encode bcd (minute t)) (encode bcd (hour t)) (encode bcd (day t))
    (encode bcd (month t)) (encode bcd (year t)).

Definition two_digits (t : rtcdate) : Prop :=
  Forall (λ x, 0 ≤ x < 100) [second t; minute t; hour t; day t; month t; year t].

(** No update in the 26 reads from [m] on. *)
Definition quiet (time : nat → rtcdate) (m : nat) : Prop :=
  ∀ i, (i < 26)%nat → time (m + i)%nat = time m ∧ Z.land (value CMOS_STATA (m + i)) CMOS_UIP = 0.

(** The date [time n] at read [n], with the year counted from 2000: the registers have its
    fields, it changes at most once in 13 reads, and among any [rest] reads there are 26 in a
    row without an update. *)
Record Clock (bcd : bool) (time : nat → rtcdate) (rest : nat) : Prop := {
  ck_digits (n : nat) : two_digits (time n);
  ck_second (n : nat) : value SECS n = encode bcd (second (time n));
  ck_minute (n : nat) : value MINS n = encode bcd (minute (time n));
  ck_hour (n : nat) : value HOURS n = encode bcd (hour (time n));
  ck_day (n : nat) : value DAY n = encode bcd (day (time n));
  ck_month (n : nat) : value MONTH n = encode bcd (month (time n));
  ck_year (n : nat) : value YEAR n = encode bcd (year (time n));
  ck_mode (n : nat) : (Z.land (value CMOS_STATB n) 4 =? 0) = bcd;
  ck_once (n : nat) : ∃ k, (k ≤ 13)%nat ∧ (∀ i, (i < k)%nat → time (n + i)%nat = time n) ∧
    (∀ i, (k ≤ i < 13)%nat → time (n + i)%nat = time (n + 12)%nat);
  ck_quiet (n : nat) : ∃ m, (n ≤ m < n + rest)%nat ∧ quiet time m
}.

(** ** Lemmas *)

Section Reading.
Context {bcd : bool} {time : nat → rtcdate} {rest : nat}.
Hypothesis C : Clock bcd time rest.

(** A reading that starts at read [n]. *)
Definition reading (n : nat) : rtcdate :=
  encode_date bcd (mkDate (second (time n)) (minute (time (n + 1))) (hour (time (n + 2)))
    (day (time (n + 3))) (month (time (n + 4))) (year (time (n + 5))))%nat.

Lemma fill_reading n : fill_rtcdate n = Ok (reading n, (n + 6)%nat).
Proof.
  pose proof C as [_ Hs Hm Hh Hd Hmo Hy _ _ _]. unfold SECS, MINS, HOURS, DAY, MONTH, YEAR in *.
  unfold fill_rtcdate, reading, encode_date. repeat (rewrite (K_bind_ok _ _ _ _ _ eq_refl)).
  cbn [second minute hour day month year]. rewrite Hs, Hm, Hh, Hd, Hmo, Hy.
  by repeat (rewrite Nat.add_succ_r || rewrite Nat.add_0_r).
Qed.

Lemma reading_const n t : (∀ i, (i < 6)%nat → time (n + i)%nat = t) → reading n = encode_date bcd t.
Proof.
  intros H. unfold reading. pose proof (H 0%nat ltac:(lia)) as H0. rewrite Nat.add_0_r in H0.
  by rewrite H0, !H by lia.
Qed.

(** Two equal readings are a date the clock has shown. *)
Lemma readings_agree n : reading n = reading (n + 7)%nat → ∃ i, (i < 13)%nat ∧ reading n = encode_date bcd (time (n + i)%nat).
Proof.
  intros E. destruct (ck_once _ _ _ C n) as (k & Hk & Hold & Hnew).
  destruct (decide (6 ≤ k)%nat).
  - exists 0%nat. split; [lia|]. apply reading_const. intros i Hi. rewrite Nat.add_0_r. apply Hold. lia.
  - exists 12%nat. split; [lia|]. rewrite E. apply reading_const. intros i Hi.
    replace (n + 7 + i)%nat with (n + (7 + i))%nat by lia. apply Hnew. lia.
Qed.

(** The loop ends in the first round that meets no update, at the latest. *)
Lemma cmos_loop_ok fuel n m :
  quiet time m → (1 ≤ fuel)%nat → (m < n + fuel)%nat → (n < m + 13)%nat →
  ∃ i n', cmos_loop fuel n = Ok (encode_date bcd (time i), n') ∧ (n ≤ i < n')%nat.
Proof.
  intros Hq. revert n. induction fuel as [|fuel IH]; intros n Hf Hm Hn; [lia|].
  assert (Hgo : ∀ d, (7 ≤ d ≤ 13)%nat → (n < m)%nat →
    ∃ i n', cmos_loop fuel (n + d)%nat = Ok (encode_date bcd (time i), n') ∧ (n ≤ i < n')%nat).
  { intros d Hd Hlt. destruct (IH (n + d)%nat) as (i & n' & E & Hi); [lia..|]. exists i, n'. split; [done | lia]. }
  cbn [cmos_loop]. rewrite (K_bind_ok _ _ _ _ _ (fill_reading n)), (K_bind_ok _ _ _ (value CMOS_STATA (n + 6)%nat) (n + 7)%nat)
    by (unfold cmos_read; do 2 f_equal; lia).
  destruct (Z.eqb_spec (Z.land (value CMOS_STATA (n + 6)%nat) CMOS_UIP) 0) as [Ea|Ea]; cbn [negb].
  2:{ apply (Hgo 7%nat); [lia|]. destruct (decide (n < m)%nat); [done|]. exfalso. apply Ea.
      replace (n + 6)%nat with (m + (n + 6 - m))%nat by lia. apply Hq. lia. }
  rewrite (K_bind_ok _ _ _ _ _ (fill_reading (n + 7)%nat)). case_bool_decide as Ee.
  - destruct (readings_agree n Ee) as (i & Hi & ->). exists (n + i)%nat, (n + 7 + 6)%nat. split; [done | lia].
  - replace (n + 7 + 6)%nat with (n + 13)%nat by lia. apply (Hgo 13%nat); [lia|].
    destruct (decide (n < m)%nat); [done|]. exfalso. apply Ee.
    rewrite (reading_const n (time m)), (reading_const (n + 7)%nat (time m)); [done | |]; intros i Hi.
    + replace (n + 7 + i)%nat with (m + (n + 7 + i - m))%nat by lia. apply Hq. lia.
    + replace (n + i)%nat with (m + (n + i - m))%nat by lia. apply Hq. lia.
Qed.

(** Decoding. *)
Lemma CONV_encode x : 0 ≤ x < 100 → CONV (encode true x) = x.
Proof.
  intros Hx. unfold CONV, encode. rewrite Z.shiftr_div_pow2 by lia. change 15 with (Z.ones 4). rewrite Z.land_ones by lia.
  change (2 ^ 4) with 16. rewrite u32_small; zmod_lia.
Qed.

Lemma conv_encode_date t : two_digits t → conv_date (encode_date true t) = t.
Proof.
  unfold two_digits, conv_date, encode_date. rewrite !Forall_cons. intros (? & ? & ? & ? & ? & ? & _).
  cbn [second minute hour day month year]. rewrite !CONV_encode by done. by destruct t.
Qed.
End Reading.

(** ** Theorems *)

(** [cmostime] returns, and what it returns is the whole date the clock showed at one
    moment during the call, never a mixture of the dates before and after an update, in
    decoded form with the full year, whichever encoding the clock uses. *)
Theorem cmostime_correct bcd time rest fuel n :
  Clock bcd time rest → (rest ≤ fuel)%nat →
  ∃ i n', (n ≤ i < n')%nat ∧
    cmostime fuel n = Ok (mkDate (second (time i)) (minute (time i)) (hour (time i)) (day (time i))
                            (month (time i)) (year (time i) + 2000), n').
Proof.
  intros C Hf. destruct (ck_quiet _ _ _ C (S n)) as (m & Hm & Hq).
  destruct (cmos_loop_ok C fuel (S n) m Hq) as (i & n' & E & Hi); [lia..|]. exists i, n'. split; [lia|].
  unfold cmostime. rewrite (K_bind_ok _ _ _ (value CMOS_STATB n) (S n) eq_refl), (K_bind_ok _ _ _ _ _ E).
  change (Z.shiftl 1 2) with 4. rewrite (ck_mode _ _ _ C n). pose proof (ck_digits _ _ _ C i) as Hd.
  assert (Hy : 0 ≤ year (time i) < 100) by (unfold two_digits in Hd; rewrite !Forall_cons in Hd; tauto).
  assert (Ed : (if bcd then conv_date (encode_date bcd (time i)) else encode_date bcd (time i)) = time i)
    by (destruct bcd; [by apply conv_encode_date | by destruct (time i)]).
  rewrite Ed, u32_small by lia. done.
Qed.
End Cmos.

(** ** Witness *)

(** A clock in binary coded decimal that goes from 2017-11-30 23:59:59 to 2017-12-01,
    with an update at read 10. *)
Definition demo_time (n : nat) : rtcdate :=
  if decide (n < 10)%nat then mkDate 59 59 23 30 11 17 else mkDate 0 0 0 1 12 17.
Definition demo_clock (reg : Z) (n : nat) : Z :=
  let t := demo_time n in
  let e := encode true in
  if reg =? SECS then e (second t) else if reg =? MINS then e (minute t)
  else if reg =? HOURS then e (hour t) else if reg =? DAY then e (day t)
  else if reg =? MONTH then e (month t) else if reg =? YEAR then e (year t)
  else if reg =? CMOS_STATA then (if decide (n = 9)%nat then 166 else 38) else 2.

Lemma cmostime_correct_witness :
  ∃ i n', (3 ≤ i < n')%nat ∧ cmostime demo_clock 20 3%nat =
    Ok (mkDate (second (demo_time i)) (minute (demo_time i)) (hour (demo_time i)) (day (demo_time i))
          (month (demo_time i)) (year (demo_time i) + 2000), n').
Proof.
  apply (cmostime_correct demo_clock true demo_time 11 20 3).
  - split; try reflexivity.
    + intros n. unfold demo_time. destruct (decide (n < 10)%nat); repeat constructor; cbn; lia.
    + intros n. destruct (decide (n < 10)%nat) as [Hn|Hn].
      * exists (10 - n)%nat. unfold demo_time. split; [lia|]. split; intros i Hi.
        -- rewrite !decide_True by lia. done.
        -- rewrite !decide_False by lia. done.
      * exists 13%nat. unfold demo_time. split; [lia|]. split; intros i Hi; [rewrite !decide_False by lia; done | lia].
    + intros n. exists (Nat.max n 10). split; [lia|]. intros i Hi. unfold demo_clock, demo_time, CMOS_STATA. cbn.
      rewrite !decide_False by lia. done.
  - lia.
Defined.
