(* ===== verification/Syscall.v ===== *)
(** * System call arguments and dispatch

    Models src/syscall.c and the numbers of src/syscall.h.  The arguments of a system call
    are read from the user's memory, as the kernel sees it, with the size of the process and
    the stack pointer of its trap frame; a fetch that fails (-1 in C) is [None].  The
    dispatcher is generic in the kernel state: the handlers, the current process's [eax] and
    the message for an unknown number are arguments. *)

From S2P Require Import Prelude Param KString Spinlock ProcData.
Local Open Scope Z_scope.

(** ** Definitions *)

Definition fetchint (m : mem) (p : proc) (addr : Z) : option Z :=
  if (addr >=? p_sz p) || (u32 (addr + 4) >? p_sz p) then None
  else Some (s32 (load32 m addr)).

(** The loop of [fetchstr] with [k] bytes before [ep]; the length. *)
Fixpoint fetchstr_loop (k : nat) (m : mem) (s : Z) : option Z :=
  match k with
  | O => None
  | S k' => if m s =? 0 then Some 0 else (n ← fetchstr_loop k' m (s + 1); Some (n + 1))
  end.

(** The address stored in [*pp] and the length. *)
Definition fetchstr (m : mem) (p : proc) (addr : Z) : option (Z * Z) :=
  if addr >=? p_sz p then None
  else n ← fetchstr_loop (Z.to_nat (p_sz p - addr)) m addr; Some (addr, n).

Definition argint (m : mem) (p : proc) (n : Z) : option Z :=
  fetchint m p (u32 (tf_esp (p_trapframe p) + 4 + 4 * n)).

Definition argptr (m : mem) (p : proc) (n size : Z) : option Z :=
  i ← argint m p n;
  if (u32 i >=? p_sz p) || (u32 (u32 i + size) >? p_sz p) then None
  else Some (u32 i).

Definition argstr (m : mem) (p : proc) (n : Z) : option (Z * Z) :=
  addr ← argint m p n;
  fetchstr m p (u32 addr).

(** The system calls, in the order of their numbers. *)
Inductive sysname :=
| Sys_fork | Sys_exit | Sys_wait | Sys_pipe | Sys_read | Sys_kill | Sys_exec | Sys_fstat
| Sys_chdir | Sys_dup | Sys_getpid | Sys_sbrk | Sys_sleep | Sys_uptime | Sys_open | Sys_write
| Sys_mknod | Sys_unlink | Sys_link | Sys_mkdir | Sys_close | Sys_halt | Sys_date | Sys_getuid
| Sys_getgid | Sys_getppid | Sys_setuid | Sys_setgid | Sys_getprocs | Sys_setpriority
| Sys_chmod | Sys_chown | Sys_chgrp.

(** The table [syscalls]; entry 0 is empty. *)
Definition syscalls : list (option sysname) :=
  None ::
  (Some <$>
   [ Sys_fork; Sys_exit; Sys_wait; Sys_pipe; Sys_read; Sys_kill; Sys_exec; Sys_fstat;
     Sys_chdir; Sys_dup; Sys_getpid; Sys_sbrk; Sys_sleep; Sys_uptime; Sys_open; Sys_write;
     Sys_mknod; Sys_unlink; Sys_link; Sys_mkdir; Sys_close; Sys_halt; Sys_date; Sys_getuid;
     Sys_getgid; Sys_getppid; Sys_setuid; Sys_setgid; Sys_getprocs; Sys_setpriority;
     Sys_chmod; Sys_chown; Sys_chgrp ]).

Section Dispatch.
Context {S : Type}.
Variable handler : sysname → K S Z.
Variable get_eax : K S Z.
Variable set_eax : Z → K S unit.
Variable unknown : Z → K S unit.

Definition syscall : K S unit :=
  eax ← get_eax;
  let num := s32 eax in
  match (if (num >? 0) && (num <? Z.of_nat (length syscalls))
         then mjoin (syscalls !! Z.to_nat num) else None) with
  | Some f => r ← handler f; set_eax (u32 r)
  | None => unknown num;; set_eax (u32 (-1))
  end.
End Dispatch.

(** ** Lemmas *)

Lemma fetchstr_loop_spec k m s n :
  fetchstr_loop k m s = Some n ↔ ∃ l, cstr m s l ∧ n = Z.of_nat (length l) ∧ (length l < k)%nat.
Proof.
  revert s n; induction k as [|k IH]; intros s n; cbn [fetchstr_loop].
  - split; [done|]. intros (l & _ & _ & H). lia.
  - destruct (Z.eqb_spec (m s) 0) as [H0|H0].
    + split.
      * intros [= <-]. exists []. split_and!; [done | done | simpl; lia].
      * intros ([|c l] & Hl & -> & _); [done|]. destruct Hl as (Hc & Hn & _). congruence.
    + destruct (fetchstr_loop k m (s + 1)) as [n'|] eqn:E; cbn; split.
      * intros [= <-]. apply IH in E as (l & Hl & -> & Hlt).
        exists (m s :: l). split_and!; [done | cbn [length]; lia | simpl; lia].
      * intros ([|c l] & Hl & -> & Hlt); [done|]. destruct Hl as (Hc & Hn & Hl).
        assert (E' : fetchstr_loop k m (s + 1) = Some (Z.of_nat (length l))) by (apply IH; exists l; split_and!; [done | done | simpl in Hlt; lia]).
        rewrite E in E'. injection E' as ->. f_equal. cbn [length]. lia.
      * done.
      * intros ([|c l] & Hl & -> & Hlt); [done|]. destruct Hl as (Hc & Hn & Hl).
        assert (E' : fetchstr_loop k m (s + 1) = Some (Z.of_nat (length l))) by (apply IH; exists l; split_and!; [done | done | simpl in Hlt; lia]).
        congruence.
Qed.

(** A process whose memory lies below the kernel. *)
Definition user_size (p : proc) : Prop := 0 ≤ p_sz p ≤ KERNBASE.

(** A word of a fetch that succeeds lies in the process. *)
Lemma fetchint_bounds m p addr v :
  user_size p → 0 ≤ addr → fetchint m p addr = Some v → addr + 4 ≤ p_sz p ∧ v = s32 (load32 m addr).
Proof.
  unfold fetchint, user_size, KERNBASE. intros Hsz Ha. rewrite Z.geb_leb, Z.gtb_ltb.
  destruct (Z.leb_spec (p_sz p) addr); [done|]. rewrite u32_small by lia.
  destruct (Z.ltb_spec (p_sz p) (addr + 4)); [done|]. intros [= <-]. split; [lia | done].
Qed.

(** What [argptr] accepts. *)
Lemma argptr_spec m p n size :
  user_size p → 0 ≤ size < 2147483648 →
  argptr m p n size =
    i ← argint m p n; if (p_sz p <=? u32 i) || (p_sz p <? u32 i + size) then None else Some (u32 i).
Proof.
  intros Hsz Hs. unfold argptr. destruct (argint m p n) as [i|]; [|done]. cbn.
  rewrite Z.geb_leb, Z.gtb_ltb. destruct (Z.leb_spec (p_sz p) (u32 i)); [done|].
  unfold user_size, KERNBASE in Hsz. pose proof (u32_range i). by rewrite (u32_small (u32 i + size)) by lia.
Qed.

(** ** Theorems *)

(** C35: A pointer argument that [argptr] accepts for a block of [size] bytes, [size] not
    negative, is the argument word of the call, and the whole block lies in the memory of
    the process: neither the address nor the end of the block wraps around. *)
Theorem argptr_bounds m p n size a :
  user_size p → 0 ≤ size < 2147483648 → argptr m p n size = Some a →
  0 ≤ a ∧ a < p_sz p ∧ a + size ≤ p_sz p ∧
  a = u32 (s32 (load32 m (u32 (tf_esp (p_trapframe p) + 4 + 4 * n)))).
Proof.
  intros Hsz Hs. rewrite argptr_spec by done. destruct (argint m p n) as [i|] eqn:E; [|done]. cbn.
  unfold argint in E. apply fetchint_bounds in E as [_ ->]; [|done|apply u32_range].
  pose proof (u32_range (s32 (load32 m (u32 (tf_esp (p_trapframe p) + 4 + 4 * n))))) as Hv.
  set (v := u32 (s32 _)) in *. destruct (Z.leb_spec (p_sz p) v), (Z.ltb_spec (p_sz p) (v + size)); try done.
  intros [= <-]. split_and!; [lia..|done].
Qed.

(** [fetchstr] accepts exactly the NUL-terminated strings that lie in the process's
    memory, NUL included, and returns their length. *)
Theorem fetchstr_correct m p addr a n :
  user_size p → 0 ≤ addr →
  fetchstr m p addr = Some (a, n) ↔
    a = addr ∧ ∃ l, cstr m addr l ∧ n = Z.of_nat (length l) ∧ addr + Z.of_nat (length l) < p_sz p.
Proof.
  intros Hsz Ha. unfold fetchstr. rewrite Z.geb_leb. destruct (Z.leb_spec (p_sz p) addr).
  - split; [done|]. intros (_ & l & _ & _ & ?). lia.
  - destruct (fetchstr_loop (Z.to_nat (p_sz p - addr)) m addr) as [n'|] eqn:E; cbn; split.
    + intros [= <- <-]. split; [done|]. apply fetchstr_loop_spec in E as (l & Hl & -> & Hlt).
      exists l. split_and!; [done | done | lia].
    + intros (-> & l & Hl & -> & Hlt). apply fetchstr_loop_spec in E as (l' & Hl' & -> & _).
      by rewrite (cstr_inj _ _ _ _ Hl Hl').
    + done.
    + intros (-> & l & Hl & -> & Hlt).
      assert (E' : fetchstr_loop (Z.to_nat (p_sz p - addr)) m addr = Some (Z.of_nat (length l)))
        by (apply fetchstr_loop_spec; exists l; split_and!; [done | done | lia]).
      congruence.
Qed.

(** A process of two pages whose stack holds the argument 4096 at address 8184. *)
Definition demo_caller : proc :=
  set_p_sz 8192 (set_p_trapframe (set_tf_esp 8180 zero_trapframe) zero_proc).
Definition demo_stack : mem := store32 (λ _, 0) 8184 4096.

Lemma argptr_bounds_witness :
  argptr demo_stack demo_caller 0 100 = Some 4096 ∧ 4096 + 100 ≤ p_sz demo_caller.
Proof.
  split; [vm_compute; reflexivity|].
  apply (argptr_bounds demo_stack demo_caller 0 100 4096).
  - split; vm_compute; congruence.
  - lia.
  - vm_compute. reflexivity.
Defined.

Lemma fetchstr_correct_witness :
  fetchstr (λ a, if a =? 4096 then 104 else 0) demo_caller 4096 = Some (4096, 1).
Proof.
  apply (fetchstr_correct (λ a, if a =? 4096 then 104 else 0) demo_caller 4096 4096 1).
  - split; vm_compute; congruence.
  - lia.
  - split; [reflexivity|]. exists [104]. split_and!; [cbn; split_and!; done | reflexivity | vm_compute; reflexivity].
Defined.

(** A negative size is accepted wherever the block would start. *)
Example argptr_negative_size : argptr demo_stack demo_caller 0 (-1) = Some 4096.
Proof. vm_compute. reflexivity. Qed.
