(* ===== verification/SysProc.v ===== *)
(** * Process system calls

    Models src/sysproc.c for either configuration of src/proc.c: [procops] lists the
    functions of process management it calls, and [mlfq_ops] and [table_ops] are the two
    configurations.  A call that switches to the scheduler ends there ([Switches], [Exits])
    and continues with its [_resume] function.

    The memory of the process is part of the environment ([umem]); [clock] is [cmostime] of
    [Cmos].  [sys_halt] only writes to a port. *)

From S2P Require Import Prelude Param KString Spinlock ProcData ProcServices ProcCommon ProcMLFQ ProcTable Cmos Syscall.
Local Open Scope Z_scope.

(** ** Definitions *)

(** How a call ends: it returns, sleeps with the [intena] that [sched] saved, or exits. *)
Inductive sysres := Returns (v : Z) | Switches (saved : bool) | Exits.

Record procops (E : Type) := mkProcops {
  po_fork : K (kst E) Z;
  po_exit : K (kst E) unit;
  po_wait : K (kst E) (Z + bool);
  po_kill : Z → K (kst E) Z;
  po_sleep : chan → lockref → K (kst E) bool;
  po_wakeup : chan → K (kst E) unit;
  po_yield : K (kst E) bool;
  po_setpriority : Z → Z → K (kst E) Z
}.
Arguments po_fork {E}. Arguments po_exit {E}. Arguments po_wait {E}. Arguments po_kill {E}.
Arguments po_sleep {E}. Arguments po_wakeup {E}. Arguments po_yield {E}. Arguments po_setpriority {E}.

Definition mlfq_ops {E : Type} `{!Services E} : procops E :=
  mkProcops E ProcMLFQ.fork ProcMLFQ.exit_enter ProcMLFQ.wait_enter ProcMLFQ.kill
    ProcMLFQ.sleep_enter ProcMLFQ.wakeup ProcMLFQ.yield_enter ProcMLFQ.setpriority.

(** [wait] and [setpriority] without state lists; the latter looks for the process on lists
    that are empty. *)
Definition table_wait {E : Type} `{!Services E} : K (kst E) (Z + bool) :=
  acquire_ptable;;
  r ← ProcTable.wait_pass;
  match r with
  | WaitReturn pid => mret (inl pid)
  | WaitSleep =>
      cur ← curproc;
      saved ← ProcTable.sleep_enter (chan_of_ptr cur) LkPtable;
      mret (inr saved)
  end.
Definition table_ops {E : Type} `{!Services E} : procops E :=
  mkProcops E ProcTable.fork ProcTable.exit_enter table_wait ProcTable.kill
    ProcTable.sleep_enter ProcTable.wakeup ProcTable.yield_enter ProcMLFQ.setpriority.

Definition SIZEOF_uproc : Z := 96.
Definition SIZEOF_rtcdate : Z := 24.

Fixpoint store_words (m : mem) (a : Z) (l : list Z) : mem :=
  match l with
  | [] => m
  | w :: l' => store_words (store32 m a (u32 w)) (a + 4) l'
  end.

(** A string with its terminating NUL. *)
Fixpoint store_string (m : mem) (a : Z) (l : list Z) : mem :=
  match l with
  | [] => mupd m a 0
  | c :: l' => store_string (mupd m a c) (a + 1) l'
  end.

(** [struct uproc] and [struct rtcdate] in memory. *)
Definition store_uproc (m : mem) (a : Z) (u : uproc) : mem :=
  let m := store_words m a [u_pid u; u_uid u; u_gid u; u_ppid u; u_elapsed_ticks u; u_CPU_total_ticks u] in
  let m := store_string m (a + 24) (u_state u) in
  let m := store_words m (a + 56) [u_size u] in
  let m := store_string m (a + 60) (u_name u) in
  store_words m (a + 92) [u_priority u].
Fixpoint store_uprocs (m : mem) (a : Z) (l : list uproc) : mem :=
  match l with
  | [] => m
  | u :: l' => store_uprocs (store_uproc m a u) (a + SIZEOF_uproc) l'
  end.
Definition store_date (m : mem) (a : Z) (t : rtcdate) : mem :=
  store_words m a [second t; minute t; hour t; day t; month t; year t].

Section SysProc.
Context {E : Type} `{!Services E}.
Variable ops : procops E.
Variable umem : E → mem.
Variable set_umem : mem → E → E.
Variable clock : K E rtcdate.

Definition uarg {A : Type} (f : mem → proc → option A) : K (kst E) (option A) :=
  cur ← curproc;
  x ← pget cur;
  s ← kget;
  mret (f (umem (k_env s)) x).

Definition sys_fork : K (kst E) sysres := r ← po_fork ops; mret (Returns r).
Definition sys_exit : K (kst E) sysres := po_exit ops;; mret Exits.
Definition sys_wait : K (kst E) sysres :=
  r ← po_wait ops;
  mret (match r with inl pid => Returns pid | inr saved => Switches saved end).

Definition sys_kill : K (kst E) sysres :=
  a ← uarg (fun m p => argint m p 0);
  match a with
  | None => mret (Returns (-1))
  | Some pid => r ← po_kill ops pid; mret (Returns r)
  end.

Definition sys_getpid : K (kst E) sysres :=
  cur ← curproc; x ← pget cur; mret (Returns (s32 (p_pid x))).

Definition sys_sbrk : K (kst E) sysres :=
  a ← uarg (fun m p => argint m p 0);
  match a with
  | None => mret (Returns (-1))
  | Some n =>
      cur ← curproc;
      x ← pget cur;
      let addr := s32 (p_sz x) in
      r ← growproc n;
      mret (Returns (if r <? 0 then -1 else addr))
  end.

(** The loop of [sys_sleep]; [n] is converted to [uint] by the comparison. *)
Definition sleep_loop (n ticks0 : Z) : K (kst E) sysres :=
  s ← kget;
  if u32 (ticks s - ticks0) <? u32 n then
    cur ← curproc;
    x ← pget cur;
    if p_killed x then mret (Returns (-1))
    else
      saved ← po_sleep ops ChTicks LkNull;
      mret (Switches saved)
  else mret (Returns 0).

Definition sys_sleep : K (kst E) sysres :=
  a ← uarg (fun m p => argint m p 0);
  match a with
  | None => mret (Returns (-1))
  | Some n => s ← kget; sleep_loop n (ticks s)
  end.
Definition sys_sleep_resume (n ticks0 : Z) (saved : bool) : K (kst E) sysres :=
  sleep_resume LkNull saved;;
  sleep_loop n ticks0.

Definition sys_uptime : K (kst E) sysres := s ← kget; mret (Returns (s32 (ticks s))).

Definition sys_date : K (kst E) sysres :=
  a ← uarg (fun m p => argptr m p 0 SIZEOF_rtcdate);
  match a with
  | None => mret (Returns (-1))
  | Some d =>
      t ← lift_env clock;
      lift_env (kmod (fun e => set_umem (store_date (umem e) d t) e));;
      mret (Returns 0)
  end.

Definition sys_getuid : K (kst E) sysres :=
  cur ← curproc; x ← pget cur; mret (Returns (s32 (p_uid x))).
Definition sys_getgid : K (kst E) sysres :=
  cur ← curproc; x ← pget cur; mret (Returns (s32 (p_gid x))).

Definition sys_getppid : K (kst E) sysres :=
  cur ← curproc;
  x ← pget cur;
  match p_parent x with
  | Some _ => y ← pget (p_parent x); mret (Returns (s32 (p_pid y)))
  | None => mret (Returns (s32 (p_pid x)))
  end.

(** The result of [argint] is not tested: without an argument the value is undefined. *)
Definition sys_setuid : K (kst E) sysres :=
  a ← uarg (fun m p => argint m p 0);
  match a with
  | None => kundef "_uid not initialised"
  | Some uid =>
      if (uid >=? 0) && (uid <=? 32767) then
        cur ← curproc;
        pmod cur (set_p_uid uid);;
        mret (Returns 0)
      else mret (Returns (-1))
  end.
Definition sys_setgid : K (kst E) sysres :=
  a ← uarg (fun m p => argint m p 0);
  match a with
  | None => kundef "_gid not initialised"
  | Some gid =>
      if (gid >=? 0) && (gid <=? 32767) then
        cur ← curproc;
        pmod cur (set_p_gid gid);;
        mret (Returns 0)
      else mret (Returns (-1))
  end.

Definition sys_getprocs : K (kst E) sysres :=
  a ← uarg (fun m p => max ← argint m p 0; t ← argptr m p 1 (s32 (SIZEOF_uproc * max)); Some (max, t));
  match a with
  | None => mret (Returns (-1))
  | Some (max, t) =>
      r ← getprocs max;
      lift_env (kmod (fun e => set_umem (store_uprocs (umem e) t r.2) e));;
      mret (Returns r.1)
  end.

Definition sys_setpriority : K (kst E) sysres :=
  a ← uarg (fun m p => pid ← argint m p 0; value ← argint m p 1; Some (pid, value));
  match a with
  | None => mret (Returns (-1))
  | Some (pid, value) => r ← po_setpriority ops pid value; mret (Returns r)
  end.
End SysProc.
