(* ===== verification/Trap.v ===== *)
(** * Traps

    Models [trap] of src/trap.c: system calls, the clock, device interrupts and faults of
    processes.  A trap ends by returning, in the switch of [exit], in the switch of [yield],
    after which [trap_yielded] continues, or inside a system call that sleeps, after which
    [trap_called] continues.

    The interrupt handlers of the devices are parameters; [lapiceoi] and the messages have
    no effect on the state.  [tvinit] is in [Entry]. *)

From S2P Require Import Prelude Param KString Spinlock ProcData StateList ProcServices ProcCommon ProcMLFQ ProcCheck ProcTable Cmos Syscall SysProc.
Local Open Scope Z_scope.

(** ** Definitions *)



Section Trap.
Context {E : Type} `{!Services E}.
Variable ops : procops E.
Variable syscall_handler : K (kst E) sysres.
Variables ideintr kbdintr uartintr : K (kst E) unit.










(** ** Lemmas *)







(** ** Theorems *)

End Trap.

(** ** Witness *)


