(* ===== verification/Exec.v ===== *)
(** * Program loading

    Models src/exec.c with the formats of src/elf.h, on the state of a system call: the
    files, the memory and the allocator of [FileTable] and the current process.

    The addresses of the local variables [elf], [ph] and [ustack], into which [readi] and
    [copyout] go by pointer, are parameters, as are those of [Fs] and [Vm].  [switchuvm]
    loads the page-table register: from then on user addresses, those below [KERNBASE],
    show the pages of the new page directory ([user_view]); its task segment is in
    [Entry].  The loops over strings take fuel. *)

From S2P Require Import Prelude Param KString Spinlock ProcData ProcCommon Bio Log Fs Kalloc Vm Pipe FileTable.
Local Open Scope Z_scope.

(** ** Definitions *)

Record sysst := mkSysst {
  ss_kf : kfst;
  ss_proc : proc
}.

Definition set_ss_kf (x : kfst) (s : sysst) : sysst := mkSysst x (ss_proc s).
Definition onkf {A : Type} (m : K kfst A) : K sysst A := kzoom ss_kf set_ss_kf m.
Definition sysfs {A : Type} (m : K fsst A) : K sysst A := onkf (onfs m).
Definition sysmem (A : Type) (m : K kms A) : K sysst A := onkf (onkmem m).

Definition get_proc : K sysst proc := s ← kget; mret (ss_proc s).
Definition mod_proc (f : proc → proc) : K sysst unit :=
  kmod (fun s => mkSysst (ss_kf s) (f (ss_proc s))).
Definition get_mem : K sysst mem := s ← kget; mret (fs_mem (kf_fs (ss_kf s))).
Definition set_memory (m : mem) : K sysst unit := sysfs (kmod (set_fs_mem m)).

(** The byte that a user address shows under a page directory. *)
Definition user_view (m : mem) (pgdir : Z) : mem := fun a =>
  if (0 <=? a) && (a <? KERNBASE) then
    let d := load32 m (pgdir + 4 * PDX a) in
    if present d then
      let e := load32 m (p2v (PTE_ADDR d) + 4 * PTX a) in
      if present e then m (p2v (PTE_ADDR e) + a mod PGSIZE) else m a
    else m a
  else m a.

Definition switchuvm : K sysst unit :=
  p ← get_proc;
  s ← kget;
  if p_pgdir p =? 0 then kpanic "switchuvm: no pgdir"
  else
    c ← kout (popcli (pushcli (fs_cpu (kf_fs (ss_kf s)))));
    sysfs (kmod (set_fs_cpu c));;
    m ← get_mem;
    set_memory (user_view m (p_pgdir p)).

(** *** src/elf.h *)
Definition ELF_MAGIC : Z := 1179403647.
Definition ELF_PROG_LOAD : Z := 1.
Definition SIZEOF_elfhdr : Z := 52.
Definition SIZEOF_proghdr : Z := 32.

(** The mode bits of an inode. *)
Definition mode_bit (x : inode) (i : Z) : bool := Z.testbit (di_mode (i_d x)) i.
Definition o_x : Z := 0.
Definition g_x : Z := 3.
Definition u_x : Z := 6.
Definition setuid_bit : Z := 9.

Section Exec.
Variable kend kdata : Z.
Variable devsw_table : list devsw.
Variables de_at name_at : Z.              (* locals of src/fs.c, see [Fs] *)
Variables elf_at ph_at ustack_at : Z.     (* locals of [exec] *)

(** The loop over the program headers: [None] is [goto bad], otherwise the new [sz]. *)
Fixpoint load_segments (k : nat) (ip : nat) (pgdir off sz : Z) : K sysst (option Z) :=
  match k with
  | O => mret (Some sz)
  | S k' =>
      r ← sysfs (readi devsw_table ip ph_at (u32 off) SIZEOF_proghdr);
      if negb (u32 r =? SIZEOF_proghdr) then mret None
      else
        m ← get_mem;
        let type := load32 m ph_at in
        let poff := load32 m (ph_at + 4) in
        let vaddr := load32 m (ph_at + 8) in
        let filesz := load32 m (ph_at + 16) in
        let memsz := load32 m (ph_at + 20) in
        if negb (type =? ELF_PROG_LOAD) then load_segments k' ip pgdir (s32 (off + SIZEOF_proghdr)) sz
        else if memsz <? filesz then mret None
        else
          sz ← sysmem _ (allocuvm kend pgdir sz (u32 (vaddr + memsz)));
          if sz =? 0 then mret None
          else
            r ← loaduvm sysmem (fun dst o n => sysfs (readi devsw_table ip dst o n)) pgdir vaddr poff filesz;
            if r <? 0 then mret None
            else load_segments k' ip pgdir (s32 (off + SIZEOF_proghdr)) sz
  end.

(** The loop over the arguments from number [argc] on, with the stack pointer [sp]: the
    final [argc] and [sp]. *)
Fixpoint push_args (fuel : nat) (pgdir : Z) (argv : list Z) (argc : nat) (sp : Z) :
    K sysst (option (nat * Z)) :=
  match argv with
  | [] => mret (Some (argc, sp))
  | a :: argv' =>
      if (MAXARG <=? argc)%nat then mret None
      else
        m ← get_mem;
        len ← kout (strlen fuel m a);
        let sp := Z.land (u32 (sp - (len + 1))) (Z.lnot 3) in
        r ← sysmem _ (copyout pgdir sp a (len + 1));
        if r <? 0 then mret None
        else
          m ← get_mem;
          set_memory (store32 m (ustack_at + 4 * (3 + Z.of_nat argc)) sp);;
          push_args fuel pgdir argv' (S argc) sp
  end.

(** [last] after the loop over the path. *)
Fixpoint path_last (fuel : nat) (m : mem) (s last : Z) : outcome Z :=
  match fuel with
  | O => Diverge
  | S fuel' =>
      if m s =? 0 then Ok last
      else path_last fuel' m (s + 1) (if m s =? slash then s + 1 else last)
  end.

(** The label [bad]. *)
Definition exec_bad (pgdir : Z) (ip : option nat) : K sysst Z :=
  kwhen (negb (pgdir =? 0)) (sysmem _ (freevm kend pgdir));;
  match ip with
  | Some ip => sysfs (iunlockput ip;; onlog end_op)
  | None => mret tt
  end;;
  mret (-1).

(** The user image is complete: the stack, the name and the switch to it. *)
Definition exec_commit (fuel : nat) (path : Z) (argv : list Z) (pgdir sz entry : Z) : K sysst Z :=
  let sz := PGROUNDUP sz in
  sz ← sysmem _ (allocuvm kend pgdir sz (u32 (sz + 2 * PGSIZE)));
  if sz =? 0 then exec_bad pgdir None
  else
    sysmem _ (clearpteu pgdir (u32 (sz - 2 * PGSIZE)));;
    r ← push_args fuel pgdir argv 0 sz;
    match r with
    | None => exec_bad pgdir None
    | Some (argc, sp) =>
        let argc := Z.of_nat argc in
        m ← get_mem;
        let m := store32 m (ustack_at + 4 * (3 + argc)) 0 in
        let m := store32 m ustack_at 4294967295 in
        let m := store32 m (ustack_at + 4) argc in
        let m := store32 m (ustack_at + 8) (u32 (sp - (argc + 1) * 4)) in
        set_memory m;;
        let sp := u32 (sp - (3 + argc + 1) * 4) in
        r ← sysmem _ (copyout pgdir sp ustack_at ((3 + argc + 1) * 4));
        if r <? 0 then exec_bad pgdir None
        else
          m ← get_mem;
          last ← kout (path_last fuel m path path);
          n ← kout (strlen fuel m last);
          mod_proc (set_p_name (copy_name 16 (mread m last (Z.to_nat n))));;
          p ← get_proc;
          let oldpgdir := p_pgdir p in
          mod_proc (set_p_pgdir pgdir);;
          mod_proc (set_p_sz sz);;
          mod_proc (fun p => set_p_trapframe (set_tf_eip entry (p_trapframe p)) p);;
          mod_proc (fun p => set_p_trapframe (set_tf_esp sp (p_trapframe p)) p);;
          switchuvm;;
          sysmem _ (freevm kend oldpgdir);;
          mret 0
    end.

(** The tests of the mode bits ([CS333_P5]): whether the program may be run. *)
Definition may_exec (p : proc) (x : inode) : bool :=
  if (p_uid p =? di_uid (i_d x)) && negb (mode_bit x u_x) then false
  else if (p_gid p =? di_gid (i_d x)) && negb (mode_bit x g_x) then false
  else mode_bit x o_x.

Definition exec (fuel : nat) (path : Z) (argv : list Z) : K sysst Z :=
  sysfs (onlog begin_op);;
  ip ← sysfs (namei devsw_table de_at name_at fuel path);
  match ip with
  | None => sysfs (onlog end_op);; mret (-1)
  | Some ip =>
      sysfs (ilock (Some ip));;
      x ← sysfs (ino ip);
      p ← get_proc;
      if negb (may_exec p x) then exec_bad 0 (Some ip)
      else
        kwhen (mode_bit x setuid_bit) (mod_proc (set_p_uid (di_uid (i_d x))));;
        r ← sysfs (readi devsw_table ip elf_at 0 SIZEOF_elfhdr);
        if u32 r <? SIZEOF_elfhdr then exec_bad 0 (Some ip)
        else
          m ← get_mem;
          if negb (load32 m elf_at =? ELF_MAGIC) then exec_bad 0 (Some ip)
          else
            let entry := load32 m (elf_at + 24) in
            let phoff := load32 m (elf_at + 28) in
            let phnum := load16 m (elf_at + 44) in
            pgdir ← sysmem _ (setupkvm kdata);
            if pgdir =? 0 then exec_bad 0 (Some ip)
            else
              r ← load_segments (Z.to_nat phnum) ip pgdir (s32 phoff) 0;
              match r with
              | None => exec_bad pgdir (Some ip)
              | Some sz =>
                  sysfs (iunlockput ip;; onlog end_op);;
                  exec_commit fuel path argv pgdir sz entry
              end
  end.
End Exec.
