(* ===== verification/SysFile.v ===== *)
(** * File system calls

    Models src/sysfile.c on the state of [Exec]: the file table, the file system, the pipes
    and the memory, and the current process with its descriptors.  [proc->cwd] is the
    current directory of the file system's state.  The arguments come from the user's
    stack by the functions of [Syscall].

    The addresses of local variables passed by pointer ([de] and [name]) and of the string
    constants ["."] and [".."] are parameters, as in [Fs]; path loops take fuel. *)

From S2P Require Import Prelude Param KString Spinlock ProcData ProcCommon Bio Log Fs Kalloc Vm Pipe FileTable Syscall Exec.
Local Open Scope Z_scope.

(** ** Definitions *)

(** Changes of an inode's fields. *)
Definition set_di_dev (major minor nlink : Z) (x : dinode) : dinode :=
  mkDinode (di_type x) major minor nlink (di_uid x) (di_gid x) (di_mode x) (di_size x) (di_addrs x).
Definition set_di_nlink (n : Z) (x : dinode) : dinode :=
  mkDinode (di_type x) (di_major x) (di_minor x) n (di_uid x) (di_gid x) (di_mode x) (di_size x) (di_addrs x).
Definition set_di_uid (u : Z) (x : dinode) : dinode :=
  mkDinode (di_type x) (di_major x) (di_minor x) (di_nlink x) u (di_gid x) (di_mode x) (di_size x) (di_addrs x).
Definition set_di_gid (g : Z) (x : dinode) : dinode :=
  mkDinode (di_type x) (di_major x) (di_minor x) (di_nlink x) (di_uid x) g (di_mode x) (di_size x) (di_addrs x).
Definition set_di_mode (m : Z) (x : dinode) : dinode :=
  mkDinode (di_type x) (di_major x) (di_minor x) (di_nlink x) (di_uid x) (di_gid x) m (di_size x) (di_addrs x).
Definition dmod (ip : nat) (f : dinode → dinode) : K fsst unit :=
  ino_mod ip (fun x => set_i_d (f (i_d x)) x).

(** [argint], [argptr] and [argstr] for the current process. *)
Definition arg {A : Type} (f : mem → proc → option A) : K sysst (option A) :=
  m ← get_mem;
  p ← get_proc;
  mret (f m p).

(** The descriptor and the file of argument [n]. *)
Definition argfd (n : Z) : K sysst (option (Z * nat)) :=
  arg (fun m p =>
    fd ← argint m p n;
    if (fd <? 0) || (fd >=? Z.of_nat NOFILE) then None
    else f ← mjoin (p_ofile p !! Z.to_nat fd); Some (fd, f)).

Definition set_fd (fd : nat) (f : option nat) : K sysst unit :=
  mod_proc (fun p => set_p_ofile (<[fd := f]> (p_ofile p)) p).

Definition fdalloc (f : nat) : K sysst Z :=
  p ← get_proc;
  match list_find (λ o, o = None) (p_ofile p) with
  | Some (fd, _) => set_fd fd (Some f);; mret (Z.of_nat fd)
  | None => mret (-1)
  end.

Definition sys_dup : K sysst Z :=
  a ← argfd 0;
  match a with
  | None => mret (-1)
  | Some (_, f) =>
      fd ← fdalloc f;
      if fd <? 0 then mret (-1)
      else
        onkf (filedup f);;
        mret fd
  end.

Section Files.
Variable kend kdata : Z.
Variable devsw_table : list devsw.

(** The arguments of [read] and [write]: file, address and count. *)
Definition rw_args : K sysst (option (nat * Z * Z)) :=
  a ← argfd 0;
  match a with
  | None => mret None
  | Some (_, f) =>
      arg (fun m p => n ← argint m p 2; a ← argptr m p 1 n; Some (f, a, n))
  end.

Definition sys_read : K sysst Z :=
  a ← rw_args;
  match a with
  | None => mret (-1)
  | Some (f, p, n) => onkf (fileread devsw_table f p n)
  end.

Definition sys_write : K sysst Z :=
  a ← rw_args;
  match a with
  | None => mret (-1)
  | Some (f, p, n) => onkf (filewrite devsw_table f p n)
  end.

Definition sys_close : K sysst Z :=
  a ← argfd 0;
  match a with
  | None => mret (-1)
  | Some (fd, f) =>
      set_fd (Z.to_nat fd) None;;
      onkf (fileclose kend f);;
      mret 0
  end.

Definition SIZEOF_stat : Z := 28.

Definition sys_fstat : K sysst Z :=
  a ← argfd 0;
  match a with
  | None => mret (-1)
  | Some (_, f) =>
      st ← arg (fun m p => argptr m p 1 SIZEOF_stat);
      match st with
      | None => mret (-1)
      | Some st => onkf (filestat f st)
      end
  end.

Variables de_at name_at : Z.            (* locals of src/fs.c *)
Variables sde_at sname_at : Z.          (* [de] and [name] of this file *)
Variables dot_at dotdot_at : Z.         (* the constants ["."] and [".."] *)
Variable fuel : nat.

Definition fs_namei (path : Z) : K fsst (option nat) := namei devsw_table de_at name_at fuel path.
Definition fs_nameiparent (path : Z) : K fsst (option nat) :=
  nameiparent devsw_table de_at fuel path sname_at.
Definition fs_dirlookup (dp : nat) (name : Z) : K fsst (option (nat * Z)) :=
  dirlookup devsw_table de_at dp name.
Definition fs_dirlink (dp : nat) (name inum : Z) : K fsst Z := dirlink devsw_table de_at dp name inum.

(** The label [bad] of [sys_link]. *)
Definition link_bad (ip : nat) : K fsst Z :=
  ilock (Some ip);;
  dmod ip (fun d => set_di_nlink (s16 (di_nlink d - 1)) d);;
  iupdate ip;;
  iunlockput ip;;
  onlog end_op;;
  mret (-1).

Definition link_paths (old new : Z) : K fsst Z :=
  onlog begin_op;;
  r ← fs_namei old;
  match r with
  | None => onlog end_op;; mret (-1)
  | Some ip =>
      ilock (Some ip);;
      x ← ino ip;
      if di_type (i_d x) =? T_DIR then
        iunlockput ip;;
        onlog end_op;;
        mret (-1)
      else
        dmod ip (fun d => set_di_nlink (s16 (di_nlink d + 1)) d);;
        iupdate ip;;
        iunlock (Some ip);;
        r ← fs_nameiparent new;
        match r with
        | None => link_bad ip
        | Some dp =>
            ilock (Some dp);;
            d ← ino dp;
            x ← ino ip;
            bad ← (if negb (i_dev d =? i_dev x) then mret true
                   else r ← fs_dirlink dp sname_at (i_inum x); mret (r <? 0));
            if (bad : bool) then
              iunlockput dp;;
              link_bad ip
            else
              iunlockput dp;;
              iput ip;;
              onlog end_op;;
              mret 0
        end
  end.

Definition sys_link : K sysst Z :=
  a ← arg (fun m p => old ← argstr m p 0; new ← argstr m p 1; Some (old.1, new.1));
  match a with
  | None => mret (-1)
  | Some (old, new) => sysfs (link_paths old new)
  end.

(** The loop of [isdirempty] from offset [off] on. *)
Fixpoint isdirempty_loop (k : nat) (dp : nat) (off : Z) : K fsst bool :=
  match k with
  | O => kout Diverge
  | S k' =>
      x ← ino dp;
      if off <? di_size (i_d x) then
        r ← readi devsw_table dp sde_at off SIZEOF_dirent;
        if negb (r =? SIZEOF_dirent) then kpanic "isdirempty: readi"
        else
          s ← kget;
          if negb (load16 (fs_mem s) sde_at =? 0) then mret false
          else isdirempty_loop k' dp (off + SIZEOF_dirent)
      else mret true
  end.

Definition isdirempty (dp : nat) : K fsst bool :=
  x ← ino dp;
  isdirempty_loop (dir_fuel (di_size (i_d x))) dp (2 * SIZEOF_dirent).

(** The label [bad] of [sys_unlink]. *)
Definition unlink_bad (dp : nat) : K fsst Z :=
  iunlockput dp;;
  onlog end_op;;
  mret (-1).

Definition unlink_path (path : Z) : K fsst Z :=
  onlog begin_op;;
  r ← fs_nameiparent path;
  match r with
  | None => onlog end_op;; mret (-1)
  | Some dp =>
      ilock (Some dp);;
      s ← kget;
      if (namecmp (fs_mem s) sname_at dot_at =? 0) || (namecmp (fs_mem s) sname_at dotdot_at =? 0)
      then unlink_bad dp
      else
        r ← fs_dirlookup dp sname_at;
        match r with
        | None => unlink_bad dp
        | Some (ip, off) =>
            ilock (Some ip);;
            x ← ino ip;
            if di_nlink (i_d x) <? 1 then kpanic "unlink: nlink < 1"
            else
              nonempty ← (if di_type (i_d x) =? T_DIR then e ← isdirempty ip; mret (negb e)
                          else mret false);
              if (nonempty : bool) then
                iunlockput ip;;
                unlink_bad dp
              else
                kmod (fun s => set_fs_mem (memset (fs_mem s) sde_at 0 SIZEOF_dirent) s);;
                r ← writei devsw_table dp sde_at off SIZEOF_dirent;
                if negb (r =? SIZEOF_dirent) then kpanic "unlink: writei"
                else
                  x ← ino ip;
                  kwhen (di_type (i_d x) =? T_DIR)
                    (dmod dp (fun d => set_di_nlink (s16 (di_nlink d - 1)) d);;
                     iupdate dp);;
                  iunlockput dp;;
                  dmod ip (fun d => set_di_nlink (s16 (di_nlink d - 1)) d);;
                  iupdate ip;;
                  iunlockput ip;;
                  onlog end_op;;
                  mret 0
        end
  end.

Definition sys_unlink : K sysst Z :=
  a ← arg (fun m p => argstr m p 0);
  match a with
  | None => mret (-1)
  | Some (path, _) => sysfs (unlink_path path)
  end.

Definition create (path type major minor : Z) : K fsst (option nat) :=
  r ← fs_nameiparent path;
  match r with
  | None => mret None
  | Some dp =>
      ilock (Some dp);;
      r ← fs_dirlookup dp sname_at;
      match r with
      | Some (ip, _) =>
          iunlockput dp;;
          ilock (Some ip);;
          x ← ino ip;
          if (type =? T_FILE) && (di_type (i_d x) =? T_FILE) then mret (Some ip)
          else
            iunlockput ip;;
            mret None
      | None =>
          d ← ino dp;
          ip ← ialloc (i_dev d) type;
          ilock (Some ip);;
          dmod ip (set_di_dev major minor 1);;
          iupdate ip;;
          x ← ino ip;
          kwhen (type =? T_DIR)
            (dmod dp (fun d => set_di_nlink (s16 (di_nlink d + 1)) d);;
             iupdate dp;;
             d ← ino dp;
             r ← fs_dirlink ip dot_at (i_inum x);
             bad ← (if r <? 0 then mret true
                    else r ← fs_dirlink ip dotdot_at (i_inum d); mret (r <? 0));
             kwhen bad (kpanic "create dots"));;
          r ← fs_dirlink dp sname_at (i_inum x);
          if r <? 0 then kpanic "create: dirlink"
          else
            iunlockput dp;;
            mret (Some ip)
      end
  end.

(** The inode [sys_open] opens, locked: created, or found by its name. *)
Definition open_inode (path omode : Z) : K fsst (option nat) :=
  if negb (Z.land omode O_CREATE =? 0) then
    r ← create path T_FILE 0 0;
    match r with
    | None => onlog end_op;; mret None
    | Some ip => mret (Some ip)
    end
  else
    r ← fs_namei path;
    match r with
    | None => onlog end_op;; mret None
    | Some ip =>
        ilock (Some ip);;
        x ← ino ip;
        if (di_type (i_d x) =? T_DIR) && negb (omode =? O_RDONLY) then
          iunlockput ip;;
          onlog end_op;;
          mret None
        else mret (Some ip)
    end.

Definition sys_open : K sysst Z :=
  a ← arg (fun m p => path ← argstr m p 0; omode ← argint m p 1; Some (path.1, omode));
  match a with
  | None => mret (-1)
  | Some (path, omode) =>
      sysfs (onlog begin_op);;
      r ← sysfs (open_inode path omode);
      match r with
      | None => mret (-1)
      | Some ip =>
          f ← onkf filealloc;
          fd ← match f with Some f => fdalloc f | None => mret (-1) end;
          match f with
          | Some f =>
              if fd <? 0 then
                onkf (fileclose kend f);;
                sysfs (iunlockput ip;; onlog end_op);;
                mret (-1)
              else
                sysfs (iunlock (Some ip);; onlog end_op);;
                onkf (file_mod f (fun x => mkFile FD_INODE (f_ref x)
                  (Z.land omode O_WRONLY =? 0)
                  (negb (Z.land omode O_WRONLY =? 0) || negb (Z.land omode O_RDWR =? 0))
                  (f_pipe x) ip 0));;
                mret fd
          | None =>
              sysfs (iunlockput ip;; onlog end_op);;
              mret (-1)
          end
      end
  end.

(** [sys_mkdir] and [sys_mknod] after their arguments. *)
Definition make_node (path type major minor : Z) : K fsst Z :=
  r ← create path type major minor;
  match r with
  | None => onlog end_op;; mret (-1)
  | Some ip =>
      iunlockput ip;;
      onlog end_op;;
      mret 0
  end.

Definition sys_mkdir : K sysst Z :=
  sysfs (onlog begin_op);;
  a ← arg (fun m p => argstr m p 0);
  match a with
  | None => sysfs (onlog end_op);; mret (-1)
  | Some (path, _) => sysfs (make_node path T_DIR 0 0)
  end.

Definition sys_mknod : K sysst Z :=
  sysfs (onlog begin_op);;
  a ← arg (fun m p =>
    path ← argstr m p 0; major ← argint m p 1; minor ← argint m p 2; Some (path.1, major, minor));
  match a with
  | None => sysfs (onlog end_op);; mret (-1)
  | Some (path, major, minor) => sysfs (make_node path T_DEV (s16 major) (s16 minor))
  end.

(** [proc->cwd = ip]. *)
Definition set_cwd (ip : nat) : K fsst unit :=
  kmod (fun s => mkFsst (fs_log s) (fs_sb s) (ic_lock s) (ic_inode s) (fs_mem s) ip (fs_wakeups s)).

Definition sys_chdir : K sysst Z :=
  sysfs (onlog begin_op);;
  a ← arg (fun m p => argstr m p 0);
  r ← match a with Some (path, _) => sysfs (fs_namei path) | None => mret None end;
  match r with
  | None => sysfs (onlog end_op);; mret (-1)
  | Some ip =>
      sysfs (
        ilock (Some ip);;
        x ← ino ip;
        if negb (di_type (i_d x) =? T_DIR) then
          iunlockput ip;;
          onlog end_op;;
          mret (-1)
        else
          iunlock (Some ip);;
          s ← kget;
          iput (fs_cwd s);;
          onlog end_op;;
          set_cwd ip;;
          mret 0)
  end.

(** The argument vector of [sys_exec] from entry [i] on. *)
Fixpoint exec_argv (k : nat) (m : mem) (p : proc) (uargv i : Z) : option (list Z) :=
  match k with
  | O => None
  | S k' =>
      uarg ← fetchint m p (u32 (uargv + 4 * i));
      if u32 uarg =? 0 then Some []
      else
        a ← fetchstr m p (u32 uarg);
        rest ← exec_argv k' m p uargv (i + 1);
        Some (a.1 :: rest)
  end.

Variables elf_at ph_at ustack_at : Z.

Definition sys_exec : K sysst Z :=
  a ← arg (fun m p =>
    path ← argstr m p 0; uargv ← argint m p 1; argv ← exec_argv MAXARG m p (u32 uargv) 0;
    Some (path.1, argv));
  match a with
  | None => mret (-1)
  | Some (path, argv) =>
      exec kend kdata devsw_table de_at name_at elf_at ph_at ustack_at fuel path argv
  end.

Definition sys_pipe : K sysst Z :=
  a ← arg (fun m p => argptr m p 0 8);
  match a with
  | None => mret (-1)
  | Some fd =>
      r ← onkf (pipealloc kend);
      match r with
      | None => mret (-1)
      | Some (rf, wf) =>
          fd0 ← fdalloc rf;
          fd1 ← (if fd0 <? 0 then mret (-1) else fdalloc wf);
          if (fd0 <? 0) || (fd1 <? 0) then
            kwhen (fd0 >=? 0) (set_fd (Z.to_nat fd0) None);;
            onkf (fileclose kend rf);;
            onkf (fileclose kend wf);;
            mret (-1)
          else
            m ← get_mem;
            set_memory (store32 (store32 m fd (u32 fd0)) (fd + 4) (u32 fd1));;
            mret 0
      end
  end.

(** [sys_chmod], [sys_chown] and [sys_chgrp] have one shape: the bounds of the new value and
    the field it is stored in. *)
Definition change_inode (lo hi : Z) (f : Z → dinode → dinode) : K sysst Z :=
  sysfs (onlog begin_op);;
  a ← arg (fun m p => path ← argstr m p 0; v ← argint m p 1; Some (path.1, v));
  match a with
  | None => sysfs (onlog end_op);; mret (-1)
  | Some (path, v) =>
      if (v <? lo) || (v >? hi) then sysfs (onlog end_op);; mret (-1)
      else
        r ← sysfs (fs_namei path);
        match r with
        | None => sysfs (onlog end_op);; mret (-1)
        | Some ip =>
            sysfs (
              ilock (Some ip);;
              dmod ip (f v);;
              iupdate ip;;
              iunlockput ip;;
              onlog end_op);;
            mret 0
        end
  end.

Definition sys_chmod : K sysst Z := change_inode 0 1777 (fun v => set_di_mode (u32 v)).
Definition sys_chown : K sysst Z := change_inode 0 32767 (fun v => set_di_uid (u16 v)).
Definition sys_chgrp : K sysst Z := change_inode 0 32767 (fun v => set_di_gid (u16 v)).
End Files.
