(* ===== verification/SysFileOps.v ===== *)
(** * What the file system calls do

    [read], [write] and [dup] of src/sysfile.c as a process sees them: the arguments on
    the user's stack, the descriptor table of the process, the open file behind the
    descriptor and the file on disk. *)

From S2P Require Import Prelude Param KString Spinlock ProcData ProcCommon Bio Log LogCrash LogOps Fs FsView FsFile FsRead FsInode FsWrite FsAgree Kalloc Vm Pipe FileTable FileWrite Syscall Exec SysFile.
Local Open Scope Z_scope.

(** ** Definitions *)

Definition memory (s : sysst) : mem := fs_mem (kf_fs (ss_kf s)).

(** Descriptor [fd] of the process is open and is file [f]. *)
Definition open_fd (p : proc) (fd : Z) : option nat :=
  if (fd <? 0) || (fd >=? Z.of_nat NOFILE) then None else mjoin (p_ofile p !! Z.to_nat fd).

(** The arguments of a call [read(fd, a, n)] or [write(fd, a, n)], with a count that is
    not negative. *)
Record rw_call (s : sysst) (fd a n : Z) : Prop := {
  rw_user : user_size (ss_proc s);
  rw_fd : argint (memory s) (ss_proc s) 0 = Some fd;
  rw_addr : ∃ i, argint (memory s) (ss_proc s) 1 = Some i ∧ a = u32 i;
  rw_count : argint (memory s) (ss_proc s) 2 = Some n;
  rw_pos : 0 ≤ n < 2147483648
}.

(** The block lies in the memory of the process. *)
Definition in_process (p : proc) (a n : Z) : bool := (a <? p_sz p) && (a + n <=? p_sz p).

(** How many descriptors of the process are file [f]. *)
Definition fd_count (p : proc) (f : nat) : Z :=
  Z.of_nat (length (filter (λ o, o = Some f) (p_ofile p))).

(** The reference counts of the file table: every open file counts the descriptors of this
    process and [others f] references from elsewhere. *)
Record refs_ok (others : nat → Z) (s : sysst) : Prop := {
  ro_fds : length (p_ofile (ss_proc s)) = NOFILE;
  ro_files : ∀ f x, kf_file (ss_kf s) !! f = Some x → f_ref x = others f + fd_count (ss_proc s) f;
  ro_open : ∀ fd f, p_ofile (ss_proc s) !! fd = Some (Some f) → is_Some (kf_file (ss_kf s) !! f);
  ro_others : ∀ f, 0 ≤ others f;
  ro_lock : locked (kf_lock (ss_kf s)) = 0;
  ro_cpu : cpu_ok (fs_cpu (kf_fs (ss_kf s)))
}.

(** ** Lemmas *)

Lemma runs_arg {A : Type} (g : mem → proc → option A) s (Q : option A → sysst → Prop) :
  Q (g (memory s) (ss_proc s)) s → runs (arg g) s Q.
Proof. intros HQ. by eapply runs_ok. Qed.

Lemma onkf_rule {A : Type} (m : K kfst A) s (Q : A → sysst → Prop) :
  runs m (ss_kf s) (λ a t, Q a (set_ss_kf t s)) → runs (onkf m) s Q.
Proof. apply runs_zoom. Qed.

Lemma runs_argfd n s fd (Q : option (Z * nat) → sysst → Prop) :
  argint (memory s) (ss_proc s) n = Some fd →
  Q ((λ f, (fd, f)) <$> open_fd (ss_proc s) fd) s → runs (argfd n) s Q.
Proof.
  intros E HQ. apply runs_arg. rewrite E. cbn. unfold open_fd in HQ.
  destruct ((fd <? 0) || (fd >=? Z.of_nat NOFILE)); [done|].
  by destruct (mjoin _).
Qed.

(** What [read] and [write] make of their arguments. *)
Lemma runs_rw_args s fd a n (Q : option (nat * Z * Z) → sysst → Prop) :
  rw_call s fd a n →
  Q (match open_fd (ss_proc s) fd with
     | Some f => if in_process (ss_proc s) a n then Some (f, a, n) else None
     | None => None
     end) s →
  runs rw_args s Q.
Proof.
  intros [Hu Hfd (i & Hi & ->) Hn Hpos] HQ. unfold rw_args. apply runs_bind, (runs_argfd 0 s fd); [done|].
  destruct (open_fd (ss_proc s) fd) as [f|]; cbn; [|by apply runs_ret].
  apply runs_arg. rewrite Hn. cbn. rewrite argptr_spec, Hi by done. cbn. unfold in_process in HQ.
  destruct (Z.leb_spec (p_sz (ss_proc s)) (u32 i)), (Z.ltb_spec (u32 i) (p_sz (ss_proc s))); try lia; [done|].
  cbn in *. destruct (Z.ltb_spec (p_sz (ss_proc s)) (u32 i + n)), (Z.leb_spec (u32 i + n) (p_sz (ss_proc s))); lia || done.
Qed.

(** A block in the memory of the process does not wrap around. *)
Lemma rw_range s fd a n :
  rw_call s fd a n → in_process (ss_proc s) a n = true →
  0 ≤ a ∧ a + n ≤ p_sz (ss_proc s) ∧ a + n < 4294967296.
Proof.
  intros [Hu _ (i & _ & ->) _ Hn] [H1 H2]%andb_true_iff. pose proof (u32_range i).
  unfold user_size, KERNBASE in Hu. lia.
Qed.

(** The lock of the file table. *)
Lemma runs_acquire_ftable s (Q : unit → kfst → Prop) :
  cpu_ok (fs_cpu (kf_fs s)) → locked (kf_lock s) = 0 →
  (∀ c lk, taken c lk → Q tt (set_kf_fs (set_fs_cpu c (kf_fs s)) (set_kf_lock lk s))) →
  runs acquire_ftable s Q.
Proof.
  intros Hc Hl HQ. destruct (acquire_taken _ _ Hc Hl) as (c & lk & E & Ht).
  eapply runs_ok; [unfold acquire_ftable; rewrite E; reflexivity | auto].
Qed.

Lemma runs_release_ftable s (Q : unit → kfst → Prop) :
  taken (fs_cpu (kf_fs s)) (kf_lock s) →
  (∀ c lk, cpu_ok c → locked lk = 0 → Q tt (set_kf_fs (set_fs_cpu c (kf_fs s)) (set_kf_lock lk s))) →
  runs release_ftable s Q.
Proof.
  intros Ht HQ. destruct (release_taken _ _ Ht) as (c & lk & E & Hc & Hl).
  eapply runs_ok; [unfold release_ftable; rewrite E; reflexivity | auto].
Qed.

Lemma filedup_rule f x s (Q : nat → kfst → Prop) :
  cpu_ok (fs_cpu (kf_fs s)) → locked (kf_lock s) = 0 → kf_file s !! f = Some x → 1 ≤ f_ref x →
  (∀ c lk, cpu_ok c → locked lk = 0 →
     Q f (set_kf_fs (set_fs_cpu c (kf_fs s)) (set_kf_lock lk
            (set_kf_file (<[f := set_f_ref (f_ref x + 1) x]> (kf_file s)) s)))) →
  runs (filedup f) s Q.
Proof.
  intros Hc Hl Hx Href HQ. unfold filedup. apply runs_bind, runs_acquire_ftable; [done..|]. intros c lk Ht.
  apply runs_bind, (file_get_rule f x); [done|]. destruct (Z.ltb_spec (f_ref x) 1); [lia|].
  apply runs_bind, (file_mod_rule f _ x); [done|].
  apply runs_bind, runs_release_ftable; [done|]. intros c' lk' Hc' Hl'. apply runs_ret.
  exact (HQ c' lk' Hc' Hl').
Qed.

(** The descriptors after one more is opened. *)
Lemma fd_count_insert l fd (f g : nat) :
  l !! fd = Some None →
  Z.of_nat (length (filter (λ o, o = Some g) (<[fd := Some f]> l))) =
  Z.of_nat (length (filter (λ o, o = Some g) l)) + (if decide (f = g) then 1 else 0).
Proof.
  revert fd. induction l as [|o l IH]; intros [|fd] E; try done; cbn in E.
  - injection E as ->. cbn [insert list_insert]. rewrite !filter_cons.
    rewrite (decide_False (P := None = Some g)) by done.
    destruct (decide (f = g)), (decide (Some f = Some g)); cbn [length]; try congruence; lia.
  - change (<[S fd := Some f]> (o :: l)) with (o :: <[fd := Some f]> l). rewrite !filter_cons.
    specialize (IH fd E). destruct (decide (o = Some g)); cbn [length]; lia.
Qed.

Lemma fd_count_pos p fd f : p_ofile p !! fd = Some (Some f) → 1 ≤ fd_count p f.
Proof.
  intros E. unfold fd_count. assert (Some f ∈ filter (λ o, o = Some f) (p_ofile p)) as Hin.
  { apply list_elem_of_filter. split; [done|]. by eapply list_elem_of_lookup_2. }
  destruct (filter _ _); [by apply not_elem_of_nil in Hin | cbn; lia].
Qed.

Lemma open_fd_lookup p fd f :
  open_fd p fd = Some f → p_ofile p !! Z.to_nat fd = Some (Some f).
Proof.
  unfold open_fd. destruct ((fd <? 0) || (fd >=? Z.of_nat NOFILE)); [done|].
  destruct (p_ofile p !! Z.to_nat fd) as [[g|]|]; cbn; congruence.
Qed.

(** One more descriptor of [f], counted. *)
Lemma refs_ok_dup others s fd f x c lk :
  refs_ok others s → p_ofile (ss_proc s) !! fd = Some None → kf_file (ss_kf s) !! f = Some x →
  cpu_ok c → locked lk = 0 →
  refs_ok others
    (mkSysst (set_kf_fs (set_fs_cpu c (kf_fs (ss_kf s))) (set_kf_lock lk
       (set_kf_file (<[f := set_f_ref (f_ref x + 1) x]> (kf_file (ss_kf s))) (ss_kf s))))
       (set_p_ofile (<[fd := Some f]> (p_ofile (ss_proc s))) (ss_proc s))).
Proof.
  intros [Hlen Hrefs Hopen Hoth _ _] Hfd Hx Hc Hl. split; cbn; try done.
  - by rewrite length_insert.
  - intros g y. unfold fd_count. cbn. rewrite fd_count_insert by done. fold (fd_count (ss_proc s) g).
    rewrite list_lookup_insert_Some. intros [(<- & <- & _)|(Hne & Hy)].
    + cbn. rewrite decide_True, (Hrefs f x Hx) by done. lia.
    + rewrite decide_False, (Hrefs g y Hy) by done. lia.
  - intros k g. rewrite list_lookup_insert_Some. intros [(<- & [= <-] & _)|(_ & Hk)].
    + rewrite list_lookup_insert_eq; [done | by eapply lookup_lt_Some].
    + apply lookup_lt_is_Some. rewrite length_insert. apply lookup_lt_is_Some. by eapply Hopen.
Qed.

(** ** Theorems *)

(** C2: [write(fd, a, n)] on a regular file open for writing, with the block in the memory of
    the process and room on the disk, returns [n]: the file on disk has the process's bytes
    at the old offset and keeps all its other bytes, the offset advances by [n], and
    neither memory nor the process changes. *)
Theorem sys_write_correct devs sb vw dk wr fd f x y s a n :
  rw_call s fd a n → open_fd (ss_proc s) fd = Some f → in_process (ss_proc s) a n = true →
  open_file sb vw dk wr f x y (ss_kf s) → roomy sb → f_writable x = true →
  0 < n → f_off x + n ≤ MAXFILE * BSIZE → disk_room sb vw (i_d y) (14 * chunks n) →
  ∃ s' vw' dk' wr' y', sys_write devs s = Ok (n, s') ∧
    written sb (memory s) (i_inum y) a (f_off x) n vw (i_d y) vw' (i_d y') ∧
    open_file sb vw' dk' wr' f (set_f_off (f_off x + n) x) y' (ss_kf s') ∧
    (∀ b, sb_inodestart sb ≤ b < sb_size sb →
       md_blocks (bio_disk (ls_bio (fs_log (kf_fs (ss_kf s'))))) b = vw' b) ∧
    memory s' = memory s ∧ ss_proc s' = ss_proc s.
Proof.
  intros Hc Hfd Hin Hop Hr Hw Hn Hmax Hroom. destruct (rw_range _ _ _ _ Hc Hin) as (Ha & _ & Hwrap).
  assert (R : runs (sys_write devs) s (λ v s', v = n ∧ ∃ vw' dk' wr' y',
    written sb (memory s) (i_inum y) a (f_off x) n vw (i_d y) vw' (i_d y') ∧
    open_file sb vw' dk' wr' f (set_f_off (f_off x + n) x) y' (ss_kf s') ∧
    (∀ b, sb_inodestart sb ≤ b < sb_size sb →
       md_blocks (bio_disk (ls_bio (fs_log (kf_fs (ss_kf s'))))) b = vw' b) ∧
    memory s' = memory s ∧ ss_proc s' = ss_proc s)).
  { unfold sys_write. apply runs_bind, (runs_rw_args s fd a n); [done|]. rewrite Hfd, Hin.
    apply onkf_rule. eapply runs_mono; [by eapply filewrite_writes|].
    intros v t (-> & Hm & vw' & dk' & wr' & y' & Hwn & Ho & Hd). split; [done|].
    exists vw', dk', wr', y'. done. }
  destruct R as (v & s' & E & -> & vw' & dk' & wr' & y' & R). by exists s', vw', dk', wr', y'.
Qed.

(** C12: [read(fd, a, n)] on a regular file open for reading returns the number of bytes left
    after the offset, at most [n]; exactly these bytes of the file are stored at [a],
    inside the process's memory, all other memory is unchanged, the offset advances by the
    result, and no file changes. *)
Theorem sys_read_correct devs sb vw dk wr fd f x y s a n
    (r := Z.min n (di_size (i_d y) - f_off x)) :
  rw_call s fd a n → open_fd (ss_proc s) fd = Some f → in_process (ss_proc s) a n = true →
  open_file sb vw dk wr f x y (ss_kf s) → f_readable x = true →
  no_hole vw (i_d y) 0 (di_size (i_d y)) →
  ∃ s' y', sys_read devs s = Ok (r, s') ∧ 0 ≤ r ∧ a + r ≤ p_sz (ss_proc s) ∧
    (∀ i, 0 ≤ i < r → memory s' (a + i) = fbyte vw (i_d y) (f_off x + i)) ∧
    (∀ b, b < a ∨ a + r ≤ b → memory s' b = memory s b) ∧
    open_file sb vw dk wr f (set_f_off (f_off x + r) x) y' (ss_kf s') ∧ i_d y' = i_d y ∧
    ss_proc s' = ss_proc s.
Proof.
  intros Hc Hfd Hin Hop Hrd Hhole. destruct (rw_range _ _ _ _ Hc Hin) as (Ha & Hsz & Hwrap).
  pose proof (op_off _ _ _ _ _ _ _ _ Hop) as Hoff. pose proof (rw_pos _ _ _ _ Hc) as Hn.
  assert (R : runs (sys_read devs) s (λ v s', v = r ∧ (∃ y', i_d y' = i_d y ∧
    open_file sb vw dk wr f (set_f_off (f_off x + r) x) y' (ss_kf s')) ∧
    (∀ b, memory s' b = copied vw (i_d y) a (f_off x) r (memory s) b) ∧ ss_proc s' = ss_proc s)).
  { unfold sys_read. apply runs_bind, (runs_rw_args s fd a n); [done|]. rewrite Hfd, Hin.
    apply onkf_rule. eapply runs_mono; [by eapply fileread_reads|].
    intros v t (-> & Ho & Hm). by split_and!. }
  destruct R as (v & s' & E & -> & (y' & Ed & Ho) & Hm & Ep).
  exists s', y'. split_and!; [done | lia | lia | | | done..].
  - intros i Hi. rewrite Hm. unfold copied.
    destruct (Z.leb_spec a (a + i)), (Z.ltb_spec (a + i) (a + r)); try lia. cbn. f_equal. lia.
  - intros b Hb. rewrite Hm. unfold copied. destruct (Z.leb_spec a b), (Z.ltb_spec b (a + r)); lia || done.
Qed.

(** [read] and [write] with a descriptor that is not open, or a block that does not lie in
    the memory of the process, return -1 and change nothing. *)
Theorem sys_rw_rejects devs fd s a n :
  rw_call s fd a n → open_fd (ss_proc s) fd = None ∨ in_process (ss_proc s) a n = false →
  sys_read devs s = Ok (-1, s) ∧ sys_write devs s = Ok (-1, s).
Proof.
  intros Hc Hbad.
  assert (R : ∀ m : K sysst Z, m = sys_read devs ∨ m = sys_write devs → m s = Ok (-1, s)).
  { intros m Hm. assert (runs m s (λ v s', v = -1 ∧ s' = s)) as (v & s' & E & -> & ->); [|done].
    destruct Hm as [->| ->]; apply runs_bind, (runs_rw_args s fd a n);
      try done; (destruct Hbad as [->| ->]; [by apply runs_ret | by destruct (open_fd _ _); apply runs_ret]). }
  split; apply R; auto.
Qed.

(** [dup] gives an open file one more descriptor, the lowest that is free, and counts it;
    with no such file or no free descriptor it returns -1 and changes nothing.  Either way
    the reference counts of the file table still agree with the descriptors. *)
Theorem sys_dup_correct others s fd :
  refs_ok others s → argint (memory s) (ss_proc s) 0 = Some fd →
  ∃ r s', sys_dup s = Ok (r, s') ∧ refs_ok others s' ∧ memory s' = memory s ∧
    match open_fd (ss_proc s) fd, list_find (λ o, o = None) (p_ofile (ss_proc s)) with
    | Some f, Some (fd', _) =>
        r = Z.of_nat fd' ∧ p_ofile (ss_proc s') = <[fd' := Some f]> (p_ofile (ss_proc s)) ∧
        open_fd (ss_proc s') r = Some f
    | _, _ => r = -1 ∧ s' = s
    end.
Proof.
  intros H E. apply (λ R : runs sys_dup s _, R). unfold sys_dup. apply runs_bind, (runs_argfd 0 s fd); [done|].
  destruct (open_fd (ss_proc s) fd) as [f|] eqn:Ef; cbn [fmap option_fmap option_map]; [|by apply runs_ret].
  apply open_fd_lookup in Ef. destruct (ro_open _ _ H _ _ Ef) as [x Hx].
  pose proof (ro_files _ _ H f x Hx) as Href. pose proof (fd_count_pos _ _ _ Ef). pose proof (ro_others _ _ H f).
  unfold fdalloc. apply runs_bind, runs_bind. eapply runs_ok; [reflexivity|]. cbn [fst snd].
  destruct (list_find (λ o, o = None) (p_ofile (ss_proc s))) as [[k o]|] eqn:Ek; [|by apply runs_ret, runs_ret].
  apply list_find_Some in Ek as (Hk & -> & _). apply runs_bind, runs_mod, runs_ret.
  destruct (Z.ltb_spec (Z.of_nat k) 0); [lia|]. apply runs_bind, onkf_rule.
  eapply (filedup_rule f x); [apply H | apply H | done | lia |]. intros c lk Hc Hl. apply runs_ret.
  pose proof (refs_ok_dup others s k f x c lk H Hk Hx Hc Hl) as H'. split_and!; [exact H' | done..|].
  unfold open_fd. pose proof (lookup_lt_Some _ _ _ Hk) as Hlt. rewrite (ro_fds _ _ H) in Hlt.
  rewrite Z.geb_leb. destruct (Z.ltb_spec (Z.of_nat k) 0), (Z.leb_spec (Z.of_nat NOFILE) (Z.of_nat k)); try lia.
  cbn. rewrite Nat2Z.id, list_lookup_insert_eq; [done | by rewrite (ro_fds _ _ H)].
Qed.
