(* ===== verification/SysWitness.v ===== *)
(** * File system calls on a small file system

    The theorems of [SysFileOps] applied to a process that has the file of [FileWitness]
    open as descriptor 0. *)

From S2P Require Import Prelude Param KString Spinlock ProcData ProcCommon Bio Log LogCrash LogOps Fs FsView FsFile FsRead FsInode FsWrite FsAgree FsWitness Kalloc Vm Pipe FileTable FileWrite FileWitness Syscall Exec SysFile SysFileOps.
Local Open Scope Z_scope.

(** ** Definitions *)

(** A process of eight pages with one open descriptor and a call's arguments on its stack. *)
Definition demo_user : proc :=
  set_p_ofile (Some 0%nat :: replicate 15 None)
    (set_p_sz 32768 (set_p_trapframe (set_tf_esp 32000 zero_trapframe) zero_proc)).

Definition demo_args (fd a n : Z) : mem :=
  store32 (store32 (store32 (λ a, u8 (a + 1)) 32004 fd) 32008 a) 32012 n.

Definition demo_sys (l : logst) (fd a n off : Z) : sysst :=
  mkSysst (demo_kfst l (demo_args fd a n) off) demo_user.

(** ** Lemmas *)

Lemma demo_rw_call l off fd a n :
  (fd, a, n) ∈ [(0, 7000, 20000); (0, 5000, 200); (1, 5000, 200); (0, 32760, 200)] →
  rw_call (demo_sys l fd a n off) fd a n.
Proof.
  intros Hin. repeat (apply elem_of_cons in Hin as [[= -> -> ->]|Hin]); [..|by apply not_elem_of_nil in Hin].
  all: split; [split; vm_compute; congruence | vm_compute; reflexivity | eexists; split; [vm_compute; reflexivity | vm_compute; reflexivity]
       | vm_compute; reflexivity | lia].
Qed.

Lemma demo_refs l fd a n off : cpu_ok (fs_cpu (kf_fs (demo_kfst l (demo_args fd a n) off))) →
  refs_ok (λ _, 0) (demo_sys l fd a n off).
Proof.
  intros Hc. split; [reflexivity | | | lia | reflexivity | exact Hc].
  - intros f x. unfold demo_sys, demo_kfst. cbn [ss_kf kf_file]. destruct f as [|f].
    { intros [= <-]. reflexivity. }
    intros Hf%(lookup_replicate_1 99 _ x f). destruct Hf as [-> _]. reflexivity.
  - intros k f. destruct k as [|k]; cbn; [intros [= <-]; by eexists|].
    do 15 (destruct k as [|k]; [done|]). done.
Qed.

(** ** Witnesses *)

(** A write of 20000 bytes at offset 600, in four chunks. *)
Lemma sys_write_correct_witness :
  ∃ l s', (onbio binit;; initlog 1) fs_boot = Ok (tt, l) ∧
    sys_write [] (demo_sys l 0 7000 20000 600) = Ok (20000, s') ∧
    (f_off <$> kf_file (ss_kf s') !! 0%nat) = Some 20600.
Proof.
  destruct fs_idle as (l & d & wr & E & H & Hd).
  assert (E58 : d 58 = fs_disk 58) by (apply Hd; split; lia).
  destruct (sys_write_correct [] demo_sb d d wr 0 0 (demo_open 600) demo_unlocked
    (demo_sys l 0 7000 20000 600) 7000 20000) as (s' & vw' & dk' & wr' & y' & Ew & _ & Ho & _).
  - apply demo_rw_call. left.
  - reflexivity.
  - reflexivity.
  - apply demo_open_file; [exact H | exact E58 | lia].
  - split; vm_compute; congruence.
  - reflexivity.
  - lia.
  - vm_compute. congruence.
  - apply demo_blocks; [exact E58 | vm_compute; lia].
  - exists l, s'. split_and!; [exact E | exact Ew |]. rewrite (op_file _ _ _ _ _ _ _ _ Ho). reflexivity.
Defined.

(** A read of 200 bytes at offset 500 of a file of 600 bytes. *)
Lemma sys_read_correct_witness :
  ∃ l s', (onbio binit;; initlog 1) fs_boot = Ok (tt, l) ∧
    sys_read [] (demo_sys l 0 5000 200 500) = Ok (100, s') ∧
    (f_off <$> kf_file (ss_kf s') !! 0%nat) = Some 600.
Proof.
  destruct fs_idle as (l & d & wr & E & H & Hd).
  assert (E58 : d 58 = fs_disk 58) by (apply Hd; split; lia).
  destruct (sys_read_correct [] demo_sb d d wr 0 0 (demo_open 500) demo_unlocked
    (demo_sys l 0 5000 200 500) 5000 200) as (s' & y' & Er & _ & _ & _ & _ & Ho & _).
  - apply demo_rw_call. right. left.
  - reflexivity.
  - reflexivity.
  - apply demo_open_file; [exact H | exact E58 | lia].
  - reflexivity.
  - exact (demo_no_hole d).
  - exists l, s'. split_and!; [exact E | exact Er |]. rewrite (op_file _ _ _ _ _ _ _ _ Ho). reflexivity.
Defined.

(** Descriptor 1 is not open, and the process ends at 32768. *)
Lemma sys_rw_rejects_witness :
  ∃ l, (onbio binit;; initlog 1) fs_boot = Ok (tt, l) ∧
    sys_read [] (demo_sys l 1 5000 200 500) = Ok (-1, demo_sys l 1 5000 200 500) ∧
    sys_write [] (demo_sys l 0 32760 200 500) = Ok (-1, demo_sys l 0 32760 200 500).
Proof.
  destruct fs_idle as (l & d & wr & E & H & Hd). exists l. split; [exact E|]. split.
  - apply (sys_rw_rejects [] 1 (demo_sys l 1 5000 200 500) 5000 200).
    + apply demo_rw_call. do 2 right. left.
    + left. reflexivity.
  - apply (sys_rw_rejects [] 0 (demo_sys l 0 32760 200 500) 32760 200).
    + apply demo_rw_call. do 3 right. left.
    + right. reflexivity.
Defined.

(** Descriptor 0 duplicated: the new one is 1. *)
Lemma sys_dup_correct_witness :
  ∃ l s', (onbio binit;; initlog 1) fs_boot = Ok (tt, l) ∧
    sys_dup (demo_sys l 0 5000 200 500) = Ok (1, s') ∧ refs_ok (λ _, 0) s'.
Proof.
  destruct fs_idle as (l & d & wr & E & H & Hd).
  destruct (sys_dup_correct (λ _, 0) (demo_sys l 0 5000 200 500) 0) as (r & s' & Ed & Hr & _ & Er & _).
  - apply demo_refs. exact (fs_ok_cpu H).
  - vm_compute. reflexivity.
  - exists l, s'. split_and!; [exact E | | exact Hr]. rewrite Ed. rewrite Er. reflexivity.
Defined.
