(* ===== verification/Digits.v ===== *)
(** * Numbers as digits

    The loop that [printint] of src/printf.c and [printint] of src/console.c share, for the
    table of digits each of them has.  The array [buf] they fill is a list that must not
    grow past its 16 bytes: storing beyond them is [Undef]. *)

From S2P Require Import Prelude.
Local Open Scope Z_scope.

(** ** Definitions *)

Definition bytes_of (s : string) : list Z :=
  (λ a, Z.of_N (Ascii.N_of_ascii a)) <$> String.list_ascii_of_string s.

(** [buf[i++] = c] for an array of 16 bytes. *)
Definition push (buf : list Z) (c : Z) : outcome (list Z) :=
  if (length buf <? 16)%nat then Ok (buf ++ [c]) else Undef "buf".

(** The [do] loop of [printint]. *)
Fixpoint printint_loop (digits : list Z) (fuel : nat) (base x : Z) (buf : list Z) : outcome (list Z) :=
  match fuel with
  | O => Diverge
  | S fuel' =>
      c ← of_option "digits" (digits !! Z.to_nat (x mod base));
      buf ← push buf c;
      let x := x / base in
      if negb (x =? 0) then printint_loop digits fuel' base x buf else Ok buf
  end.

(** The digits of [v] in a base, most significant first, without leading zeros. *)
Definition numeral (base v : Z) (ds : list Z) : Prop :=
  Forall (λ d, 0 ≤ d < base) ds ∧ foldl (λ n d, n * base + d) 0 ds = v ∧
  (head ds = Some 0 → ds = [0]) ∧ ds ≠ [].

Definition show_digits (digits ds : list Z) : list Z := (λ d, digits !!! Z.to_nat d) <$> ds.

(** ** Lemmas *)

Lemma numeral_small base x : 0 ≤ x < base → numeral base x [x].
Proof. intros H. unfold numeral. split_and!; [by apply Forall_singleton | cbn; lia | | done]. by intros [= ->]. Qed.

Lemma numeral_snoc base x ds d :
  0 < base → numeral base x ds → x ≠ 0 → 0 ≤ d < base → numeral base (x * base + d) (ds ++ [d]).
Proof.
  intros Hb (Hds & Hv & Hh & Hne) Hx Hd. unfold numeral. split_and!.
  - apply Forall_app. split; [done | by apply Forall_singleton].
  - rewrite foldl_app. cbn. lia.
  - destruct ds as [|d0 ds]; [done|]. cbn. intros [= ->]. specialize (Hh eq_refl).
    injection Hh as ->. cbn in Hv. lia.
  - by destruct ds.
Qed.

Lemma foldl_positive base a ds :
  1 ≤ base → 1 ≤ a → Forall (λ d, 0 ≤ d < base) ds → 1 ≤ foldl (λ n d, n * base + d) a ds.
Proof. intros Hb Ha H. revert a Ha. induction H as [|d ds Hd H IH]; intros a Ha; cbn; [done|]. apply IH. nia. Qed.

(** The last digit of a numeral, and the numeral before it. *)
Lemma numeral_last base v ds d :
  1 < base → numeral base v (ds ++ [d]) → ds ≠ [] → numeral base (v / base) ds ∧ d = v mod base ∧ base ≤ v.
Proof.
  intros Hb (Hds & Hv & Hh & _) Hne. apply Forall_app in Hds as [Hds Hd]. rewrite Forall_singleton in Hd.
  rewrite foldl_app in Hv. cbn in Hv. set (u := foldl _ 0 ds) in Hv.
  assert (Hu : 1 ≤ u).
  { destruct ds as [|d0 ds]; [done|]. apply Forall_cons in Hds as [Hd0 Hds]. subst u. cbn.
    apply foldl_positive; [lia | | done]. destruct (Z.eq_dec d0 0) as [->|]; [|lia].
    specialize (Hh eq_refl). destruct ds; discriminate. }
  assert (v / base = u) as -> by (symmetry; apply (Z.div_unique v base u d); lia).
  assert (v mod base = d) as -> by (symmetry; apply (Z.mod_unique v base u d); lia).
  split; [|split; [done | nia]]. split; [done|]. split; [done|]. split; [|done]. intros E. destruct ds as [|d0 ds]; [done|]. injection E as ->.
  specialize (Hh eq_refl). destruct ds; discriminate.
Qed.

Lemma numeral_unique base v ds ds' : 1 < base → numeral base v ds → numeral base v ds' → ds = ds'.
Proof.
  intros Hb. revert v ds'. induction ds as [|d ds IH] using rev_ind; intros v ds' H H'; [by destruct H as (_ & _ & _ & ?)|].
  destruct ds' as [|d' ds' _] using rev_ind; [by destruct H' as (_ & _ & _ & ?)|].
  assert (Hone : ∀ c, numeral base v [c] → v = c ∧ v < base).
  { intros c (Hc & Ec & _). rewrite Forall_singleton in Hc. cbn in Ec. lia. }
  destruct (decide (ds = [])) as [->|Hne], (decide (ds' = [])) as [->|Hne'].
  - apply Hone in H as [-> _], H' as [<- _]. done.
  - apply Hone in H as [_ Hlt]. destruct (numeral_last base v ds' d') as (_ & _ & ?); [done..|lia].
  - apply Hone in H' as [_ Hlt]. destruct (numeral_last base v ds d) as (_ & _ & ?); [done..|lia].
  - destruct (numeral_last base v ds d) as (N & -> & _); [done..|].
    destruct (numeral_last base v ds' d') as (N' & -> & _); [done..|]. by rewrite (IH _ _ N N').
Qed.

Lemma digits_lookup (digits : list Z) d : length digits = 16%nat → 0 ≤ d < 16 → digits !! Z.to_nat d = Some (digits !!! Z.to_nat d).
Proof. intros. apply list_lookup_lookup_total_lt. lia. Qed.

Lemma show_digits_snoc (digits ds : list Z) d :
  show_digits digits (ds ++ [d]) = show_digits digits ds ++ [digits !!! Z.to_nat d].
Proof. unfold show_digits. by rewrite fmap_app. Qed.

(** [n] rounds are enough for a number of [n] digits, and [buf] is large enough for them. *)
Lemma printint_loop_spec digits n fuel base x buf :
  length digits = 16%nat → 1 < base ≤ 16 → 0 ≤ x < base ^ Z.of_nat n → (0 < n ≤ fuel)%nat → (length buf + n ≤ 16)%nat →
  ∃ ds, printint_loop digits fuel base x buf = Ok (buf ++ reverse (show_digits digits ds)) ∧
    numeral base x ds ∧ (length ds ≤ n)%nat.
Proof.
  intros Hd Hb. revert fuel x buf; induction n as [|n IH]; intros fuel x buf Hx Hn Hlen; [lia|].
  destruct fuel as [|fuel]; [lia|]. cbn [printint_loop].
  pose proof (Z.mod_pos_bound x base ltac:(lia)) as Hmod.
  rewrite digits_lookup by (done || lia). cbn [mbind outcome_bind obind of_option]. unfold push.
  destruct (Nat.ltb_spec (length buf) 16); [|lia]. cbn [mbind outcome_bind obind]. cbv zeta.
  destruct (Z.eqb_spec (x / base) 0) as [Hz|Hz]; cbn [negb].
  - exists [x mod base]. split; [done|]. apply Z.div_small_iff in Hz as [Hz|Hz]; [|lia|lia].
    rewrite Z.mod_small by lia. split; [by apply numeral_small | simpl; lia].
  - assert (0 < x / base) by (pose proof (Z.div_pos x base ltac:(lia) ltac:(lia)); lia).
    destruct (IH fuel (x / base) (buf ++ [digits !!! Z.to_nat (x mod base)])) as (ds & E & Hnum & Hl).
    + split; [lia|]. rewrite Nat2Z.inj_succ, Z.pow_succ_r in Hx by lia.
      apply Z.div_lt_upper_bound; lia.
    + destruct n; [|lia]. change (base ^ Z.of_nat 1) with (base ^ 1) in Hx. rewrite Z.pow_1_r in Hx.
      rewrite Z.div_small in H0 by lia. lia.
    + rewrite length_app. simpl. lia.
    + exists (ds ++ [x mod base]). split_and!.
      * rewrite E, show_digits_snoc, reverse_app, <- app_assoc. done.
      * rewrite (Z.div_mod x base) at 1 by lia. rewrite Z.mul_comm. apply numeral_snoc; (lia || done).
      * rewrite length_app. simpl. lia.
Qed.
