(* ===== verification/Intr.v ===== *)
(** * Interrupt controllers, timer and serial line

    Models src/picirq.c, src/ioapic.c, src/uart.c, src/timer.c, the local APIC part of
    src/lapic.c, and the calls of [main] in src/main.c that set up interrupts.  What
    [mpinit] found out about the machine is the argument [mp].  The devices are operations on
    ports and memory-mapped registers, the class [BusOps]; what the drivers rely on are the
    laws of the class [Board]: the devices take their programming as [board_out] and
    [board_st] say, the 8259A and 82093AA data sheets' account of the registers used here.
    [simple_board] is an instance.

    The loop that waits for the local APIC takes fuel; [board_delay] rounds are enough. *)

From S2P Require Import Prelude Param KString Spinlock Kalloc Fs FsInode Mp Digits.
Local Open Scope Z_scope.

(** ** Definitions *)

Class BusOps (D : Type) := {
  in8 : Z → D → Z * D;
  out8 : Z → Z → D → D;
  ld32 : Z → D → Z * D;
  st32 : Z → Z → D → D
}.

Definition IO_PIC1 : Z := 32.
Definition IO_PIC2 : Z := 160.
Definition IRQ_SLAVE : Z := 2.
Definition IRQ_ERROR : Z := 19.
Definition IOAPIC : Z := 4273995776.
Definition REG_ID : Z := 0.
Definition REG_VER : Z := 1.
Definition REG_TABLE : Z := 16.
Definition INT_DISABLED : Z := 65536.
Definition COM1 : Z := 1016.
Definition IO_TIMER1 : Z := 64.
Definition TIMER_FREQ : Z := 1193182.
Definition TIMER_DIV (x : Z) : Z := (TIMER_FREQ + x / 2) / x.
Definition TIMER_MODE : Z := IO_TIMER1 + 3.
Definition TIMER_SEL0 : Z := 0.
Definition TIMER_RATEGEN : Z := 4.
Definition TIMER_16BIT : Z := 48.

(** Registers of the local APIC, as indices of words. *)
Definition ID : Z := 32 / 4.
Definition VER : Z := 48 / 4.
Definition TPR : Z := 128 / 4.
Definition EOI : Z := 176 / 4.
Definition SVR : Z := 240 / 4.
Definition ENABLE : Z := 256.
Definition ESR : Z := 640 / 4.
Definition ICRLO : Z := 768 / 4.
Definition INIT : Z := 1280.
Definition STARTUP : Z := 1536.
Definition DELIVS : Z := 4096.
Definition ASSERT : Z := 16384.
Definition LEVEL : Z := 32768.
Definition BCAST : Z := 524288.
Definition ICRHI : Z := 784 / 4.
Definition TIMER : Z := 800 / 4.
Definition X1 : Z := 11.
Definition PERIODIC : Z := 131072.
Definition PCINT : Z := 832 / 4.
Definition LINT0 : Z := 848 / 4.
Definition LINT1 : Z := 864 / 4.
Definition ERROR : Z := 880 / 4.
Definition MASKED : Z := 65536.
Definition TICR : Z := 896 / 4.
Definition TDCR : Z := 992 / 4.
Definition CMOS_PORT : Z := 112.

(** The variables of the drivers: [irqmask], [uart], the count of the warning of [cpunum]; the
    messages, memory, and the devices. *)
Record intr (D : Type) := mkIntr {
  irqmask : Z;
  uart : bool;
  warned : Z;
  i_msgs : list string;
  i_mem : mem;
  i_dev : D
}.
Arguments mkIntr {D}. Arguments irqmask {D}. Arguments uart {D}. Arguments warned {D}. Arguments i_msgs {D}.
Arguments i_mem {D}. Arguments i_dev {D}.

Section Intr.
Context {D : Type} `{BusOps D}.
Variable mp : mpst.

Definition set_irqmask (m : Z) (s : intr D) : intr D := mkIntr m (uart s) (warned s) (i_msgs s) (i_mem s) (i_dev s).
Definition set_uart (b : bool) (s : intr D) : intr D := mkIntr (irqmask s) b (warned s) (i_msgs s) (i_mem s) (i_dev s).
Definition set_warned (n : Z) (s : intr D) : intr D := mkIntr (irqmask s) (uart s) n (i_msgs s) (i_mem s) (i_dev s).
Definition add_msg (m : string) (s : intr D) : intr D :=
  mkIntr (irqmask s) (uart s) (warned s) (i_msgs s ++ [m]) (i_mem s) (i_dev s).
Definition set_i_mem (m : mem) (s : intr D) : intr D := mkIntr (irqmask s) (uart s) (warned s) (i_msgs s) m (i_dev s).
Definition set_i_dev (d : D) (s : intr D) : intr D := mkIntr (irqmask s) (uart s) (warned s) (i_msgs s) (i_mem s) d.

Definition inb (p : Z) : K (intr D) Z := fun s => let '(v, d) := in8 p (i_dev s) in Ok (v, set_i_dev d s).
Definition outb (p v : Z) : K (intr D) unit := kmod (fun s => set_i_dev (out8 p (u8 v) (i_dev s)) s).
Definition load (a : Z) : K (intr D) Z := fun s => let '(v, d) := ld32 a (i_dev s) in Ok (v, set_i_dev d s).
Definition store (a v : Z) : K (intr D) unit := kmod (fun s => set_i_dev (st32 a (u32 v) (i_dev s)) s).

(** *** src/picirq.c *)

Definition picsetmask (mask : Z) : K (intr D) unit :=
  kmod (set_irqmask mask);;
  outb (IO_PIC1 + 1) mask;;
  outb (IO_PIC2 + 1) (Z.shiftr mask 8).

Definition picenable (irq : Z) : K (intr D) unit :=
  s ← kget;
  picsetmask (u16 (Z.land (irqmask s) (Z.lnot (Z.shiftl 1 irq)))).

Definition picinit : K (intr D) unit :=
  outb (IO_PIC1 + 1) 255;;
  outb (IO_PIC2 + 1) 255;;
  outb IO_PIC1 17;;
  outb (IO_PIC1 + 1) T_IRQ0;;
  outb (IO_PIC1 + 1) (Z.shiftl 1 IRQ_SLAVE);;
  outb (IO_PIC1 + 1) 3;;
  outb IO_PIC2 17;;
  outb (IO_PIC2 + 1) (T_IRQ0 + 8);;
  outb (IO_PIC2 + 1) IRQ_SLAVE;;
  outb (IO_PIC2 + 1) 3;;
  outb IO_PIC1 104;;
  outb IO_PIC1 10;;
  outb IO_PIC2 104;;
  outb IO_PIC2 10;;
  s ← kget;
  if negb (irqmask s =? 65535) then picsetmask (irqmask s) else mret tt.

(** *** src/ioapic.c *)

(** [reg] is at the start of [struct ioapic], [data] at 16. *)
Definition ioapicread (reg : Z) : K (intr D) Z := (store IOAPIC reg;; load (IOAPIC + 16)).
Definition ioapicwrite (reg data : Z) : K (intr D) unit := (store IOAPIC reg;; store (IOAPIC + 16) data).

Fixpoint ioapicinit_loop (n : nat) (i : Z) : K (intr D) unit :=
  match n with
  | O => mret tt
  | S n' =>
      ioapicwrite (REG_TABLE + 2 * i) (Z.lor INT_DISABLED (T_IRQ0 + i));;
      ioapicwrite (REG_TABLE + 2 * i + 1) 0;;
      ioapicinit_loop n' (i + 1)
  end.

Definition ioapicinit : K (intr D) unit :=
  if negb (ismp mp) then mret tt
  else
    v ← ioapicread REG_VER;
    let maxintr := Z.land (Z.shiftr v 16) 255 in
    v ← ioapicread REG_ID;
    let id := Z.shiftr v 24 in
    (if negb (id =? ioapicid mp) then kmod (add_msg "ioapicinit: id isn't equal to ioapicid; not a MP") else mret tt);;
    ioapicinit_loop (Z.to_nat (maxintr + 1)) 0.

Definition ioapicenable (irq cpunum : Z) : K (intr D) unit :=
  if negb (ismp mp) then mret tt
  else
    ioapicwrite (REG_TABLE + 2 * irq) (T_IRQ0 + irq);;
    ioapicwrite (REG_TABLE + 2 * irq + 1) (Z.shiftl cpunum 24).

(** *** src/timer.c *)

Definition timerinit : K (intr D) unit :=
  outb TIMER_MODE (Z.lor (Z.lor TIMER_SEL0 TIMER_RATEGEN) TIMER_16BIT);;
  outb IO_TIMER1 (TIMER_DIV TPS mod 256);;
  outb IO_TIMER1 (TIMER_DIV TPS / 256);;
  picenable IRQ_TIMER.

(** *** src/uart.c; [microdelay] does nothing *)

(** [for(i = 0; i < 128 && !(inb(COM1+5) & 0x20); i++)], with [n] rounds to go. *)
Fixpoint uart_wait (n : nat) : K (intr D) unit :=
  match n with
  | O => mret tt
  | S n' =>
      v ← inb (COM1 + 5);
      if Z.land v 32 =? 0 then uart_wait n' else mret tt
  end.

Definition uartputc (c : Z) : K (intr D) unit :=
  s ← kget;
  if negb (uart s) then mret tt
  else (uart_wait 128;; outb (COM1 + 0) c).

Fixpoint uart_puts (l : list Z) : K (intr D) unit :=
  match l with [] => mret tt | c :: l => (uartputc c;; uart_puts l) end.

Definition uartinit : K (intr D) unit :=
  outb (COM1 + 2) 0;;
  outb (COM1 + 3) 128;;
  outb (COM1 + 0) (115200 / 9600);;
  outb (COM1 + 1) 0;;
  outb (COM1 + 3) 3;;
  outb (COM1 + 4) 0;;
  outb (COM1 + 1) 1;;
  v ← inb (COM1 + 5);
  if v =? 255 then mret tt
  else
    kmod (set_uart true);;
    inb (COM1 + 2);;
    inb (COM1 + 0);;
    picenable IRQ_COM1;;
    ioapicenable IRQ_COM1 0;;
    uart_puts (bytes_of "xv6..." ++ [10]).

Definition uartgetc : K (intr D) Z :=
  s ← kget;
  if negb (uart s) then mret (-1)
  else
    v ← inb (COM1 + 5);
    if Z.land v 1 =? 0 then mret (-1) else inb (COM1 + 0).

(** *** src/lapic.c *)

Definition lapicw (index value : Z) : K (intr D) unit :=
  store (lapic mp + 4 * index) value;;
  load (lapic mp + 4 * ID);;
  mret tt.

(** [while(lapic[ICRLO] & DELIVS);] *)
Fixpoint lapic_wait (fuel : nat) : K (intr D) unit :=
  match fuel with
  | O => kout Diverge
  | S fuel' =>
      v ← load (lapic mp + 4 * ICRLO);
      if Z.land v DELIVS =? 0 then mret tt else lapic_wait fuel'
  end.

Definition lapicinit (fuel : nat) : K (intr D) unit :=
  if lapic mp =? 0 then mret tt
  else
    lapicw SVR (Z.lor ENABLE (T_IRQ0 + IRQ_SPURIOUS));;
    lapicw TDCR X1;;
    lapicw TIMER (Z.lor PERIODIC (T_IRQ0 + IRQ_TIMER));;
    lapicw TICR (1000000000 / TPS);;
    lapicw LINT0 MASKED;;
    lapicw LINT1 MASKED;;
    v ← load (lapic mp + 4 * VER);
    (if Z.land (Z.shiftr v 16) 255 >=? 4 then lapicw PCINT MASKED else mret tt);;
    lapicw ERROR (T_IRQ0 + IRQ_ERROR);;
    lapicw ESR 0;;
    lapicw ESR 0;;
    lapicw EOI 0;;
    lapicw ICRHI 0;;
    lapicw ICRLO (Z.lor (Z.lor BCAST INIT) LEVEL);;
    lapic_wait fuel;;
    lapicw TPR 0.

(** [eflags] is what [readeflags] returns. *)
Definition cpunum (eflags : Z) : K (intr D) Z :=
  (if negb (Z.land eflags 512 =? 0) then
     s ← kget;
     kmod (set_warned (warned s + 1));;
     if warned s =? 0 then kmod (add_msg "cpu called with interrupts enabled") else mret tt
   else mret tt);;
  if negb (lapic mp =? 0) then v ← load (lapic mp + 4 * ID); mret (Z.shiftr v 24) else mret 0.

Definition lapiceoi : K (intr D) unit := if negb (lapic mp =? 0) then lapicw EOI 0 else mret tt.

(** The address of the warm reset vector, 40:67. *)
Definition wrv : Z := 2147484775.

Definition lapicstartap (apicid addr : Z) : K (intr D) unit :=
  outb CMOS_PORT 15;;
  outb (CMOS_PORT + 1) 10;;
  kmod (fun s => set_i_mem (store16 (store16 (i_mem s) wrv 0) (wrv + 2) (Z.shiftr addr 4)) s);;
  lapicw ICRHI (Z.shiftl apicid 24);;
  lapicw ICRLO (Z.lor (Z.lor INIT LEVEL) ASSERT);;
  lapicw ICRLO (Z.lor INIT LEVEL);;
  lapicw ICRHI (Z.shiftl apicid 24);;
  lapicw ICRLO (Z.lor STARTUP (Z.shiftr addr 12));;
  lapicw ICRHI (Z.shiftl apicid 24);;
  lapicw ICRLO (Z.lor STARTUP (Z.shiftr addr 12)).

(** The calls of [main] that set up interrupts, in its order, with those of [consoleinit] and
    [ideinit]. *)
Definition main_interrupts (fuel : nat) : K (intr D) unit :=
  lapicinit fuel;;
  picinit;;
  ioapicinit;;
  (picenable IRQ_KBD;; ioapicenable IRQ_KBD 0);;
  uartinit;;
  (picenable IRQ_IDE;; ioapicenable IRQ_IDE (ncpu mp - 1));;
  if negb (ismp mp) then timerinit else mret tt.
End Intr.

(** *** The devices *)

(** An 8259A: the vector of its first line, the lines masked, and how many initialisation words
    it still expects. *)
Record chip := mkChip { ch_base : Z; ch_mask : Z; ch_icw : nat }.

Definition chip_cmd (v : Z) (c : chip) : chip := if Z.testbit v 4 then mkChip (ch_base c) 0 3 else c.
Definition chip_data (v : Z) (c : chip) : chip :=
  match ch_icw c with
  | 0%nat => mkChip (ch_base c) v 0
  | 3%nat => mkChip (v - v mod 8) (ch_mask c) 2
  | S k => mkChip (ch_base c) (ch_mask c) k
  end.

(** The 8253 counter: its mode, the low byte if it has come, the count. *)
Record pit := mkPit { pit_mode : Z; pit_low : option Z; pit_count : Z }.

(** All devices: the two interrupt controllers, the I/O APIC's selected register and registers,
    the local APIC's registers and the interrupts it sent, the timer, the serial line's
    divisor latch and output. *)
Record board := mkBoard {
  b_pic1 : chip;
  b_pic2 : chip;
  b_sel : Z;
  b_io : Z → Z;
  b_apic : Z → Z;
  b_sent : list (Z * Z);
  b_pit : pit;
  b_dlab : bool;
  b_uart : list Z
}.

Definition set_pic1 (c : chip) (b : board) : board :=
  mkBoard c (b_pic2 b) (b_sel b) (b_io b) (b_apic b) (b_sent b) (b_pit b) (b_dlab b) (b_uart b).
Definition set_pic2 (c : chip) (b : board) : board :=
  mkBoard (b_pic1 b) c (b_sel b) (b_io b) (b_apic b) (b_sent b) (b_pit b) (b_dlab b) (b_uart b).
Definition set_io (r : Z) (f : Z → Z) (b : board) : board :=
  mkBoard (b_pic1 b) (b_pic2 b) r f (b_apic b) (b_sent b) (b_pit b) (b_dlab b) (b_uart b).
Definition set_apic (f : Z → Z) (l : list (Z * Z)) (b : board) : board :=
  mkBoard (b_pic1 b) (b_pic2 b) (b_sel b) (b_io b) f l (b_pit b) (b_dlab b) (b_uart b).
Definition set_pit (c : pit) (b : board) : board :=
  mkBoard (b_pic1 b) (b_pic2 b) (b_sel b) (b_io b) (b_apic b) (b_sent b) c (b_dlab b) (b_uart b).
Definition set_line (l : bool) (o : list Z) (b : board) : board :=
  mkBoard (b_pic1 b) (b_pic2 b) (b_sel b) (b_io b) (b_apic b) (b_sent b) (b_pit b) l o.

Definition board_out (p v : Z) (b : board) : board :=
  if p =? IO_PIC1 then set_pic1 (chip_cmd v (b_pic1 b)) b
  else if p =? IO_PIC1 + 1 then set_pic1 (chip_data v (b_pic1 b)) b
  else if p =? IO_PIC2 then set_pic2 (chip_cmd v (b_pic2 b)) b
  else if p =? IO_PIC2 + 1 then set_pic2 (chip_data v (b_pic2 b)) b
  else if p =? TIMER_MODE then set_pit (mkPit v None (pit_count (b_pit b))) b
  else if p =? IO_TIMER1 then
    set_pit (match pit_low (b_pit b) with
             | None => mkPit (pit_mode (b_pit b)) (Some v) (pit_count (b_pit b))
             | Some l => mkPit (pit_mode (b_pit b)) None (l + 256 * v)
             end) b
  else if p =? COM1 + 3 then set_line (Z.testbit v 7) (b_uart b) b
  else if p =? COM1 then if b_dlab b then b else set_line false (b_uart b ++ [v]) b
  else b.

(** Only the redirection table of the I/O APIC is written; a write to [ICRLO] of the local APIC at
    [apic] sends an interrupt. *)
Definition board_st (apic a v : Z) (b : board) : board :=
  if a =? IOAPIC then set_io v (b_io b) b
  else if a =? IOAPIC + 16 then
    if REG_TABLE <=? b_sel b then set_io (b_sel b) (λ r, if r =? b_sel b then v else b_io b r) b else b
  else if (apic <=? a) && (a <? apic + 4096) then
    let i := (a - apic) / 4 in
    set_apic (λ r, if r =? i then v else b_apic b r)
      (if i =? ICRLO then b_sent b ++ [(b_apic b ICRHI, v)] else b_sent b) b
  else b.

(** What the drivers rely on.  Reading has no effect that is seen here; a data register of the
    I/O APIC reads as it was written; the local APIC gets done with an interrupt it sends; a
    line status of 255 says that there is no serial line. *)
Class Board (D : Type) `{BusOps D} (apic : Z) := {
  look : D → board;
  board_delay : nat;
  board_serial : bool;
  look_in p d : look (in8 p d).2 = look d;
  look_out p v d : look (out8 p v d) = board_out p v (look d);
  look_ld a d : look (ld32 a d).2 = look d;
  look_st a v d : look (st32 a v d) = board_st apic a v (look d);
  ioapic_data d : (ld32 (IOAPIC + 16) d).1 = b_io (look d) (b_sel (look d));
  apic_idle d : ∃ k, (k < board_delay)%nat ∧
    Z.land (ld32 (apic + 4 * ICRLO) (Nat.iter k (λ d, (ld32 (apic + 4 * ICRLO) d).2) d)).1 DELIVS = 0;
  line_status d : ((in8 (COM1 + 5) d).1 =? 255) = negb board_serial
}.

(** An interrupt line of the two chips is masked. *)
Definition masked (b : board) (i : Z) : bool :=
  if i <? 8 then Z.testbit (ch_mask (b_pic1 b)) i else Z.testbit (ch_mask (b_pic2 b)) (i - 8).

(** The entry of a line in the redirection table. *)
Definition redirection (b : board) (i : Z) : Z * Z := (b_io b (REG_TABLE + 2 * i), b_io b (REG_TABLE + 2 * i + 1)).
Definition maxintr (b : board) : Z := Z.land (Z.shiftr (b_io b REG_VER) 16) 255.

(** ** Lemmas *)

(** *** The devices *)

Definition outs (l : list (Z * Z)) (b : board) : board := foldl (λ b x, board_out x.1 x.2 b) b l.
Definition pic_program : list (Z * Z) :=
  [(33, 255); (161, 255); (32, 17); (33, 32); (33, 4); (33, 3); (160, 17); (161, 40); (161, 2); (161, 3);
   (32, 104); (32, 10); (160, 104); (160, 10)].

Lemma outs_pic b : outs pic_program b = set_pic1 (mkChip 32 0 0) (set_pic2 (mkChip 40 0 0) b).
Proof. by destruct b. Qed.

(** The chips are initialised and have the mask [m]. *)
Record pics (m : Z) (b : board) : Prop := {
  pics_1 : b_pic1 b = mkChip 32 (u8 m) 0;
  pics_2 : b_pic2 b = mkChip 40 (u8 (Z.shiftr m 8)) 0
}.

Definition enable_mask (irq m : Z) : Z := u16 (Z.land m (Z.lnot (Z.shiftl 1 irq))).
Definition write_mask (m : Z) (b : board) : board :=
  board_out (IO_PIC2 + 1) (u8 (Z.shiftr m 8)) (board_out (IO_PIC1 + 1) (u8 m) b).
Definition set_pics (m : Z) (b : board) : board :=
  set_pic1 (mkChip 32 (u8 m) 0) (set_pic2 (mkChip 40 (u8 (Z.shiftr m 8)) 0) b).

Lemma write_mask_ready m b :
  ch_icw (b_pic1 b) = 0%nat → ch_icw (b_pic2 b) = 0%nat → ch_base (b_pic1 b) = 32 → ch_base (b_pic2 b) = 40 →
  write_mask m b = set_pics m b.
Proof. destruct b as [[] [] ? ? ? ? ? ? ?]. cbn. by intros -> -> -> ->. Qed.

Lemma masked_pics m b i : pics m b → 0 ≤ i < 16 → masked b i = Z.testbit m i.
Proof.
  intros [E1 E2] Hi. unfold masked. rewrite E1, E2. cbn [ch_mask]. bool_case.
  - apply u8_testbit. lia.
  - rewrite u8_testbit, Z.shiftr_spec by lia. f_equal. lia.
Qed.

Lemma enable_mask_bit irq m i :
  0 ≤ irq → 0 ≤ i < 16 → Z.testbit (enable_mask irq m) i = Z.testbit m i && negb (i =? irq).
Proof.
  intros Hq Hi. unfold enable_mask, u16. change 65536 with (2 ^ 16). rewrite Z.mod_pow2_bits_low by lia.
  by rewrite Z.land_spec, Z.lnot_spec, Z.shiftl_1_l, Z.pow2_bits_eqb, (Z.eqb_sym irq) by lia.
Qed.

Lemma lor_small a b : 0 ≤ a → 0 ≤ b → a + b < 4294967296 → 0 ≤ Z.lor a b < 4294967296.
Proof.
  intros Ha Hb Hs. pose proof (Z.add_lor_land a b). assert (0 ≤ Z.land a b) by (apply Z.land_nonneg; lia).
  assert (0 ≤ Z.lor a b) by (apply Z.lor_nonneg; lia). lia.
Qed.

(** A write to the redirection table. *)
Definition io_set (r v : Z) (b : board) : board := set_io r (λ r', if r' =? r then v else b_io b r') b.

Lemma io_write apic r v b :
  REG_TABLE ≤ r → board_st apic (IOAPIC + 16) v (board_st apic IOAPIC r b) = io_set r v b.
Proof.
  intros Hr. unfold board_st. rewrite Z.eqb_refl. change (IOAPIC + 16 =? IOAPIC) with false. rewrite Z.eqb_refl. cbn.
  by rewrite (proj2 (Z.leb_le _ _) Hr).
Qed.

Definition entry_set (i lo hi : Z) (b : board) : board := io_set (REG_TABLE + 2 * i + 1) hi (io_set (REG_TABLE + 2 * i) lo b).

Lemma redirection_set i lo hi b j :
  redirection (entry_set i lo hi b) j = if j =? i then (lo, hi) else redirection b j.
Proof.
  unfold redirection, entry_set, io_set, REG_TABLE. cbn. destruct (Z.eqb_spec j i) as [->|]; repeat (bool_case; try lia; try done).
Qed.

Lemma maxintr_set i lo hi b : 0 ≤ i → maxintr (entry_set i lo hi b) = maxintr b.
Proof. intros Hi. unfold maxintr, entry_set, io_set, REG_VER, REG_TABLE. cbn [b_io set_io]. by repeat (bool_case; try lia). Qed.

Fixpoint entries_clear (n : nat) (i : Z) (b : board) : board :=
  match n with O => b | S n => entries_clear n (i + 1) (entry_set i (Z.lor INT_DISABLED (T_IRQ0 + i)) 0 b) end.

Lemma redirection_clear n i b j :
  redirection (entries_clear n i b) j =
    if (i <=? j) && (j <? i + Z.of_nat n) then (Z.lor INT_DISABLED (T_IRQ0 + j), 0) else redirection b j.
Proof.
  revert i b. induction n as [|n IH]; intros i b; cbn [entries_clear].
  - by repeat (bool_case; try lia).
  - rewrite IH, redirection_set. repeat (bool_case; try lia; try done). subst. done.
Qed.

Section Rules.
Context {D : Type} `{HB : Board D apic} (mp : mpst).

(** The part of the state the theorems are about. *)
Record seen := mkSeen { a_mask : Z; a_uart : bool; a_mem : mem; a_board : board }.
Definition see (s : intr D) : seen := mkSeen (irqmask s) (uart s) (i_mem s) (look (i_dev s)).
Definition on_board (f : board → board) (a : seen) : seen := mkSeen (a_mask a) (a_uart a) (a_mem a) (f (a_board a)).
Definition with_mask (m : Z) (a : seen) : seen := mkSeen m (a_uart a) (a_mem a) (a_board a).
Definition with_uart (u : bool) (a : seen) : seen := mkSeen (a_mask a) u (a_mem a) (a_board a).

(** [m] returns, and changes what is seen by [f]. *)
Definition does {A : Type} (m : K (intr D) A) (f : seen → seen) : Prop :=
  ∀ s, runs m s (λ _ s', see s' = f (see s)).

Lemma does_bind {A B : Type} (m : K (intr D) A) (k : A → K (intr D) B) f g :
  does m f → (∀ a, does (k a) g) → does (m ≫= k) (g ∘ f).
Proof.
  intros Hm Hk s. apply runs_bind. eapply runs_mono; [apply Hm|]. intros a s1 E1.
  eapply runs_mono; [apply Hk|]. intros b s2 E2. cbn. by rewrite E2, E1.
Qed.

Lemma does_rule {A : Type} (m : K (intr D) A) f s (Q : A → intr D → Prop) :
  does m f → (∀ a s', see s' = f (see s) → Q a s') → runs m s Q.
Proof. intros Hm HQ. exact (runs_mono _ _ _ _ (Hm s) HQ). Qed.

Lemma does_ret {A : Type} (a : A) : does (mret a) id.
Proof. intros s. by apply runs_ret. Qed.

Lemma does_out p v : does (outb p v) (on_board (board_out p (u8 v))).
Proof. intros s. apply runs_mod. unfold see, on_board. cbn. by rewrite look_out. Qed.

Lemma does_store a v : does (store a v) (on_board (board_st apic a (u32 v))).
Proof. intros s. apply runs_mod. unfold see, on_board. cbn. by rewrite look_st. Qed.

Lemma in_rule p s (Q : Z → intr D → Prop) :
  (∀ s', see s' = see s → Q (in8 p (i_dev s)).1 s') → runs (inb p) s Q.
Proof.
  intros HQ. apply (runs_ok _ _ (in8 p (i_dev s)).1 (set_i_dev (in8 p (i_dev s)).2 s)).
  - unfold inb. by destruct (in8 p (i_dev s)).
  - apply HQ. unfold see. cbn. by rewrite look_in.
Qed.

Lemma load_rule a s (Q : Z → intr D → Prop) :
  (∀ s', see s' = see s → i_dev s' = (ld32 a (i_dev s)).2 → Q (ld32 a (i_dev s)).1 s') → runs (load a) s Q.
Proof.
  intros HQ. apply (runs_ok _ _ (ld32 a (i_dev s)).1 (set_i_dev (ld32 a (i_dev s)).2 s)).
  - unfold load. by destruct (ld32 a (i_dev s)).
  - apply HQ; [|done]. unfold see. cbn. by rewrite look_ld.
Qed.

Lemma does_in p : does (inb p) id.
Proof. intros s. by apply in_rule. Qed.

Lemma does_load a : does (load a) id.
Proof. intros s. by apply load_rule. Qed.

(** *** The 8259A controllers *)

Lemma does_picsetmask m : does (picsetmask m) (λ a, on_board (write_mask m) (with_mask m a)).
Proof.
  apply (does_bind _ _ (with_mask m) (on_board (write_mask m))); [intros s; by apply runs_mod|]. intros _.
  apply (does_bind _ _ (on_board (board_out (IO_PIC1 + 1) (u8 m))) (on_board (board_out (IO_PIC2 + 1) (u8 (Z.shiftr m 8)))));
    [apply does_out|]. intros _. apply does_out.
Qed.

Lemma does_picenable irq :
  does (picenable irq) (λ a, let m := enable_mask irq (a_mask a) in on_board (write_mask m) (with_mask m a)).
Proof. intros s. apply runs_bind, runs_get. apply does_picsetmask. Qed.

Lemma does_picinit s :
  irqmask s ≠ 65535 →
  runs picinit s (λ _ s', see s' = on_board (λ b, write_mask (irqmask s) (outs pic_program b)) (see s)).
Proof.
  intros Hm. unfold picinit.
  do 14 (apply runs_bind, (does_rule _ _ _ _ (does_out _ _)); let t := fresh "t" in let E := fresh "E" in intros _ t E).
  apply runs_bind, runs_get.
  assert (E' : see t12 = on_board (outs pic_program) (see s)) by (repeat (match goal with E : see _ = _ |- _ => rewrite E; clear E end); done).
  assert (Em : irqmask t12 = irqmask s) by exact (f_equal a_mask E'). rewrite Em.
  destruct (Z.eqb_spec (irqmask s) 65535) as [|_]; [done|]. cbn [negb].
  apply (does_rule _ _ _ _ (does_picsetmask _)). intros _ s' ->. rewrite E'.
  unfold on_board, with_mask. cbn [a_mask a_uart a_mem a_board see]. reflexivity.
Qed.
(** *** The I/O APIC *)

Lemma does_ioapicwrite r v :
  REG_TABLE ≤ r < 4294967296 → does (ioapicwrite r v) (on_board (io_set r (u32 v))).
Proof.
  intros Hr s. unfold ioapicwrite. apply runs_bind, (does_rule _ _ _ _ (does_store _ _)). intros _ s1 E1.
  apply (does_rule _ _ _ _ (does_store _ _)). intros _ s2 E2. rewrite E2, E1. unfold on_board.
  cbn [a_mask a_uart a_mem a_board]. rewrite (u32_small r) by (unfold REG_TABLE in Hr; lia). by rewrite io_write by lia.
Qed.

Lemma does_entry i lo hi :
  0 ≤ i < 1000000 →
  does (ioapicwrite (REG_TABLE + 2 * i) lo;; ioapicwrite (REG_TABLE + 2 * i + 1) hi) (on_board (entry_set i (u32 lo) (u32 hi))).
Proof.
  intros Hi s. assert (H1 : REG_TABLE ≤ REG_TABLE + 2 * i < 4294967296) by (unfold REG_TABLE; lia).
  assert (H2 : REG_TABLE ≤ REG_TABLE + 2 * i + 1 < 4294967296) by (unfold REG_TABLE; lia).
  apply runs_bind, (does_rule _ _ _ _ (does_ioapicwrite _ _ H1)). intros _ s1 E1.
  apply (does_rule _ _ _ _ (does_ioapicwrite _ _ H2)). intros _ s2 E2. by rewrite E2, E1.
Qed.

Lemma does_ioapicinit_loop n i :
  0 ≤ i → i + Z.of_nat n ≤ 256 → does (ioapicinit_loop n i) (on_board (entries_clear n i)).
Proof.
  revert i. induction n as [|n IH]; intros i Hi Hn s; cbn [ioapicinit_loop entries_clear].
  { apply runs_ret. by destruct (see s). }
  apply runs_bind_assoc, runs_bind, (does_rule _ _ _ _ (does_entry i _ _ ltac:(lia))). intros _ s1 E1.
  apply (does_rule _ _ _ _ (IH (i + 1) ltac:(lia) ltac:(lia))). intros _ s2 E2. rewrite E2, E1.
  by rewrite (u32_small (Z.lor _ _)) by (apply lor_small; unfold INT_DISABLED, T_IRQ0; lia).
Qed.
(** *** The local APIC *)

Hypothesis apic_at : lapic mp ≠ 0 → lapic mp = apic.
Hypothesis apic_apart : apic + 4096 ≤ IOAPIC ∨ IOAPIC + 16 < apic.

Definition apic_set (i v : Z) (b : board) : board :=
  set_apic (λ r, if r =? i then v else b_apic b r) (if i =? ICRLO then b_sent b ++ [(b_apic b ICRHI, v)] else b_sent b) b.

Lemma apic_write i v b : 0 ≤ i < 1024 → board_st apic (apic + 4 * i) v b = apic_set i v b.
Proof.
  intros Hi. unfold board_st. destruct (Z.eqb_spec (apic + 4 * i) IOAPIC); [lia|].
  destruct (Z.eqb_spec (apic + 4 * i) (IOAPIC + 16)); [lia|].
  rewrite (proj2 (Z.leb_le apic _)), (proj2 (Z.ltb_lt _ (apic + 4096))) by lia. cbn [andb].
  by replace ((apic + 4 * i - apic) / 4) with i by zmod_lia.
Qed.

Lemma does_lapicw i v :
  lapic mp ≠ 0 → 0 ≤ i < 1024 → does (lapicw mp i v) (on_board (apic_set i (u32 v))).
Proof.
  intros Hl Hi s. unfold lapicw. rewrite (apic_at Hl).
  apply runs_bind, (does_rule _ _ _ _ (does_store _ _)). intros _ s1 E1.
  apply runs_bind, (does_rule _ _ _ _ (does_load _)). intros _ s2 E2. apply runs_ret.
  rewrite E2, E1. unfold on_board. cbn [id]. by rewrite apic_write.
Qed.

Lemma does_lapic_wait fuel :
  (board_delay ≤ fuel)%nat → lapic mp ≠ 0 → does (lapic_wait mp fuel) id.
Proof.
  intros Hf Hl s. destruct (apic_idle (i_dev s)) as (k & Hk & E). assert (Hkf : (k < fuel)%nat) by lia.
  clear Hf Hk. revert fuel s Hkf E.
  induction k as [|k IH]; intros fuel s Hkf E; (destruct fuel as [|fuel]; [lia|]); cbn [lapic_wait];
    rewrite (apic_at Hl); apply runs_bind, load_rule; intros s1 E1 Ed.
  - cbn in E. rewrite E. by apply runs_ret.
  - destruct (_ =? 0); [by apply runs_ret|]. eapply runs_mono; [apply IH; [lia|]|].
    + rewrite Ed. by rewrite Nat.iter_succ_r in E.
    + intros _ s2 ->. exact E1.
Qed.

(** *** What is set up so far *)

(** Lines [on] are enabled, [dest] are routed by the I/O APIC, the first entry for a line counting. *)
Definition route (dest : list (Z * Z)) (i : Z) : Z * Z :=
  match list_find (λ x, x.1 = i) dest with
  | Some (_, (_, c)) => (T_IRQ0 + i, u32 (Z.shiftl c 24))
  | None => (Z.lor INT_DISABLED (T_IRQ0 + i), 0)
  end.

Record ready (b0 : board) (f : Z → Z) (on : list Z) (dest : list (Z * Z)) (u : bool) (o : bool * list Z) (a : seen) : Prop := {
  rd_mask i : 0 ≤ i < 16 → Z.testbit (a_mask a) i = negb (bool_decide (i ∈ on));
  rd_pics : pics (a_mask a) (a_board a);
  rd_io : ismp mp = true → ∀ i, 0 ≤ i ≤ maxintr b0 → redirection (a_board a) i = route dest i;
  rd_up : ismp mp = false → b_io (a_board a) = b_io b0;
  rd_apic : b_apic (a_board a) = f;
  rd_uart : a_uart a = u;
  rd_line : (b_dlab (a_board a), b_uart (a_board a)) = o
}.

Lemma ready_picenable b0 f on dest u o a irq :
  0 ≤ irq < 16 → ready b0 f on dest u o a →
  let m := enable_mask irq (a_mask a) in ready b0 f (irq :: on) dest u o (on_board (write_mask m) (with_mask m a)).
Proof.
  intros Hq [H1 [H2 H2'] H3 H4 H5 H6 H7] m. unfold on_board. cbn [a_mask a_uart a_board with_mask].
  rewrite write_mask_ready by (by rewrite ?H2, ?H2'). split; try done. cbn [a_mask].
  intros i Hi. unfold m. rewrite enable_mask_bit, H1 by lia.
  rewrite <- negb_orb. f_equal. apply eq_bool_prop_intro. rewrite orb_True, !bool_decide_spec, elem_of_cons, Is_true_true, Z.eqb_eq. tauto.
Qed.

Lemma ready_route b0 f on dest u o a irq c :
  0 ≤ irq < 256 → ready b0 f on dest u o a →
  ready b0 f on ((irq, c) :: dest) u o
    (if ismp mp then on_board (entry_set irq (u32 (T_IRQ0 + irq)) (u32 (Z.shiftl c 24))) a else a).
Proof.
  intros Hq [H1 H2 H3 H4 H5 H6 H7]. destruct (ismp mp) eqn:Em; (split; [exact H1|by destruct H2| | |done..]); rewrite ?Em;
    [|done|done|exact H4]. intros _ i Hi. cbn [on_board a_board]. rewrite redirection_set. unfold route. cbn [list_find].
  destruct (Z.eqb_spec i irq) as [->|Hne].
  - rewrite decide_True by done. by rewrite u32_small by (unfold T_IRQ0; lia).
  - rewrite decide_False by (cbn; congruence). rewrite H3 by done. unfold route.
    by destruct (list_find _ dest) as [[? []]|].
Qed.
Lemma does_ioapicenable irq c :
  0 ≤ irq < 256 →
  does (ioapicenable mp irq c)
    (λ a, if ismp mp then on_board (entry_set irq (u32 (T_IRQ0 + irq)) (u32 (Z.shiftl c 24))) a else a).
Proof.
  intros Hq s. unfold ioapicenable. destruct (ismp mp); cbn [negb]; [|by apply runs_ret].
  apply (does_rule _ _ _ _ (does_entry irq _ _ ltac:(lia))). by intros.
Qed.

Lemma enable_rule b0 f on dest u o irq c s (Q : unit → intr D → Prop) :
  0 ≤ irq < 16 → ready b0 f on dest u o (see s) →
  (∀ s', ready b0 f (irq :: on) ((irq, c) :: dest) u o (see s') → Q tt s') →
  runs (picenable irq;; ioapicenable mp irq c) s Q.
Proof.
  intros Hq Hr HQ. apply runs_bind, (does_rule _ _ _ _ (does_picenable irq)). intros _ s1 E1.
  apply (does_rule _ _ _ _ (does_ioapicenable irq c ltac:(lia))). intros [] s2 E2. apply HQ. rewrite E2, E1.
  apply ready_route; [lia|]. by apply ready_picenable.
Qed.

Lemma ready_sent b0 f on dest u o a l :
  ready b0 f on dest u o a → ready b0 f on dest u (false, l) (on_board (set_line false l) a).
Proof. intros [H1 [H2 H2'] H3 H4 H5 H6 H7]. by split. Qed.

Lemma does_uart_wait n : does (uart_wait n) id.
Proof.
  induction n as [|n IH]; intros s; cbn [uart_wait]; [by apply runs_ret|]. apply runs_bind, in_rule. intros s1 E1.
  destruct (_ =? 0); [|by apply runs_ret]. eapply runs_mono; [apply IH|]. intros _ s2 ->. exact E1.
Qed.

Lemma uartputc_sends b0 f on dest l c s (Q : unit → intr D → Prop) :
  ready b0 f on dest true (false, l) (see s) →
  (∀ s', ready b0 f on dest true (false, l ++ [u8 c]) (see s') → Q tt s') → runs (uartputc c) s Q.
Proof.
  intros Hr HQ. unfold uartputc. apply runs_bind, runs_get.
  assert (Eu : uart s = true) by exact (rd_uart _ _ _ _ _ _ _ Hr). rewrite Eu. cbn [negb].
  apply runs_bind, (does_rule _ _ _ _ (does_uart_wait 128)). intros _ s1 E1.
  apply (does_rule _ _ _ _ (does_out _ _)). intros [] s2 E2. apply HQ. rewrite E2, E1. cbn [id].
  pose proof (rd_line _ _ _ _ _ _ _ Hr) as El. injection El as Ed El.
  unfold on_board, board_out. cbn. rewrite Ed. cbn. rewrite El. exact (ready_sent _ _ _ _ _ _ _ (l ++ [u8 c]) Hr).
Qed.

Lemma uart_puts_sends b0 f on dest l cs s (Q : unit → intr D → Prop) :
  ready b0 f on dest true (false, l) (see s) →
  (∀ s', ready b0 f on dest true (false, l ++ (u8 <$> cs)) (see s') → Q tt s') → runs (uart_puts cs) s Q.
Proof.
  revert l s. induction cs as [|c cs IH]; intros l s Hr HQ; cbn [uart_puts].
  - apply runs_ret. apply HQ. by rewrite app_nil_r.
  - apply runs_bind, (uartputc_sends _ _ _ _ _ _ _ _ Hr). intros s1 H1. apply (IH _ _ H1). intros s2 H2. apply HQ.
    by rewrite fmap_cons, cons_middle, app_assoc.
Qed.
Definition uart_program : list (Z * Z) := [(1018, 0); (1019, 128); (1016, 12); (1017, 0); (1019, 3); (1020, 0); (1017, 1)].

Lemma outs_uart b : outs uart_program b = set_line false (b_uart b) b.
Proof. by destruct b. Qed.

Definition greeting : list Z := bytes_of "xv6..." ++ [10].

(** [uartinit] enables the line of the serial port and prints a greeting, if there is one. *)
Lemma uartinit_rule b0 f on dest l d s (Q : unit → intr D → Prop) :
  ready b0 f on dest false (d, l) (see s) →
  (∀ s', (if board_serial then ready b0 f (4 :: on) ((4, 0) :: dest) true (false, l ++ greeting) (see s')
          else ready b0 f on dest false (false, l) (see s')) → Q tt s') →
  runs (uartinit mp) s Q.
Proof.
  intros Hr HQ. unfold uartinit.
  do 7 (apply runs_bind, (does_rule _ _ _ _ (does_out _ _)); let t := fresh "t" in let E := fresh "E" in intros _ t E).
  assert (E' : see t5 = on_board (outs uart_program) (see s))
    by (repeat (match goal with E : see _ = _ |- _ => rewrite E; clear E end); done).
  assert (R5 : ready b0 f on dest false (false, l) (see t5)).
  { rewrite E'. unfold on_board. rewrite outs_uart. pose proof (rd_line _ _ _ _ _ _ _ Hr) as El. injection El as _ El.
    cbn [see a_mask a_uart a_mem a_board]. rewrite El. exact (ready_sent _ _ _ _ _ _ _ l Hr). }
  apply runs_bind, in_rule. intros t6 E6. rewrite line_status. rewrite <- E6 in R5. clear dependent t5. 
  destruct board_serial; cbn [negb]; [|by apply runs_ret, HQ].
  apply runs_bind, runs_mod. apply runs_bind, (does_rule _ _ _ _ (does_in _)). intros _ t7 E7.
  apply runs_bind, (does_rule _ _ _ _ (does_in _)). intros _ t8 E8. cbn [id] in E7, E8.
  apply runs_bind_assoc, runs_bind, (enable_rule b0 f on dest true (false, l) IRQ_COM1 0); [unfold IRQ_COM1; lia| |].
  { rewrite E8, E7. destruct R5 as [H1 [H2 H2'] H3 H4 H5 H6 H7]. by split. }
  intros t9 R9. apply (uart_puts_sends _ _ _ _ _ _ _ _ R9). intros s' R. by apply HQ.
Qed.

(** The local APIC as [lapicinit] leaves it. *)
Record apic_ready (f : Z → Z) : Prop := {
  ar_svr : f SVR = 319;
  ar_timer : f TIMER = 131104 ∧ f TDCR = 11 ∧ f TICR = 1000000;
  ar_lint : f LINT0 = MASKED ∧ f LINT1 = MASKED;
  ar_error : f ERROR = 51;
  ar_tpr : f TPR = 0
}.

(** Since [s0] only the local APIC has changed, and its registers [rs] have these values. *)
Definition apic_has (s0 : intr D) (rs : list (Z * Z)) (s : intr D) : Prop :=
  ∃ f l, see s = on_board (set_apic f l) (see s0) ∧ Forall (λ x, f x.1 = x.2) rs.

Lemma apic_has_start s : apic_has s [] s.
Proof.
  exists (b_apic (look (i_dev s))), (b_sent (look (i_dev s))). split; [|done]. unfold see, on_board. cbn. by destruct (look _).
Qed.

Lemma lapicw_rule s0 rs i v s (Q : unit → intr D → Prop) :
  lapic mp ≠ 0 → 0 ≤ i < 1024 → apic_has s0 rs s → Forall (λ x, x.1 ≠ i) rs →
  (∀ s', apic_has s0 ((i, u32 v) :: rs) s' → Q tt s') → runs (lapicw mp i v) s Q.
Proof.
  intros Hl Hi (f & l & E & Hrs) Hn HQ. apply (does_rule _ _ _ _ (does_lapicw i v Hl Hi)). intros [] s' E'. apply HQ.
  eexists _, _. split; [rewrite E', E; reflexivity|]. apply Forall_cons. cbn. rewrite Z.eqb_refl. split; [done|].
  apply Forall_forall. intros x Hx. rewrite Forall_forall in Hrs, Hn. specialize (Hn x Hx).
  destruct (Z.eqb_spec x.1 i); [done|]. by apply Hrs.
Qed.

Lemma apic_has_drop s0 x rs s : apic_has s0 (x :: rs) s → apic_has s0 rs s.
Proof. intros (f & l & E & Hrs). exists f, l. split; [done|]. by apply Forall_cons in Hrs as [_ ?]. Qed.

Lemma apic_has_same s0 rs s s' : apic_has s0 rs s → see s' = see s → apic_has s0 rs s'.
Proof. intros (f & l & E & Hrs) E'. exists f, l. by rewrite E', E. Qed.

(** A write that is not always done. *)
Lemma lapic_optional s0 rs i v (b : bool) s :
  lapic mp ≠ 0 → 0 ≤ i < 1024 → apic_has s0 rs s → Forall (λ x, x.1 ≠ i) rs →
  runs (if b then lapicw mp i v else mret tt) s (λ _ s', apic_has s0 rs s').
Proof.
  intros Hl Hi Ha Hn. destruct b; [|by apply runs_ret]. apply (lapicw_rule s0 rs _ _ _ _ Hl Hi Ha Hn).
  intros s' H'. by apply apic_has_drop in H'.
Qed.

Lemma lapicinit_rule fuel s (Q : unit → intr D → Prop) :
  (board_delay ≤ fuel)%nat →
  (∀ s' f l, see s' = on_board (set_apic f l) (see s) → (lapic mp ≠ 0 → apic_ready f) → Q tt s') →
  runs (lapicinit mp fuel) s Q.
Proof.
  intros Hf HQ. unfold lapicinit. destruct (Z.eqb_spec (lapic mp) 0) as [E0|Hl].
  { destruct (apic_has_start s) as (f & l & E & _). by apply runs_ret, (HQ _ f l). }
  pose proof (apic_has_start s) as H0.
  do 6 (apply runs_bind; eapply lapicw_rule; [exact Hl|done|exact H0|by repeat constructor|];
        clear H0; let t := fresh "t" in intros t H0).
  apply runs_bind, (does_rule _ _ _ _ (does_load _)). intros v t6 E6. apply (apic_has_same _ _ _ _ H0) in E6. clear H0.
  apply runs_bind. eapply runs_mono; [eapply (lapic_optional _ _ PCINT); [exact Hl|done|exact E6|by repeat constructor]|].
  intros [] t7 H7. cbn beta in H7.
  apply runs_bind; eapply lapicw_rule; [exact Hl|done|exact H7|by repeat constructor|]. intros t8 H8.
  do 5 (apply runs_bind; eapply lapicw_rule; [exact Hl|done|exact H8|by repeat constructor|];
        clear H8; let t := fresh "t" in intros t H8%apic_has_drop).
  apply runs_bind, (does_rule _ _ _ _ (does_lapic_wait fuel Hf Hl)). intros _ t13 E13.
  apply (apic_has_same _ _ _ _ H8) in E13. clear H8.
  eapply lapicw_rule; [exact Hl|done|exact E13|by repeat constructor|]. intros s' (f & l & E & Hfs). apply (HQ s' f l E).
  intros _. rewrite !Forall_cons in Hfs. destruct_and!. by split.
Qed.
(** The interrupts sent so far, the memory, and the destination of the next interrupt. *)
Definition sends (l : list (Z * Z)) (m : mem) (hi : Z) (s : intr D) : Prop :=
  b_sent (look (i_dev s)) = l ∧ i_mem s = m ∧ b_apic (look (i_dev s)) ICRHI = hi.

Lemma send_hi l m v s :
  lapic mp ≠ 0 → b_sent (look (i_dev s)) = l → i_mem s = m →
  runs (lapicw mp ICRHI v) s (λ _ s', sends l m (u32 v) s').
Proof.
  intros Hl <- <-. apply (does_rule _ _ _ _ (does_lapicw ICRHI v Hl ltac:(done))). intros _ s' E.
  assert (Eb : look (i_dev s') = _) by exact (f_equal a_board E). assert (Em : i_mem s' = _) by exact (f_equal a_mem E).
  unfold sends. by rewrite Eb, Em.
Qed.

Lemma send_lo l m hi v s :
  lapic mp ≠ 0 → sends l m hi s → runs (lapicw mp ICRLO v) s (λ _ s', sends (l ++ [(hi, u32 v)]) m hi s').
Proof.
  intros Hl (<- & <- & <-). apply (does_rule _ _ _ _ (does_lapicw ICRLO v Hl ltac:(done))). intros _ s' E.
  assert (Eb : look (i_dev s') = _) by exact (f_equal a_board E). assert (Em : i_mem s' = _) by exact (f_equal a_mem E).
  unfold sends. by rewrite Eb, Em.
Qed.

(** *** The initialisation *)

Lemma ioapicread_rule r s (Q : Z → intr D → Prop) :
  0 ≤ r < 4294967296 →
  (∀ s', see s' = on_board (λ b, set_io r (b_io b) b) (see s) → Q (b_io (look (i_dev s)) r) s') → runs (ioapicread r) s Q.
Proof.
  intros Hr HQ. unfold ioapicread. apply runs_bind, (does_rule _ _ _ _ (does_store _ _)). intros _ s1 E1.
  rewrite (u32_small r Hr) in E1.
  assert (Eb : look (i_dev s1) = set_io r (b_io (look (i_dev s))) (look (i_dev s))) by exact (f_equal a_board E1).
  apply load_rule. intros s2 E2 _. rewrite ioapic_data, Eb. apply HQ. by rewrite E2, E1.
Qed.

Lemma entries_clear_io n i b : ∃ r f, entries_clear n i b = set_io r f b.
Proof.
  revert i b. induction n as [|n IH]; intros i b; cbn [entries_clear].
  - exists (b_sel b), (b_io b). by destruct b.
  - destruct (IH (i + 1) (entry_set i (Z.lor INT_DISABLED (T_IRQ0 + i)) 0 b)) as (r & f & ->). by exists r, f.
Qed.

Lemma ioapicinit_rule s (Q : unit → intr D → Prop) :
  (∀ s' r f, see s' = on_board (set_io r f) (see s) →
     (ismp mp = true → ∀ i, 0 ≤ i ≤ maxintr (look (i_dev s)) → redirection (look (i_dev s')) i = route [] i) →
     (ismp mp = false → f = b_io (look (i_dev s))) → Q tt s') →
  runs (ioapicinit mp) s Q.
Proof.
  intros HQ. unfold ioapicinit. destruct (ismp mp) eqn:Em; cbn [negb].
  - apply runs_bind, ioapicread_rule; [done|]. intros s1 E1. apply runs_bind, ioapicread_rule; [done|]. intros s2 E2.
    fold (maxintr (look (i_dev s))). set (m := maxintr _).
    assert (Hm : 0 ≤ m < 256).
    { unfold m, maxintr. change 255 with (Z.ones 8). rewrite Z.land_ones by lia. by apply Z.mod_pos_bound. }
    apply runs_bind. eapply (does_rule _ id); [intros t; destruct (_ =? _); cbn [negb]; [by apply runs_ret|by apply runs_mod]|].
    intros [] s3 E3. apply (does_rule _ _ _ _ (does_ioapicinit_loop (Z.to_nat (m + 1)) 0 ltac:(lia) ltac:(lia))).
    intros [] s4 E4. set (b := look (i_dev s)) in *.
    assert (E5 : see s4 = on_board (λ _, entries_clear (Z.to_nat (m + 1)) 0 (set_io REG_ID (b_io b) b)) (see s))
      by (rewrite E4, E3; cbn [id]; by rewrite E2, E1).
    destruct (entries_clear_io (Z.to_nat (m + 1)) 0 (set_io REG_ID (b_io b) b)) as (r & f & Ec).
    apply (HQ s4 r f); [rewrite E5; unfold on_board; by rewrite Ec| |done].
    intros _ i Hi. assert (Eb : look (i_dev s4) = _) by exact (f_equal a_board E5). rewrite Eb. cbn [on_board a_board].
    rewrite redirection_clear. repeat (bool_case; try lia). done.
  - apply runs_ret. apply (HQ s (b_sel (look (i_dev s))) (b_io (look (i_dev s)))); [|done|done].
    unfold see, on_board. cbn. by destruct (look (i_dev s)).
Qed.
Lemma outs_pit b :
  outs [(67, 52); (64, 169); (64, 4)] b = set_pit (mkPit 52 None 1193) b.
Proof. by destruct b. Qed.

Lemma timerinit_rule b0 f on dest u o s (Q : unit → intr D → Prop) :
  ready b0 f on dest u o (see s) →
  (∀ s', ready b0 f (0 :: on) dest u o (see s') → b_pit (look (i_dev s')) = mkPit 52 None 1193 → Q tt s') →
  runs timerinit s Q.
Proof.
  intros Hr HQ. unfold timerinit.
  do 3 (apply runs_bind, (does_rule _ _ _ _ (does_out _ _)); let t := fresh "t" in let E := fresh "E" in intros _ t E).
  assert (E' : see t1 = on_board (outs [(67, 52); (64, 169); (64, 4)]) (see s)) by (by rewrite E1, E0, E).
  clear E E0 E1. apply (does_rule _ _ _ _ (does_picenable IRQ_TIMER)). intros [] s' Es'.
  assert (R : ready b0 f on dest u o (see t1)).
  { rewrite E'. unfold on_board. rewrite outs_pit. destruct Hr as [H1 [H2 H2'] H3 H4 H5 H6 H7]. by split. }
  apply HQ; [rewrite Es'; apply ready_picenable; [unfold IRQ_TIMER; lia|done]|].
  assert (Eb : look (i_dev s') = _) by exact (f_equal a_board Es'). rewrite Eb. cbn [on_board a_board].
  destruct R as [_ [H2 H2'] _ _ _ _ _]. rewrite write_mask_ready by (cbn [with_mask a_board]; by rewrite ?H2, ?H2').
  cbn [set_pics b_pit set_pic1 set_pic2 with_mask a_board see]. 
  assert (Et : look (i_dev t1) = _) by exact (f_equal a_board E'). rewrite Et. cbn [on_board a_board]. by rewrite outs_pit.
Qed.

(** [irqmask] at the start: all lines but that of the second chip are off. *)
Definition irqmask0 : Z := 65531.

Lemma start_rule fuel s (Q : unit → intr D → Prop) :
  (board_delay ≤ fuel)%nat → irqmask s = irqmask0 → uart s = false →
  (∀ s' f, ready (look (i_dev s)) f [2] [] false (b_dlab (look (i_dev s)), b_uart (look (i_dev s))) (see s') →
     (lapic mp ≠ 0 → apic_ready f) → Q tt s') →
  runs ((lapicinit mp fuel;; picinit);; ioapicinit mp) s Q.
Proof.
  intros Hf Hm Hu HQ. apply runs_bind, runs_bind, lapicinit_rule; [done|]. intros s1 f l E1 Hap.
  assert (Em1 : irqmask s1 = irqmask0) by (rewrite <- Hm; exact (f_equal a_mask E1)).
  eapply runs_mono; [apply does_picinit; by rewrite Em1|]. intros [] s2 E2. cbn beta in E2.
  rewrite Em1 in E2.
  assert (E2' : see s2 = on_board (λ b, set_pics irqmask0 (set_apic f l b)) (see s)).
  { rewrite E2, E1. unfold on_board. cbn [a_board a_mask a_uart a_mem]. rewrite outs_pic. by rewrite write_mask_ready. }
  clear E2. apply ioapicinit_rule. intros s3 r g E3 Hio Hup. apply (HQ s3 f); [|done].
  assert (Eb2 : look (i_dev s2) = _) by exact (f_equal a_board E2').
  assert (Eb3 : look (i_dev s3) = _) by exact (f_equal a_board E3).
  assert (Em3 : irqmask s3 = irqmask0)
    by (rewrite <- Hm; transitivity (irqmask s2); [exact (f_equal a_mask E3)|exact (f_equal a_mask E2')]).
  split; cbn [see a_mask a_board a_uart].
  - intros i Hi. rewrite Em3. replace i with (Z.of_nat (Z.to_nat i)) by lia. assert (Hn : (Z.to_nat i < 16)%nat) by lia.
    generalize dependent (Z.to_nat i). intros n Hn. do 16 (destruct n as [|n]; [reflexivity|]). lia.
  - rewrite Em3, Eb3. cbn [on_board a_board see]. rewrite Eb2. by split.
  - intros Hmp i Hi. apply (Hio Hmp). rewrite Eb2. exact Hi.
  - intros Hmp. rewrite Eb3. cbn [on_board a_board see set_io b_io]. rewrite (Hup Hmp), Eb2. done.
  - rewrite Eb3. cbn [on_board a_board see set_io b_apic]. by rewrite Eb2.
  - rewrite <- Hu. transitivity (uart s2); [exact (f_equal a_uart E3)|exact (f_equal a_uart E2')].
  - rewrite Eb3. cbn [on_board a_board see set_io b_dlab b_uart]. by rewrite Eb2.
Qed.

(** The lines in use, and where the I/O APIC sends them: keyboard, disk, serial port if there is
    one; the second controller; the timer if there is no local APIC timer. *)
Definition lines_on : list Z :=
  (if ismp mp then [] else [IRQ_TIMER]) ++ IRQ_IDE :: (if board_serial then [IRQ_COM1] else []) ++ [IRQ_KBD; IRQ_SLAVE].
Definition lines_to : list (Z * Z) :=
  (IRQ_IDE, ncpu mp - 1) :: (if board_serial then [(IRQ_COM1, 0)] else []) ++ [(IRQ_KBD, 0)].

Lemma ready_done b f u o s :
  ready b f lines_on lines_to u (false, o) (see s) → (lapic mp ≠ 0 → apic_ready f) →
  (ismp mp = false → b_pit (look (i_dev s)) = mkPit 52 None 1193) →
  let b' := look (i_dev s) in
  ch_base (b_pic1 b') = 32 ∧ ch_base (b_pic2 b') = 40 ∧
  (∀ i, 0 ≤ i < 16 → masked b' i = negb (bool_decide (i ∈ lines_on))) ∧
  (ismp mp = true → ∀ i, 0 ≤ i ≤ maxintr b → redirection b' i = route lines_to i) ∧
  (lapic mp ≠ 0 → apic_ready (b_apic b')) ∧
  (ismp mp = false → b_pit b' = mkPit 52 None (TIMER_DIV TPS)) ∧ b_uart b' = o.
Proof.
  intros [H1 H2 H3 _ H5 _ H7] Hap Hp b'. cbn [see a_board a_mask] in *. fold b' in H2, H3, H5, H7, Hp.
  injection H7 as _ H7. split_and!; try done.
  - by rewrite (pics_1 _ _ H2).
  - by rewrite (pics_2 _ _ H2).
  - intros i Hi. rewrite (masked_pics _ _ _ H2 Hi). by apply H1.
  - by rewrite H5.
Qed.

(** ** Theorems *)

(** C27: after the calls of [main] that set up interrupts the 8259A chips deliver lines 0 to 15 at
    vectors 32 to 47 and leave exactly the lines in use unmasked; on a multiprocessor each entry
    of the I/O APIC is disabled but those of the lines in use, routed to their processor, and the
    local APIC timer runs at [TPS]; otherwise the timer chip does.  The serial port, if there is
    one, has sent the greeting. *)
Theorem main_interrupts_correct fuel s :
  (board_delay ≤ fuel)%nat → irqmask s = irqmask0 → uart s = false →
  let b := look (i_dev s) in
  runs (main_interrupts mp fuel) s (λ _ s',
    let b' := look (i_dev s') in
    ch_base (b_pic1 b') = 32 ∧ ch_base (b_pic2 b') = 40 ∧
    (∀ i, 0 ≤ i < 16 → masked b' i = negb (bool_decide (i ∈ lines_on))) ∧
    (ismp mp = true → ∀ i, 0 ≤ i ≤ maxintr b → redirection b' i = route lines_to i) ∧
    (lapic mp ≠ 0 → apic_ready (b_apic b')) ∧
    (ismp mp = false → b_pit b' = mkPit 52 None (TIMER_DIV TPS)) ∧
    b_uart b' = b_uart b ++ (if board_serial then greeting else [])).
Proof.
  intros Hf Hm Hu b. unfold main_interrupts.
  apply runs_bind_assoc, runs_bind_assoc, runs_bind, start_rule; [done..|]. intros s1 f R1 Hap.
  apply runs_bind, (enable_rule _ _ _ _ _ _ IRQ_KBD 0 _ _ ltac:(unfold IRQ_KBD; lia) R1). intros s2 R2.
  apply runs_bind, (uartinit_rule _ _ _ _ _ _ _ _ R2). intros s3 R3. fold b in R3.
  apply runs_bind. assert (∃ u, ready b f ((if board_serial then [IRQ_COM1] else []) ++ [IRQ_KBD; IRQ_SLAVE])
    ((if board_serial then [(IRQ_COM1, 0)] else []) ++ [(IRQ_KBD, 0)]) u
    (false, b_uart b ++ (if board_serial then greeting else [])) (see s3)) as [u R3'].
  { destruct board_serial; [by exists true|]. exists false. by rewrite app_nil_r. }
  apply (enable_rule _ _ _ _ _ _ IRQ_IDE (ncpu mp - 1) _ _ ltac:(unfold IRQ_IDE; lia) R3'). intros s4 R4.
  apply (runs_mono _ _ (λ _ s', ready b f lines_on lines_to u (false, b_uart b ++ (if board_serial then greeting else [])) (see s') ∧
                                 (ismp mp = false → b_pit (look (i_dev s')) = mkPit 52 None 1193)));
    [|intros [] s5 [R5 Hp]; by apply (ready_done b f u _ s5)].
  unfold lines_on. destruct (ismp mp); cbn [negb]; [by apply runs_ret|].
  apply (timerinit_rule _ _ _ _ _ _ _ _ R4). intros s5 R5 Hp. by split.
Qed.

(** [lapicstartap] resets the processor and starts it twice at [addr], and the warm reset
    vector points there as well. *)
Theorem lapicstartap_correct apicid addr s :
  lapic mp ≠ 0 → 0 ≤ apicid < 256 → 0 ≤ addr < 1048576 → addr mod 4096 = 0 →
  runs (lapicstartap mp apicid addr) s (λ _ s',
    let hi := apicid * 16777216 in
    b_sent (look (i_dev s')) =
      b_sent (look (i_dev s)) ++ [(hi, 50432); (hi, 34048); (hi, Z.lor STARTUP (addr / 4096)); (hi, Z.lor STARTUP (addr / 4096))] ∧
    load16 (i_mem s') wrv = 0 ∧ 16 * load16 (i_mem s') (wrv + 2) = addr).
Proof.
  intros Hl Hi Ha Hm. unfold lapicstartap.
  rewrite Z.shiftl_mul_pow2, (Z.shiftr_div_pow2 addr 12) by lia. change (2 ^ 24) with 16777216. change (2 ^ 12) with 4096.
  apply runs_bind, (does_rule _ _ _ _ (does_out _ _)); intros _ t0 E0.
  apply runs_bind, (does_rule _ _ _ _ (does_out _ _)); intros _ t1 E1. apply runs_bind, runs_mod.
  set (l := b_sent (look (i_dev s))). set (m := store16 _ _ _).
  assert (S1 : b_sent (a_board (see t1)) = l) by (by rewrite E1, E0). clearbody l. clear E0 E1.
  assert (Ehi : u32 (apicid * 16777216) = apicid * 16777216) by (apply u32_small; lia).
  assert (Elo : u32 (Z.lor STARTUP (addr / 4096)) = Z.lor STARTUP (addr / 4096))
    by (apply u32_small, lor_small; unfold STARTUP; zmod_lia).
  apply runs_bind. eapply runs_mono; [by apply (send_hi l m)|]. rewrite Ehi. intros [] t2 S2.
  apply runs_bind. eapply runs_mono; [apply (send_lo _ _ _ _ _ Hl S2)|]. intros [] t3 S3.
  apply runs_bind. eapply runs_mono; [apply (send_lo _ _ _ _ _ Hl S3)|]. intros [] t4 S4.
  apply runs_bind. eapply runs_mono; [apply (send_hi _ _ _ _ Hl (proj1 S4) (proj1 (proj2 S4)))|]. rewrite Ehi. intros [] t5 S5.
  apply runs_bind. eapply runs_mono; [apply (send_lo _ _ _ _ _ Hl S5)|]. intros [] t6 S6.
  apply runs_bind. eapply runs_mono; [apply (send_hi _ _ _ _ Hl (proj1 S6) (proj1 (proj2 S6)))|]. rewrite Ehi. intros [] t7 S7.
  eapply runs_mono; [apply (send_lo _ _ _ _ _ Hl S7)|]. intros [] s' (E' & M' & _). rewrite Elo in E'. cbn zeta.
  split; [by rewrite E', <- !app_assoc|]. rewrite M'. unfold m.
  rewrite load16_store16_ne, !load16_store16 by lia. split; [done|].
  rewrite Z.shiftr_div_pow2 by lia. change (2 ^ 4) with 16. rewrite u16_small by zmod_lia. zmod_lia.
Qed.
End Rules.

(** ** Witnesses *)

(** Devices that are their registers, with a serial line that is always ready. *)
Definition demo_apic : Z := 4276092928.

#[export] Instance simple_ops : BusOps board := {
  in8 p b := (if p =? COM1 + 5 then 96 else 0, b);
  out8 := board_out;
  ld32 a b := (if a =? IOAPIC + 16 then b_io b (b_sel b) else 0, b);
  st32 := board_st demo_apic
}.

#[export] Program Instance simple_board : Board board demo_apic := {
  look b := b;
  board_delay := 1;
  board_serial := true
}.
Next Obligation. done. Qed.
Next Obligation. done. Qed.
Next Obligation. done. Qed.
Next Obligation. done. Qed.
Next Obligation. done. Qed.
Next Obligation. intros d. exists 0%nat. split; [lia|done]. Qed.
Next Obligation. done. Qed.

(** An I/O APIC with 24 lines. *)
Definition demo_board : board :=
  mkBoard (mkChip 0 0 0) (mkChip 0 0 0) 0 (λ r, if r =? REG_VER then 23 * 65536 else 0) (λ _, 0) [] (mkPit 0 None 0) false [].
Definition demo_intr : intr board := mkIntr irqmask0 false 0 [] (λ _, 0) demo_board.
Definition demo_smp : mpst := mkMp [0; 1] 0 true 2 0 demo_apic [].

Lemma main_interrupts_correct_witness :
  runs (main_interrupts demo_smp 1) demo_intr (λ _ s',
    redirection (look (i_dev s')) 14 = (46, 16777216) ∧ masked (look (i_dev s')) 3 = true ∧
    masked (look (i_dev s')) 14 = false).
Proof.
  eapply runs_mono;
    [exact (main_interrupts_correct (apic := demo_apic) demo_smp (λ _, eq_refl) (or_intror eq_refl) 1 demo_intr (le_n 1) eq_refl eq_refl)|].
  intros [] s' (_ & _ & H3 & H4 & _). rewrite (H4 eq_refl 14) by (vm_compute; split; discriminate).
  rewrite (H3 3), (H3 14) by lia. split_and!; reflexivity.
Defined.

Lemma lapicstartap_correct_witness :
  runs (lapicstartap demo_smp 1 28672) demo_intr (λ _ s', length (b_sent (look (i_dev s'))) = 4%nat).
Proof.
  assert (Hl : lapic demo_smp ≠ 0) by discriminate.
  eapply runs_mono;
    [refine (lapicstartap_correct (apic := demo_apic) demo_smp (λ _, eq_refl) (or_intror eq_refl) 1 28672 demo_intr Hl _ _ eq_refl); lia|].
  intros [] s' [E _]. by rewrite E.
Defined.
