(* ===== verification/Console.v ===== *)
(** * The console

    Models src/console.c: output to the screen and the serial line, the line discipline of
    the keyboard ([consoleintr]) and the device functions [consoleread] and
    [consolewrite].  The state has the console's lock and flags, the bytes given to the
    serial line, the text screen with its cursor, the input buffer, and the file system
    with its CPU, on which the device functions release and take the inode's lock.  The
    cursor register of the display is [c_pos]; a [wakeup] of the readers is counted.

    [consoleread] sleeps inside its loop; it is modelled by the segments between two
    sleeps, as in [Pipe].  Keys come as the list of the values [getc] returns.  [panic]
    itself is the outcome [Panic]; once [panicked] is set, output never returns. *)

From S2P Require Import Prelude Param KString Digits Spinlock Bio Log Fs.
Local Open Scope Z_scope.

(** ** Definitions *)

Record cons := mkCons {
  c_fs : fsst;
  c_lock : spinlock;
  c_locking : bool;
  c_panicked : bool;
  c_serial : bool;        (* [uart]: is there a serial line? *)
  c_uart : list Z;
  c_crt : Z → Z;
  c_pos : Z;
  in_buf : list Z;
  in_r : Z;
  in_w : Z;
  in_e : Z;
  c_wakeups : nat
}.

Definition set_c_fs (x : fsst) (s : cons) : cons :=
  mkCons x (c_lock s) (c_locking s) (c_panicked s) (c_serial s) (c_uart s) (c_crt s) (c_pos s)
    (in_buf s) (in_r s) (in_w s) (in_e s) (c_wakeups s).
Definition set_c_lock (x : spinlock) (s : cons) : cons :=
  mkCons (c_fs s) x (c_locking s) (c_panicked s) (c_serial s) (c_uart s) (c_crt s) (c_pos s)
    (in_buf s) (in_r s) (in_w s) (in_e s) (c_wakeups s).
Definition set_c_uart (x : list Z) (s : cons) : cons :=
  mkCons (c_fs s) (c_lock s) (c_locking s) (c_panicked s) (c_serial s) x (c_crt s) (c_pos s)
    (in_buf s) (in_r s) (in_w s) (in_e s) (c_wakeups s).
Definition set_c_screen (crt : Z → Z) (pos : Z) (s : cons) : cons :=
  mkCons (c_fs s) (c_lock s) (c_locking s) (c_panicked s) (c_serial s) (c_uart s) crt pos
    (in_buf s) (in_r s) (in_w s) (in_e s) (c_wakeups s).
Definition set_input (buf : list Z) (r w e : Z) (s : cons) : cons :=
  mkCons (c_fs s) (c_lock s) (c_locking s) (c_panicked s) (c_serial s) (c_uart s) (c_crt s) (c_pos s)
    buf r w e (c_wakeups s).
Definition wakeup_input (s : cons) : cons :=
  mkCons (c_fs s) (c_lock s) (c_locking s) (c_panicked s) (c_serial s) (c_uart s) (c_crt s) (c_pos s)
    (in_buf s) (in_r s) (in_w s) (in_e s) (S (c_wakeups s)).

Definition onfile {A : Type} (m : K fsst A) : K cons A := kzoom c_fs set_c_fs m.

Definition acquire_cons : K cons unit := fun s =>
  '(c, lk) ← acquire (fs_cpu (c_fs s)) (c_lock s);
  Ok (tt, set_c_fs (set_fs_cpu c (c_fs s)) (set_c_lock lk s)).
Definition release_cons : K cons unit := fun s =>
  '(c, lk) ← release (fs_cpu (c_fs s)) (c_lock s);
  Ok (tt, set_c_fs (set_fs_cpu c (c_fs s)) (set_c_lock lk s)).

(** *** Output *)

Definition BACKSPACE : Z := 256.

(** The 16-bit cells of the display: storing a cell, moving the rows up by one, and
    clearing the cells from [pos] to the end of row 23. *)
Definition crt_set (crt : Z → Z) (i v : Z) : Z → Z := fun j => if j =? i then v else crt j.
Definition crt_up (crt : Z → Z) : Z → Z :=
  fun j => if (0 <=? j) && (j <? 23 * 80) then crt (j + 80) else crt j.
Definition crt_clear (crt : Z → Z) (pos n : Z) : Z → Z :=
  fun j => if (pos <=? j) && (j <? pos + n) then 0 else crt j.

Definition cgaputc (c : Z) : K cons unit :=
  s ← kget;
  let pos := c_pos s in
  let crt := c_crt s in
  let '(crt, pos) :=
    if c =? 10 then (crt, pos + (80 - Z.rem pos 80))
    else if c =? BACKSPACE then (crt, if pos >? 0 then pos - 1 else pos)
    else (crt_set crt pos (Z.lor (Z.land c 255) 1792), pos + 1) in
  if (pos <? 0) || (pos >? 25 * 80) then kpanic "pos under/overflow"
  else
    let '(crt, pos) :=
      if pos / 80 >=? 24 then
        let crt := crt_up crt in
        let pos := pos - 80 in
        (crt_clear crt pos (24 * 80 - pos), pos)
      else (crt, pos) in
    kmod (set_c_screen (crt_set crt pos (Z.lor 32 1792)) (u16 pos)).

(** The wait for the line to be ready is bounded and has no effect on the byte sent. *)
Definition uartputc (c : Z) : K cons unit :=
  s ← kget;
  if negb (c_serial s) then mret tt
  else kmod (fun s => set_c_uart (c_uart s ++ [u8 c]) s).

Definition consputc (c : Z) : K cons unit :=
  s ← kget;
  if c_panicked s then kout Diverge
  else
    (if c =? BACKSPACE then uartputc 8;; uartputc 32;; uartputc 8 else uartputc c);;
    cgaputc c.

Definition cons_digits : list Z := bytes_of "0123456789abcdef".

(** [printint] of src/console.c. *)
Definition cons_printint (xx base : Z) (sign : bool) : K cons unit :=
  let sign := sign && (xx <? 0) in
  let x := if sign then u32 (- xx) else u32 xx in
  buf ← kout (printint_loop cons_digits 32 base x []);
  buf ← kout (if sign then push buf 45 else Ok buf);
  kiter (reverse buf) consputc.

(** The loop over a string argument. *)
Fixpoint cons_puts (fuel : nat) (s : Z) : K cons unit :=
  match fuel with
  | O => kout Diverge
  | S fuel' =>
      x ← kget;
      let c := fs_mem (c_fs x) s in
      if negb (c =? 0) then consputc c;; cons_puts fuel' (s + 1) else mret tt
  end.

(** One conversion of [cprintf]; the arguments left. *)
Definition cons_conversion (fuel : nat) (c : Z) (argp : list Z) : K cons (list Z) :=
  let arg (f : Z → K cons unit) : K cons (list Z) :=
    match argp with
    | [] => kundef "missing argument"
    | a :: argp' => f a;; mret argp'
    end in
  if c =? 100 then arg (fun a => cons_printint (s32 a) 10 true)
  else if (c =? 120) || (c =? 112) then arg (fun a => cons_printint (s32 a) 16 false)
  else if c =? 115 then
    arg (fun s => if s =? 0 then kiter (bytes_of "(null)") consputc else cons_puts fuel s)
  else if c =? 37 then consputc 37;; mret argp
  else consputc 37;; consputc c;; mret argp.

Fixpoint cprintf_loop (fuel : nat) (fmt : Z) (argp : list Z) : K cons unit :=
  match fuel with
  | O => kout Diverge
  | S fuel' =>
      s ← kget;
      let c := Z.land (fs_mem (c_fs s) fmt) 255 in
      if c =? 0 then mret tt
      else if negb (c =? 37) then consputc c;; cprintf_loop fuel' (fmt + 1) argp
      else
        let fmt := fmt + 1 in
        let c := Z.land (fs_mem (c_fs s) fmt) 255 in
        if c =? 0 then mret tt
        else
          argp ← cons_conversion fuel c argp;
          cprintf_loop fuel' (fmt + 1) argp
  end.

Definition cprintf (fuel : nat) (fmt : Z) (argp : list Z) : K cons unit :=
  s ← kget;
  let locking := c_locking s in
  kwhen locking acquire_cons;;
  if fmt =? 0 then kpanic "null fmt"
  else
    cprintf_loop fuel fmt argp;;
    kwhen locking release_cons.

(** *** Input *)

Definition INPUT_BUF : Z := 128.
Definition ctrl (x : Z) : Z := x - 64.

(** [input.buf[i % INPUT_BUF]]. *)
Definition buf_get_at (i : Z) : K cons Z :=
  s ← kget;
  kout (of_option "input.buf" (in_buf s !! Z.to_nat (i mod INPUT_BUF))).

Definition set_e (e : Z) : K cons unit := kmod (fun s => set_input (in_buf s) (in_r s) (in_w s) e s).

(** The loop of the kill-line key, with [k] the value of [input.e - input.w]. *)
Fixpoint kill_line (k : nat) : K cons unit :=
  match k with
  | O => mret tt
  | S k' =>
      s ← kget;
      if in_e s =? in_w s then mret tt
      else
        b ← buf_get_at (u32 (in_e s - 1));
        if b =? 10 then mret tt
        else
          set_e (u32 (in_e s - 1));;
          consputc BACKSPACE;;
          kill_line k'
  end.

Inductive dump := DProc | DPids | DFree | DSleep | DZombie.

#[export] Instance dump_eq_dec : EqDecision dump.
Proof. solve_decision. Defined.

Section Keys.
Variable p3p4 : bool. (* CS333_P3P4, off in the configuration of the Makefile *)

(** The keys that ask for a listing. *)
Definition dump_key (c : Z) : option dump :=
  if c =? ctrl 80 then Some DProc
  else if negb p3p4 then None
  else if c =? ctrl 82 then Some DPids
  else if c =? ctrl 70 then Some DFree
  else if c =? ctrl 83 then Some DSleep
  else if c =? ctrl 90 then Some DZombie
  else None.

(** One key; the listing it asks for. *)
Definition console_key (c : Z) : K cons (option dump) :=
  match dump_key c with
  | Some d => mret (Some d)
  | None =>
      s ← kget;
      (if c =? ctrl 85 then kill_line (Z.to_nat (u32 (in_e s - in_w s)))
       else if (c =? ctrl 72) || (c =? 127) then
         if negb (in_e s =? in_w s) then
           set_e (u32 (in_e s - 1));;
           consputc BACKSPACE
         else mret tt
       else if negb (c =? 0) && (u32 (in_e s - in_r s) <? INPUT_BUF) then
         let c := if c =? 13 then 10 else c in
         kmod (fun s => set_input (<[Z.to_nat (in_e s mod INPUT_BUF) := u8 c]> (in_buf s))
                          (in_r s) (in_w s) (u32 (in_e s + 1)) s);;
         consputc c;;
         s ← kget;
         if (c =? 10) || (c =? ctrl 68) || (in_e s =? u32 (in_r s + INPUT_BUF)) then
           kmod (fun s => set_input (in_buf s) (in_r s) (in_e s) (in_e s) s);;
           kmod wakeup_input
         else mret tt
       else mret tt);;
      mret None
  end.

(** The loop of [consoleintr] over the keys, up to a negative value of [getc]. *)
Fixpoint console_keys (keys : list Z) (dumps : list dump) : K cons (list dump) :=
  match keys with
  | [] => mret dumps
  | c :: keys' =>
      if c <? 0 then mret dumps
      else
        d ← console_key c;
        console_keys keys' (match d with Some d => d :: dumps | None => dumps end)
  end.

(** The listings to print, in the order of the calls. *)
Definition consoleintr (keys : list Z) : K cons (list dump) :=
  acquire_cons;;
  dumps ← console_keys keys [];
  release_cons;;
  mret (filter (λ d, d ∈ dumps) [DProc; DPids; DFree; DSleep; DZombie]).
End Keys.

(** How a segment of [consoleread] ends: the process sleeps with [n] bytes to go, is found
    killed, or returns; with the bytes stored so far. *)
Inductive cres := CSleep (n : Z) | CKilled | CRet (n : Z).

(** The loop of [consoleread]; [k] bounds the rounds and is at least [n]. *)
Fixpoint consoleread_loop (k : nat) (killed : bool) (target n : Z) : K cons (cres * list Z) :=
  match k with
  | O => mret (CRet n, [])
  | S k' =>
      if n >? 0 then
        s ← kget;
        if in_r s =? in_w s then mret (if killed then CKilled else CSleep n, [])
        else
          c ← buf_get_at (in_r s);
          kmod (fun s => set_input (in_buf s) (u32 (in_r s + 1)) (in_w s) (in_e s) s);;
          if c =? ctrl 68 then
            kwhen (u32 n <? target)
              (kmod (fun s => set_input (in_buf s) (u32 (in_r s - 1)) (in_w s) (in_e s) s));;
            mret (CRet n, [])
          else if c =? 10 then mret (CRet (n - 1), [c])
          else
            '(r, bs) ← consoleread_loop k' killed target (n - 1);
            mret (r, c :: bs)
      else mret (CRet n, [])
  end.

(** A segment of [consoleread(ip, dst, target)] with [n] bytes to go; the first one starts
    by unlocking the inode.  The result is that of the call, or [None] when it sleeps. *)
Definition consoleread (ip : nat) (killed first : bool) (target n : Z) : K cons (option Z * list Z) :=
  kwhen first (onfile (iunlock (Some ip)));;
  acquire_cons;;
  '(r, bs) ← consoleread_loop (Z.to_nat n) killed (u32 target) n;
  release_cons;;
  match r with
  | CSleep _ => mret (None, bs)
  | CKilled => onfile (ilock (Some ip));; mret (Some (-1), bs)
  | CRet n => onfile (ilock (Some ip));; mret (Some (s32 (target - n)), bs)
  end.

Definition consolewrite (ip : nat) (buf n : Z) : K cons Z :=
  onfile (iunlock (Some ip));;
  acquire_cons;;
  kiter (seq 0 (Z.to_nat n)) (fun i =>
    s ← kget;
    consputc (Z.land (fs_mem (c_fs s) (buf + Z.of_nat i)) 255));;
  release_cons;;
  onfile (ilock (Some ip));;
  mret n.

(** *** The line discipline *)

(** The bytes committed for readers and those of the line being edited. *)
Record tty := mkTty { avail : list Z; edit : list Z }.

Definition tty_full (t : tty) : Prop := (length (avail t) + length (edit t) = 128)%nat.

(** A key that is stored. *)
Definition tty_char (c : Z) (t : tty) : tty :=
  if bool_decide (tty_full t) then t
  else
    let line := edit t ++ [c] in
    if (c =? 10) || (c =? 4) || bool_decide (tty_full (mkTty (avail t) line))
    then mkTty (avail t ++ line) []
    else mkTty (avail t) line.

Definition tty_key (p3p4 : bool) (c : Z) (t : tty) : tty :=
  match dump_key p3p4 c with
  | Some _ => t
  | None =>
      if c =? 21 then mkTty (avail t) []
      else if (c =? 8) || (c =? 127) then mkTty (avail t) (removelast (edit t))
      else if c =? 0 then t
      else tty_char (if c =? 13 then 10 else c) t
  end.

(** The keys up to a negative value. *)
Fixpoint typed (keys : list Z) : list Z :=
  match keys with
  | [] => []
  | c :: keys' => if c <? 0 then [] else c :: typed keys'
  end.

(** A reader that asks for [n] bytes: the bytes it is given of the committed ones, whether
    the call returns with them, and the bytes left.  It stops after a newline, at a
    control-D and after [n] bytes; a control-D is left for the next call unless no byte
    came before it ([fresh]). *)
Fixpoint tty_read (fresh : bool) (n : nat) (l : list Z) : list Z * bool * list Z :=
  match n, l with
  | O, _ => ([], true, l)
  | S _, [] => ([], false, [])
  | S n', c :: l' =>
      if c =? 4 then ([], true, if fresh then l' else l)
      else if c =? 10 then ([c], true, l')
      else let '(bs, b, r) := tty_read false n' l' in (c :: bs, b, r)
  end.

(** The screen's cursor is on the screen and the console has not panicked. *)
Definition screen_ok (s : cons) : Prop := c_panicked s = false ∧ 0 ≤ c_pos s < 1920.

(** The input buffer holds the bytes of [t]. *)
Record ring (s : cons) (t : tty) : Prop := {
  ho_len : length (in_buf s) = 128%nat;
  ho_r : 0 ≤ in_r s < 4294967296;
  ho_w : in_w s = u32 (in_r s + Z.of_nat (length (avail t)));
  ho_e : in_e s = u32 (in_r s + Z.of_nat (length (avail t) + length (edit t)));
  ho_room : (length (avail t) + length (edit t) ≤ 128)%nat;
  ho_bytes : ∀ i c, (avail t ++ edit t) !! i = Some c →
    in_buf s !! Z.to_nat ((in_r s + Z.of_nat i) mod 128) = Some c
}.
Definition holds (s : cons) (t : tty) : Prop := ring s t ∧ 10 ∉ edit t.

(** ** Lemmas *)

(** *** The screen *)

Lemma cgaputc_rule c s (Q : unit → cons → Prop) :
  0 ≤ c_pos s < 1920 →
  (∀ crt pos, 0 ≤ pos < 1920 → Q tt (set_c_screen crt pos s)) → runs (cgaputc c) s Q.
Proof.
  intros Hpos HQ. unfold cgaputc. apply runs_bind, runs_get. cbv zeta.
  set (cp := if c =? 10 then _ else _).
  assert (Hcp : 0 ≤ cp.2 ≤ 1920).
  { unfold cp. destruct (c =? 10); [cbn; rewrite Z.rem_mod_nonneg by lia; zmod_lia|].
    destruct (c =? BACKSPACE); cbn; [|lia]. rewrite Z.gtb_ltb. destruct (Z.ltb_spec 0 (c_pos s)); lia. }
  destruct cp as [crt pos]. cbn [snd] in Hcp.
  destruct (Z.ltb_spec pos 0); [lia|]. rewrite Z.gtb_ltb. destruct (Z.ltb_spec (25 * 80) pos); [lia|].
  cbn [orb]. rewrite Z.geb_leb. destruct (Z.leb_spec 24 (pos / 80)); apply runs_mod, HQ;
    unfold u16; rewrite Z.mod_small; zmod_lia.
Qed.

Lemma uartputc_rule c s (Q : unit → cons → Prop) :
  (∀ u, Q tt (set_c_uart u s)) → runs (uartputc c) s Q.
Proof.
  intros HQ. unfold uartputc. apply runs_bind, runs_get. destruct (c_serial s); [by apply runs_mod|].
  apply runs_ret. specialize (HQ (c_uart s)). by destruct s.
Qed.

Lemma consputc_rule c s (Q : unit → cons → Prop) :
  screen_ok s →
  (∀ u crt pos, 0 ≤ pos < 1920 → Q tt (set_c_screen crt pos (set_c_uart u s))) → runs (consputc c) s Q.
Proof.
  intros [Hp Hpos] HQ. unfold consputc. apply runs_bind, runs_get. rewrite Hp. apply runs_bind.
  destruct (c =? BACKSPACE).
  - apply runs_bind, uartputc_rule; intros u1. apply runs_bind, uartputc_rule; intros u2.
    apply uartputc_rule; intros u3. apply cgaputc_rule; [done|]. intros. by apply HQ.
  - apply uartputc_rule; intros u. apply cgaputc_rule; [done|]. intros. by apply HQ.
Qed.

(** *** The input buffer *)

(** Counters that wrap around, as positions in the buffer. *)
Lemma slot_u32 x : u32 x mod 128 = x mod 128.
Proof. unfold u32. zmod_lia. Qed.

Lemma holds_same s s' t :
  holds s t → in_buf s' = in_buf s → in_r s' = in_r s → in_w s' = in_w s → in_e s' = in_e s → holds s' t.
Proof. intros [[? ? ? ? ? ?] ?] E1 E2 E3 E4. split; [split; rewrite ?E1, ?E2, ?E3, ?E4; done | done]. Qed.

Lemma ring_empty s t : ring s t → (in_e s =? in_w s) = bool_decide (edit t = []).
Proof.
  intros [_ Hr -> -> Hroom _]. case_bool_decide as E.
  - rewrite E. apply Z.eqb_eq. do 2 f_equal. simpl. lia.
  - apply Z.eqb_neq. intros H. destruct (edit t) as [|x l]; [done|]. simpl in *. unfold u32 in H. zmod_lia.
Qed.

Lemma ring_count s t : ring s t →
  u32 (in_e s - in_r s) = Z.of_nat (length (avail t) + length (edit t)) ∧
  u32 (in_e s - in_w s) = Z.of_nat (length (edit t)).
Proof.
  intros [_ Hr -> -> Hroom _]. rewrite u32_sub_l. rewrite u32_sub_l, u32_sub_r.
  split; (rewrite u32_small; lia).
Qed.

Lemma ring_full s t : ring s t → (in_e s =? u32 (in_r s + INPUT_BUF)) = bool_decide (tty_full t).
Proof.
  intros [_ Hr _ -> Hroom _]. unfold INPUT_BUF. destruct (decide (tty_full t)) as [E|E].
  - rewrite bool_decide_eq_true_2 by done. unfold tty_full in E. rewrite E. apply Z.eqb_refl.
  - rewrite bool_decide_eq_false_2 by done. unfold tty_full in E. apply Z.eqb_neq. unfold u32. zmod_lia.
Qed.

(** Taking back the last byte of the line. *)
Lemma holds_back s a l x :
  holds s (mkTty a (l ++ [x])) →
  in_buf s !! Z.to_nat (u32 (in_e s - 1) mod INPUT_BUF) = Some x ∧
  holds (set_input (in_buf s) (in_r s) (in_w s) (u32 (in_e s - 1)) s) (mkTty a l).
Proof.
  intros [[Hlen Hr Hw He Hroom Hb] Hed]. cbn [avail edit] in *. rewrite length_app in *. simpl in He, Hroom.
  assert (Ee : u32 (in_e s - 1) = u32 (in_r s + Z.of_nat (length a + length l))).
  { rewrite He, u32_sub_l. f_equal. lia. }
  split.
  - rewrite Ee. unfold INPUT_BUF. rewrite slot_u32. rewrite <- length_app. apply Hb.
    rewrite app_assoc. by rewrite lookup_app_r, Nat.sub_diag.
  - split; [split; cbn; [done..| lia |]|].
    + intros i c Hi. apply Hb. rewrite app_assoc. by apply lookup_app_l_Some.
    + cbn. intros Hin. apply Hed. apply elem_of_app. by left.
Qed.

Lemma kill_line_rule a l s (Q : unit → cons → Prop) :
  holds s (mkTty a l) → screen_ok s →
  (∀ s', holds s' (mkTty a []) → screen_ok s' → c_lock s' = c_lock s → c_fs s' = c_fs s → Q tt s') →
  runs (kill_line (length l)) s Q.
Proof.
  revert s; induction l as [|x l IH] using rev_ind; intros s H Hs HQ; [apply runs_ret; by apply HQ|].
  rewrite length_app, Nat.add_comm. cbn [length Nat.add kill_line].
  apply runs_bind, runs_get. rewrite (ring_empty s (mkTty a (l ++ [x]))) by apply H. cbn [edit].
  rewrite bool_decide_eq_false_2 by (by destruct l).
  destruct (holds_back _ _ _ _ H) as [Hx H']. apply runs_bind. unfold buf_get_at.
  apply runs_bind, runs_get. rewrite Hx. apply runs_out.
  destruct (Z.eqb_spec x 10) as [->|_].
  { destruct H as [_ []]. cbn. apply elem_of_app. right. left. }
  apply runs_bind, runs_mod, runs_bind, consputc_rule; [done|]. intros u crt pos Hpos.
  apply IH; [by eapply holds_same | by destruct Hs | done].
Qed.

(** Storing a byte at the end of the line, and committing the line. *)
Lemma ring_put s t c :
  ring s t → ¬ tty_full t →
  ring (set_input (<[Z.to_nat (in_e s mod INPUT_BUF) := c]> (in_buf s)) (in_r s) (in_w s)
           (u32 (in_e s + 1)) s) (mkTty (avail t) (edit t ++ [c])).
Proof.
  intros [Hlen Hr Hw He Hroom Hb] Hfull. unfold tty_full in Hfull.
  assert (Hslot : in_e s mod INPUT_BUF = (in_r s + Z.of_nat (length (avail t) + length (edit t))) mod 128)
    by (rewrite He; unfold INPUT_BUF; apply slot_u32).
  split; cbn; rewrite ?length_app; simpl.
  - by rewrite length_insert.
  - done.
  - done.
  - rewrite He, u32_add_l. f_equal. lia.
  - lia.
  - rewrite Hslot, app_assoc. intros i x Hi.
    destruct (decide (i = length (avail t ++ edit t))) as [->|Hne].
    + rewrite lookup_app_r, Nat.sub_diag in Hi by done. injection Hi as ->. rewrite length_app.
      apply list_lookup_insert_eq. rewrite Hlen.
      pose proof (Z.mod_pos_bound (in_r s + Z.of_nat (length (avail t) + length (edit t))) 128 ltac:(lia)). lia.
    + pose proof (lookup_lt_Some _ _ _ Hi) as Hlt. rewrite !length_app in Hlt. simpl in Hlt.
      rewrite length_app in Hne. rewrite lookup_app_l in Hi by (rewrite length_app; lia).
      rewrite list_lookup_insert_ne; [by apply Hb|]. zmod_lia.
Qed.

Lemma ring_commit s a l :
  ring s (mkTty a l) →
  holds (set_input (in_buf s) (in_r s) (in_e s) (in_e s) s) (mkTty (a ++ l) []).
Proof.
  intros [Hlen Hr Hw He Hroom Hb]. split; [|apply not_elem_of_nil]. cbn in *.
  split; cbn; rewrite ?length_app, ?app_nil_r; try done; simpl; rewrite ?Nat.add_0_r; try done; lia.
Qed.

(** A key that is stored. *)
Lemma console_char_rule c s t (Q : unit → cons → Prop) :
  holds s t → screen_ok s → 0 ≤ c < 256 →
  (∀ s', holds s' (tty_char c t) → screen_ok s' → c_lock s' = c_lock s → c_fs s' = c_fs s → Q tt s') →
  runs (if u32 (in_e s - in_r s) <? INPUT_BUF then
          kmod (fun s => set_input (<[Z.to_nat (in_e s mod INPUT_BUF) := u8 c]> (in_buf s))
                          (in_r s) (in_w s) (u32 (in_e s + 1)) s);;
          consputc c;;
          s ← kget;
          if (c =? 10) || (c =? ctrl 68) || (in_e s =? u32 (in_r s + INPUT_BUF)) then
            kmod (fun s => set_input (in_buf s) (in_r s) (in_e s) (in_e s) s);;
            kmod wakeup_input
          else mret tt
        else mret tt) s Q.
Proof.
  intros [H Hed] Hs Hc HQ. destruct (ring_count _ _ H) as [-> _]. unfold tty_char in HQ.
  pose proof (ho_room _ _ H) as Hroom.
  case_bool_decide as Hfull.
  { unfold tty_full in Hfull. rewrite Hfull. apply runs_ret. by apply HQ. }
  destruct (Z.ltb_spec (Z.of_nat (length (avail t) + length (edit t))) INPUT_BUF) as [_|Hn];
    [|unfold tty_full, INPUT_BUF in *; lia].
  apply runs_bind, runs_mod, runs_bind, consputc_rule; [done|]. intros u crt pos Hpos.
  apply runs_bind, runs_get. rewrite u8_small by done. set (s1 := set_c_screen crt pos _).
  assert (H1 : ring s1 (mkTty (avail t) (edit t ++ [c]))).
  { destruct (ring_put s t c H Hfull) as [? ? ? ? ? ?]. by split. }
  assert (Hs1 : screen_ok s1) by (by destruct Hs).
  replace (in_e s1 =? u32 (in_r s1 + INPUT_BUF)) with (bool_decide (tty_full (mkTty (avail t) (edit t ++ [c])))).
  2:{ symmetry. by apply ring_full. }
  change (ctrl 68) with 4. destruct ((c =? 10) || (c =? 4) || _) eqn:E.
  - apply runs_bind, runs_mod, runs_mod, HQ; [|by destruct Hs1|done..].
    eapply holds_same; [by apply ring_commit | done..].
  - apply runs_ret, HQ; [|done..]. split; [done|]. cbn. rewrite !orb_false_iff, Z.eqb_neq in E.
    intros [Hin|Hin]%elem_of_app; [done|]. apply list_elem_of_singleton in Hin. lia.
Qed.

Lemma console_key_rule p3p4 c s t (Q : option dump → cons → Prop) :
  holds s t → screen_ok s → 0 ≤ c < 256 →
  (∀ s', holds s' (tty_key p3p4 c t) → screen_ok s' → c_lock s' = c_lock s → c_fs s' = c_fs s →
     Q (dump_key p3p4 c) s') →
  runs (console_key p3p4 c) s Q.
Proof.
  intros H Hs Hc HQ. unfold console_key, tty_key in *. destruct (dump_key p3p4 c); [by apply runs_ret, HQ|].
  apply runs_bind, runs_get, runs_bind. change (ctrl 85) with 21. change (ctrl 72) with 8.
  destruct (ring_count s t) as [_ Hew]; [apply H|].
  destruct (Z.eqb_spec c 21).
  { rewrite Hew, Nat2Z.id. destruct t as [a l].
    apply (kill_line_rule a l); [done..|]. intros. by apply runs_ret, HQ. }
  destruct ((c =? 8) || (c =? 127)) eqn:Eb.
  { rewrite (ring_empty s t) by apply H. destruct t as [a l]. cbn [edit avail] in *.
    destruct l as [|x l _] using rev_ind.
    - apply runs_ret, runs_ret. by apply HQ.
    - rewrite bool_decide_eq_false_2 by (by destruct l). cbn [negb].
      destruct (holds_back _ _ _ _ H) as [_ H']. rewrite removelast_last in HQ.
      apply runs_bind, runs_mod, consputc_rule; [done|]. intros u crt pos Hpos.
      apply runs_ret, HQ; [by eapply holds_same | by destruct Hs | done..]. }
  destruct (Z.eqb_spec c 0); [by apply runs_ret, runs_ret, HQ|]. cbn [negb andb].
  apply (console_char_rule (if c =? 13 then 10 else c) s t); [done | done | by destruct (c =? 13) | ].
  intros s' H' Hs' Hl Hf. by apply runs_ret, HQ.
Qed.

(** The listings that keys ask for. *)
Definition dumps_of (p3p4 : bool) (keys : list Z) : list dump := omap (dump_key p3p4) (typed keys).

Lemma console_keys_rule p3p4 keys ds s t (Q : list dump → cons → Prop) :
  holds s t → screen_ok s → Forall (λ c, c < 256) keys →
  (∀ ds' s', holds s' (foldl (λ t c, tty_key p3p4 c t) t (typed keys)) → screen_ok s' →
     c_lock s' = c_lock s → c_fs s' = c_fs s →
     (∀ d, d ∈ ds' ↔ d ∈ ds ∨ d ∈ dumps_of p3p4 keys) → Q ds' s') →
  runs (console_keys p3p4 keys ds) s Q.
Proof.
  revert s t ds; induction keys as [|c keys IH]; intros s t ds H Hs Hk HQ; cbn [console_keys].
  { apply runs_ret, HQ; [done..|]. intros d. unfold dumps_of. cbn. rewrite elem_of_nil. tauto. }
  inversion_clear Hk as [|? ? Hc Hk']. unfold dumps_of in HQ. cbn [typed] in HQ.
  destruct (Z.ltb_spec c 0).
  { apply runs_ret, HQ; [done..|]. intros d. cbn. rewrite elem_of_nil. tauto. }
  apply runs_bind, (console_key_rule _ _ _ t); [done | done | lia|]. intros s1 H1 Hs1 Hl1 Hf1.
  eapply IH; [done..|]. intros ds' s2 H2 Hs2 Hl2 Hf2 Hd. apply HQ; [done | done | congruence.. |].
  intros d. rewrite Hd. cbn. unfold dumps_of.
  destruct (dump_key p3p4 c); rewrite ?elem_of_cons; tauto.
Qed.

(** *** Reading *)

Lemma ring_nothing s t : ring s t → (in_r s =? in_w s) = bool_decide (avail t = []).
Proof.
  intros [_ Hr -> _ Hroom _]. case_bool_decide as E.
  - rewrite E. simpl. rewrite Z.add_0_r, u32_small by done. apply Z.eqb_refl.
  - apply Z.eqb_neq. intros H. destruct (avail t) as [|x l]; [done|]. simpl in *. unfold u32 in H. zmod_lia.
Qed.

(** Taking the first committed byte. *)
Lemma ring_pop s c a l :
  ring s (mkTty (c :: a) l) →
  in_buf s !! Z.to_nat (in_r s mod INPUT_BUF) = Some c ∧
  ring (set_input (in_buf s) (u32 (in_r s + 1)) (in_w s) (in_e s) s) (mkTty a l).
Proof.
  intros [Hlen Hr Hw He Hroom Hb]. cbn in *. split.
  - specialize (Hb 0%nat c eq_refl). by rewrite Z.add_0_r in Hb.
  - split; cbn; [done | apply u32_range | | | lia |].
    + rewrite Hw, u32_add_l. f_equal. lia.
    + rewrite He, u32_add_l. f_equal. lia.
    + intros i x Hi. specialize (Hb (S i) x Hi).
      replace ((u32 (in_r s + 1) + Z.of_nat i) mod 128) with ((in_r s + Z.of_nat (S i)) mod 128); [done|].
      unfold u32. zmod_lia.
Qed.

Definition read_end (killed fin : bool) (n : Z) : cres :=
  if fin then CRet n else if killed then CKilled else CSleep n.

Lemma consoleread_loop_rule k : ∀ killed target n av ed s bs fin rest (Q : cres * list Z → cons → Prop),
  holds s (mkTty av ed) → n = Z.of_nat k → n ≤ target < 2147483648 →
  tty_read (n =? target) k av = (bs, fin, rest) →
  (∀ s', holds s' (mkTty rest ed) → c_lock s' = c_lock s → c_fs s' = c_fs s →
     (screen_ok s → screen_ok s') → Q (read_end killed fin (n - Z.of_nat (length bs)), bs) s') →
  runs (consoleread_loop k killed target n) s Q.
Proof.
  induction k as [|k IH]; intros killed target n av ed s bs fin rest Q H En Ht E HQ; cbn [consoleread_loop].
  { injection E as <- <- <-. cbn [length] in HQ. rewrite Z.sub_0_r in HQ. by apply runs_ret, HQ. }
  rewrite Z.gtb_ltb. destruct (Z.ltb_spec 0 n); [|lia]. apply runs_bind, runs_get.
  rewrite (ring_nothing s (mkTty av ed)) by apply H. cbn [avail].
  destruct av as [|c av].
  { injection E as <- <- <-. cbn [length] in HQ. rewrite Z.sub_0_r in HQ. by apply runs_ret, HQ. }
  rewrite bool_decide_eq_false_2 by done. destruct (ring_pop s c av ed) as [Hc H1]; [apply H|].
  apply runs_bind. unfold buf_get_at. apply runs_bind, runs_get. rewrite Hc. apply runs_out.
  apply runs_bind, runs_mod. cbn [tty_read] in E. change (ctrl 68) with 4.
  destruct (Z.eqb_spec c 4) as [->|H4].
  - injection E as <- <- <-. cbn [length] in HQ. rewrite Z.sub_0_r in HQ. rewrite u32_small by lia.
    apply runs_bind. destruct (Z.ltb_spec n target), (Z.eqb_spec n target); try lia.
    + apply runs_mod, runs_ret, HQ; [|done..].
      eapply holds_same; [exact H | done | | done | done]. cbn. rewrite u32_sub_l.
      rewrite Z.add_simpl_r. apply u32_small. by destruct H as [[]].
    + apply runs_ret, runs_ret, HQ; [|done..]. split; [done | apply H].
  - destruct (Z.eqb_spec c 10) as [->|H10].
    + injection E as <- <- <-. apply runs_ret, HQ; [|done..]. split; [done | apply H].
    + destruct (tty_read false k av) as [[bs' fin'] rest'] eqn:E'. injection E as <- <- <-.
      apply runs_bind. eapply (IH killed target (n - 1) av ed); [split; [exact H1 | apply H] | lia | lia | |].
      * destruct (Z.eqb_spec (n - 1) target); [lia|]. exact E'.
      * intros s' H' Hl Hf Hs. apply runs_ret. cbn [length] in HQ.
        replace (n - Z.of_nat (S (length bs'))) with (n - 1 - Z.of_nat (length bs')) in HQ by lia. by apply HQ.
Qed.

Lemma runs_acquire_cons s (Q : unit → cons → Prop) :
  cpu_ok (fs_cpu (c_fs s)) → locked (c_lock s) = 0 →
  (∀ c lk, taken c lk → Q tt (set_c_fs (set_fs_cpu c (c_fs s)) (set_c_lock lk s))) → runs acquire_cons s Q.
Proof.
  intros Hc Hl HQ. destruct (acquire_taken _ _ Hc Hl) as (c' & lk' & E & Ht).
  eapply runs_ok; [unfold acquire_cons; rewrite E; reflexivity | auto].
Qed.

Lemma runs_release_cons s (Q : unit → cons → Prop) :
  taken (fs_cpu (c_fs s)) (c_lock s) →
  (∀ c lk, cpu_ok c → locked lk = 0 → Q tt (set_c_fs (set_fs_cpu c (c_fs s)) (set_c_lock lk s))) →
  runs release_cons s Q.
Proof.
  intros Ht HQ. destruct (release_taken _ _ Ht) as (c' & lk' & E & Hc & Hl).
  eapply runs_ok; [unfold release_cons; rewrite E; reflexivity | auto].
Qed.

(** ** Theorems *)

(** C14: The line discipline: a keyboard interrupt that delivers any number of keys leaves in
    the circular buffer what an editor of one line would have made of them ([tty_key]:
    backspace takes back a byte of the current line but never of a finished one, the kill
    key drops the line, a newline, a control-D or a full buffer commit it, keys are dropped
    when the buffer is full), with the 32-bit counters wrapping around; the screen's cursor
    stays on the screen, the lock is given back, and the listings asked for are printed. *)
Theorem consoleintr_refines p3p4 keys s t :
  holds s t → screen_ok s → cpu_ok (fs_cpu (c_fs s)) → locked (c_lock s) = 0 →
  Forall (λ c, c < 256) keys →
  ∃ ds s', consoleintr p3p4 keys s = Ok (ds, s') ∧
    holds s' (foldl (λ t c, tty_key p3p4 c t) t (typed keys)) ∧ screen_ok s' ∧
    cpu_ok (fs_cpu (c_fs s')) ∧ locked (c_lock s') = 0 ∧ ∀ d, d ∈ ds ↔ d ∈ dumps_of p3p4 keys.
Proof.
  intros H Hs Hc Hl Hk. set (P := λ (ds : list dump) s', holds s' (foldl (λ t c, tty_key p3p4 c t) t (typed keys)) ∧
    screen_ok s' ∧ cpu_ok (fs_cpu (c_fs s')) ∧ locked (c_lock s') = 0 ∧ ∀ d, d ∈ ds ↔ d ∈ dumps_of p3p4 keys).
  assert (R : runs (consoleintr p3p4 keys) s P).
  2:{ destruct R as (ds & s' & E & HP). exists ds, s'. split; [exact E | exact HP]. }
  unfold consoleintr. apply runs_bind, runs_acquire_cons; [done..|]. intros c lk Ht.
  apply runs_bind, (console_keys_rule p3p4 keys [] _ t); [by eapply holds_same | done | done|].
  intros ds s1 H1 Hs1 Hl1 Hf1 Hd. apply runs_bind, runs_release_cons.
  { rewrite Hl1, Hf1. exact Ht. }
  intros c2 lk2 Hc2 Hl2. apply runs_ret. split_and!; [by eapply holds_same | done..|].
  intros d. rewrite list_elem_of_filter, Hd. destruct d; set_solver.
Qed.
