(* ===== verification/ConsoleDev.v ===== *)
(** * The console as a device

    [consoleread] of src/console.c on the console and the file system together: it gives up
    the lock of the device's inode while it waits for input, and what it returns is what the
    line discipline has committed.  The file also applies the theorems on the console to a
    concrete state. *)

From S2P Require Import Prelude Param KString Spinlock Bio Log LogCrash LogOps Fs FsView FsFile FsInode FsWitness Console.
Local Open Scope Z_scope.

(** ** Definitions *)

(** The inode of the device is locked by this process (or not). *)
Definition dev_inode (b : bool) (ip : nat) (s : fsst) : Prop :=
  ∃ x, ic_inode s !! ip = Some x ∧ 1 ≤ i_ref x ∧ iflag x I_BUSY = b ∧ iflag x I_VALID = true.

(** The console of a machine that has just come up. *)
Definition demo_cons (l : logst) : cons :=
  mkCons (demo_fsst l) (initlock "console") true false true [] (λ _, 0) 1900 (replicate 128 0) 4294967290
    4294967290 4294967290 0.

(** ** Lemmas *)

Lemma iflag_clear x :
  iflag (set_i_flags (Z.land (i_flags x) (Z.lnot I_BUSY)) x) I_BUSY = false ∧
  iflag (set_i_flags (Z.land (i_flags x) (Z.lnot I_BUSY)) x) I_VALID = iflag x I_VALID.
Proof.
  unfold iflag. cbn [i_flags set_i_flags]. rewrite <- !Z.land_assoc.
  change (Z.land (Z.lnot I_BUSY) I_BUSY) with 0. change (Z.land (Z.lnot I_BUSY) I_VALID) with I_VALID.
  by rewrite Z.land_0_r.
Qed.

Lemma iflag_set x : iflag (set_i_flags (Z.lor (i_flags x) I_BUSY) x) I_BUSY = true.
Proof.
  unfold iflag. cbn [i_flags set_i_flags]. rewrite Z.land_lor_distr_l.
  apply negb_true_iff, Z.eqb_neq. change (Z.land I_BUSY I_BUSY) with 1. intros E.
  apply Z.lor_eq_0_iff in E. lia.
Qed.

Lemma dev_unlock sb vw dk wr bl o s ip (Q : unit → fsst → Prop) :
  fs_ok sb vw dk wr ∅ bl o s → dev_inode true ip s →
  (∀ s', fs_ok sb vw dk wr ∅ bl o s' → dev_inode false ip s' → Q tt s') → runs (iunlock (Some ip)) s Q.
Proof.
  intros H (x & Hx & Hr & Hb & Hv) HQ. eapply iunlock_rule; [done..|]. intros s' H' Ei _.
  apply HQ; [done|]. destruct (iflag_clear x) as [E1 E2].
  exists (set_i_flags (Z.land (i_flags x) (Z.lnot I_BUSY)) x).
  rewrite Ei, list_lookup_insert_eq by (by eapply lookup_lt_Some). by rewrite E1, E2.
Qed.

Lemma dev_lock sb vw dk wr bl o s ip (Q : unit → fsst → Prop) :
  fs_ok sb vw dk wr ∅ bl o s → dev_inode false ip s →
  (∀ s', fs_ok sb vw dk wr ∅ bl o s' → dev_inode true ip s' → Q tt s') → runs (ilock (Some ip)) s Q.
Proof.
  intros H (x & Hx & Hr & Hb & Hv) HQ. eapply ilock_valid_rule; [done..|]. intros l lk x1 H'.
  apply HQ; [done|]. exists x1. unfold ist. cbn [ic_inode set_fs_log set_ic_inode set_ic_lock].
  rewrite list_lookup_insert_eq by (by eapply lookup_lt_Some).
  split_and!; [done | done | apply iflag_set | unfold x1; by rewrite iflag_valid_busy].
Qed.

Lemma dev_cpu sb vw dk wr bl o s ip b c :
  fs_ok sb vw dk wr ∅ bl o s → dev_inode b ip s → cpu_ok c →
  fs_ok sb vw dk wr ∅ bl o (set_fs_cpu c s) ∧ dev_inode b ip (set_fs_cpu c s).
Proof.
  intros H Hd Hc. split; [|done].
  pose proof (fs_ok_icache _ _ _ _ _ _ _ s c (ic_lock s) (ic_inode s) (fs_wakeups s) H Hc (fo_lock H)) as H'.
  exact H'.
Qed.

Lemma tty_read_length f k l bs fin rest : tty_read f k l = (bs, fin, rest) → (length bs ≤ k)%nat.
Proof.
  revert f l bs fin rest; induction k as [|k IH]; intros f [|c l] bs fin rest; cbn [tty_read];
    [intros [= <- _ _]; simpl; lia..|].
  destruct (c =? 4); [intros [= <- _ _]; simpl; lia|]. destruct (c =? 10); [intros [= <- _ _]; simpl; lia|].
  destruct (tty_read false k l) as [[bs' fin'] rest'] eqn:E. apply IH in E. intros [= <- _ _]. simpl. lia.
Qed.

(** ** Theorems *)

(** Reading the console: the first segment of [consoleread] delivers the committed bytes
    up to a newline, a control-D or the [n] bytes asked for ([tty_read]), and leaves the rest
    and the line being edited in the buffer; it returns the number of bytes, or -1 if the
    process was killed while there was nothing to read, with the inode locked again, and
    otherwise sleeps with the inode unlocked.  The console's lock is given back. *)
Theorem consoleread_correct sb vw dk wr bl o s ip killed n av ed bs fin rest :
  fs_ok sb vw dk wr ∅ bl o (c_fs s) → dev_inode true ip (c_fs s) → locked (c_lock s) = 0 →
  holds s (mkTty av ed) → 0 ≤ n < 2147483648 → tty_read true (Z.to_nat n) av = (bs, fin, rest) →
  ∃ res s', consoleread ip killed true n n s = Ok ((res, bs), s') ∧
    res = (if fin then Some (Z.of_nat (length bs)) else if killed then Some (-1) else None) ∧
    holds s' (mkTty rest ed) ∧ locked (c_lock s') = 0 ∧
    fs_ok sb vw dk wr ∅ bl o (c_fs s') ∧ dev_inode (fin || killed) ip (c_fs s').
Proof.
  intros H Hd Hl Ht Hn E. set (res := if fin then _ else _).
  apply tty_read_length in E as Hbs.
  assert (R : runs (consoleread ip killed true n n) s (λ r s', r = (res, bs) ∧
    holds s' (mkTty rest ed) ∧ locked (c_lock s') = 0 ∧
    fs_ok sb vw dk wr ∅ bl o (c_fs s') ∧ dev_inode (fin || killed) ip (c_fs s'))).
  2:{ destruct R as ([r bs'] & s' & ER & [= -> ->] & HR). by exists res, s'. }
  unfold consoleread. apply runs_bind, runs_zoom, (dev_unlock _ _ _ _ _ _ _ _ _ H Hd). intros f1 H1 Hd1.
  apply runs_bind, runs_acquire_cons; [by eapply fs_ok_cpu | done|]. intros c lk Htk.
  apply runs_bind, (consoleread_loop_rule _ _ _ _ av ed _ bs fin rest);
    [by eapply holds_same | lia | rewrite u32_small by lia; lia | by rewrite u32_small, Z.eqb_refl by lia |].
  intros s2 H2 El2 Ef2 _. apply runs_bind, runs_release_cons; [rewrite El2, Ef2; exact Htk|].
  intros c3 lk3 Hc3 Hlk3. rewrite Ef2. set (s3 := set_c_fs _ _).
  destruct (dev_cpu _ _ _ _ _ _ _ _ _ c3 H1 Hd1 Hc3) as [H3 Hd3].
  assert (Hret : ∀ r, res = r → fin || killed = true →
    runs (onfile (ilock (Some ip));; mret (r, bs)) s3 (λ r s', r = (res, bs) ∧
      holds s' (mkTty rest ed) ∧ locked (c_lock s') = 0 ∧
      fs_ok sb vw dk wr ∅ bl o (c_fs s') ∧ dev_inode (fin || killed) ip (c_fs s'))).
  { intros r <- ->. apply runs_bind, runs_zoom, (dev_lock _ _ _ _ _ _ _ _ _ H3 Hd3). intros f4 H4 Hd4.
    apply runs_ret. split_and!; [done | by eapply holds_same | done..]. }
  unfold read_end. destruct fin; [|destruct killed].
  - apply Hret; [|done]. unfold res. do 2 f_equal. rewrite s32_small; lia.
  - by apply Hret.
  - apply runs_ret. split_and!; [done | by eapply holds_same | done..].
Qed.

Lemma demo_holds l : holds (demo_cons l) (mkTty [] []).
Proof.
  split; [|apply not_elem_of_nil]. split; cbn; try done; lia.
Qed.

(** The keys [a], [b], backspace, newline, [x], with counters that wrap around. *)
Lemma consoleintr_refines_witness :
  ∃ l ds s', (onbio binit;; initlog 1;; begin_op) fs_boot = Ok (tt, l) ∧
    consoleintr false [97; 98; 8; 13; 120; -1; 99] (demo_cons l) = Ok (ds, s') ∧
    holds s' (mkTty [97; 10] [120]).
Proof.
  destruct fs_up as (l & d & wr & E & H & Hd).
  destruct (consoleintr_refines false [97; 98; 8; 13; 120; -1; 99] (demo_cons l) (mkTty [] []))
    as (ds & s' & Ec & Hh & _).
  - exact (demo_holds l).
  - split; [reflexivity | cbn; lia].
  - exact (fs_ok_cpu H).
  - reflexivity.
  - repeat constructor.
  - exists l, ds, s'. split_and!; [exact E | exact Ec |]. exact Hh.
Defined.

(** A line [a] and a newline are there, with [b] behind them and [c] being typed. *)
Definition demo_line (l : logst) : cons :=
  set_input ([97; 10; 98; 99] ++ replicate 124 0) 0 3 4 (demo_cons l).

Lemma consoleread_correct_witness :
  ∃ l s', (onbio binit;; initlog 1;; begin_op) fs_boot = Ok (tt, l) ∧
    consoleread 0 false true 5 5 (demo_line l) = Ok ((Some 2, [97; 10]), s') ∧
    holds s' (mkTty [98] [99]).
Proof.
  destruct fs_up as (l & d & wr & E & H & Hd).
  destruct (consoleread_correct demo_sb d d wr [] 1 (demo_line l) 0 false 5 [97; 10; 98] [99] [97; 10] true [98])
    as (res & s' & Ec & Er & Hh & _).
  - exact H.
  - exists demo_inode. split_and!; [reflexivity | cbn; lia | reflexivity..].
  - reflexivity.
  - split; [split|].
    + reflexivity.
    + cbn. lia.
    + reflexivity.
    + reflexivity.
    + cbn. lia.
    + intros i c Hi. do 4 (destruct i as [|i]; [exact Hi|]). discriminate Hi.
    + apply (bool_decide_unpack _). exact I.
  - lia.
  - reflexivity.
  - exists l, s'. split_and!; [exact E | | exact Hh]. rewrite Er in Ec. exact Ec.
Defined.
