(* ===== verification/Dump.v ===== *)
(** * The process dumps

    Models [procdump], [piddump], [freedump], [sleepdump] and [zombiedump] of src/proc.c,
    which print the process table and its lists when the user types a control key on the
    console ([consoleintr] calls them).  A dump returns the bytes it prints; [cprintf] turns
    numbers into text the way [number] says ([cons_printint_number]).

    The theorems say that the dumps show the abstract state: the sequences of processes on
    the lists, in order, without changing anything. *)

From S2P Require Import Prelude Param Spinlock ProcData StateList ProcServices.
From S2P Require Import KString Digits Fs Console ProcCommon ProcMLFQ ListRep ProcMLFQInv ProcCheck ProcWitness.
Local Open Scope Z_scope.

(** ** Definitions *)

(** What [printint] of src/console.c prints. *)
Definition number (xx base : Z) (sign : bool) : list Z :=
  let sign := sign && (xx <? 0) in
  let x := if sign then u32 (- xx) else u32 xx in
  match printint_loop cons_digits 32 base x [] with
  | Ok buf => (if sign then [45] else []) ++ reverse buf
  | _ => []
  end.

(** [%d], [%p] and the text between the conversions. *)
Definition dec (n : Z) : list Z := number (s32 n) 10 true.
Definition hex (n : Z) : list Z := number (s32 n) 16 false.
Definition text (s : string) : list Z := bytes_of s.
Definition NEWLINE : list Z := [10].
Definition TABULATOR : list Z := [9].

Section Dump.
Context {E : Type} `{!Services E}.

(** [while(p){ show(p); if(p->next) cprintf(" -> "); p = p->next; }] *)
Fixpoint dump_next (fuel : nat) (p : ptr) (show : proc → K (kst E) (list Z)) : K (kst E) (list Z) :=
  match p with
  | None => mret []
  | Some _ =>
      match fuel with
      | O => fun _ => Diverge
      | S fuel' =>
          x ← pget p;
          t ← show x;
          out ← dump_next fuel' (p_next x) show;
          mret (t ++ (match p_next x with Some _ => text " -> " | None => [] end) ++ out)
      end
  end.

Definition dump_list (L : lname) (show : proc → K (kst E) (list Z)) : K (kst E) (list Z) :=
  h ← list_head L;
  dump_next NPROC h show.

(** The loop of [piddump] over the ready lists from [i] on. *)
Fixpoint piddump_loop (prios : list nat) : K (kst E) (list Z) :=
  match prios with
  | [] => mret []
  | i :: prios' =>
      t ← dump_list (LReady i) (fun x => mret (text "(" ++ dec (p_pid x) ++ text ", " ++ dec (p_budget x) ++ text ")"));
      out ← piddump_loop prios';
      mret (dec (Z.of_nat i) ++ text ": " ++ t ++ NEWLINE ++ out)
  end.

Definition piddump : K (kst E) (list Z) :=
  acquire_ptable;;
  t ← piddump_loop (seq 0 (MAXPRIO + 1));
  release_ptable;;
  mret (NEWLINE ++ text "Ready List Processes:" ++ NEWLINE ++ t).

(** The counting loop of [freedump]. *)
Fixpoint count_next (fuel : nat) (p : ptr) (counter : Z) : K (kst E) Z :=
  match p with
  | None => mret counter
  | Some _ =>
      match fuel with
      | O => fun _ => Diverge
      | S fuel' => x ← pget p; count_next fuel' (p_next x) (s32 (counter + 1))
      end
  end.

Definition freedump : K (kst E) (list Z) :=
  acquire_ptable;;
  h ← list_head LFree;
  counter ← count_next NPROC h 0;
  release_ptable;;
  mret (NEWLINE ++ text "Free List Size: " ++ dec counter ++ text " processes" ++ NEWLINE).

Definition sleepdump : K (kst E) (list Z) :=
  acquire_ptable;;
  t ← dump_list LSleep (fun x => mret (dec (p_pid x)));
  release_ptable;;
  mret (NEWLINE ++ text "Sleep List Processes:" ++ NEWLINE ++ t ++ NEWLINE).

Definition zombiedump : K (kst E) (list Z) :=
  acquire_ptable;;
  t ← dump_list LZombie (fun x =>
    ppid ← (match p_parent x with
            | Some _ => y ← pget (p_parent x); mret (p_pid y)
            | None => mret (p_pid x)
            end);
    mret (text "(PID" ++ dec (p_pid x) ++ text ", PPID" ++ dec ppid ++ text ")"));
  release_ptable;;
  mret (NEWLINE ++ text "Zombie List Processes:" ++ NEWLINE ++ t ++ NEWLINE).

(** Three digits after the point. *)
Definition millis (i : Z) : list Z :=
  (if i <? 100 then text "0" else []) ++ (if i <? 10 then text "0" else []) ++ dec i.

(** The configuration: with or without priorities. *)
Variable p3p4 : bool.
(** The memory of the kernel, with the stacks of the processes. *)
Variable kmem : mem.

Definition procdump_header : list Z :=
  NEWLINE ++ text "PID" ++ TABULATOR ++ text "Name" ++ TABULATOR ++ text "UID" ++ TABULATOR ++ text "GID" ++ TABULATOR ++
  text "PPID" ++ TABULATOR ++ (if p3p4 then text "Prio" ++ TABULATOR else []) ++ text "Elapsed" ++ TABULATOR ++
  text "CPU" ++ TABULATOR ++ text "State" ++ TABULATOR ++ text "Size" ++ TABULATOR ++ text " PCs" ++ NEWLINE.

(** The return addresses on the stack of a sleeping process, up to the first null. *)
Fixpoint pcs_text (pc : list Z) : list Z :=
  match pc with
  | [] => []
  | a :: pc' => if a =? 0 then [] else text " " ++ hex a ++ pcs_text pc'
  end.

Definition procdump_line (now : Z) (x : proc) (ppid : Z) : list Z :=
  let elapsed := u32 (now - p_start_ticks x) in
  let cpu := s32 (p_cpu_ticks_total x) in
  dec (p_pid x) ++ TABULATOR ++ p_name x ++ TABULATOR ++ dec (p_uid x) ++ TABULATOR ++ dec (p_gid x) ++
  TABULATOR ++ dec ppid ++
  (if p3p4 then TABULATOR ++ dec (p_priority x) else []) ++
  TABULATOR ++ dec (elapsed / 1000) ++ text "." ++ millis (elapsed mod 1000) ++
  TABULATOR ++ dec (Z.quot cpu 1000) ++ text "." ++ millis (Z.rem cpu 1000) ++
  TABULATOR ++ text (states (p_state x)) ++ TABULATOR ++ dec (p_sz x) ++ TABULATOR ++
  (if bool_decide (p_state x = SLEEPING)
   then pcs_text (getcallerpcs kmem (ctx_ebp (p_ctx x) + 8)) else []) ++
  NEWLINE.

(** The loop over the table. *)
Fixpoint procdump_loop (l : list nat) : K (kst E) (list Z) :=
  match l with
  | [] => mret []
  | p :: l' =>
      x ← pget (Some p);
      if bool_decide (p_state x = UNUSED) then procdump_loop l'
      else
        s ← kget;
        ppid ← (if p_pid x =? 1 then mret (p_pid x) else y ← pget (p_parent x); mret (p_pid y));
        out ← procdump_loop l';
        mret (procdump_line (ticks s) x ppid ++ out)
  end.

Definition procdump : K (kst E) (list Z) :=
  t ← procdump_loop (seq 0 NPROC);
  mret (procdump_header ++ t).
End Dump.

(** *** What the dumps show *)

(** Texts with arrows between them. *)
Fixpoint arrows (l : list (list Z)) : list Z :=
  match l with
  | [] => []
  | [t] => t
  | t :: l' => t ++ text " -> " ++ arrows l'
  end.

(** The processes of a list, each shown by [f]. *)
Definition shown (f : proc → list Z) (eps : list proc) (l : list nat) : list Z :=
  arrows (map (λ i, from_option f [] (eps !! i)) l).

Definition ready_entry (x : proc) : list Z :=
  text "(" ++ dec (p_pid x) ++ text ", " ++ dec (p_budget x) ++ text ")".

Definition ready_text (eps : list proc) (abs : absmap) : list Z :=
  NEWLINE ++ text "Ready List Processes:" ++ NEWLINE ++
  concat (map (λ i, dec (Z.of_nat i) ++ text ": " ++
    shown ready_entry eps (abs (LReady i)) ++ NEWLINE)
    (seq 0 (MAXPRIO + 1))).

(** The pid of the parent, that of the process itself without one. *)
Definition ppid_of (eps : list proc) (x : proc) : Z :=
  match p_parent x ≫= (eps !!.) with Some y => p_pid y | None => p_pid x end.

Definition zombie_text (eps : list proc) (x : proc) : list Z :=
  text "(PID" ++ dec (p_pid x) ++ text ", PPID" ++ dec (ppid_of eps x) ++ text ")".

(** A process in use has a parent, but for the first. *)
Definition has_parent (eps : list proc) (x : proc) : Prop :=
  p_pid x = 1 ∨ ∃ y, p_parent x ≫= (eps !!.) = Some y.

(** The lines of [procdump]. *)
Definition table_text (p3p4 : bool) (kmem : mem) (now : Z) (eps : list proc) (l : list proc) : list Z :=
  concat (map (λ x, if bool_decide (p_state x = UNUSED) then []
                    else procdump_line p3p4 kmem now x (if p_pid x =? 1 then 1 else ppid_of eps x)) l).

(** ** Lemmas *)

(** [cprintf] of a number. *)
Lemma cons_printint_number n xx base sign s :
  1 < base ≤ 16 → 4294967296 ≤ base ^ Z.of_nat n → (0 < n < 16)%nat →
  cons_printint xx base sign s = kiter (number xx base sign) consputc s.
Proof.
  intros Hb Hn Hl. unfold cons_printint, number. set (sg := sign && _). set (x := if sg then _ else _).
  assert (0 ≤ x < 4294967296) by (subst x; destruct sg; unfold u32; zmod_lia).
  destruct (printint_loop_spec cons_digits n 32 base x []) as (ds & E & _ & Hd); [done | done | lia | lia | cbn; lia |].
  rewrite E. cbn [app]. assert (Hlen : (length (reverse (show_digits cons_digits ds)) < 16)%nat).
  { rewrite length_reverse. unfold show_digits. rewrite length_fmap. lia. }
  rewrite (K_bind_ok _ _ _ (reverse (show_digits cons_digits ds)) s) by done.
  destruct sg; cbn [app]; [|by rewrite (K_bind_ok _ _ _ (reverse (show_digits cons_digits ds)) s)].
  unfold push. destruct (Nat.ltb_spec (length (reverse (show_digits cons_digits ds))) 16); [|lia].
  rewrite (K_bind_ok _ _ _ (reverse (show_digits cons_digits ds) ++ [45]) s) by done.
  by rewrite reverse_app.
Qed.

Lemma arrows_cons t l : arrows (t :: l) = t ++ (match l with [] => [] | _ => text " -> " end) ++ arrows l.
Proof. destruct l; [by rewrite app_nil_r | done]. Qed.

Section DumpRules.
Context {E : Type} `{!Services E}.
Implicit Types (s r : kst E) (eps : list proc) (abs : absmap).

Lemma dump_next_ok r eps abs s L show f l1 l2 fuel :
  rep r eps abs s → abs L = l1 ++ l2 → (length l2 ≤ fuel)%nat →
  (∀ i x n, i ∈ abs L → eps !! i = Some x → show (set_p_next n x) s = Ok (f x, s)) →
  dump_next fuel (head l2) show s = Ok (shown f eps l2, s).
Proof.
  intros Hr Hl Hf Hshow. revert l1 fuel Hl Hf. induction l2 as [|i l2 IH]; intros l1 fuel Hl Hf.
  - by destruct fuel.
  - destruct fuel as [|fuel]; [cbn in Hf; lia|]. cbn [dump_next head].
    assert (Hi : i ∈ abs L) by (rewrite Hl; set_solver).
    destruct (rep_member _ _ _ _ _ _ Hr Hi) as [x Hx].
    destruct (rep_lookup _ _ _ _ _ _ Hr Hx) as (n & Hn & _).
    destruct (rep_next _ _ _ _ _ _ _ _ Hr Hl) as (y & Hy & Hyn).
    rewrite Hn in Hy. injection Hy as <-. cbn [set_p_next p_next] in Hyn. subst n.
    rewrite (K_bind_ok _ _ _ _ _ (pget_ok _ _ _ Hn)). rewrite (K_bind_ok _ _ _ _ _ (Hshow i x _ Hi Hx)).
    cbn [set_p_next p_next]. rewrite (K_bind_ok _ _ _ _ _ (IH (l1 ++ [i]) fuel ltac:(by rewrite <- app_assoc) ltac:(cbn in Hf; lia))).
    unfold shown. cbn [map]. rewrite Hx, arrows_cons. cbn [from_option]. by destruct l2.
Qed.

Lemma list_fits r eps abs s L : rep r eps abs s → length eps = NPROC → valid L → (length (abs L) ≤ NPROC)%nat.
Proof.
  intros (_ & <- & Hwf) Hlen HL. destruct (wf_valid _ _ _ Hwf L HL) as (h & t & _ & [Hc _]).
  apply chain_length in Hc. unfold erase_next in Hlen. rewrite length_fmap in Hlen. lia.
Qed.

Lemma runs_dump_list r eps abs s L show f (Q : list Z → kst E → Prop) :
  rep r eps abs s → table_wf eps abs → valid L →
  (∀ i x n, i ∈ abs L → eps !! i = Some x → show (set_p_next n x) s = Ok (f x, s)) →
  Q (shown f eps (abs L)) s → runs (dump_list L show) s Q.
Proof.
  intros Hr Hwf HL Hshow HQ. apply runs_bind. eapply runs_list_head; [done..|]. eapply runs_ok; [|exact HQ].
  apply (dump_next_ok r eps abs s L show f []); [done | done | | done].
  eapply list_fits; [done | by eapply tw_length | done].
Qed.

Lemma runs_piddump_loop r eps abs s prios (Q : list Z → kst E → Prop) :
  rep r eps abs s → table_wf eps abs → Forall (λ i, (i ≤ MAXPRIO)%nat) prios →
  Q (concat (map (λ i, dec (Z.of_nat i) ++ text ": " ++
    shown ready_entry eps (abs (LReady i)) ++ NEWLINE)
    prios)) s →
  runs (piddump_loop prios) s Q.
Proof.
  intros Hr Hwf Hp. revert Q. induction Hp as [|i prios Hi _ IH]; intros Q HQ; [by apply runs_ret|].
  apply runs_bind. eapply (runs_dump_list _ _ _ _ _ _ ready_entry); [done | done | done | done |].
  apply runs_bind, IH. apply runs_ret. cbn [map concat] in HQ. by rewrite <- !app_assoc in HQ.
Qed.

Lemma count_next_ok r eps abs s L l1 l2 fuel c :
  rep r eps abs s → abs L = l1 ++ l2 → (length l2 ≤ fuel)%nat → 0 ≤ c → c + Z.of_nat (length l2) < 2147483648 →
  count_next fuel (head l2) c s = Ok (c + Z.of_nat (length l2), s).
Proof.
  intros Hr. revert l1 fuel c. induction l2 as [|i l2 IH]; intros l1 fuel c Hl Hf H0 Hc.
  - rewrite Z.add_0_r. by destruct fuel.
  - destruct fuel as [|fuel]; [cbn in Hf; lia|]. cbn [count_next head].
    destruct (rep_next _ _ _ _ _ _ _ _ Hr Hl) as (y & Hy & Hyn). cbn [length] in Hf, Hc.
    rewrite (K_bind_ok _ _ _ _ _ (pget_ok _ _ _ Hy)), Hyn, s32_small by lia.
    rewrite (IH (l1 ++ [i])); [f_equal; f_equal; cbn; lia | by rewrite <- app_assoc | lia..].
Qed.

Lemma procdump_loop_ok p3p4 kmem r eps abs s l1 l2 :
  rep r eps abs s → eps = l1 ++ l2 → Forall (λ x, p_state x ≠ UNUSED → has_parent eps x) l2 →
  procdump_loop p3p4 kmem (seq (length l1) (length l2)) s = Ok (table_text p3p4 kmem (ticks r) eps l2, s).
Proof.
  intros Hr. revert l1. induction l2 as [|x l2 IH]; intros l1 Hl Hp; [done|].
  apply Forall_cons in Hp as [Hx Hp]. cbn [length seq procdump_loop].
  assert (Ex : eps !! length l1 = Some x) by (by rewrite Hl, lookup_app_r, Nat.sub_diag).
  destruct (rep_lookup _ _ _ _ _ _ Hr Ex) as (n & Hn & _). rewrite (K_bind_ok _ _ _ _ _ (pget_ok _ _ _ Hn)).
  specialize (IH (l1 ++ [x]) ltac:(by rewrite <- app_assoc) Hp). rewrite length_app, Nat.add_1_r in IH.
  change (p_state (set_p_next n x)) with (p_state x). unfold table_text in *. cbn [map concat].
  case_bool_decide as Hu; [exact IH|]. rewrite (K_bind_ok _ _ _ s s) by done.
  assert (Hpp : (if p_pid x =? 1 then mret (p_pid x) else y ← pget (p_parent x); mret (p_pid y)) s =
    Ok (if p_pid x =? 1 then 1 else ppid_of eps x, s)).
  { destruct (Z.eqb_spec (p_pid x) 1) as [->|Hne]; [done|]. destruct (Hx Hu) as [?|[y Hy]]; [done|].
    unfold ppid_of. rewrite Hy. destruct (p_parent x) as [j|]; [|done].
    destruct (rep_lookup _ _ _ _ _ _ Hr Hy) as (n' & Hn' & _). by rewrite (K_bind_ok _ _ _ _ _ (pget_ok _ _ _ Hn')). }
  rewrite (K_bind_ok _ _ _ _ _ Hpp), (K_bind_ok _ _ _ _ _ IH), (rep_ticks _ _ _ _ Hr). done.
Qed.
End DumpRules.

(** ** Theorems *)

(** The list dumps show the lists: [piddump] the ready processes by priority with their
    budgets, [freedump] how many entries are free, [sleepdump] the sleeping processes and
    [zombiedump] the zombies with their parents, each list in its order; the state is
    afterwards as before. *)
Theorem list_dumps_correct {E : Type} `{!Services E} (r s : kst E) eps abs :
  rep r eps abs s → table_wf eps abs → unlocked r →
  let after (out : list Z) res s' := res = out ∧ rep (after_release (after_acquire r)) eps abs s' in
  runs piddump s (after (ready_text eps abs)) ∧
  runs freedump s (after (NEWLINE ++ text "Free List Size: " ++ dec (Z.of_nat (length (abs LFree))) ++
                          text " processes" ++ NEWLINE)) ∧
  runs sleepdump s (after (NEWLINE ++ text "Sleep List Processes:" ++ NEWLINE ++
                           shown (λ x, dec (p_pid x)) eps (abs LSleep) ++ NEWLINE)) ∧
  runs zombiedump s (after (NEWLINE ++ text "Zombie List Processes:" ++ NEWLINE ++
                            shown (zombie_text eps) eps (abs LZombie) ++ NEWLINE)).
Proof.
  intros Hr Hwf Hu after. split_and!; (apply runs_bind; eapply runs_acquire; [done..|]; intros s1 H1 Hh).
  - apply runs_bind. eapply runs_piddump_loop; [done | done | |].
    { apply Forall_forall. intros i Hi. apply elem_of_seq in Hi. lia. }
    apply runs_bind. eapply runs_release; [done..|]. intros s2 H2 _. by apply runs_ret.
  - apply runs_bind. eapply runs_list_head; [done | done|]. pose proof (list_fits _ _ _ _ LFree H1 (tw_length _ _ Hwf) I) as Hl.
    apply runs_bind. eapply runs_ok; [apply (count_next_ok _ _ _ _ LFree [] _ _ _ H1); [done | done | lia | unfold NPROC in *; lia]|].
    apply runs_bind. eapply runs_release; [done..|]. intros s2 H2 _. by apply runs_ret.
  - apply runs_bind. eapply (runs_dump_list _ _ _ _ _ _ (λ x, dec (p_pid x))); [done | done | done | done |].
    apply runs_bind. eapply runs_release; [done..|]. intros s2 H2 _. by apply runs_ret.
  - apply runs_bind. eapply (runs_dump_list _ _ _ _ _ _ (zombie_text eps)); [done | done | done | |].
    + intros i x n Hi Hx. cbn [p_parent set_p_next p_pid]. unfold zombie_text, ppid_of.
      destruct (p_parent x) as [j|] eqn:Hp; [|done]. cbn [mbind option_bind].
      destruct (tw_ok _ _ Hwf i x Hx) as (_ & Hj & _). destruct (tw_lookup _ _ j Hwf (Hj j Hp)) as [y Hy]. rewrite Hy.
      destruct (rep_lookup _ _ _ _ _ _ H1 Hy) as (n' & Hn & _).
      assert (Hpp : (y ← pget (Some j); mret (p_pid y)) s1 = Ok (p_pid y, s1)).
      { by rewrite (K_bind_ok _ _ _ _ _ (pget_ok _ _ _ Hn)). }
      by rewrite (K_bind_ok _ _ _ _ _ Hpp).
    + apply runs_bind. eapply runs_release; [done..|]. intros s2 H2 _. by apply runs_ret.
Qed.

(** [procdump] prints a line for every process in use, in the order of the table, and changes
    nothing, if every process in use but the first has a parent. *)
Theorem procdump_correct {E : Type} `{!Services E} p3p4 kmem (r s : kst E) eps abs :
  rep r eps abs s → length eps = NPROC → Forall (λ x, p_state x ≠ UNUSED → has_parent eps x) eps →
  procdump p3p4 kmem s = Ok (procdump_header p3p4 ++ table_text p3p4 kmem (ticks r) eps eps, s).
Proof.
  intros Hr Hl Hp. pose proof (procdump_loop_ok p3p4 kmem r eps abs s [] eps Hr eq_refl Hp) as H.
  rewrite Hl in H. unfold procdump. by rewrite (K_bind_ok _ _ _ _ _ H).
Qed.

Lemma list_dumps_correct_witness :
  ∃ s', sleepdump (state_after demo_sleepers) =
    Ok (NEWLINE ++ text "Sleep List Processes:" ++ NEWLINE ++ text "1 -> 2" ++ NEWLINE, s').
Proof.
  demo_state demo_sleepers Hr Hwf.
  destruct (list_dumps_correct _ _ _ _ Hr Hwf) as (_ & _ & (a & s' & H & Ha & _) & _);
    [split; vm_compute; reflexivity|].
  exists s'. rewrite H, Ha. vm_compute. reflexivity.
Defined.
