(* ===== verification/Kbd.v ===== *)
(** * The keyboard

    Models [kbdgetc] of src/kbd.c with the tables of src/kbd.h: scan codes become
    characters, and the state of the modifier keys is kept in [shift].  The controller's
    data register is a queue of scan codes; [KBS_DIB] is set while it is not empty. *)

From S2P Require Import Prelude Param KString Digits Spinlock Bio Log Fs Console.
Local Open Scope Z_scope.

(** ** Definitions *)

Definition SHIFT : Z := 1.
Definition CTL : Z := 2.
Definition ALT : Z := 4.
Definition CAPSLOCK : Z := 8.
Definition NUMLOCK : Z := 16.
Definition SCROLLLOCK : Z := 32.
Definition E0ESC : Z := 64.

(** An array of 256 bytes given by its first elements and designated initialisers. *)
Definition table (first : list Z) (rest : list (Z * Z)) (i : Z) : Z :=
  match list_find (λ p, p.1 = i) rest with
  | Some (_, (_, v)) => v
  | None => default 0 (first !! Z.to_nat i)
  end.

Definition shiftcode : Z → Z :=
  table [] [(29, CTL); (42, SHIFT); (54, SHIFT); (56, ALT); (157, CTL); (184, ALT)].

Definition togglecode : Z → Z := table [] [(58, CAPSLOCK); (69, NUMLOCK); (70, SCROLLLOCK)].

(** The keys of the cursor block. *)
Definition cursor_keys : list (Z * Z) :=
  [(200, 226); (208, 227); (201, 230); (209, 231); (203, 228); (205, 229); (151, 224); (207, 225);
   (210, 232); (211, 233)].

Definition normalmap : Z → Z :=
  table
    [ 0; 27; 49; 50; 51; 52; 53; 54;
      55; 56; 57; 48; 45; 61; 8; 9;
      113; 119; 101; 114; 116; 121; 117; 105;
      111; 112; 91; 93; 10; 0; 97; 115;
      100; 102; 103; 104; 106; 107; 108; 59;
      39; 96; 0; 92; 122; 120; 99; 118;
      98; 110; 109; 44; 46; 47; 0; 42;
      0; 32; 0; 0; 0; 0; 0; 0;
      0; 0; 0; 0; 0; 0; 0; 55;
      56; 57; 45; 52; 53; 54; 43; 49;
      50; 51; 48; 46; 0; 0; 0; 0 ]
    ((156, 10) :: (181, 47) :: cursor_keys).

Definition shiftmap : Z → Z :=
  table
    [ 0; 27; 33; 64; 35; 36; 37; 94;
      38; 42; 40; 41; 95; 43; 8; 9;
      81; 87; 69; 82; 84; 89; 85; 73;
      79; 80; 123; 125; 10; 0; 65; 83;
      68; 70; 71; 72; 74; 75; 76; 58;
      34; 126; 0; 124; 90; 88; 67; 86;
      66; 78; 77; 60; 62; 63; 0; 42;
      0; 32; 0; 0; 0; 0; 0; 0;
      0; 0; 0; 0; 0; 0; 0; 55;
      56; 57; 45; 52; 53; 54; 43; 49;
      50; 51; 48; 46; 0; 0; 0; 0 ]
    ((156, 10) :: (181, 47) :: cursor_keys).

(** [C('/')] is negative and kept modulo 256. *)
Definition ctlmap : Z → Z :=
  table
    [ 0; 0; 0; 0; 0; 0; 0; 0;
      0; 0; 0; 0; 0; 0; 0; 0;
      17; 23; 5; 18; 20; 25; 21; 9;
      15; 16; 0; 0; 13; 0; 1; 19;
      4; 6; 7; 8; 10; 11; 12; 0;
      0; 0; 0; 28; 26; 24; 3; 22;
      2; 14; 13; 0; 0; 239; 0; 0 ]
    ((156, 13) :: (181, 239) :: cursor_keys).

Definition charcode (i : Z) : Z → Z :=
  if i =? 0 then normalmap else if i =? 1 then shiftmap else ctlmap.

(** [kbdgetc] on the scan code in the data register, if there is one: the result and the
    new [shift]. *)
Definition kbdgetc (dib : option Z) (shift : Z) : Z * Z :=
  match dib with
  | None => (-1, shift)
  | Some data =>
      if data =? 224 then (0, Z.lor shift E0ESC)
      else if negb (Z.land data 128 =? 0) then
        let data := if negb (Z.land shift E0ESC =? 0) then data else Z.land data 127 in
        (0, Z.land shift (Z.lnot (Z.lor (shiftcode data) E0ESC)))
      else
        let '(data, shift) :=
          if negb (Z.land shift E0ESC =? 0) then (Z.lor data 128, Z.land shift (Z.lnot E0ESC))
          else (data, shift) in
        let shift := Z.lor shift (shiftcode data) in
        let shift := Z.lxor shift (togglecode data) in
        let c := charcode (Z.land shift (Z.lor CTL SHIFT)) data in
        let c :=
          if negb (Z.land shift CAPSLOCK =? 0) then
            if (97 <=? c) && (c <=? 122) then c + (65 - 97)
            else if (65 <=? c) && (c <=? 90) then c + (97 - 65)
            else c
          else c in
        (c, shift)
  end.

(** The values [kbdgetc] returns for a queue of scan codes, up to the -1 that ends the loop
    of [consoleintr]. *)
Fixpoint kbd_keys (codes : list Z) (shift : Z) : list Z * Z :=
  match codes with
  | [] => ([], (kbdgetc None shift).2)
  | d :: codes' =>
      let r := kbdgetc (Some d) shift in
      let rest := kbd_keys codes' r.2 in
      (r.1 :: rest.1, rest.2)
  end.

(** [kbdintr]: what is typed goes through the line discipline of the console. *)
Definition kbdintr (p3p4 : bool) (codes : list Z) (shift : Z) : K cons (list dump * Z) :=
  dumps ← consoleintr p3p4 (kbd_keys codes shift).1;
  mret (dumps, (kbd_keys codes shift).2).

(** *** Typing *)

(** The scan codes of typing [c]: the key is pressed and released, with the left shift key
    held if the character needs it. *)
Definition key_of (map : Z → Z) (c : Z) : option Z :=
  snd <$> list_find (λ i, map i = c) (Z.of_nat <$> seq 0 84).
Definition press (c : Z) : list Z :=
  match key_of normalmap c, key_of shiftmap c with
  | Some k, _ => [k; k + 128]
  | None, Some k => [42; k; k + 128; 170]
  | None, None => []
  end.

Definition printable (c : Z) : Prop := c = 10 ∨ 32 ≤ c ≤ 126.

(** ** Lemmas *)

Lemma kbd_keys_app l l' s :
  kbd_keys (l ++ l') s =
    ((kbd_keys l s).1 ++ (kbd_keys l' (kbd_keys l s).2).1, (kbd_keys l' (kbd_keys l s).2).2).
Proof.
  revert s. induction l as [|d l IH]; intros s; cbn [app kbd_keys]; [by destruct (kbd_keys l' _)|].
  by rewrite IH.
Qed.

(** One character, by computation on the tables. *)
Lemma press_types c : printable c → (kbd_keys (press c) 0).2 = 0 ∧ filter (λ k, k ≠ 0) (kbd_keys (press c) 0).1 = [c].
Proof.
  intros Hc.
  assert (H : Forall (λ c, (kbd_keys (press c) 0).2 = 0 ∧ filter (λ k, k ≠ 0) (kbd_keys (press c) 0).1 = [c])
    (10 :: (Z.of_nat <$> seq 32 95))) by (apply (bool_decide_unpack _); vm_compute; exact I).
  rewrite Forall_forall in H. apply H. destruct Hc as [->|Hc]; [left|]. right. apply list_elem_of_fmap.
  exists (Z.to_nat c). split; [lia|]. apply elem_of_seq. lia.
Qed.

(** ** Theorems *)

(** Whatever text of printable characters and newlines is typed, the keyboard driver
    delivers exactly that text, apart from the zeros for modifier and release codes, which
    the console ignores, and no modifier key is left held. *)
Theorem kbd_types text :
  Forall printable text →
  ∃ keys, kbd_keys (text ≫= press) 0 = (keys, 0) ∧ filter (λ k, k ≠ 0) keys = text.
Proof.
  induction 1 as [|c text Hc _ (keys & E & Hk)]; [by exists []|]. destruct (press_types c Hc) as [Hs Hf].
  cbn. rewrite kbd_keys_app, Hs, E. cbn. eexists. split; [done|]. rewrite filter_app, Hf, Hk. done.
Qed.

(** ** Witness *)

Lemma kbd_types_witness :
  ∃ keys, kbd_keys ([72; 105; 33; 10] ≫= press) 0 = (keys, 0) ∧ filter (λ k, k ≠ 0) keys = [72; 105; 33; 10].
Proof.
  apply (kbd_types [72; 105; 33; 10]). repeat (apply Forall_cons; split; [unfold printable; lia|]). apply Forall_nil. exact I.
Defined.
