(* ===== verification/Umalloc.v ===== *)
(** * The user memory allocator

    Models src/umalloc.c, the allocator of Kernighan and Ritchie: [malloc] takes blocks from
    a circular list of free blocks, linked through the headers in front of them and ordered
    by address, and [free] puts a block back and joins it with its neighbours.

    [base] is the address of the static list head.  [sbrk] is [growproc] of the kernel seen
    from the process: the break moves, new pages are zero, and [available] says whether
    the kernel has the memory.  The loops take fuel; the theorems say how much is enough. *)

From S2P Require Import Prelude Param.
Local Open Scope Z_scope.

(** ** Definitions *)

Record heap := mkHeap {
  h_mem : mem;
  h_freep : Z;
  h_brk : Z
}.

(** [union header]: 8 bytes, the link and the size in units of a header. *)
Definition SIZEOF_Header : Z := 8.
Definition hptr (m : mem) (p : Z) : Z := load32 m p.
Definition hsize (m : mem) (p : Z) : Z := load32 m (p + 4).
Definition set_ptr (m : mem) (p v : Z) : mem := store32 m p v.
Definition set_size (m : mem) (p v : Z) : mem := store32 m (p + 4) v.

(** [p + n] for a pointer to headers. *)
Definition hadd (p n : Z) : Z := u32 (p + SIZEOF_Header * n).

Section Allocator.
Variable base : Z.
Variable available : Z → Z → bool.

(** The search of [free] for the free block after which [bp] belongs. *)
Fixpoint free_find (fuel : nat) (m : mem) (bp p : Z) : outcome Z :=
  match fuel with
  | O => Diverge
  | S fuel' =>
      if (bp >? p) && (bp <? hptr m p) then Ok p
      else if (p >=? hptr m p) && ((bp >? p) || (bp <? hptr m p)) then Ok p
      else free_find fuel' m bp (hptr m p)
  end.

(** Joining [bp] with the block after it, or linking it. *)
Definition free_next (m : mem) (bp p : Z) : mem :=
  if hadd bp (hsize m bp) =? hptr m p then
    let m := set_size m bp (u32 (hsize m bp + hsize m (hptr m p))) in
    set_ptr m bp (hptr m (hptr m p))
  else set_ptr m bp (hptr m p).

(** Joining [p] with [bp], or linking it. *)
Definition free_prev (m : mem) (bp p : Z) : mem :=
  if hadd p (hsize m p) =? bp then
    let m := set_size m p (u32 (hsize m p + hsize m bp)) in
    set_ptr m p (hptr m bp)
  else set_ptr m p bp.

Definition free (fuel : nat) (ap : Z) : K heap unit :=
  h ← kget;
  let bp := hadd ap (-1) in
  p ← kout (free_find fuel (h_mem h) bp (h_freep h));
  kmod (fun h => mkHeap (free_prev (free_next (h_mem h) bp p) bp p) p (h_brk h)).

(** [sbrk(n)]: the old break, or -1. *)
Definition sbrk (n : Z) : K heap Z :=
  h ← kget;
  let old := h_brk h in
  let new := u32 (old + n) in
  if n >? 0 then
    if new >=? KERNBASE then mret (u32 (-1))
    else if new <? old then mret old
    else if available old new then
      kmod (fun h => mkHeap (fun x => if (PGROUNDUP old <=? x) && (x <? PGROUNDUP new) then 0 else h_mem h x)
                       (h_freep h) new);;
      mret old
    else mret (u32 (-1))
  else if n <? 0 then
    if new >=? old then mret old
    else if new =? 0 then mret (u32 (-1))
    else
      kmod (fun h => mkHeap (h_mem h) (h_freep h) new);;
      mret old
  else mret old.

Definition morecore (fuel : nat) (nu : Z) : K heap Z :=
  let nu := if nu <? 4096 then 4096 else nu in
  p ← sbrk (s32 (nu * SIZEOF_Header));
  if p =? u32 (-1) then mret 0
  else
    kmod (fun h => mkHeap (set_size (h_mem h) p nu) (h_freep h) (h_brk h));;
    free fuel (hadd p 1);;
    h ← kget;
    mret (h_freep h).

(** A block that is large enough is found: the whole block or its tail is taken. *)
Definition carve (nunits prevp p : Z) : K heap Z :=
  h ← kget;
  let m := h_mem h in
  if hsize m p =? nunits then
    kmod (fun h => mkHeap (set_ptr m prevp (hptr m p)) prevp (h_brk h));;
    mret (hadd p 1)
  else
    let m := set_size m p (u32 (hsize m p - nunits)) in
    let p := hadd p (hsize m p) in
    kmod (fun h => mkHeap (set_size m p nunits) prevp (h_brk h));;
    mret (hadd p 1).

(** The loop of [malloc]. *)
Fixpoint malloc_loop (k fuel : nat) (nunits prevp p : Z) : K heap Z :=
  match k with
  | O => kout Diverge
  | S k' =>
      h ← kget;
      if hsize (h_mem h) p >=? nunits then carve nunits prevp p
      else if p =? h_freep h then
        p ← morecore fuel nunits;
        if p =? 0 then mret 0
        else
          h ← kget;
          malloc_loop k' fuel nunits p (hptr (h_mem h) p)
      else malloc_loop k' fuel nunits p (hptr (h_mem h) p)
  end.

Definition malloc (fuel : nat) (nbytes : Z) : K heap Z :=
  let nunits := u32 (u32 (nbytes + SIZEOF_Header - 1) / SIZEOF_Header + 1) in
  h ← kget;
  kwhen (h_freep h =? 0)
    (kmod (fun h => mkHeap (set_size (set_ptr (h_mem h) base base) base 0) base (h_brk h)));;
  h ← kget;
  malloc_loop fuel fuel nunits (h_freep h) (hptr (h_mem h) (h_freep h)).

(** *** The blocks of the heap, in the order of their addresses *)

Record block := mkBlock {
  b_at : Z;
  b_units : Z;
  b_free : bool
}.

Definition b_end (b : block) : Z := b_at b + 8 * b_units b.

(** The blocks lie between [lo] and [hi] and do not overlap. *)
Fixpoint laid (lo : Z) (B : list block) (hi : Z) : Prop :=
  match B with
  | [] => lo ≤ hi
  | b :: B' => lo ≤ b_at b ∧ 1 ≤ b_units b ∧ laid (b_end b) B' hi
  end.

(** Every header has the size of its block, and from [p] on the links go through the free
    blocks to [e]. *)
Fixpoint fchain (m : mem) (p : Z) (B : list block) (e : Z) : Prop :=
  match B with
  | [] => hptr m p = e
  | b :: B' =>
      hsize m (b_at b) = b_units b ∧
      if b_free b then hptr m p = b_at b ∧ fchain m (b_at b) B' e else fchain m p B' e
  end.

Fixpoint lastfree (p : Z) (B : list block) : Z :=
  match B with
  | [] => p
  | b :: B' => lastfree (if b_free b then b_at b else p) B'
  end.

Fixpoint firstfree (B : list block) (e : Z) : Z :=
  match B with
  | [] => e
  | b :: B' => if b_free b then b_at b else firstfree B' e
  end.

(** Free blocks are never adjacent. *)
Definition parted (a b : block) : Prop :=
  ¬ (b_free a = true ∧ b_free b = true ∧ b_end a = b_at b).
Fixpoint merged (B : list block) : Prop :=
  match B with
  | a :: (b :: _) as B' => parted a b ∧ merged B'
  | _ => True
  end.

(** The blocks in use, and the units of all blocks. *)
Fixpoint live (B : list block) : list (Z * Z) :=
  match B with
  | [] => []
  | b :: B' => if b_free b then live B' else (b_at b, b_units b) :: live B'
  end.
Fixpoint units (B : list block) : Z :=
  match B with [] => 0 | b :: B' => b_units b + units B' end.

(** The allocator's state: [malloc] was never called, or the list is set up. *)
Record heap_ok (B : list block) (h : heap) : Prop := {
  ho_base : 0 < base;
  ho_laid : laid (base + 8) B (h_brk h);
  ho_brk : h_brk h ≤ KERNBASE;
  ho_merged : merged B;
  ho_list : h_freep h = 0 ∧ B = [] ∨
    fchain (h_mem h) base B base ∧ hsize (h_mem h) base = 0 ∧
    (h_freep h = base ∨ ∃ b, b ∈ B ∧ b_free b = true ∧ h_freep h = b_at b)
}.

(** The contents of the blocks are the same. *)
Definition keeps (l : list (Z * Z)) (m m' : mem) : Prop :=
  ∀ a n x, (a, n) ∈ l → a + 8 ≤ x < a + 8 * n → m' x = m x.

(** Only the header at [a] differs. *)
Definition outside (a : Z) (m m' : mem) : Prop := ∀ x, x < a ∨ a + 8 ≤ x → m' x = m x.

(** The block at [a] of [n] units, between the blocks [X] and [Y], has become free; [p] is
    the free block before it, or the list head. *)
Definition freed (m : mem) (p a n : Z) (X Y : list block) (hi : Z) : Prop :=
  ∃ B, fchain m base B base ∧ hsize m base = 0 ∧
    laid (base + 8) B hi ∧ live B = live X ++ live Y ∧ units B = units X + n + units Y ∧
    (merged X → merged (mkBlock a n true :: Y) → merged B) ∧
    (∃ b, b ∈ B ∧ b_free b = true ∧ b_at b ≤ a ∧ a + 8 * n ≤ b_end b) ∧
    (p = base ∨ ∃ b, b ∈ B ∧ b_free b = true ∧ p = b_at b) ∧
    (length B ≤ S (length X + length Y))%nat.

(** What [carve] leaves: the [k] units at [r] are in use, and they come from a free block. *)
Definition carved (k : Z) (X : list block) (a n : Z) (Y : list block) (h : heap) (v : Z) (h' : heap) : Prop :=
  ∃ B r, v = r + 8 ∧ heap_ok B h' ∧ live B ≡ₚ (r, k) :: live X ++ live Y ∧
    units B = units X + n + units Y ∧ a ≤ r ∧ r + 8 * k ≤ a + 8 * n ∧
    keeps (live X ++ live Y) (h_mem h) (h_mem h') ∧ h_brk h' = h_brk h.

(** [malloc] has given out a block of [k] units at [a]: it overlaps no other block in use,
    and the contents of these are as before. *)
Definition allocated (B : list block) (h : heap) (k v : Z) (h' : heap) : Prop :=
  ∃ B' a, v = a + 8 ∧ heap_ok B' h' ∧ live B' ≡ₚ (a, k) :: live B ∧
    base + 8 ≤ a ∧ a + 8 * k ≤ h_brk h' ∧
    (∀ a' n', (a', n') ∈ live B → a' + 8 * n' ≤ a ∨ a + 8 * k ≤ a') ∧
    keeps (live B) (h_mem h) (h_mem h').

(** The kernel does not extend the heap by [nu] units. *)
Definition refused (brk nu : Z) : Prop :=
  KERNBASE ≤ brk + 8 * nu ∨ available brk (brk + 8 * nu) = false.

(** Two headers that do not overlap. *)
Definition clear_of (a b : Z) : Prop := a + 8 ≤ b ∨ b + 8 ≤ a.

(** ** Lemmas *)

(** *** Headers *)

Lemma hptr_set_ptr m a v : 0 ≤ v < 4294967296 → hptr (set_ptr m a v) a = v.
Proof. intros Hv. unfold hptr, set_ptr. rewrite <- (u32_small v Hv) at 1. by rewrite load32_store32, u32_small. Qed.

Lemma hsize_set_size m a v : 0 ≤ v < 4294967296 → hsize (set_size m a v) a = v.
Proof. intros Hv. unfold hsize, set_size. rewrite <- (u32_small v Hv) at 1. by rewrite load32_store32, u32_small. Qed.

Lemma hptr_set_size m a v : hptr (set_size m a v) a = hptr m a.
Proof. apply load32_store32_ne. lia. Qed.

Lemma hsize_set_ptr m a v : hsize (set_ptr m a v) a = hsize m a.
Proof. apply load32_store32_ne. lia. Qed.

Lemma set_ptr_outside m a v : outside a m (set_ptr m a v).
Proof. intros x Hx. unfold set_ptr, store32, mupd. repeat (bool_case; try lia). Qed.

Lemma set_size_outside m a v : outside a m (set_size m a v).
Proof. intros x Hx. unfold set_size, store32, mupd. repeat (bool_case; try lia). Qed.

Lemma outside_trans a m m' m'' : outside a m m' → outside a m' m'' → outside a m m''.
Proof. intros H H' x Hx. by rewrite H', H. Qed.

Lemma hptr_outside a b m m' : outside a m m' → clear_of a b → hptr m' b = hptr m b.
Proof. intros H Hc. unfold clear_of in Hc. unfold hptr, load32. rewrite !H by lia. done. Qed.

Lemma hsize_outside a b m m' : outside a m m' → clear_of a b → hsize m' b = hsize m b.
Proof. intros H Hc. unfold clear_of in Hc. unfold hsize, load32. rewrite !H by lia. done. Qed.

(** *** Layout *)

Lemma laid_app lo X Y hi : laid lo (X ++ Y) hi ↔ ∃ mid, laid lo X mid ∧ laid mid Y hi.
Proof using Type.
  clear base available.
  revert lo; induction X as [|b X IH]; intros lo; cbn.
  - split; [intros H; by exists lo|]. intros (mid & Hm & H). destruct Y as [|b Y]; cbn in *; [lia|]. split; [lia | apply H].
  - rewrite IH. naive_solver.
Qed.

Lemma laid_mono lo lo' X hi hi' : lo' ≤ lo → hi ≤ hi' → laid lo X hi → laid lo' X hi'.
Proof.
  revert lo lo'; induction X as [|b X IH]; intros lo lo' Hl Hh; cbn; [lia|].
  intros (? & ? & H). split_and!; [lia | lia |]. by apply (IH (b_end b)).
Qed.

Lemma laid_le lo X hi : laid lo X hi → lo ≤ hi.
Proof. revert lo; induction X as [|b X IH]; intros lo; cbn; [done|]. intros (? & ? & H%IH). unfold b_end in H. lia. Qed.

Lemma laid_block lo X hi b : laid lo X hi → b ∈ X → lo ≤ b_at b ∧ 1 ≤ b_units b ∧ b_end b ≤ hi.
Proof.
  intros H (X1 & X2 & ->)%list_elem_of_split. apply laid_app in H as (mid & H1 & H2 & H3 & H4).
  apply laid_le in H1, H4. lia.
Qed.

Lemma lastfree_app p X Y : lastfree p (X ++ Y) = lastfree (lastfree p X) Y.
Proof. revert p; induction X as [|b X IH]; intros p; [done|]. apply IH. Qed.

Lemma lastfree_cases p X : lastfree p X = p ∨ ∃ b, b ∈ X ∧ b_free b = true ∧ lastfree p X = b_at b.
Proof.
  revert p; induction X as [|b X IH]; intros p; [by left|]. cbn.
  destruct (IH (if b_free b then b_at b else p)) as [->|(c & Hc & Hf & ->)].
  - destruct (b_free b) eqn:E; [right | by left]. exists b. split_and!; [left | done | done].
  - right. exists c. split_and!; [by right | done | done].
Qed.

Lemma lastfree_range lo X hi p :
  laid lo X hi → p + 8 ≤ lo → lastfree p X = p ∨ lo ≤ lastfree p X ∧ lastfree p X + 8 ≤ hi.
Proof.
  intros H Hp. destruct (lastfree_cases p X) as [->|(b & Hb & _ & ->)]; [by left|]. right.
  apply (laid_block _ _ _ _ H) in Hb. unfold b_end in Hb. lia.
Qed.

Lemma firstfree_range lo X hi e :
  laid lo X hi → firstfree X e = e ∨ lo ≤ firstfree X e ∧ firstfree X e + 8 ≤ hi.
Proof.
  revert lo; induction X as [|b X IH]; intros lo; [by left|]. cbn. intros (Hb & Hu & H). pose proof (laid_le _ _ _ H) as He.
  unfold b_end in *. destruct (b_free b); [right; lia|]. destruct (IH _ H) as [?|?]; [by left | right; lia].
Qed.

Lemma laid_disjoint lo X hi b c :
  laid lo X hi → b ∈ X → c ∈ X → b = c ∨ b_end b ≤ b_at c ∨ b_end c ≤ b_at b.
Proof.
  revert lo; induction X as [|x X IH]; intros lo; cbn; [by intros _ ?%not_elem_of_nil|].
  intros (_ & _ & H). rewrite !elem_of_cons. intros [->|Hb] [->|Hc]; [by left | | | by eapply IH].
  - apply (laid_block _ _ _ _ H) in Hc. right. left. lia.
  - apply (laid_block _ _ _ _ H) in Hb. right. right. lia.
Qed.

(** A free block right at the start is the first block. *)
Lemma firstfree_start lo Y hi e :
  laid lo Y hi → firstfree Y e = lo → e < lo → ∃ n Y', Y = mkBlock lo n true :: Y'.
Proof.
  destruct Y as [|[a n [|]] Y]; cbn; intros H E He; [lia | |].
  - rewrite E. by eexists _, _.
  - destruct H as (Ha & Hn & H). apply (firstfree_range _ _ _ e) in H. unfold b_end in H. cbn in *. lia.
Qed.

(** The last free block, if it ends where the others do, is the last block. *)
Lemma lastfree_end lo X hi p b :
  laid lo X hi → b ∈ X → lastfree p X = b_at b → b_end b = hi → ∃ X', X = X' ++ [b].
Proof.
  intros H Hb _ He. apply list_elem_of_split in Hb as (X1 & X2 & ->). apply laid_app in H as (mid & _ & _ & _ & H).
  destruct X2 as [|c X2]; [by exists X1|]. destruct H as (H1 & H2 & H3%laid_le). unfold b_end in *. lia.
Qed.

Lemma fchain_first m p X e : fchain m p X e → hptr m p = firstfree X e.
Proof. revert p; induction X as [|b X IH]; intros p; [done|]. cbn. destruct (b_free b); [by intros (_ & ? & _) | intros [_ ?]; auto]. Qed.

Lemma fchain_app m p X Y e :
  fchain m p (X ++ Y) e ↔ fchain m p X (firstfree Y e) ∧ fchain m (lastfree p X) Y e.
Proof using Type.
  clear base available.
  revert p; induction X as [|b X IH]; intros p; cbn.
  - split; [intros H; split; [by apply fchain_first | done] | by intros [_ ?]].
  - destruct (b_free b); rewrite IH; naive_solver.
Qed.

Lemma fchain_size m p X e b : fchain m p X e → b ∈ X → hsize m (b_at b) = b_units b.
Proof.
  intros H (X1 & X2 & ->)%list_elem_of_split. apply fchain_app in H as [_ H]. by destruct H.
Qed.

Lemma fchain_ext m m' p p' X e :
  fchain m p X e → hptr m' p' = hptr m p →
  (∀ b, b ∈ X → hsize m' (b_at b) = hsize m (b_at b) ∧ hptr m' (b_at b) = hptr m (b_at b)) →
  fchain m' p' X e.
Proof.
  revert p p'; induction X as [|b X IH]; intros p p' H E Hx; cbn in *; [congruence|].
  destruct (Hx b ltac:(left)) as [-> Hp]. destruct H as [-> H]. split; [done|].
  assert (Hx' : ∀ c, c ∈ X → hsize m' (b_at c) = hsize m (b_at c) ∧ hptr m' (b_at c) = hptr m (b_at c))
    by (intros; apply Hx; by right).
  destruct (b_free b); [destruct H as [? H]; split; [congruence|] |]; by eapply IH.
Qed.

(** A change of the header at [a] does not touch a chain away from it. *)
Lemma fchain_outside m m' a p X e :
  fchain m p X e → outside a m m' → clear_of a p → (∀ b, b ∈ X → clear_of a (b_at b)) → fchain m' p X e.
Proof.
  intros H Ho Hp Hx. eapply fchain_ext; [done | by eapply hptr_outside |].
  intros b Hb. split; [by eapply hsize_outside; eauto | by eapply hptr_outside; eauto].
Qed.

(** The blocks above [lo] linked from another place. *)
Lemma fchain_moved lo hi m m' a p p' Y e :
  fchain m p Y e → laid lo Y hi → outside a m m' → clear_of a lo → a ≤ lo → hptr m' p' = hptr m p →
  fchain m' p' Y e.
Proof.
  intros H Hl Ho Hc Ha E. eapply fchain_ext; [exact H | exact E |]. intros b Hb.
  apply (laid_block _ _ _ _ Hl) in Hb.
  split; [eapply hsize_outside | eapply hptr_outside]; try exact Ho; unfold clear_of in *; lia.
Qed.

(** The last link changed. *)
Lemma fchain_set_end lo m p X hi e e' :
  fchain m p X e → laid lo X hi → p + 8 ≤ lo → 0 ≤ e' < 4294967296 →
  fchain (set_ptr m (lastfree p X) e') p X e'.
Proof.
  revert lo p; induction X as [|b X IH]; intros lo p H Hl Hp He; cbn in *; [by apply hptr_set_ptr|].
  destruct H as [Hs H], Hl as (Hlo & Hu & Hl). pose proof (set_ptr_outside m) as Ho.
  destruct (b_free b).
  - pose proof (lastfree_range _ _ _ (b_at b) Hl) as Hr. unfold b_end in *.
    destruct H as [Hpb H]. split_and!; [| |by apply (IH (b_end b)); [..|unfold b_end; lia|]].
    + destruct Hr as [-> | Hr]; [lia | by rewrite hsize_set_ptr |].
      rewrite (hsize_outside _ _ _ _ (Ho _ _)); [done | unfold clear_of; lia].
    + rewrite (hptr_outside _ _ _ _ (Ho _ _)); [done | unfold clear_of; lia].
  - pose proof (lastfree_range _ _ _ p Hl) as Hr. unfold b_end in *.
    split; [|by apply (IH (b_end b)); [..|unfold b_end; lia|]].
    rewrite (hsize_outside _ _ _ _ (Ho _ _)); [done | unfold clear_of; lia].
Qed.

(** *** Merging *)

Lemma merged_app X b Y : merged (X ++ b :: Y) ↔ merged (X ++ [b]) ∧ merged (b :: Y).
Proof using Type.
  clear base available.
  induction X as [|a X IH]; [cbn; naive_solver|]. destruct X as [|c X]; [cbn; naive_solver|].
  assert (E : ∀ Z, merged (a :: c :: Z) ↔ parted a c ∧ merged (c :: Z)) by done.
  rewrite <- !app_comm_cons in *. rewrite !E, IH. naive_solver.
Qed.

(** The last block may grow, or become used. *)
Lemma merged_last X b b' :
  b_at b' = b_at b → (b_free b' = true → b_free b = true) → merged (X ++ [b]) → merged (X ++ [b']).
Proof using Type.
  clear base available.
  intros Ha Hf. induction X as [|a X IH]; [done|]. destruct X as [|c X].
  - intros [H _]. split; [|done]. unfold parted in *. rewrite Ha. naive_solver.
  - intros [H1 H2]. split; [done | by apply IH].
Qed.

Lemma merged_snoc X b :
  merged X → (∀ a X', X = X' ++ [a] → parted a b) → merged (X ++ [b]).
Proof.
  induction X as [|a X IH]; [done|]. intros H Hp. destruct X as [|c X].
  - split; [by apply (Hp a []) | done].
  - destruct H as [H1 H2]. split; [done|]. apply IH; [done|]. intros d X' E. apply (Hp d (a :: X')). by rewrite E.
Qed.

Lemma live_app X Y : live (X ++ Y) = live X ++ live Y.
Proof. induction X as [|b X IH]; [done|]. cbn. destruct (b_free b); [done|]. cbn. by f_equal. Qed.

Lemma units_app X Y : units (X ++ Y) = units X + units Y.
Proof. induction X as [|b X IH]; cbn; lia. Qed.

Lemma live_elem B a n : (a, n) ∈ live B → mkBlock a n false ∈ B.
Proof.
  induction B as [|[a' n' [|]] B IH]; cbn; [by intros ?%not_elem_of_nil | intros; right; auto |].
  rewrite elem_of_cons. intros [[= -> ->]|?]; [left | right; auto].
Qed.

(** *** [free] *)

(** The search from a free block before [a], or from the list head. *)
Lemma free_find_before fuel m a p X lo q :
  fchain m p X q → laid lo X a → p + 8 ≤ lo → base ≤ p → a < q ∨ q = base →
  (length X < fuel)%nat → free_find fuel m a p = Ok (lastfree p X).
Proof.
  revert fuel p lo. induction X as [|b X IH]; intros [|fuel] p lo H Hl Hp Hb Hq Hf; cbn in Hf; try lia; cbn in H, Hl.
  - cbn. rewrite H, !Z.gtb_ltb, Z.geb_leb. destruct (Z.ltb_spec p a); [|lia]. cbn.
    destruct (Z.ltb_spec a q), (Z.leb_spec q p); cbn; lia || done.
  - destruct H as [_ H], Hl as (Hlo & Hu & Hl). cbn [lastfree]. destruct (b_free b).
    + destruct H as [E H]. pose proof (laid_le _ _ _ Hl) as He. unfold b_end in *. cbn [free_find]. rewrite E, !Z.gtb_ltb, Z.geb_leb.
      destruct (Z.ltb_spec p a); [|lia]. destruct (Z.ltb_spec a (b_at b)); [lia|]. destruct (Z.leb_spec (b_at b) p); [lia|].
      cbn. apply (IH _ _ (b_end b)); [done | done | unfold b_end; lia | lia | done | lia].
    + apply (IH _ _ (b_end b)); [done | done | unfold b_end; lia | lia | done | cbn in *; lia].
Qed.

(** The search from a free block after [a] gets to the list head. *)
Lemma free_find_after fuel m a p Y lo hi v :
  fchain m p Y base → laid lo Y hi → p + 8 ≤ lo → base < a < p →
  (∀ f, (fuel ≤ f)%nat → free_find f m a base = Ok v) →
  ∀ f, (fuel + length Y < f)%nat → free_find f m a p = Ok v.
Proof.
  intros H Hl Hp Ha Hv. revert p lo H Hl Hp Ha. induction Y as [|b Y IH]; intros p lo H Hl Hp Ha [|f] Hf; cbn in Hf; try lia; cbn in H, Hl.
  - cbn [free_find]. rewrite H, !Z.gtb_ltb, Z.geb_leb. destruct (Z.ltb_spec p a); [lia|]. destruct (Z.leb_spec base p); [|lia].
    destruct (Z.ltb_spec a base); [lia|]. cbn. apply Hv. lia.
  - destruct H as [_ H], Hl as (Hlo & Hu & Hl). destruct (b_free b).
    + destruct H as [E H]. unfold b_end in *. cbn [free_find]. rewrite E, !Z.gtb_ltb, Z.geb_leb.
      destruct (Z.ltb_spec p a); [lia|]. destruct (Z.leb_spec (b_at b) p); [lia|]. cbn.
      apply (IH _ (b_end b)); [done | done | unfold b_end; lia | lia | lia].
    + apply (IH _ (b_end b)); [done | done | unfold b_end; lia | lia | lia].
Qed.

Lemma free_find_ok fuel m X b Y hi freep :
  fchain m base (X ++ b :: Y) base → laid (base + 8) (X ++ b :: Y) hi → b_free b = false →
  (freep = base ∨ ∃ c, c ∈ X ++ b :: Y ∧ b_free c = true ∧ freep = b_at c) →
  (length X + length Y + 2 < fuel)%nat →
  free_find fuel m (b_at b) freep = Ok (lastfree base X).
Proof.
  intros H Hl Hb Hfp Hf. apply fchain_app in H as [HX HY]. cbn in HX, HY. rewrite Hb in HX, HY.
  destruct HY as [_ HY]. apply laid_app in Hl as (mid & HlX & Hmid & Hu & HlY).
  assert (HlX' : laid (base + 8) X (b_at b)) by by eapply laid_mono; [| |exact HlX].
  pose proof (laid_le _ _ _ HlX') as Hba.
  assert (Hq : b_at b < firstfree Y base ∨ firstfree Y base = base)
    by (destruct (firstfree_range _ _ _ base HlY) as [?|?]; [by right | left; unfold b_end in *; lia]).
  assert (Hbase : ∀ f, (S (length X) ≤ f)%nat → free_find f m (b_at b) base = Ok (lastfree base X))
    by (intros f Hf'; eapply free_find_before; [done | done | lia | lia | done | lia]).
  destruct Hfp as [->|(c & Hc & Hcf & ->)]; [apply Hbase; lia|].
  apply elem_of_app in Hc as [Hc|Hc]; [|apply elem_of_cons in Hc as [->|Hc]; [congruence|]].
  - apply list_elem_of_split in Hc as (X1 & X2 & ->). apply fchain_app in HX as [_ HX]. cbn in HX. rewrite Hcf in HX.
    destruct HX as (_ & _ & HX). apply laid_app in HlX' as (mid' & H1 & H2 & H3 & H4). apply laid_le in H1.
    rewrite lastfree_app. cbn. rewrite Hcf. rewrite length_app in Hf. cbn in Hf.
    eapply free_find_before; [done | done | unfold b_end; lia | lia | done | lia].
  - apply list_elem_of_split in Hc as (Y1 & Y2 & ->). apply fchain_app in HY as [_ HY]. cbn in HY. rewrite Hcf in HY.
    destruct HY as (_ & _ & HY). apply laid_app in HlY as (mid' & H1 & H2 & H3 & H4). apply laid_le in H1.
    rewrite length_app in Hf. cbn in Hf. unfold b_end in H1.
    eapply (free_find_after _ m (b_at b) (b_at c) Y2); [done | done | unfold b_end; lia | lia | exact Hbase | lia].
Qed.

Lemma free_next_outside m a p : outside a m (free_next m a p).
Proof.
  unfold free_next. destruct (_ =? _); [|apply set_ptr_outside].
  eapply outside_trans; [apply set_size_outside | apply set_ptr_outside].
Qed.

Lemma free_prev_outside m a p : outside p m (free_prev m a p).
Proof.
  unfold free_prev. destruct (_ =? _); [|apply set_ptr_outside].
  eapply outside_trans; [apply set_size_outside | apply set_ptr_outside].
Qed.

Lemma hadd_small p n : 0 ≤ p + 8 * n < 4294967296 → hadd p n = p + 8 * n.
Proof. apply u32_small. Qed.

(** Joining with the next block. *)
Lemma free_next_ok m p a n Y hi :
  fchain m p Y base → hsize m a = n → laid (a + 8 * n) Y hi → hi ≤ KERNBASE → 0 < base →
  base + 8 ≤ a → 1 ≤ n → p + 8 ≤ a →
  ∃ n' Y', hsize (free_next m a p) a = n' ∧ 1 ≤ n' ∧ fchain (free_next m a p) a Y' base ∧
    laid (a + 8 * n') Y' hi ∧ live Y' = live Y ∧ n' + units Y' = n + units Y ∧
    (merged Y → merged (mkBlock a n' true :: Y')) ∧ n ≤ n' ∧ (length Y' ≤ length Y)%nat.
Proof.
  intros H Hs Hl Hhi Hb0 Hb Hn Hp. unfold KERNBASE in Hhi. pose proof (laid_le _ _ _ Hl) as Hle.
  pose proof (free_next_outside m a p) as Ho. revert Ho. pose proof (fchain_first _ _ _ _ H) as Hq.
  unfold free_next. rewrite Hs, hadd_small, Hq by lia. destruct (Z.eqb_spec (a + 8 * n) (firstfree Y base)) as [E|E]; intros Ho.
  - destruct (firstfree_start _ _ _ _ Hl (eq_sym E)) as (nq & Y2 & ->); [lia|]. cbn [firstfree b_free b_at].
    destruct H as (Hsq & Hpq & H), Hl as (_ & Hnq & Hl). cbn in *. unfold b_end in Hl. cbn in Hl.
    pose proof (laid_le _ _ _ Hl) as Hle2. set (q := a + 8 * n) in *.
    assert (Hqa : clear_of a q) by (unfold clear_of; lia).
    assert (Epq : hptr (set_size m a (u32 (n + hsize m q))) p = q).
    { rewrite (hptr_outside a p _ _ (set_size_outside _ _ _)); [done | unfold clear_of; lia]. }
    rewrite Epq in *. rewrite (hptr_outside a q _ _ (set_size_outside _ _ _) Hqa) in *.
    rewrite Hsq, u32_small in * by lia. exists (n + nq), Y2. split_and!.
    + by rewrite hsize_set_ptr, hsize_set_size by lia.
    + lia.
    + eapply fchain_moved; [exact H | exact Hl | exact Ho | unfold clear_of; lia | lia |].
      pose proof (firstfree_range _ _ _ base Hl). rewrite (fchain_first _ _ _ _ H). apply hptr_set_ptr. lia.
    + by replace (a + 8 * (n + nq)) with (q + 8 * nq) by (unfold q; lia).
    + done.
    + lia.
    + destruct Y2 as [|c Y2]; [done|]. unfold parted, b_end. cbn. intros [Hp1 Hm]. split; [|done].
      intros (_ & Hc & Ec). apply Hp1. split_and!; [done | done | lia].
    + lia.
    + cbn. lia.
  - exists n, Y. split_and!.
    + by rewrite hsize_set_ptr.
    + done.
    + eapply fchain_moved; [exact H | exact Hl | exact Ho | unfold clear_of; lia | lia |].
      pose proof (firstfree_range _ _ _ base Hl). rewrite Hq. apply hptr_set_ptr. lia.
    + done.
    + done.
    + done.
    + destruct Y as [|c Y]; [done|]. intros Hm. split; [|done]. intros (_ & Hc & Ec). cbn in E, Ec. rewrite Hc in E.
      unfold b_end in Ec. cbn in Ec. lia.
    + lia.
    + done.
Qed.

(** Joining with the block before, which ends at [a]. *)
Lemma free_prev_joins m a n X b Y hi e :
  fchain m base (X ++ [b]) e → hsize m base = 0 → fchain m a Y base → hsize m a = n →
  laid (base + 8) (X ++ [b]) a → laid (a + 8 * n) Y hi → hi ≤ KERNBASE → 0 < base → 1 ≤ n →
  b_free b = true → b_end b = a →
  freed (free_prev m a (b_at b)) (b_at b) a n (X ++ [b]) Y hi.
Proof.
  intros HX Hs0 HY Hs HlX HlY Hhi Hb0 Hn Hbf Eb. unfold KERNBASE in Hhi.
  pose proof (laid_le _ _ _ HlY) as Hh. pose proof (free_prev_outside m a (b_at b)) as Ho. revert Ho. unfold free_prev.
  assert (En : hsize m (b_at b) = b_units b)
    by (apply (fchain_size _ _ _ _ _ HX), elem_of_app; right; left).
  apply fchain_app in HX as [HX1 HX2]. cbn in HX1, HX2. rewrite Hbf in HX1, HX2. destruct HX2 as (_ & Hpb & _).
  apply laid_app in HlX as (mid & HlX1 & Hmid & Hub & _). unfold b_end in Eb.
  assert (HlX1' : laid (base + 8) X (b_at b)) by by eapply laid_mono; [| |exact HlX1].
  pose proof (lastfree_range _ _ _ base HlX1') as Hr. pose proof (laid_le _ _ _ HlX1') as Hle1.
  rewrite hadd_small, En, Hs by lia. destruct (Z.eqb_spec (b_at b + 8 * b_units b) a) as [_|]; [|lia]. rewrite u32_small by lia.
  assert (Hca : clear_of (b_at b) a) by (unfold clear_of; lia).
  rewrite (hptr_outside _ a _ _ (set_size_outside _ _ _) Hca). intros Ho.
  exists (X ++ mkBlock (b_at b) (b_units b + n) true :: Y). split_and!.
  - apply fchain_app. cbn. split_and!.
    + eapply fchain_outside; [exact HX1 | exact Ho | unfold clear_of; lia |]. intros c Hc.
      apply (laid_block _ _ _ _ HlX1') in Hc. unfold clear_of, b_end in *. lia.
    + rewrite hsize_set_ptr. apply hsize_set_size. lia.
    + rewrite (hptr_outside _ _ _ _ Ho); [done | unfold clear_of; lia].
    + eapply fchain_moved; [exact HY | exact HlY | exact Ho | unfold clear_of; lia | lia |].
      pose proof (firstfree_range _ _ _ base HlY). rewrite (fchain_first _ _ _ _ HY). apply hptr_set_ptr. lia.
  - rewrite (hsize_outside _ _ _ _ Ho); [done | unfold clear_of; lia].
  - apply laid_app. exists mid. split; [done|]. cbn. split_and!; [lia | lia |]. unfold b_end. cbn.
    by replace (b_at b + 8 * (b_units b + n)) with (a + 8 * n) by lia.
  - rewrite !live_app. cbn. by rewrite Hbf, app_nil_r.
  - rewrite !units_app. cbn. lia.
  - intros Hm1 Hm2. apply merged_app. split; [by eapply (merged_last _ b)|].
    destruct Y as [|c Y]; [done|]. destruct Hm2 as [Hm2 Hm3]. split; [|done]. unfold parted, b_end in *. cbn in *.
    intros (_ & Hc & Ec). apply Hm2. split_and!; [done | done | lia].
  - eexists. split; [apply elem_of_app; right; left|]. unfold b_end. cbn. split_and!; [done | lia | lia].
  - right. eexists. split; [apply elem_of_app; right; left|]. done.
  - rewrite !length_app. cbn. lia.
Qed.

(** Linking after the last free block before [a]. *)
Lemma free_prev_links m a n X Y hi e (p := lastfree base X) :
  fchain m base X e → hsize m base = 0 → fchain m a Y base → hsize m a = n →
  laid (base + 8) X a → laid (a + 8 * n) Y hi → hi ≤ KERNBASE → 0 < base → 1 ≤ n →
  0 ≤ hsize m p → p + 8 * hsize m p < a →
  freed (free_prev m a p) p a n X Y hi.
Proof.
  intros HX Hs0 HY Hs HlX HlY Hhi Hb0 Hn Hp0 Hpa. unfold KERNBASE in Hhi.
  pose proof (laid_le _ _ _ HlX) as Ha. pose proof (laid_le _ _ _ HlY) as Hh.
  pose proof (lastfree_range _ _ _ base HlX ltac:(lia)) as Hr. fold p in Hr.
  pose proof (free_prev_outside m a p) as Ho. revert Ho. unfold free_prev.
  rewrite hadd_small by lia. destruct (Z.eqb_spec (p + 8 * hsize m p) a); [lia|]. intros Ho.
  exists (X ++ mkBlock a n true :: Y). split_and!.
  - apply fchain_app. cbn. split_and!.
    + eapply fchain_set_end; [exact HX | exact HlX | lia | lia].
    + rewrite (hsize_outside _ _ _ _ Ho); [done | unfold clear_of; lia].
    + apply hptr_set_ptr. lia.
    + eapply fchain_moved; [exact HY | exact HlY | exact Ho | unfold clear_of; lia | lia |].
      apply (hptr_outside _ _ _ _ Ho). unfold clear_of. lia.
  - destruct Hr as [Er|Hr]; [rewrite Er, hsize_set_ptr; exact Hs0|].
    rewrite (hsize_outside _ _ _ _ Ho); [done | unfold clear_of; lia].
  - apply laid_app. by exists a.
  - by rewrite live_app.
  - rewrite units_app. cbn. lia.
  - intros Hm1 Hm2. apply merged_app. split; [|done]. apply merged_snoc; [done|]. intros c X' -> (Hc & _ & Ec).
    unfold p in Hpa. rewrite lastfree_app in Hpa. cbn in Hpa, Ec. rewrite Hc, (fchain_size _ _ _ _ c HX) in Hpa; [unfold b_end in Ec; lia|].
    apply elem_of_app. right. left.
  - eexists. split; [apply elem_of_app; right; left|]. unfold b_end. cbn. split_and!; [done | lia | lia].
  - destruct (lastfree_cases base X) as [?|(b & Hb & Hbf & E)]; [by left | right]. exists b.
    split_and!; [apply elem_of_app; by left | done | done].
  - rewrite !length_app. cbn. lia.
Qed.

Lemma free_prev_ok m a n X Y hi e (p := lastfree base X) :
  fchain m base X e → hsize m base = 0 → fchain m a Y base → hsize m a = n →
  laid (base + 8) X a → laid (a + 8 * n) Y hi → hi ≤ KERNBASE → 0 < base → 1 ≤ n →
  freed (free_prev m a p) p a n X Y hi.
Proof.
  intros HX Hs0 HY Hs HlX HlY Hhi Hb0 Hn. pose proof (laid_le _ _ _ HlX) as Ha.
  destruct (lastfree_cases base X) as [E|(b & Hb & Hbf & E)]; fold p in E.
  - apply (free_prev_links m a n X Y hi e); fold p; rewrite ?E, ?Hs0; done || lia.
  - pose proof (fchain_size _ _ _ _ _ HX Hb) as Hu. pose proof (laid_block _ _ _ _ HlX Hb) as (_ & Hu1 & He).
    destruct (decide (b_end b = a)) as [Ea|Ea].
    + rewrite E. destruct (lastfree_end _ _ _ base b HlX Hb E Ea) as [X1 ->]. by eapply free_prev_joins.
    + apply (free_prev_links m a n X Y hi e); fold p; rewrite ?E, ?Hu; unfold b_end in *; done || lia.
Qed.

(** Changes of headers of other blocks keep the contents of the blocks in use. *)
Lemma keeps_outside lo B hi a m m' :
  laid lo B hi → outside a m m' → (a + 8 ≤ lo ∨ ∃ b, b ∈ B ∧ b_at b = a) → keeps (live B) m m'.
Proof.
  intros Hl Ho Ha a' n' x Hin%live_elem Hx. apply Ho. pose proof (laid_block _ _ _ _ Hl Hin) as (H1 & H2 & H3).
  unfold b_end in *. cbn in *. destruct Ha as [?|(b & Hb & <-)]; [lia|].
  destruct (laid_disjoint _ _ _ _ _ Hl Hin Hb) as [<-|Hd]; cbn in *; [lia|].
  pose proof (laid_block _ _ _ _ Hl Hb). unfold b_end in *. cbn in *. lia.
Qed.

Lemma keeps_trans l m m' m'' : keeps l m m' → keeps l m' m'' → keeps l m m''.
Proof. intros H H' a n x Hin Hx. by rewrite (H' a n), (H a n). Qed.

Lemma keeps_incl l l' m m' : (∀ x, x ∈ l' → x ∈ l) → keeps l m m' → keeps l' m m'.
Proof. intros Hi H a n x Hin. by apply (H a n), Hi. Qed.

Lemma free_rule fuel X a n Y h (Q : unit → heap → Prop) :
  heap_ok (X ++ mkBlock a n false :: Y) h → (length X + length Y + 2 < fuel)%nat →
  (∀ B h', heap_ok B h' → h_freep h' ≠ 0 → live B = live X ++ live Y →
     units B = units X + n + units Y → (length B ≤ S (length X + length Y))%nat →
     (∃ b, b ∈ B ∧ b_free b = true ∧ n ≤ b_units b) →
     keeps (live B) (h_mem h) (h_mem h') → h_brk h' = h_brk h → Q tt h') →
  runs (free fuel (a + 8)) h Q.
Proof.
  intros [Hb0 Hl Hbrk Hm Hlist] Hfuel HQ.
  destruct Hlist as [[_ E]|(Hc & Hs0 & Hfp)]; [by destruct X|].
  pose proof Hl as Hl0. apply laid_app in Hl0 as (mid & HlX & Hmid & Hn & HlY). cbn in Hmid, Hn, HlY. unfold b_end in HlY. cbn in HlY.
  assert (HlX' : laid (base + 8) X a) by by eapply laid_mono; [| |exact HlX].
  pose proof (laid_le _ _ _ HlX') as Ha. pose proof (laid_le _ _ _ HlY) as Hh. unfold KERNBASE in Hbrk.
  unfold free. apply runs_bind, runs_get. rewrite hadd_small by lia. replace (a + 8 + 8 * -1) with a by lia.
  assert (Ef : free_find fuel (h_mem h) a (h_freep h) = Ok (lastfree base X))
    by (eapply (free_find_ok fuel (h_mem h) X (mkBlock a n false) Y); done).
  rewrite Ef. apply runs_bind, runs_out, runs_mod. set (p := lastfree base X).
  pose proof (lastfree_range _ _ _ base HlX' ltac:(lia)) as Hp. fold p in Hp.
  apply fchain_app in Hc as [HX HY]. cbn in HX, HY. destruct HY as [Hs HY]. fold p in HY.
  destruct (free_next_ok (h_mem h) p a n Y (h_brk h)) as (n' & Y' & Hs' & Hn' & HY' & HlY' & Hlive & Hun & Hmer & Hnn & Hlen);
    [done | done | done | done | done | lia | lia | lia |].
  set (m1 := free_next (h_mem h) a p) in *. pose proof (free_next_outside (h_mem h) a p) as Ho1. fold m1 in Ho1.
  destruct (free_prev_ok m1 a n' X Y' (h_brk h) (firstfree Y base))
    as (B & HB & HB0 & HlB & HliveB & HunB & HmerB & Hbig & HpB & HlenB).
  { eapply fchain_outside; [exact HX | exact Ho1 | unfold clear_of; lia |]. intros b Hb.
    apply (laid_block _ _ _ _ HlX') in Hb. unfold clear_of, b_end in *. lia. }
  { rewrite (hsize_outside _ _ _ _ Ho1); [done | unfold clear_of; lia]. }
  all: try done.
  pose proof (free_prev_outside m1 a p) as Ho2. fold p in HB, HB0, HpB. set (m2 := free_prev m1 a p) in *.
  apply merged_app in Hm as [HmX HmY]. apply (HQ B).
  - split; cbn; [done | done | done | | right; split_and!; done]. apply HmerB.
    + clear -HmX. induction X as [|b [|c X] IH]; [done | done |]. destruct HmX. split; [done | by apply IH].
    + apply Hmer. destruct Y; [done | apply HmY].
  - cbn. lia.
  - by rewrite HliveB, Hlive.
  - rewrite HunB. lia.
  - lia.
  - destruct Hbig as (b & Hb & Hbf & H1 & H2). exists b. split_and!; [done | done | unfold b_end in H2; lia].
  - assert (Hk : keeps (live (X ++ mkBlock a n false :: Y)) (h_mem h) m2).
    { eapply keeps_trans; eapply keeps_outside; [exact Hl | exact Ho1 | | exact Hl | exact Ho2 |].
      - right. eexists. split; [apply elem_of_app; right; left | done].
      - destruct (lastfree_cases base X) as [E|(b & Hb & _ & E)]; fold p in E; [left; lia | right].
        exists b. split; [apply elem_of_app; by left | done]. }
    eapply keeps_incl; [|exact Hk]. rewrite HliveB, Hlive, live_app. cbn. clear. set_solver.
  - done.
Qed.

(** *** [malloc] *)

(** A free block of the heap: what lies around it. *)
Lemma heap_free_block X a n Y h :
  heap_ok (X ++ mkBlock a n true :: Y) h →
  laid (base + 8) X a ∧ 1 ≤ n ∧ laid (a + 8 * n) Y (h_brk h) ∧ base + 8 ≤ a ∧ a + 8 * n ≤ 2147483648 ∧
  (lastfree base X = base ∨ base + 8 ≤ lastfree base X ∧ lastfree base X + 8 ≤ a) ∧
  fchain (h_mem h) base X a ∧ hsize (h_mem h) a = n ∧ hptr (h_mem h) (lastfree base X) = a ∧
  fchain (h_mem h) a Y base ∧ hsize (h_mem h) base = 0.
Proof.
  intros [Hb0 Hl Hbrk Hm Hlist]. destruct Hlist as [[_ E]|(Hc & Hs0 & Hfp)]; [by destruct X|].
  apply laid_app in Hl as (mid & HlX & Hmid & Hn & HlY). cbn in Hmid, Hn, HlY. unfold b_end in HlY. cbn in HlY.
  assert (HlX' : laid (base + 8) X a) by by eapply laid_mono; [| |exact HlX].
  pose proof (laid_le _ _ _ HlX') as Ha. pose proof (laid_le _ _ _ HlY) as Hh. unfold KERNBASE in Hbrk.
  pose proof (lastfree_range _ _ _ base HlX' ltac:(lia)) as Hp.
  apply fchain_app in Hc as [HX HY]. cbn in HX, HY. destruct HY as (Hs & Hpa & HY). split_and!; done || lia.
Qed.

(** The blocks around it are those in use, before and after, and [freep] can be moved. *)
Lemma lastfree_freep X b Y :
  lastfree base X = base ∨ ∃ c, c ∈ X ++ b :: Y ∧ b_free c = true ∧ lastfree base X = b_at c.
Proof.
  destruct (lastfree_cases base X) as [E|(c & Hc' & Hf & E)]; [by left | right].
  exists c. split_and!; [apply elem_of_app; by left | done | done].
Qed.

(** The whole block. *)
Lemma carve_whole k X a Y h :
  heap_ok (X ++ mkBlock a k true :: Y) h →
  runs (carve k (lastfree base X) a) h (carved k X a k Y h).
Proof.
  intros H. destruct (heap_free_block _ _ _ _ _ H) as (HlX & Hn & HlY & Ha & Hh & Hp & HX & Hs & Hpa & HY & Hs0).
  pose proof H as [Hb0 Hl Hbrk Hm _]. apply merged_app in Hm as [HmX HmY]. pose proof Hbrk as Hbrk'. unfold KERNBASE in Hbrk'.
  pose proof (fchain_first _ _ _ _ HY) as Eq. pose proof (firstfree_range _ _ _ base HlY) as Hq.
  unfold carve. apply runs_bind, runs_get. rewrite Hs, Z.eqb_refl, Eq.
  apply runs_bind, runs_mod, runs_ret. rewrite hadd_small by lia. set (p := lastfree base X) in *.
  pose proof (set_ptr_outside (h_mem h) p (firstfree Y base)) as Ho.
  exists (X ++ mkBlock a k false :: Y), a. split_and!; [done | | | | done | lia | | done].
  - split; cbn; [done | | done | | right; split_and!; [| |apply lastfree_freep]].
    + apply laid_app. by exists a.
    + apply merged_app. split; [by eapply (merged_last _ (mkBlock a k true))|].
      destruct Y; [done|]. destruct HmY. split; [by intros [? _] | done].
    + apply fchain_app. cbn. split_and!.
      * eapply fchain_set_end; [exact HX | exact HlX | lia | lia].
      * rewrite (hsize_outside _ _ _ _ Ho); [done | unfold clear_of; lia].
      * eapply fchain_moved; [exact HY | exact HlY | exact Ho | unfold clear_of; lia | lia |].
        rewrite Eq. apply hptr_set_ptr. lia.
    + destruct Hp as [Hp|Hp]; [by rewrite Hp, hsize_set_ptr|].
      rewrite (hsize_outside _ _ _ _ Ho); [done | unfold clear_of; lia].
  - rewrite live_app. cbn. by rewrite Permutation_middle.
  - rewrite units_app. cbn. lia.
  - assert (keeps (live (X ++ mkBlock a k true :: Y)) (h_mem h) (set_ptr (h_mem h) p (firstfree Y base))) as Hk;
      [|by rewrite live_app in Hk].
    eapply keeps_outside; [exact Hl | exact Ho |]. destruct Hp as [Hp|_]; [left; lia|].
    destruct (lastfree_freep X (mkBlock a k true) Y) as [E|(b & Hb & _ & E)]; fold p in E; [left; lia | right].
    by exists b.
Qed.

(** The end of a larger block. *)
Lemma carve_tail k X a n Y h :
  heap_ok (X ++ mkBlock a n true :: Y) h → 1 ≤ k < n →
  runs (carve k (lastfree base X) a) h (carved k X a n Y h).
Proof.
  intros H Hk. destruct (heap_free_block _ _ _ _ _ H) as (HlX & Hn & HlY & Ha & Hh & Hp & HX & Hs & Hpa & HY & Hs0).
  pose proof H as [Hb0 Hl Hbrk Hm _]. apply merged_app in Hm as [HmX HmY]. pose proof Hbrk as Hbrk'. unfold KERNBASE in Hbrk'.
  unfold carve. apply runs_bind, runs_get. rewrite Hs. destruct (Z.eqb_spec n k); [lia|].
  rewrite u32_small by lia. rewrite hsize_set_size by lia. rewrite (hadd_small a (n - k)) by lia. set (r := a + 8 * (n - k)).
  apply runs_bind, runs_mod, runs_ret. rewrite (hadd_small r 1) by lia.
  pose proof (set_size_outside (h_mem h) a (n - k)) as Ho1. set (m1 := set_size (h_mem h) a (n - k)) in *.
  pose proof (set_size_outside m1 r k) as Ho2. set (m2 := set_size m1 r k) in *.
  exists (X ++ mkBlock a (n - k) true :: mkBlock r k false :: Y), r. split_and!; [lia | | | | lia | lia | | done].
  - split; cbn; [done | | done | | right; split_and!; [| |apply lastfree_freep]].
    + apply laid_app. exists a. split; [done|]. unfold laid, b_end; fold laid. cbn. split_and!; [lia.. |].
      by replace (r + 8 * k) with (a + 8 * n) by (unfold r; lia).
    + apply merged_app. split; [by eapply (merged_last _ (mkBlock a n true))|]. split; [by intros (_ & ? & _)|].
      destruct Y; [done|]. destruct HmY. split; [by intros [? _] | done].
    + apply fchain_app. cbn. split_and!.
      * eapply fchain_outside; [eapply fchain_outside; [exact HX | exact Ho1 | ..] | exact Ho2 | ..];
          [unfold clear_of; lia | | unfold clear_of; lia |]; intros b Hb;
          apply (laid_block _ _ _ _ HlX) in Hb; unfold clear_of, b_end in *; lia.
      * rewrite (hsize_outside r a m1 m2 Ho2) by (unfold clear_of; lia). apply hsize_set_size. lia.
      * rewrite (hptr_outside r _ m1 m2 Ho2), (hptr_outside a _ _ m1 Ho1) by (unfold clear_of; lia). done.
      * apply hsize_set_size. lia.
      * eapply (fchain_moved _ _ m1 m2 r); [eapply (fchain_moved _ _ _ m1 a a a); [exact HY | exact HlY | exact Ho1 | unfold clear_of; lia | lia | apply hptr_set_size] | exact HlY | exact Ho2 | unfold clear_of; lia | lia |].
        apply (hptr_outside _ _ _ _ Ho2). unfold clear_of. lia.
    + rewrite (hsize_outside r _ m1 m2 Ho2), (hsize_outside a _ _ m1 Ho1) by (unfold clear_of; lia). done.
  - rewrite live_app. cbn. by rewrite Permutation_middle.
  - rewrite units_app. cbn. lia.
  - intros a' n' x Hin Hx. assert (Hb : mkBlock a' n' false ∈ X ++ mkBlock a n true :: Y)
      by (apply live_elem; by rewrite live_app).
    pose proof (laid_block _ _ _ _ Hl Hb) as Hbb.
    destruct (laid_disjoint _ _ _ (mkBlock a' n' false) (mkBlock a n true) Hl Hb) as [[=]|Hd];
      [apply elem_of_app; right; left|].
    unfold b_end in *. cbn in *. rewrite Ho2, Ho1 by lia. done.
Qed.

Lemma carve_rule k X a n Y h :
  heap_ok (X ++ mkBlock a n true :: Y) h → 1 ≤ k ≤ n →
  runs (carve k (lastfree base X) a) h (carved k X a n Y h).
Proof.
  intros H Hk. destruct (decide (n = k)) as [->|]; [by apply carve_whole | apply carve_tail; [done | lia]].
Qed.

(** The walk of [malloc] through the blocks [W], from [p] to [e]. *)
Lemma malloc_scan fuel f k p W e h (Q : Z → heap → Prop) n0 :
  fchain (h_mem h) p W e → (∀ b, b ∈ W → b_free b = true → b_at b ≠ h_freep h) →
  (∀ W1 a n W2, W = W1 ++ mkBlock a n true :: W2 → k ≤ n → runs (carve k (lastfree p W1) a) h Q) →
  ((∀ b, b ∈ W → b_free b = true → b_units b < k) →
     ∀ j, (n0 ≤ j)%nat → runs (malloc_loop j f k (lastfree p W) e) h Q) →
  (n0 + length W ≤ fuel)%nat → runs (malloc_loop fuel f k p (firstfree W e)) h Q.
Proof.
  revert p fuel. induction W as [|[a n fr] W IH]; intros p fuel Hc Hfp Hfit Hend Hfuel.
  { apply Hend; [by intros b ?%not_elem_of_nil | cbn in Hfuel; lia]. }
  cbn in Hc, Hfuel. destruct Hc as [Hs Hc]. destruct fr; cbn [firstfree lastfree b_free b_at] in *.
  - destruct fuel as [|fuel]; [lia|]. cbn [malloc_loop]. apply runs_bind, runs_get. rewrite Hs, Z.geb_leb.
    destruct (Z.leb_spec k n); [by apply (Hfit [] a n W)|].
    destruct (Z.eqb_spec a (h_freep h)) as [E|_]; [by destruct (Hfp (mkBlock a n true) ltac:(left))|].
    destruct Hc as [_ Hc]. rewrite (fchain_first _ _ _ _ Hc). apply IH; [done | | | | lia].
    + intros b Hb. apply Hfp. by right.
    + intros W1 a' n' W2 ->. by apply (Hfit (mkBlock a n true :: W1) a' n' W2).
    + intros Hno. apply Hend. intros b [->|Hb]%elem_of_cons; [done | by apply Hno].
  - apply IH; [done | | | | lia].
    + intros b Hb. apply Hfp. by right.
    + intros W1 a' n' W2 ->. by apply (Hfit (mkBlock a n false :: W1) a' n' W2).
    + intros Hno. apply Hend. intros b [->|Hb]%elem_of_cons; [done | by apply Hno].
Qed.

(** One round of [malloc] from the block after [freep]: it takes the first block that is
    large enough, or asks for more memory when it is back at [freep]. *)
Lemma malloc_round fuel f k B h (Q : Z → heap → Prop) n0 :
  heap_ok B h → h_freep h ≠ 0 → 1 ≤ k →
  (∀ X a n Y, B = X ++ mkBlock a n true :: Y → k ≤ n → runs (carve k (lastfree base X) a) h Q) →
  ((∀ b, b ∈ B → b_free b = true → b_units b < k) → ∀ j, (n0 ≤ j)%nat →
     runs (p ← morecore f k;
           if p =? 0 then mret 0 else h ← kget; malloc_loop j f k p (hptr (h_mem h) p)) h Q) →
  (n0 + length B + 3 ≤ fuel)%nat →
  runs (malloc_loop fuel f k (h_freep h) (hptr (h_mem h) (h_freep h))) h Q.
Proof.
  intros [Hb0 Hl Hbrk Hm Hlist] Hfp0 Hk Hfit Hmore Hfuel.
  destruct Hlist as [[? _]|(Hc & Hs0 & Hfp)]; [done|].
  assert (Hhit : (∀ b, b ∈ B → b_free b = true → b_units b < k) →
    hsize (h_mem h) (h_freep h) < k → ∀ prev j, (S n0 ≤ j)%nat → runs (malloc_loop j f k prev (h_freep h)) h Q).
  { intros Hno Hs prev [|j] Hj; [lia|]. cbn [malloc_loop]. apply runs_bind, runs_get. rewrite Z.geb_leb, Z.eqb_refl.
    destruct (Z.leb_spec k (hsize (h_mem h) (h_freep h))); [lia|]. apply Hmore; [done | lia]. }
  assert (Hat : ∀ b, b ∈ B → base + 8 ≤ b_at b) by (intros b Hb; apply (laid_block _ _ _ _ Hl Hb)).
  destruct Hfp as [E|(b & Hb & Hbf & E)].
  - rewrite E, (fchain_first _ _ _ _ Hc). apply (malloc_scan fuel f k base B base h Q (S n0)); [done | | done | | lia].
    + intros b Hb _. specialize (Hat b Hb). lia.
    + intros Hno j Hj. rewrite <- E at 2. apply Hhit; [done | rewrite E; lia | done].
  - apply list_elem_of_split in Hb as (X & Y & ->). destruct b as [a n fr]. cbn in Hbf, E. subst fr. rewrite E in *.
    apply fchain_app in Hc as [HX HY]. cbn in HX, HY. destruct HY as (Hs & Hpa & HY).
    apply laid_app in Hl as (mid & HlX & Hmid & Hn & HlY). cbn in Hmid, Hn, HlY. rewrite length_app in Hfuel. cbn in Hfuel.
    assert (Ha : base + 8 ≤ a) by (apply (Hat (mkBlock a n true)), elem_of_app; right; left).
    rewrite (fchain_first _ _ _ _ HY). apply (malloc_scan fuel f k a Y base h Q (2 + n0 + length X)); [done | | | | lia].
    + intros c Hc _. apply (laid_block _ _ _ _ HlY) in Hc. unfold b_end in Hc. cbn in Hc. lia.
    + intros Y1 a' n' Y2 ->. pose proof (Hfit (X ++ mkBlock a n true :: Y1) a' n' Y2) as Hf. rewrite lastfree_app in Hf.
      apply Hf. by rewrite <- app_assoc.
    + intros HnoY [|j] Hj; [lia|]. cbn [malloc_loop]. apply runs_bind, runs_get. rewrite Hs0, Z.geb_leb.
      destruct (Z.leb_spec k 0); [lia|]. rewrite E. destruct (Z.eqb_spec base a); [lia|].
      rewrite (fchain_first _ _ _ _ HX). apply (malloc_scan j f k base X a h Q (S n0)); [done | | | | lia].
      * intros c Hc _. apply (laid_block _ _ _ _ HlX) in Hc. unfold b_end in Hc. lia.
      * intros X1 a' n' X2 ->. apply (Hfit X1 a' n' (X2 ++ mkBlock a n true :: Y)). by rewrite <- app_assoc.
      * intros HnoX i Hi. destruct (Z_le_gt_dec k n) as [Hkn|Hkn].
        -- destruct i as [|i]; [lia|]. cbn [malloc_loop]. apply runs_bind, runs_get. rewrite Hs, Z.geb_leb.
           destruct (Z.leb_spec k n); [|lia]. by apply (Hfit X a n Y).
        -- apply Hhit; [|lia | lia].
           intros c [Hc|[->|Hc]%elem_of_cons]%elem_of_app; [by apply HnoX | cbn; lia | by apply HnoY].
Qed.

Lemma carve_allocates B h k X a n Y h2 :
  heap_ok (X ++ mkBlock a n true :: Y) h2 → 1 ≤ k ≤ n → live X ++ live Y = live B →
  keeps (live B) (h_mem h) (h_mem h2) →
  runs (carve k (lastfree base X) a) h2 (allocated B h k).
Proof.
  intros H Hk El Hkeep. destruct (heap_free_block _ _ _ _ _ H) as (HlX & Hn & HlY & Ha & _).
  apply laid_le in HlY. eapply runs_mono; [by apply carve_rule|].
  intros v h' (B' & r & -> & H' & Hp & _ & Hr & Hrk & Hk' & Eb). exists B', r. rewrite <- El in *.
  split_and!; [done | done | done | lia | rewrite Eb; lia | | by eapply keeps_trans].
  intros a' n' Hin. assert (Hb : mkBlock a' n' false ∈ X ++ mkBlock a n true :: Y)
    by (apply live_elem; by rewrite live_app).
  destruct (laid_disjoint _ _ _ _ (mkBlock a n true) (ho_laid _ _ H) Hb) as [[=]|Hd];
    [apply elem_of_app; right; left | unfold b_end in Hd; cbn in Hd; lia].
Qed.

(** *** More memory *)

Lemma heap_grow B h nu m' :
  heap_ok B h → h_freep h ≠ 0 → 1 ≤ nu → h_brk h + 8 * nu ≤ KERNBASE →
  (∀ x, x < h_brk h → m' x = h_mem h x) →
  heap_ok (B ++ [mkBlock (h_brk h) nu false]) (mkHeap (set_size m' (h_brk h) nu) (h_freep h) (h_brk h + 8 * nu)).
Proof.
  intros [Hb0 Hl Hbrk Hm Hlist] Hfp Hnu Hroom Hm'. destruct Hlist as [[? _]|(Hc & Hs0 & Hf)]; [done|].
  pose proof (laid_le _ _ _ Hl) as Hle. unfold KERNBASE in *. set (brk := h_brk h) in *.
  assert (Hbelow : ∀ a, a + 8 ≤ brk → hptr (set_size m' brk nu) a = hptr (h_mem h) a ∧ hsize (set_size m' brk nu) a = hsize (h_mem h) a).
  { intros a Ha. pose proof (set_size_outside m' brk nu) as Ho. unfold hptr, hsize, load32. by rewrite !Ho, !Hm' by lia. }
  assert (HB : ∀ b, b ∈ B → b_at b + 8 ≤ brk)
    by (intros b Hb; apply (laid_block _ _ _ _ Hl) in Hb; unfold b_end in Hb; lia).
  split; cbn; [done | | done | |].
  - apply laid_app. exists brk. split; [done|]. unfold laid, b_end. cbn. lia.
  - apply merged_snoc; [done|]. intros a X' _ (_ & [=] & _).
  - right. split_and!.
    + rewrite <- (app_nil_r B) in Hc. apply fchain_app in Hc as [Hc1 Hc2]. cbn in Hc1, Hc2.
      apply fchain_app. cbn. split_and!.
      * eapply fchain_ext; [exact Hc1 | by apply Hbelow; lia |]. intros b Hb. destruct (Hbelow (b_at b)); auto.
      * apply hsize_set_size. lia.
      * etrans; [apply Hbelow | exact Hc2]. destruct (lastfree_cases base B) as [->|(b & Hb & _ & ->)]; [lia | auto].
    + rewrite <- Hs0. apply Hbelow. lia.
    + destruct Hf as [?|(b & Hb & ? & ?)]; [by left | right]. exists b. split_and!; [apply elem_of_app; by left | done..].
Qed.

(** The list head, set up by the first call. *)
Lemma malloc_start B h (Q : unit → heap → Prop) :
  heap_ok B h →
  (∀ h', heap_ok B h' → h_freep h' ≠ 0 → h_brk h' = h_brk h → keeps (live B) (h_mem h) (h_mem h') → Q tt h') →
  runs (kwhen (h_freep h =? 0)
    (kmod (fun h => mkHeap (set_size (set_ptr (h_mem h) base base) base 0) base (h_brk h)))) h Q.
Proof.
  intros H HQ. destruct (Z.eqb_spec (h_freep h) 0) as [E|E]; cbn [kwhen]; [|by apply runs_ret, HQ].
  pose proof H as [Hb0 Hl Hbrk Hm [[_ ->]|(_ & _ & [?|(b & Hb & _ & Eb)])]]; [| lia |].
  - pose proof (laid_le _ _ _ Hl) as Hle. unfold KERNBASE in Hbrk. apply runs_mod, HQ; cbn; [|lia | done | by intros ? ? ? ?%not_elem_of_nil].
    split; cbn; [done | done | done | done |]. right. split_and!; [|apply hsize_set_size; lia | by left].
    rewrite hptr_set_size. apply hptr_set_ptr. lia.
  - apply (laid_block _ _ _ _ Hl) in Hb. lia.
Qed.

Lemma morecore_rule f k B h (Q : Z → heap → Prop) (nu := if k <? 4096 then 4096 else k) :
  heap_ok B h → h_freep h ≠ 0 → 1 ≤ k → 8 * k < 2147483648 → (length B + 2 < f)%nat →
  (refused (h_brk h) nu → Q 0 h) →
  (∀ B' h', heap_ok B' h' → h_freep h' ≠ 0 → live B' = live B → (length B' ≤ S (length B))%nat →
     (∃ b, b ∈ B' ∧ b_free b = true ∧ k ≤ b_units b) →
     keeps (live B) (h_mem h) (h_mem h') → Q (h_freep h') h') →
  runs (morecore f k) h Q.
Proof.
  intros H Hfp Hk Hk8 Hf Href HQ. unfold morecore. fold nu. pose proof (ho_brk _ _ H) as Hbrk. pose proof (ho_base _ _ H) as Hb0.
  pose proof (laid_le _ _ _ (ho_laid _ _ H)) as Hle.
  assert (Hnu : k ≤ nu ∧ 4096 ≤ nu ∧ 8 * nu < 2147483648) by (unfold nu; destruct (Z.ltb_spec k 4096); lia).
  unfold SIZEOF_Header. rewrite (s32_small (nu * 8)) by lia. unfold sbrk, KERNBASE in *. set (brk := h_brk h) in *.
  apply runs_bind, runs_bind, runs_get. fold brk. rewrite (u32_small (brk + nu * 8)), Z.gtb_ltb, Z.geb_leb by lia.
  destruct (Z.ltb_spec 0 (nu * 8)); [|lia].
  destruct (Z.leb_spec 2147483648 (brk + nu * 8)).
  { apply runs_ret, runs_ret, Href. left. unfold KERNBASE. lia. }
  destruct (Z.ltb_spec (brk + nu * 8) brk); [lia|].
  destruct (available brk (brk + nu * 8)) eqn:Ea; cycle 1.
  { apply runs_ret, runs_ret, Href. right. by replace (brk + 8 * nu) with (brk + nu * 8) by lia. }
  apply runs_bind, runs_mod, runs_ret. change (u32 (-1)) with 4294967295.
  destruct (Z.eqb_spec brk 4294967295); [lia|]. apply runs_bind, runs_mod. cbn [h_mem h_freep h_brk].
  rewrite hadd_small by lia. replace (brk + 8 * 1) with (brk + 8) by lia.
  assert (Hg : brk ≤ PGROUNDUP brk) by (rewrite PGROUNDUP_spec by lia; unfold PGSIZE; zmod_lia).
  set (m' := fun x => if (PGROUNDUP brk <=? x) && (x <? PGROUNDUP (brk + nu * 8)) then 0 else h_mem h x).
  assert (Hm' : ∀ x, x < brk → m' x = h_mem h x).
  { intros x Hx. unfold m'. destruct (Z.leb_spec (PGROUNDUP brk) x); [lia | done]. }
  pose proof (heap_grow B h nu m' H Hfp ltac:(lia) ltac:(unfold KERNBASE; fold brk; lia) Hm') as Hg2. fold brk in Hg2.
  replace (brk + nu * 8) with (brk + 8 * nu) by lia.
  apply runs_bind, (free_rule f B brk nu [] _ _ Hg2); [cbn; lia|].
  intros B' h' H' Hfp' El Eu Elen (b & Hb & Hbf & Hbu) Hkeep Eb. cbn in El, Eu, Elen, Hkeep. rewrite app_nil_r in El.
  apply runs_bind, runs_get, runs_ret. apply (HQ B'); [done | done | done | lia | |].
  - exists b. split_and!; [done | done | lia].
  - intros a un x Hin Hx. rewrite El in Hkeep. rewrite (Hkeep a un x Hin Hx). apply live_elem in Hin.
    apply (laid_block _ _ _ _ (ho_laid _ _ H)) in Hin. unfold b_end in Hin. cbn in Hin. fold brk in Hin.
    rewrite (set_size_outside m' brk nu) by lia. apply Hm'. lia.
Qed.

(** ** Theorems *)

(** C6: [malloc(nbytes)], for at most 2147483632 bytes, from a heap with the blocks [B]
    either returns the address of a block that has room for [nbytes] bytes, overlaps no
    block in use, and lies between the list head and the break, or returns 0 because the
    kernel refused to extend the heap. The heap stays well formed: free blocks are linked in
    the order of their addresses and never adjacent. The contents of the blocks in use do
    not change. *)
Theorem malloc_correct fuel nbytes B h (k := (nbytes + 7) / 8 + 1) :
  heap_ok B h → 0 ≤ nbytes ≤ 2147483632 → (2 * length B + 8 ≤ fuel)%nat →
  ∃ v h', malloc fuel nbytes h = Ok (v, h') ∧ nbytes ≤ 8 * (k - 1) ∧
    (allocated B h k v h' ∨
     v = 0 ∧ heap_ok B h' ∧ h_brk h' = h_brk h ∧ keeps (live B) (h_mem h) (h_mem h') ∧
     refused (h_brk h) (Z.max 4096 k)).
Proof.
  intros H Hn Hfuel. assert (Hk : 1 ≤ k ∧ 8 * k < 2147483648 ∧ nbytes ≤ 8 * (k - 1)) by (unfold k; zmod_lia).
  assert (R : runs (malloc fuel nbytes) h (λ v h', allocated B h k v h' ∨
     v = 0 ∧ heap_ok B h' ∧ h_brk h' = h_brk h ∧ keeps (live B) (h_mem h) (h_mem h') ∧
     refused (h_brk h) (Z.max 4096 k))).
  2:{ destruct R as (v & h' & E & R). exists v, h'. split_and!; [done | lia | done]. }
  unfold malloc, SIZEOF_Header. replace (nbytes + 8 - 1) with (nbytes + 7) by lia. rewrite (u32_small (nbytes + 7)) by lia.
  fold k. rewrite (u32_small k) by lia. apply runs_bind, runs_get.
  apply runs_bind, (malloc_start B); [done|]. intros h1 H1 Hfp1 Eb1 Hkeep1. apply runs_bind, runs_get.
  apply (malloc_round _ _ _ B _ _ (length B + 5)); [done | done | lia | | | lia].
  { intros X a n Y -> Hkn. eapply runs_mono; [apply (carve_allocates (X ++ mkBlock a n true :: Y) h k X a n Y h1); [done | lia | by rewrite live_app | done]|].
    intros v h' Ha. by left. }
  intros _ j Hj. apply runs_bind, (morecore_rule _ _ B); [done | done | lia | lia | lia | |].
  { intros Hr. cbn [Z.eqb]. apply runs_ret. right. split_and!; [done.. |].
    rewrite <- Eb1. replace (Z.max 4096 k) with (if k <? 4096 then 4096 else k); [done|]. destruct (Z.ltb_spec k 4096); lia. }
  intros B' h2 H2 Hfp2 El Elen Hbig Hkeep2. destruct (Z.eqb_spec (h_freep h2) 0); [done|]. apply runs_bind, runs_get.
  apply (malloc_round _ _ _ B' _ _ 0); [done | done | lia | | | lia].
  - intros X a n' Y -> Hkn. rewrite live_app in El. eapply runs_mono; [apply (carve_allocates B h k X a n' Y h2); [done | lia | done | by eapply keeps_trans]|].
    intros v h' Ha. by left.
  - intros Hno. destruct Hbig as (b & Hb & Hbf & Hbu). specialize (Hno b Hb Hbf). lia.
Qed.

(** C30: [free] of a block in use makes it free: the other blocks in use and their contents are
    unchanged, no memory is lost or gained, and the block is joined with its free
    neighbours. *)
Theorem free_correct fuel B a n h :
  heap_ok B h → (a, n) ∈ live B → (length B + 2 < fuel)%nat →
  ∃ h' B', free fuel (a + 8) h = Ok (tt, h') ∧ heap_ok B' h' ∧ live B ≡ₚ (a, n) :: live B' ∧
    units B' = units B ∧ h_brk h' = h_brk h ∧ keeps (live B') (h_mem h) (h_mem h').
Proof.
  intros H (X & Y & ->)%live_elem%list_elem_of_split Hfuel. rewrite length_app in Hfuel. cbn in Hfuel.
  assert (R : runs (free fuel (a + 8)) h (λ _ h', ∃ B', heap_ok B' h' ∧
    live (X ++ mkBlock a n false :: Y) ≡ₚ (a, n) :: live B' ∧ units B' = units (X ++ mkBlock a n false :: Y) ∧
    h_brk h' = h_brk h ∧ keeps (live B') (h_mem h) (h_mem h'))).
  { apply (free_rule fuel X a n Y h); [done | lia |]. intros B' h' H' _ El Eu _ _ Hk Eb. exists B'.
    split_and!; [done | | | done | done].
    - rewrite live_app, El. cbn. by rewrite Permutation_middle.
    - rewrite Eu, units_app. cbn. lia. }
  destruct R as ([] & h' & E & B' & R). by exists h', B'.
Qed.
End Allocator.

(** ** Witnesses *)

(** A heap with a free block of 100 units and a block of 14 units in use after it. *)
Definition demo_heap : heap :=
  mkHeap (set_size (set_size (set_ptr (set_ptr (λ _, 0) 4000 8192) 8192 4000) 8192 100) 8992 14) 8192 9104.
Definition demo_layout_blocks : list block := [mkBlock 8192 100 true; mkBlock 8992 14 false].

Lemma demo_heap_ok : heap_ok 4000 demo_layout_blocks demo_heap.
Proof.
  split; [lia | vm_compute; intuition congruence | vm_compute; congruence | |].
  - split; [|done]. by intros (_ & ? & _).
  - right. split_and!; [repeat split; vm_compute; reflexivity | reflexivity |].
    right. exists (mkBlock 8192 100 true). split_and!; [left | done | done].
Qed.

(** The request does not fit the free block; the heap grows. *)
Lemma malloc_correct_witness :
  ∃ v h', malloc 4000 (λ _ _, true) 20 5000 demo_heap = Ok (v, h') ∧
    allocated 4000 demo_layout_blocks demo_heap 626 v h'.
Proof.
  destruct (malloc_correct 4000 (λ _ _, true) 20 5000 demo_layout_blocks demo_heap)
    as (v & h' & E & _ & [Ha|(_ & _ & _ & _ & [Hr|[=]])]).
  - exact demo_heap_ok.
  - lia.
  - cbn. lia.
  - exists v, h'. split; [exact E | exact Ha].
  - exfalso. revert Hr. vm_compute. congruence.
Defined.

(** Beyond that size the arithmetic goes wrong: for 4294967295 bytes the number of units wraps
    around to one, and the address returned, past the header of a block of no bytes, is that
    of the header of the block in use at 8992. *)
Example malloc_wraps :
  match malloc 4000 (λ _ _, true) 20 4294967295 demo_heap with
  | Ok (v, h') => v = 8992 ∧ hsize (h_mem h') (v - 8) = 1
  | _ => False
  end.
Proof. vm_compute. split; reflexivity. Qed.

Lemma free_correct_witness :
  ∃ h' B', free 20 9000 demo_heap = Ok (tt, h') ∧ heap_ok 4000 B' h' ∧ units B' = 114.
Proof.
  destruct (free_correct 4000 20 demo_layout_blocks 8992 14 demo_heap) as (h' & B' & E & H & _ & Hu & _).
  - exact demo_heap_ok.
  - left.
  - cbn. lia.
  - exists h', B'. split_and!; [exact E | exact H | rewrite Hu; reflexivity].
Defined.
