(* ===== verification/Ulib.v ===== *)
(** * The user library

    Models src/ulib.c, on the flat byte memory of [Prelude]; the memory is that of the
    user process.  A loop that is bounded only by the string it walks takes fuel, and the
    lemmas say how much is enough: one round per byte and one for the terminating NUL.

    [read] on a file descriptor is modelled by the bytes it delivers: an [input] is a list
    of chunks, and a call returns at most the rest of the first chunk.  A file is one
    chunk; a pipe or the console deliver several, and an empty chunk is an end of file
    that a reader can read past, as the console's control-D. *)

From S2P Require Import Prelude KString.
Local Open Scope Z_scope.

(** ** Definitions *)

Definition input : Type := list (list Z).

(** [read(fd, p, n)]: the bytes stored at [p] and the input that is left. *)
Definition uread (n : Z) (i : input) : list Z * input :=
  match i with
  | [] => ([], [])
  | c :: i' =>
      let rest := drop (Z.to_nat n) c in
      (take (Z.to_nat n) c, match rest with [] => i' | _ => rest :: i' end)
  end.

(** Bytes stored from address [a] on. *)
Fixpoint put_bytes (m : mem) (a : Z) (l : list Z) : mem :=
  match l with
  | [] => m
  | b :: l' => put_bytes (mupd m a b) (a + 1) l'
  end.

Fixpoint strcpy_loop (fuel : nat) (m : mem) (s t : Z) : outcome mem :=
  match fuel with
  | O => Diverge
  | S fuel' =>
      let m' := mupd m s (m t) in
      if negb (m t =? 0) then strcpy_loop fuel' m' (s + 1) (t + 1) else Ok m'
  end.

(** [strcpy] returns [s]. *)
Definition strcpy (fuel : nat) (m : mem) (s t : Z) : outcome (mem * Z) :=
  m' ← strcpy_loop fuel m s t; Ok (m', s).

Fixpoint strcmp (fuel : nat) (m : mem) (p q : Z) : outcome Z :=
  match fuel with
  | O => Diverge
  | S fuel' =>
      if negb (m p =? 0) && (m p =? m q) then strcmp fuel' m (p + 1) (q + 1)
      else Ok (u8 (m p) - u8 (m q))
  end.

Fixpoint ustrlen_loop (fuel : nat) (m : mem) (s n : Z) : outcome Z :=
  match fuel with
  | O => Diverge
  | S fuel' => if negb (m (s + n) =? 0) then ustrlen_loop fuel' m s (n + 1) else Ok n
  end.

Definition ustrlen (fuel : nat) (m : mem) (s : Z) : outcome Z := ustrlen_loop fuel m s 0.

Definition umemset (m : mem) (dst c n : Z) : mem := stosb m dst c (Z.to_nat n).

(** The null pointer is 0. *)
Fixpoint strchr (fuel : nat) (m : mem) (s c : Z) : outcome Z :=
  match fuel with
  | O => Diverge
  | S fuel' =>
      if m s =? 0 then Ok 0
      else if m s =? c then Ok s
      else strchr fuel' m (s + 1) c
  end.

(** The loop of [gets] with [k] the value of [max - 1 - i]; it returns [i]. *)
Fixpoint gets_loop (k : nat) (m : mem) (buf i : Z) (inp : input) : mem * Z * input :=
  match k with
  | O => (m, i, inp)
  | S k' =>
      match uread 1 inp with
      | (c :: _, inp') =>
          let m' := mupd m (buf + i) c in
          if (c =? 10) || (c =? 13) then (m', i + 1, inp')
          else gets_loop k' m' buf (i + 1) inp'
      | ([], inp') => (m, i, inp')
      end
  end.

Definition gets (m : mem) (buf max : Z) (inp : input) : mem * input :=
  let '(m', i, inp') := gets_loop (Z.to_nat (max - 1)) m buf 0 inp in
  (mupd m' (buf + i) 0, inp').

(** The loops of [atoi] and [atoo]. *)
Fixpoint skip_blanks (fuel : nat) (m : mem) (s : Z) : outcome Z :=
  match fuel with
  | O => Diverge
  | S fuel' => if m s =? 32 then skip_blanks fuel' m (s + 1) else Ok s
  end.

Fixpoint number_loop (fuel : nat) (base : Z) (m : mem) (s n : Z) : outcome Z :=
  match fuel with
  | O => Diverge
  | S fuel' =>
      if (48 <=? m s) && (m s <=? 47 + base) then
        number_loop fuel' base m (s + 1) (s32 (n * base + m s - 48))
      else Ok n
  end.

(** [atoi] is [number 10] and [atoo] is [number 8]. *)
Definition number (base : Z) (fuel : nat) (m : mem) (s : Z) : outcome Z :=
  s ← skip_blanks fuel m s;
  let sign := if m s =? 45 then -1 else 1 in
  let s := if (m s =? 43) || (m s =? 45) then s + 1 else s in
  n ← number_loop fuel base m s 0;
  Ok (s32 (sign * n)).

Definition atoi : nat → mem → Z → outcome Z := number 10.
Definition atoo : nat → mem → Z → outcome Z := number 8.

Definition umemmove (m : mem) (vdst vsrc n : Z) : mem := copy_up m vdst vsrc (Z.to_nat n).

(** The value of a string of digits. *)
Definition num_val (base : Z) (l : list Z) : Z :=
  foldl (λ n c, n * base + (c - 48)) 0 l.

(** The bytes of a digit of the base. *)
Definition digit (base c : Z) : Prop := 48 ≤ c ≤ 47 + base.

(** The line [gets] takes from a stream of bytes: up to [k] bytes, ending at the first
    newline or carriage return. *)
Fixpoint first_line (k : nat) (l : list Z) : list Z :=
  match k, l with
  | S k', c :: l' => c :: (if (c =? 10) || (c =? 13) then [] else first_line k' l')
  | _, _ => []
  end.

(** ** Lemmas *)

Lemma put_bytes_spec m a l x :
  put_bytes m a l x =
    (if (a <=? x) && (x <? a + Z.of_nat (length l)) then l !!! Z.to_nat (x - a) else m x).
Proof.
  revert m a; induction l as [|b l IH]; intros m a; cbn [put_bytes length].
  - bool_cases; done.
  - rewrite IH. unfold mupd. rewrite Nat2Z.inj_succ. destruct (decide (x = a)) as [->|Hne].
    + rewrite Z.sub_diag. bool_cases; done.
    + destruct (Z.to_nat (x - a)) as [|k] eqn:Ek; [bool_cases; done|].
      replace (Z.to_nat (x - (a + 1))) with k by lia. bool_cases; done.
Qed.

Lemma mread_put_bytes m a l : mread (put_bytes m a l) a (length l) = l.
Proof.
  apply list_eq_same_length with (n := length l); [by rewrite ?length_mread.. |].
  intros j x y Hj. rewrite mread_lookup by done. intros [= <-] Hy. rewrite put_bytes_spec. bool_cases.
  replace (Z.to_nat _) with j by lia. by apply list_lookup_total_correct.
Qed.

(** A string and the bytes it consists of. *)
Lemma cstr_mread m a l :
  cstr m a l ↔ mread m a (length l) = l ∧ m (a + Z.of_nat (length l)) = 0 ∧ Forall (λ c, c ≠ 0) l.
Proof.
  revert a; induction l as [|c l IH]; intros a; cbn [cstr length mread].
  - rewrite Z.add_0_r. split; [|by intros (_ & ? & _)]. intros H. by split_and!.
  - rewrite IH, Forall_cons. replace (a + Z.of_nat (S (length l))) with (a + 1 + Z.of_nat (length l)) by lia.
    split.
    + intros (-> & Hc & -> & H0 & Hl). done.
    + intros ([= -> ->] & H0 & Hc & Hl). by split_and!.
Qed.

Lemma cstr_drop m a l l' : cstr m a (l ++ l') → cstr m (a + Z.of_nat (length l)) l'.
Proof.
  revert a; induction l as [|c l IH]; intros a; cbn [app length].
  - by rewrite Z.add_0_r.
  - intros (_ & _ & H). apply IH in H. by replace (a + Z.of_nat (S (length l))) with (a + 1 + Z.of_nat (length l)) by lia.
Qed.

(** Cutting a string off. *)
Lemma cstr_cut m a l l' : cstr m a (l ++ l') → cstr (mupd m (a + Z.of_nat (length l)) 0) a l.
Proof.
  rewrite !cstr_mread. rewrite length_app, mread_app, Forall_app. intros (H & _ & Hl & _).
  apply app_inj_1 in H as [H _]; [|by rewrite length_mread]. split_and!; [|apply mupd_eq | done].
  etrans; [|exact H]. apply mread_ext. intros x Hx. apply mupd_ne. lia.
Qed.

Lemma strcpy_loop_spec fuel m s t l :
  cstr m t l → (length l < fuel)%nat → (s ≤ t ∨ t + Z.of_nat (length l) < s) →
  ∃ m', strcpy_loop fuel m s t = Ok m' ∧ cstr m' s l ∧
    ∀ x, x < s ∨ s + Z.of_nat (length l) < x → m' x = m x.
Proof.
  revert fuel m s t; induction l as [|c l IH]; intros [|fuel] m s t Hl Hf Hd; [simpl in Hf; lia| |simpl in Hf; lia|];
    cbn [strcpy_loop]; simpl in Hl, Hf, Hd.
  - rewrite Hl. simpl. eexists. split; [done|]. split; [by rewrite mupd_eq|].
    intros x Hx. simpl in Hx. apply mupd_ne. lia.
  - destruct Hl as (Hc & Hn & Hl). rewrite Hc. destruct (Z.eqb_spec c 0); [done|]. simpl.
    destruct (IH fuel (mupd m s c) (s + 1) (t + 1)) as (m' & E & Hs & Hfr); [|lia|lia|].
    + eapply cstr_ext; [|done]. intros x Hx. rewrite mupd_ne; [done | lia].
    + exists m'. split; [done|]. split.
      * simpl. split_and!; [|done|done]. rewrite Hfr by lia. apply mupd_eq.
      * intros x Hx. simpl in Hx. rewrite Hfr by lia. apply mupd_ne. lia.
Qed.

Lemma ustrlen_spec fuel m s l : cstr m s l → (length l < fuel)%nat →
  ustrlen fuel m s = Ok (Z.of_nat (length l)).
Proof.
  intros Hl Hf. unfold ustrlen.
  assert (Hgen : ∀ l fuel n, cstr m (s + n) l → (length l < fuel)%nat →
    ustrlen_loop fuel m s n = Ok (n + Z.of_nat (length l))).
  { clear l fuel Hl Hf. induction l as [|c l IH]; intros [|fuel] n Hl Hf; simpl in Hf; [lia| |lia|];
      cbn [ustrlen_loop].
    - simpl in Hl. rewrite Hl. simpl. f_equal. lia.
    - destruct Hl as (Hc & Hn & Hl). rewrite Hc. destruct (Z.eqb_spec c 0); [done|]. cbn [negb].
      rewrite (IH fuel (n + 1)); [|by rewrite Z.add_assoc | lia]. f_equal. cbn [length]. lia. }
  rewrite (Hgen l); [f_equal; lia | by rewrite Z.add_0_r | done].
Qed.

(** [strchr] finds the first occurrence. *)
Lemma strchr_spec fuel m s c l :
  cstr m s l → (length l < fuel)%nat →
  strchr fuel m s c =
    Ok (match list_find (λ b, b = c) l with Some (i, _) => s + Z.of_nat i | None => 0 end).
Proof.
  revert fuel s; induction l as [|b l IH]; intros [|fuel] s Hl Hf; simpl in Hf; [lia| |lia|];
    cbn [strchr].
  - simpl in Hl. by rewrite Hl.
  - destruct Hl as (Hb & Hn & Hl). rewrite Hb. destruct (Z.eqb_spec b 0); [done|].
    simpl. destruct (Z.eqb_spec b c) as [->|Hne].
    + rewrite decide_True by done. f_equal. lia.
    + rewrite decide_False by done. rewrite (IH fuel) by (done || lia).
      destruct (list_find _ l) as [[i ?]|]; simpl; [f_equal; lia | done].
Qed.

Lemma strcmp_spec fuel m p q l1 l2 :
  bytes_ok m → cstr m p l1 → cstr m q l2 → (length l1 < fuel)%nat →
  ∃ r, strcmp fuel m p q = Ok r ∧ (r = 0 ↔ l1 = l2).
Proof.
  intros Hm. revert fuel p q l2; induction l1 as [|b l1 IH]; intros [|fuel] p q l2 H1 H2 Hf;
    simpl in Hf; [lia| |lia|]; cbn [strcmp].
  - simpl in H1. rewrite H1. simpl. eexists. split; [done|]. rewrite (u8_small 0), u8_small by auto with lia.
    destruct l2 as [|c l2]; simpl in H2; [by rewrite H2|].
    destruct H2 as (Hc & Hn & _). split; [|done]. rewrite Hc. lia.
  - destruct H1 as (Hb & Hn & H1). destruct (Z.eqb_spec (m p) 0); [congruence|]. simpl.
    destruct (Z.eqb_spec (m p) (m q)) as [He|Hne].
    + destruct l2 as [|c l2]; simpl in H2; [congruence|]. destruct H2 as (Hc & _ & H2).
      destruct (IH fuel (p + 1) (q + 1) l2) as (r & E & Hr); [done..|lia|].
      exists r. split; [done|]. rewrite Hr. split; [intros ->; f_equal; congruence | by intros [= ??]].
    + eexists. split; [done|]. rewrite !u8_small by auto. split; [lia|].
      intros <-. simpl in H2. destruct H2. congruence.
Qed.

Lemma skip_blanks_spec fuel m s : m s ≠ 32 → (0 < fuel)%nat → skip_blanks fuel m s = Ok s.
Proof. intros Hs Hf. destruct fuel; [lia|]. cbn. by destruct (Z.eqb_spec (m s) 32). Qed.

Lemma foldl_num_mono base l n : 0 < base → 0 ≤ n → Forall (digit base) l →
  n ≤ foldl (λ n c, n * base + (c - 48)) n l.
Proof.
  intros Hb. revert n; induction l as [|c l IH]; intros n Hn Hl; simpl; [lia|].
  inversion_clear Hl as [|? ? Hc Hl']. unfold digit in Hc.
  etrans; [|apply IH; [nia | done]]. nia.
Qed.

Lemma number_loop_spec base fuel m s l n :
  0 < base → cstr m s l → Forall (digit base) l → 0 ≤ n →
  foldl (λ n c, n * base + (c - 48)) n l < 2147483648 → (length l < fuel)%nat →
  number_loop fuel base m s n = Ok (foldl (λ n c, n * base + (c - 48)) n l).
Proof.
  intros Hb. revert fuel s n; induction l as [|c l IH]; intros [|fuel] s n Hs Hl Hn Hv Hf;
    simpl in Hf; [lia| |lia|]; cbn [number_loop].
  - simpl in Hs. rewrite Hs. bool_cases. done.
  - destruct Hs as (Hc & _ & Hs). inversion_clear Hl as [|? ? Hd Hl']. rewrite Hc.
    unfold digit in Hd. destruct (Z.leb_spec 48 c); [|lia]. destruct (Z.leb_spec c (47 + base)); [|lia].
    cbn [andb]. simpl in Hv.
    pose proof (foldl_num_mono base l (n * base + (c - 48)) Hb ltac:(nia) Hl').
    rewrite s32_small by nia.
    replace (n * base + c - 48) with (n * base + (c - 48)) by lia.
    rewrite IH; [done..|nia|done|lia].
Qed.

(** A signed number without blanks before it. *)
Lemma number_spec base fuel m s (neg : bool) l :
  0 < base ≤ 10 → cstr m s ((if neg then [45] else []) ++ l) → l ≠ [] → Forall (digit base) l →
  num_val base l < 2147483648 → (S (length l) < fuel)%nat →
  number base fuel m s = Ok (if neg then - num_val base l else num_val base l).
Proof.
  intros Hb Hs Hne Hl Hv Hf. unfold number.
  destruct l as [|c l]; [done|]. inversion Hl as [|? ? Hd Hl']; subst. unfold digit in Hd.
  pose proof (foldl_num_mono base (c :: l) 0 ltac:(lia) ltac:(lia) Hl) as Hge.
  change (0 ≤ num_val base (c :: l)) in Hge.
  destruct neg; cbn [app] in Hs.
  - destruct Hs as (H45 & _ & Hs). rewrite skip_blanks_spec by (rewrite ?H45; lia).
    cbn [mbind outcome_bind obind]. rewrite H45.
    change (45 =? 45) with true. change (45 =? 43) with false. cbn [orb].
    rewrite (number_loop_spec base fuel m (s + 1) (c :: l) 0); [|lia|done|done|lia|done|lia].
    change (foldl _ 0 (c :: l)) with (num_val base (c :: l)). cbn [mbind outcome_bind obind].
    rewrite s32_small by lia. f_equal; lia.
  - pose proof Hs as (Hc & _). rewrite skip_blanks_spec by (rewrite ?Hc; lia).
    cbn [mbind outcome_bind obind]. rewrite Hc.
    destruct (Z.eqb_spec c 45); [lia|]. destruct (Z.eqb_spec c 43); [lia|]. cbn [orb].
    rewrite (number_loop_spec base fuel m s (c :: l) 0); [|lia|done|done|lia|done|lia].
    change (foldl _ 0 (c :: l)) with (num_val base (c :: l)). cbn [mbind outcome_bind obind].
    rewrite s32_small by lia. f_equal; lia.
Qed.

(** Reading one byte from a stream of chunks. *)
Lemma uread_one inp : Forall (λ c, c ≠ []) inp →
  match concat inp with
  | [] => uread 1 inp = ([], [])
  | c :: l => ∃ inp', uread 1 inp = ([c], inp') ∧ concat inp' = l ∧ Forall (λ c, c ≠ []) inp'
  end.
Proof.
  destruct inp as [|[|c [|c' ch]] inp]; intros Hi; [done|by inversion Hi|..]; inversion_clear Hi.
  - eexists. split_and!; [reflexivity | done..].
  - eexists. split_and!; [reflexivity | done|]. by constructor.
Qed.

Lemma gets_loop_spec k m buf i inp :
  Forall (λ c, c ≠ []) inp →
  ∃ inp', gets_loop k m buf i inp =
      (put_bytes m (buf + i) (first_line k (concat inp)),
       i + Z.of_nat (length (first_line k (concat inp))), inp') ∧
    concat inp' = drop (length (first_line k (concat inp))) (concat inp).
Proof.
  revert m i inp; induction k as [|k IH]; intros m i inp Hi; cbn [gets_loop].
  - exists inp. simpl. by rewrite Z.add_0_r.
  - pose proof (uread_one inp Hi) as Hr. destruct (concat inp) as [|c l].
    + rewrite Hr. exists []. simpl. by rewrite Z.add_0_r.
    + destruct Hr as (inp' & -> & Hc & Hi'). cbn [first_line].
      destruct ((c =? 10) || (c =? 13)).
      * exists inp'. simpl. rewrite drop_0. split; [do 2 f_equal|]; done.
      * destruct (IH (mupd m (buf + i) c) (i + 1) inp' Hi') as (inp'' & -> & E). rewrite Hc in *.
        exists inp''. split; [|done]. cbn [put_bytes length]. rewrite Z.add_assoc.
        do 2 f_equal. lia.
Qed.

(** ** Theorems *)

(** [gets] takes one line: the bytes of the input up to and including the first
    newline or carriage return, at most [max - 1] of them, are stored at [buf] with a NUL
    after them, the rest of the input is left unread, and nothing outside the [max] bytes
    of the buffer changes. *)
Theorem gets_correct m buf max inp m' inp' :
  0 < max → Forall (λ c, c ≠ []) inp → gets m buf max inp = (m', inp') →
  let line := first_line (Z.to_nat (max - 1)) (concat inp) in
  mread m' buf (length line) = line ∧ m' (buf + Z.of_nat (length line)) = 0 ∧
  concat inp = line ++ concat inp' ∧
  ∀ x, x < buf ∨ buf + max ≤ x → m' x = m x.
Proof.
  intros Hmax Hi. unfold gets.
  destruct (gets_loop_spec (Z.to_nat (max - 1)) m buf 0 inp Hi) as (inp0 & -> & E).
  intros [= <- <-]. cbv zeta. rewrite !Z.add_0_r, !Z.add_0_l.
  set (line := first_line (Z.to_nat (max - 1)) (concat inp)) in *.
  assert (Hline : ∀ k l, (length (first_line k l) ≤ k)%nat ∧ take (length (first_line k l)) l = first_line k l).
  { induction k as [|k IH]; intros [|c l]; simpl; [split; [lia | done]..|]. destruct (_ || _); simpl.
    - split; [lia | by rewrite take_0].
    - destruct (IH l) as [? ->]. split; [lia | done]. }
  destruct (Hline (Z.to_nat (max - 1)) (concat inp)) as [Hlen Htake]. fold line in Hlen, Htake.
  split_and!.
  - apply list_eq_same_length with (n := length line); [done | by rewrite length_mread|].
    intros j x y Hj. rewrite mread_lookup by done. intros [= <-] Hy.
    rewrite mupd_ne by lia. rewrite put_bytes_spec. bool_cases.
    replace (Z.to_nat (buf + Z.of_nat j - buf)) with j by lia. by apply list_lookup_total_correct.
  - apply mupd_eq.
  - rewrite E. rewrite <- Htake at 1. by rewrite take_drop.
  - intros x Hx. rewrite mupd_ne by lia. rewrite put_bytes_spec. by bool_cases.
Qed.

Lemma gets_correct_witness :
  ∃ m' inp', gets (λ _, 0) 100 4 [[97; 98]; [10; 99]] = (m', inp') ∧
    mread m' 100 4 = [97; 98; 10; 0] ∧ inp' = [[99]].
Proof.
  eexists _, _. split; [reflexivity|].
  destruct (gets_correct (λ _, 0) 100 4 [[97; 98]; [10; 99]] _ _ ltac:(lia)
    ltac:(repeat constructor; done) eq_refl) as (H & H0 & _).
  split; [|reflexivity]. change 4%nat with (3 + 1)%nat. rewrite mread_app. 
  change (length _) with 3%nat in H. rewrite H. reflexivity.
Defined.
