(* ===== verification/Printf.v ===== *)
(** * Formatted output of user programs

    Models src/printf.c.  What a call writes to its file descriptor is its result, a list
    of bytes; the variable arguments are the words that follow [fmt] on the stack.  A
    conversion that finds no argument word is [Undef].  The loop over [fmt] and the one over
    a string argument take fuel, one round per byte and one for the NUL. *)

From S2P Require Import Prelude KString Digits Ulib.
Local Open Scope Z_scope.

(** ** Definitions *)

(** [digits] of [printint]. *)
Definition digits : list Z := bytes_of "0123456789ABCDEF".

(** 32 rounds are enough for a 32-bit number in any base. *)
Definition printint (xx base : Z) (sgn : bool) : outcome (list Z) :=
  let neg := sgn && (xx <? 0) in
  let x := if neg then u32 (- xx) else u32 xx in
  buf ← printint_loop digits 32 base x [];
  buf ← (if neg then push buf 45 else Ok buf);
  Ok (reverse buf).

(** The bytes of a string argument. *)
Fixpoint puts (fuel : nat) (m : mem) (s : Z) : outcome (list Z) :=
  match fuel with
  | O => Diverge
  | S fuel' => if negb (m s =? 0) then (l ← puts fuel' m (s + 1); Ok (m s :: l)) else Ok []
  end.

(** One conversion, the byte [c] after a percent sign: the output and the arguments left. *)
Definition conversion (fuel : nat) (m : mem) (c : Z) (ap : list Z) : outcome (list Z * list Z) :=
  let arg (f : Z → outcome (list Z)) :=
    match ap with
    | [] => Undef "missing argument"
    | a :: ap' => out ← f a; Ok (out, ap')
    end in
  if c =? 100 then arg (fun a => printint (s32 a) 10 true)
  else if (c =? 120) || (c =? 112) then arg (fun a => printint (s32 a) 16 false)
  else if c =? 115 then
    arg (fun s => if s =? 0 then Ok (bytes_of "(null)") else puts fuel m s)
  else if c =? 99 then arg (fun a => Ok [u8 a])
  else if c =? 37 then Ok ([c], ap)
  else Ok ([37; c], ap).

(** The loop of [printf]; [state] is true after a percent sign. *)
Fixpoint printf_loop (fuel : nat) (m : mem) (fmt : Z) (state : bool) (ap : list Z) :
    outcome (list Z) :=
  match fuel with
  | O => Diverge
  | S fuel' =>
      let c := Z.land (m fmt) 255 in
      if m fmt =? 0 then Ok []
      else if negb state then
        if c =? 37 then printf_loop fuel' m (fmt + 1) true ap
        else out ← printf_loop fuel' m (fmt + 1) false ap; Ok (u8 c :: out)
      else
        '(out, ap) ← conversion fuel m c ap;
        rest ← printf_loop fuel' m (fmt + 1) false ap;
        Ok (out ++ rest)
  end.

Definition printf (fuel : nat) (m : mem) (fmt : Z) (ap : list Z) : outcome (list Z) :=
  printf_loop fuel m fmt false ap.

(** *** What a call should print *)

(** The parts of a format with their arguments. *)
Inductive item :=
| ILit (c : Z)                 (* a byte that is printed as it is *)
| IDec (n : Z)                 (* %d *)
| IHex (c n : Z)               (* %x or %p *)
| IStr (s : Z) (l : list Z)    (* %s, the string [l] at address [s] *)
| INull                        (* %s with a null pointer *)
| IChr (a : Z)                 (* %c *)
| IPct                         (* %% *)
| IUnk (c : Z).                (* any other byte after a percent sign *)

Definition item_fmt (i : item) : list Z :=
  match i with
  | ILit c => [c]
  | IDec _ => [37; 100]
  | IHex c _ => [37; c]
  | IStr _ _ | INull => [37; 115]
  | IChr _ => [37; 99]
  | IPct => [37; 37]
  | IUnk c => [37; c]
  end.

Definition item_args (i : item) : list Z :=
  match i with
  | IDec n | IHex _ n => [u32 n]
  | IStr s _ => [s]
  | INull => [0]
  | IChr a => [a]
  | _ => []
  end.

Definition item_ok (m : mem) (i : item) : Prop :=
  match i with
  | ILit c => 0 < c < 256 ∧ c ≠ 37
  | IDec n => -2147483648 ≤ n < 2147483648
  | IHex c n => (c = 120 ∨ c = 112) ∧ 0 ≤ n < 4294967296
  | IStr s l => s ≠ 0 ∧ cstr m s l
  | IUnk c => 0 < c < 256 ∧ c ∉ [100; 120; 112; 115; 99; 37]
  | _ => True
  end.

Definition item_prints (i : item) (out : list Z) : Prop :=
  match i with
  | ILit c => out = [c]
  | IDec n => ∃ ds, numeral 10 (Z.abs n) ds ∧
      out = (if n <? 0 then [45] else []) ++ show_digits digits ds
  | IHex _ n => ∃ ds, numeral 16 n ds ∧ out = show_digits digits ds
  | IStr _ l => out = l
  | INull => out = bytes_of "(null)"
  | IChr a => out = [u8 a]
  | IPct => out = [37]
  | IUnk c => out = [37; c]
  end.

(** ** Lemmas *)

(** A signed number in base ten and an unsigned one in base sixteen. *)
Lemma printint_dec n : -2147483648 ≤ n < 2147483648 →
  ∃ ds, printint n 10 true = Ok ((if n <? 0 then [45] else []) ++ show_digits digits ds) ∧
    numeral 10 (Z.abs n) ds ∧ (length ds ≤ 10)%nat.
Proof.
  intros Hn. unfold printint. cbn [andb].
  destruct (printint_loop_spec digits 10 32 10 (Z.abs n) []) as (ds & E & Hnum & Hl);
    [done | lia | change (10 ^ Z.of_nat 10) with 10000000000; lia | lia | simpl; lia|].
  exists ds. split; [|done].
  replace (if n <? 0 then u32 (- n) else u32 n) with (Z.abs n)
    by (destruct (Z.ltb_spec n 0); rewrite u32_small; lia).
  rewrite E. cbn [mbind outcome_bind obind app]. destruct (n <? 0); cbn [mbind outcome_bind obind].
  - unfold push. rewrite length_reverse. unfold show_digits at 1. rewrite length_fmap.
    destruct (Nat.ltb_spec (length ds) 16); [|lia]. cbn [mbind outcome_bind obind].
    by rewrite reverse_app, reverse_involutive.
  - by rewrite reverse_involutive.
Qed.

Lemma printint_hex n : 0 ≤ n < 4294967296 →
  ∃ ds, printint (s32 n) 16 false = Ok (show_digits digits ds) ∧ numeral 16 n ds.
Proof.
  intros Hn. unfold printint. cbn [andb].
  destruct (printint_loop_spec digits 8 32 16 n []) as (ds & E & Hnum & Hl);
    [done | lia | change (16 ^ Z.of_nat 8) with 4294967296; lia | lia | simpl; lia|].
  exists ds. split; [|done].
  replace (u32 (s32 n)) with n
    by (unfold s32, u32; rewrite (Z.mod_small n) by lia; bool_case; zmod_lia).
  rewrite E. cbn [mbind outcome_bind obind app]. by rewrite reverse_involutive.
Qed.

Lemma puts_spec fuel m s l : cstr m s l → (length l < fuel)%nat → puts fuel m s = Ok l.
Proof.
  revert fuel s; induction l as [|c l IH]; intros [|fuel] s Hl Hf; simpl in Hf; [lia| |lia|];
    cbn [puts].
  - simpl in Hl. by rewrite Hl.
  - destruct Hl as (Hc & Hn & Hl). rewrite Hc. destruct (Z.eqb_spec c 0); [done|].
    cbn [negb]. by rewrite (IH fuel) by (done || lia).
Qed.

#[local] Arguments printint : simpl never.
#[local] Arguments s32 : simpl never.
#[local] Arguments u32 : simpl never.

(** The length of the longest string argument. *)
Definition item_len (i : item) : nat := match i with IStr _ l => length l | _ => 0 end.

(** The conversion of an item, other than a literal byte. *)
Lemma conversion_spec fuel m i c ap :
  item_ok m i → item_fmt i = [37; c] → (item_len i < fuel)%nat →
  ∃ out, conversion fuel m c (item_args i ++ ap) = Ok (out, ap) ∧ item_prints i out.
Proof.
  intros Hok Hfmt Hf. destruct i as [?|n|c' n|s l| |a| |c']; cbn in Hok, Hfmt, Hf;
    [done|injection Hfmt as <-..]; unfold conversion; cbn [item_args app].
  - destruct (printint_dec n Hok) as (ds & E & Hnum & _). eexists. split; [|by exists ds].
    cbn. replace (s32 (u32 n)) with n; [by rewrite E|].
    unfold s32. rewrite u32_u32. symmetry. apply s32_small. lia.
  - destruct Hok as [Hc Hn]. destruct (printint_hex n Hn) as (ds & E & Hnum).
    eexists. split; [|by exists ds]. rewrite (u32_small n) by done.
    destruct Hc as [->| ->]; cbn; by rewrite E.
  - exists l. split; [|done]. destruct Hok as [Hs Hl]. cbn. destruct (Z.eqb_spec s 0); [done|].
    by rewrite (puts_spec fuel m s l).
  - by eexists.
  - by eexists.
  - by eexists.
  - exists [37; c']. split; [|done]. destruct Hok as [_ Hc].
    repeat match goal with |- context [c' =? ?k] => destruct (Z.eqb_spec c' k); [set_solver|] end.
    done.
Qed.

(** One round of the loop for a byte, and two for a conversion. *)
Lemma cstr_byte m a c l : cstr m a (c :: l) → 0 < c < 256 → Z.land (m a) 255 = c ∧ m a ≠ 0.
Proof.
  intros (-> & Hn & _) Hc. split; [|done]. change 255 with (Z.ones 8).
  rewrite Z.land_ones by lia. apply Z.mod_small. lia.
Qed.

Lemma printf_items fuel m fmt (its : list item) :
  Forall (item_ok m) its → cstr m fmt (its ≫= item_fmt) →
  (length (its ≫= item_fmt) < fuel)%nat → Forall (λ i, fuel > item_len i + length (its ≫= item_fmt))%nat its →
  ∃ outs, printf_loop fuel m fmt false (its ≫= item_args) = Ok (concat outs) ∧
    Forall2 item_prints its outs.
Proof.
  revert fuel fmt; induction its as [|i its IH]; intros fuel fmt Hok Hs Hf Hlen.
  - exists []. destruct fuel; [simpl in Hf; lia|]. simpl in Hs. cbn. by rewrite Hs.
  - inversion_clear Hok as [|? ? Hi Hok']. inversion_clear Hlen as [|? ? Hli Hlen'].
    rewrite bind_cons in Hs, Hf, Hli. rewrite !bind_cons.
    setoid_rewrite bind_cons in Hlen'.
    rewrite length_app in Hf, Hli. setoid_rewrite length_app in Hlen'.
    assert (Hcase : (∃ c, i = ILit c) ∨ (∃ c, item_fmt i = [37; c] ∧ 0 < c < 256)).
    { destruct i; cbn in Hi; [by left; eexists|right; eexists; split; [reflexivity|]; lia..]. }
    destruct fuel as [|fuel]; [lia|]. destruct Hcase as [[c ->]|(c & Ec & Hc)].
    + cbn in Hi. destruct Hi as [Hc Hne]. cbn in Hs. destruct (cstr_byte _ _ _ _ Hs Hc) as [Ec H0].
      cbn [printf_loop]. rewrite Ec. destruct (Z.eqb_spec (m fmt) 0); [done|]. cbn [negb].
      destruct (Z.eqb_spec c 37); [done|]. destruct Hs as (_ & _ & Hs).
      destruct (IH fuel (fmt + 1)) as (outs & E & Houts); [done | done | simpl in Hf; lia | |].
      { eapply Forall_impl; [done|]. intros j Hj. simpl in Hj. lia. }
      cbn [item_args app]. rewrite E. cbn [mbind outcome_bind obind]. exists ([c] :: outs).
      split; [by rewrite u8_small by lia | by constructor].
    + rewrite Ec in Hs, Hf, Hli. rewrite Ec in Hlen'. cbn [app] in Hs.
      destruct (cstr_byte _ _ _ _ Hs ltac:(lia)) as [E37 H0]. cbn [printf_loop]. rewrite E37.
      destruct (Z.eqb_spec (m fmt) 0); [done|]. cbn [negb]. rewrite Z.eqb_refl.
      destruct Hs as (_ & _ & Hs). destruct (cstr_byte _ _ _ _ Hs Hc) as [Ec' H1].
      simpl in Hf, Hli. destruct fuel as [|fuel]; [lia|]. cbn [printf_loop]. rewrite Ec'.
      destruct (Z.eqb_spec (m (fmt + 1)) 0); [done|]. cbn [negb].
      destruct (conversion_spec (S fuel) m i c (its ≫= item_args) Hi Ec ltac:(lia)) as (out & -> & Hout).
      cbn [mbind outcome_bind obind]. destruct Hs as (_ & _ & Hs).
      destruct (IH fuel (fmt + 1 + 1)) as (outs & E & Houts); [done | done | lia | |].
      { eapply Forall_impl; [done|]. intros j Hj. simpl in Hj. lia. }
      rewrite E. cbn [mbind outcome_bind obind]. exists (out :: outs). by split; [|constructor].
Qed.

(** The bytes of decimal digits. *)
Lemma digits_dec d : 0 ≤ d < 10 → digits !!! Z.to_nat d = 48 + d.
Proof.
  intros Hd. assert (Hc : d = 0 ∨ d = 1 ∨ d = 2 ∨ d = 3 ∨ d = 4 ∨ d = 5 ∨ d = 6 ∨ d = 7 ∨ d = 8 ∨ d = 9)
    by lia.
  by repeat destruct Hc as [->|Hc]; [..|subst d].
Qed.

Lemma show_digits_val ds n : Forall (λ d, 0 ≤ d < 10) ds →
  foldl (λ n c, n * 10 + (c - 48)) n (show_digits digits ds) = foldl (λ n d, n * 10 + d) n ds ∧
  Forall (digit 10) (show_digits digits ds).
Proof.
  revert n; induction ds as [|d ds IH]; intros n Hds; [by split; [|constructor]|].
  inversion_clear Hds as [|? ? Hd Hds'].
  change (show_digits digits (d :: ds)) with (digits !!! Z.to_nat d :: show_digits digits ds). cbn [foldl].
  rewrite digits_dec by done.
  destruct (IH (n * 10 + (48 + d - 48)) Hds') as [-> Hf]. split; [f_equal; lia|].
  constructor; [unfold digit; lia | done].
Qed.

(** ** Theorems *)

(** C37: [printf] prints its format item by item: literal bytes as they are, [%d] as the
    signed decimal numeral of its argument, [%x] and [%p] as the hexadecimal numeral of the
    argument as an unsigned word (both without leading zeros), [%s] as the string its
    argument points to or [(null)], [%c] as one byte, [%%] as a percent sign, and an
    unknown conversion unchanged; every argument is consumed by its own conversion, the
    buffer of [printint] never overflows, and the loops end. *)
Theorem printf_correct fuel m fmt its :
  Forall (item_ok m) its → cstr m fmt (its ≫= item_fmt) →
  Forall (λ i, fuel > item_len i + length (its ≫= item_fmt))%nat its → (0 < fuel)%nat →
  ∃ outs, printf fuel m fmt (its ≫= item_args) = Ok (concat outs) ∧ Forall2 item_prints its outs.
Proof.
  intros Hok Hs Hf H0. apply printf_items; [done..| |done].
  destruct its as [|i its]; [done|]. inversion_clear Hf. lia.
Qed.

(** Printing an integer and reading it back: for every [int] but the smallest,
    [atoi] of the digits [printint] produces is that integer. *)
Theorem atoi_printint n :
  -2147483648 < n < 2147483648 →
  ∃ l, printint n 10 true = Ok l ∧ ∀ m s, cstr m s l → atoi 13 m s = Ok n.
Proof.
  intros Hn. destruct (printint_dec n) as (ds & E & (Hds & Hv & _ & Hne) & Hlen); [lia|].
  eexists. split; [exact E|]. intros m s Hs.
  destruct (show_digits_val ds 0 Hds) as [Hval Hdig]. unfold atoi.
  rewrite (number_spec 10 13 m s (n <? 0) (show_digits digits ds)).
  - f_equal. unfold num_val. rewrite Hval, Hv. destruct (Z.ltb_spec n 0); lia.
  - lia.
  - done.
  - intros He. apply fmap_nil_inv in He. done.
  - done.
  - unfold num_val. rewrite Hval, Hv. lia.
  - unfold show_digits. rewrite length_fmap. lia.
Qed.

(** The format string [n=%d %s%%] at address 100 and the string [ab] at 200. *)
Definition sample_user : mem :=
  put_bytes (put_bytes (λ _, 0) 100 (bytes_of "n=%d %s%%")) 200 (bytes_of "ab").

Lemma printf_correct_witness :
  printf 20 sample_user 100 [u32 (-42); 200] = Ok (bytes_of "n=-42 ab%") ∧
  ∃ outs, printf 20 sample_user 100 [u32 (-42); 200] = Ok (concat outs) ∧
    Forall2 item_prints [ILit 110; ILit 61; IDec (-42); ILit 32; IStr 200 [97; 98]; IPct] outs.
Proof.
  split; [vm_compute; reflexivity|].
  apply (printf_correct 20 sample_user 100
    [ILit 110; ILit 61; IDec (-42); ILit 32; IStr 200 [97; 98]; IPct]).
  - repeat constructor; cbn; lia.
  - vm_compute. repeat split; discriminate.
  - repeat constructor; vm_compute; lia.
  - lia.
Defined.

Lemma atoi_printint_witness :
  printint (-1234) 10 true = Ok (bytes_of "-1234") ∧
  atoi 13 (put_bytes (λ _, 0) 100 (bytes_of "-1234")) 100 = Ok (-1234).
Proof.
  split; [vm_compute; reflexivity|].
  destruct (atoi_printint (-1234) ltac:(lia)) as (l & E & H). apply H.
  assert (El : l = bytes_of "-1234") by (vm_compute in E |- *; congruence). rewrite El.
  vm_compute. repeat split; discriminate.
Defined.
