(* ===== verification/Grep.v ===== *)
(** * The regular expression matcher and line filter of grep

    Models [match], [matchhere], [matchstar] and [grep] of src/grep.c on the memory of the
    process; the global array [buf] lies at [buf_at].  The two matchers call each other,
    with one unit of fuel per call or round; [|re| + |text| + 2] units are enough.  The
    input of [grep] is a list of chunks as in [Ulib], its output the bytes written to
    descriptor 1.

    The reference is the language of a pattern: a list of items, each a byte or a period,
    possibly starred, with anchors at both ends. *)

From S2P Require Import Prelude KString Ulib.
Local Open Scope Z_scope.

(** ** Definitions *)

Fixpoint matchhere (fuel : nat) (m : mem) (re text : Z) : outcome bool :=
  match fuel with
  | O => Diverge
  | S fuel' =>
      if m re =? 0 then Ok true
      else if m (re + 1) =? 42 then matchstar fuel' m (m re) (re + 2) text
      else if (m re =? 36) && (m (re + 1) =? 0) then Ok (m text =? 0)
      else if negb (m text =? 0) && ((m re =? 46) || (m re =? m text)) then
        matchhere fuel' m (re + 1) (text + 1)
      else Ok false
  end
with matchstar (fuel : nat) (m : mem) (c re text : Z) : outcome bool :=
  match fuel with
  | O => Diverge
  | S fuel' =>
      b ← matchhere fuel' m re text;
      if (b : bool) then Ok true
      else if negb (m text =? 0) && ((m text =? c) || (c =? 46)) then
        matchstar fuel' m c re (text + 1)
      else Ok false
  end.

(** The [do] loop of [match]. *)
Fixpoint match_loop (fuel : nat) (m : mem) (re text : Z) : outcome bool :=
  match fuel with
  | O => Diverge
  | S fuel' =>
      b ← matchhere fuel m re text;
      if (b : bool) then Ok true
      else if negb (m text =? 0) then match_loop fuel' m re (text + 1)
      else Ok false
  end.

Definition match_ (fuel : nat) (m : mem) (re text : Z) : outcome bool :=
  if m re =? 94 then matchhere fuel m (re + 1) text else match_loop fuel m re text.

Section Grep.
Variable buf_at : Z.
Definition SIZEOF_buf : Z := 1024.

(** The loop over the lines in [buf]: memory, the final [p] and the output. *)
Fixpoint grep_lines (fuel : nat) (m : mem) (pattern p : Z) : outcome (mem * Z * list Z) :=
  match fuel with
  | O => Diverge
  | S fuel' =>
      q ← strchr fuel m p 10;
      if q =? 0 then Ok (m, p, [])
      else
        let m := mupd m q 0 in
        b ← match_ fuel m pattern p;
        let m := if (b : bool) then mupd m q 10 else m in
        let line := if (b : bool) then mread m p (Z.to_nat (q + 1 - p)) else [] in
        '(m, p, out) ← grep_lines fuel' m pattern (q + 1);
        Ok (m, p, line ++ out)
  end.

Fixpoint grep_loop (fuel : nat) (m : mem) (pattern k : Z) (inp : input) : outcome (mem * list Z) :=
  match fuel with
  | O => Diverge
  | S fuel' =>
      let '(bytes, inp) := uread (SIZEOF_buf - k - 1) inp in
      if Z.of_nat (length bytes) >? 0 then
        let m := put_bytes m (buf_at + k) bytes in
        let k := k + Z.of_nat (length bytes) in
        let m := mupd m (buf_at + k) 0 in
        '(m, p, out) ← grep_lines fuel m pattern buf_at;
        let k := if p =? buf_at then 0 else k in
        let '(m, k) :=
          if k >? 0 then
            let k := k - (p - buf_at) in (umemmove m buf_at p k, k)
          else (m, k) in
        '(m, rest) ← grep_loop fuel' m pattern k inp;
        Ok (m, out ++ rest)
      else Ok (m, [])
  end.

Definition grep (fuel : nat) (m : mem) (pattern : Z) (inp : input) : outcome (mem * list Z) :=
  grep_loop fuel m pattern 0 inp.
End Grep.

(** *** The language of a pattern *)

Inductive ritem := One (c : Z) | Star (c : Z).

(** The items of a pattern without its leading anchor, and whether it ends in one. *)
Fixpoint parse_re (l : list Z) : list ritem * bool :=
  match l with
  | [] => ([], false)
  | c :: l' =>
      match l' with
      | [] => if c =? 36 then ([], true) else ([One c], false)
      | x :: r =>
          if x =? 42 then let '(its, e) := parse_re r in (Star c :: its, e)
          else let '(its, e) := parse_re l' in (One c :: its, e)
      end
  end.

Definition accepts (c x : Z) : Prop := c = 46 ∨ c = x.

Inductive matches : list ritem → list Z → Prop :=
| matches_nil : matches [] []
| matches_one c x its t : accepts c x → matches its t → matches (One c :: its) (x :: t)
| matches_star0 c its t : matches its t → matches (Star c :: its) t
| matches_star c x its t :
    accepts c x → matches (Star c :: its) t → matches (Star c :: its) (x :: t).

(** A prefix of the text is in the language; all of it if the pattern ends in an anchor. *)
Definition here (pat : list ritem * bool) (t : list Z) : Prop :=
  ∃ mid post, t = mid ++ post ∧ matches pat.1 mid ∧ (pat.2 = true → post = []).

(** Part of the text matches the whole pattern: its beginning if the pattern starts with
    an anchor, or the text from some point on. *)
Definition anchored (r : list Z) : bool := match r with c :: _ => c =? 94 | [] => false end.
Definition found (r t : list Z) : Prop :=
  if anchored r then here (parse_re (tail r)) t
  else ∃ pre rest, t = pre ++ rest ∧ here (parse_re r) rest.

(** The two matchers, together: what they decide with a given amount of fuel. *)
Definition here_ok (m : mem) (fuel : nat) : Prop := ∀ re text r t,
  cstr m re r → cstr m text t → (length r + length t + 1 ≤ fuel)%nat →
  ∃ b, matchhere fuel m re text = Ok b ∧ (b = true ↔ here (parse_re r) t).
Definition star_ok (m : mem) (fuel : nat) : Prop := ∀ c re text r t,
  cstr m re r → cstr m text t → (length r + length t + 2 ≤ fuel)%nat →
  ∃ b, matchstar fuel m c re text = Ok b ∧
    (b = true ↔ here (Star c :: (parse_re r).1, (parse_re r).2) t).

(** A text of complete lines. *)
Definition unlines (ls : list (list Z)) : list Z := concat ((λ l, l ++ [10]) <$> ls).

(** The lines that match the pattern, in order. *)
Inductive selects (r : list Z) : list (list Z) → list Z → Prop :=
| selects_nil : selects r [] []
| selects_yes l ls out : found r l → selects r ls out → selects r (l :: ls) (l ++ [10] ++ out)
| selects_no l ls out : ¬ found r l → selects r ls out → selects r (l :: ls) out.

(** ** Lemmas *)

Lemma here_nil t : here ([], false) t.
Proof. exists [], t. split_and!; [done | constructor | done]. Qed.

Lemma here_end t : here ([], true) t ↔ t = [].
Proof.
  split.
  - intros (mid & post & -> & Hm & Hp). inversion Hm. by rewrite Hp.
  - intros ->. exists [], []. split_and!; [done | constructor | done].
Qed.

Lemma here_one c its e t :
  here (One c :: its, e) t ↔ ∃ x t', t = x :: t' ∧ accepts c x ∧ here (its, e) t'.
Proof.
  split.
  - intros (mid & post & -> & Hm & Hp). inversion Hm as [|? x ? t' Hx Hm'| |]; subst.
    exists x, (t' ++ post). split_and!; [done..|]. by exists t', post.
  - intros (x & t' & -> & Hx & mid & post & -> & Hm & Hp). exists (x :: mid), post.
    split_and!; [done | by constructor | done].
Qed.

Lemma here_star c its e t :
  here (Star c :: its, e) t ↔
    here (its, e) t ∨ ∃ x t', t = x :: t' ∧ accepts c x ∧ here (Star c :: its, e) t'.
Proof.
  split.
  - intros (mid & post & -> & Hm & Hp).
    inversion Hm as [|?|? ? ? Hm'|? x ? t' Hx Hm']; subst; [by left; exists mid, post|right].
    exists x, (t' ++ post). split_and!; [done..|]. by exists t', post.
  - intros [(mid & post & -> & Hm & Hp)|(x & t' & -> & Hx & mid & post & -> & Hm & Hp)].
    + exists mid, post. split_and!; [done | by constructor | done].
    + exists (x :: mid), post. split_and!; [done | by apply matches_star | done].
Qed.

Lemma parse_star c r : parse_re (c :: 42 :: r) = (Star c :: (parse_re r).1, (parse_re r).2).
Proof. cbn. by destruct (parse_re r). Qed.

Lemma parse_one c x r : x ≠ 42 →
  parse_re (c :: x :: r) = (One c :: (parse_re (x :: r)).1, (parse_re (x :: r)).2).
Proof.
  intros Hx. change (parse_re (c :: x :: r)) with
    (if x =? 42 then let '(its, e) := parse_re r in (Star c :: its, e)
     else let '(its, e) := parse_re (x :: r) in (One c :: its, e)).
  destruct (Z.eqb_spec x 42); [done|]. by destruct (parse_re (x :: r)).
Qed.

(** The last case of [matchhere]: the first byte of the pattern against that of the text. *)
Lemma matchhere_one fuel m re text c r t :
  here_ok m fuel → cstr m (re + 1) r → cstr m text t → (length r + length t ≤ fuel)%nat →
  ∃ b, (if negb (m text =? 0) && ((c =? 46) || (c =? m text))
        then matchhere fuel m (re + 1) (text + 1) else Ok false) = Ok b ∧
    (b = true ↔ here (One c :: (parse_re r).1, (parse_re r).2) t).
Proof.
  intros IHh Hr Ht Hf. setoid_rewrite here_one. rewrite <- surjective_pairing. destruct t as [|x t]; simpl in Ht.
    - rewrite Ht. exists false. split; [done|]. split; [done|]. by intros (? & ? & ? & _).
    - destruct Ht as (Hx & Hx0 & Ht). rewrite Hx. destruct (Z.eqb_spec x 0); [done|]. cbn [negb andb].
      destruct ((c =? 46) || (c =? x)) eqn:Ea.
      + destruct (IHh (re + 1) (text + 1) r t Hr Ht) as (b & -> & Hb); [simpl in Hf; lia|].
        exists b. split; [done|]. rewrite Hb. unfold accepts. split.
        * intros H. exists x, t. split_and!; [done | | done].
          apply orb_true_iff in Ea as [Ea|Ea]; apply Z.eqb_eq in Ea; auto.
        * by intros (? & ? & [= <- <-] & _ & H).
      + exists false. split; [done|]. split; [done|]. intros (? & ? & [= <- <-] & Ha & _).
        apply orb_false_iff in Ea as [E1 E2]. apply Z.eqb_neq in E1, E2. destruct Ha; done.
Qed.

Lemma matchhere_step m fuel : here_ok m fuel → star_ok m fuel → here_ok m (S fuel).
Proof.
  intros IHh IHs re text r t Hr Ht Hf. cbn [matchhere].
  destruct r as [|c r]; simpl in Hr.
  { rewrite Hr. exists true. split; [done|]. split; [|done]. intros _. apply here_nil. }
  destruct Hr as (Hc & Hn & Hr). rewrite Hc. destruct (Z.eqb_spec c 0); [done|].
  pose proof (matchhere_one fuel m re text c r t IHh Hr Ht ltac:(simpl in Hf; lia)) as Hone.
  destruct r as [|x r].
  + simpl in Hr. rewrite Hr. cbn [parse_re]. rewrite Z.eqb_refl, andb_true_r.
    change (0 =? 42) with false. cbv iota. destruct (Z.eqb_spec c 36) as [->|Hc36].
    * exists (m text =? 0). split; [done|]. rewrite here_end, Z.eqb_eq. destruct t as [|x t]; simpl in Ht; [done|].
      destruct Ht as (-> & ? & _). done.
    * done.
  + simpl in Hr. destruct Hr as (Hx & Hx0 & Hr). rewrite Hx.
    destruct (Z.eqb_spec x 42) as [->|Hx42].
    * rewrite parse_star. destruct (IHs c (re + 2) text r t) as (b & -> & Hb);
        [by replace (re + 2) with (re + 1 + 1) by lia | done | simpl in Hf; lia|].
      by exists b.
    * destruct (Z.eqb_spec x 0); [done|]. rewrite andb_false_r. by rewrite parse_one.
Qed.

Lemma matchstar_step m fuel : here_ok m fuel → star_ok m fuel → star_ok m (S fuel).
Proof.
  intros IHh IHs c re text r t Hr Ht Hf. cbn [matchstar].
  destruct (IHh re text r t Hr Ht) as (b & -> & Hb); [lia|]. cbn [mbind outcome_bind obind].
  setoid_rewrite here_star. destruct (parse_re r) as [its e] eqn:Ep. cbn [fst snd].
  destruct b.
  { exists true. split; [done|]. split; [|done]. intros _. left. by apply Hb. }
  assert (Hno : ¬ here (its, e) t) by (rewrite <- Hb; done).
  destruct t as [|x t]; simpl in Ht.
  { rewrite Ht. exists false. split; [done|]. split; [done|]. intros [?|(? & ? & ? & _)]; done. }
  destruct Ht as (Hx & Hx0 & Ht). rewrite Hx. destruct (Z.eqb_spec x 0); [done|]. cbn [negb andb].
  destruct ((x =? c) || (c =? 46)) eqn:Ea.
  + destruct (IHs c re (text + 1) r t Hr Ht) as (b & -> & Hb'); [simpl in Hf; lia|].
    exists b. split; [done|]. rewrite Hb', Ep. cbn [fst snd]. split.
    * intros H. right. exists x, t. split_and!; [done | | done]. unfold accepts.
      apply orb_true_iff in Ea as [Ea|Ea]; apply Z.eqb_eq in Ea; auto.
    * intros [?|(? & ? & [= <- <-] & _ & H)]; done.
  + exists false. split; [done|]. split; [done|]. intros [?|(? & ? & [= <- <-] & Ha & _)]; [done|].
    apply orb_false_iff in Ea as [E1 E2]. apply Z.eqb_neq in E1, E2. destruct Ha; congruence.
Qed.

Lemma matchers_spec m fuel : here_ok m fuel ∧ star_ok m fuel.
Proof.
  induction fuel as [|fuel [IHh IHs]]; [split; intros ? **; lia|].
  split; [by apply matchhere_step | by apply matchstar_step].
Qed.

Lemma match_loop_spec fuel m re text r t :
  cstr m re r → cstr m text t → (length r + length t + 1 ≤ fuel)%nat →
  ∃ b, match_loop fuel m re text = Ok b ∧
    (b = true ↔ ∃ pre rest, t = pre ++ rest ∧ here (parse_re r) rest).
Proof.
  revert text t; induction fuel as [|fuel IH]; intros text t Hr Ht Hf; [lia|].
  cbn [match_loop]. destruct (matchers_spec m (S fuel)) as [Hh _].
  destruct (Hh re text r t Hr Ht ltac:(lia)) as (b & -> & Hb). cbn [mbind outcome_bind obind].
  destruct b.
  { exists true. split; [done|]. split; [|done]. intros _. exists [], t. split; [done | by apply Hb]. }
  destruct t as [|x t]; simpl in Ht.
  - rewrite Ht. exists false. split; [done|]. rewrite Hb. split; [by exists [], []|].
    intros (pre & rest & He & Hrest). symmetry in He. by apply app_eq_nil in He as [-> ->].
  - destruct Ht as (Hx & Hx0 & Ht). rewrite Hx. destruct (Z.eqb_spec x 0); [done|]. cbn [negb].
    destruct (IH (text + 1) t Hr Ht) as (b & -> & Hb'); [simpl in Hf; lia|].
    exists b. split; [done|]. rewrite Hb'. split.
    + intros (pre & rest & -> & Hrest). by exists (x :: pre), rest.
    + intros ([|x' pre] & rest & He & Hrest); simpl in He; [subst rest; by apply Hb in Hrest|].
      injection He as -> ->. by exists pre, rest.
Qed.

Lemma match_spec fuel m re text r t :
  cstr m re r → cstr m text t → (length r + length t + 1 ≤ fuel)%nat →
  ∃ b, match_ fuel m re text = Ok b ∧ (b = true ↔ found r t).
Proof.
  intros Hr Ht Hf. unfold match_, found. destruct r as [|c r]; cbn [anchored tail].
  - pose proof Hr as E. simpl in E. rewrite E. change (0 =? 94) with false. by apply match_loop_spec.
  - pose proof Hr as (-> & _ & Hr'). destruct (Z.eqb_spec c 94) as [->|Hc].
    + destruct (matchers_spec m fuel) as [Hh _]. apply Hh; [done..|]. simpl in Hf. lia.
    + by apply match_loop_spec.
Qed.

(** *** Lines in memory *)

Lemma unlines_cons l ls : unlines (l :: ls) = l ++ [10] ++ unlines ls.
Proof. unfold unlines. cbn. by rewrite <- app_assoc. Qed.

Lemma unlines_app ls ls' : unlines (ls ++ ls') = unlines ls ++ unlines ls'.
Proof. unfold unlines. by rewrite fmap_app, concat_app. Qed.

Lemma list_find_line l t : 10 ∉ l → list_find (λ b, b = 10) (l ++ 10 :: t) = Some (length l, 10).
Proof.
  intros Hl. apply list_find_Some. split_and!; [by rewrite list_lookup_middle | done|].
  intros j y Hj Hlt ->. apply Hl. rewrite lookup_app_l in Hj by done. by eapply list_elem_of_lookup_2.
Qed.

(** The part of a text that is in the buffer. *)
Lemma split_prefix B R ls last :
  10 ∉ last → Forall (λ l, 10 ∉ l) ls → B ++ R = unlines ls ++ last →
  ∃ ls1 ls2 pB, ls = ls1 ++ ls2 ∧ B = unlines ls1 ++ pB ∧ (10 ∉ pB) ∧ pB ++ R = unlines ls2 ++ last.
Proof.
  intros Hlast Hls. revert B; induction ls as [|l ls IH]; intros B E.
  - exists [], [], B. split_and!; [done..| |done]. intros HB. apply Hlast.
    change (B ++ R = last) in E. subst last. by apply elem_of_app; left.
  - inversion_clear Hls as [|? ? Hl Hls']. pose proof E as E0. rewrite unlines_cons, !app_assoc in E.
    rewrite <- (app_assoc _ _ last) in E. apply app_eq_inv in E as [(k & -> & E)|(k & E & _)].
    + destruct (IH Hls' k) as (ls1 & ls2 & pB & -> & -> & HpB & E'); [done|].
      exists (l :: ls1), ls2, pB. split_and!; [done| |done..]. by rewrite unlines_cons, !app_assoc.
    + destruct k as [|x k' _] using rev_ind.

      * rewrite app_nil_r in E. subst B. exists [l], ls, []. split_and!; [done | | apply not_elem_of_nil |].
        { unfold unlines. cbn. by rewrite !app_nil_r. }
        rewrite unlines_cons, !app_assoc, <- (app_assoc _ _ last) in E0. by apply app_inv_head in E0.
      * rewrite app_assoc in E. apply app_inj_tail in E as [-> _].
        exists [], ((B ++ k') :: ls), B. split_and!; [done..| |done]. set_solver.
Qed.

(** *** The loops of [grep] *)

(** The bytes one read takes. *)
Lemma chunk_spec n (rest : list Z) : (0 < n)%nat → rest ≠ [] →
  ∃ bytes R, take n rest = bytes ∧ drop n rest = R ∧ rest = bytes ++ R ∧ (0 < length bytes)%nat ∧
    (length bytes ≤ n)%nat ∧ (R ≠ [] → length bytes = n).
Proof.
  intros Hn Hr. exists (take n rest), (drop n rest). rewrite length_take.
  split_and!; [done | done | by rewrite take_drop | destruct rest; [done | simpl; lia] | lia |].
  intros HR. assert (n < length rest)%nat; [|lia]. apply not_le. intros Hle. by apply HR, drop_ge.
Qed.

Lemma selects_app r ls ls' out out' :
  selects r ls out → selects r ls' out' → selects r (ls ++ ls') (out ++ out').
Proof.
  intros H H'. induction H; cbn [app]; [done | |by constructor].
  rewrite <- !app_assoc. by constructor.
Qed.

Section Loops.
Variables (buf_at pattern : Z) (r : list Z).
Hypothesis buf_pos : 0 < buf_at.

(** The pattern lies outside the buffer. *)
Definition apart : Prop :=
  pattern + Z.of_nat (length r) < buf_at ∨ buf_at + SIZEOF_buf ≤ pattern.
Hypothesis pattern_apart : apart.

Lemma pattern_frame m m' :
  (∀ x, x < buf_at ∨ buf_at + SIZEOF_buf ≤ x → m' x = m x) → cstr m pattern r → cstr m' pattern r.
Proof using pattern_apart.
  intros H. apply cstr_ext. intros x Hx. symmetry. apply H. unfold apart in pattern_apart. lia.
Qed.

(** One line of the buffer. *)
Lemma grep_line fuel m p l t :
  cstr m pattern r → cstr m p (l ++ 10 :: t) → 10 ∉ l → buf_at ≤ p →
  p + Z.of_nat (length l) < buf_at + SIZEOF_buf → (length r + length (l ++ 10%Z :: t) < fuel)%nat →
  ∃ m2 line,
    grep_lines fuel m pattern p =
      (grep_lines (pred fuel) m2 pattern (p + Z.of_nat (length l) + 1) ≫=
       λ '(m', p', out), Ok (m', p', line ++ out)) ∧
    (∀ x, x ≠ p + Z.of_nat (length l) → m2 x = m x) ∧
    (found r l ∧ line = l ++ [10] ∨ ¬ found r l ∧ line = []).
Proof using buf_pos pattern_apart.
  intros Hr Ht Hl Hp Hend Hf. destruct fuel as [|fuel]; [lia|]. cbn [grep_lines pred].
  rewrite (strchr_spec (S fuel) m p 10 (l ++ 10 :: t)) by (done || lia).
  rewrite list_find_line by done. cbn [mbind outcome_bind obind].
  destruct (Z.eqb_spec (p + Z.of_nat (length l)) 0); [lia|].
  set (q := p + Z.of_nat (length l)) in *.
  destruct (match_spec (S fuel) (mupd m q 0) pattern p r l) as (b & -> & Hb).
  - eapply pattern_frame; [|exact Hr]. intros x Hx. apply mupd_ne. unfold q. lia.
  - by eapply cstr_cut.
  - rewrite length_app in Hf. lia.
  - cbn [mbind outcome_bind obind]. eexists _, _. split; [reflexivity|]. split.
    + intros x Hx. destruct b; by rewrite !mupd_ne.
    + destruct b; [left | right; split; [by rewrite <- Hb | done]]. split; [by apply Hb|].
      replace (Z.to_nat (q + 1 - p)) with (length l + 1)%nat by (unfold q; lia).
      rewrite mread_app. fold q. f_equal; [|cbn; by rewrite mupd_eq].
      apply cstr_mread in Ht as (Ht & _). rewrite length_app, mread_app in Ht.
      apply app_inj_1 in Ht as [Ht _]; [|by rewrite length_mread].
      etrans; [|exact Ht]. apply mread_ext. intros x Hx. rewrite !mupd_ne by (unfold q; lia). done.
Qed.

Lemma grep_lines_spec fuel m p ls last :
  cstr m pattern r → cstr m p (unlines ls ++ last) → Forall (λ l, 10 ∉ l) ls → 10 ∉ last →
  buf_at ≤ p → p + Z.of_nat (length (unlines ls ++ last)) < buf_at + SIZEOF_buf →
  (length r + length (unlines ls ++ last) < fuel)%nat →
  ∃ m' out, grep_lines fuel m pattern p = Ok (m', p + Z.of_nat (length (unlines ls)), out) ∧
    selects r ls out ∧ ∀ x, x < p ∨ p + Z.of_nat (length (unlines ls)) ≤ x → m' x = m x.
Proof using buf_pos pattern_apart.
  revert fuel m p; induction ls as [|l ls IH]; intros fuel m p Hr Ht Hls Hlast Hp Hend Hf.
  - change (unlines []) with ([] : list Z) in *. cbn [app length] in *.
    destruct fuel as [|fuel]; [lia|]. cbn [grep_lines].
    rewrite (strchr_spec (S fuel) m p 10 last) by (done || lia). cbn [mbind outcome_bind obind].
    destruct (list_find _ last) as [[i x]|] eqn:E.
    { apply list_find_Some in E as (E & -> & _). exfalso. apply Hlast. by eapply list_elem_of_lookup_2. }
    rewrite Z.eqb_refl. exists m, []. rewrite Z.add_0_r. split_and!; [done | constructor | done].
  - inversion_clear Hls as [|? ? Hl Hls'].
    assert (E0 : unlines (l :: ls) ++ last = l ++ 10 :: (unlines ls ++ last))
      by (rewrite unlines_cons, <- !app_assoc; done).
    rewrite E0 in *. pose proof Hend as Hend'. rewrite length_app in Hend', Hf. cbn [length] in Hend', Hf.
    destruct (grep_line fuel m p l (unlines ls ++ last)) as (m2 & line & -> & Hfr2 & Hline);
      [done | done | done | done | lia | rewrite length_app; simpl; lia |].
    set (q := p + Z.of_nat (length l)) in *.
    assert (Ht' : cstr m2 (q + 1) (unlines ls ++ last)).
    { change (10 :: ?k) with ([10] ++ k) in Ht. rewrite app_assoc in Ht. apply cstr_drop in Ht.
      rewrite length_app in Ht. cbn [length] in Ht.
      replace (p + Z.of_nat (length l + 1)) with (q + 1) in Ht by (unfold q; lia).
      eapply cstr_ext; [|exact Ht]. intros x Hx. symmetry. apply Hfr2. unfold q in *. lia. }
    destruct (IH (pred fuel) m2 (q + 1)) as (m' & out & -> & Hout & Hfr);
      [|done..|unfold q; lia|unfold q; lia|lia|].
    { eapply pattern_frame; [|exact Hr]. intros x Hx. apply Hfr2. unfold q. lia. }
    cbn [mbind outcome_bind obind]. exists m', (line ++ out).
    rewrite unlines_cons, !length_app. cbn [length]. split_and!.
    + do 3 f_equal. unfold q. lia.
    + destruct Hline as [[Hf' ->]|[Hf' ->]]; [rewrite <- app_assoc|]; by constructor.
    + intros x Hx. rewrite Hfr, Hfr2 by (unfold q; lia). done.
Qed.
(** No byte of the buffer is a newline and there is more input only if the rest of the
    input starts in the middle of a line that is too long. *)
Lemma no_newline_end B R ls last :
  Forall (λ l, Z.of_nat (length l) + 2 ≤ SIZEOF_buf) ls → Z.of_nat (length last) + 2 ≤ SIZEOF_buf →
  10 ∉ B → B ++ R = unlines ls ++ last →
  (R ≠ [] → Z.of_nat (length B) = SIZEOF_buf - 1) → R = [] ∧ ls = [].
Proof using.
  intros Hls Hlast HB E Hfull. destruct ls as [|l ls].
  - split; [|done]. destruct R as [|c R]; [done|]. specialize (Hfull ltac:(done)).
    cbn in E. subst last. rewrite length_app in Hlast. lia.
  - exfalso. inversion_clear Hls as [|? ? Hl _]. rewrite unlines_cons, <- !app_assoc in E.
    assert (HR : (length l < length B)%nat).
    { destruct R as [|c R]; [|specialize (Hfull ltac:(done)); lia].
      rewrite app_nil_r in E. subst B. rewrite !length_app. simpl. lia. }
    apply HB. assert (B !! length l = Some 10); [|by eapply list_elem_of_lookup_2].
    rewrite <- (lookup_app_l B R), E by done. by rewrite lookup_app_r, Nat.sub_diag.
Qed.

(** What is left to read: the bytes [rest] of a file. *)
Definition file_input (rest : list Z) : input := match rest with [] => [] | _ => [rest] end.

Lemma uread_file n rest : 0 < n →
  uread n (file_input rest) = (take (Z.to_nat n) rest, file_input (drop (Z.to_nat n) rest)).
Proof using.
  intros Hn. destruct rest as [|c rest]; [by rewrite take_nil, drop_nil|]. unfold file_input, uread.
  by destruct (drop (Z.to_nat n) (c :: rest)).
Qed.

(** The buffer after a read. *)
Lemma grep_fill m pre bytes :
  mread m buf_at (length pre) = pre → Forall (λ c, c ≠ 0) (pre ++ bytes) →
  Z.of_nat (length (pre ++ bytes)) < SIZEOF_buf →
  let m' := mupd (put_bytes m (buf_at + Z.of_nat (length pre)) bytes)
              (buf_at + (Z.of_nat (length pre) + Z.of_nat (length bytes))) 0 in
  cstr m' buf_at (pre ++ bytes) ∧ ∀ x, x < buf_at ∨ buf_at + SIZEOF_buf ≤ x → m' x = m x.
Proof using.
  intros Hpre Hnz Hlen m'. rewrite length_app in Hlen. split.
  - apply cstr_mread. rewrite length_app, mread_app. split_and!; [|subst m'; rewrite Nat2Z.inj_add; apply mupd_eq | done].
    f_equal.
    + etrans; [|exact Hpre]. apply mread_ext. intros x Hx. subst m'. rewrite mupd_ne, put_bytes_spec by lia.
      by bool_cases.
    + etrans; [|apply mread_put_bytes]. apply mread_ext. intros x Hx. subst m'. by rewrite mupd_ne by lia.
  - intros x Hx. subst m'. rewrite mupd_ne, put_bytes_spec by lia. by bool_cases.
Qed.

(** Moving the last, incomplete line to the front of the buffer. *)
Lemma grep_move m k t :
  cstr m (buf_at + Z.of_nat k) t → Z.of_nat (k + length t) ≤ SIZEOF_buf →
  let m' := umemmove m buf_at (buf_at + Z.of_nat k) (Z.of_nat (length t)) in
  mread m' buf_at (length t) = t ∧ ∀ x, x < buf_at ∨ buf_at + SIZEOF_buf ≤ x → m' x = m x.
Proof using.
  intros Ht Hlen. cbv zeta. unfold umemmove. rewrite Nat2Z.id. apply cstr_mread in Ht as (Ht & _).
  split.
  - apply list_eq_same_length with (n := length t); [by rewrite ?length_mread.. |].
    intros j x y Hj. rewrite mread_lookup by done. intros [= <-] Hy. rewrite <- Ht in Hy.
    rewrite mread_lookup in Hy by done. injection Hy as <-. rewrite copy_up_spec by lia.
    bool_cases. f_equal. lia.
  - intros x Hx. rewrite copy_up_spec by lia. by bool_cases.
Qed.

(** The lines of the buffer after a read, with [ls] complete lines and the part [pB]. *)
Lemma grep_round fuel m pre bytes ls pB :
  cstr m pattern r → mread m buf_at (length pre) = pre → Forall (λ c, c ≠ 0) (pre ++ bytes) →
  pre ++ bytes = unlines ls ++ pB → Z.of_nat (length (pre ++ bytes)) < SIZEOF_buf →
  Forall (λ l, 10 ∉ l) ls → 10 ∉ pB → (length r + 1024 ≤ fuel)%nat →
  ∃ m' out, grep_lines fuel
      (mupd (put_bytes m (buf_at + Z.of_nat (length pre)) bytes)
        (buf_at + (Z.of_nat (length pre) + Z.of_nat (length bytes))) 0) pattern buf_at =
      Ok (m', buf_at + Z.of_nat (length (unlines ls)), out) ∧ selects r ls out ∧
    cstr m' pattern r ∧ cstr m' (buf_at + Z.of_nat (length (unlines ls))) pB.
Proof using buf_pos pattern_apart.
  intros Hr Hpre Hnz EB Hlen Hls HpB Hf.
  destruct (grep_fill m pre bytes Hpre Hnz Hlen) as [Hc Hfr]. set (m1 := mupd _ _ 0) in *.
  rewrite EB in Hc, Hlen.
  destruct (grep_lines_spec fuel m1 buf_at ls pB) as (m2 & out & E & Hsel & Hfr2);
    [by eapply pattern_frame | done.. | lia | lia | unfold SIZEOF_buf in Hlen; lia |].
  exists m2, out. rewrite length_app in Hlen. split_and!; [done..| |].
  - eapply pattern_frame; [|exact Hr]. intros x Hx. rewrite Hfr2, Hfr; [done | done | lia].
  - apply cstr_drop in Hc. eapply cstr_ext; [|exact Hc]. intros x Hx. symmetry. apply Hfr2. lia.
Qed.

Lemma grep_loop_spec fuel m pre rest ls last :
  cstr m pattern r → mread m buf_at (length pre) = pre → 10 ∉ pre →
  pre ++ rest = unlines ls ++ last → Z.of_nat (length pre) + 2 ≤ SIZEOF_buf →
  Forall (λ l, 10 ∉ l) ls → Forall (λ l, Z.of_nat (length l) + 2 ≤ SIZEOF_buf) ls →
  10 ∉ last → Z.of_nat (length last) + 2 ≤ SIZEOF_buf → Forall (λ c, c ≠ 0) (pre ++ rest) →
  (length r + length rest + 1024 < fuel)%nat →
  ∃ m' out, grep_loop buf_at fuel m pattern (Z.of_nat (length pre)) (file_input rest) = Ok (m', out) ∧
    selects r ls out ∧ cstr m' pattern r.
Proof using buf_pos pattern_apart.
  revert m pre rest ls; induction fuel as [|fuel IH];
    intros m pre rest ls Hr Hpre H10 E Hpl Hls Hlsl Hlast Hll Hnz Hf; [lia|].
  cbn [grep_loop]. rewrite uread_file by lia. cbv beta iota.
  destruct (decide (rest = [])) as [->|Hrest].
  { rewrite take_nil. destruct (no_newline_end pre [] ls last) as [_ ->]; [done..|].
    exists m, []. split_and!; [done | constructor | done]. }
  destruct (chunk_spec (Z.to_nat (SIZEOF_buf - Z.of_nat (length pre) - 1)) rest)
    as (bytes & R & -> & -> & Erest & Hb & Hbl & Hfull); [lia | done|]. subst rest.
  rewrite app_assoc in E, Hnz. apply Forall_app in Hnz as [HnzB HnzR].
  destruct (split_prefix (pre ++ bytes) R ls last Hlast Hls E) as (ls1 & ls2 & pB & -> & EB & HpB & E2).
  rewrite Z.gtb_ltb. destruct (Z.ltb_spec 0 (Z.of_nat (length bytes))); [|lia].
  apply Forall_app in Hls as [Hls1 Hls2]. apply Forall_app in Hlsl as [Hlsl1 Hlsl2].
  rewrite length_app in Hf.
  destruct (grep_round (S fuel) m pre bytes ls1 pB) as (m2 & out1 & -> & Hsel & Hr2 & Hc);
    [done.. | rewrite length_app; lia | done | done | lia |].
  cbn [mbind outcome_bind obind].
  assert (HlB : length (pre ++ bytes) = length (unlines ls1 ++ pB)) by (by rewrite EB).
  rewrite !length_app in HlB. destruct ls1 as [|l1 ls1].
  - change (unlines []) with ([] : list Z) in *. cbn [length] in *. rewrite Z.add_0_r, Z.eqb_refl.
    change (0 >? 0) with false. cbn [app] in EB. subst pB.
    destruct (no_newline_end (pre ++ bytes) R ls2 last) as [-> ->]; [done..| |].
    { intros HR. rewrite length_app. specialize (Hfull HR). lia. }
    destruct fuel; [lia|]. inversion Hsel; subst. exists m2, []. split_and!; [done | constructor | done].
  - assert (Hpos : (0 < length (unlines (l1 :: ls1)))%nat) by (rewrite unlines_cons, !length_app; simpl; lia).
    destruct (Z.eqb_spec (buf_at + Z.of_nat (length (unlines (l1 :: ls1)))) buf_at); [lia|].
    rewrite Z.gtb_ltb. destruct (Z.ltb_spec 0 (Z.of_nat (length pre) + Z.of_nat (length bytes))); [|lia].
    replace (Z.of_nat (length pre) + Z.of_nat (length bytes) -
      (buf_at + Z.of_nat (length (unlines (l1 :: ls1))) - buf_at)) with (Z.of_nat (length pB)) by lia.
    destruct (grep_move m2 _ pB Hc) as [Hmv Hfr]; [lia|].
    destruct (IH (umemmove m2 buf_at (buf_at + Z.of_nat (length (unlines (l1 :: ls1)))) (Z.of_nat (length pB)))
      pB R ls2) as (m3 & out2 & -> & Hsel2 & Hr3); try done; try lia.
    + by eapply pattern_frame.
    + rewrite EB in HnzB. apply Forall_app in HnzB as [_ ?]. by apply Forall_app.
    + cbn [mbind outcome_bind obind]. exists m3, (out1 ++ out2). split_and!; [done | by apply selects_app | done].
Qed.
End Loops.

(** ** Theorems *)

(** C9: The recursive matcher decides the language of the pattern: on a pattern [r] and a
    text [t] in memory, [match] returns, and its result is true exactly if part of [t] is
    in the language of [r] ([found]): a concatenation of bytes, periods and starred items,
    at the beginning of the text after a caret, up to its end before a dollar sign. *)
Theorem match_correct fuel m re text r t :
  cstr m re r → cstr m text t → (length r + length t + 1 ≤ fuel)%nat →
  ∃ b, match_ fuel m re text = Ok b ∧ (b = true ↔ found r t).
Proof. apply match_spec. Qed.

(** [grep] on a file prints exactly the lines that match the pattern, in order, when
    every line (and the incomplete last one) has at most 1022 bytes and the file has no
    NUL; lines that cross the end of the buffer are put together again, and the loops
    end. *)
Theorem grep_correct buf_at pattern m r ls last fuel :
  0 < buf_at → apart buf_at pattern r → cstr m pattern r →
  Forall (λ l, 10 ∉ l) ls → Forall (λ l, Z.of_nat (length l) + 2 ≤ SIZEOF_buf) ls →
  10 ∉ last → Z.of_nat (length last) + 2 ≤ SIZEOF_buf →
  Forall (λ c, c ≠ 0) (unlines ls ++ last) →
  (length r + length (unlines ls ++ last) + 1024 < fuel)%nat →
  ∃ m' out, grep buf_at fuel m pattern (file_input (unlines ls ++ last)) = Ok (m', out) ∧
    selects r ls out ∧ cstr m' pattern r.
Proof.
  intros Hb Ha Hr Hls Hlsl Hlast Hll Hnz Hf. unfold grep.
  apply (grep_loop_spec buf_at pattern r Hb Ha fuel m [] _ ls last); try done.
  apply not_elem_of_nil.
Qed.

(** The pattern [^a.*c$] at 100 and the text [abbc] at 200. *)
Definition grep_sample : mem :=
  put_bytes (put_bytes (λ _, 0) 100 [94; 97; 46; 42; 99; 36]) 200 [97; 98; 98; 99].

Lemma match_correct_witness :
  match_ 11 grep_sample 100 200 = Ok true ∧ found [94; 97; 46; 42; 99; 36] [97; 98; 98; 99].
Proof.
  destruct (match_correct 11 grep_sample 100 200 [94; 97; 46; 42; 99; 36] [97; 98; 98; 99])
    as (b & E & H); [vm_compute; repeat split; discriminate.. | simpl; lia |].
  assert (Hm : match_ 11 grep_sample 100 200 = Ok true) by (vm_compute; reflexivity).
  split; [exact Hm|]. apply H. congruence.
Defined.

Definition grep_out (o : outcome (mem * list Z)) : option (list Z) :=
  match o with Ok (_, out) => Some out | _ => None end.

(** The lines [ac], [b] and [abc] and the incomplete line [a]. *)
Lemma grep_correct_witness :
  ∃ m' out, grep 1000 1100 grep_sample 100 [[97; 99; 10; 98; 10; 97; 98; 99; 10; 97]] = Ok (m', out) ∧
    selects [94; 97; 46; 42; 99; 36] [[97; 99]; [98]; [97; 98; 99]] out ∧
    out = [97; 99; 10; 97; 98; 99; 10].
Proof.
  destruct (grep_correct 1000 100 grep_sample [94; 97; 46; 42; 99; 36]
    [[97; 99]; [98]; [97; 98; 99]] [97] 1100) as (m' & out & E & H & _).
  - lia.
  - left. simpl. lia.
  - vm_compute. repeat split; discriminate.
  - apply (bool_decide_eq_true_1 _). vm_compute. reflexivity.
  - repeat constructor; unfold SIZEOF_buf; simpl; lia.
  - apply (bool_decide_eq_true_1 _). vm_compute. reflexivity.
  - unfold SIZEOF_buf. simpl. lia.
  - repeat constructor; discriminate.
  - simpl. lia.
  - exists m', out. split_and!; [exact E | exact H |].
    apply (f_equal grep_out) in E. vm_compute in E. congruence.
Defined.

(** A read that ends inside the first line: what was read of the line is dropped. *)
Example grep_short_read :
  grep_out (grep 1000 1100 grep_sample 100 [[97; 98]; [99; 10]]) = Some [] ∧
  grep_out (grep 1000 1100 grep_sample 100 [[97; 98; 99; 10]]) = Some [97; 98; 99; 10].
Proof. split; vm_compute; reflexivity. Qed.
