(* ===== verification/Sh.v ===== *)
(** * The parser of the shell

    Models the command tree and the parser of src/sh.c.  A command line lies in memory; the
    parser moves a pointer through it, up to the end [es] of the line, and leaves the
    memory alone until [nulterminate] cuts the words.  A [struct cmd *] is a tree: the
    parser allocates its nodes and changes none of them but the argument vector of the
    command [parseexec] is working on, so [parseredirs] returns what it wraps around a
    command as a list, outermost last, and [parseexec] builds the command when its words
    are known.  A call of [panic] is [Panic], without the text of the
    leftovers [parsecmd] prints before it; an allocation is assumed to succeed.

    The functions that call each other take fuel; [4 * n + 4] units are enough for a line of
    [n] bytes ([parsecmd_terminates]). *)

From S2P Require Import Prelude Param KString Ulib.
Local Open Scope Z_scope.

(** ** Definitions *)

Definition MAXARGS : nat := 10.

(** [struct redircmd] without its command. *)
Record redir := mkRedir { r_file : Z; r_efile : Z; r_mode : Z; r_fd : Z }.

(** The words of [EXEC] are the pairs of [argv[i]] and [eargv[i]]. *)
Inductive cmd :=
| EXEC (args : list (Z * Z))
| REDIR (c : cmd) (r : redir)
| PIPE (left right : cmd)
| LIST (left right : cmd)
| BACK (c : cmd).

Definition redircmd (c : cmd) (file efile mode fd : Z) : cmd := REDIR c (mkRedir file efile mode fd).

(** [whitespace] and [symbols], and membership by [strchr]. *)
Definition whitespace : list Z := [32; 9; 13; 10; 11].
Definition symbols : list Z := [60; 124; 62; 38; 59; 40; 41].
Definition in_set (l : list Z) (c : Z) : bool := existsb (Z.eqb c) l.

(** [while(s < es && strchr(whitespace, *s)) s++] with [k] bytes before [es]. *)
Fixpoint skip_ws (k : nat) (m : mem) (s : Z) : Z :=
  match k with
  | O => s
  | S k' => if in_set whitespace (m s) then skip_ws k' m (s + 1) else s
  end.

(** The end of a word. *)
Fixpoint skip_word (k : nat) (m : mem) (s : Z) : Z :=
  match k with
  | O => s
  | S k' =>
      if negb (in_set whitespace (m s)) && negb (in_set symbols (m s)) then skip_word k' m (s + 1)
      else s
  end.

(** The bytes before [es]. *)
Definition upto (es s : Z) : nat := Z.to_nat (es - s).

(** The token, [*q], [*eq] and the new [*ps]. *)
Definition gettoken (m : mem) (es s : Z) : Z * Z * Z * Z :=
  let s := skip_ws (upto es s) m s in
  let q := s in
  let c := m s in
  let '(ret, s) :=
    if c =? 0 then (0, s)
    else if in_set [124; 40; 41; 59; 38; 60] c then (c, s + 1)
    else if c =? 62 then
      let s := s + 1 in
      if m s =? 62 then (43, s + 1) else (c, s)
    else (97, skip_word (upto es s) m s) in
  let eq := s in
  (ret, q, eq, skip_ws (upto es s) m s).

(** The result and the new [*ps]. *)
Definition peek (m : mem) (es s : Z) (toks : list Z) : bool * Z :=
  let s := skip_ws (upto es s) m s in
  (negb (m s =? 0) && in_set toks (m s), s).

Fixpoint parseredirs (fuel : nat) (m : mem) (es s : Z) : outcome (list redir * Z) :=
  match fuel with
  | O => Diverge
  | S fuel' =>
      let '(b, s) := peek m es s [60; 62] in
      if (b : bool) then
        let '(tok, _, _, s) := gettoken m es s in
        let '(t, q, eq, s) := gettoken m es s in
        if negb (t =? 97) then Panic "missing file for redirection"
        else
          '(rs, s) ← parseredirs fuel' m es s;
          if tok =? 60 then Ok (mkRedir q eq O_RDONLY 0 :: rs, s)
          else if tok =? 62 then Ok (mkRedir q eq (Z.lor O_WRONLY O_CREATE) 1 :: rs, s)
          else if tok =? 43 then Ok (mkRedir q eq (Z.lor O_WRONLY O_CREATE) 1 :: rs, s)
          else Ok (rs, s)
      else Ok ([], s)
  end.

Definition wrap (c : cmd) (rs : list redir) : cmd := foldl REDIR c rs.

(** The loop of [parseexec] over the words, with [argc] of them read; the words and the
    redirections from here on. *)
Fixpoint parseargs (fuel : nat) (m : mem) (es : Z) (argc : nat) (s : Z) :
    outcome (list (Z * Z) * list redir * Z) :=
  match fuel with
  | O => Diverge
  | S fuel' =>
      let '(b, s) := peek m es s [124; 41; 38; 59] in
      if negb b then
        let '(tok, q, eq, s) := gettoken m es s in
        if tok =? 0 then Ok ([], [], s)
        else if negb (tok =? 97) then Panic "syntax"
        else if (MAXARGS <=? S argc)%nat then Panic "too many args"
        else
          '(rs, s) ← parseredirs fuel' m es s;
          '(args, rs', s) ← parseargs fuel' m es (S argc) s;
          Ok ((q, eq) :: args, rs ++ rs', s)
      else Ok ([], [], s)
  end.

(** The loop of [parseline] over ampersands. *)
Fixpoint parseback (fuel : nat) (m : mem) (es : Z) (c : cmd) (s : Z) : outcome (cmd * Z) :=
  match fuel with
  | O => Diverge
  | S fuel' =>
      let '(b, s) := peek m es s [38] in
      if (b : bool) then
        let '(_, _, _, s) := gettoken m es s in
        parseback fuel' m es (BACK c) s
      else Ok (c, s)
  end.

Fixpoint parseline (fuel : nat) (m : mem) (es s : Z) : outcome (cmd * Z) :=
  match fuel with
  | O => Diverge
  | S fuel' =>
      '(c, s) ← parsepipe fuel' m es s;
      '(c, s) ← parseback fuel m es c s;
      let '(b, s) := peek m es s [59] in
      if (b : bool) then
        let '(_, _, _, s) := gettoken m es s in
        '(c', s) ← parseline fuel' m es s;
        Ok (LIST c c', s)
      else Ok (c, s)
  end
with parsepipe (fuel : nat) (m : mem) (es s : Z) : outcome (cmd * Z) :=
  match fuel with
  | O => Diverge
  | S fuel' =>
      '(c, s) ← parseexec fuel' m es s;
      let '(b, s) := peek m es s [124] in
      if (b : bool) then
        let '(_, _, _, s) := gettoken m es s in
        '(c', s) ← parsepipe fuel' m es s;
        Ok (PIPE c c', s)
      else Ok (c, s)
  end
with parseblock (fuel : nat) (m : mem) (es s : Z) : outcome (cmd * Z) :=
  match fuel with
  | O => Diverge
  | S fuel' =>
      let '(b, s) := peek m es s [40] in
      if negb b then Panic "parseblock"
      else
        let '(_, _, _, s) := gettoken m es s in
        '(c, s) ← parseline fuel' m es s;
        let '(b, s) := peek m es s [41] in
        if negb b then Panic "syntax - missing )"
        else
          let '(_, _, _, s) := gettoken m es s in
          '(rs, s) ← parseredirs fuel m es s;
          Ok (wrap c rs, s)
  end
with parseexec (fuel : nat) (m : mem) (es s : Z) : outcome (cmd * Z) :=
  match fuel with
  | O => Diverge
  | S fuel' =>
      let '(b, s) := peek m es s [40] in
      if (b : bool) then parseblock fuel' m es s
      else
        '(rs, s) ← parseredirs fuel m es s;
        '(args, rs', s) ← parseargs fuel m es 0 s;
        Ok (wrap (EXEC args) (rs ++ rs'), s)
  end.

Fixpoint nulterminate (m : mem) (c : cmd) : mem :=
  match c with
  | EXEC args => foldl (λ m '(_, eq), mupd m eq 0) m args
  | REDIR c r => mupd (nulterminate m c) (r_efile r) 0
  | PIPE l r => nulterminate (nulterminate m l) r
  | LIST l r => nulterminate (nulterminate m l) r
  | BACK c => nulterminate m c
  end.

Definition parsecmd (fuel : nat) (m : mem) (s : Z) : outcome (cmd * mem) :=
  n ← ustrlen fuel m s;
  let es := s + n in
  '(c, s) ← parseline fuel m es s;
  let '(_, s) := peek m es s [] in
  if negb (s =? es) then Panic "syntax"
  else Ok (c, nulterminate m c).

(** *** Command lines as text *)

(** The bytes a word can consist of. *)
Definition word_byte (c : Z) : Prop := c ≠ 0 ∧ in_set whitespace c = false ∧ in_set symbols c = false.

Inductive direction := RIn | ROut.

Inductive ast :=
| AExec (args : list (list Z))
| ARedir (a : ast) (d : direction) (file : list Z)
| APipe (a b : ast)
| AList (a b : ast)
| ABack (a : ast).

Definition pr_word (w : list Z) : list Z := w ++ [32].
Definition pr_redir (r : direction * list Z) : list Z :=
  (match r.1 with RIn => [60] | ROut => [62] end) ++ [32] ++ pr_word r.2.
Definition paren (b : bool) (l : list Z) : list Z := if b then [40] ++ l ++ [41] else l.

(** The text of a command at a level of the grammar: 0 is that of [parseline], 1 that of a
    command with its ampersands, 2 that of [parsepipe] and 3 that of [parseexec]. *)
Fixpoint pr (lvl : nat) (a : ast) : list Z :=
  match a with
  | AExec args => args ≫= pr_word
  | ARedir a d f => pr 3 a ++ pr_redir (d, f)
  | APipe a b => paren (2 <? lvl)%nat (pr 3 a ++ [124] ++ pr 2 b)
  | ABack a => paren (1 <? lvl)%nat (pr 1 a ++ [38])
  | AList a b => paren (0 <? lvl)%nat (pr 1 a ++ [59] ++ pr 0 b)
  end.

Definition word_ok (w : list Z) : Prop := w ≠ [] ∧ Forall word_byte w.

Fixpoint ast_ok (a : ast) : Prop :=
  match a with
  | AExec args => Forall word_ok args ∧ (length args < MAXARGS)%nat
  | ARedir a _ f => ast_ok a ∧ word_ok f
  | APipe a b | AList a b => ast_ok a ∧ ast_ok b
  | ABack a => ast_ok a
  end.

Definition redir_ok (r : direction * list Z) : Prop := word_ok r.2.

(** [means W c a]: the tree [c] is the command [a], its words related by [W]. *)
Section Means.
Variable W : Z → Z → list Z → Prop.

Definition redir_means (r : redir) (d : direction * list Z) : Prop :=
  W (r_file r) (r_efile r) d.2 ∧
  match d.1 with
  | RIn => r_mode r = O_RDONLY ∧ r_fd r = 0
  | ROut => r_mode r = Z.lor O_WRONLY O_CREATE ∧ r_fd r = 1
  end.

Inductive means : cmd → ast → Prop :=
| means_exec args ws : Forall2 (λ p w, W p.1 p.2 w) args ws → means (EXEC args) (AExec ws)
| means_redir c a r d f : means c a → redir_means r (d, f) → means (REDIR c r) (ARedir a d f)
| means_pipe c c' a a' : means c a → means c' a' → means (PIPE c c') (APipe a a')
| means_list c c' a a' : means c a → means c' a' → means (LIST c c') (AList a a')
| means_back c a : means c a → means (BACK c) (ABack a).
End Means.

(** The text without leading white space. *)
Fixpoint trim (t : list Z) : list Z :=
  match t with
  | [] => []
  | c :: t' => if in_set whitespace c then trim t' else t
  end.

(** The text is white space or starts with one of the bytes after white space. *)
Definition follow (l k : list Z) : Prop := match trim k with [] => True | c :: _ => in_set l c = true end.

(** A command with further redirections. *)
Definition redirected (a : ast) (rs : list (direction * list Z)) : ast :=
  foldl (λ a '(d, f), ARedir a d f) a rs.

(** The ends of the words of a command. *)
Fixpoint word_ends (c : cmd) : list Z :=
  match c with
  | EXEC args => args.*2
  | REDIR c r => r_efile r :: word_ends c
  | PIPE l r | LIST l r => word_ends l ++ word_ends r
  | BACK c => word_ends c
  end.

(** ** Lemmas *)

Lemma trim_length t : (length (trim t) ≤ length t)%nat.
Proof. induction t as [|c t IH]; cbn [trim length]; [lia|]. destruct (in_set whitespace c); simpl; lia. Qed.

Lemma trim_trim t : trim (trim t) = trim t.
Proof.
  induction t as [|c t IH]; cbn [trim]; [done|]. destruct (in_set whitespace c) eqn:E; [done|].
  cbn [trim]. by rewrite E.
Qed.

Lemma trim_head t c k : trim t = c :: k → in_set whitespace c = false.
Proof.
  induction t as [|b t IH]; cbn [trim]; [done|]. destruct (in_set whitespace b) eqn:E; [done|].
  by intros [= <- <-].
Qed.

Section Parser.
Variables (m : mem) (es : Z).

(** The pointer [s] is before the text [t], which ends at [es]. *)
Definition at_text (s : Z) (t : list Z) : Prop := cstr m s t ∧ s + Z.of_nat (length t) = es.

Lemma at_upto s t : at_text s t → upto es s = length t.
Proof using. intros [_ H]. unfold upto. lia. Qed.

Lemma at_cons s c t : at_text s (c :: t) → m s = c ∧ c ≠ 0 ∧ at_text (s + 1) t.
Proof using. intros [(H & Hc & Ht) E]. simpl in E. split_and!; [done..|]. split; [done | lia]. Qed.

Lemma at_nil s : at_text s [] → m s = 0.
Proof using. by intros [H _]. Qed.

Lemma skip_ws_at s t : at_text s t → at_text (skip_ws (upto es s) m s) (trim t).
Proof using.
  intros H. rewrite (at_upto s t H). revert s H; induction t as [|c t IH]; intros s H; [done|].
  destruct (at_cons _ _ _ H) as (Hc & _ & Ht). cbn [length skip_ws trim]. rewrite Hc.
  destruct (in_set whitespace c); [by apply IH | done].
Qed.

(** The word at the beginning of a text, and what follows it. *)
Definition word_end (c : Z) : Prop := in_set whitespace c = true ∨ in_set symbols c = true ∨ c = 0.

Lemma skip_word_at s w k :
  at_text s (w ++ k) → Forall word_byte w → word_end (default 0 (head k)) →
  skip_word (upto es s) m s = s + Z.of_nat (length w) ∧ at_text (s + Z.of_nat (length w)) k ∧
  mread m s (length w) = w.
Proof using.
  intros H Hw Hk. rewrite (at_upto s _ H). revert s H; induction w as [|c w IH]; intros s H.
  - cbn [app length mread]. rewrite Z.add_0_r. split_and!; [|done..]. cbn [app] in H.
    destruct k as [|c k]; [done|]. destruct (at_cons _ _ _ H) as (Hc & Hc0 & _).
    cbn [length skip_word]. rewrite Hc. cbn in Hk.
    destruct Hk as [->|[->| ->]]; [done | by rewrite andb_false_r | done].
  - inversion_clear Hw as [|? ? (Hc0 & Hws & Hsy) Hw']. destruct (at_cons _ _ _ H) as (Hc & _ & Ht).
    cbn [app length skip_word mread]. rewrite Hc, Hws, Hsy. cbn [negb andb].
    destruct (IH Hw' (s + 1) Ht) as (-> & Ha & ->).
    replace (s + Z.of_nat (S (length w))) with (s + 1 + Z.of_nat (length w)) by lia. done.
Qed.

(** The end of any word. *)
Lemma skip_word_any s t :
  at_text s t → ∃ w k, t = w ++ k ∧ Forall word_byte w ∧ word_end (default 0 (head k)).
Proof using.
  intros [H _]. revert s H; induction t as [|c t IH]; intros s H.
  - exists [], []. split_and!; [done | constructor |]. by right; right.
  - destruct H as (_ & Hc & H). destruct (IH _ H) as (w & k & -> & Hw & Hk).
    destruct (in_set whitespace c) eqn:E1; [exists [], (c :: w ++ k); split_and!; [done | constructor | by left]|].
    destruct (in_set symbols c) eqn:E2; [exists [], (c :: w ++ k); split_and!; [done | constructor | by right; left]|].
    exists (c :: w), k. split_and!; [done | by constructor | done].
Qed.
Lemma peek_at s t toks :
  at_text s t →
  ∃ s', peek m es s toks = (match trim t with c :: _ => in_set toks c | [] => false end, s') ∧
    at_text s' (trim t).
Proof using.
  intros H. apply skip_ws_at in H. eexists. split; [|exact H]. unfold peek.
  destruct (trim t) as [|c t'].
  - by rewrite (at_nil _ H).
  - destruct (at_cons _ _ _ H) as (-> & Hc & _). by destruct (Z.eqb_spec c 0).
Qed.

(** The three kinds of tokens of the grammar. *)
Lemma gettoken_word s t w k :
  at_text s t → trim t = w ++ k → word_ok w → word_end (default 0 (head k)) →
  ∃ q s', gettoken m es s = (97, q, q + Z.of_nat (length w), s') ∧ at_text s' (trim k) ∧
    mread m q (length w) = w ∧ m (q + Z.of_nat (length w)) = default 0 (head k).
Proof using.
  intros H Et [Hne Hw] Hk. apply skip_ws_at in H. rewrite Et in H. unfold gettoken.
  set (q := skip_ws (upto es s) m s) in *. destruct (skip_word_at q w k H Hw Hk) as (E & Ha & Hr).
  assert (Hq : word_byte (m q)).
  { destruct w as [|c w]; [done|]. by destruct (at_cons _ _ _ H) as (-> & _); inversion Hw. }
  destruct Hq as (H0 & Hws & Hsy). exists q, (skip_ws (upto es (q + Z.of_nat (length w))) m (q + Z.of_nat (length w))).
  split_and!; [| by apply skip_ws_at | done |].
  - destruct (Z.eqb_spec (m q) 0); [done|].
    unfold in_set, symbols in *. cbn [existsb] in *. rewrite !orb_false_iff in Hsy.
    destruct Hsy as (-> & -> & -> & -> & -> & -> & -> & _). cbn [orb]. by rewrite E.
  - destruct k as [|c k]; [by apply at_nil|]. by destruct (at_cons _ _ _ Ha) as (-> & _).
Qed.

Lemma gettoken_symbol s t c k :
  at_text s t → trim t = c :: k → in_set [124; 40; 41; 59; 38; 60] c = true →
  ∃ q eq s', gettoken m es s = (c, q, eq, s') ∧ at_text s' (trim k).
Proof using.
  intros H Et Hc. apply skip_ws_at in H. rewrite Et in H. unfold gettoken.
  set (q := skip_ws (upto es s) m s) in *. destruct (at_cons _ _ _ H) as (-> & Hc0 & Ha).
  destruct (Z.eqb_spec c 0); [done|]. rewrite Hc.
  eexists _, _, _. split; [reflexivity|]. by apply skip_ws_at.
Qed.

Lemma gettoken_gt s t k :
  at_text s t → trim t = 62 :: k → head k ≠ Some 62 →
  ∃ q eq s', gettoken m es s = (62, q, eq, s') ∧ at_text s' (trim k).
Proof using.
  intros H Et Hk. apply skip_ws_at in H. rewrite Et in H. unfold gettoken.
  set (q := skip_ws (upto es s) m s) in *. destruct (at_cons _ _ _ H) as (-> & Hc0 & Ha).
  change (62 =? 0) with false. change (in_set _ 62) with false. change (62 =? 62) with true. cbv iota.
  assert (Hn : m (q + 1) ≠ 62).
  { destruct k as [|c k]; [by rewrite (at_nil _ Ha)|]. destruct (at_cons _ _ _ Ha) as (-> & _).
    intros ->. by apply Hk. }
  destruct (Z.eqb_spec (m (q + 1)) 62); [done|].
  eexists _, _, _. split; [reflexivity|]. by apply skip_ws_at.
Qed.

Lemma gettoken_append s t k :
  at_text s t → trim t = 62 :: 62 :: k →
  ∃ q eq s', gettoken m es s = (43, q, eq, s') ∧ at_text s' (trim k).
Proof using.
  intros H Et. apply skip_ws_at in H. rewrite Et in H. unfold gettoken.
  set (q := skip_ws (upto es s) m s) in *. destruct (at_cons _ _ _ H) as (-> & _ & Ha).
  destruct (at_cons _ _ _ Ha) as (-> & _ & Ha').
  change (62 =? 0) with false. change (in_set _ 62) with false. change (62 =? 62) with true. cbv iota.
  eexists _, _, _. split; [reflexivity|]. by apply skip_ws_at.
Qed.

(** A text that starts with none of the symbols starts with a word. *)
Lemma word_start s t c k :
  at_text s t → trim t = c :: k → in_set [124; 40; 41; 59; 38; 60] c = false → c ≠ 62 →
  ∃ w k', c :: k = w ++ k' ∧ word_ok w ∧ word_end (default 0 (head k')).
Proof using.
  intros H Et Ec Hc. pose proof (skip_ws_at _ _ H) as H'. rewrite Et in H'.
  destruct (skip_word_any _ _ H') as (w & k' & Ek & Hw & Hend). exists w, k'.
  split; [done|]. split; [|done]. split; [|done]. intros ->. cbn [app] in Ek. subst k'. cbn in Hend.
  destruct (at_cons _ _ _ H') as (_ & H0 & _). pose proof (trim_head _ _ _ Et) as Hws.
  destruct Hend as [Hend|[Hend|Hend]]; [congruence | | done].
  unfold in_set, symbols in *. cbn [existsb] in *.
  rewrite !orb_true_iff, !Z.eqb_eq in Hend. rewrite !orb_false_iff, !Z.eqb_neq in Ec. lia.
Qed.

(** Any token takes at least one byte, unless it is the end of the line. *)
Definition takes (t : list Z) (r : Z * Z * Z * Z) : Prop :=
  ∃ t', at_text r.2 t' ∧ (length t' ≤ length t)%nat ∧ (trim t ≠ [] → length t' < length t)%nat ∧
    (trim t = [] → r.1.1.1 = 0).

Lemma takes_intro t k c l r :
  trim t = c :: k → at_text r.2 (trim l) → (length l ≤ length k)%nat → takes t r.
Proof using.
  intros Et Ha Hl. pose proof (trim_length t) as H. rewrite Et in H. simpl in H.
  pose proof (trim_length l). exists (trim l). rewrite Et. split_and!; [done | lia | lia | done].
Qed.

Lemma gettoken_takes s t : at_text s t → takes t (gettoken m es s).
Proof using.
  intros H. destruct (trim t) as [|c k] eqn:Et.
  - pose proof (skip_ws_at _ _ H) as H'. rewrite Et in H'. unfold gettoken. rewrite (at_nil _ H').
    change (0 =? 0) with true. cbv iota. exists []. apply skip_ws_at in H'.
    split_and!; [done | simpl; lia | by rewrite Et | done].
  - destruct (in_set [124; 40; 41; 59; 38; 60] c) eqn:Ec.
    { destruct (gettoken_symbol s t c k H Et Ec) as (q & eq & s' & -> & Ha). by eapply takes_intro. }
    destruct (decide (c = 62)) as [->|Hc].
    { destruct (decide (head k = Some 62)) as [Hk|Hk].
      - destruct k as [|c k]; [done|]. injection Hk as ->.
        destruct (gettoken_append s t k H Et) as (q & eq & s' & -> & Ha).
        eapply takes_intro; [done..|]. simpl. lia.
      - destruct (gettoken_gt s t k H Et Hk) as (q & eq & s' & -> & Ha). by eapply takes_intro. }
    destruct (word_start s t c k H Et Ec Hc) as (w & k' & Ek & Hw & Hend).
    rewrite Ek in Et. destruct (gettoken_word s t w k' H Et Hw Hend) as (q & s' & -> & Ha & _).
    destruct w as [|c' w]; [by destruct Hw|]. eapply (takes_intro t (w ++ k') c' k'); [done | done |].
    rewrite length_app. lia.
Qed.
(** *** Termination *)

(** A parser that has stopped, with the text after the pointer no longer than before. *)
Definition ends {A : Type} (t : list Z) (o : outcome (A * Z)) : Prop :=
  match o with
  | Ok (_, s') => ∃ t', at_text s' t' ∧ (length t' ≤ length t)%nat
  | Panic _ => True
  | Undef _ | Diverge => False
  end.

Lemma ends_mono {A : Type} t t' (o : outcome (A * Z)) :
  ends t' o → (length t' ≤ length t)%nat → ends t o.
Proof using. destruct o as [[a s']| | |]; try done. intros (t1 & Ha & Hl) H. exists t1. split; [done | lia]. Qed.

Lemma ends_bind {A B : Type} t (o : outcome (A * Z)) (f : A * Z → outcome (B * Z)) :
  ends t o → (∀ a s' t', at_text s' t' → (length t' ≤ length t)%nat → ends t (f (a, s'))) →
  ends t (o ≫= f).
Proof using. destruct o as [[a s']| | |]; try done. intros (t' & Ha & Hl) H. by eapply H. Qed.

Lemma ends_ok {A : Type} t s' t' (a : A) :
  at_text s' t' → (length t' ≤ length t)%nat → ends t (Ok (a, s')).
Proof using. intros Ha Hl. by exists t'. Qed.

(** The tests and tokens of the parsers. *)
Lemma peek_ends s t toks b s' :
  at_text s t → peek m es s toks = (b, s') →
  ∃ t', at_text s' t' ∧ (length t' ≤ length t)%nat ∧ (b = true → trim t' ≠ []).
Proof using.
  intros H E. destruct (peek_at s t toks H) as (s1 & E1 & Ha). rewrite E1 in E. injection E as <- <-.
  exists (trim t). pose proof (trim_length t). rewrite trim_trim. split_and!; [done | lia |].
  by destruct (trim t).
Qed.

Lemma token_ends s t r q eq s' :
  at_text s t → gettoken m es s = (r, q, eq, s') →
  ∃ t', at_text s' t' ∧ (length t' ≤ length t)%nat ∧ (trim t ≠ [] → length t' < length t)%nat ∧
    (r ≠ 0%Z → length t' < length t)%nat.
Proof using.
  intros H E. destruct (gettoken_takes s t H) as (t' & Ha & Hl & Hs & Hr). rewrite E in *.
  exists t'. split_and!; [done..|]. intros Hr'. apply Hs. intros E'. by apply Hr', Hr.
Qed.

Ltac do_peek :=
  match goal with
  | H : at_text ?s ?t |- context [peek m es ?s ?toks] =>
      let b := fresh "b" in let s' := fresh "s" in let E := fresh "E" in let t' := fresh "t" in
      destruct (peek m es s toks) as [b s'] eqn:E;
      destruct (peek_ends s t toks b s' H E) as (t' & ? & ? & ?); clear E H; destruct b; cbn [negb]
  end.
Ltac do_token :=
  match goal with
  | H : at_text ?s ?t |- context [gettoken m es ?s] =>
      let r := fresh "r" in let q := fresh "q" in let eq := fresh "eq" in let s' := fresh "s" in
      let E := fresh "E" in let t' := fresh "t" in
      destruct (gettoken m es s) as [[[r q] eq] s'] eqn:E;
      destruct (token_ends s t r q eq s' H E) as (t' & ? & ? & ? & ?); clear E H
  end.
Ltac shorter :=
  repeat match goal with
  | H : ?a = ?a → _ |- _ => specialize (H eq_refl)
  | H : ?P, H' : ?P → _ |- _ => specialize (H' H)
  end; lia.

Lemma parseredirs_ends fuel s t :
  at_text s t → (length t < fuel)%nat → ends t (parseredirs fuel m es s).
Proof using.
  revert s t; induction fuel as [|fuel IH]; intros s t H Hf; [lia|]. cbn [parseredirs].
  do_peek; [|by eapply ends_ok]. do_token. do_token.
  destruct (negb _); [done|]. eapply ends_bind.
  - eapply ends_mono; [eapply IH; [eassumption|shorter]|]. shorter.
  - intros rs s' t' Ha Hl. repeat case_match; by eapply ends_ok.
Qed.

Lemma parseargs_ends fuel argc s t :
  at_text s t → (length t < fuel)%nat → ends t (parseargs fuel m es argc s).
Proof using.
  revert argc s t; induction fuel as [|fuel IH]; intros argc s t H Hf; [lia|]. cbn [parseargs].
  do_peek; [by eapply ends_ok|]. do_token.
  destruct (Z.eqb_spec r 0); [eapply ends_ok; [done | lia]|].
  destruct (negb _); [done|]. destruct (_ <=? _)%nat; [done|].
  eapply ends_mono; [eapply ends_bind; [eapply parseredirs_ends; [eassumption|shorter]|]|shorter].
  intros rs s' t' Ha Hl. eapply ends_bind; [eapply ends_mono; [eapply IH; [eassumption|shorter] | shorter]|].
  intros [args rs'] s'' t'' Ha' Hl'. by eapply ends_ok.
Qed.

Lemma parseback_ends fuel c s t :
  at_text s t → (length t < fuel)%nat → ends t (parseback fuel m es c s).
Proof using.
  revert c s t; induction fuel as [|fuel IH]; intros c s t H Hf; [lia|]. cbn [parseback].
  do_peek; [|by eapply ends_ok]. do_token.
  eapply ends_mono; [eapply IH; [eassumption|shorter]|]. shorter.
Qed.

Lemma parsers_end fuel :
  (∀ s t, at_text s t → (4 * length t + 4 ≤ fuel)%nat → ends t (parseline fuel m es s)) ∧
  (∀ s t, at_text s t → (4 * length t + 3 ≤ fuel)%nat → ends t (parsepipe fuel m es s)) ∧
  (∀ s t, at_text s t → (4 * length t + 1 ≤ fuel)%nat → ends t (parseblock fuel m es s)) ∧
  (∀ s t, at_text s t → (4 * length t + 2 ≤ fuel)%nat → ends t (parseexec fuel m es s)).
Proof using.
  induction fuel as [|fuel (IHl & IHp & IHb & IHe)]; [split_and!; intros; lia|]. split_and!.
  - intros s t H Hf. cbn [parseline]. eapply ends_bind; [eapply IHp; [eassumption|lia]|].
    intros c s_b t_b A_b L_b. eapply ends_bind; [eapply ends_mono; [eapply parseback_ends; [eassumption|lia]|lia]|].
    intros c2 s_c t_c A_c L_c. do_peek; [|eapply ends_ok; [done | lia]]. do_token.
    eapply ends_bind; [eapply ends_mono; [eapply IHl; [eassumption|shorter]|shorter]|].
    intros c3 s_d t_d A_d L_d. eapply ends_ok; [done | lia].
  - intros s t H Hf. cbn [parsepipe]. eapply ends_bind; [eapply IHe; [eassumption|lia]|].
    intros c s_e t_e A_e L_e. do_peek; [|eapply ends_ok; [done | lia]]. do_token.
    eapply ends_bind; [eapply ends_mono; [eapply IHp; [eassumption|shorter]|shorter]|].
    intros c3 s_f t_f A_f L_f. eapply ends_ok; [done | lia].
  - intros s t H Hf. cbn [parseblock]. do_peek; [|done]. do_token.
    eapply ends_bind; [eapply ends_mono; [eapply IHl; [eassumption|shorter]|shorter]|].
    intros c s_g t_g A_g L_g. do_peek; [|done]. do_token.
    eapply ends_bind; [eapply ends_mono; [eapply parseredirs_ends; [eassumption|shorter]|shorter]|].
    intros rs s_h t_h A_h L_h. eapply ends_ok; [done | lia].
  - intros s t H Hf. cbn [parseexec]. do_peek; [eapply ends_mono; [eapply IHb; [eassumption|lia]|lia]|].
    eapply ends_bind; [eapply ends_mono; [eapply parseredirs_ends; [eassumption|lia]|lia]|].
    intros rs s_i t_i A_i L_i. eapply ends_bind; [eapply ends_mono; [eapply parseargs_ends; [eassumption|lia]|lia]|].
    intros [args rs'] s_j t_j A_j L_j. eapply ends_ok; [done | lia].
Qed.
(** *** The parsers on the text of a command *)

(** A word of the line before [nulterminate]. *)
Definition span (q eq : Z) (w : list Z) : Prop :=
  eq = q + Z.of_nat (length w) ∧ mread m q (length w) = w ∧ Forall word_byte w ∧ word_end (m eq).

Lemma trim_word w k : word_ok w → trim (w ++ k) = w ++ k.
Proof using.
  intros [Hne Hw]. destruct w as [|c w]; [done|]. inversion_clear Hw as [|? ? (_ & Hc & _) _].
  cbn [app trim]. by rewrite Hc.
Qed.

Lemma at_inj s t t' : at_text s t → at_text s t' → t = t'.
Proof using. intros [H _] [H' _]. by eapply cstr_inj. Qed.

Lemma ends_len {A : Type} t (a : A) s' k : ends t (Ok (a, s')) → at_text s' k → (length k ≤ length t)%nat.
Proof using. intros (t' & H & Hl) H'. by rewrite (at_inj _ _ _ H' H). Qed.

(** No redirection follows. *)
Definition no_redir (k : list Z) : Prop :=
  match trim k with [] => True | c :: _ => in_set [60; 62] c = false end.

Lemma no_redir_word w k : word_ok w → no_redir (w ++ k).
Proof using.
  intros Hw. unfold no_redir. rewrite trim_word by done. destruct Hw as [Hne Hw].
  destruct w as [|c w]; [done|]. inversion_clear Hw as [|? ? (_ & _ & Hs) _]. cbn [app].
  unfold in_set, symbols in *. cbn [existsb] in *. rewrite !orb_false_iff in *. tauto.
Qed.

Lemma no_redir_follow k : follow [124; 41; 38; 59] k → no_redir k.
Proof using.
  intros Hk. unfold no_redir. unfold follow in Hk. destruct (trim k) as [|c k']; [done|].
  unfold in_set in *. cbn [existsb] in *. rewrite !orb_true_iff, !Z.eqb_eq in Hk.
  destruct Hk as [->|[->|[->|[->|]]]]; done.
Qed.

(** The arrow of a redirection. *)
Definition arrow (d : direction) : Z := match d with RIn => 60 | ROut => 62 end.

Lemma pr_redir_text d f k : pr_redir (d, f) ++ k = arrow d :: 32 :: f ++ 32 :: k.
Proof using. unfold pr_redir, pr_word. destruct d; cbn; by rewrite <- app_assoc. Qed.

Lemma gettoken_arrow s t d k :
  at_text s t → trim t = arrow d :: 32 :: k →
  ∃ q eq s', gettoken m es s = (arrow d, q, eq, s') ∧ at_text s' (trim k).
Proof using.
  intros H Et. destruct d; [by apply (gettoken_symbol s t 60 (32 :: k)) | by apply (gettoken_gt s t (32 :: k))].
Qed.

(** A word of the text, with a space after it. *)
Lemma gettoken_span s t w k :
  at_text s t → trim t = w ++ 32 :: k → word_ok w →
  ∃ q eq s', gettoken m es s = (97, q, eq, s') ∧ span q eq w ∧ at_text s' (trim k) ∧
    (length (trim k) < length t)%nat.
Proof using.
  intros H Et Hw. destruct (gettoken_word s t w (32 :: k) H Et Hw) as (q & s' & E & Ha & Hr & He); [by left|].
  eexists _, _, _. split; [exact E|]. pose proof (trim_length t) as Hl. pose proof (trim_length k).
  rewrite Et, length_app in Hl. simpl in Hl.
  split_and!; [|done|lia]. destruct Hw. split_and!; [done..|]. rewrite He. by left.
Qed.

Lemma parseredirs_text fuel s t rs k :
  at_text s t → trim t = trim ((rs ≫= pr_redir) ++ k) → Forall redir_ok rs → no_redir k →
  (length t < fuel)%nat →
  ∃ rs' s', parseredirs fuel m es s = Ok (rs', s') ∧ Forall2 (redir_means span) rs' rs ∧
    at_text s' (trim k).
Proof using.
  revert s t rs; induction fuel as [|fuel IH]; intros s t rs H Et Hrs Hk Hf; [lia|]. cbn [parseredirs].
  destruct (peek_at s t [60; 62] H) as (s1 & -> & H1). rewrite Et in *. destruct rs as [|[d f] rs].
  - cbn [mbind list_bind app] in *. unfold no_redir in Hk.
    assert (match trim k with c :: _ => in_set [60; 62] c | [] => false end = false) as ->.
    { by destruct (trim k). }
    exists [], s1. split_and!; [done | constructor | done].
  - rewrite bind_cons in *. inversion_clear Hrs as [|? ? Hw Hrs'].
    rewrite <- app_assoc, pr_redir_text in *. set (k' := (rs ≫= pr_redir) ++ k) in *.
    assert (Eq : trim (arrow d :: 32 :: f ++ 32 :: k') = arrow d :: 32 :: f ++ 32 :: k') by (by destruct d).
    rewrite Eq in *. replace (in_set [60; 62] (arrow d)) with true by (by destruct d).
    destruct (gettoken_arrow s1 _ d (f ++ 32 :: k') H1 Eq) as (q1 & e1 & s2 & -> & H2).
    rewrite trim_word in H2 by done.
    destruct (gettoken_span s2 _ f k' H2) as (q & eq & s3 & -> & Hsp & H3 & Hl3); [by rewrite trim_word | done|].
    cbn [negb Z.eqb]. change (97 =? 97) with true. cbn [negb].
    pose proof (trim_length t) as Hlt. rewrite Et in Hlt. rewrite length_app in Hl3.
    simpl in Hlt. rewrite length_app in Hlt. simpl in Hlt, Hl3.
    destruct (IH s3 (trim k') rs H3 (trim_trim _) Hrs' Hk) as (rs' & s' & -> & Hrs2 & H'); [lia|].
    cbn [mbind outcome_bind obind]. destruct d; eexists _, s'; (split; [reflexivity|]); (split; [|done]);
      by constructor.
Qed.

Lemma pr_words_text w l k : (pr_word w ++ l) ++ k = w ++ 32 :: l ++ k.
Proof using. unfold pr_word. by rewrite <- !app_assoc. Qed.

(** A word starts with none of the symbols. *)
Lemma word_head w k toks :
  word_ok w → (∀ c, in_set toks c = true → in_set symbols c = true) →
  match w ++ k with c :: _ => in_set toks c | [] => false end = false.
Proof using.
  intros [Hne Hw] Hsub. destruct w as [|c w]; [done|]. inversion_clear Hw as [|? ? (_ & _ & Hs) _].
  cbn [app]. destruct (in_set toks c) eqn:E; [|done]. apply Hsub in E. congruence.
Qed.

(** The sets of symbols the parsers look for. *)
Lemma in_set_symbols toks c :
  forallb (in_set symbols) toks = true → in_set toks c = true → in_set symbols c = true.
Proof using.
  rewrite forallb_forall. unfold in_set at 2. rewrite existsb_exists. intros H (x & Hx & E).
  apply Z.eqb_eq in E as ->. by apply H.
Qed.

Lemma parseargs_text fuel argc s t ws rs k :
  at_text s t → trim t = trim ((ws ≫= pr_word) ++ (rs ≫= pr_redir) ++ k) →
  Forall word_ok ws → (ws = [] → rs = []) → Forall redir_ok rs → follow [124; 41; 38; 59] k →
  (argc + length ws < MAXARGS)%nat → (length t < fuel)%nat →
  ∃ args rs' s', parseargs fuel m es argc s = Ok (args, rs', s') ∧
    Forall2 (λ p w, span p.1 p.2 w) args ws ∧ Forall2 (redir_means span) rs' rs ∧ at_text s' (trim k).
Proof using.
  revert argc s t ws rs; induction fuel as [|fuel IH]; intros argc s t ws rs H Et Hws Hwr Hrs Hk Hc Hf; [lia|].
  cbn [parseargs]. destruct (peek_at s t [124; 41; 38; 59] H) as (s1 & -> & H1). rewrite Et in *.
  destruct ws as [|w ws].
  - rewrite Hwr by done. cbn [mbind list_bind app] in *. rewrite Hwr in H1 by done. cbn [mbind list_bind app] in *.
    unfold follow in Hk. destruct (trim k) as [|c k'].
    + cbn [negb]. destruct (gettoken m es s1) as [[[r q] eq] s'] eqn:E.
      pose proof (gettoken_takes s1 [] H1) as (t' & Ha & Hl & _ & Hr). rewrite E in *. cbn in Ha, Hr, Hl.
      rewrite Hr by done. destruct t'; [|simpl in Hl; lia]. exists [], [], s'. split_and!; [done | constructor.. | done].
    + rewrite Hk. exists [], [], s1. split_and!; [done | constructor.. | done].
  - inversion_clear Hws as [|? ? Hw Hws']. rewrite bind_cons in *.
    rewrite pr_words_text in *. set (X := (ws ≫= pr_word) ++ (rs ≫= pr_redir) ++ k) in *.
    rewrite (trim_word w) in * by done. rewrite word_head by (done || by intros c; apply in_set_symbols). cbn [negb].
    destruct (gettoken_span s1 _ w X H1) as (q & eq & s2 & -> & Hsp & H2 & Hl2); [by rewrite trim_word | done|].
    change (97 =? 0) with false. change (97 =? 97) with true. cbn [negb].
    destruct (Nat.leb_spec MAXARGS (S argc)) as [Hm|_]; [simpl in Hc; lia|].
    assert (HlX : (length (trim X) < length t)%nat).
    { pose proof (trim_length t) as Hl. rewrite Et in Hl. lia. }
    pose proof (parseredirs_ends fuel s2 (trim X) H2 ltac:(lia)) as He.
    (* the redirections after this word: none, unless it is the last one *)
    destruct (parseredirs_text fuel s2 (trim X) (match ws with [] => rs | _ => [] end)
      (match ws with [] => k | _ => X end) H2) as (rs1 & s3 & E1 & Hrs1 & H3); [..|lia|].
    { rewrite trim_trim. by destruct ws. }
    { by destruct ws. }
    { destruct ws as [|w' ws]; [by apply no_redir_follow|]. inversion_clear Hws' as [|? ? Hw' _].
      subst X. rewrite bind_cons, pr_words_text. by apply no_redir_word. }
    rewrite E1 in He |- *. pose proof (ends_len _ _ _ _ He H3).
    destruct (IH (S argc) s3 (trim (match ws with [] => k | _ => X end)) ws (match ws with [] => [] | _ => rs end))
      as (args & rs2 & s4 & E & Hargs & Hrs2 & H4); try done.
    { rewrite trim_trim. by destruct ws. }
    { by destruct ws. }
    { by destruct ws. }
    { simpl in Hc. lia. }
    { lia. }
    cbn [mbind outcome_bind obind]. rewrite E. cbn [mbind outcome_bind obind].
    eexists _, _, s4. split; [reflexivity|]. split_and!; [by constructor | | done].
    destruct ws; [inversion Hrs2; subst; by rewrite app_nil_r | inversion Hrs1; by subst].
Qed.
(** What each parser does with the text of a command at its level. *)
Definition exec_text (a : ast) : Prop := ∀ fuel s t rs k,
  Forall redir_ok rs → follow [124; 41; 38; 59] k → at_text s t →
  trim t = trim (pr 3 a ++ (rs ≫= pr_redir) ++ k) → (4 * length t + 2 ≤ fuel)%nat →
  ∃ c s', parseexec fuel m es s = Ok (c, s') ∧ means span c (redirected a rs) ∧ at_text s' (trim k).
Definition pipe_text (a : ast) : Prop := ∀ fuel s t k,
  follow [41; 38; 59] k → at_text s t → trim t = trim (pr 2 a ++ k) → (4 * length t + 3 ≤ fuel)%nat →
  ∃ c s', parsepipe fuel m es s = Ok (c, s') ∧ means span c a ∧ at_text s' (trim k).
Definition back_text (a : ast) : Prop := ∀ fuel s t j k,
  follow [41; 59] k → at_text s t → trim t = trim (pr 1 a ++ replicate j 38 ++ k) →
  (4 * length t + 3 ≤ fuel)%nat →
  ∃ c s', (parsepipe fuel m es s ≫= λ '(c, s), parseback (S fuel) m es c s) = Ok (c, s') ∧
    means span c (Nat.iter j ABack a) ∧ at_text s' (trim k).
Definition line_text (a : ast) : Prop := ∀ fuel s t k,
  follow [41] k → at_text s t → trim t = trim (pr 0 a ++ k) → (4 * length t + 4 ≤ fuel)%nat →
  ∃ c s', parseline fuel m es s = Ok (c, s') ∧ means span c a ∧ at_text s' (trim k).

Lemma follow_sub l l' k :
  follow l k → forallb (in_set l') l = true → follow l' k.
Proof using.
  unfold follow. intros Hk Hl. destruct (trim k) as [|c k']; [done|]. rewrite forallb_forall in Hl.
  unfold in_set in Hk. rewrite existsb_exists in Hk. destruct Hk as (x & Hx & E). apply Z.eqb_eq in E as ->. by apply Hl.
Qed.

Lemma means_wrap c a rs' rs :
  means span c a → Forall2 (redir_means span) rs' rs → means span (wrap c rs') (redirected a rs).
Proof using.
  intros Hc H. revert c a Hc; induction H as [|r [d f] rs' rs Hr Hrs IH]; intros c a Hc; [done|].
  cbn [wrap redirected foldl]. apply IH. by constructor.
Qed.

(** A test for symbols that do not come next. *)
Lemma peek_not s k toks l :
  at_text s (trim k) → follow l k → forallb (λ c, negb (in_set toks c)) l = true →
  ∃ s', peek m es s toks = (false, s') ∧ at_text s' (trim k).
Proof using.
  intros H Hk Hl. destruct (peek_at s (trim k) toks H) as (s' & -> & Ha). rewrite trim_trim in *. exists s'.
  split; [|done]. f_equal. unfold follow in Hk. destruct (trim k) as [|c k']; [done|]. unfold in_set at 1 in Hk.
  rewrite existsb_exists in Hk. destruct Hk as (x & Hx & E). apply Z.eqb_eq in E as ->.
  rewrite forallb_forall in Hl. apply Hl in Hx. by apply negb_true_iff in Hx.
Qed.

(** A symbol that comes next. *)
Lemma peek_symbol s t toks c k :
  at_text s t → trim t = c :: k → in_set toks c = true →
  in_set [124; 40; 41; 59; 38; 60] c = true →
  ∃ s1 q eq s', peek m es s toks = (true, s1) ∧ gettoken m es s1 = (c, q, eq, s') ∧
    at_text s' (trim k) ∧ (length (trim k) < length t)%nat.
Proof using.
  intros H Et Hc Hs. destruct (peek_at s t toks H) as (s1 & E1 & H1). rewrite Et, Hc in *.
  destruct (gettoken_symbol s1 (c :: k) c k) as (q & eq & s' & E & Ha); [done | |done|].
  { rewrite <- Et. apply trim_trim. }
  pose proof (trim_length t) as Hl. rewrite Et in Hl. pose proof (trim_length k). simpl in Hl.
  exists s1, q, eq, s'. split_and!; [done..|lia].
Qed.

(** The words and redirections of a command do not start with a parenthesis. *)
Lemma exec_head ws rs k :
  Forall word_ok ws → follow [124; 41; 38; 59] k →
  match trim ((ws ≫= pr_word) ++ (rs ≫= pr_redir) ++ k) with c :: _ => in_set [40] c | [] => false end
  = false.
Proof using.
  intros Hws Hk. destruct ws as [|w ws]; [destruct rs as [|[d f] rs]|].
  - cbn [mbind list_bind app]. unfold follow in Hk. destruct (trim k) as [|c k']; [done|].
    destruct (in_set [40] c) eqn:E; [|done]. unfold in_set in E. cbn [existsb] in E.
    rewrite orb_false_r, Z.eqb_eq in E. by subst c.
  - cbn [mbind list_bind app]. rewrite <- app_assoc, pr_redir_text. by destruct d.
  - inversion_clear Hws. rewrite bind_cons, pr_words_text, trim_word by done.
    apply word_head; [done|]. intros c. by apply in_set_symbols.
Qed.

Lemma exec_words ws : ast_ok (AExec ws) → exec_text (AExec ws).
Proof using.
  intros [Hws Hlen] fuel s t rs k Hrs Hk H Et Hf. cbn [pr] in Et. destruct fuel as [|fuel]; [lia|].
  cbn [parseexec]. destruct (peek_at s t [40] H) as (s1 & -> & H1). rewrite Et, exec_head in * by done.
  pose proof (trim_length t) as Hl. rewrite Et in Hl.
  set (X := trim ((ws ≫= pr_word) ++ (rs ≫= pr_redir) ++ k)) in *.
  pose proof (parseredirs_ends (S fuel) s1 X H1 ltac:(lia)) as He.
  destruct (parseredirs_text (S fuel) s1 X (match ws with [] => rs | _ => [] end)
    (match ws with [] => k | _ => X end) H1) as (rs1 & s2 & E1 & Hrs1 & H2); [..|lia|].
  { subst X. destruct ws; [apply trim_trim|]. cbn [mbind list_bind app]. by rewrite !trim_trim. }
  { by destruct ws. }
  { destruct ws as [|w ws]; [by apply no_redir_follow|]. inversion_clear Hws as [|? ? Hw _].
    subst X. rewrite bind_cons, pr_words_text, trim_word by done. by apply no_redir_word. }
  rewrite E1 in He |- *. pose proof (ends_len _ _ _ _ He H2) as Hl2. cbn [mbind outcome_bind obind].
  destruct (parseargs_text (S fuel) 0 s2 (trim (match ws with [] => k | _ => X end)) ws
    (match ws with [] => [] | _ => rs end) k H2) as (args & rs2 & s3 & -> & Hargs & Hrs2 & H3); try done.
  { rewrite trim_trim. subst X. destruct ws; [done | apply trim_trim]. }
  { by destruct ws. }
  { by destruct ws. }
  { lia. }
  cbn [mbind outcome_bind obind]. eexists _, s3. split; [reflexivity|]. split; [|done].
  apply means_wrap; [by constructor|].
  destruct ws; [inversion Hrs2; subst; by rewrite app_nil_r | inversion Hrs1; by subst].
Qed.

Lemma exec_redir a d f : word_ok f → exec_text a → exec_text (ARedir a d f).
Proof using.
  intros Hf Ha fuel s t rs k Hrs Hk H Et Hfu.
  destruct (Ha fuel s t ((d, f) :: rs) k) as (c & s' & E & Hc & H'); [by constructor | done..| |done|by exists c, s'].
  rewrite Et. cbn [pr]. by rewrite bind_cons, <- !app_assoc.
Qed.

(** From one level to the next. *)
Lemma pipe_of_exec a : pr 2 a = pr 3 a → exec_text a → pipe_text a.
Proof using.
  intros Ep Ha fuel s t k Hk H Et Hf. destruct fuel as [|fuel]; [lia|]. cbn [parsepipe].
  assert (Hk3 : follow [124; 41; 38; 59] k) by (by eapply follow_sub).
  destruct (Ha fuel s t [] k) as (c & s1 & -> & Hc & H1); [constructor | done | done | by rewrite <- Ep | lia|].
  cbn [mbind outcome_bind obind].
  destruct (peek_not s1 k [124] [41; 38; 59]) as (s2 & -> & H2); [done..|].
  by exists c, s2.
Qed.

Lemma parseback_text fuel c a s j k :
  means span c a → at_text s (trim (replicate j 38 ++ k)) → follow [41; 59] k → (j < fuel)%nat →
  ∃ c' s', parseback fuel m es c s = Ok (c', s') ∧ means span c' (Nat.iter j ABack a) ∧ at_text s' (trim k).
Proof using.
  revert c a s fuel; induction j as [|j IH]; intros c a s fuel Hc H Hk Hf; (destruct fuel as [|fuel]; [lia|]);
    cbn [parseback replicate app] in *.
  - destruct (peek_not s k [38] [41; 59]) as (s' & -> & H'); [done..|].
    by exists c, s'.
  - destruct (peek_symbol s _ [38] 38 (replicate j 38 ++ k) H) as (s1 & q & eq & s2 & -> & -> & H2 & _); [done..|].
    destruct (IH (BACK c) (ABack a) s2 fuel) as (c' & s' & E & Hc' & H'); [by constructor | done.. | lia |].
    exists c', s'. split_and!; [done| |done]. by rewrite Nat.iter_succ_r.
Qed.

Lemma back_of_pipe a : pr 1 a = pr 2 a → pipe_text a → back_text a.
Proof using.
  intros Ep Ha fuel s t j k Hk H Et Hf.
  assert (Hk' : follow [41; 38; 59] (replicate j 38 ++ k)).
  { destruct j; [|done]. by eapply follow_sub. }
  pose proof (parsers_end fuel) as (_ & He & _). specialize (He s t H ltac:(lia)).
  destruct (Ha fuel s t (replicate j 38 ++ k)) as (c & s1 & E & Hc & H1); [done | done | by rewrite <- Ep | lia|].
  rewrite E in He |- *. pose proof (ends_len _ _ _ _ He H1) as Hl.
  assert (j ≤ length (trim (replicate j 38%Z ++ k)))%nat.
  { destruct j; [lia|]. cbn. rewrite length_app, length_replicate. lia. }
  cbn [mbind outcome_bind obind]. apply parseback_text; [done | done | done | lia].
Qed.

Lemma line_of_back a : pr 0 a = pr 1 a → back_text a → line_text a.
Proof using.
  intros Ep Ha fuel s t k Hk H Et Hf. destruct fuel as [|fuel]; [lia|]. cbn [parseline].
  destruct (Ha fuel s t 0%nat k) as (c & s1 & E & Hc & H1); [by eapply follow_sub | done | by rewrite <- Ep | lia|].
  destruct (parsepipe fuel m es s) as [[c0 s0]| | |]; [|done..]. cbn [mbind outcome_bind obind] in *.
  rewrite E. cbn [mbind outcome_bind obind].
  destruct (peek_not s1 k [59] [41]) as (s2 & -> & H2); [done..|].
  by exists c, s2.
Qed.

Lemma exec_of_line a : pr 3 a = [40] ++ pr 0 a ++ [41] → line_text a → exec_text a.
Proof using.
  intros Ep Ha fuel s t rs k Hrs Hk H Et Hf. rewrite Ep, <- !app_assoc in Et. cbn [app] in Et.
  set (k' := 41 :: (rs ≫= pr_redir) ++ k) in *.
  destruct fuel as [|fuel]; [lia|]. cbn [parseexec].
  destruct (peek_at s t [40] H) as (s1 & -> & H1). pose proof (trim_length t) as Hl.
  rewrite Et in *. change (trim (40 :: ?l)) with (40 :: l) in *. change (in_set [40] 40) with true. cbv iota.
  destruct fuel as [|fuel]; [lia|]. cbn [parseblock].
  destruct (peek_symbol s1 _ [40] 40 (pr 0 a ++ k') H1) as (s2 & q & eq & s3 & -> & -> & H3 & Hl3); [done..|].
  cbn [negb]. pose proof (parsers_end fuel) as (He & _). specialize (He s3 _ H3 ltac:(lia)).
  destruct (Ha fuel s3 _ k' ltac:(done) H3) as (c & s4 & E4 & Hc & H4); [apply trim_trim | lia|].
  rewrite E4 in He |- *. pose proof (ends_len _ _ _ _ He H4) as Hl4. cbn [mbind outcome_bind obind].
  destruct (peek_symbol s4 _ [41] 41 ((rs ≫= pr_redir) ++ k) H4) as (s5 & q' & eq' & s6 & -> & -> & H6 & Hl6); [done..|].
  cbn [negb].
  destruct (parseredirs_text (S fuel) s6 _ rs k H6) as (rs' & s7 & -> & Hrs' & H7);
    [apply trim_trim | done | by apply no_redir_follow | lia|].
  cbn [mbind outcome_bind obind]. eexists _, s7. split; [reflexivity|].
  split; [|done]. by apply means_wrap.
Qed.

(** The levels at which a command has its own syntax. *)
Lemma pipe_pipe a b : exec_text a → pipe_text b → pipe_text (APipe a b).
Proof using.
  intros Ha Hb fuel s t k Hk H Et Hf. cbn [pr paren Nat.ltb Nat.leb] in Et. rewrite <- !app_assoc in Et.
  destruct fuel as [|fuel]; [lia|]. cbn [parsepipe].
  pose proof (parsers_end fuel) as (_ & _ & _ & He). specialize (He s t H ltac:(lia)).
  destruct (Ha fuel s t [] ([124] ++ pr 2 b ++ k)) as (c & s1 & E1 & Hc & H1); [constructor | done | done | done | lia|].
  rewrite E1 in He |- *. pose proof (ends_len _ _ _ _ He H1) as Hl1. cbn [mbind outcome_bind obind].
  destruct (peek_symbol s1 _ [124] 124 (pr 2 b ++ k) H1) as (s2 & q & eq & s3 & -> & -> & H3 & Hl3); [done..|].
  destruct (Hb fuel s3 _ k Hk H3) as (c' & s4 & -> & Hc' & H4); [apply trim_trim | lia|].
  cbn [mbind outcome_bind obind]. eexists _, s4. split; [reflexivity|]. split; [by constructor | done].
Qed.

Lemma back_back a : back_text a → back_text (ABack a).
Proof using.
  intros Ha fuel s t j k Hk H Et Hf. cbn [pr paren Nat.ltb Nat.leb] in Et. rewrite <- !app_assoc in Et.
  destruct (Ha fuel s t (S j) k Hk H) as (c & s' & E & Hc & H'); [done.. |].
  exists c, s'. split_and!; [done| |done]. by rewrite Nat.iter_succ_r in Hc.
Qed.

Lemma line_list a b : back_text a → line_text b → line_text (AList a b).
Proof using.
  intros Ha Hb fuel s t k Hk H Et Hf. cbn [pr paren Nat.ltb Nat.leb] in Et. rewrite <- !app_assoc in Et.
  destruct fuel as [|fuel]; [lia|]. cbn [parseline].
  pose proof (parsers_end fuel) as (_ & He & _). specialize (He s t H ltac:(lia)).
  destruct (Ha fuel s t 0%nat ([59] ++ pr 0 b ++ k)) as (c & s1 & E1 & Hc & H1); [done.. | lia|].
  destruct (parsepipe fuel m es s) as [[c0 s0]| | |]; [|done..]. cbn [mbind outcome_bind obind] in *.
  destruct He as (t0 & H0 & Hl0). pose proof (parseback_ends (S fuel) c0 s0 t0 H0 ltac:(lia)) as He.
  rewrite E1 in He |- *. pose proof (ends_len _ _ _ _ He H1) as Hl1. cbn [mbind outcome_bind obind].
  destruct (peek_symbol s1 _ [59] 59 (pr 0 b ++ k) H1) as (s2 & q & eq & s3 & -> & -> & H3 & Hl3); [done..|].
  destruct (Hb fuel s3 _ k Hk H3) as (c' & s4 & -> & Hc' & H4); [apply trim_trim | lia|].
  cbn [mbind outcome_bind obind]. eexists _, s4. split; [reflexivity|]. split; [by constructor | done].
Qed.

Lemma parsers_text a : ast_ok a → exec_text a ∧ pipe_text a ∧ back_text a ∧ line_text a.
Proof using.
  induction a as [ws|a IH d f|a IHa b IHb|a IHa b IHb|a IH]; intros Hok.
  - assert (exec_text (AExec ws)) by (by apply exec_words).
    auto 10 using pipe_of_exec, back_of_pipe, line_of_back.
  - destruct Hok as [Hok Hf]. assert (exec_text (ARedir a d f)) by (apply exec_redir; [done | by apply IH]).
    auto 10 using pipe_of_exec, back_of_pipe, line_of_back.
  - destruct Hok as [Ha Hb]. assert (pipe_text (APipe a b)) by (apply pipe_pipe; [by apply IHa | by apply IHb]).
    auto 10 using back_of_pipe, line_of_back, exec_of_line.
  - destruct Hok as [Ha Hb]. assert (line_text (AList a b)) by (apply line_list; [by apply IHa | by apply IHb]).
    auto 10 using exec_of_line, pipe_of_exec, back_of_pipe.
  - assert (back_text (ABack a)) by (apply back_back; by apply IH).
    auto 10 using line_of_back, exec_of_line, pipe_of_exec.
Qed.
End Parser.

(** *** Cutting the words *)

Lemma nulterminate_spec m c x :
  nulterminate m c x = if bool_decide (x ∈ word_ends c) then 0 else m x.
Proof.
  revert m; induction c as [args|c IH r|l IHl r IHr|l IHl r IHr|c IH]; intros m; cbn [nulterminate word_ends].
  - revert m; induction args as [|[q eq] args IH]; intros m; [done|]. cbn [foldl fmap list_fmap snd].
    rewrite IH. unfold mupd. destruct (Z.eqb_spec x eq); repeat case_bool_decide; rewrite ?elem_of_cons in *; tauto.
  - unfold mupd. rewrite IH. destruct (Z.eqb_spec x (r_efile r)); repeat case_bool_decide;
      rewrite ?elem_of_cons in *; tauto.
  - rewrite IHr, IHl. repeat case_bool_decide; rewrite ?elem_of_app in *; tauto.
  - rewrite IHr, IHl. repeat case_bool_decide; rewrite ?elem_of_app in *; tauto.
  - apply IH.
Qed.

(** A relation between words that depends on their ends only. *)
Lemma means_impl (W W' : Z → Z → list Z → Prop) c a :
  means W c a → (∀ q eq w, eq ∈ word_ends c → W q eq w → W' q eq w) → means W' c a.
Proof.
  intros H. induction H as [args ws H|c a r d f H IH Hr|c c' a a' H IH H' IH'|c c' a a' H IH H' IH'|c a H IH];
    cbn [word_ends]; intros HW.
  - constructor. induction H as [|[q eq] w args ws Hw H IH]; constructor.
    + apply HW; [|done]. left.
    + apply IH. intros. apply HW; [by right | done].
  - constructor.
    + apply IH. intros. apply HW; [by right | done].
    + destruct Hr as [Hr1 Hr2]. split; [|done]. apply HW; [left | done].
  - constructor; [apply IH | apply IH']; intros; (apply HW; [apply elem_of_app; tauto | done]).
  - constructor; [apply IH | apply IH']; intros; (apply HW; [apply elem_of_app; tauto | done]).
  - constructor. auto.
Qed.

Lemma means_ends (W : Z → Z → list Z → Prop) (P : Z → Prop) c a :
  means W c a → (∀ q eq w, W q eq w → P eq) → ∀ e, e ∈ word_ends c → P e.
Proof.
  intros H HW. induction H as [args ws H|c a r d f H IH Hr|c c' a a' H IH H' IH'|c c' a a' H IH H' IH'|c a H IH];
    cbn [word_ends]; intros e He.
  - induction H as [|[q eq] w args ws Hw H IH]; [by apply elem_of_nil in He|].
    apply elem_of_cons in He as [->|He]; [by eapply HW | auto].
  - apply elem_of_cons in He as [->|He]; [|auto]. destruct Hr as [Hr _]. by eapply HW.
  - apply elem_of_app in He as [He|He]; auto.
  - apply elem_of_app in He as [He|He]; auto.
  - auto.
Qed.

(** After the cuts every word is a string. *)
Lemma span_cut m c a q eq w :
  means (span m) c a → eq ∈ word_ends c → span m q eq w → cstr (nulterminate m c) q w.
Proof.
  intros Hc He (-> & Hr & Hw & _). apply cstr_mread. split_and!.
  - etrans; [|exact Hr]. apply mread_ext. intros x Hx. rewrite nulterminate_spec.
    case_bool_decide as Hin; [|done].
    apply (means_ends _ (λ e, word_end (m e)) _ _ Hc) in Hin; [|by intros ? ? ? (_ & _ & _ & ?)].
    exfalso. rewrite <- Hr, Forall_lookup in Hw.
    destruct (Hw (Z.to_nat (x - q)) (m x)) as (H0 & H1 & H2).
    { rewrite mread_lookup by lia. do 2 f_equal. lia. }
    destruct Hin as [?|[?|?]]; congruence.
  - rewrite nulterminate_spec. by rewrite bool_decide_eq_true_2.
  - eapply Forall_impl; [exact Hw|]. by intros x (? & _).
Qed.

Lemma parsecmd_text fuel m s a k :
  ast_ok a → trim k = [] → cstr m s (pr 0 a ++ k) → (4 * length (pr 0 a ++ k) + 4 ≤ fuel)%nat →
  ∃ c m', parsecmd fuel m s = Ok (c, m') ∧ means (λ q _ w, cstr m' q w) c a.
Proof.
  intros Hok Hk Hs Hf. unfold parsecmd. rewrite (ustrlen_spec fuel m s (pr 0 a ++ k)) by (done || lia).
  cbn [mbind outcome_bind obind]. set (es := s + Z.of_nat (length (pr 0 a ++ k))).
  destruct (parsers_text m es a Hok) as (_ & _ & _ & Hl).
  destruct (Hl fuel s (pr 0 a ++ k) k) as (c & s' & -> & Hc & H'); [by unfold follow; rewrite Hk | done | done | lia|].
  rewrite Hk in H'.
  cbn [mbind outcome_bind obind]. destruct (peek_at m es s' [] [] H') as (s2 & -> & [_ H2]).
  simpl in H2. destruct (Z.eqb_spec s2 es); [|lia]. cbn [negb]. eexists _, _. split; [reflexivity|].
  eapply means_impl; [exact Hc|]. intros q eq w He Hsp. by eapply span_cut.
Qed.

(** ** Theorems *)

(** C8: Parsing a printed command gives the command back: for every command tree [a] of
    words without white space or symbols, with at most nine words each, [parsecmd] on the
    text of [a] (parentheses, pipes, lists, background jobs and redirections included), with
    white space such as the newline of the input line after it, returns a tree of the same shape whose pointers, after [nulterminate], are the words of
    [a] as NUL-terminated strings. *)
Theorem parsecmd_print fuel m s a k :
  ast_ok a → trim k = [] → cstr m s (pr 0 a ++ k) → (4 * length (pr 0 a ++ k) + 4 ≤ fuel)%nat →
  ∃ c m', parsecmd fuel m s = Ok (c, m') ∧ means (λ q _ w, cstr m' q w) c a.
Proof. apply parsecmd_text. Qed.

(** C38: The parser ends on every line: with four units of fuel per byte, [parsecmd] returns a
    tree or reports a syntax error, whatever the line contains. *)
Theorem parsecmd_terminates fuel m s l :
  cstr m s l → (4 * length l + 4 ≤ fuel)%nat →
  (∃ c m', parsecmd fuel m s = Ok (c, m')) ∨ (∃ msg, parsecmd fuel m s = Panic msg).
Proof.
  intros Hs Hf. unfold parsecmd. rewrite (ustrlen_spec fuel m s l) by (done || lia).
  cbn [mbind outcome_bind obind]. set (es := s + Z.of_nat (length l)).
  destruct (parsers_end m es fuel) as (He & _). specialize (He s l ltac:(done) Hf).
  destruct (parseline fuel m es s) as [[c s']|msg|msg|]; [|by right; eexists|done..].
  cbn [mbind outcome_bind obind]. destruct (peek m es s' []) as [b s2].
  destruct (negb _); [by right; eexists | left; by eexists _, _].
Qed.

(** The line [(a <f |b c >g )&;d ]. *)
Definition sample_ast : ast :=
  AList (ABack (APipe (ARedir (AExec [[97]]) RIn [102])
                      (ARedir (AExec [[98]; [99]]) ROut [103]))) (AExec [[100]]).

Lemma parsecmd_print_witness :
  ∃ c m', parsecmd 100 (put_bytes (λ _, 0) 1000 (pr 0 sample_ast ++ [10])) 1000 = Ok (c, m') ∧
    means (λ q _ w, cstr m' q w) c sample_ast.
Proof.
  apply (parsecmd_print 100 (put_bytes (λ _, 0) 1000 (pr 0 sample_ast ++ [10])) 1000 sample_ast [10]).
  - cbn. repeat (split || constructor || lia); discriminate.
  - reflexivity.
  - vm_compute. repeat split; discriminate.
  - vm_compute. lia.
Defined.

(** A line with a missing parenthesis. *)
Lemma parsecmd_terminates_witness :
  parsecmd 20 (put_bytes (λ _, 0) 1000 [40; 97]) 1000 = Panic "syntax - missing )" ∧
  ((∃ c m', parsecmd 20 (put_bytes (λ _, 0) 1000 [40; 97]) 1000 = Ok (c, m')) ∨
   (∃ msg, parsecmd 20 (put_bytes (λ _, 0) 1000 [40; 97]) 1000 = Panic msg)).
Proof.
  split; [vm_compute; reflexivity|]. apply (parsecmd_terminates 20 _ 1000 [40; 97]).
  - vm_compute. repeat split; discriminate.
  - simpl. lia.
Defined.
