(* ===== verification/User.v ===== *)
(** * User programs and their system calls

    A user program is an interaction tree over the system calls of src/user.h: it computes,
    calls the kernel, and goes on with the answer.  Programs that loop for ever, such as the
    shell and init, need no fuel this way.  Buffers are passed by value: a call carries the
    bytes it writes and is answered by the bytes it reads.

    The kernel as a program sees it ([scall]) keeps for each process the table of open files
    with the lowest free descriptor rule of [fdalloc]; an open file reads from one stream of
    bytes and writes to another.  What a path name denotes, which programs can be executed
    and what the calls answer that have no effect on descriptors and streams is up to the
    environment [env].  [fork] gives the child the descriptors of its parent; [eval] runs the
    child first and collects for every process how it ends, by [exit] or by a successful
    [exec], and with which descriptors.  [run] is the same relation as a function with fuel,
    and [eval_run] says that it finds what the relation promises. *)

From ITree Require Import Core.ITreeDefinition.
From S2P Require Import Prelude Param KString Digits Ulib Printf Cmos ProcCommon.
Local Open Scope Z_scope.

(** ** Definitions *)

(** [struct stat]. *)
Record ustat := mkStat {
  st_type : Z;
  st_ino : Z;
  st_size : Z;
  st_mode : Z;
  st_uid : Z;
  st_gid : Z
}.

(** *** System calls

    Those the modelled programs make: none of them calls [getpid], [getppid], [sbrk] or
    [setpriority] (the heap of umalloc.c, which extends itself with [sbrk], is a model of its
    own). *)

Inductive sysE : Type → Type :=
| SFork : sysE Z
| SExit : sysE Empty_set
| SWait : sysE Z
| SPipe : sysE (option (Z * Z))
| SWrite (fd : Z) (bytes : list Z) : sysE Z
| SRead (fd n : Z) : sysE (option (list Z))
| SClose (fd : Z) : sysE Z
| SKill (pid : Z) : sysE Z
| SExec (path : list Z) (argv : list (list Z)) : sysE Z
| SOpen (path : list Z) (mode : Z) : sysE Z
| SMknod (path : list Z) (major minor : Z) : sysE Z
| SUnlink (path : list Z) : sysE Z
| SFstat (fd : Z) : sysE (option ustat)
| SLink (old new : list Z) : sysE Z
| SMkdir (path : list Z) : sysE Z
| SChdir (path : list Z) : sysE Z
| SDup (fd : Z) : sysE Z
| SSleep (n : Z) : sysE Z
| SUptime : sysE Z
| SHalt : sysE Z
| SDate : sysE (option rtcdate)
| SGetprocs (max : Z) : sysE (Z * list uproc)
| SChmod (path : list Z) (mode : Z) : sysE Z
| SChown (path : list Z) (uid : Z) : sysE Z
| SChgrp (path : list Z) (gid : Z) : sysE Z
| SGetuid : sysE Z
| SGetgid : sysE Z
| SSetuid (uid : Z) : sysE Z
| SSetgid (gid : Z) : sysE Z.

Definition prog (A : Type) : Type := itree sysE A.

#[export] Instance prog_ret : MRet prog := fun A a => Ret a.
#[export] Instance prog_bind : MBind prog := fun A B f m => ITree.bind m f.

Definition sys {A : Type} (e : sysE A) : prog A := ITree.trigger e.
Definition exit {A : Type} : prog A := Vis SExit (fun x : Empty_set => match x with end).

(** Run a body for each element of a list. *)
Fixpoint each {X : Type} (l : list X) (body : X → prog unit) : prog unit :=
  match l with
  | [] => mret tt
  | x :: l' => body x;; each l' body
  end.

(** [printf(fd, fmt, ...)]: the output of the conversions, a byte per call of [write]. *)
Definition putc (fd c : Z) : prog unit := sys (SWrite fd [c]);; mret tt.
Definition item_bytes (i : item) : list Z :=
  match i with
  | ILit c => [c]
  | IDec n => match printint (s32 n) 10 true with Ok l => l | _ => [] end
  | IHex _ n => match printint (s32 n) 16 false with Ok l => l | _ => [] end
  | IStr _ l => l
  | INull => bytes_of "(null)"
  | IChr a => [u8 a]
  | IPct => [37]
  | IUnk c => [37; c]
  end.
Definition lit (s : string) : list item := ILit <$> bytes_of s.
Definition str (l : list Z) : item := IStr 1 l.
Definition uprintf (fd : Z) (its : list item) : prog unit := each (its ≫= item_bytes) (putc fd).

(** *** The kernel as a program sees it *)

(** An open file: the stream it reads from and the stream it writes to. *)
Record uobj := mkObj { o_src : option nat; o_dst : option nat }.

#[export] Instance uobj_eq_dec : EqDecision uobj.
Proof. solve_decision. Defined.

Abbreviation fdtable := (list (option uobj)).

(** Calls whose effect is outside this model. *)
Inductive ucall :=
| CWait | CKill (pid : Z) | CMknod (path : list Z) (major minor : Z) | CUnlink (path : list Z)
| CLink (old new : list Z) | CMkdir (path : list Z) | CChdir (path : list Z) | CSleep (n : Z)
| CUptime | CHalt | CChmod (path : list Z) (mode : Z) | CChown (path : list Z) (uid : Z)
| CChgrp (path : list Z) (gid : Z) | CGetuid | CGetgid | CSetuid (uid : Z) | CSetgid (gid : Z).

(** The streams, the files they belong to, the next stream or process number and the calls
    so far. *)
Record world := mkWorld {
  w_in : gmap nat input;
  w_out : gmap nat (list Z);
  w_file : gmap nat (list Z);
  w_next : nat;
  w_log : list ucall
}.

(** What a path name denotes: a device, or a file with its contents.  [e_stat] is told the
    path name an open file was opened with. *)
Inductive target := TDev (o : uobj) | TFile (data : input).

Record env := mkEnv {
  e_open : list Z → Z → option target;
  e_exec : list Z → bool;
  e_fork : nat → bool;
  e_ret : ucall → list ucall → Z;
  e_stat : uobj → option (list Z) → option ustat;
  e_date : option rtcdate;
  e_procs : Z → Z * list uproc
}.

Definition set_w_in (f : gmap nat input) (w : world) : world :=
  mkWorld f (w_out w) (w_file w) (w_next w) (w_log w).
Definition set_w_out (f : gmap nat (list Z)) (w : world) : world :=
  mkWorld (w_in w) f (w_file w) (w_next w) (w_log w).
Definition set_w_next (n : nat) (w : world) : world :=
  mkWorld (w_in w) (w_out w) (w_file w) n (w_log w).
Definition add_log (c : ucall) (w : world) : world :=
  mkWorld (w_in w) (w_out w) (w_file w) (w_next w) (w_log w ++ [c]).
Definition add_file (path : list Z) (data : input) (w : world) : world :=
  let n := w_next w in
  mkWorld (<[n := data]> (w_in w)) (w_out w) (<[n := path]> (w_file w)) (S n) (w_log w).

(** The bytes are appended to stream [k]. *)
Definition emit (k : nat) (bytes : list Z) (w : world) : world :=
  match bytes with
  | [] => w
  | _ => set_w_out (<[k := w_out w !!! k ++ bytes]> (w_out w)) w
  end.

(** How a process ends. *)
Inductive fate := Exited | Execed (path : list Z) (argv : list (list Z)).

Inductive reply (T : Type) :=
| Answer (r : T) (fds : fdtable) (w : world)
| Stop (f : fate).
Arguments Answer {T} r fds w.
Arguments Stop {T} f.

(** The lowest free descriptor, given to [o]. *)
Definition ufd_alloc (fds : fdtable) (o : uobj) : option (Z * fdtable) :=
  match list_find (λ x, x = None) fds with
  | Some (i, _) => Some (Z.of_nat i, <[i := Some o]> fds)
  | None => None
  end.

(** The open file [fd] denotes. *)
Definition ufd_get (fds : fdtable) (fd : Z) : option uobj :=
  if fd <? 0 then None else fds !! Z.to_nat fd ≫= id.

Definition pipe_r (n : nat) : uobj := mkObj (Some n) None.
Definition pipe_w (n : nat) : uobj := mkObj None (Some n).

(** An open file of the file system, with a stream of its own. *)
Definition file_obj (n : nat) (mode : Z) : uobj :=
  mkObj (if Z.land mode O_WRONLY =? 0 then Some n else None)
        (if negb (Z.land mode O_WRONLY =? 0) || negb (Z.land mode O_RDWR =? 0) then Some n else None).

(** The object an [open] that succeeds returns. *)
Definition opened (t : target) (path : list Z) (mode : Z) (w : world) : uobj * world :=
  match t with
  | TDev o => (o, w)
  | TFile data => (file_obj (w_next w) mode, add_file path data w)
  end.

(** Bytes written to a descriptor, which are lost if it is not open for writing. *)
Definition say (fds : fdtable) (fd : Z) (bytes : list Z) (w : world) : world :=
  match ufd_get fds fd ≫= o_dst with Some k => emit k bytes w | None => w end.

Section Kernel.
Variable ev : env.

Definition logged (c : ucall) (fds : fdtable) (w : world) : reply Z :=
  Answer (e_ret ev c (w_log w)) fds (add_log c w).

(** Every call but [fork]. *)
Definition scall {T : Type} (e : sysE T) (fds : fdtable) (w : world) : reply T :=
  match e with
  | SFork => Answer (-1) fds w
  | SExit => Stop Exited
  | SWait => logged CWait fds w
  | SPipe =>
      let n := w_next w in
      match ufd_alloc fds (pipe_r n) with
      | None => Answer None fds w
      | Some (fd0, fds1) =>
          match ufd_alloc fds1 (pipe_w n) with
          | None => Answer None fds w
          | Some (fd1, fds2) => Answer (Some (fd0, fd1)) fds2 (set_w_next (S n) w)
          end
      end
  | SWrite fd bytes =>
      match ufd_get fds fd ≫= o_dst with
      | Some k => Answer (Z.of_nat (length bytes)) fds (emit k bytes w)
      | None => Answer (-1) fds w
      end
  | SRead fd n =>
      match ufd_get fds fd ≫= o_src with
      | Some k => Answer (Some (uread n (w_in w !!! k)).1) fds
                    (set_w_in (<[k := (uread n (w_in w !!! k)).2]> (w_in w)) w)
      | None => Answer None fds w
      end
  | SClose fd =>
      match ufd_get fds fd with
      | Some _ => Answer 0 (<[Z.to_nat fd := None]> fds) w
      | None => Answer (-1) fds w
      end
  | SKill pid => logged (CKill pid) fds w
  | SExec path argv => if e_exec ev path then Stop (Execed path argv) else Answer (-1) fds w
  | SOpen path mode =>
      match e_open ev path mode with
      | None => Answer (-1) fds w
      | Some t =>
          let '(o, w') := opened t path mode w in
          match ufd_alloc fds o with
          | None => Answer (-1) fds w
          | Some (fd, fds') => Answer fd fds' w'
          end
      end
  | SMknod path major minor => logged (CMknod path major minor) fds w
  | SUnlink path => logged (CUnlink path) fds w
  | SFstat fd => Answer (ufd_get fds fd ≫= λ o, e_stat ev o (o_src o ≫= λ n, w_file w !! n)) fds w
  | SLink old new => logged (CLink old new) fds w
  | SMkdir path => logged (CMkdir path) fds w
  | SChdir path => logged (CChdir path) fds w
  | SDup fd =>
      match ufd_get fds fd with
      | None => Answer (-1) fds w
      | Some o =>
          match ufd_alloc fds o with
          | None => Answer (-1) fds w
          | Some (fd', fds') => Answer fd' fds' w
          end
      end
  | SSleep n => logged (CSleep n) fds w
  | SUptime => logged CUptime fds w
  | SHalt => logged CHalt fds w
  | SDate => Answer (e_date ev) fds w
  | SGetprocs max => Answer (e_procs ev max) fds w
  | SChmod path mode => logged (CChmod path mode) fds w
  | SChown path uid => logged (CChown path uid) fds w
  | SChgrp path gid => logged (CChgrp path gid) fds w
  | SGetuid => logged CGetuid fds w
  | SGetgid => logged CGetgid fds w
  | SSetuid uid => logged (CSetuid uid) fds w
  | SSetgid gid => logged (CSetgid gid) fds w
  end.

Definition is_fork {T : Type} (e : sysE T) : bool := match e with SFork => true | _ => false end.

(** The processes that end, with their descriptors, and what the program itself returns. *)
Inductive eval {A : Type} : prog A → fdtable → world →
    list (fate * fdtable) → option (A * fdtable) → world → Prop :=
| eval_ret t a fds w : observe t = RetF a → eval t fds w [] (Some (a, fds)) w
| eval_tau t t' fds w l o w' : observe t = TauF t' → eval t' fds w l o w' → eval t fds w l o w'
| eval_stop t T (e : sysE T) k f fds w :
    observe t = VisF e k → scall e fds w = Stop f → eval t fds w [(f, fds)] None w
| eval_call t T (e : sysE T) k r fds fds' w w' l o w'' :
    observe t = VisF e k → is_fork e = false → scall e fds w = Answer r fds' w' →
    eval (k r) fds' w' l o w'' → eval t fds w l o w''
| eval_fork t k fds w l1 o1 w1 l2 o2 w2 :
    observe t = VisF SFork k → e_fork ev (w_next w) = true →
    eval (k 0) fds (set_w_next (S (w_next w)) w) l1 o1 w1 → o1 = None →
    eval (k (Z.of_nat (w_next w) + 1)) fds w1 l2 o2 w2 → eval t fds w (l1 ++ l2) o2 w2
| eval_fork_fails t k fds w l o w' :
    observe t = VisF SFork k → e_fork ev (w_next w) = false →
    eval (k (-1)) fds w l o w' → eval t fds w l o w'.

(** The same as a function. *)
Fixpoint run (fuel : nat) {A : Type} (t : prog A) (fds : fdtable) (w : world) :
    outcome (list (fate * fdtable) * option (A * fdtable) * world) :=
  match fuel with
  | O => Diverge
  | S fuel' =>
      match observe t with
      | RetF a => Ok ([], Some (a, fds), w)
      | TauF t' => run fuel' t' fds w
      | VisF e k =>
          match e in sysE T return (T → prog A) → _ with
          | SFork => fun k =>
              if e_fork ev (w_next w) then
                '(l1, o1, w1) ← run fuel' (k 0) fds (set_w_next (S (w_next w)) w);
                match o1 with
                | Some _ => Undef "a child returns"
                | None =>
                    '(l2, o2, w2) ← run fuel' (k (Z.of_nat (w_next w) + 1)) fds w1;
                    Ok (l1 ++ l2, o2, w2)
                end
              else run fuel' (k (-1)) fds w
          | e => fun k =>
              match scall e fds w with
              | Stop f => Ok ([(f, fds)], None, w)
              | Answer r fds' w' => run fuel' (k r) fds' w'
              end
          end k
      end
  end.
End Kernel.

(** ** Lemmas *)

Lemma observe_bind {A B : Type} (t : prog A) (k : A → prog B) :
  observe (t ≫= k) =
  match observe t with
  | RetF a => observe (k a)
  | TauF t' => TauF (t' ≫= k)
  | VisF e c => VisF e (λ x, c x ≫= k)
  end.
Proof.
  transitivity (observe (match observe t with
    | RetF a => k a
    | TauF t' => Tau (ITree.subst k t')
    | VisF e c => Vis e (λ x, ITree.subst k (c x))
    end)); [reflexivity | by destruct (observe t)].
Qed.

(** [uprintf] prints what [printf] of src/printf.c prints for the format and the arguments. *)
Lemma item_prints_bytes m i out : item_ok m i → item_prints i out → out = item_bytes i.
Proof.
  destruct i as [c|n|c n|s l| |a| |c]; cbn [item_ok item_prints item_bytes]; try done.
  - intros Hn (ds & Hds & ->). rewrite s32_small by done.
    destruct (printint_dec n Hn) as (ds' & -> & Hds' & _).
    by rewrite (numeral_unique 10 (Z.abs n) ds ds').
  - intros [_ Hn] (ds & Hds & ->). destruct (printint_hex n Hn) as (ds' & -> & Hds').
    by rewrite (numeral_unique 16 n ds ds').
Qed.

Lemma uprintf_is_printf fuel m fmt its :
  Forall (item_ok m) its → cstr m fmt (its ≫= item_fmt) →
  Forall (λ i, fuel > item_len i + length (its ≫= item_fmt))%nat its →
  (length (its ≫= item_fmt) < fuel)%nat →
  printf fuel m fmt (its ≫= item_args) = Ok (its ≫= item_bytes).
Proof.
  intros Hok Hs Hf Hl. destruct (printf_items fuel m fmt its Hok Hs Hl Hf) as (outs & E & Ho).
  unfold printf. rewrite E. f_equal. clear -Hok Ho.
  induction Ho as [|i out its outs Hi Ho IH]; [done|]. apply Forall_cons in Hok as [Hi' Hok].
  cbn. rewrite (item_prints_bytes m i out Hi' Hi). f_equal. by apply IH.
Qed.

Lemma lit_bytes s : lit s ≫= item_bytes = bytes_of s.
Proof. unfold lit. induction (bytes_of s) as [|c l IH]; [done|]. cbn in *. by rewrite IH. Qed.

Lemma emit_emit k a b w : emit k b (emit k a w) = emit k (a ++ b) w.
Proof.
  destruct a as [|x a], b as [|y b]; [done | done | by rewrite app_nil_r|].
  unfold emit at 1 2. cbn [set_w_out w_out w_in w_file w_next w_log app].
  rewrite lookup_total_insert_eq. unfold emit, set_w_out. cbn [w_out w_in w_file w_next w_log].
  by rewrite insert_insert_eq, <- app_assoc.
Qed.

Lemma emit_out k l w : w_out (emit k l w) !!! k = w_out w !!! k ++ l.
Proof. destruct l; [by rewrite app_nil_r|]. apply lookup_total_insert_eq. Qed.

Lemma emit_in k l w : w_in (emit k l w) = w_in w.
Proof. by destruct l. Qed.

(** A new descriptor: it denotes the file, the others are as before, and closing it undoes
    the allocation. *)
Lemma ufd_alloc_spec fds o fd fds' :
  ufd_alloc fds o = Some (fd, fds') →
  0 ≤ fd ∧ ufd_get fds' fd = Some o ∧ <[Z.to_nat fd := None]> fds' = fds ∧
  ∀ fd2 o2, ufd_get fds fd2 = Some o2 → ufd_get fds' fd2 = Some o2.
Proof.
  unfold ufd_alloc. destruct (list_find _ fds) as [[i x]|] eqn:E; [|done]. intros [= <- <-].
  apply list_find_Some in E as (Hi & -> & _). apply lookup_lt_Some in Hi as Hl.
  split; [lia|]. rewrite Nat2Z.id. split_and!.
  - unfold ufd_get. destruct (Z.ltb_spec (Z.of_nat i) 0); [lia|].
    by rewrite Nat2Z.id, list_lookup_insert_eq.
  - rewrite list_insert_insert_eq. by apply list_insert_id.
  - intros fd2 o2. unfold ufd_get. destruct (fd2 <? 0); [done|].
    destruct (decide (i = Z.to_nat fd2)) as [->|Hne]; [by rewrite Hi | by rewrite list_lookup_insert_ne].
Qed.

Lemma ufd_alloc_some fds o : None ∈ fds → is_Some (ufd_alloc fds o).
Proof.
  intros H. unfold ufd_alloc. destruct (list_find _ fds) as [[i x]|] eqn:E; [by eexists|].
  apply list_find_None in E. rewrite Forall_forall in E. by destruct (E None H).
Qed.

Section Eval.
Context {ev : env}.

Lemma eval_observe {A : Type} (t t' : prog A) fds w l o w' :
  observe t = observe t' → eval ev t fds w l o w' → eval ev t' fds w l o w'.
Proof. intros E H. destruct H; rewrite E in *; by econstructor. Qed.

(** A program that ends does not get to what follows it. *)
Lemma eval_bind_stop {A B : Type} (t : prog A) (k : A → prog B) fds w l w1 :
  eval ev t fds w l None w1 → eval ev (t ≫= k) fds w l None w1.
Proof.
  intros H. remember None as o eqn:Eo. induction H; try done.
  - eapply eval_tau; [by rewrite observe_bind, H | eauto].
  - eapply eval_stop; [by rewrite observe_bind, H | done].
  - eapply eval_call; [by rewrite observe_bind, H | done | done | eauto].
  - eapply eval_fork; [by rewrite observe_bind, H | done | eauto | done | eauto].
  - eapply eval_fork_fails; [by rewrite observe_bind, H | done | eauto].
Qed.

Lemma eval_bind {A B : Type} (t : prog A) (k : A → prog B) fds w l a fds1 w1 l2 o2 w2 :
  eval ev t fds w l (Some (a, fds1)) w1 → eval ev (k a) fds1 w1 l2 o2 w2 →
  eval ev (t ≫= k) fds w (l ++ l2) o2 w2.
Proof.
  intros H. remember (Some (a, fds1)) as o eqn:Eo. revert a fds1 Eo.
  induction H; intros a0 fds1 Eo Hk; try done; try rewrite <- app_assoc.
  - injection Eo as <- <-. eapply eval_observe; [|exact Hk]. by rewrite observe_bind, H.
  - eapply eval_tau; [by rewrite observe_bind, H | eauto].
  - eapply eval_call; [by rewrite observe_bind, H | done | done | eauto].
  - subst o1. eapply eval_fork; [by rewrite observe_bind, H | done | by apply eval_bind_stop | done | eauto].
  - eapply eval_fork_fails; [by rewrite observe_bind, H | done | eauto].
Qed.

(** System calls. *)
Lemma eval_sys {A T : Type} (e : sysE T) (k : T → prog A) r fds fds' w w' l o w'' :
  is_fork e = false → scall ev e fds w = Answer r fds' w' → eval ev (k r) fds' w' l o w'' →
  eval ev (sys e ≫= k) fds w l o w''.
Proof.
  intros Hf Hc H. eapply eval_call; [by rewrite observe_bind | done | done |].
  eapply eval_observe; [|exact H]. symmetry. by rewrite observe_bind.
Qed.

Lemma eval_exec {A : Type} path argv (k : Z → prog A) fds w :
  e_exec ev path = true → eval ev (sys (SExec path argv) ≫= k) fds w [(Execed path argv, fds)] None w.
Proof. intros E. eapply eval_stop; [by rewrite observe_bind | cbn; by rewrite E]. Qed.

Lemma eval_exit {A : Type} fds w : eval ev (exit (A := A)) fds w [(Exited, fds)] None w.
Proof. by eapply eval_stop. Qed.

Lemma eval_spawn {A : Type} (k : Z → prog A) fds w l1 w1 l2 o2 w2 :
  e_fork ev (w_next w) = true → eval ev (k 0) fds (set_w_next (S (w_next w)) w) l1 None w1 →
  eval ev (k (Z.of_nat (w_next w) + 1)) fds w1 l2 o2 w2 →
  eval ev (sys SFork ≫= k) fds w (l1 ++ l2) o2 w2.
Proof.
  intros Hf H1 H2. eapply eval_fork; [by rewrite observe_bind | done | | done |].
  - eapply eval_observe; [|exact H1]. symmetry. by rewrite observe_bind.
  - eapply eval_observe; [|exact H2]. symmetry. by rewrite observe_bind.
Qed.

Lemma eval_mret {A : Type} (a : A) fds w : eval ev (mret a) fds w [] (Some (a, fds)) w.
Proof. by apply eval_ret. Qed.

(** A round of a loop that goes on, and the last round. *)
Lemma eval_iter {I R : Type} (step : I → prog (I + R)) i fds w l r fds1 w1 l2 o w2 :
  eval ev (step i) fds w l (Some (r, fds1)) w1 →
  eval ev (match r with inl i' => ITree.iter step i' | inr a => mret a end) fds1 w1 l2 o w2 →
  eval ev (ITree.iter step i) fds w (l ++ l2) o w2.
Proof.
  intros H1 H2.
  set (k := λ lr : I + R, match lr with inl i' => Tau (ITree.iter step i') | inr a => Ret a end).
  apply (eval_observe (step i ≫= k)); [done|]. apply (eval_bind _ _ _ _ _ _ _ _ _ _ _ H1).
  destruct r as [i'|a]; [|exact H2]. by eapply eval_tau.
Qed.

Lemma eval_iter_stop {I R : Type} (step : I → prog (I + R)) i fds w l w1 :
  eval ev (step i) fds w l None w1 → eval ev (ITree.iter step i) fds w l None w1.
Proof.
  intros H.
  set (k := λ lr : I + R, match lr with inl i' => Tau (ITree.iter step i') | inr a => Ret a end).
  apply (eval_observe (step i ≫= k)); [done|]. by apply eval_bind_stop.
Qed.

(** A program followed by one that returns is that program; sequencing is associative. *)
Lemma eval_bind_nil {A B : Type} (t : prog A) (k : A → prog B) fds w a fds1 w1 l2 o2 w2 :
  eval ev t fds w [] (Some (a, fds1)) w1 → eval ev (k a) fds1 w1 l2 o2 w2 →
  eval ev (t ≫= k) fds w l2 o2 w2.
Proof. exact (eval_bind t k fds w [] a fds1 w1 l2 o2 w2). Qed.

Lemma eval_write fd k o bytes fds w :
  ufd_get fds fd = Some o → o_dst o = Some k →
  scall ev (SWrite fd bytes) fds w = Answer (Z.of_nat (length bytes)) fds (emit k bytes w).
Proof. intros Ho Hk. cbn. by rewrite Ho; cbn; rewrite Hk. Qed.

(** Output. *)
Lemma eval_puts fd l fds w : eval ev (each l (putc fd)) fds w [] (Some (tt, fds)) (say fds fd l w).
Proof.
  assert (Hs : ∀ c w, ∃ r, scall ev (SWrite fd [c]) fds w = Answer r fds (say fds fd [c] w)).
  { intros c w'. cbn. unfold say. by destruct (ufd_get fds fd ≫= o_dst); eexists. }
  revert w. induction l as [|c l IH]; intros w.
  - replace (say fds fd [] w) with w by (unfold say; by destruct (ufd_get fds fd ≫= o_dst)). apply eval_mret.
  - cbn [each]. destruct (Hs c w) as [r E]. eapply eval_bind_nil.
    + eapply eval_sys; [done | exact E | apply eval_mret].
    + replace (say fds fd (c :: l) w) with (say fds fd l (say fds fd [c] w)); [apply IH|].
      unfold say. destruct (ufd_get fds fd ≫= o_dst); [|done]. apply emit_emit.
Qed.

Lemma eval_say fd its fds w :
  eval ev (uprintf fd its) fds w [] (Some (tt, fds)) (say fds fd (its ≫= item_bytes) w).
Proof. apply eval_puts. Qed.

Lemma eval_uprintf fd k o its fds w :
  ufd_get fds fd = Some o → o_dst o = Some k →
  eval ev (uprintf fd its) fds w [] (Some (tt, fds)) (emit k (its ≫= item_bytes) w).
Proof. intros Ho Hk. pose proof (eval_say fd its fds w) as H. unfold say in H. rewrite Ho in H. cbn in H. by rewrite Hk in H. Qed.

(** What the relation promises, the function finds. *)
Lemma eval_run {A : Type} (t : prog A) fds w l o w' :
  eval ev t fds w l o w' → ∃ n, ∀ fuel, (n ≤ fuel)%nat → run ev fuel t fds w = Ok (l, o, w').
Proof.
  intros H. induction H as [t a fds w E | t t' fds w l o w' E _ [n IH] | t T e k f fds w E Es
    | t T e k r fds fds' w w' l o w'' E Ef Es _ [n IH]
    | t k fds w l1 o1 w1 l2 o2 w2 E Ef _ [n1 IH1] E1 _ [n2 IH2] | t k fds w l o w' E Ef _ [n IH]].
  - exists 1%nat. intros [|fuel] Hf; [lia|]. cbn. by rewrite E.
  - exists (S n). intros [|fuel] Hf; [lia|]. cbn [run]. rewrite E. apply IH. lia.
  - exists 1%nat. intros [|fuel] Hf; [lia|]. cbn [run]. rewrite E.
    destruct e; try (by rewrite Es); done.
  - exists (S n). intros [|fuel] Hf; [lia|]. cbn [run]. rewrite E.
    destruct e; try (rewrite Es; apply IH; lia); done.
  - exists (S (n1 + n2)). intros [|fuel] Hf; [lia|]. cbn [run]. rewrite E, Ef, IH1 by lia.
    cbn [mbind outcome_bind obind]. rewrite E1. rewrite IH2 by lia. done.
  - exists (S n). intros [|fuel] Hf; [lia|]. cbn [run]. rewrite E, Ef. apply IH. lia.
Qed.
End Eval.
