(* ===== verification/Programs.v ===== *)
(** * The small user programs

    Models src/cat.c, src/echo.c, src/wc.c, src/kill.c, src/ln.c, src/rm.c, src/mkdir.c,
    src/zombie.c, src/halt.c, src/init.c, src/chmod.c, src/chown.c, src/chgrp.c, src/time.c
    and src/ps.c as interaction trees over the system calls.  A program gets its arguments as
    a list of strings, the name of the program first; a missing argument is a null pointer,
    which the kernel takes as the string at address 0 of the process, a parameter.

    The theorems are about [cat], [echo], [wc], [rm] and [mkdir]. *)

From ITree Require Import Core.ITreeDefinition.
From S2P Require Import Prelude Param KString Digits Ulib Printf Cmos ProcCommon User.
Local Open Scope Z_scope.

(** ** Definitions *)

Definition NL : item := ILit 10.
Definition TAB : item := ILit 9.

(** *** src/cat.c *)

Definition cat (fd : Z) : prog unit :=
  ITree.iter (fun _ : unit =>
    r ← sys (SRead fd 512);
    match r with
    | None => uprintf 1 (lit "cat: read error" ++ [NL]);; exit
    | Some [] => mret (inr tt)
    | Some l => sys (SWrite 1 l);; mret (inl tt)
    end) tt.

Definition cat_file (path : list Z) : prog unit :=
  fd ← sys (SOpen path 0);
  if fd <? 0 then uprintf 1 (lit "cat: cannot open " ++ [str path; NL]);; exit
  else cat fd;; sys (SClose fd);; mret tt.

Definition cat_main (argv : list (list Z)) : prog Empty_set :=
  if (length argv <=? 1)%nat then cat 0;; exit
  else each (tail argv) cat_file;; exit.

(** *** src/echo.c *)

(** The arguments from the second on. *)
Fixpoint echo_args (args : list (list Z)) : prog unit :=
  match args with
  | [] => mret tt
  | a :: args' =>
      uprintf 1 [str a; str (match args' with [] => [10] | _ => [32] end)];;
      echo_args args'
  end.

Definition echo_main (argv : list (list Z)) : prog Empty_set := echo_args (tail argv);; exit.

(** *** src/wc.c *)

Record counts := mkCounts { wc_l : Z; wc_w : Z; wc_c : Z; wc_inword : bool }.

(** [strchr] of the white space. *)
Definition wc_space (c : Z) : bool := existsb (Z.eqb c) [32; 13; 9; 10; 11].

Definition wc_byte (n : counts) (b : Z) : counts :=
  let l := if b =? 10 then wc_l n + 1 else wc_l n in
  if wc_space b then mkCounts l (wc_w n) (wc_c n + 1) false
  else if negb (wc_inword n) then mkCounts l (wc_w n + 1) (wc_c n + 1) true
  else mkCounts l (wc_w n) (wc_c n + 1) (wc_inword n).

Definition wc_loop (fd : Z) : counts → prog counts :=
  ITree.iter (fun n : counts =>
    r ← sys (SRead fd 512);
    match r with
    | None => uprintf 1 (lit "wc: read error" ++ [NL]);; exit
    | Some [] => mret (inr n)
    | Some l => mret (inl (foldl wc_byte n l))
    end).

Definition wc (fd : Z) (name : list Z) : prog unit :=
  n ← wc_loop fd (mkCounts 0 0 0 false);
  uprintf 1 [IDec (wc_l n); ILit 32; IDec (wc_w n); ILit 32; IDec (wc_c n); ILit 32; str name; NL].

Definition wc_file (path : list Z) : prog unit :=
  fd ← sys (SOpen path 0);
  if fd <? 0 then uprintf 1 (lit "wc: cannot open " ++ [str path; NL]);; exit
  else wc fd path;; sys (SClose fd);; mret tt.

Definition wc_main (argv : list (list Z)) : prog Empty_set :=
  if (length argv <=? 1)%nat then wc 0 [];; exit
  else each (tail argv) wc_file;; exit.

(** *** src/kill.c, src/ln.c, src/rm.c, src/mkdir.c, src/zombie.c, src/halt.c *)

(** [atoi] of a string. *)
Definition atoi_str (l : list Z) : Z :=
  match atoi (S (length l)) (put_bytes (λ _, 0) 1 l) 1 with Ok n => n | _ => 0 end.

Definition kill_main (argv : list (list Z)) : prog Empty_set :=
  if (length argv <? 2)%nat then uprintf 2 (lit "usage: kill pid..." ++ [NL]);; exit
  else each (tail argv) (fun a => sys (SKill (atoi_str a));; mret tt);; exit.

Definition ln_main (argv : list (list Z)) : prog Empty_set :=
  match argv with
  | [_; old; new] =>
      r ← sys (SLink old new);
      (if r <? 0 then uprintf 2 (lit "link " ++ [str old; ILit 32; str new] ++ lit ": failed" ++ [NL])
       else mret tt);;
      exit
  | _ => uprintf 2 (lit "Usage: ln old new" ++ [NL]);; exit
  end.

(** The loop of [rm] and [mkdir]: it stops at the first failure. *)
Fixpoint until_fails (call : list Z → sysE Z) (pre post : string) (paths : list (list Z)) : prog unit :=
  match paths with
  | [] => mret tt
  | p :: paths' =>
      r ← sys (call p);
      if r <? 0 then uprintf 2 (lit pre ++ [str p] ++ lit post ++ [NL])
      else until_fails call pre post paths'
  end.

Definition rm_main (argv : list (list Z)) : prog Empty_set :=
  if (length argv <? 2)%nat then uprintf 2 (lit "Usage: rm files..." ++ [NL]);; exit
  else until_fails SUnlink "rm: " " failed to delete" (tail argv);; exit.

Definition mkdir_main (argv : list (list Z)) : prog Empty_set :=
  if (length argv <? 2)%nat then uprintf 2 (lit "Usage: mkdir files..." ++ [NL]);; exit
  else until_fails SMkdir "mkdir: " " failed to create" (tail argv);; exit.

Definition zombie_main : prog Empty_set :=
  pid ← sys SFork;
  (if pid >? 0 then sys (SSleep 5);; mret tt else mret tt);;
  exit.

Definition halt_main : prog Z := sys SHalt;; mret 0.

(** *** src/init.c *)

Definition sh_name : list Z := bytes_of "sh".
Definition console_name : list Z := bytes_of "console".

(** [while((wpid=wait()) >= 0 && wpid != pid)] *)
Definition init_wait (pid : Z) : prog unit :=
  ITree.iter (fun _ : unit =>
    wpid ← sys SWait;
    if (wpid >=? 0) && negb (wpid =? pid) then uprintf 1 (lit "zombie!" ++ [NL]);; mret (inl tt)
    else mret (inr tt)) tt.

(** One round of the loop. *)
Definition init_round : prog unit :=
  uprintf 1 (lit "init: starting sh" ++ [NL]);;
  pid ← sys SFork;
  if pid <? 0 then uprintf 1 (lit "init: fork failed" ++ [NL]);; exit
  else if pid =? 0 then
    sys (SExec sh_name [sh_name]);;
    uprintf 1 (lit "init: exec sh failed" ++ [NL]);; exit
  else init_wait pid.

Definition init_open : prog unit :=
  fd ← sys (SOpen console_name O_RDWR);
  (if fd <? 0 then
     sys (SMknod console_name 1 1);;
     sys (SOpen console_name O_RDWR);; mret tt
   else mret tt);;
  sys (SDup 0);;
  sys (SDup 0);; mret tt.

Definition init_main : prog Empty_set :=
  init_open;;
  ITree.iter (fun _ : unit => init_round;; mret (inl tt)) tt.

(** *** src/chmod.c, src/chown.c, src/chgrp.c *)

Section Null.
(** The string at address 0, and the one the word after the null pointer at the end of
    [argv] points to. *)
Variables at0 past_argv : list Z.
Definition arg (argv : list (list Z)) (i : nat) : list Z :=
  default (if (i =? length argv)%nat then at0 else past_argv) (argv !! i).

(** The loop of [chmod] over the digits, [i] of them read. *)
Fixpoint chmod_digits (i : nat) (mode : Z) (l : list Z) : prog Z :=
  match l with
  | [] => mret mode
  | c :: l' =>
      if (i =? 0)%nat && (negb (c =? 48) && negb (c =? 49)) then
        uprintf 1 (lit "bad setuid bit." ++ [NL]);; exit
      else if negb (i =? 0)%nat && ((c <? 48) && (c >? 55)) then
        uprintf 1 (lit "bad mode bit at " ++ [IDec (Z.of_nat i)] ++ lit " index" ++ [NL]);; exit
      else chmod_digits (S i) (s32 (mode * 8 + c - 48)) l'
  end.

(** [mode] is not initialised: it starts with what is on the stack. *)
Definition chmod_main (stack : Z) (argv : list (list Z)) : prog Empty_set :=
  let mode_check := arg argv 1 in
  if (length argv <? 2)%nat || (3 <? length argv)%nat then
    uprintf 1 (lit "Incorrect arguments." ++ [NL]);; exit
  else
    mode ← chmod_digits 0 stack mode_check;
    r ← sys (SChmod (arg argv 2) mode);
    (if r <? 0 then uprintf 1 (lit "chmod failed" ++ [NL]) else mret tt);;
    exit.

(** The common part of [chown] and [chgrp]. *)
Definition change_id (what : string) (call : list Z → Z → sysE Z) (argv : list (list Z)) : prog Empty_set :=
  if (length argv <? 2)%nat || (3 <? length argv)%nat then
    uprintf 1 (lit "Incorrect arguments." ++ [NL]);; exit
  else
    let id := atoi_str (arg argv 1) in
    if (id <? 0) || (id >? 32767) then uprintf 1 (lit "invalid " ++ lit what ++ lit " number." ++ [NL]);; exit
    else
      r ← sys (call (arg argv 2) id);
      (if r <? 0 then uprintf 1 (lit "chown failed" ++ [NL]) else mret tt);;
      exit.

Definition chown_main : list (list Z) → prog Empty_set := change_id "uid" SChown.
Definition chgrp_main : list (list Z) → prog Empty_set := change_id "gid" SChgrp.

(** *** src/time.c *)

(** What [time] prints, with the [argv] the process has then. *)
Definition time_report (argv : list (list Z)) (start_ticks end_ticks : Z) : prog Empty_set :=
  let seconds := Z.quot (s32 (end_ticks - start_ticks)) 1000 in
  let miliseconds := Z.rem (s32 (end_ticks - start_ticks)) 1000 in
  uprintf 1 ([str (default [] (argv !! 1%nat))] ++ lit " ran in " ++ [IDec seconds; ILit 46]);;
  (if miliseconds <? 10 then uprintf 1 (lit "0") else mret tt);;
  uprintf 1 [IDec miliseconds; NL];;
  exit.

Definition time_main (argv : list (list Z)) : prog Empty_set :=
  start_ticks ← sys SUptime;
  pid ← sys SFork;
  if pid <? 0 then uprintf 1 (lit "invalid pid" ++ [NL]);; exit
  else if pid >? 0 then
    sys SWait;;
    end_ticks ← sys SUptime;
    time_report argv start_ticks end_ticks
  else
    let argv := tail argv in
    r ← sys (SExec (arg argv 1) argv);
    if r <? 0 then exit else time_report argv start_ticks 0.
End Null.

(** *** src/ps.c *)

(** Three digits after the point. *)
Definition print_ticks (n : Z) : prog unit :=
  uprintf 1 [IDec (n / 1000); ILit 46];;
  (if n mod 1000 <? 100 then uprintf 1 (lit "0") else mret tt);;
  (if n mod 1000 <? 10 then uprintf 1 (lit "0") else mret tt);;
  uprintf 1 [IDec (n mod 1000); TAB].

Definition ps_line (u : uproc) : prog unit :=
  uprintf 1 [IDec (u_pid u); TAB; IDec (u_uid u); TAB; IDec (u_gid u); TAB; IDec (u_ppid u); TAB;
             IDec (u_priority u); TAB];;
  print_ticks (u_elapsed_ticks u);;
  print_ticks (u_CPU_total_ticks u);;
  uprintf 1 [str (u_state u); TAB; IDec (u_size u); TAB; str (u_name u); NL].

(** The table is a local array of [malloc], freed at the end. *)
Definition ps_main : prog Empty_set :=
  r ← sys (SGetprocs 72);
  (if r.1 <=? 0 then uprintf 1 (lit "There was an error getting the process table." ++ [NL])
   else
     uprintf 1 (lit "PID" ++ [TAB] ++ lit "UID" ++ [TAB] ++ lit "GID" ++ [TAB] ++ lit "PPID" ++ [TAB] ++
       lit "Prio" ++ [TAB] ++ lit "Elapsed" ++ [TAB] ++ lit "CPU" ++ [TAB] ++ lit "Sate" ++ [TAB] ++
       lit "Size" ++ [TAB] ++ lit "Name" ++ [NL]);;
     each (take (Z.to_nat r.1) r.2) ps_line);;
  exit.

(** *** What the programs should do *)

(** The descriptor [fd] reads from stream [k]; it writes to stream [k]. *)
Definition reads (fds : fdtable) (fd : Z) (k : nat) : Prop := ∃ o, ufd_get fds fd = Some o ∧ o_src o = Some k.
Definition writes (fds : fdtable) (fd : Z) (k : nat) : Prop := ∃ o, ufd_get fds fd = Some o ∧ o_dst o = Some k.

(** The bytes an input holds up to its first empty chunk. *)
Fixpoint until_eof (i : input) : list Z :=
  match i with
  | [] | [] :: _ => []
  | c :: i' => c ++ until_eof i'
  end.

(** What a later reader finds. *)
Fixpoint after_eof (i : input) : input :=
  match i with
  | [] => []
  | [] :: i' => i'
  | _ :: i' => after_eof i'
  end.

(** The stream [k] has been read to its end. *)
Definition drain (k : nat) (w : world) : world := set_w_in (<[k := after_eof (w_in w !!! k)]> (w_in w)) w.

(** Words are separated by white space: a word starts at a byte that is none after one that is. *)
Fixpoint word_starts (prev : bool) (l : list Z) : Z :=
  match l with
  | [] => 0
  | c :: l' => (if prev && negb (wc_space c) then 1 else 0) + word_starts (wc_space c) l'
  end.
Definition newlines (l : list Z) : Z := Z.of_nat (length (filter (λ c, c = 10) l)).

Definition wc_report (l name : list Z) : list Z :=
  [IDec (newlines l); ILit 32; IDec (word_starts true l); ILit 32; IDec (Z.of_nat (length l)); ILit 32;
   str name; NL] ≫= item_bytes.

(** The arguments with a space between them and a newline at the end. *)
Fixpoint echo_line (args : list (list Z)) : list Z :=
  match args with
  | [] => []
  | [a] => a ++ [10]
  | a :: args' => a ++ [32] ++ echo_line args'
  end.

(** The calls of a program that stops at the first file for which a call fails, after [log]. *)
Fixpoint called (ev : env) (call : list Z → ucall) (paths : list (list Z)) (log : list ucall) : list ucall :=
  match paths with
  | [] => log
  | p :: paths' =>
      let log' := log ++ [call p] in
      if e_ret ev (call p) log <? 0 then log' else called ev call paths' log'
  end.
(** ** Lemmas *)

(** Induction on the bytes that are left. *)
Lemma input_rect (P : input → Prop) :
  (∀ i, (∀ i', (length (concat i') < length (concat i))%nat → P i') → P i) → ∀ i, P i.
Proof.
  intros HP i. remember (length (concat i)) as n eqn:En. revert i En. induction (lt_wf n) as [n _ IH].
  intros i ->. apply HP. intros i' Hi. by eapply IH.
Qed.

Section Progs.
Context {ev : env}.

(** One read. *)
Lemma scall_read fds fd k n w :
  reads fds fd k → scall ev (SRead fd n) fds w =
    Answer (Some (uread n (w_in w !!! k)).1) fds (set_w_in (<[k := (uread n (w_in w !!! k)).2]> (w_in w)) w).
Proof. intros (o & Ho & Hk). cbn. rewrite Ho. cbn. by rewrite Hk. Qed.

Lemma scall_write fds fd k l w :
  writes fds fd k → scall ev (SWrite fd l) fds w = Answer (Z.of_nat (length l)) fds (emit k l w).
Proof. intros (o & Ho & Hk). by apply (eval_write _ _ _ _ _ _ Ho Hk). Qed.

(** [uread] takes bytes from the front. *)
Lemma uread_step n i : 0 < n →
  match uread n i with
  | ([], i') => until_eof i = [] ∧ after_eof i = i'
  | (l, i') => until_eof i = l ++ until_eof i' ∧ after_eof i = after_eof i' ∧
      (length (concat i') < length (concat i))%nat
  end.
Proof.
  clear ev. intros Hn. unfold uread. destruct i as [|[|y c] i]; [done | by rewrite take_nil, drop_nil|].
  destruct (Z.to_nat n) as [|n'] eqn:En; [lia|]. cbn [take drop until_eof after_eof concat].
  pose proof (take_drop n' c) as Ec. revert Ec. generalize (take n' c) (drop n' c). intros a r <-.
  destruct r as [|z r].
  - rewrite app_nil_r. split; [done|]. split; [done|]. rewrite length_app. cbn. lia.
  - cbn [until_eof after_eof concat app]. rewrite <- app_assoc. split; [done|]. split; [done|].
    cbn. rewrite !length_app. cbn. lia.
Qed.

Lemma drain_again k ko l i' w :
  after_eof (w_in w !!! k) = after_eof i' →
  drain k (emit ko l (set_w_in (<[k := i']> (w_in w)) w)) = emit ko l (drain k w).
Proof.
  clear ev. intros E. unfold drain. rewrite emit_in. cbn [set_w_in w_in].
  rewrite lookup_total_insert_eq, <- E, insert_insert_eq. by destruct l.
Qed.

Lemma set_w_in_emit f k l w : set_w_in f (emit k l w) = emit k l (set_w_in f w).
Proof. by destruct l. Qed.

Lemma cat_rule fds fd k ko w :
  reads fds fd k → writes fds 1 ko →
  eval ev (cat fd) fds w [] (Some (tt, fds)) (emit ko (until_eof (w_in w !!! k)) (drain k w)).
Proof.
  intros Hr Hw. remember (w_in w !!! k) as i eqn:Ei. revert w Ei.
  induction i as [i IH] using input_rect.
  intros w Ei. pose proof (uread_step 512 i ltac:(lia)) as Hu.
  destruct (uread 512 i) as [l i'] eqn:Eu. destruct l as [|c l].
  - destruct Hu as [-> Ha]. cbn [emit]. apply (eval_iter _ _ _ _ [] (inr tt) fds (drain k w) []); [|apply eval_mret].
    eapply eval_sys; [done | by apply (scall_read _ _ _ _ _ Hr)|]. rewrite <- Ei, Eu. cbn [fst snd].
    unfold drain. rewrite <- Ei, Ha. apply eval_mret.
  - destruct Hu as (Hb & Ha & Hlt). set (w1 := emit ko (c :: l) (set_w_in (<[k := i']> (w_in w)) w)).
    apply (eval_iter _ _ _ _ [] (inl tt) fds w1 []).
    + eapply eval_sys; [done | by apply (scall_read _ _ _ _ _ Hr)|]. rewrite <- Ei, Eu. cbn [fst snd].
      eapply eval_sys; [done | by apply (scall_write _ _ _ _ _ Hw) | apply eval_mret].
    + rewrite Hb, <- emit_emit, <- (drain_again k ko (c :: l) i' w) by by rewrite <- Ei.
      apply (IH i' Hlt w1). unfold w1. rewrite emit_in. symmetry. apply lookup_total_insert_eq.
Qed.

(** Opening a file to read it, and closing it. *)
Lemma scall_open fds path data w :
  e_open ev path 0 = Some (TFile data) → None ∈ fds →
  ∃ fd fds', scall ev (SOpen path 0) fds w = Answer fd fds' (add_file path data w) ∧ 0 ≤ fd ∧
    reads fds' fd (w_next w) ∧ (∀ fd2 k, writes fds fd2 k → writes fds' fd2 k) ∧
    ∀ w', scall ev (SClose fd) fds' w' = Answer 0 fds w'.
Proof.
  intros Ho Hn. destruct (ufd_alloc_some fds (file_obj (w_next w) 0) Hn) as [[fd fds'] Ha].
  destruct (ufd_alloc_spec _ _ _ _ Ha) as (Hfd & Hg & Hc & Hk). exists fd, fds'. split_and!.
  - cbn [scall]. rewrite Ho. cbn [opened]. by rewrite Ha.
  - done.
  - by exists (file_obj (w_next w) 0).
  - intros fd2 k (o & Hg2 & Hd). exists o. auto.
  - intros w'. cbn. by rewrite Hg, Hc.
Qed.

Lemma cat_file_rule fds path data ko w :
  e_open ev path 0 = Some (TFile data) → None ∈ fds → writes fds 1 ko →
  eval ev (cat_file path) fds w [] (Some (tt, fds))
    (emit ko (until_eof data) (drain (w_next w) (add_file path data w))).
Proof.
  intros Ho Hn Hw. destruct (scall_open fds path data w Ho Hn) as (fd & fds' & E & Hfd & Hr & Hw' & Hc).
  eapply eval_sys; [done | exact E|]. destruct (Z.ltb_spec fd 0); [lia|].
  pose proof (cat_rule fds' fd (w_next w) ko (add_file path data w) Hr (Hw' _ _ Hw)) as H1.
  cbn [add_file w_in] in H1. rewrite lookup_total_insert_eq in H1.
  eapply eval_bind_nil; [exact H1|]. eapply eval_sys; [done | apply Hc | apply eval_mret].
Qed.

Lemma cat_files_rule fds paths contents ko w :
  Forall2 (λ p c, ∃ data, e_open ev p 0 = Some (TFile data) ∧ until_eof data = c) paths contents →
  None ∈ fds → writes fds 1 ko →
  ∃ w', eval ev (each paths cat_file) fds w [] (Some (tt, fds)) w' ∧
    w_out w' !!! ko = w_out w !!! ko ++ concat contents.
Proof.
  intros HF Hn Hw. revert w. induction HF as [|p c paths contents (data & Ho & <-) HF IH]; intros w.
  - exists w. split; [apply eval_mret | by rewrite app_nil_r].
  - set (w1 := emit ko (until_eof data) (drain (w_next w) (add_file p data w))).
    destruct (IH w1) as (w' & H & E). exists w'. split.
    + cbn [each]. eapply eval_bind_nil; [by apply cat_file_rule | exact H].
    + rewrite E. unfold w1. rewrite emit_out. cbn [drain set_w_in add_file w_out concat]. by rewrite app_assoc.
Qed.

(** Counting, read by read. *)
Lemma wc_fold n l : let n' := foldl wc_byte n l in
  wc_l n' = wc_l n + newlines l ∧ wc_w n' = wc_w n + word_starts (negb (wc_inword n)) l ∧
  wc_c n' = wc_c n + Z.of_nat (length l).
Proof.
  clear ev. revert n. induction l as [|b l IH]; intros n; [unfold newlines; cbn; lia|].
  cbn [foldl]. destruct (IH (wc_byte n b)) as (-> & -> & ->). unfold newlines. rewrite filter_cons.
  cbn [word_starts length]. rewrite Nat2Z.inj_succ.
  assert (Hl : wc_l (wc_byte n b) = wc_l n + if b =? 10 then 1 else 0).
  { unfold wc_byte. destruct (b =? 10), (wc_space b), (wc_inword n); cbn; lia. }
  assert (Hc : wc_c (wc_byte n b) = wc_c n + 1).
  { unfold wc_byte. destruct (wc_space b), (wc_inword n); cbn; lia. }
  assert (Hw : wc_w (wc_byte n b) = wc_w n + if negb (wc_inword n) && negb (wc_space b) then 1 else 0).
  { unfold wc_byte. destruct (wc_space b), (wc_inword n); cbn; lia. }
  assert (Hi : wc_inword (wc_byte n b) = negb (wc_space b)).
  { unfold wc_byte. destruct (wc_space b); [done|]. by destruct (wc_inword n) eqn:E; cbn; rewrite ?E. }
  rewrite Hl, Hc, Hw, Hi, negb_involutive. destruct (Z.eqb_spec b 10), (decide (b = 10)); try done; cbn [length]; lia.
Qed.

Lemma wc_loop_rule fds fd k w n i :
  reads fds fd k → w_in w !!! k = i →
  eval ev (wc_loop fd n) fds w [] (Some (foldl wc_byte n (until_eof i), fds)) (drain k w).
Proof.
  intros Hr. revert n w. induction i as [i IH] using input_rect. intros n w Ei.
  pose proof (uread_step 512 i ltac:(lia)) as Hu. destruct (uread 512 i) as [l i'] eqn:Eu. destruct l as [|c l].
  - destruct Hu as [-> Ha]. apply (eval_iter _ _ _ _ [] (inr n) fds (drain k w) []); [|apply eval_mret].
    eapply eval_sys; [done | by apply (scall_read _ _ _ _ _ Hr)|]. rewrite Ei, Eu. cbn [fst snd].
    unfold drain. rewrite Ei, Ha. apply eval_mret.
  - destruct Hu as (Hb & Ha & Hlt). set (w1 := set_w_in (<[k := i']> (w_in w)) w).
    apply (eval_iter _ _ _ _ [] (inl (foldl wc_byte n (c :: l))) fds w1 []).
    + eapply eval_sys; [done | by apply (scall_read _ _ _ _ _ Hr)|]. rewrite Ei, Eu. cbn [fst snd]. apply eval_mret.
    + assert (Ed : drain k w1 = drain k w) by exact (drain_again k k [] i' w ltac:(by rewrite Ei)).
      rewrite Hb, foldl_app, <- Ed.
      apply (IH i' Hlt). apply lookup_total_insert_eq.
Qed.

Lemma wc_rule fds fd k ko w name :
  reads fds fd k → writes fds 1 ko →
  eval ev (wc fd name) fds w [] (Some (tt, fds))
    (emit ko (wc_report (until_eof (w_in w !!! k)) name) (drain k w)).
Proof.
  intros Hr (o & Ho & Hd). eapply eval_bind_nil; [by eapply wc_loop_rule|].
  destruct (wc_fold (mkCounts 0 0 0 false) (until_eof (w_in w !!! k))) as (-> & -> & ->).
  by eapply eval_uprintf.
Qed.


Lemma until_fails_rule call c pre post paths fds k w :
  writes fds 2 k → (∀ p fds w, scall ev (call p) fds w = logged ev (c p) fds w) →
  (∀ p, is_fork (call p) = false) →
  ∃ w', eval ev (until_fails call pre post paths) fds w [] (Some (tt, fds)) w' ∧
    w_log w' = called ev c paths (w_log w).
Proof.
  intros (o & Ho & Hd) Hc Hf. revert w. induction paths as [|p paths IH]; intros w.
  - exists w. split; [apply eval_mret | done].
  - cbn [until_fails called]. destruct (e_ret ev (c p) (w_log w) <? 0) eqn:E.
    + eexists. split; [eapply eval_sys; [apply Hf | apply Hc |]; rewrite E; by eapply eval_uprintf|].
      by destruct (_ ≫= _).
    + destruct (IH (add_log (c p) w)) as (w' & H & El). exists w'.
      split; [|exact El]. eapply eval_sys; [apply Hf | apply Hc |]. by rewrite E.
Qed.

Lemma echo_rule args fds k w :
  writes fds 1 k → eval ev (echo_args args) fds w [] (Some (tt, fds)) (emit k (echo_line args) w).
Proof.
  intros (o & Ho & Hd). revert w. induction args as [|a args IH]; intros w; [apply eval_mret|].
  cbn [echo_args]. eapply eval_bind_nil; [by eapply eval_uprintf|].
  replace (emit k (echo_line (a :: args)) w) with
    (emit k (echo_line args) (emit k (a ++ match args with [] => [10] | _ => [32] end) w)).
  - cbn. rewrite app_nil_r. apply IH.
  - rewrite emit_emit. destruct args; cbn; by rewrite <- ?app_assoc, ?app_nil_r.
Qed.
End Progs.

(** ** Theorems *)

(** [cat] with file names as arguments writes the contents of the files one after the other
    to its standard output, and exits with the descriptors it was started with. *)
Theorem cat_correct ev name p paths contents fds ko w :
  Forall2 (λ p c, ∃ data, e_open ev p 0 = Some (TFile data) ∧ until_eof data = c) (p :: paths) contents →
  None ∈ fds → writes fds 1 ko →
  ∃ n w', (∀ fuel, (n ≤ fuel)%nat →
      run ev fuel (cat_main (name :: p :: paths)) fds w = Ok ([(Exited, fds)], None, w')) ∧
    w_out w' !!! ko = w_out w !!! ko ++ concat contents.
Proof.
  intros HF Hn Hw. destruct (cat_files_rule fds (p :: paths) contents ko w HF Hn Hw) as (w' & H & E).
  destruct (eval_run (ev := ev) (cat_main (name :: p :: paths)) fds w [(Exited, fds)] None w') as [n Hr].
  { unfold cat_main. eapply eval_bind_nil; [exact H | apply eval_exit]. }
  by exists n, w'.
Qed.

(** [wc] without arguments reports on its standard input up to the end of the file: the
    number of newlines, of words separated by white space, and of bytes. *)
Theorem wc_correct ev name fds k ko w :
  reads fds 0 k → writes fds 1 ko →
  ∃ n w', (∀ fuel, (n ≤ fuel)%nat → run ev fuel (wc_main [name]) fds w = Ok ([(Exited, fds)], None, w')) ∧
    w_out w' !!! ko = w_out w !!! ko ++ wc_report (until_eof (w_in w !!! k)) [].
Proof.
  intros Hr Hw. set (w' := emit ko (wc_report (until_eof (w_in w !!! k)) []) (drain k w)).
  destruct (eval_run (ev := ev) (wc_main [name]) fds w [(Exited, fds)] None w') as [n Hn].
  { unfold wc_main. eapply eval_bind_nil; [by apply wc_rule | apply eval_exit]. }
  exists n, w'. split; [exact Hn|]. unfold w'. by rewrite emit_out.
Qed.

(** [rm] asks the kernel to remove the files in the order of its arguments, and stops at the
    first that cannot be removed; [mkdir] does the same for directories. *)
Theorem rm_mkdir_correct ev name p paths fds k w :
  writes fds 2 k →
  ∃ n w1 w2, (∀ fuel, (n ≤ fuel)%nat →
      run ev fuel (rm_main (name :: p :: paths)) fds w = Ok ([(Exited, fds)], None, w1) ∧
      run ev fuel (mkdir_main (name :: p :: paths)) fds w = Ok ([(Exited, fds)], None, w2)) ∧
    w_log w1 = called ev CUnlink (p :: paths) (w_log w) ∧
    w_log w2 = called ev CMkdir (p :: paths) (w_log w).
Proof.
  intros Hw.
  destruct (until_fails_rule (ev := ev) SUnlink CUnlink "rm: " " failed to delete" (p :: paths) fds k w Hw) as (w1 & H1 & E1); [done..|].
  destruct (until_fails_rule (ev := ev) SMkdir CMkdir "mkdir: " " failed to create" (p :: paths) fds k w Hw) as (w2 & H2 & E2); [done..|].
  destruct (eval_run (ev := ev) (rm_main (name :: p :: paths)) fds w [(Exited, fds)] None w1) as [n1 R1].
  { unfold rm_main. eapply eval_bind_nil; [exact H1 | apply eval_exit]. }
  destruct (eval_run (ev := ev) (mkdir_main (name :: p :: paths)) fds w [(Exited, fds)] None w2) as [n2 R2].
  { unfold mkdir_main. eapply eval_bind_nil; [exact H2 | apply eval_exit]. }
  exists (n1 + n2)%nat, w1, w2. split; [|done]. intros fuel Hf. split; [apply R1 | apply R2]; lia.
Qed.

(** [echo] prints its arguments with a space between them and a newline after the last. *)
Theorem echo_correct ev argv fds k w :
  writes fds 1 k →
  ∃ n, ∀ fuel, (n ≤ fuel)%nat →
    run ev fuel (echo_main argv) fds w = Ok ([(Exited, fds)], None, emit k (echo_line (tail argv)) w).
Proof.
  intros Hw. apply eval_run. unfold echo_main. eapply eval_bind_nil; [by apply echo_rule | apply eval_exit].
Qed.

(** *** Examples *)

(** A process with its standard descriptors on the streams 0 and 1, and two files. *)
Definition small_env : env :=
  mkEnv (λ p _, if bool_decide (p = [102]) then Some (TFile [[104; 105]; [10]])
                else if bool_decide (p = [103]) then Some (TFile [[33]]) else None)
        (λ _, false) (λ _, true) (λ _ _, 0) (λ _ _, None) None (λ _, (0, [])).
Definition small_fds : fdtable :=
  [Some (mkObj (Some 0%nat) None); Some (mkObj None (Some 1%nat)); Some (mkObj None (Some 1%nat)); None].
Definition small_world : world := mkWorld {[0%nat := [[97; 32; 98; 98]; [10; 99]]]} ∅ ∅ 2 [].

Lemma cat_correct_witness :
  ∃ n w', run small_env n (cat_main [[99]; [102]; [103]]) small_fds small_world = Ok ([(Exited, small_fds)], None, w') ∧
    w_out w' !!! 1%nat = [] ++ [104; 105; 10; 33].
Proof.
  destruct (cat_correct small_env [99] [102] [[103]] [[104; 105; 10]; [33]] small_fds 1 small_world) as (n & w' & Hn & E).
  - repeat constructor; eexists; split; reflexivity.
  - apply list_elem_of_lookup. by exists 3%nat.
  - eexists. split; reflexivity.
  - exists n, w'. split; [apply Hn; lia | exact E].
Defined.

Lemma wc_correct_witness :
  ∃ n w', run small_env n (wc_main [[119]]) small_fds small_world = Ok ([(Exited, small_fds)], None, w') ∧
    w_out w' !!! 1%nat = [] ++ bytes_of "1 3 6 " ++ [10].
Proof.
  destruct (wc_correct small_env [119] small_fds 0 1 small_world) as (n & w' & Hn & E).
  - eexists. split; reflexivity.
  - eexists. split; reflexivity.
  - exists n, w'. split; [apply Hn; lia | rewrite E; vm_compute; reflexivity].
Defined.
