(* ===== verification/GrepMain.v ===== *)
(** * grep as a program

    Models [grep] of src/grep.c with its calls of [read] and [write] and [main], as
    interaction trees on top of the matcher ([Grep]).  The global array [buf] lies at [buf_at]
    and keeps its contents from one file to the next; the argument with the pattern lies at
    [pattern_at].  The loops take the fuel of [Grep], without which they spin.

    [grep_lines] and [grep_loop] of [Grep] say what is printed; the rules of this file connect
    them to the calls. *)

From ITree Require Import Core.ITreeDefinition.
From S2P Require Import Prelude Param KString Digits Ulib Printf Cmos ProcCommon Grep User Programs.
Local Open Scope Z_scope.

(** ** Definitions *)

Definition settled {A B : Type} (o : outcome A) (k : A → prog B) : prog B :=
  match o with Ok a => k a | _ => ITree.spin end.

Section Program.
Variable buf_at : Z.

(** The loop over the lines in [buf]: memory and the final [p]. *)
Fixpoint print_lines (fuel : nat) (m : mem) (pattern p : Z) : prog (mem * Z) :=
  match fuel with
  | O => ITree.spin
  | S fuel' =>
      settled (strchr fuel m p 10) (λ q,
        if q =? 0 then mret (m, p)
        else
          let m := mupd m q 0 in
          settled (match_ fuel m pattern p) (λ b,
            if (b : bool) then
              let m := mupd m q 10 in
              sys (SWrite 1 (mread m p (Z.to_nat (q + 1 - p))));;
              print_lines fuel' m pattern (q + 1)
            else print_lines fuel' m pattern (q + 1)))
  end.

Fixpoint print_matches (fuel : nat) (m : mem) (pattern k fd : Z) : prog mem :=
  match fuel with
  | O => ITree.spin
  | S fuel' =>
      r ← sys (SRead fd (SIZEOF_buf - k - 1));
      match r with
      | Some ((_ :: _) as bytes) =>
          let m := put_bytes m (buf_at + k) bytes in
          let k := k + Z.of_nat (length bytes) in
          let m := mupd m (buf_at + k) 0 in
          '(m, p) ← print_lines fuel m pattern buf_at;
          let k := if p =? buf_at then 0 else k in
          let '(m, k) :=
            if k >? 0 then
              let k := k - (p - buf_at) in (umemmove m buf_at p k, k)
            else (m, k) in
          print_matches fuel' m pattern k fd
      | _ => mret m
      end
  end.

Variable pattern_at : Z.
Variable fuel : nat.

(** [grep(pattern, fd)]. *)
Definition grep_fd (m : mem) (fd : Z) : prog mem := print_matches fuel m pattern_at 0 fd.

Fixpoint grep_files (m : mem) (paths : list (list Z)) : prog unit :=
  match paths with
  | [] => mret tt
  | p :: paths' =>
      fd ← sys (SOpen p 0);
      if fd <? 0 then uprintf 1 (lit "grep: cannot open " ++ [str p; NL]);; exit
      else
        m ← grep_fd m fd;
        sys (SClose fd);;
        grep_files m paths'
  end.

(** The memory at the start holds the pattern. *)
Definition grep_main (argv : list (list Z)) : prog Empty_set :=
  match argv with
  | _ :: r :: paths =>
      let m := put_bytes (λ _, 0) pattern_at r in
      match paths with
      | [] => grep_fd m 0;; exit
      | _ => grep_files m paths;; exit
      end
  | _ => uprintf 2 (lit "usage: grep pattern [file ...]" ++ [NL]);; exit
  end.
End Program.

(** *** What it should print *)

(** A file of complete lines and an incomplete last one, none longer than the buffer. *)
Record lines := mkLines { l_lines : list (list Z); l_last : list Z }.
Definition text_of (f : lines) : list Z := unlines (l_lines f) ++ l_last f.
Definition lines_ok (f : lines) : Prop :=
  Forall (λ l, 10 ∉ l) (l_lines f) ∧ Forall (λ l, Z.of_nat (length l) + 2 ≤ SIZEOF_buf) (l_lines f) ∧
  (10 ∉ l_last f) ∧ Z.of_nat (length (l_last f)) + 2 ≤ SIZEOF_buf ∧ Forall (λ c, c ≠ 0) (text_of f).

(** ** Lemmas *)

Section Rules.
Context {ev : env}.
Variable buf_at : Z.

Lemma print_lines_rule fuel m pattern p m' p' out fds ko w :
  grep_lines fuel m pattern p = Ok (m', p', out) → writes fds 1 ko →
  eval ev (print_lines fuel m pattern p) fds w [] (Some ((m', p'), fds)) (emit ko out w).
Proof.
  intros E Hw. revert m p out w E. induction fuel as [|fuel IH]; intros m p out w E; [done|].
  cbn [grep_lines print_lines] in *. destruct (strchr (S fuel) m p 10) as [q| | |]; try done.
  cbn [mbind outcome_bind obind settled] in *. destruct (q =? 0).
  { injection E as <- <- <-. apply eval_mret. }
  destruct (match_ (S fuel) (mupd m q 0) pattern p) as [b| | |]; try done.
  cbn [mbind outcome_bind obind settled] in *. destruct b.
  - destruct (grep_lines fuel (mupd (mupd m q 0) q 10) pattern (q + 1)) as [[[m1 p1] out1]| | |] eqn:El; try done.
    injection E as -> -> <-. eapply eval_sys; [done | by apply scall_write|]. rewrite <- emit_emit. by apply IH.
  - destruct (grep_lines fuel (mupd m q 0) pattern (q + 1)) as [[[m1 p1] out1]| | |] eqn:El; try done.
    injection E as -> -> <-. by apply IH.
Qed.

Lemma print_matches_rule fuel m pattern k fd i m' out fds ko w :
  grep_loop buf_at fuel m pattern k (w_in w !!! i) = Ok (m', out) → reads fds fd i → writes fds 1 ko →
  ∃ w', eval ev (print_matches buf_at fuel m pattern k fd) fds w [] (Some (m', fds)) w' ∧
    w_out w' !!! ko = w_out w !!! ko ++ out.
Proof.
  intros E Hr Hw. revert m k out w E. induction fuel as [|fuel IH]; intros m k out w E; [done|].
  cbn [grep_loop print_matches] in *. destruct (uread (SIZEOF_buf - k - 1) (w_in w !!! i)) as [bytes inp] eqn:Eu.
  set (w1 := set_w_in (<[i := inp]> (w_in w)) w).
  assert (Es : scall ev (SRead fd (SIZEOF_buf - k - 1)) fds w = Answer (Some bytes) fds w1).
  { by rewrite (scall_read _ _ i), Eu. }
  destruct bytes as [|c bytes].
  { injection E as <- <-. exists w1. split; [|by rewrite app_nil_r]. eapply eval_sys; [done | exact Es | apply eval_mret]. }
  change (Z.of_nat (length (c :: bytes)) >? 0) with true in E. cbv iota zeta in E.
  destruct (grep_lines _ _ _ _) as [[[m2 p] out1]| | |] eqn:El; try done. cbn [mbind outcome_bind obind] in E.
  destruct (if (if p =? buf_at then 0 else _) >? 0 then _ else _) as [m3 k3] eqn:Em.
  destruct (grep_loop buf_at fuel m3 pattern k3 inp) as [[m4 rest]| | |] eqn:Eg; try done.
  injection E as -> <-. set (w2 := emit ko out1 w1).
  assert (Ei : (w_in w2 !!! i : input) = inp) by (unfold w2; rewrite emit_in; apply lookup_total_insert_eq).
  rewrite <- Ei in Eg. destruct (IH _ _ _ _ Eg) as (w' & H & Eo). exists w'. split.
  - eapply eval_sys; [done | exact Es|]. cbv iota zeta. eapply eval_bind_nil; [by apply print_lines_rule|].
    cbv iota beta. rewrite Em. exact H.
  - rewrite Eo. unfold w2. rewrite emit_out, <- app_assoc. done.
Qed.

Context (pattern_at : Z) (r : list Z) (fuel : nat).
Hypothesis Hb : 0 < buf_at.
Hypothesis Ha : apart buf_at pattern_at r.

(** One file, or standard input. *)
Lemma grep_fd_rule m f fd i fds ko w :
  cstr m pattern_at r → lines_ok f → (w_in w !!! i : input) = file_input (text_of f) →
  (length r + length (text_of f) + 1024 < fuel)%nat → reads fds fd i → writes fds 1 ko →
  ∃ m' out w', eval ev (grep_fd buf_at pattern_at fuel m fd) fds w [] (Some (m', fds)) w' ∧
    selects r (l_lines f) out ∧ cstr m' pattern_at r ∧ w_out w' !!! ko = w_out w !!! ko ++ out.
Proof using Ha Hb.
  intros Hm (H1 & H2 & H3 & H4 & H5) Hi Hf Hr Hw.
  destruct (grep_loop_spec buf_at pattern_at r Hb Ha fuel m [] (text_of f) (l_lines f) (l_last f))
    as (m' & out & E & Hs & Hm'); try done; [apply not_elem_of_nil|].
  rewrite <- Hi in E. destruct (print_matches_rule fuel m pattern_at 0 fd i m' out fds ko w E Hr Hw) as (w' & H & Eo).
  by exists m', out, w'.
Qed.

(** All the files. *)
Lemma grep_files_rule m paths fs fds ko w :
  cstr m pattern_at r → None ∈ fds → writes fds 1 ko →
  Forall2 (λ p f, e_open ev p 0 = Some (TFile (file_input (text_of f))) ∧ lines_ok f ∧
    (length r + length (text_of f) + 1024 < fuel)%nat) paths fs →
  ∃ outs w', eval ev (grep_files buf_at pattern_at fuel m paths) fds w [] (Some (tt, fds)) w' ∧
    Forall2 (λ f out, selects r (l_lines f) out) fs outs ∧ w_out w' !!! ko = w_out w !!! ko ++ concat outs.
Proof using Ha Hb.
  intros Hm Hn Hw HF. revert m w Hm. induction HF as [|p f paths fs (Ho & Hf & Hl) HF IH]; intros m w Hm.
  - exists [], w. split_and!; [apply eval_mret | constructor | by rewrite app_nil_r].
  - destruct (scall_open (ev := ev) fds p _ w Ho Hn) as (fd & fds' & E & Hfd & Hr & Hw' & Hc).
    set (w1 := add_file p (file_input (text_of f)) w) in *.
    assert (Hi : (w_in w1 !!! w_next w : input) = file_input (text_of f)) by apply lookup_total_insert_eq.
    destruct (grep_fd_rule m f fd (w_next w) fds' ko w1 Hm Hf Hi Hl Hr (Hw' _ _ Hw)) as (m' & out & w2 & H & Hs & Hm' & Eo).
    destruct (IH m' w2 Hm') as (outs & w' & H' & Hss & Eo'). exists (out :: outs), w'. split_and!.
    + cbn [grep_files]. eapply eval_sys; [done | exact E|]. destruct (Z.ltb_spec fd 0); [lia|].
      eapply eval_bind_nil; [exact H|]. eapply eval_sys; [done | apply Hc | exact H'].
    + by constructor.
    + rewrite Eo', Eo. cbn [concat]. by rewrite app_assoc.
Qed.
End Rules.

(** ** Theorems *)

(** C36: for files without NUL bytes whose lines, the incomplete last one included, have at most
    1022 bytes, [grep] with a pattern and files as arguments prints the complete lines of the
    files that match the pattern, file by file and line by line, and exits with the
    descriptors it was started with; lines that cross the end of its buffer are put together
    again.  The buffer has 1024 bytes, and longer lines are lost. *)
Theorem grep_main_correct ev buf_at pattern_at fuel name r p paths fs fds ko w :
  0 < buf_at → apart buf_at pattern_at r → Forall (λ c, c ≠ 0) r → None ∈ fds → writes fds 1 ko →
  Forall2 (λ p f, e_open ev p 0 = Some (TFile (file_input (text_of f))) ∧ lines_ok f ∧
    (length r + length (text_of f) + 1024 < fuel)%nat) (p :: paths) fs →
  ∃ n outs w', (∀ steps, (n ≤ steps)%nat →
      run ev steps (grep_main buf_at pattern_at fuel (name :: r :: p :: paths)) fds w = Ok ([(Exited, fds)], None, w')) ∧
    Forall2 (λ f out, selects r (l_lines f) out) fs outs ∧ w_out w' !!! ko = w_out w !!! ko ++ concat outs.
Proof.
  intros Hb Ha Hr Hn Hw HF. assert (Hm : cstr (put_bytes (λ _, 0) pattern_at r) pattern_at r).
  { apply cstr_mread. split_and!; [apply mread_put_bytes | | done]. rewrite put_bytes_spec. by bool_cases. }
  destruct (grep_files_rule (ev := ev) buf_at pattern_at r fuel Hb Ha _ (p :: paths) fs fds ko w Hm Hn Hw HF)
    as (outs & w' & H & Hs & Eo).
  destruct (eval_run (ev := ev) (grep_main buf_at pattern_at fuel (name :: r :: p :: paths)) fds w [(Exited, fds)] None w') as [n Hx].
  { cbn [grep_main]. eapply eval_bind_nil; [exact H | apply eval_exit]. }
  by exists n, outs, w'.
Qed.

(** *** An example *)

(** Two files, with the lines [ac], [b], [abc] and an incomplete line [a], and with [xc]. *)
Definition two_files : list lines := [mkLines [[97; 99]; [98]; [97; 98; 99]] [97]; mkLines [[120; 99]] []].

Definition grep_env : env :=
  mkEnv (λ p _, if bool_decide (p = [102]) then Some (TFile [[97; 99; 10; 98; 10; 97; 98; 99; 10; 97]])
                else if bool_decide (p = [103]) then Some (TFile [[120; 99; 10]]) else None)
        (λ _, false) (λ _, true) (λ _ _, 0) (λ _ _, None) None (λ _, (0, [])).

Lemma grep_main_correct_witness :
  ∃ n outs w', run grep_env n (grep_main 1000 100 1100 [[103]; [99; 36]; [102]; [103]]) small_fds small_world =
      Ok ([(Exited, small_fds)], None, w') ∧
    Forall2 (λ f out, selects [99; 36] (l_lines f) out) two_files outs ∧ w_out w' !!! 1%nat = [] ++ concat outs.
Proof.
  destruct (grep_main_correct grep_env 1000 100 1100 [103] [99; 36] [102] [[103]] two_files small_fds 1 small_world)
    as (n & outs & w' & Hn & Hs & E).
  - lia.
  - left. simpl. lia.
  - repeat constructor; discriminate.
  - apply list_elem_of_lookup. by exists 3%nat.
  - eexists. split; reflexivity.
  - repeat constructor; try (unfold SIZEOF_buf; cbn; lia); try discriminate;
      apply (bool_decide_eq_true_1 _); vm_compute; reflexivity.
  - exists n, outs, w'. split_and!; [apply Hn; lia | exact Hs | exact E].
Defined.
