(* ===== verification/Date.v ===== *)
(** * date

    Models src/date.c.  [dayofweek] is a formula with divisions of [int], whose operations
    wrap around at 32 bits; the theorem says that up to the year 2^30 it is the day of the week:
    counted in days of the calendar from the first of January 1970, a Thursday. *)

From S2P Require Import Prelude Param KString Digits Ulib Printf Cmos ProcCommon User Programs.
Local Open Scope Z_scope.

(** ** Definitions *)

Definition months : list string :=
  ["NULL"; "Jan"; "Feb"; "Mar"; "Apr"; "May"; "Jun"; "Jul"; "Aug"; "Sep"; "Oct"; "Nov"; "Dec"]%string.
Definition days : list string := ["Sun"; "Mon"; "Tue"; "Wed"; "Thu"; "Fri"; "Sat"]%string.

(** [(d+=m<3?y--:y-2,23*m/9+d+4+y/4-y/100+y/400)%7] *)
Definition dayofweek (y m d : Z) : Z :=
  let '(d, y) := if m <? 3 then (s32 (d + y), s32 (y - 1)) else (s32 (d + s32 (y - 2)), y) in
  let n := s32 (Z.quot (s32 (23 * m)) 9 + d) in
  let n := s32 (n + 4) in
  let n := s32 (n + Z.quot y 4) in
  let n := s32 (n - Z.quot y 100) in
  Z.rem (s32 (n + Z.quot y 400)) 7.

(** A number of two digits. *)
Definition two (n : Z) : prog unit := if n <? 10 then uprintf 1 (lit "0") else mret tt.

(** What an array of strings holds at an index that is not in range is left open. *)
Definition string_of (wild : Z → string) (l : list string) (i : Z) : string :=
  if i <? 0 then wild i else default (wild i) (l !! Z.to_nat i).

Definition date_main (wild : Z → string) : prog Empty_set :=
  r ← sys SDate;
  match r with
  | None => uprintf 2 (lit "Error: date call failed. " ++ [str (bytes_of "date.c")] ++ lit " at line " ++ [IDec 27; NL]);; exit
  | Some r =>
      let day := dayofweek (s32 (year r)) (s32 (month r)) (s32 (day r)) in
      uprintf 1 ([str (bytes_of (string_of wild days day)); ILit 32;
                  str (bytes_of (string_of wild months (month r))); ILit 32; IDec (Cmos.day r)]);;
      uprintf 1 (lit " ");;
      two (hour r);;
      uprintf 1 [IDec (hour r); ILit 58];;
      two (minute r);;
      uprintf 1 [IDec (minute r); ILit 58];;
      two (second r);;
      uprintf 1 ([IDec (second r)] ++ lit " UTC " ++ [IDec (year r); NL]);;
      exit
  end.

(** *** The calendar *)

Definition leap (y : Z) : bool := (y mod 4 =? 0) && (negb (y mod 100 =? 0) || (y mod 400 =? 0)).

Definition month_length (y m : Z) : Z :=
  if m =? 2 then (if leap y then 29 else 28)
  else if (m =? 4) || (m =? 6) || (m =? 9) || (m =? 11) then 30 else 31.

Definition next_day (x : Z * Z * Z) : Z * Z * Z :=
  let '(y, m, d) := x in
  if d <? month_length y m then (y, m, d + 1)
  else if m <? 12 then (y, m + 1, 1) else (y + 1, 1, 1).

(** The date [n] days after the first of January 1970. *)
Definition date_of (n : nat) : Z * Z * Z := Nat.iter n next_day (1970, 1, 1).

Definition valid_date (x : Z * Z * Z) : Prop :=
  let '(y, m, d) := x in 1970 ≤ y ∧ 1 ≤ m ≤ 12 ∧ 1 ≤ d ≤ month_length y m.

(** Two digits, the first a zero if need be. *)
Definition two_bytes (n : Z) : list Z := (if n <? 10 then [48] else []) ++ item_bytes (IDec n).

(** The line for the [n]-th day. *)
Definition date_line (n : nat) (r : rtcdate) : list Z :=
  bytes_of (default "" (days !! ((4 + n) mod 7)%nat)) ++ [32] ++
  bytes_of (default "" (months !! Z.to_nat (month r))) ++ [32] ++ item_bytes (IDec (day r)) ++ [32] ++
  two_bytes (hour r) ++ [58] ++ two_bytes (minute r) ++ [58] ++ two_bytes (second r) ++
  bytes_of " UTC " ++ item_bytes (IDec (year r)) ++ [10].

(** ** Lemmas *)

Lemma next_day_valid x : valid_date x → valid_date (next_day x).
Proof.
  destruct x as [[y m] d]. intros (Hy & Hm & Hd). unfold next_day.
  destruct (Z.ltb_spec d (month_length y m)); [repeat split; lia|].
  assert (H28 : ∀ y m, 28 ≤ month_length y m).
  { intros y' m'. unfold month_length. repeat case_match; lia. }
  destruct (Z.ltb_spec m 12); repeat split; try lia; pose proof (H28 y (m + 1)); pose proof (H28 (y + 1) 1); lia.
Qed.

Lemma date_of_valid n : valid_date (date_of n).
Proof. induction n as [|n IH]; [by vm_compute|]. apply next_day_valid, IH. Qed.

(** The formula without divisions that round towards zero. *)
Definition weekday (y m d : Z) : Z :=
  let y' := if m <? 3 then y - 1 else y in
  (23 * m / 9 + (if m <? 3 then d + y else d + (y - 2)) + 4 + y' / 4 - y' / 100 + y' / 400) mod 7.

(** Innermost first: sums that fit in an [int]. *)
Ltac no_wrap :=
  repeat match goal with
  | |- context [s32 ?e] => lazymatch e with context [s32 _] => fail | _ => rewrite (s32_small e) by lia end
  end.

Lemma dayofweek_weekday y m d :
  1970 ≤ y < 1073741824 → 1 ≤ m ≤ 12 → 1 ≤ d ≤ 31 → dayofweek y m d = weekday y m d.
Proof.
  intros Hy Hm Hd. unfold dayofweek, weekday. rewrite (s32_small (23 * m)) by lia.
  assert (H9 : 0 ≤ 23 * m / 9 ≤ 31) by zmod_lia. rewrite (Z.quot_div_nonneg (23 * m)) by lia.
  assert (Hq : ∀ z, 1969 ≤ z < 1073741824 → 0 ≤ z / 4 ≤ 268435456 ∧ 0 ≤ z / 100 ≤ z / 4 ∧ 0 ≤ z / 400 ≤ 2684355) by (intros; zmod_lia).
  destruct (m <? 3); cbv zeta.
  - rewrite (s32_small (d + y)), (s32_small (y - 1)) by lia. pose proof (Hq (y - 1) ltac:(lia)).
    rewrite !Z.quot_div_nonneg by lia. no_wrap.
    apply Z.rem_mod_nonneg; lia.
  - rewrite (s32_small (y - 2)), (s32_small (d + (y - 2))) by lia. pose proof (Hq y ltac:(lia)).
    rewrite !Z.quot_div_nonneg by lia. no_wrap.
    apply Z.rem_mod_nonneg; lia.
Qed.

(** The leap days between two years. *)
Lemma leap_days y :
  1970 ≤ y →
  y / 4 - y / 100 + y / 400 - ((y - 1) / 4 - (y - 1) / 100 + (y - 1) / 400) = if leap y then 1 else 0.
Proof.
  intros Hy. unfold leap.
  destruct (Z.eqb_spec (y mod 4) 0), (Z.eqb_spec (y mod 100) 0), (Z.eqb_spec (y mod 400) 0); cbn [andb orb negb]; zmod_lia.
Qed.

(** The weekday advances with the date. *)
Lemma weekday_next y m d :
  valid_date (y, m, d) →
  let '(y', m', d') := next_day (y, m, d) in weekday y' m' d' = (weekday y m d + 1) mod 7.
Proof.
  intros (Hy & Hm & Hd). pose proof (leap_days y Hy) as Hl. unfold next_day.
  destruct (Z.ltb_spec d (month_length y m)) as [Hlt|Hge].
  - unfold weekday. rewrite Zplus_mod_idemp_l. f_equal. destruct (m <? 3); lia.
  - assert (d = month_length y m) as -> by lia. clear Hge Hd. unfold month_length.
    assert (m = 1 ∨ m = 2 ∨ m = 3 ∨ m = 4 ∨ m = 5 ∨ m = 6 ∨ m = 7 ∨ m = 8 ∨ m = 9 ∨ m = 10 ∨ m = 11 ∨ m = 12)
      as [->|[->|[->|[->|[->|[->|[->|[->|[->|[->|[->| ->]]]]]]]]]]] by lia; cbn -[Z.modulo Z.div leap];
      unfold weekday; rewrite Zplus_mod_idemp_l; clear Hm;
      repeat match goal with |- context [?a <? ?b] => destruct (Z.ltb_spec a b); [try (exfalso; lia) | try (exfalso; lia)] end;
      cbv zeta; try replace (y + 1 - 1) with y by lia; destruct (leap y); revert Hl;
      generalize (y / 4) (y / 100) (y / 400) ((y - 1) / 4) ((y - 1) / 100) ((y - 1) / 400); clear -Hy; intros; zmod_lia.
Qed.

Lemma dayofweek_date_of n :
  let '(y, m, d) := date_of n in y < 1073741824 → dayofweek y m d = Z.of_nat ((4 + n) mod 7).
Proof.
  assert (H : let '(y, m, d) := date_of n in weekday y m d = Z.of_nat ((4 + n) mod 7)).
  { induction n as [|n IH]; [by vm_compute|]. change (date_of (S n)) with (next_day (date_of n)).
    pose proof (date_of_valid n) as Hv. destruct (date_of n) as [[y m] d].
    pose proof (weekday_next y m d Hv) as Hw. destruct (next_day (y, m, d)) as [[y' m'] d'].
    rewrite Hw, IH. rewrite !Nat2Z.inj_mod, !Nat2Z.inj_add, Zplus_mod_idemp_l. f_equal. lia. }
  pose proof (date_of_valid n) as Hv. destruct (date_of n) as [[y m] d].
  destruct Hv as (? & ? & ? & Hd). intros Hy. rewrite dayofweek_weekday; [done | done | done |].
  unfold month_length in Hd. repeat case_match; lia.
Qed.

Section Run.
Context {ev : env}.

Lemma two_rule fds k n w :
  writes fds 1 k → eval ev (two n) fds w [] (Some (tt, fds)) (emit k (if n <? 10 then [48] else []) w).
Proof.
  intros (o & Ho & Hk). unfold two. destruct (n <? 10); [by apply (eval_uprintf 1 k o) | apply eval_mret].
Qed.

Lemma date_main_rule wild n r fds k w :
  e_date ev = Some r → date_of n = (year r, month r, day r) → year r < 1073741824 → writes fds 1 k →
  eval ev (date_main wild) fds w [(Exited, fds)] None (emit k (date_line n r) w).
Proof.
  intros Hd Hn Hy Hw. pose proof Hw as (o & Ho & Hk). unfold date_main.
  eapply eval_sys; [done | reflexivity|]. rewrite Hd. cbv zeta iota beta.
  pose proof (dayofweek_date_of n) as Hday. pose proof (date_of_valid n) as Hv. rewrite Hn in Hday, Hv.
  destruct Hv as (Hy0 & Hm & Hdd). assert (day r ≤ 31) by (unfold month_length in Hdd; repeat case_match; lia).
  rewrite !s32_small, Hday by lia. unfold string_of.
  destruct (Z.ltb_spec (Z.of_nat ((4 + n) mod 7)) 0); [lia|]. destruct (Z.ltb_spec (month r) 0); [lia|]. rewrite Nat2Z.id.
  assert (is_Some (days !! ((4 + n) mod 7)%nat)) as [dn Edn].
  { apply lookup_lt_is_Some. pose proof (Nat.mod_upper_bound (4 + n) 7). cbn [days length]. lia. }
  assert (is_Some (months !! Z.to_nat (month r))) as [mn Emn].
  { apply lookup_lt_is_Some. cbn [months length]. lia. }
  unfold date_line. rewrite Edn, Emn. cbn [default from_option].
  do 2 (eapply eval_bind_nil; [by apply (eval_uprintf 1 k o)|]).
  do 3 (eapply eval_bind_nil; [by apply two_rule|]; eapply eval_bind_nil; [by apply (eval_uprintf 1 k o)|]).
  match goal with |- eval _ _ _ ?x _ _ ?y => replace y with x; [apply eval_exit|] end.
  rewrite !emit_emit. f_equal. unfold two_bytes. rewrite ?bind_app, !lit_bytes.
  cbn [mbind list_bind app item_bytes str]. rewrite <- ?app_assoc, ?app_nil_r. cbn [app]. do 2 f_equal.
  repeat (rewrite <- ?app_assoc, ?app_nil_r; cbn [app]; f_equal).
Qed.
End Run.

(** ** Theorems *)

(** C40: [date] prints the date the kernel gives it with the right day of the week: for the date
    [n] days after the first of January 1970 by the Gregorian calendar, up to the year 2^30,
    within which the [int] arithmetic of [dayofweek] does not overflow, [dayofweek] is the
    day of the week [n] days after a Thursday, and the program prints the line with that day,
    the month, and the time with two digits for each part. *)
Theorem date_correct ev wild n r fds k w :
  e_date ev = Some r → date_of n = (year r, month r, day r) → year r < 1073741824 → writes fds 1 k →
  dayofweek (year r) (month r) (day r) = (4 + Z.of_nat n) mod 7 ∧
  ∃ f, ∀ fuel, (f ≤ fuel)%nat →
    run ev fuel (date_main wild) fds w = Ok ([(Exited, fds)], None, emit k (date_line n r) w).
Proof.
  intros Hd Hn Hy Hw. split.
  - pose proof (dayofweek_date_of n) as H. rewrite Hn in H. rewrite H, Nat2Z.inj_mod, Nat2Z.inj_add by done. done.
  - by apply eval_run, date_main_rule.
Qed.

(** The day 789, the 29th of February 1972. *)
Lemma date_correct_witness :
  let r := mkDate 7 5 9 29 2 1972 in
  let ev := mkEnv (λ _ _, None) (λ _, false) (λ _, true) (λ _ _, 0) (λ _ _, None) (Some r) (λ _, (0, [])) in
  let fds := [None; Some (mkObj None (Some 3%nat)); None] in
  let w := mkWorld ∅ ∅ ∅ 4 [] in
  date_line 789 r = bytes_of "Tue Feb 29 09:05:07 UTC 1972" ++ [10] ∧
  ∃ f, run ev f (date_main (λ _, "")) fds w = Ok ([(Exited, fds)], None, emit 3 (date_line 789 r) w).
Proof.
  intros r ev fds w. split; [vm_compute; reflexivity|].
  destruct (date_correct ev (λ _, ""%string) 789 r fds 3 w) as (_ & f & Hf).
  - reflexivity.
  - vm_compute. reflexivity.
  - reflexivity.
  - eexists. split; reflexivity.
  - exists f. apply Hf. lia.
Defined.
