(* ===== verification/ShBuiltin.v ===== *)
(** * The commands built into the shell

    Models [strncmp], [makeint], [setbuiltin], [getbuiltin] and [dobuiltin] of src/sh.c,
    which the default project of src/Makefile compiles in.  A [char *] is the string it
    points to, up to its NUL; moving the pointer forward drops bytes.

    [builtin] is what a line that starts with an underscore can ask for, [builtin_text] how it
    is written, with any number of blanks, and [builtin_done] what comes of it: the user or
    group id is set or shown, or the line is complained about or ignored. *)

From ITree Require Import Core.ITreeDefinition.
From S2P Require Import Prelude Param KString Digits Ulib Printf Cmos ProcCommon User Programs.
Local Open Scope Z_scope.

(** ** Definitions *)

(** Bytes are unsigned here, so that the casts to [uchar] change nothing. *)
Fixpoint sh_strncmp (p q : list Z) (n : nat) : Z :=
  match n with
  | O => 0
  | S n' =>
      let a := hd 0 p in
      let b := hd 0 q in
      if negb (a =? 0) && (a =? b) then sh_strncmp (tail p) (tail q) n' else a - b
  end.

Fixpoint makeint_loop (val : Z) (p : list Z) : Z :=
  match p with
  | c :: p' => if (c >=? 48) && (c <=? 57) then makeint_loop (s32 (10 * val + (c - 48))) p' else val
  | [] => val
  end.
Definition makeint (p : list Z) : Z := makeint_loop 0 p.

(** [while (strncmp(p, " ", 1) == 0) p++;] *)
Fixpoint chomp (p : list Z) : list Z :=
  if sh_strncmp p (bytes_of " ") 1 =? 0 then match p with _ :: p' => chomp p' | [] => [] end else p.

Definition setbuiltin (p : list Z) : prog Z :=
  let p := chomp (drop (length (bytes_of "_set")) p) in
  if sh_strncmp (bytes_of "uid") p 3 =? 0 then
    let p := chomp (drop (length (bytes_of "uid")) p) in
    sys (SSetuid (makeint p))
  else if sh_strncmp (bytes_of "gid") p 3 =? 0 then
    let p := chomp (drop (length (bytes_of "gid")) p) in
    sys (SSetgid (makeint p))
  else uprintf 2 (lit "Invalid _set parameter" ++ [NL]);; mret (-1).

Definition getbuiltin (p : list Z) : prog Z :=
  let p := chomp (drop (length (bytes_of "_get")) p) in
  if sh_strncmp (bytes_of "uid") p 3 =? 0 then
    id ← sys SGetuid; uprintf 2 [IDec id; NL];; mret 0
  else if sh_strncmp (bytes_of "gid") p 3 =? 0 then
    id ← sys SGetgid; uprintf 2 [IDec id; NL];; mret 0
  else uprintf 2 (lit "Invalid _get parameter" ++ [NL]);; mret (-1).

Definition fdt : list (list Z * (list Z → prog Z)) :=
  [(bytes_of "_set", setbuiltin); (bytes_of "_get", getbuiltin)].

Definition dobuiltin (cmd : list Z) : prog unit :=
  each fdt (fun e => if sh_strncmp cmd e.1 (length e.1) =? 0 then e.2 cmd;; mret tt else mret tt).

(** *** What a line asks for *)

Inductive who := Uid | Gid.
Inductive verb := VSet | VGet.

Inductive builtin :=
| BSet (s1 : nat) (i : who) (s2 : nat) (ds rest : list Z)
| BGet (s1 : nat) (i : who) (rest : list Z)
| BBad (v : verb) (s1 : nat) (rest : list Z)
| BNone (rest : list Z).

Definition verb_text (v : verb) : list Z := bytes_of (match v with VSet => "_set" | VGet => "_get" end).
Definition who_text (i : who) : list Z := bytes_of (match i with Uid => "uid" | Gid => "gid" end).
Definition blanks (n : nat) : list Z := replicate n 32.

(** Without the newline. *)
Definition builtin_text (b : builtin) : list Z :=
  match b with
  | BSet s1 i s2 ds rest => verb_text VSet ++ blanks s1 ++ who_text i ++ blanks s2 ++ ds ++ rest
  | BGet s1 i rest => verb_text VGet ++ blanks s1 ++ who_text i ++ rest
  | BBad v s1 rest => verb_text v ++ blanks s1 ++ rest
  | BNone rest => 95 :: rest
  end.

(** Bytes that do not end a line. *)
Definition plain (c : Z) : Prop := c ≠ 0 ∧ c ≠ 10 ∧ c ≠ 13.

Definition builtin_ok (b : builtin) : Prop :=
  Forall plain (builtin_text b) ∧
  match b with
  | BSet _ _ _ ds rest =>
      Forall (digit 10) ds ∧ (0 < length ds)%nat ∧ num_val 10 ds < 2 ^ 31 ∧
      match rest with c :: _ => ¬ digit 10 c | [] => True end
  | BGet _ _ _ => True
  | BBad _ _ rest => hd 0 rest ≠ 32 ∧ ∀ i, ¬ who_text i `prefix_of` rest
  | BNone rest => ∀ v, ¬ verb_text v `prefix_of` (95 :: rest)
  end.

Definition set_call (i : who) (n : Z) : ucall := match i with Uid => CSetuid n | Gid => CSetgid n end.
Definition get_call (i : who) : ucall := match i with Uid => CGetuid | Gid => CGetgid end.
Definition bad_text (v : verb) : list Z := bytes_of "Invalid " ++ verb_text v ++ bytes_of " parameter" ++ [10].

Definition builtin_done (ev : env) (b : builtin) (fds : fdtable) (w : world) : world :=
  match b with
  | BSet _ i _ ds _ => add_log (set_call i (num_val 10 ds)) w
  | BGet _ i _ =>
      say fds 2 ([IDec (e_ret ev (get_call i) (w_log w)); NL] ≫= item_bytes) (add_log (get_call i) w)
  | BBad v _ _ => say fds 2 (bad_text v) w
  | BNone _ => w
  end.

(** ** Lemmas *)

(** Comparing with a word, on either side, tells whether the string starts with it. *)
Lemma sh_strncmp_prefix t l :
  Forall (λ c, c ≠ 0) t → sh_strncmp l t (length t) = 0 ↔ t `prefix_of` l.
Proof.
  revert l. induction t as [|c t IH]; intros l Ht; cbn [length sh_strncmp].
  - split; [intros _; apply prefix_nil | done].
  - apply Forall_cons in Ht as [Hc Ht]. destruct l as [|d l]; cbn [hd tail].
    + cbn. split; [intros H; lia | intros H%prefix_nil_inv; done].
    + destruct (Z.eqb_spec d 0), (Z.eqb_spec d c); cbn [negb andb]; subst.
      * done.
      * split; [lia | intros H%prefix_cons_inv_1; congruence].
      * rewrite IH by done. split; [apply prefix_cons | apply prefix_cons_inv_2].
      * split; [lia | intros H%prefix_cons_inv_1; congruence].
Qed.

Lemma sh_strncmp_sym p q n : sh_strncmp p q n = 0 ↔ sh_strncmp q p n = 0.
Proof.
  revert p q. induction n as [|n IH]; intros p q; cbn [sh_strncmp]; [done|].
  destruct (Z.eqb_spec (hd 0 p) (hd 0 q)) as [->|Hne].
  - rewrite Z.eqb_refl, !andb_true_r. destruct (hd 0 q =? 0); cbn [negb]; [done | apply IH].
  - rewrite (proj2 (Z.eqb_neq (hd 0 q) (hd 0 p))) by congruence. rewrite !andb_false_r. lia.
Qed.

Lemma starts_with t l :
  Forall (λ c, c ≠ 0) t → (sh_strncmp l t (length t) =? 0) = bool_decide (t `prefix_of` l).
Proof.
  intros Ht. apply eq_true_iff_eq. rewrite Z.eqb_eq, bool_decide_eq_true. by apply sh_strncmp_prefix.
Qed.

Lemma starts_with' t l :
  Forall (λ c, c ≠ 0) t → (sh_strncmp t l (length t) =? 0) = bool_decide (t `prefix_of` l).
Proof.
  intros Ht. rewrite <- starts_with by done. apply eq_true_iff_eq. rewrite !Z.eqb_eq. apply sh_strncmp_sym.
Qed.

(** A word without a newline at the start of a line lies before its newline. *)
Lemma prefix_newline t l : Forall plain t → t `prefix_of` l ++ [10] → t `prefix_of` l.
Proof.
  intros Ht [k Hk]. destruct k as [|x k _] using rev_ind.
  - rewrite app_nil_r in Hk. subst t. apply Forall_app in Ht as [_ Ht]. inversion_clear Ht as [|? ? H]. by destruct H as (_ & ? & _).
  - rewrite app_assoc in Hk. apply app_inj_tail in Hk as [-> _]. apply prefix_app_r, reflexivity.
Qed.

Lemma chomp_blanks n l : hd 0 l ≠ 32 → chomp (blanks n ++ l) = l.
Proof.
  intros Hl. induction n as [|n IH]; [|exact IH]. cbn [blanks replicate app].
  destruct l as [|c l]; [done|]. cbn [hd] in Hl. cbn [chomp sh_strncmp hd tail]. change (hd 0 (bytes_of " ")) with 32.
  rewrite (proj2 (Z.eqb_neq c 32) Hl), andb_false_r. destruct (Z.eqb_spec (c - 32) 0); [lia | done].
Qed.

Lemma makeint_loop_digits ds rest val :
  Forall (digit 10) ds → match rest with c :: _ => ¬ digit 10 c | [] => True end → 0 ≤ val →
  foldl (λ n c, n * 10 + (c - 48)) val ds < 2 ^ 31 →
  makeint_loop val (ds ++ rest) = foldl (λ n c, n * 10 + (c - 48)) val ds.
Proof.
  intros Hds Hr. revert val. induction Hds as [|c ds Hc Hds IH]; intros val Hv Hlt.
  - destruct rest as [|c rest]; [done|]. cbn. unfold digit in Hr.
    destruct (Z.geb_spec c 48), (Z.leb_spec c 57); cbn [andb]; [lia | done..].
  - cbn [app makeint_loop foldl] in *. unfold digit in Hc.
    destruct (Z.geb_spec c 48), (Z.leb_spec c 57); cbn [andb]; try lia.
    assert (Hm : ∀ l v, Forall (digit 10) l → 0 ≤ v → v ≤ foldl (λ n c, n * 10 + (c - 48)) v l).
    { clear. intros l. induction l as [|c l IH]; intros v Hl Hv; [done|]. apply Forall_cons in Hl as [Hc Hl].
      unfold digit in Hc. cbn [foldl]. specialize (IH (v * 10 + (c - 48)) Hl). lia. }
    pose proof (Hm ds (val * 10 + (c - 48)) Hds ltac:(lia)).
    rewrite s32_small by lia. replace (10 * val + (c - 48)) with (val * 10 + (c - 48)) by lia. apply IH; [lia | done].
Qed.

(** Which id a parameter names. *)
Lemma who_same i j l :
  (sh_strncmp (who_text i) (who_text j ++ l) 3 =? 0) = match i, j with Uid, Uid | Gid, Gid => true | _, _ => false end.
Proof. by destruct i, j. Qed.

Lemma who_none i l : ¬ who_text i `prefix_of` l → (sh_strncmp (who_text i) (l ++ [10]) 3 =? 0) = false.
Proof.
  intros H. replace 3%nat with (length (who_text i)) by (by destruct i). rewrite starts_with' by (destruct i; by repeat constructor).
  apply bool_decide_eq_false_2. intros Hp. apply H, prefix_newline; [destruct i; by repeat constructor | done].
Qed.

Ltac fold_names :=
  change (bytes_of "uid") with (who_text Uid); change (bytes_of "gid") with (who_text Gid).

Section Builtin.
Context {ev : env}.

(** [_set] with an id and a number. *)
Lemma setbuiltin_rule s1 i s2 ds rest fds w :
  builtin_ok (BSet s1 i s2 ds rest) →
  ∃ r, eval ev (setbuiltin (builtin_text (BSet s1 i s2 ds rest) ++ [10])) fds w [] (Some (r, fds))
         (builtin_done ev (BSet s1 i s2 ds rest) fds w).
Proof using.
  intros (_ & Hds & Hne & Hlt & Hr).
  assert (Hm : makeint (chomp (blanks s2 ++ ds ++ rest ++ [10])) = num_val 10 ds).
  { rewrite chomp_blanks.
    - apply makeint_loop_digits; [done | | done | done]. destruct rest; cbn; [unfold digit; lia | done].
    - destruct ds as [|c ds]; [cbn in Hne; lia|]. apply Forall_cons in Hds as [Hc _]. unfold digit in Hc. cbn. lia. }
  exists (e_ret ev (set_call i (num_val 10 ds)) (w_log w)). cbn [builtin_text builtin_done]. rewrite <- !app_assoc.
  unfold setbuiltin. rewrite (drop_app_length (bytes_of "_set")). rewrite chomp_blanks by (by destruct i).
  fold_names.
  cbv zeta. rewrite !who_same. destruct i; cbv iota; rewrite drop_app_length, Hm;
    (eapply eval_call; [done | done | reflexivity | apply eval_mret]).
Qed.

(** [_get] with an id. *)
Lemma getbuiltin_rule s1 i rest fds w :
  ∃ r, eval ev (getbuiltin (builtin_text (BGet s1 i rest) ++ [10])) fds w [] (Some (r, fds))
         (builtin_done ev (BGet s1 i rest) fds w).
Proof using.
  exists 0. cbn [builtin_text builtin_done]. rewrite <- !app_assoc. unfold getbuiltin.
  rewrite (drop_app_length (bytes_of "_get")). rewrite chomp_blanks by (by destruct i).
  fold_names.
  cbv zeta. rewrite !who_same. destruct i; cbv iota;
    (eapply eval_sys; [done | reflexivity | eapply eval_bind_nil; [apply eval_say | apply eval_mret]]).
Qed.

(** Both complain about any other parameter. *)
Lemma badbuiltin_rule v s1 rest fds w :
  builtin_ok (BBad v s1 rest) →
  ∃ r, eval ev ((match v with VSet => setbuiltin | VGet => getbuiltin end) (builtin_text (BBad v s1 rest) ++ [10]))
         fds w [] (Some (r, fds)) (builtin_done ev (BBad v s1 rest) fds w).
Proof using.
  intros (_ & Hs & Hn). exists (-1). cbn [builtin_text builtin_done]. rewrite <- !app_assoc.
  assert (Hc : chomp (blanks s1 ++ rest ++ [10]) = rest ++ [10]) by (apply chomp_blanks; by destruct rest).
  destruct v.
  - unfold setbuiltin. rewrite (drop_app_length (bytes_of "_set")), Hc. fold_names. cbv zeta.
    rewrite (who_none Uid rest), (who_none Gid rest) by done. eapply eval_bind_nil; [apply eval_say | apply eval_mret].
  - unfold getbuiltin. rewrite (drop_app_length (bytes_of "_get")), Hc. fold_names. cbv zeta.
    rewrite (who_none Uid rest), (who_none Gid rest) by done. eapply eval_bind_nil; [apply eval_say | apply eval_mret].
Qed.

(** The dispatch table calls the one function whose name the line starts with, if any. *)
Lemma dobuiltin_verb v l fds w w' :
  (∃ r, eval ev ((match v with VSet => setbuiltin | VGet => getbuiltin end) (verb_text v ++ l)) fds w [] (Some (r, fds)) w') →
  eval ev (dobuiltin (verb_text v ++ l)) fds w [] (Some (tt, fds)) w'.
Proof using.
  intros [r H]. unfold dobuiltin, fdt. cbn [each fst snd].
  assert (Hd : ∀ u, (sh_strncmp (verb_text v ++ l) (verb_text u) 4 =? 0) = match u, v with VSet, VSet | VGet, VGet => true | _, _ => false end)
    by (by intros []; destruct v).
  pose proof (Hd VSet) as H1. pose proof (Hd VGet) as H2. unfold verb_text at 2 in H1. unfold verb_text at 2 in H2.
  change (length (bytes_of "_set")) with 4%nat. change (length (bytes_of "_get")) with 4%nat. rewrite H1, H2.
  destruct v; cbv iota.
  - eapply eval_bind_nil; [eapply eval_bind_nil; [exact H | apply eval_mret]|].
    eapply eval_bind_nil; [apply eval_mret | apply eval_mret].
  - eapply eval_bind_nil; [apply eval_mret|].
    eapply eval_bind_nil; [eapply eval_bind_nil; [exact H | apply eval_mret] | apply eval_mret].
Qed.

Lemma dobuiltin_none rest fds w :
  builtin_ok (BNone rest) → eval ev (dobuiltin (95 :: rest ++ [10])) fds w [] (Some (tt, fds)) w.
Proof using.
  intros (_ & Hn). unfold dobuiltin, fdt. cbn [each fst snd].
  assert (Hd : ∀ v, (sh_strncmp (95 :: rest ++ [10]) (verb_text v) (length (verb_text v)) =? 0) = false).
  { intros v. rewrite starts_with by (destruct v; by repeat constructor). apply bool_decide_eq_false_2.
    intros Hp. apply (Hn v), prefix_newline; [destruct v; by repeat constructor | exact Hp]. }
  change (bytes_of "_set") with (verb_text VSet). change (bytes_of "_get") with (verb_text VGet).
  rewrite (Hd VSet), (Hd VGet). eapply eval_bind_nil; [apply eval_mret|].
  eapply eval_bind_nil; [apply eval_mret | apply eval_mret].
Qed.

(** A line that starts with an underscore does what it asks for. *)
Lemma dobuiltin_rule b fds w :
  builtin_ok b → eval ev (dobuiltin (builtin_text b ++ [10])) fds w [] (Some (tt, fds)) (builtin_done ev b fds w).
Proof using.
  intros Hok. destruct b as [s1 i s2 ds rest|s1 i rest|v s1 rest|rest].
  - pose proof (setbuiltin_rule s1 i s2 ds rest fds w Hok) as H. cbn [builtin_text] in *. rewrite <- app_assoc in *.
    by apply (dobuiltin_verb VSet).
  - pose proof (getbuiltin_rule s1 i rest fds w) as H. cbn [builtin_text] in *. rewrite <- app_assoc in *.
    by apply (dobuiltin_verb VGet).
  - pose proof (badbuiltin_rule v s1 rest fds w Hok) as H. cbn [builtin_text] in *. rewrite <- app_assoc in *.
    by apply dobuiltin_verb.
  - by apply dobuiltin_none.
Qed.
End Builtin.

(** Nothing but output and the log of calls changes. *)
Lemma builtin_done_same ev b fds w :
  w_in (builtin_done ev b fds w) = w_in w ∧ w_next (builtin_done ev b fds w) = w_next w.
Proof.
  assert (Hs : ∀ l w', w_in (say fds 2 l w') = w_in w' ∧ w_next (say fds 2 l w') = w_next w').
  { intros l w'. unfold say. destruct (ufd_get fds 2 ≫= o_dst); [by destruct l | done]. }
  destruct b as [s1 i s2 ds rest|s1 i rest|v s1 rest|rest]; cbn [builtin_done]; [done | apply (Hs _ (add_log _ w)) | apply Hs | done].
Qed.

(** ** Theorems *)

(** A line that starts with an underscore: [dobuiltin] sets or shows the user or group id it
    names, in decimal and after any number of blanks, complains on standard error about
    another parameter, and ignores any other line. *)
Theorem dobuiltin_correct ev b fds w :
  builtin_ok b →
  ∃ n, ∀ fuel, (n ≤ fuel)%nat →
    run ev fuel (dobuiltin (builtin_text b ++ [10])) fds w = Ok ([], Some (tt, fds), builtin_done ev b fds w).
Proof. intros H. by apply eval_run, dobuiltin_rule. Qed.
