(* ===== verification/ShRun.v ===== *)
(** * The shell

    Models [runcmd], [getcmd], [main], [panic] and [fork1] of src/sh.c as interaction trees
    over the system calls, on top of the parser ([Sh]) and the built-in commands
    ([ShBuiltin]).

    [plumb] is what running a command should come to: which programs are executed, with
    which arguments and descriptors.  It says nothing of [close], [dup] and [pipe]; the
    theorem shows that these calls connect the processes as [plumb] says and that no
    executed program inherits an end of a pipe beyond its standard descriptors, without
    which no reader would see the end of its input. *)

From ITree Require Import Core.ITreeDefinition.
From S2P Require Import Prelude Param KString Digits Ulib Printf Cmos ProcCommon User Programs Sh ShBuiltin.
Local Open Scope Z_scope.

(** ** Definitions *)

Definition SIZEOF_line : nat := 100.

(** The string at [a]; all strings of the shell lie in its line buffer. *)
Fixpoint upto_nul (n : nat) (m : mem) (a : Z) : list Z :=
  match n with
  | O => []
  | S n' => if m a =? 0 then [] else m a :: upto_nul n' m (a + 1)
  end.
Definition string_at (m : mem) (a : Z) : list Z := upto_nul SIZEOF_line m a.

Definition sh_panic {A : Type} (msg : string) : prog A := uprintf 2 (lit msg ++ [NL]);; exit.

Definition fork1 : prog Z :=
  pid ← sys SFork;
  if pid =? -1 then sh_panic "fork" else mret pid.

Definition close_both (p : Z * Z) : prog unit := sys (SClose p.1);; sys (SClose p.2);; mret tt.

Fixpoint runcmd (m : mem) (c : cmd) : prog Empty_set :=
  match c with
  | EXEC args =>
      match args with
      | [] => exit
      | (a0, _) :: _ =>
          sys (SExec (string_at m a0) ((λ x, string_at m x.1) <$> args));;
          uprintf 2 (lit "exec " ++ [str (string_at m a0)] ++ lit " failed" ++ [NL]);;
          exit
      end
  | REDIR c r =>
      sys (SClose (r_fd r));;
      fd ← sys (SOpen (string_at m (r_file r)) (r_mode r));
      if fd <? 0 then
        uprintf 2 (lit "open " ++ [str (string_at m (r_file r))] ++ lit " failed" ++ [NL]);;
        exit
      else runcmd m c
  | LIST l r =>
      pid ← fork1;
      if pid =? 0 then runcmd m l
      else sys SWait;; runcmd m r
  | PIPE l r =>
      ends ← sys SPipe;
      match ends with
      | None => sh_panic "pipe"
      | Some p =>
          pid ← fork1;
          if pid =? 0 then
            sys (SClose 1);; sys (SDup p.2);; close_both p;; runcmd m l
          else
            pid ← fork1;
            if pid =? 0 then
              sys (SClose 0);; sys (SDup p.1);; close_both p;; runcmd m r
            else close_both p;; sys SWait;; sys SWait;; exit
      end
  | BACK c =>
      pid ← fork1;
      if pid =? 0 then runcmd m c else exit
  end.

(** The bytes of a line that [gets] reads, at most [k], one [read] each. *)
Fixpoint getline (k : nat) : prog (list Z) :=
  match k with
  | O => mret []
  | S k' =>
      r ← sys (SRead 0 1);
      match r with
      | Some (c :: _) =>
          if (c =? 10) || (c =? 13) then mret [c]
          else l ← getline k'; mret (c :: l)
      | _ => mret []
      end
  end.

Section Shell.
(** The address of [buf]. *)
Variable buf_at : Z.

(** Memory with a line in [buf], which [memset] has cleared before. *)
Definition line_mem (line : list Z) : mem := put_bytes (λ _, 0) buf_at line.

(** The line, and the result of [getcmd]. *)
Definition getcmd : prog (list Z * Z) :=
  uprintf 2 (lit "$ ");;
  line ← getline (SIZEOF_line - 1);
  mret (line, if line_mem line buf_at =? 0 then -1 else 0).

(** The fuel [parsecmd] needs for a line that fits in [buf]. *)
Definition sh_fuel : nat := 4 * SIZEOF_line + 4.

Definition run_line (m : mem) : prog Empty_set :=
  match parsecmd sh_fuel m buf_at with
  | Ok (c, m') => runcmd m' c
  | Panic msg => sh_panic msg
  | _ => exit
  end.

(** [cd], without the newline at the end of the line. *)
Definition run_cd (m : mem) : prog unit :=
  let m := mupd m (buf_at + Z.of_nat (length (string_at m buf_at)) - 1) 0 in
  let dir := string_at m (buf_at + 3) in
  r ← sys (SChdir dir);
  if r <? 0 then uprintf 2 (lit "cannot cd " ++ [str dir; NL]) else mret tt.

(** One round of the loop of [main]. *)
Definition sh_round : prog (unit + unit) :=
  r ← getcmd;
  if r.2 <? 0 then mret (inr tt)
  else
    let m := line_mem r.1 in
    if (m buf_at =? 99) && (m (buf_at + 1) =? 100) && (m (buf_at + 2) =? 32) then
      run_cd m;; mret (inl tt)
    else if m buf_at =? 95 then
      dobuiltin (string_at m buf_at);; mret (inl tt)
    else
      pid ← fork1;
      if pid =? 0 then (x ← run_line m; match (x : Empty_set) with end)
      else sys SWait;; mret (inl tt).

Definition sh_open : prog unit :=
  ITree.iter (fun _ : unit =>
    fd ← sys (SOpen console_name O_RDWR);
    if fd <? 0 then mret (inr tt)
    else if fd >=? 3 then sys (SClose fd);; mret (inr tt)
    else mret (inl tt)) tt.

Definition sh_main : prog Empty_set :=
  sh_open;;
  ITree.iter (fun _ : unit => sh_round) tt;;
  exit.
End Shell.

(** *** What running a command comes to *)

(** Standard input, output and error are open and nothing else. *)
Definition tidy (fds : fdtable) : Prop :=
  ∃ a b c, fds = Some a :: Some b :: Some c :: replicate (NOFILE - 3) None.

Definition mode_of (d : direction) : Z :=
  match d with RIn => O_RDONLY | ROut => Z.lor O_WRONLY O_CREATE end.
Definition fd_of (d : direction) : nat := match d with RIn => 0%nat | ROut => 1%nat end.

Definition next_pid (w : world) : world := set_w_next (S (w_next w)) w.

Definition complain (fds : fdtable) (pre : string) (what : list Z) (w : world) : world :=
  say fds 2 ((lit pre ++ [str what] ++ lit " failed" ++ [NL]) ≫= item_bytes) w.

(** The processes that running the command leads to, with how they end and their
    descriptors, children first. *)
Fixpoint plumb (ev : env) (a : ast) (fds : fdtable) (w : world) : list (fate * fdtable) * world :=
  match a with
  | AExec [] => ([(Exited, fds)], w)
  | AExec ((p :: _) as argv) =>
      if e_exec ev p then ([(Execed p argv, fds)], w)
      else ([(Exited, fds)], complain fds "exec " p w)
  | ARedir a d file =>
      match e_open ev file (mode_of d) with
      | None => let fds := <[fd_of d := None]> fds in ([(Exited, fds)], complain fds "open " file w)
      | Some t =>
          let '(o, w) := opened t file (mode_of d) w in
          plumb ev a (<[fd_of d := Some o]> fds) w
      end
  | AList a b =>
      let '(l1, w1) := plumb ev a fds (next_pid w) in
      let '(l2, w2) := plumb ev b fds (add_log CWait w1) in
      (l1 ++ l2, w2)
  | APipe a b =>
      let n := w_next w in
      let '(l1, w1) := plumb ev a (<[1%nat := Some (pipe_w n)]> fds) (next_pid (next_pid w)) in
      let '(l2, w2) := plumb ev b (<[0%nat := Some (pipe_r n)]> fds) (next_pid w1) in
      (l1 ++ l2 ++ [(Exited, fds)], add_log CWait (add_log CWait w2))
  | ABack a =>
      let '(l1, w1) := plumb ev a fds (next_pid w) in
      (l1 ++ [(Exited, fds)], w1)
  end.

(** Every word fits in the line buffer. *)
Fixpoint ast_fits (a : ast) : Prop :=
  match a with
  | AExec ws => Forall (λ w, length w < SIZEOF_line)%nat ws
  | ARedir a _ f => ast_fits a ∧ (length f < SIZEOF_line)%nat
  | APipe a b | AList a b => ast_fits a ∧ ast_fits b
  | ABack a => ast_fits a
  end.

(** A process that executes a program has nothing but its standard descriptors. *)
Definition no_leak (x : fate * fdtable) : Prop :=
  match x.1 with Execed _ _ => tidy x.2 | Exited => True end.

(** *** A session with the shell *)

(** What a line asks for: a command, a change of directory or a built-in command. *)
Inductive shline := LCmd (a : ast) | LCd (dir : list Z) | LBuiltin (b : builtin).

Definition CD : list Z := [99; 100; 32].

Definition shline_body (l : shline) : list Z :=
  match l with LCmd a => pr 0 a | LCd dir => CD ++ dir | LBuiltin b => builtin_text b end.
Definition shline_text (l : shline) : list Z := shline_body l ++ [10].

(** The line fits in the buffer. *)
Definition shline_ok (l : shline) : Prop :=
  (length (shline_text l) < SIZEOF_line)%nat ∧
  match l with
  | LCmd a => ast_ok a ∧ take 3 (shline_text l) ≠ CD ∧ hd 0 (shline_text l) ≠ 95
  | LCd dir => Forall plain dir
  | LBuiltin b => builtin_ok b
  end.

(** The shell has prompted and taken a line from its input [k]. *)
Definition asked (k : nat) (fds : fdtable) (w : world) : world :=
  let w := say fds 2 (bytes_of "$ ") w in
  set_w_in (<[k := tail (w_in w !!! k : input)]> (w_in w)) w.

(** A round: the command is run and waited for, the directory changed or the built-in
    command done. *)
Definition round_of (ev : env) (l : shline) (fds : fdtable) (w : world) : list (fate * fdtable) * world :=
  match l with
  | LCmd a => let '(l1, w1) := plumb ev a fds (next_pid w) in (l1, add_log CWait w1)
  | LCd dir =>
      ([], let w1 := add_log (CChdir dir) w in
           if e_ret ev (CChdir dir) (w_log w) <? 0
           then say fds 2 ((lit "cannot cd " ++ [str dir; NL]) ≫= item_bytes) w1 else w1)
  | LBuiltin b => ([], builtin_done ev b fds w)
  end.

(** The processes of a session, in order: those of each line, and at the end of the input
    the shell itself. *)
Fixpoint session (ev : env) (k : nat) (ls : list shline) (fds : fdtable) (w : world) :
    list (fate * fdtable) * world :=
  match ls with
  | [] => ([(Exited, fds)], asked k fds w)
  | l :: ls =>
      let '(l1, w1) := round_of ev l fds (asked k fds w) in
      let '(l2, w2) := session ev k ls fds w1 in
      (l1 ++ l2, w2)
  end.

(** ** Lemmas *)

Lemma upto_nul_cstr n m a l : cstr m a l → (length l < n)%nat → upto_nul n m a = l.
Proof.
  revert n a. induction l as [|c l IH]; intros n a H Hn; (destruct n as [|n]; [cbn in Hn; lia|]); cbn [upto_nul].
  - cbn in H. by rewrite H.
  - destruct H as (-> & Hc & H). destruct (Z.eqb_spec c 0); [done|]. rewrite (IH n); [done | done | cbn in Hn; lia].
Qed.

Lemma string_at_cstr m a l : cstr m a l → (length l < SIZEOF_line)%nat → string_at m a = l.
Proof. apply upto_nul_cstr. Qed.

Lemma tidy_insert fds k o : tidy fds → (k < 3)%nat → tidy (<[k := Some o]> fds).
Proof.
  intros (a & b & c & ->) Hk. destruct k as [|[|[|k]]]; [by exists o, b, c | by exists a, o, c | by exists a, b, o | lia].
Qed.

Section Run.
Context {ev : env}.
Hypothesis Hfork : ∀ n, e_fork ev n = true.

Lemma eval_fork1 {A : Type} (k : Z → prog A) fds w l1 w1 l2 o2 w2 :
  eval ev (k 0) fds (next_pid w) l1 None w1 →
  eval ev (k (Z.of_nat (w_next w) + 1)) fds w1 l2 o2 w2 →
  eval ev (fork1 ≫= k) fds w (l1 ++ l2) o2 w2.
Proof using Hfork.
  intros H1 H2.
  assert (Hk : ∀ pid, 0 ≤ pid → observe ((Ret pid ≫= (λ pid, if pid =? -1 then sh_panic "fork" else mret pid)) ≫= k) = observe (k pid)).
  { intros pid Hp. rewrite !observe_bind. cbn [observe _observe]. destruct (Z.eqb_spec pid (-1)); [lia | done]. }
  eapply eval_fork; [by rewrite !observe_bind | done | | done |].
  - eapply eval_observe; [|exact H1]. symmetry. by apply Hk.
  - eapply eval_observe; [|exact H2]. symmetry. apply Hk. lia.
Qed.

(** With a pipe open next to its standard descriptors. *)
Definition with_pipe (n : nat) (a b c : uobj) : fdtable :=
  Some a :: Some b :: Some c :: Some (pipe_r n) :: Some (pipe_w n) :: replicate (NOFILE - 5) None.
Definition without_pipe (a b c : uobj) : fdtable :=
  Some a :: Some b :: Some c :: replicate (NOFILE - 3) None.

Lemma scall_pipe a b c w :
  scall ev SPipe (without_pipe a b c) w = Answer (Some (3, 4)) (with_pipe (w_next w) a b c) (next_pid w).
Proof using. reflexivity. Qed.

(** The two ends of a pipe are closed again. *)
Lemma eval_close_both {A : Type} n a b c (k : prog A) w l o w' :
  eval ev k (without_pipe a b c) w l o w' → eval ev (close_both (3, 4);; k) (with_pipe n a b c) w l o w'.
Proof using.
  intros H. eapply eval_bind_nil; [|exact H].
  eapply eval_sys; [done | reflexivity|]. eapply eval_sys; [done | reflexivity|]. apply eval_mret.
Qed.

(** The end of a pipe takes the place of standard input or output. *)
Lemma eval_plug_out {A : Type} n a b c (k : prog A) w l o w' :
  eval ev k (without_pipe a (pipe_w n) c) w l o w' →
  eval ev (sys (SClose 1);; sys (SDup 4);; close_both (3, 4);; k) (with_pipe n a b c) w l o w'.
Proof using.
  intros H. eapply eval_sys; [done | reflexivity|]. eapply eval_sys; [done | reflexivity|].
  by apply (eval_close_both n a (pipe_w n) c).
Qed.

Lemma eval_plug_in {A : Type} n a b c (k : prog A) w l o w' :
  eval ev k (without_pipe (pipe_r n) b c) w l o w' →
  eval ev (sys (SClose 0);; sys (SDup 3);; close_both (3, 4);; k) (with_pipe n a b c) w l o w'.
Proof using.
  intros H. eapply eval_sys; [done | reflexivity|]. eapply eval_sys; [done | reflexivity|].
  by apply (eval_close_both n (pipe_r n) b c).
Qed.

Lemma runcmd_exec m args ws fds w :
  Forall2 (λ p w, cstr m p.1 w) args ws → ast_fits (AExec ws) →
  eval ev (runcmd m (EXEC args)) fds w (plumb ev (AExec ws) fds w).1 None (plumb ev (AExec ws) fds w).2.
Proof using.
  intros HF Hl. assert (Es : (λ x, string_at m x.1) <$> args = ws).
  { cbn in Hl. revert Hl. induction HF as [|x v args ws Hx HF IH]; intros Hl; [done|].
    apply Forall_cons in Hl as [Hv Hl]. rewrite fmap_cons, IH by done. by rewrite (string_at_cstr _ _ _ Hx Hv). }
  destruct HF as [|[q e] v args ws Hq HF]; [apply eval_exit|]. rewrite fmap_cons in Es. injection Es as Ev Es.
  cbn [fst] in Ev. cbn [runcmd plumb]. rewrite fmap_cons. cbn [fst]. rewrite Ev, Es.
  destruct (e_exec ev v) eqn:Ee; [by apply eval_exec|].
  eapply eval_sys; [done | cbn; by rewrite Ee|]. eapply eval_bind_nil; [apply eval_say | apply eval_exit].
Qed.

(** The descriptor that was closed is the lowest free one. *)
Lemma redirect_open d o fds :
  tidy fds → ufd_alloc (<[fd_of d := None]> fds) o = Some (Z.of_nat (fd_of d), <[fd_of d := Some o]> fds).
Proof using. intros (a & b & c & ->). by destruct d. Qed.

Lemma runcmd_redir m c r a d f fds w :
  tidy fds → redir_means (λ q _ w, cstr m q w) r (d, f) → (length f < SIZEOF_line)%nat →
  (∀ fds w, tidy fds → eval ev (runcmd m c) fds w (plumb ev a fds w).1 None (plumb ev a fds w).2) →
  eval ev (runcmd m (REDIR c r)) fds w (plumb ev (ARedir a d f) fds w).1 None (plumb ev (ARedir a d f) fds w).2.
Proof using.
  intros Ht [Hs Hr] Hf IH. cbn [fst snd] in *. cbn [runcmd plumb]. rewrite (string_at_cstr _ _ _ Hs Hf).
  assert (Hm : r_mode r = mode_of d ∧ r_fd r = Z.of_nat (fd_of d)) by (by destruct d).
  destruct Hm as [-> ->]. eapply eval_sys; [done | |].
  { instantiate (1 := w). instantiate (1 := <[fd_of d := None]> fds). instantiate (1 := 0).
    destruct Ht as (? & ? & ? & ->). by destruct d. }
  destruct (e_open ev f (mode_of d)) as [t|] eqn:Eo.
  - destruct (opened t f (mode_of d) w) as [o w'] eqn:Ep.
    eapply eval_sys; [done | cbn [scall]; rewrite Eo, Ep, (redirect_open d o fds Ht); reflexivity|].
    destruct (Z.ltb_spec (Z.of_nat (fd_of d)) 0); [lia|]. apply IH, tidy_insert; [done | by destruct d; cbn; lia].
  - eapply eval_sys; [done | cbn; by rewrite Eo|]. change (-1 <? 0) with true. cbv iota.
    eapply eval_bind_nil; [apply eval_say | apply eval_exit].
Qed.

(** What the rest of the shell relies on. *)
Definition plumbs (m : mem) (c : cmd) (a : ast) : Prop :=
  ∀ fds w, tidy fds → eval ev (runcmd m c) fds w (plumb ev a fds w).1 None (plumb ev a fds w).2.

Lemma runcmd_list m c c' a a' : plumbs m c a → plumbs m c' a' → plumbs m (LIST c c') (AList a a').
Proof using Hfork.
  intros H1 H2 fds w Ht. specialize (H1 fds (next_pid w) Ht). cbn [runcmd plumb].
  destruct (plumb ev a fds (next_pid w)) as [l1 w1]. specialize (H2 fds (add_log CWait w1) Ht).
  destruct (plumb ev a' fds (add_log CWait w1)) as [l2 w2]. eapply eval_fork1; [exact H1|].
  destruct (Z.eqb_spec (Z.of_nat (w_next w) + 1) 0); [lia|]. eapply eval_sys; [done | reflexivity | exact H2].
Qed.

Lemma runcmd_back m c a : plumbs m c a → plumbs m (BACK c) (ABack a).
Proof using Hfork.
  intros H1 fds w Ht. specialize (H1 fds (next_pid w) Ht). cbn [runcmd plumb].
  destruct (plumb ev a fds (next_pid w)) as [l1 w1]. eapply eval_fork1; [exact H1|].
  destruct (Z.eqb_spec (Z.of_nat (w_next w) + 1) 0); [lia|]. apply eval_exit.
Qed.

Lemma runcmd_pipe m c c' a a' : plumbs m c a → plumbs m c' a' → plumbs m (PIPE c c') (APipe a a').
Proof using Hfork.
  intros H1 H2 fds w Ht. specialize (H1 (<[1%nat := Some (pipe_w (w_next w))]> fds) (next_pid (next_pid w))).
  cbn [runcmd plumb]. destruct (plumb ev a _ (next_pid (next_pid w))) as [l1 w1].
  specialize (H2 (<[0%nat := Some (pipe_r (w_next w))]> fds) (next_pid w1)).
  destruct (plumb ev a' _ (next_pid w1)) as [l2 w2].
  specialize (H1 (tidy_insert _ 1 _ Ht ltac:(lia))). specialize (H2 (tidy_insert _ 0 _ Ht ltac:(lia))).
  destruct Ht as (x & y & z & ->).
  eapply eval_sys; [done | apply scall_pipe|]. cbv iota beta. eapply eval_fork1.
  { change (0 =? 0) with true. cbv iota. apply eval_plug_out, H1. }
  cbn [next_pid set_w_next w_next]. destruct (Z.eqb_spec (Z.of_nat (S (w_next w)) + 1) 0); [lia|].
  eapply eval_fork1; [change (0 =? 0) with true; cbv iota; apply eval_plug_in, H2|].
  cbn [snd]. destruct (Z.eqb_spec (Z.of_nat (w_next w1) + 1) 0); [lia|]. apply eval_close_both.
  eapply eval_sys; [done | reflexivity|]. eapply eval_sys; [done | reflexivity|]. apply eval_exit.
Qed.

Lemma runcmd_rule m c a : means (λ q _ w, cstr m q w) c a → ast_fits a → plumbs m c a.
Proof using Hfork.
  induction 1 as [args ws HF|c a r d f _ IH Hr|c c' a a' _ IH1 _ IH2|c c' a a' _ IH1 _ IH2|c a _ IH]; intros Hf.
  - intros fds w _. by apply runcmd_exec.
  - destruct Hf as [Ha Hf]. intros fds w Ht. apply runcmd_redir; [done..|]. intros fds' w' Ht'. by apply IH.
  - destruct Hf. apply runcmd_pipe; auto.
  - destruct Hf. apply runcmd_list; auto.
  - apply runcmd_back; auto.
Qed.

Lemma plumb_no_leak a fds w : tidy fds → Forall no_leak (plumb ev a fds w).1.
Proof using.
  revert fds w. induction a as [[|p ws]|a IH d f|a IHa b IHb|a IHa b IHb|a IH]; intros fds w Ht; cbn [plumb].
  - by repeat constructor.
  - destruct (e_exec ev p); by repeat constructor.
  - destruct (e_open ev f (mode_of d)) as [t|]; [|by repeat constructor].
    destruct (opened t f (mode_of d) w) as [o w']. apply IH, tidy_insert; [done | by destruct d; cbn; lia].
  - assert (∀ k o, (k < 3)%nat → tidy (<[k := Some o]> fds)) as Hi by (intros; by apply tidy_insert).
    specialize (IHa (<[1%nat := Some (pipe_w (w_next w))]> fds) (next_pid (next_pid w)) ltac:(apply Hi; lia)).
    destruct (plumb ev a _ _) as [l1 w1].
    specialize (IHb (<[0%nat := Some (pipe_r (w_next w))]> fds) (next_pid w1) ltac:(apply Hi; lia)).
    destruct (plumb ev b _ _) as [l2 w2]. cbn in *. rewrite !Forall_app. split_and!; [done..|by repeat constructor].
  - specialize (IHa fds (next_pid w) Ht). destruct (plumb ev a _ _) as [l1 w1].
    specialize (IHb fds (add_log CWait w1) Ht). destruct (plumb ev b _ _) as [l2 w2]. by apply Forall_app.
  - specialize (IH fds (next_pid w) Ht). destruct (plumb ev a _ _) as [l1 w1].
    apply Forall_app; split; [done | by repeat constructor].
Qed.
End Run.

(** *** The text of a line *)

Lemma plain_word w : word_ok w → Forall plain w.
Proof.
  intros [_ H]. eapply Forall_impl; [exact H|]. intros c (H0 & Hw & _). split; [done|].
  split; intros ->; by vm_compute in Hw.
Qed.

Lemma pr_plain lvl a : ast_ok a → Forall plain (pr lvl a).
Proof.
  assert (Hp : ∀ b l, Forall plain l → Forall plain (paren b l)).
  { intros [] l Hl; [|done]. cbn. constructor; [done|]. apply Forall_app; split; [done|]. by constructor. }
  assert (Hw : ∀ w, word_ok w → Forall plain (pr_word w)).
  { intros w Hw. apply Forall_app; split; [by apply plain_word | by constructor]. }
  revert lvl. induction a as [ws|a IH d f|a IHa b IHb|a IHa b IHb|a IH]; intros lvl Hok; cbn [pr]; try apply Hp.
  - destruct Hok as [Hok _]. induction Hok as [|w ws Hwo _ IH]; [constructor|]. rewrite bind_cons.
    apply Forall_app; auto.
  - destruct Hok as [Ha Hf]. apply Forall_app; split; [auto|]. destruct d; (constructor; [done|]); (constructor; [done | by apply Hw]).
  - destruct Hok. repeat (apply Forall_app; split); auto. by constructor.
  - destruct Hok. repeat (apply Forall_app; split); auto. by constructor.
  - apply Forall_app; split; [auto | by constructor].
Qed.

Lemma pr_fits lvl a n : (length (pr lvl a) ≤ n)%nat → (n < SIZEOF_line)%nat → ast_fits a.
Proof.
  intros Hl Hn. revert lvl Hl. induction a as [ws|a IH d f|a IHa b IHb|a IHa b IHb|a IH]; intros lvl Hl; cbn [pr] in Hl.
  - cbn. induction ws as [|w ws IH]; constructor; rewrite bind_cons, length_app in Hl;
      [unfold pr_word in Hl; rewrite length_app in Hl; lia | apply IH; lia].
  - rewrite length_app in Hl. split; [apply (IH 3%nat); lia|].
    destruct d; cbn in Hl; unfold pr_word in Hl; rewrite length_app in Hl; lia.
  - assert (length (pr 3 a) ≤ n ∧ length (pr 2 b) ≤ n)%nat as [? ?].
    { unfold paren in Hl. destruct (_ <? _)%nat; cbn in Hl; rewrite ?length_app in Hl; cbn in Hl; lia. }
    split; eauto.
  - assert (length (pr 1 a) ≤ n ∧ length (pr 0 b) ≤ n)%nat as [? ?].
    { unfold paren in Hl. destruct (_ <? _)%nat; cbn in Hl; rewrite ?length_app in Hl; cbn in Hl; lia. }
    split; eauto.
  - apply (IH 1%nat). unfold paren in Hl. destruct (_ <? _)%nat; cbn in Hl; rewrite ?length_app in Hl; cbn in Hl; lia.
Qed.

Lemma shline_plain l : shline_ok l → Forall plain (shline_body l).
Proof.
  intros [_ H]. destruct l as [a|dir|b]; [by apply pr_plain; destruct H| |by destruct H].
  apply Forall_app; split; [by repeat constructor | done].
Qed.

(** The line in memory. *)
Lemma line_mem_cstr buf_at l : Forall (λ c, c ≠ 0) l → cstr (line_mem buf_at l) buf_at l.
Proof.
  intros H. apply cstr_mread. split_and!; [apply mread_put_bytes | | done].
  unfold line_mem. rewrite put_bytes_spec. by bool_cases.
Qed.

Lemma line_mem_at buf_at l i : 0 ≤ i → line_mem buf_at l (buf_at + i) = default 0 (l !! Z.to_nat i).
Proof.
  intros Hi. unfold line_mem. rewrite put_bytes_spec. replace (buf_at + i - buf_at) with i by lia.
  destruct (l !! Z.to_nat i) as [c|] eqn:E.
  - pose proof (lookup_lt_Some _ _ _ E). rewrite (list_lookup_total_correct _ _ _ E). by bool_cases.
  - apply lookup_ge_None_1 in E. by bool_cases.
Qed.

(** Whether the line starts with [cd]. *)
Lemma is_cd buf_at l :
  (line_mem buf_at l buf_at =? 99) && (line_mem buf_at l (buf_at + 1) =? 100) &&
    (line_mem buf_at l (buf_at + 2) =? 32) = bool_decide (take 3 l = CD).
Proof.
  rewrite <- (Z.add_0_r buf_at) at 2. rewrite !line_mem_at by lia. unfold CD.
  apply eq_true_iff_eq. rewrite !andb_true_iff, !Z.eqb_eq, bool_decide_eq_true.
  destruct l as [|a [|b [|c l]]]; cbn; naive_solver congruence.
Qed.

Lemma line_mem_hd buf_at l : line_mem buf_at l buf_at = hd 0 l.
Proof. rewrite <- (Z.add_0_r buf_at) at 2. rewrite line_mem_at by done. by destruct l. Qed.

(** A built-in command starts with an underscore. *)
Lemma builtin_hd b l : hd 0 (builtin_text b ++ l) = 95.
Proof. by destruct b as [| |[]|]. Qed.

(** *** Rounds of the shell *)

Section Session.
Context {ev : env}.
Hypothesis Hfork : ∀ n, e_fork ev n = true.
Variable buf_at : Z.

Definition take_line (k : nat) (w : world) : world := set_w_in (<[k := tail (w_in w !!! k : input)]> (w_in w)) w.

(** A line is read a byte at a time. *)
Lemma getline_rule n fds k body rest w :
  reads fds 0 k → (w_in w !!! k : input) = (body ++ [10]) :: rest → Forall plain body → (length body < n)%nat →
  eval ev (getline n) fds w [] (Some (body ++ [10], fds)) (take_line k w).
Proof using.
  intros Hr. revert n w. induction body as [|c body IH]; intros n w Hi Hp Hn; (destruct n as [|n]; [lia|]); cbn [getline].
  - eapply eval_sys; [done | by apply (scall_read _ _ _ _ _ Hr)|]. unfold take_line. rewrite !Hi.
    apply eval_mret.
  - apply Forall_cons in Hp as [(H0 & H1 & H2) Hp].
    eapply eval_sys; [done | by apply (scall_read _ _ _ _ _ Hr)|]. rewrite Hi.
    assert (Eu : uread 1 (((c :: body) ++ [10]) :: rest) = ([c], (body ++ [10]) :: rest)) by (by destruct body).
    rewrite Eu. cbn [fst snd]. set (w1 := set_w_in _ w).
    assert (E : (w_in w1 !!! k : input) = (body ++ [10]) :: rest) by apply lookup_total_insert_eq.
    destruct (Z.eqb_spec c 10); [done|]. destruct (Z.eqb_spec c 13); [done|]. cbn [orb].
    eapply eval_bind_nil; [apply (IH n w1 E Hp); cbn in Hn; lia|].
    replace (take_line k w) with (take_line k w1); [apply eval_mret|].
    unfold take_line. rewrite E, Hi. cbn [tail]. subst w1. unfold set_w_in. cbn [w_in w_out w_file w_next w_log].
    by rewrite insert_insert_eq.
Qed.

Lemma getline_eof n fds k w :
  reads fds 0 k → (w_in w !!! k : input) = [] → eval ev (getline (S n)) fds w [] (Some ([], fds)) (take_line k w).
Proof using.
  intros Hr Hi. cbn [getline]. eapply eval_sys; [done | by apply (scall_read _ _ _ _ _ Hr)|].
  unfold take_line. rewrite !Hi. apply eval_mret.
Qed.

Lemma getcmd_rule fds k l rest w :
  reads fds 0 k → (w_in w !!! k : input) = shline_text l :: rest → shline_ok l →
  eval ev (getcmd buf_at) fds w [] (Some ((shline_text l, 0), fds)) (asked k fds w).
Proof using.
  intros Hr Hi [Hl Ho]. pose proof (shline_plain l (conj Hl Ho)) as Hp. unfold getcmd.
  eapply eval_bind_nil; [apply eval_say|]. change (lit "$ " ≫= item_bytes) with (bytes_of "$ ").
  set (w1 := say fds 2 _ w). assert (Hi1 : (w_in w1 !!! k : input) = shline_text l :: rest).
  { rewrite <- Hi. subst w1. unfold say. destruct (ufd_get fds 2 ≫= o_dst); [by rewrite emit_in | done]. }
  unfold shline_text in Hl |- *. rewrite length_app in Hl. cbn [length] in Hl.
  eapply eval_bind_nil; [apply (getline_rule _ fds k _ rest w1 Hr Hi1 Hp); lia|].
  rewrite <- (Z.add_0_r buf_at) at 2. rewrite line_mem_at by done.
  assert (default 0 ((shline_body l ++ [10]) !! 0%nat) ≠ 0).
  { destruct (shline_body l); [done|]. apply Forall_cons in Hp as [[H _] _]. done. }
  destruct (Z.eqb_spec (default 0 ((shline_body l ++ [10]) !! Z.to_nat 0)) 0); [done|]. apply eval_mret.
Qed.

Lemma getcmd_eof fds k w :
  reads fds 0 k → (w_in w !!! k : input) = [] →
  eval ev (getcmd buf_at) fds w [] (Some (([], -1), fds)) (asked k fds w).
Proof using.
  intros Hr Hi. unfold getcmd. eapply eval_bind_nil; [apply eval_say|].
  change (lit "$ " ≫= item_bytes) with (bytes_of "$ ").
  eapply eval_bind_nil; [apply (getline_eof 98 fds k _ Hr)|].
  - unfold say. destruct (ufd_get fds 2 ≫= o_dst); [by rewrite emit_in | done].
  - apply eval_mret.
Qed.

Lemma run_line_rule a fds w :
  shline_ok (LCmd a) → tidy fds →
  eval ev (run_line buf_at (line_mem buf_at (shline_text (LCmd a)))) fds w (plumb ev a fds w).1 None (plumb ev a fds w).2.
Proof using Hfork.
  intros [Hl Ho] Ht. pose proof (shline_plain _ (conj Hl Ho)) as Hp. destruct Ho as [Ha _]. unfold run_line.
  unfold shline_text in *. cbn [shline_body] in *.
  destruct (parsecmd_text sh_fuel (line_mem buf_at (pr 0 a ++ [10])) buf_at a [10]) as (c & m' & -> & Hm); [done | done | | |].
  - apply line_mem_cstr, Forall_app. split; [|by repeat constructor]. eapply Forall_impl; [exact Hp|]. by intros c [? _].
  - unfold sh_fuel. lia.
  - rewrite length_app in Hl. apply (runcmd_rule Hfork m' c a Hm); [|done]. cbn [length] in Hl. apply (pr_fits 0 a (length (pr 0 a))); lia.
Qed.

(** The directory of [cd] is the rest of the line without its newline. *)
Lemma cd_dir dir :
  shline_ok (LCd dir) →
  let m := line_mem buf_at (shline_text (LCd dir)) in
  string_at (mupd m (buf_at + Z.of_nat (length (string_at m buf_at)) - 1) 0) (buf_at + 3) = dir.
Proof using.
  intros Hok m. assert (Hs : cstr m buf_at (CD ++ dir ++ [10])).
  { apply line_mem_cstr. pose proof (shline_plain _ Hok) as Hp. apply Forall_app in Hp as [_ Hp].
    apply Forall_app; split; [by repeat constructor|]. apply Forall_app; split; [|by repeat constructor].
    eapply Forall_impl; [exact Hp|]. by intros c [? _]. }
  destruct Hok as [Hl _]. unfold shline_text in Hl. cbn [shline_body] in Hl. rewrite <- app_assoc in Hl.
  rewrite (string_at_cstr _ _ _ Hs Hl). apply string_at_cstr.
  - replace (buf_at + _ - 1) with (buf_at + 3 + Z.of_nat (length dir)); [|rewrite !length_app; cbn; lia].
    by apply cstr_cut with [10], (cstr_drop _ _ CD).
  - rewrite !length_app in Hl. lia.
Qed.

Lemma sh_round_rule l rest fds k w :
  tidy fds → reads fds 0 k → (w_in w !!! k : input) = shline_text l :: rest → shline_ok l →
  eval ev (sh_round buf_at) fds w (round_of ev l fds (asked k fds w)).1 (Some (inl tt, fds))
    (round_of ev l fds (asked k fds w)).2.
Proof using Hfork.
  intros Ht Hr Hi Hok. unfold sh_round. eapply eval_bind_nil; [by apply (getcmd_rule fds k l rest w)|].
  cbv zeta. cbn [fst snd]. change (0 <? 0) with false. cbv iota. rewrite is_cd, line_mem_hd.
  destruct l as [a|dir|b].
  - rewrite bool_decide_eq_false_2 by apply Hok. rewrite (proj2 (Z.eqb_neq _ _)) by apply Hok. cbn [round_of].
    pose proof (run_line_rule a fds (next_pid (asked k fds w)) Hok Ht) as Hl.
    destruct (plumb ev a fds _) as [l1 w1]. cbn [fst snd] in *. rewrite <- (app_nil_r l1).
    eapply (eval_fork1 Hfork).
    + change (0 =? 0) with true. cbv iota. by apply eval_bind_stop.
    + destruct (Z.eqb_spec (Z.of_nat (w_next (asked k fds w)) + 1) 0); [lia|].
      eapply eval_sys; [done | reflexivity | apply eval_mret].
  - rewrite bool_decide_eq_true_2 by done. cbn [round_of fst snd].
    eapply eval_bind_nil; [|apply eval_mret]. unfold run_cd. rewrite cd_dir by done.
    eapply eval_sys; [done | reflexivity|].
    destruct (e_ret ev (CChdir dir) (w_log (asked k fds w)) <? 0); [apply eval_say | apply eval_mret].
  - pose proof (builtin_hd b [10]) as Hh. unfold shline_text. cbn [shline_body]. rewrite Hh.
    rewrite bool_decide_eq_false_2 by (unfold CD; destruct (builtin_text b ++ [10]); [done|]; cbn in Hh |- *; congruence).
    change (95 =? 95) with true. cbv iota. cbn [round_of fst snd]. eapply eval_bind_nil; [|apply eval_mret].
    pose proof (shline_plain _ Hok) as Hp. destruct Hok as [Hl Hb]. rewrite (string_at_cstr _ _ (builtin_text b ++ [10])).
    + by apply dobuiltin_rule.
    + apply line_mem_cstr, Forall_app. split; [|by repeat constructor]. eapply Forall_impl; [exact Hp|]. by intros c [? _].
    + exact Hl.
Qed.

(** What the shell still has to read stays as it is. *)
Lemma say_same fds fd l w : w_in (say fds fd l w) = w_in w ∧ w_next (say fds fd l w) = w_next w.
Proof using. unfold say. destruct (ufd_get fds fd ≫= o_dst); [|done]. by destruct l. Qed.

Lemma plumb_in a k fds w :
  (k < w_next w)%nat →
  (w_in (plumb ev a fds w).2 !!! k : input) = w_in w !!! k ∧ (w_next w ≤ w_next (plumb ev a fds w).2)%nat.
Proof using.
  revert fds w. induction a as [[|p ws]|a IH d f|a IHa b IHb|a IHa b IHb|a IH]; intros fds w Hk; cbn [plumb].
  - done.
  - destruct (e_exec ev p); [done|]. cbn [snd]. unfold complain.
    destruct (say_same fds 2 ((lit "exec " ++ [str p] ++ lit " failed" ++ [NL]) ≫= item_bytes) w) as [-> ->]. done.
  - destruct (e_open ev f (mode_of d)) as [t|].
    + destruct (opened t f (mode_of d) w) as [o w'] eqn:Eo.
      assert ((w_in w' !!! k : input) = w_in w !!! k ∧ (w_next w ≤ w_next w')%nat) as [E Hn].
      { destruct t as [o'|data]; injection Eo as <- <-; [done|]. cbn [add_file w_in w_next].
        rewrite lookup_total_insert_ne by lia. split; [done | lia]. }
      destruct (IH (<[fd_of d := Some o]> fds) w') as [-> H2]; [lia|]. split; [done | lia].
    + cbn [snd]. unfold complain. edestruct say_same as [-> ->]. done.
  - specialize (IHa (<[1%nat := Some (pipe_w (w_next w))]> fds) (next_pid (next_pid w))).
    destruct (plumb ev a _ _) as [l1 w1]. cbn [next_pid set_w_next w_in w_next snd] in IHa.
    specialize (IHb (<[0%nat := Some (pipe_r (w_next w))]> fds) (next_pid w1)).
    destruct (plumb ev b _ _) as [l2 w2]. cbn [next_pid set_w_next w_in w_next snd add_log] in *.
    destruct IHa as [E1 H1]; [lia|]. destruct IHb as [E2 H2]; [lia|]. rewrite E2, E1. split; [done | lia].
  - specialize (IHa fds (next_pid w)). destruct (plumb ev a _ _) as [l1 w1].
    specialize (IHb fds (add_log CWait w1)). destruct (plumb ev b _ _) as [l2 w2].
    cbn [next_pid set_w_next w_in w_next snd add_log] in *.
    destruct IHa as [E1 H1]; [lia|]. destruct IHb as [E2 H2]; [lia|]. rewrite E2, E1. split; [done | lia].
  - specialize (IH fds (next_pid w)). destruct (plumb ev a _ _) as [l1 w1].
    cbn [next_pid set_w_next w_in w_next snd] in *. destruct IH as [-> H1]; [lia|]. split; [done | lia].
Qed.

Lemma asked_in k fds w :
  (w_in (asked k fds w) !!! k : input) = tail (w_in w !!! k : input) ∧ w_next (asked k fds w) = w_next w.
Proof using.
  unfold asked. cbn [set_w_in w_in w_next]. rewrite lookup_total_insert_eq.
  destruct (say_same fds 2 (bytes_of "$ ") w) as [-> ->]. done.
Qed.

Lemma round_in l k fds w :
  (k < w_next w)%nat →
  (w_in (round_of ev l fds w).2 !!! k : input) = w_in w !!! k ∧ (w_next w ≤ w_next (round_of ev l fds w).2)%nat.
Proof using.
  intros Hk. destruct l as [a|dir|b]; cbn [round_of].
  - destruct (plumb_in a k fds (next_pid w)) as [E H]; [cbn; lia|]. destruct (plumb ev a fds (next_pid w)).
    cbn [next_pid set_w_next w_in w_next snd add_log] in *. split; [done | lia].
  - cbn [snd]. destruct (_ <? 0); [|done]. edestruct say_same as [-> ->]. done.
  - cbn [snd]. by destruct (builtin_done_same ev b fds w) as [-> ->].
Qed.

(** The loop of [main] ends with the input. *)
Lemma session_rule ls fds k w :
  tidy fds → reads fds 0 k → (k < w_next w)%nat → (w_in w !!! k : input) = shline_text <$> ls →
  Forall shline_ok ls →
  ∃ l, (session ev k ls fds w).1 = l ++ [(Exited, fds)] ∧ Forall no_leak l ∧
    eval ev (ITree.iter (fun _ : unit => sh_round buf_at) tt) fds w l (Some (tt, fds)) (session ev k ls fds w).2.
Proof using Hfork.
  intros Ht Hr. revert w. induction ls as [|l ls IH]; intros w Hk Hi Hok; cbn [session].
  - exists []. split; [done|]. split; [done|].
    apply (eval_iter _ _ _ _ [] (inr tt) fds (asked k fds w) []); [|apply eval_mret].
    eapply eval_bind_nil; [by apply (getcmd_eof fds k w) | apply eval_mret].
  - apply Forall_cons in Hok as [Hl Hok]. destruct (asked_in k fds w) as [Ea En].
    pose proof (sh_round_rule l (map shline_text ls) fds k w Ht Hr Hi Hl) as Hround.
    destruct (round_in l k fds (asked k fds w)) as [E1 H1]; [lia|].
    assert (Hn : Forall no_leak (round_of ev l fds (asked k fds w)).1).
    { destruct l as [a|dir|b]; [|done..]. pose proof (plumb_no_leak (ev := ev) a fds (next_pid (asked k fds w)) Ht).
      cbn [round_of]. by destruct (plumb ev a fds _). }
    destruct (round_of ev l fds (asked k fds w)) as [l1 w1]. cbn [fst snd] in *.
    destruct (IH w1) as (l2 & E2 & Hn2 & H2); [lia | rewrite E1, Ea, Hi; done | done |].
    destruct (session ev k ls fds w1) as [l2' w2]. cbn [fst snd] in *. subst l2'.
    exists (l1 ++ l2). split; [apply app_assoc|]. split; [by apply Forall_app|].
    by eapply eval_iter; [exact Hround | exact H2].
Qed.

(** The console is open already: the descriptor [main] gets for it is closed again. *)
Lemma sh_open_rule con fds w :
  tidy fds → e_open ev console_name O_RDWR = Some (TDev con) →
  eval ev sh_open fds w [] (Some (tt, fds)) w.
Proof using.
  intros (a & b & c & ->) Ho. apply (eval_iter _ _ _ _ [] (inr tt) (without_pipe a b c) w []); [|apply eval_mret].
  eapply eval_sys; [done | cbn [scall]; rewrite Ho; reflexivity|].
  eapply eval_sys; [done | reflexivity | apply eval_mret].
Qed.
End Session.

(** ** Theorems *)

(** A command line runs the processes it describes: for a line that parses to [a],
    [run_line] (what the child of the shell does: [parsecmd], then [runcmd]) executes exactly
    the programs of [plumb], each with its arguments and its descriptors: redirections in
    place, the ends of each pipe connected and every other copy of them closed. *)
Theorem run_line_correct ev buf_at a fds w :
  (∀ n, e_fork ev n = true) → shline_ok (LCmd a) → tidy fds →
  Forall no_leak (plumb ev a fds w).1 ∧
  ∃ n, ∀ fuel, (n ≤ fuel)%nat →
    run ev fuel (run_line buf_at (line_mem buf_at (shline_text (LCmd a)))) fds w =
      Ok ((plumb ev a fds w).1, None, (plumb ev a fds w).2).
Proof.
  intros Hf Hok Ht. split; [by apply plumb_no_leak|]. by apply eval_run, run_line_rule.
Qed.

(** C18: A session with the shell: [main] prompts, reads a line, runs its command in a child
    and waits for it, changes the directory, or sets or shows the user or group id in the
    shell itself, line after line in order, and exits at the end of the input; no program it executes has more than its three standard descriptors. *)
Theorem sh_main_correct ev buf_at ls con k fds w :
  (∀ n, e_fork ev n = true) → e_open ev console_name O_RDWR = Some (TDev con) →
  tidy fds → reads fds 0 k → (k < w_next w)%nat → (w_in w !!! k : input) = shline_text <$> ls →
  Forall shline_ok ls →
  Forall no_leak (session ev k ls fds w).1 ∧
  ∃ n, ∀ fuel, (n ≤ fuel)%nat →
    run ev fuel (sh_main buf_at) fds w = Ok ((session ev k ls fds w).1, None, (session ev k ls fds w).2).
Proof.
  intros Hf Ho Ht Hr Hk Hi Hok. destruct (session_rule Hf buf_at ls fds k w Ht Hr Hk Hi Hok) as (l & E & Hn & H).
  rewrite E. split; [apply Forall_app; split; [done | by repeat constructor]|].
  apply eval_run. unfold sh_main. eapply eval_bind_nil; [by eapply sh_open_rule|].
  eapply eval_bind; [exact H | apply eval_exit].
Qed.

(** *** A session *)

(** Everything can be executed and opened but the program [z] and the file [q]. *)
Definition demo_env : env :=
  mkEnv (λ path _, if bool_decide (path = console_name) then Some (TDev (mkObj (Some 0%nat) (Some 0%nat)))
                   else if bool_decide (path = [113]) then None else Some (TFile []))
        (λ path, negb (bool_decide (path = [122]))) (λ _, true) (λ _ _, 0) (λ _ _, None) None (λ _, (0, [])).

Definition demo_fds : fdtable :=
  Some (mkObj (Some 0%nat) None) :: Some (mkObj None (Some 0%nat)) :: Some (mkObj None (Some 1%nat)) ::
  replicate (NOFILE - 3) None.

(** [(a <f |b c >g )&;d], [cd e], [z], [_set  uid 42 x], [_getgid], [_get pid], [_]. *)
Definition demo_lines : list shline :=
  [LCmd sample_ast; LCd [101]; LCmd (AExec [[122]])] ++
  [LBuiltin (BSet 2 Uid 1 [52; 50] [32; 120]);
   LBuiltin (BGet 0 Gid []); LBuiltin (BBad VGet 1 (bytes_of "pid")); LBuiltin (BNone [])].

Definition demo_world : world := mkWorld {[0%nat := map shline_text demo_lines]} ∅ ∅ 2 [].

Lemma demo_lines_ok : Forall shline_ok demo_lines.
Proof.
  apply Forall_app; split.
  - repeat (constructor || split || discriminate); try (vm_compute; lia); try (cbn; lia); by vm_compute.
  - assert (Hp : ∀ l, forallb (λ c, negb (c =? 0) && negb (c =? 10) && negb (c =? 13)) l = true → Forall plain l).
    { intros l. induction l as [|c l IH]; [constructor|]. cbn [forallb].
      rewrite !andb_true_iff, !negb_true_iff, !Z.eqb_neq. intros [[[? ?] ?] ?]. constructor; [done | auto]. }
    repeat (apply Forall_cons; split); [..|constructor]; (split; [vm_compute; lia|]); (split; [by apply Hp|]).
    + split_and!; [|cbn; lia|done|unfold digit; lia]. repeat constructor; unfold digit; lia.
    + done.
    + split; [done|]. intros [] [k Hk]; done.
    + intros [] [k Hk]; done.
Qed.

Lemma run_line_correct_witness :
  ∃ n, run demo_env n (run_line 1000 (line_mem 1000 (shline_text (LCmd sample_ast)))) demo_fds demo_world =
    Ok ((plumb demo_env sample_ast demo_fds demo_world).1, None, (plumb demo_env sample_ast demo_fds demo_world).2).
Proof.
  pose proof demo_lines_ok as H. inversion_clear H as [|? ? Hl _].
  destruct (run_line_correct demo_env 1000 sample_ast demo_fds demo_world) as (_ & n & Hn).
  - reflexivity.
  - exact Hl.
  - repeat eexists.
  - exists n. apply Hn. lia.
Defined.

Lemma sh_main_correct_witness :
  ∃ n, run demo_env n (sh_main 1000) demo_fds demo_world =
    Ok ((session demo_env 0 demo_lines demo_fds demo_world).1, None, (session demo_env 0 demo_lines demo_fds demo_world).2).
Proof.
  destruct (sh_main_correct demo_env 1000 demo_lines (mkObj (Some 0%nat) (Some 0%nat)) 0 demo_fds demo_world) as (_ & n & Hn).
  - reflexivity.
  - reflexivity.
  - repeat eexists.
  - repeat eexists.
  - cbn. lia.
  - reflexivity.
  - apply demo_lines_ok.
  - exists n. apply Hn. lia.
Defined.

(** The programs the session executes, with their descriptors. *)
Example demo_session :
  (session demo_env 0 demo_lines demo_fds demo_world).1.*1 =
    [Execed [97] [[97]]; Execed [98] [[98]; [99]]; Exited; Exited; Execed [100] [[100]]; Exited; Exited].
Proof. vm_compute. reflexivity. Qed.

(** The calls it makes besides, and what it says last on standard error. *)
Example demo_calls :
  let w := (session demo_env 0 demo_lines demo_fds demo_world).2 in
  w_log w = [CWait; CWait; CWait; CWait; CChdir [101]; CWait; CSetuid 42; CGetgid] ∧
  drop 20 (w_out w !!! 1%nat) =
    bytes_of "$ $ 0" ++ [10] ++ bytes_of "$ Invalid _get parameter" ++ [10] ++ bytes_of "$ $ ".
Proof. by vm_compute. Qed.
