(* ===== verification/Ls.v ===== *)
(** * ls

    Models src/ls.c and src/print_mode.c, and [stat] of src/ulib.c.  The theorem says that
    listing a directory prints a line for every entry in use, in the order of the directory,
    with the name padded or cut as [fmtname] does. *)

From ITree Require Import Core.ITreeDefinition.
From S2P Require Import Prelude Param KString Digits Ulib Printf Grep Cmos ProcCommon Fs User Programs Sh ShRun.
Local Open Scope Z_scope.

(** ** Definitions *)

(** [stat(n, &st)]. *)
Definition stat (path : list Z) : prog (option ustat) :=
  fd ← sys (SOpen path O_RDONLY);
  if fd <? 0 then mret None
  else r ← sys (SFstat fd); sys (SClose fd);; mret r.

(** [for(p=path+strlen(path); p >= path && *p != '/'; p--)], then [p++]: the index of [p]. *)
Fixpoint after_slash (path : list Z) (k : nat) : nat :=
  if default 0 (path !! k) =? 47 then S k
  else match k with O => O | S k' => after_slash path k' end.

Definition fmtname (path : list Z) : list Z :=
  let p := drop (after_slash path (length path)) path in
  if DIRSIZ <=? Z.of_nat (length p) then p
  else p ++ replicate (Z.to_nat DIRSIZ - length p) 32.

(** The bits of [union state_mode_t]. *)
Definition o_x : Z := 0.
Definition o_w : Z := 1.
Definition o_r : Z := 2.
Definition g_x : Z := 3.
Definition g_w : Z := 4.
Definition g_r : Z := 5.
Definition u_x : Z := 6.
Definition u_w : Z := 7.
Definition u_r : Z := 8.
Definition setuid : Z := 9.
Definition flag (st : ustat) (bit : Z) : bool := Z.testbit (st_mode st) bit.

Definition print_flag (b : bool) (yes : string) : prog unit := uprintf 1 (lit (if b then yes else "-")).

Definition print_mode (st : ustat) : prog unit :=
  (if st_type st =? T_DIR then uprintf 1 (lit "d")
   else if st_type st =? T_FILE then uprintf 1 (lit "-")
   else if st_type st =? T_DEV then uprintf 1 (lit "c")
   else uprintf 1 (lit "?"));;
  print_flag (flag st u_r) "r";;
  print_flag (flag st u_w) "w";;
  (if flag st u_x && flag st setuid then uprintf 1 (lit "S") else print_flag (flag st u_x) "x");;
  print_flag (flag st g_r) "r";;
  print_flag (flag st g_w) "w";;
  print_flag (flag st g_x) "x";;
  print_flag (flag st o_r) "r";;
  print_flag (flag st o_w) "w";;
  print_flag (flag st o_x) "x".

Definition ls_header : list item :=
  lit "mode" ++ [TAB; TAB] ++ lit "name" ++ [TAB] ++ lit "uid" ++ [TAB] ++ lit "gid" ++ [TAB] ++
  lit "inode" ++ [TAB] ++ lit "size" ++ [NL].

(** The line of a file. *)
Definition ls_line (path : list Z) (st : ustat) : prog unit :=
  print_mode st;;
  uprintf 1 [ILit 32; str (fmtname path); IDec (st_uid st); TAB; IDec (st_gid st); TAB; IDec (st_ino st); TAB;
             IDec (st_size st); NL].

(** [struct dirent]: the inode number and the name. *)
Definition de_inum (de : list Z) : Z := de !!! 0%nat + 256 * de !!! 1%nat.
Definition de_name (de : list Z) : list Z := drop 2 de.

(** The bytes before the first NUL. *)
Fixpoint before_nul (l : list Z) : list Z :=
  match l with
  | [] => []
  | c :: l' => if c =? 0 then [] else c :: before_nul l'
  end.

(** The loop over the entries; [buf] is the path, a slash and the name. *)
Definition ls_loop (fd : Z) (path : list Z) : prog unit :=
  ITree.iter (fun _ : unit =>
    r ← sys (SRead fd SIZEOF_dirent);
    match r with
    | Some de =>
        if Z.of_nat (length de) =? SIZEOF_dirent then
          if de_inum de =? 0 then mret (inl tt)
          else
            let buf := path ++ [47] ++ before_nul (take (Z.to_nat DIRSIZ) (de_name de)) in
            st ← stat buf;
            (match st with
             | None => uprintf 1 (lit "ls: cannot stat " ++ [str buf; NL])
             | Some st => ls_line buf st
             end);;
            mret (inl tt)
        else mret (inr tt)
    | None => mret (inr tt)
    end) tt.

Definition ls (path : list Z) : prog unit :=
  fd ← sys (SOpen path 0);
  if fd <? 0 then uprintf 2 (lit "ls: cannot open " ++ [str path; NL])
  else
    st ← sys (SFstat fd);
    match st with
    | None => uprintf 2 (lit "ls: cannot stat " ++ [str path; NL]);; sys (SClose fd);; mret tt
    | Some st =>
        (if st_type st =? T_FILE then uprintf 1 ls_header;; ls_line path st
         else if st_type st =? T_DIR then
           if Z.of_nat (length path) + 1 + DIRSIZ + 1 >? 512 then uprintf 1 (lit "ls: path too long" ++ [NL])
           else uprintf 1 ls_header;; ls_loop fd path
         else mret tt);;
        sys (SClose fd);; mret tt
    end.

Definition ls_main (argv : list (list Z)) : prog Empty_set :=
  if (length argv <? 2)%nat then ls [46];; exit
  else each (tail argv) ls;; exit.

(** *** What [ls] prints *)

Definition letter (b : bool) (c : Z) : Z := if b then c else 45.

Definition mode_bytes (st : ustat) : list Z :=
  [if st_type st =? T_DIR then 100 else if st_type st =? T_FILE then 45 else if st_type st =? T_DEV then 99 else 63;
   letter (flag st u_r) 114; letter (flag st u_w) 119;
   (if flag st setuid then letter (flag st u_x) 83 else letter (flag st u_x) 120);
   letter (flag st g_r) 114; letter (flag st g_w) 119; letter (flag st g_x) 120;
   letter (flag st o_r) 114; letter (flag st o_w) 119; letter (flag st o_x) 120].

(** The name in a column of at least fourteen. *)
Definition column (name : list Z) : list Z := name ++ replicate (Z.to_nat DIRSIZ - length name) 32.

(** The line for the file [name]. *)
Definition line_bytes (name : list Z) (st : ustat) : list Z :=
  mode_bytes st ++ [32] ++ column name ++
  ([IDec (st_uid st); TAB; IDec (st_gid st); TAB; IDec (st_ino st); TAB; IDec (st_size st); NL] ≫= item_bytes).

(** An entry of a directory: the inode number, 0 if it is not in use, and the name. *)
Definition entry : Type := Z * list Z.
Definition entry_ok (e : entry) : Prop :=
  0 ≤ e.1 < 65536 ∧ Z.of_nat (length e.2) ≤ DIRSIZ ∧ Forall (λ c, c ≠ 0 ∧ c ≠ 47) e.2.
Definition de_bytes (e : entry) : list Z :=
  [e.1 mod 256; e.1 / 256] ++ e.2 ++ replicate (Z.to_nat DIRSIZ - length e.2) 0.

Definition child (path : list Z) (e : entry) : list Z := path ++ [47] ++ e.2.

Definition entry_text (stat_of : list Z → option ustat) (path : list Z) (e : entry) : list Z :=
  if e.1 =? 0 then []
  else match stat_of (child path e) with
       | Some st => line_bytes e.2 st
       | None => bytes_of "ls: cannot stat " ++ child path e ++ [10]
       end.

(** The file system as [ls] sees it: files in the directory that can be opened have a
    status, the others cannot be opened. *)
Definition file_status (ev : env) (stat_of : list Z → option ustat) (p : list Z) : Prop :=
  match stat_of p with
  | Some st => (∃ data, e_open ev p 0 = Some (TFile data)) ∧ ∀ o, e_stat ev o (Some p) = Some st
  | None => e_open ev p 0 = None
  end.

(** ** Lemmas *)

Lemma after_slash_spec a b k :
  Forall (λ c, c ≠ 47) b → (k ≤ length b)%nat →
  after_slash (a ++ 47 :: b) (S (length a) + k) = S (length a).
Proof.
  intros Hb. induction k as [|k IH]; intros Hk.
  - rewrite Nat.add_0_r. cbn [after_slash]. rewrite lookup_app_r by lia.
    replace (S (length a) - length a)%nat with 1%nat by lia.
    change ((47 :: b) !! 1%nat) with (b !! 0%nat).
    assert ((default 0 (b !! 0%nat) =? 47) = false) as ->.
    { destruct b as [|c b]; [done|]. apply Forall_cons in Hb as [Hc _]. by apply Z.eqb_neq. }
    destruct (length a) as [|n] eqn:El; cbn [after_slash].
    + destruct a; [done | discriminate].
    + rewrite lookup_app_r by lia. rewrite El, Nat.sub_diag. done.
  - rewrite Nat.add_succ_r. cbn [after_slash]. rewrite lookup_app_r by lia.
    replace (S (S (length a) + k) - length a)%nat with (S (S k)) by lia.
    change ((47 :: b) !! S (S k)) with (b !! S k).
    assert ((default 0 (b !! S k) =? 47) = false) as ->; [|by apply IH; lia].
    destruct (b !! S k) as [c|] eqn:E; [|done]. apply Z.eqb_neq. by eapply Forall_lookup_1 in Hb.
Qed.

(** [fmtname] of a file in a directory. *)
Lemma fmtname_child path e : entry_ok e → fmtname (child path e) = column e.2.
Proof.
  intros (_ & Hl & Hn). assert (Hb : Forall (λ c, c ≠ 47) e.2).
  { eapply Forall_impl; [exact Hn|]. by intros c [_ ?]. }
  unfold fmtname, child. cbn [app]. rewrite length_app. cbn [length].
  replace (length path + S (length e.2))%nat with (S (length path) + length e.2)%nat by lia.
  rewrite after_slash_spec by done.
  replace (drop (S (length path)) (path ++ 47 :: e.2)) with e.2.
  2:{ rewrite drop_app_ge by lia. by replace (S (length path) - length path)%nat with 1%nat by lia. }
  unfold column. destruct (Z.leb_spec DIRSIZ (Z.of_nat (length e.2))); [|done].
  replace (Z.to_nat DIRSIZ - length e.2)%nat with 0%nat by lia. by rewrite app_nil_r.
Qed.

Lemma length_de_bytes e : entry_ok e → length (de_bytes e) = 16%nat.
Proof. intros (_ & Hl & _). unfold de_bytes. rewrite !length_app, length_replicate. unfold DIRSIZ in *. cbn. lia. Qed.

Lemma de_inum_bytes e : entry_ok e → de_inum (de_bytes e) = e.1.
Proof. intros (H & _). unfold de_inum, de_bytes. cbn. zmod_lia. Qed.

Lemma before_nul_app l r : Forall (λ c, c ≠ 0) l → before_nul (l ++ 0 :: r) = l ∧ before_nul l = l.
Proof.
  induction 1 as [|c l Hc _ [IH1 IH2]]; [done|]. cbn. apply Z.eqb_neq in Hc as ->. by rewrite IH1, IH2.
Qed.

Lemma de_name_bytes e : entry_ok e → before_nul (take (Z.to_nat DIRSIZ) (de_name (de_bytes e))) = e.2.
Proof.
  intros (_ & Hl & Hn). assert (Hb : Forall (λ c, c ≠ 0) e.2).
  { eapply Forall_impl; [exact Hn|]. by intros c [? _]. }
  unfold de_name, de_bytes. change (drop 2 ([?a; ?b] ++ ?l)) with l. rewrite take_ge by (rewrite length_app, length_replicate; lia).
  destruct (Z.to_nat DIRSIZ - length e.2)%nat as [|n]; cbn [replicate];
    [rewrite app_nil_r; by apply (before_nul_app _ []) | by apply before_nul_app].
Qed.

Section Run.
Context {ev : env}.

Lemma print_flag_rule fds k b s w :
  writes fds 1 k →
  eval ev (print_flag b s) fds w [] (Some (tt, fds)) (emit k (bytes_of (if b then s else "-")) w).
Proof. intros (o & Ho & Hk). rewrite <- lit_bytes. by apply (eval_uprintf 1 k o). Qed.

Lemma print_mode_rule fds k st w :
  writes fds 1 k → eval ev (print_mode st) fds w [] (Some (tt, fds)) (emit k (mode_bytes st) w).
Proof.
  intros Hw. pose proof Hw as (o & Ho & Hk). unfold print_mode.
  assert (Hlit : ∀ s w, eval ev (uprintf 1 (lit s)) fds w [] (Some (tt, fds)) (emit k (bytes_of s) w)).
  { intros s w'. by apply (print_flag_rule fds k true s). }
  eapply eval_bind_nil.
  { instantiate (1 := emit k [if st_type st =? T_DIR then 100 else if st_type st =? T_FILE then 45
      else if st_type st =? T_DEV then 99 else 63] w). instantiate (1 := fds). instantiate (1 := tt).
    repeat case_match; apply Hlit. }
  do 2 (eapply eval_bind_nil; [by apply print_flag_rule|]). eapply eval_bind_nil.
  { match goal with |- eval _ _ _ ?w _ _ _ => instantiate (1 := emit k
      [if flag st setuid then letter (flag st u_x) 83 else letter (flag st u_x) 120] w) end.
    instantiate (1 := fds). instantiate (1 := tt).
    destruct (flag st u_x), (flag st setuid); cbn [andb]; first [apply Hlit | by apply (print_flag_rule fds k true)
      | by apply (print_flag_rule fds k false)]. }
  do 5 (eapply eval_bind_nil; [by apply print_flag_rule|]).
  match goal with |- eval _ _ _ ?w _ _ ?w' => replace w' with
    (emit k (bytes_of (if flag st o_x then "x" else "-")) w); [by apply print_flag_rule|] end.
  rewrite !emit_emit. f_equal. unfold mode_bytes, letter. cbn [app].
  destruct (flag st u_r), (flag st u_w), (flag st g_r), (flag st g_w), (flag st g_x), (flag st o_r), (flag st o_w), (flag st o_x); done.
Qed.

Lemma ls_line_rule fds k path e st w :
  writes fds 1 k → entry_ok e →
  eval ev (ls_line (child path e) st) fds w [] (Some (tt, fds)) (emit k (line_bytes e.2 st) w).
Proof.
  intros Hw He. pose proof Hw as (o & Ho & Hk). unfold ls_line. rewrite fmtname_child by done.
  eapply eval_bind_nil; [by apply print_mode_rule|].
  match goal with |- eval _ (uprintf 1 ?its) _ ?w _ _ ?w' => replace w' with (emit k (its ≫= item_bytes) w);
    [by apply (eval_uprintf 1 k o)|] end.
  rewrite emit_emit. f_equal.
Qed.

(** A world that has changed in nothing but new streams. *)
Definition keeps (w w' : world) : Prop :=
  w_out w' = w_out w ∧ (w_next w ≤ w_next w')%nat ∧
  ∀ n, (n < w_next w)%nat → (w_in w' !!! n : input) = w_in w !!! n.

Lemma keeps_add_file p data w : keeps w (add_file p data w).
Proof.
  split_and!; [done | cbn; lia |]. intros n Hn. cbn [add_file w_in]. rewrite lookup_total_insert_ne; [done | lia].
Qed.

Lemma scall_fstat_open fds fd n o p data w :
  ufd_get fds fd = Some o → o_src o = Some n → n = w_next w →
  scall ev (SFstat fd) fds (add_file p data w) = Answer (e_stat ev o (Some p)) fds (add_file p data w).
Proof.
  intros Ho Hn ->. cbn [scall]. rewrite Ho. cbn [mbind option_bind]. rewrite Hn. cbn [mbind option_bind add_file w_file].
  by rewrite lookup_insert_eq.
Qed.

Lemma stat_rule stat_of p fds w :
  None ∈ fds → file_status ev stat_of p →
  ∃ w', eval ev (stat p) fds w [] (Some (stat_of p, fds)) w' ∧ keeps w w'.
Proof.
  intros Hn Hs. unfold file_status in Hs. unfold stat. change O_RDONLY with 0. destruct (stat_of p) as [st|].
  - destruct Hs as ([data Ho] & Hst).
    destruct (scall_open (ev := ev) fds p data w Ho Hn) as (fd & fds' & E & Hfd & (o & Hg & Hsrc) & _ & Hc).
    exists (add_file p data w). split; [|apply keeps_add_file].
    eapply eval_sys; [done | exact E|]. destruct (Z.ltb_spec fd 0); [lia|].
    eapply eval_sys; [done | by eapply scall_fstat_open|].
    eapply eval_sys; [done | apply Hc|]. rewrite Hst. apply eval_mret.
  - exists w. split; [|by split_and!]. eapply eval_sys; [done | cbn [scall]; rewrite Hs; reflexivity|]. apply eval_mret.
Qed.

(** One round of the loop over the entries. *)
Lemma ls_entry_rule stat_of path e es fds fd n k w :
  reads fds fd n → writes fds 1 k → None ∈ fds → (n < w_next w)%nat → entry_ok e →
  (e.1 ≠ 0 → file_status ev stat_of (child path e)) →
  (w_in w !!! n : input) = file_input (de_bytes e ++ concat (map de_bytes es)) →
  (∀ w', (n < w_next w')%nat → (w_in w' !!! n : input) = file_input (concat (map de_bytes es)) →
     ∃ w'', eval ev (ls_loop fd path) fds w' [] (Some (tt, fds)) w'' ∧
       w_out w'' !!! k = w_out w' !!! k ++ concat (map (entry_text stat_of path) es)) →
  ∃ w'', eval ev (ls_loop fd path) fds w [] (Some (tt, fds)) w'' ∧
    w_out w'' !!! k = w_out w !!! k ++ entry_text stat_of path e ++ concat (map (entry_text stat_of path) es).
Proof.
  intros Hr Hw Hf Hn He Hst Hi IH. pose proof Hw as (o & Ho & Hk).
  set (w1 := set_w_in (<[n := file_input (concat (map de_bytes es))]> (w_in w)) w).
  assert (Hi1 : (w_in w1 !!! n : input) = file_input (concat (map de_bytes es))) by apply lookup_total_insert_eq.
  assert (Hread : scall ev (SRead fd SIZEOF_dirent) fds w = Answer (Some (de_bytes e)) fds w1).
  { rewrite (scall_read _ _ n) by done. rewrite !Hi, !uread_file by done. cbn [fst snd].
    change (Z.to_nat SIZEOF_dirent) with 16%nat. rewrite take_app_length', drop_app_length' by (by rewrite length_de_bytes).
    done. }
  unfold entry_text. destruct (Z.eqb_spec e.1 0) as [E0|E0].
  - destruct (IH w1) as (w'' & H & E); [done..|]. exists w''. split; [|exact E].
    apply (eval_iter _ _ _ _ [] (inl tt) fds w1 []); [|exact H]. eapply eval_sys; [done | exact Hread|].
    cbv iota beta. rewrite length_de_bytes, de_inum_bytes, E0 by done. apply eval_mret.
  - destruct (stat_rule stat_of (child path e) fds w1 Hf (Hst E0)) as (w2 & H2 & Eo & Hx & Hin).
    set (txt := match stat_of (child path e) with Some st => line_bytes e.2 st | None => _ end).
    destruct (IH (emit k txt w2)) as (w'' & H & E).
    { assert (w_next (emit k txt w2) = w_next w2) as -> by (by destruct txt). cbn in Hx. lia. }
    { rewrite emit_in, Hin by done. exact Hi1. }
    exists w''. split; [|rewrite E, emit_out, Eo, <- app_assoc; done].
    apply (eval_iter _ _ _ _ [] (inl tt) fds (emit k txt w2) []); [|exact H]. eapply eval_sys; [done | exact Hread|].
    cbv iota beta. rewrite length_de_bytes, de_inum_bytes, de_name_bytes by done.
    destruct (Z.eqb_spec e.1 0); [done|]. change (Z.of_nat 16 =? SIZEOF_dirent) with true. cbv iota zeta.
    eapply eval_bind_nil; [exact H2|]. eapply eval_bind_nil; [|apply eval_mret]. fold (child path e). subst txt.
    destruct (stat_of (child path e)) as [st|]; [by apply ls_line_rule|].
    replace (bytes_of _ ++ _) with ((lit "ls: cannot stat " ++ [str (child path e); NL]) ≫= item_bytes);
      [by apply (eval_uprintf 1 k o)|].
    rewrite bind_app, lit_bytes. cbn. by rewrite ?app_nil_r.
Qed.

Lemma ls_loop_rule stat_of path es fds fd n k w :
  reads fds fd n → writes fds 1 k → None ∈ fds → (n < w_next w)%nat → Forall entry_ok es →
  Forall (λ e, e.1 ≠ 0 → file_status ev stat_of (child path e)) es →
  (w_in w !!! n : input) = file_input (concat (map de_bytes es)) →
  ∃ w', eval ev (ls_loop fd path) fds w [] (Some (tt, fds)) w' ∧
    w_out w' !!! k = w_out w !!! k ++ concat (map (entry_text stat_of path) es).
Proof.
  intros Hr Hw Hf Hn Hes Hst. revert w Hn. induction Hes as [|e es He Hes IH]; intros w Hn Hi.
  - exists (set_w_in (<[n := []]> (w_in w)) w). split; [|symmetry; apply app_nil_r].
    apply (eval_iter _ _ _ _ [] (inr tt) fds (set_w_in (<[n := []]> (w_in w)) w) []); [|apply eval_mret].
    eapply eval_sys; [done | by apply (scall_read _ _ n)|]. rewrite !Hi. apply eval_mret.
  - apply Forall_cons in Hst as [He' Hst]. eapply ls_entry_rule; [done.. | exact He' | exact Hi |].
    intros w' Hn' Hi'. by apply IH.
Qed.

Lemma ls_dir_rule stat_of path st es fds k w :
  tidy fds → writes fds 1 k → Z.of_nat (length path) + 1 + DIRSIZ + 1 ≤ 512 →
  e_open ev path 0 = Some (TFile (file_input (concat (map de_bytes es)))) →
  (∀ o, e_stat ev o (Some path) = Some st) → st_type st = T_DIR →
  Forall entry_ok es → Forall (λ e, e.1 ≠ 0 → file_status ev stat_of (child path e)) es →
  ∃ w', eval ev (ls path) fds w [] (Some (tt, fds)) w' ∧
    w_out w' !!! k = w_out w !!! k ++ (ls_header ≫= item_bytes) ++ concat (map (entry_text stat_of path) es).
Proof.
  intros (a & b & c & ->) Hw Hl Ho Hs Ht Hes Hst. set (fds := _ :: _ :: _ :: _) in *.
  destruct (scall_open (ev := ev) fds path _ w Ho) as (fd & fds' & E & Hfd & Hr & Hk & Hc).
  { subst fds. apply list_elem_of_lookup. by exists 3%nat. }
  assert (Hf : None ∈ fds').
  { cbn [scall] in E. rewrite Ho in E. injection E as _ <-. apply list_elem_of_lookup. by exists 4%nat. }
  set (w1 := add_file path _ w) in *. apply Hk in Hw as Hw'. pose proof Hw' as (o & Hg & Hd).
  pose proof Hr as (od & Hgd & Hsd).
  destruct (ls_loop_rule stat_of path es fds' fd (w_next w) k (emit k (ls_header ≫= item_bytes) w1)) as (w2 & H2 & E2);
    [done.. | by cbn; lia | done | done | |].
  { rewrite emit_in. subst w1. cbn [add_file w_in]. apply lookup_total_insert_eq. }
  exists w2. split; [|by rewrite E2, emit_out, <- app_assoc].
  eapply eval_sys; [done | exact E|]. destruct (Z.ltb_spec fd 0); [lia|].
  eapply eval_sys; [done | by apply (scall_fstat_open fds' fd (w_next w) od)|]. rewrite Hs. cbv iota beta. rewrite Ht.
  change (T_DIR =? T_FILE) with false. change (T_DIR =? T_DIR) with true. cbv iota.
  destruct (Z.gtb_spec (Z.of_nat (length path) + 1 + DIRSIZ + 1) 512); [lia|].
  eapply eval_bind_nil; [eapply eval_bind_nil; [by apply (eval_uprintf 1 k o) | exact H2]|].
  eapply eval_sys; [done | apply Hc | apply eval_mret].
Qed.
End Run.

(** ** Theorems *)

(** C39: [ls] of a directory prints the header and then, for every entry in use and in the order
    of the directory, a line with the permissions, the name in its column, the owner, the
    group, the inode number and the size, or a message for a file without status; it exits
    with the descriptors it was started with. *)
Theorem ls_correct ev stat_of name path st es fds k w :
  tidy fds → writes fds 1 k → Z.of_nat (length path) + 1 + DIRSIZ + 1 ≤ 512 →
  e_open ev path 0 = Some (TFile (file_input (concat (map de_bytes es)))) →
  (∀ o, e_stat ev o (Some path) = Some st) → st_type st = T_DIR →
  Forall entry_ok es → Forall (λ e, e.1 ≠ 0 → file_status ev stat_of (child path e)) es →
  ∃ n w', (∀ fuel, (n ≤ fuel)%nat →
      run ev fuel (ls_main [name; path]) fds w = Ok ([(Exited, fds)], None, w')) ∧
    w_out w' !!! k = w_out w !!! k ++ (ls_header ≫= item_bytes) ++ concat (map (entry_text stat_of path) es).
Proof.
  intros Ht Hw Hl Ho Hs Hd Hes Hst.
  destruct (ls_dir_rule stat_of path st es fds k w Ht Hw Hl Ho Hs Hd Hes Hst) as (w' & H & E).
  destruct (eval_run (ev := ev) (ls_main [name; path]) fds w [(Exited, fds)] None w') as [n Hn]; [|by exists n, w'].
  unfold ls_main. eapply eval_bind_nil; [|apply eval_exit].
  eapply eval_bind_nil; [exact H | apply eval_mret].
Qed.

(** A directory with a hidden entry and two files, one of them with the setuid bit. *)
Lemma ls_correct_witness :
  let es : list entry := [(1, [46]); (0, [120]); (7, [97; 98]); (8, [99])] in
  let stat_of p := if bool_decide (p = [100; 47; 46]) then Some (mkStat 1 1 512 493 0 0)
                   else if bool_decide (p = [100; 47; 97; 98]) then Some (mkStat 2 7 12 1005 3 4) else None in
  let ev := mkEnv (λ p _, if bool_decide (p = [100]) then Some (TFile (file_input (concat (map de_bytes es))))
                          else match stat_of p with Some _ => Some (TFile []) | None => None end)
                  (λ _, false) (λ _, true) (λ _ _, 0)
                  (λ _ p, match p with Some [100] => Some (mkStat 1 1 512 493 0 0)
                                     | Some p => stat_of p | None => None end) None (λ _, (0, [])) in
  line_bytes [97; 98] (mkStat 2 7 12 1005 3 4) =
    bytes_of "-rwSr-xr-x ab            3" ++ [9] ++ bytes_of "4" ++ [9] ++ bytes_of "7" ++ [9] ++ bytes_of "12" ++ [10] ∧
  ∃ n w', run ev n (ls_main [[108; 115]; [100]]) demo_fds (mkWorld ∅ ∅ ∅ 2 []) = Ok ([(Exited, demo_fds)], None, w') ∧
    w_out w' !!! 0%nat = [] ++ (ls_header ≫= item_bytes) ++ concat (map (entry_text stat_of [100]) es).
Proof.
  intros es stat_of ev. split; [vm_compute; reflexivity|].
  destruct (ls_correct ev stat_of [108; 115] [100] (mkStat 1 1 512 493 0 0) es demo_fds 0 (mkWorld ∅ ∅ ∅ 2 []))
    as (n & w' & Hn & E).
  - repeat eexists.
  - eexists. split; reflexivity.
  - vm_compute. discriminate.
  - reflexivity.
  - reflexivity.
  - reflexivity.
  - repeat constructor; vm_compute; discriminate.
  - repeat constructor; cbn; intros; try (by eexists); done.
  - exists n, w'. split; [apply Hn; lia | exact E].
Defined.
